(* ===== verification/_CoqProject ===== *)
-Q . S2P
Prelude.v
Printf.v
Platform.v
Instances.v
Verdict.v
AppSettings.v
Session.v
Lockstep.v
Threads.v
Ticks.v
Health.v
Floats.v
HttpUtil.v
LogRing.v
Uplink.v
Wifi.v
Ring.v
PstopMain.v
Api.v
Frames.v
HttpRequests.v
HttpServer.v
Secrets.v
PrusaProto.v
PrusaCfg.v
PrusaConnect.v
PrusaCam.v
PrusaWeb.v
PrusaStream.v
Services.v
PrusaMain.v
PrusaWifi.v
CodexJson.v
CodexHid.v
CodexRpc.v
CodexKeys.v
AppTime.v
Teleop.v
Joystick.v
Calibrate.v
BtKeys.v
CamMgmt.v
RoverMotors.v
Rover.v
RoverHttp.v
PtMcp.v
Powerbread.v
