(* ===== verification/Prelude.v ===== *)
(** * Verification of the Zephyr applications

    This library models nine applications of the repository and the common
    services they use, and proves what makes them correct.

    protective_stop (src/applications/protective_stop/src, with common/http_util)
    is the remote half of an emergency stop: it reads a two-channel stop switch,
    and tells up to four machines over UDP, several times a second, that the
    switch is released; a machine that stops hearing so, stops.

    joystick_controller (with common/time) drives a robot from a stick over a ROS
    link that can fail at any moment; codex_keys is a key pad that exchanges JSON
    messages with a host over 63-byte HID reports.

    prusa_cam (with common/prusa_camera, watchdog, img_confirm, reset_reason and
    build_id) is a camera that uploads a picture every few seconds or minutes, and
    shows its pictures and its configuration on a page and a stream of its own.

    rasprover drives a rover's wheels and head from ROS commands and reports its
    joints and battery; bt_keys is a four-key pad as a Bluetooth and USB keyboard;
    data_collection serves frames of a camera to a host over MCUmgr; pt_mcp moves a
    pan-tilt head for an MCP client; powerbread measures two power rails.

    ** The program's parts and the files that model them

    - [Verdict.v]: estop_verdict.c and estop_gpio.c.  Each channel drives its loop
      high and low, reads both phases back ([estop_channel_sample]) and turns the
      reads into OK or STOP with a debounce after any open ([estop_decide]).
    - [Session.v]: session.c.  One machine's UDP session: bond, heartbeats with
      contiguous counters, replies, watchdog and re-bond, as functions on
      [pstop_session] and a network (the machine and a log of what was sent).
    - [Lockstep.v]: lockstep.c.  The 2-out-of-2 comparator: two samplers build
      every due slot's frame independently and the comparator transmits only when
      both agree byte for byte ([tick_sync], one tick, over the record [lockstep]
      of the file's statics), with the requests other threads post to it.
    - [Threads.v], [Ticks.v]: lockstep.c's two sampler threads and its comparator
      thread around their semaphores, as interleaved atomic steps ([step], [run]);
      and what an undisturbed tick of theirs computes.
    - [AppSettings.v]: app_settings.c.  The persistent settings: RAM statics, the
      load handler, init and every setter over Zephyr's settings store.
    - [Health.v]: health_logic.c and health.c.  Wear counters and their blob, the
      press detector on the comparator's ticks, the warning board, flushing.
    - [Ring.v]: ring.c and what of leds.c decides (what the LED ring shows).
    - [LogRing.v]: log_ring.c.  The log that survives a reset.
    - [PstopMain.v]: main.c, last_log.c, verbose.c and leds.c's thread.  What a boot
      starts and in which order, over all of the above.
    - [Uplink.v], [Wifi.v]: uplink.c and wifi.c.  Which interface carries the
      traffic, and the supervisor that joins the stored networks in turn.
    - [HttpUtil.v]: common/http_util.  Query strings, numbers, addresses, Basic auth.
    - [Api.v]: api.c (with crash.c and verbose.c).  Every route's handler, in a
      state monad [act] over the record [device] of all the parts' states; bodies
      are printed from the source's own format strings ([Printf.v]).
    - [HttpRequests.v], [HttpServer.v]: http_server.c.  The table of requests in
      progress and [route_handler], which gathers, answers and streams.
    - [Frames.v], [Secrets.v]: what requests can change and what they can reveal,
      shown once per component call and carried through every handler.
    - [Platform.v]: the platform as type classes - clock, GPIO, settings, sockets,
      the vendored pstop_c protocol library - with the laws that state their
      documented behaviour.  A component is written against the operations, and a
      theorem that needs a law names it.  [Instances.v]: concrete instances that
      satisfy the laws, on which the witnesses run.

    - [CodexJson.v]: codex_json.c.  The scanner that finds a member in raw JSON,
      against the grammar ([prints]).
    - [CodexHid.v]: codex_hid.c.  A message cut into reports and put together again.
    - [CodexRpc.v]: codex_rpc.c.  The answers, and the one request in flight.
    - [CodexKeys.v]: codex_keys's main.c.  Keys, lights, dial, and the scan loop.
    - [AppTime.v]: common/time.  The clock kept by SNTP, as callbacks in any order.
    - [Teleop.v]: teleop.c.  What each tick of the stick publishes.
    - [Joystick.v]: joystick_controller's main.c.  The loop and its link, over
      [Teleop] and [AppTime].
    - [Calibrate.v]: calibrate.c.  Calibrating the axes, over [Teleop].

    - [PrusaProto.v]: common/prusa_camera.  The camera-info body, what an answer
      means, and one HTTPS request from its credentials to the closed socket.
    - [PrusaCfg.v]: cfg.c.  The configuration, its bytes in the settings store, the
      guard every change passes, and the fingerprint.
    - [PrusaConnect.v]: connect.c.  The upload thread and whoever kicks it, as
      interleaved atomic steps ([do_event], [run]); a request is one step.
    - [PrusaCam.v]: cam.c.  Two frame buffers, their mutex and the flash, over the
      video driver; the threads that share them ([cam_step], [cam_runs]).
    - [PrusaWeb.v]: web.c and exif.h.  The page's five resources as callbacks on
      the statics they keep, over the configuration and the upload thread.
    - [PrusaStream.v]: stream.c.  One viewer, from the bytes of its request.
    - [PrusaMain.v], [PrusaWifi.v]: main.c and wifi.c.  The shell, the order of
      start-up and what confirms a new image; joining a network.
    - [Services.v]: the common watchdog, image trial, reset record and build
      identifier, a Module each; [PrusaMain.v] starts the first two.

    - [BtKeys.v]: bt_keys.  The bindings and their storage, the scan, the two
      reports ([report_keys]) and the transports they go to.
    - [CamMgmt.v]: data_collection.  A capture ([cam_mgmt_capture]) with every way
      out of it, the SMP handlers, a client's paging ([pull], [pulls]), the boot.
    - [RoverMotors.v], [Rover.v], [RoverHttp.v]: rasprover.  The wheels, with their
      command and their watchdog interleaved call by call ([motor_step]); the ROS
      node, the gimbal and the power reading ([rover_step]), over [AppTime] and
      [Services]; the status page.

    - [PtMcp.v]: pt_mcp.  The extractors that read a call's arguments, with [strtof];
      the tool ([motor_control]); the workers' calls and their watchdog channels
      ([call_step]); the start.
    - [Powerbread.v]: powerbread.  The sampler's statistics and their snapshot, what the
      pages say of it, the shell and the dial ([monitor_step]).
    - [Floats.v]: the C floats these and the rover use, and their order.

    The parts meet as in the code: the comparator opens and polls sessions on the
    peers that the settings name, its ticks feed the health observer and the ring,
    the handlers write settings and post reconfigure requests, and a new WiFi list
    posts a reload to the supervisor.

    ** Conventions

    Functions and fields keep the source's names.  Statics are a record passed and
    returned; a machine word is a [Z] with its wrap-around written ([u8], [u16],
    [u32], [u64]); a C string is the list of characters before its NUL, a char
    array a list of bytes; a failing call returns its negative errno.  A thing
    Zephyr owns is an opaque machine state [os] that every call may change.  In a
    format string a single quote stands for a double quote.

    ** What the theorems show

    - The safety core: an OK on the wire needs three closed reads on both channels,
      whatever is sent is the frame of a slot that is due, agreed on by both samplers,
      and agreement is sent; every tick is exactly one of missed, gated, mismatched,
      cleared.
    - The threads: in any interleaving a frame leaves only if both channels
      published it for the generation in flight, unless a sampler overran a whole
      tick; on one processor none can; a run where one does and a single channel's
      OK leaves; no sampler hangs the comparator; undisturbed, a threaded tick is
      [tick_sync].
    - Sessions: counters contiguous across failed sends, replies and re-bonds; the
      documented moves only; a rejected session stays silent until re-bonded.
    - Persistence: any history of setters, failed ones included, survives a reboot;
      health counters likewise; no press is lost in any interleaving.
    - The ring: green only for a machine each of whose fields, when it was read, was
      that of a cleared one; segments partition the ring; the mismatch colour needs a
      persistent fault and then stays.
    - Parsers and buffers: queries, addresses, numbers and Basic auth are exactly
      their specifications; the log ring holds the newest bytes; bodies fit.
    - The control plane: clients isolated in any interleaving of callbacks, the
      table scrubbed, types kept by every request; without credentials nothing they
      guard changes and no GET changes anything; no stored password is ever said;
      a peer update is stored whole or not at all, and opens its slot on the next tick
      exactly when a socket can be had; the masked WiFi listing can be posted back; a
      coredump arrives whole.
    - WiFi: one path at a time, and every stored network gets its turn.
    - The joystick: the robot is told to move only by an enabled, deflected stick
      that was let go since the last reset; one stop follows every motion and then
      silence; a released stick drives; speeds stay within the limits; the link is
      held whole or not at all; a calibration is stored sound and whole or not at
      all; a run where a grasp let go during a link drop is never taken back.
    - The clock: some callback is always due that leads to the next sync, unless a
      lookup ends with a status the code does not know, and a run where one does; a
      run where a reconnect starts a second query.
    - The camera: the configuration in use is always valid and survives a reboot; a
      posted or typed change is exact or refused whole; every wait between uploads
      is the configured interval doubled for each failure in a row, and uploads fall
      silent when refused; camera-info goes before pictures; a run where a change is
      lost; the body sent is exactly what is set, and no request leaves without good
      credentials; without the password nothing but the public page is shown and
      nothing changed; a picture is served whole and its buffer is nobody else's
      meanwhile; a request head is read the same however it arrives.
    - Start-up of the remote: the switch is read exactly when the settings load and
      the pins configure, and a slot 0 without a peer gets the built-in one; the
      last log is that of the boot before; the LED thread shows nothing of its
      uninitialised frame; a run where a cleared slot 0 comes back.
    - The services: a new image is confirmed once main has run to its end, by a
      frame and an address alone, and its deadline stands until then; the failures
      counted are those that happened; the build identifier is appended whole or
      refused.
    - The rover: whatever is commanded, and however threads interleave, duties stay
      in range and a moving wheel has the watchdog behind it; two runs the code does
      not mean (a NaN drives at full speed, a twist cut in half); the head moves in
      both axes or neither; joints are reported whole; the node comes up whole or
      not at all, and an image is confirmed only by a publication; the status page is
      whole or refused, and with a short version string always whole.
    - data_collection: a capture returns, with no buffer lost, wherever it fails; a
      frame paged through while others capture is that frame whole, and the paging
      ends; the deepest format is asked for; an image is confirmed by a first frame
      and a lease alone.
    - pt_mcp: on any flat object whose strings do not say its keys the head gets
      exactly the write it was told, and one answer, which says what came of it;
      calls are watched, and leave no channel behind, in any interleaving; a run
      where a note moves an axis.
    - powerbread: the snapshot is that of the readings since power-on and since the
      reset; every text reads back as the number it was made of.
    - bt_keys: what was last sent names the keys that are held; a binding saved
      survives a reboot; the pad starts exactly when every call it needs succeeds; a
      run where a rebound key is reported on the wrong page.
    - The key pad: the scanner agrees with the JSON grammar; a message sent is the
      message received, unless a fragment looks like a new request, and a run where
      one does; every request gets one answer that fits; the events sent mirror the
      keys; the dial does not drift.

    ** Bounds and fuel

    [query_loop], [poll_loop], [write_loop], [stream_all] and CodexJson's
    [value_loop] and [member_loop] take fuel, the latter two and [fragments] one
    more than the text's length, since every turn consumes a character.  A query is
    at most its length in pairs; a poll is bounded by the socket's queue
    ([poll_terminates] shows enough fuel always ends the drain); a ring write takes
    at most one piece per byte; a dump at most one chunk per byte; a request head
    at most one receive per byte and [send_loop] one send, [auth_lines] one line per
    character; [drain] and [requeue] one turn per buffer and one to find none, as
    [drain_driver] ([drain_pool] shows it ends) and [pull] one READ per chunk.  Each
    is shown to reach its result with that fuel, never to run out silently; a
    viewer's [stream_loop] runs for as many turns as it is given.

    ** Assumptions and what is not modelled

    - A mutex makes the operation it guards one step.  The threads interleave at
      each access to a semaphore or to the generation and each turn of a loop over
      the slots; the instructions within one turn do not, and memory is
      sequentially consistent (the atomics the source uses give that order).
    - A kernel semaphore is its count, and a timed take fails once the uptime has
      reached its deadline with nothing given; generations are compared over runs
      of fewer than 2^32 ticks, 13 years.
    - Log messages at INFO are compiled in: lockstep.c reconfigures a slot inside
      the argument of one, which a build without them would skip.
    - A receive drains the queue a socket holds; nothing arrives during the drain.
    - json_obj_parse (given the source's descriptors in [PrusaWeb.v]), base64,
      sockets, coredump storage, WiFi and network interfaces are Zephyr's: classes,
      with laws only where a theorem needs one.
    - The joystick's callbacks run between any two reads of what they set; within
      one read they do not.  Doubles are binary64, rounding to nearest.
    - The LED thread reads the comparator's sessions without a lock: each of its reads
      has its own moment, and a 64-bit field is two of them ([sightings]).
    - The pauses between HID fragments are not modelled; a send is one step under
      its mutex.
    - The upload thread's request is one step: what others set meanwhile is seen
      after it.  No frame completes between the driver calls of one camera
      operation, and the threads that share the camera give a frame back before
      they call again; [PrusaConnect.v] and [PrusaWeb.v] take the camera as the
      interface [CamStation], as a thread that has its turn sees it.
    - The floats of rasprover, pt_mcp and powerbread are binary32, compared and
      rounded as C does; a macro such as CLAMP is its two comparisons; [strtof]
      rounds to the nearest.  Converting a float that the integer type cannot hold
      is undefined in C, so that no wrap or saturation is the code's; [truncate]
      gives the number.  Each actuator call is one step.
    - Stopping a video stream cancels what is queued, so that a dequeue then fails
      only when nothing is; the driver and the pool are classes with that law.
    - MCUboot's flag stays set once written, retained memory keeps what was written
      to it until the power goes, and a C long is 32 bits.
    - Not modelled of protective_stop: the log backend's formatting, the HTTP
      server's start and work queue timing.  Of codex_keys: the Bluetooth connection
      callbacks and the registration tables.  Of prusa_cam: the page's bytes, the
      accept loop of the stream, log messages and the registration tables.  Of the
      services: the coredump's copy of the build identifier.  Of rasprover: the
      display, main's loop and the wait for the network.  Of bt_keys: the connection
      callbacks and the constant descriptors.  Of powerbread: the layout of its
      pages, LVGL's loop, and the made-up readings of a board without the sensor.
      The repository's other applications share no state with these:
      bluetooth_proxy_device, embedded_vision, force_sensor, motor_controller,
      pico_fw.

    This file is the prelude: record update, machine words, bit sets, bytes and the
    list lemmas the components share. *)

From stdpp Require Export base list gmap strings pretty.
From Stdlib Require Export ZArith Lia.
From Stdlib Require Export Btauto.
#[local] Open Scope Z_scope.

Declare Scope c_scope.
Delimit Scope c_scope with c.

(** * Record update

    [r <| f := v |>] is [r] with field [f] set to [v] and [r <| f ::= g |>] is
    [r] with [g] applied to field [f].  A record type opts in with an instance
    of [Eta], the record rebuilt from its projections; the updater of a field
    is derived by the hint below, and unfolds to a plain constructor. *)
Class Eta (R : Type) := eta : R -> R.
Class Update {R F : Type} (proj : R -> F) := update : (F -> F) -> R -> R.
#[global] Arguments update {R F} proj {_} _ _ /.

Ltac head_of t := lazymatch t with ?f _ => head_of f | _ => t end.

Ltac derive_update :=
  lazymatch goal with
  | |- @Update ?R ?F ?proj =>
      exact (fun (f : F -> F) (x : R) =>
        ltac:(let i := constr:(@eta R _ x) in
              let body := eval cbv beta delta [eta] in i in
              let h := head_of body in
              let body := eval cbv beta delta [h] in body in
              lazymatch eval pattern (proj x) in body with
              | ?k _ => let res := eval cbv beta in (k (f (proj x))) in exact res
              end))
  end.
#[export] Hint Extern 0 (Update _) => derive_update : typeclass_instances.

Notation "r <| f := v |>" := (update f (fun _ => v) r)
  (at level 1, left associativity, format "r  <| f  :=  v |>") : c_scope.
Notation "r <| f ::= g |>" := (update f g r)
  (at level 1, left associativity, format "r  <| f  ::=  g |>") : c_scope.
#[global] Open Scope c_scope.

(** * Machine integers

    A C integer of width [w] is a [Z]; a definition writes the wrap-around
    where the C code's type reduces a value. *)
Definition u8 (z : Z) : Z := z mod 2 ^ 8.
Definition u16 (z : Z) : Z := z mod 2 ^ 16.
Definition u32 (z : Z) : Z := z mod 2 ^ 32.
Definition u64 (z : Z) : Z := z mod 2 ^ 64.

Definition UINT32_MAX : Z := 2 ^ 32 - 1.

(** [BIT(n)] of Zephyr's util.h and the test of a mask for it. *)
Definition BIT (n : nat) : Z := Z.shiftl 1 (Z.of_nat n).
Definition has_bit (mask : Z) (n : nat) : bool := negb (Z.land mask (BIT n) =? 0).

(** * errno values the code returns negated, as Zephyr's C libraries number them *)
Definition ENOENT : Z := 2.
Definition EIO : Z := 5.
Definition E2BIG : Z := 7.
Definition ENOMEM : Z := 12.
Definition EBUSY : Z := 16.
Definition ENODEV : Z := 19.
Definition EINVAL : Z := 22.
Definition ENOSPC : Z := 28.
Definition EHOSTUNREACH : Z := 118.
Definition EMSGSIZE : Z := 122.
Definition ENOTCONN : Z := 128.
Definition ENOTSUP : Z := 134.

(** * Lists *)

(** Length of the longest suffix of [l] whose elements all satisfy [P]. *)
Fixpoint streak {A} (P : A -> bool) (l : list A) (acc : nat) : nat :=
  match l with
  | [] => acc
  | x :: l' => streak P l' (if P x then S acc else O)
  end.
Definition trailing {A} (P : A -> bool) (l : list A) : nat := streak P l O.

(** Offset of the first difference of two buffers, as a byte scan finds it. *)
Fixpoint first_diff (a b : list Z) : nat :=
  match a, b with
  | x :: a', y :: b' => if x =? y then S (first_diff a' b') else O
  | _, _ => O
  end.

(** * Tactics *)

(** Split a hypothesis or a goal on every boolean test it contains. *)
Ltac bool_case :=
  match goal with
  | |- context [if ?b then _ else _] => destruct b eqn:?
  | H : context [if ?b then _ else _] |- _ => destruct b eqn:?
  end.

(** Turn boolean tests in the context into propositions. *)
Ltac to_prop :=
  repeat match goal with
  | H : (_ && _)%bool = true |- _ => apply andb_true_iff in H; destruct H
  | H : (_ && _)%bool = false |- _ => apply andb_false_iff in H
  | H : (_ || _)%bool = false |- _ => apply orb_false_iff in H; destruct H
  | H : (_ || _)%bool = true |- _ => apply orb_true_iff in H
  | H : negb _ = true |- _ => apply negb_true_iff in H
  | H : negb _ = false |- _ => apply negb_false_iff in H
  | H : (_ =? _) = true |- _ => apply Z.eqb_eq in H
  | H : (_ =? _) = false |- _ => apply Z.eqb_neq in H
  | H : (_ <? _) = true |- _ => apply Z.ltb_lt in H
  | H : (_ <? _) = false |- _ => apply Z.ltb_ge in H
  | H : (_ <=? _) = true |- _ => apply Z.leb_le in H
  | H : (_ <=? _) = false |- _ => apply Z.leb_gt in H
  | H : bool_decide _ = true |- _ => apply bool_decide_eq_true in H
  | H : bool_decide _ = false |- _ => apply bool_decide_eq_false in H
  end.

(** Destruct the pair-valued call a [let '(a, b) := ...] scrutinises. *)
Ltac pair_case :=
  match goal with
  | |- context [let '(_, _) := ?e in _] => destruct e eqn:?
  | H : context [let '(_, _) := ?e in _] |- _ => destruct e eqn:?
  end.

Ltac word_unfold := unfold u8, u16, u32, u64, UINT32_MAX in *.

(** * Lemmas *)

Create HintDb words discriminated.
Create Rewrite HintDb words_rw.

Lemma u8_range z : 0 <= u8 z < 256.
Proof. apply Z.mod_pos_bound; lia. Qed.
Lemma u16_range z : 0 <= u16 z < 65536.
Proof. apply Z.mod_pos_bound; lia. Qed.
Lemma u32_range z : 0 <= u32 z < 2 ^ 32.
Proof. apply Z.mod_pos_bound; lia. Qed.
Lemma u64_range z : 0 <= u64 z < 2 ^ 64.
Proof. apply Z.mod_pos_bound; lia. Qed.
Lemma u8_small z : 0 <= z < 256 -> u8 z = z.
Proof. apply Z.mod_small. Qed.
Lemma u16_small z : 0 <= z < 65536 -> u16 z = z.
Proof. apply Z.mod_small. Qed.
Lemma u32_small z : 0 <= z < 2 ^ 32 -> u32 z = z.
Proof. apply Z.mod_small. Qed.
Lemma u64_small z : 0 <= z < 2 ^ 64 -> u64 z = z.
Proof. apply Z.mod_small. Qed.
#[export] Hint Resolve u8_range u16_range u32_range u64_range : words.

Lemma BIT_testbit mask n : has_bit mask n = Z.testbit mask (Z.of_nat n).
Proof.
  unfold has_bit, BIT. rewrite Z.shiftl_1_l.
  destruct (Z.land mask (2 ^ Z.of_nat n) =? 0) eqn:E; to_prop; simpl.
  - symmetry. destruct (Z.testbit mask (Z.of_nat n)) eqn:T; [|done].
    assert (Z.testbit (Z.land mask (2 ^ Z.of_nat n)) (Z.of_nat n) = true) as H.
    { rewrite Z.land_spec, T, Z.pow2_bits_true by lia. done. }
    rewrite E, Z.bits_0 in H. done.
  - destruct (Z.testbit mask (Z.of_nat n)) eqn:T; [done|].
    exfalso. apply E. apply Z.bits_inj'. intros i Hi.
    rewrite Z.land_spec, Z.bits_0.
    destruct (Z.eq_dec i (Z.of_nat n)) as [->|Hne]; [by rewrite T|].
    rewrite (Z.pow2_bits_false (Z.of_nat n) i) by lia. by rewrite andb_false_r.
Qed.

Lemma has_bit_lor m k n :
  has_bit (Z.lor m (BIT k)) n = has_bit m n || bool_decide (k = n).
Proof.
  rewrite !BIT_testbit, Z.lor_spec. f_equal.
  unfold BIT. rewrite Z.shiftl_1_l. case_bool_decide as H.
  - subst. by rewrite Z.pow2_bits_true by lia.
  - apply Z.pow2_bits_false. lia.
Qed.

Lemma has_bit_0 n : has_bit 0 n = false.
Proof. by rewrite BIT_testbit, Z.bits_0. Qed.
#[export] Hint Rewrite has_bit_lor has_bit_0 : words_rw.

Lemma streak_app {A} (P : A -> bool) l x acc :
  streak P (l ++ [x]) acc = if P x then S (streak P l acc) else O.
Proof. revert acc. induction l as [|y l IH]; intros acc; [done|]. apply IH. Qed.

Lemma trailing_snoc {A} (P : A -> bool) l x :
  trailing P (l ++ [x]) = if P x then S (trailing P l) else O.
Proof. apply streak_app. Qed.

Lemma trailing_le {A} (P : A -> bool) l : (trailing P l <= length l)%nat.
Proof.
  induction l as [|x l IH] using rev_ind; [done|].
  rewrite trailing_snoc, length_app; simpl. destruct (P x); lia.
Qed.

(** The last [trailing P l] elements all satisfy [P]. *)
Lemma trailing_Forall {A} (P : A -> bool) l n :
  (n <= trailing P l)%nat -> Forall (fun x => P x = true) (drop (length l - n) l).
Proof.
  revert n. induction l as [|x l IH] using rev_ind; intros n Hn; [by rewrite drop_nil|].
  rewrite trailing_snoc in Hn. rewrite length_app in *; simpl in *.
  destruct n as [|n]; [rewrite drop_ge by (rewrite length_app; simpl; lia); constructor|].
  destruct (P x) eqn:E; [|lia].
  pose proof (trailing_le P l).
  rewrite drop_app_le by lia. apply Forall_app. split; [|by constructor].
  replace (length l + 1 - S n)%nat with (length l - n)%nat by lia. apply IH. lia.
Qed.

Lemma first_diff_spec a b :
  length a = length b -> a <> b ->
  (first_diff a b < length a)%nat /\
  take (first_diff a b) a = take (first_diff a b) b /\
  a !! first_diff a b <> b !! first_diff a b.
Proof.
  revert b. induction a as [|x a IH]; intros [|y b] Hl Hne; simpl in *; try done.
  destruct (x =? y) eqn:E; to_prop.
  - subst. destruct (IH b) as (H1 & H2 & H3); [lia|congruence|].
    simpl. repeat split; [lia|by rewrite H2|done].
  - simpl. repeat split; [lia|congruence].
Qed.

Lemma foldl_same {A B} (f g : A -> B -> A) : (forall a b, f a b = g a b) ->
  forall l a, foldl f a l = foldl g a l.
Proof. intros Hfg l. induction l as [|b l IH]; intros a; [done|]. cbn. by rewrite Hfg, IH. Qed.

(** * Byte strings: little- and big-endian words *)
Fixpoint le_bytes (n : nat) (z : Z) : list Z :=
  match n with
  | O => []
  | S n => z mod 256 :: le_bytes n (z / 256)
  end.
Fixpoint le_val (bs : list Z) : Z :=
  match bs with
  | [] => 0
  | b :: bs => b + 256 * le_val bs
  end.

Lemma length_le_bytes n z : length (le_bytes n z) = n.
Proof. revert z. induction n as [|n IH]; intros z; simpl; [done|by rewrite IH]. Qed.

Lemma le_val_bytes n z : le_val (le_bytes n z) = z mod 2 ^ (8 * Z.of_nat n).
Proof.
  revert z. induction n as [|n IH]; intros z.
  - simpl. by rewrite Z.mod_1_r.
  - cbn [le_bytes le_val]. rewrite IH.
    replace (2 ^ (8 * Z.of_nat (S n))) with (256 * 2 ^ (8 * Z.of_nat n))
      by (rewrite Nat2Z.inj_succ; replace (8 * Z.succ (Z.of_nat n)) with (8 + 8 * Z.of_nat n) by lia;
          rewrite Z.pow_add_r by lia; reflexivity).
    rewrite Z.rem_mul_r by lia. lia.
Qed.

Lemma le_val_bytes_small n z : 0 <= z < 2 ^ (8 * Z.of_nat n) -> le_val (le_bytes n z) = z.
Proof. intros H. rewrite le_val_bytes. by apply Z.mod_small. Qed.

Lemma le_bytes_range n z : Forall (fun b => 0 <= b < 256) (le_bytes n z).
Proof.
  revert z. induction n as [|n IH]; intros z; simpl; constructor; [|apply IH].
  apply Z.mod_pos_bound. lia.
Qed.
#[export] Hint Rewrite length_le_bytes : words_rw.

(** A field shifted past another's bits and or-ed in is added. *)
Lemma lor_concat a b n : 0 <= n -> 0 <= b < 2 ^ n -> Z.lor (Z.shiftl a n) b = a * 2 ^ n + b.
Proof.
  intros Hn Hb. rewrite Z.shiftl_mul_pow2 by done.
  rewrite <- Z.add_lor_land.
  assert (Z.land (a * 2 ^ n) b = 0) as ->; [|lia].
  apply Z.bits_inj'. intros i Hi. rewrite Z.land_spec, Z.bits_0.
  destruct (Z.ltb_spec i n) as [Hlt|Hge].
  - by rewrite Z.mul_pow2_bits_low by lia.
  - replace b with (b mod 2 ^ n) by (by apply Z.mod_small).
    rewrite Z.mod_pow2_bits_high by lia. apply andb_false_r.
Qed.
