(* ===== verification/Printf.v ===== *)
(** C strings and the formatted printing the sources use: [snprintf] with the
    conversions u, d, llu, lld, s and the percent sign, as a function of the format
    text, and the bounds on what it can print. *)

From Stdlib Require Import Ascii.
From S2P Require Import Prelude.
#[local] Open Scope Z_scope.

Inductive arg := PInt (z : Z) | PStr (s : string).

Definition decimal (z : Z) : string := pretty (Z.to_N z).
(** The value of an int argument. *)
Definition s32 (z : Z) : Z := let v := u32 z in if v <? 2 ^ 31 then v else v - 2 ^ 32.
Definition s64 (z : Z) : Z := let v := u64 z in if v <? 2 ^ 63 then v else v - 2 ^ 64.
Definition signed_decimal (z : Z) : string :=
  if z <? 0 then ("-" ++ decimal (- z))%string else decimal z.

(** The length modifier is part of the conversion. *)
Inductive conv := ConvU | ConvD | ConvLLU | ConvLLD | ConvS.
Definition print_arg (k : conv) (a : arg) : string :=
  match k, a with
  | ConvU, PInt z => decimal (u32 z)
  | ConvD, PInt z => signed_decimal (s32 z)
  | ConvLLU, PInt z => decimal (u64 z)
  | ConvLLD, PInt z => signed_decimal (s64 z)
  | ConvS, PStr s => s
  | _, _ => ""
  end.

Inductive token := TChar (c : ascii) | TConv (k : conv).
Fixpoint tokens (f : string) : list token :=
  match f with
  | EmptyString => []
  | String "%" (String "%" f) => TChar "%" :: tokens f
  | String "%" (String "u" f) => TConv ConvU :: tokens f
  | String "%" (String "d" f) => TConv ConvD :: tokens f
  | String "%" (String "s" f) => TConv ConvS :: tokens f
  | String "%" (String "l" (String "l" (String "u" f))) => TConv ConvLLU :: tokens f
  | String "%" (String "l" (String "l" (String "d" f))) => TConv ConvLLD :: tokens f
  | String c f => TChar c :: tokens f
  end.
Fixpoint print_tokens (ts : list token) (args : list arg) : string :=
  match ts with
  | [] => ""
  | TChar c :: ts => String c (print_tokens ts args)
  | TConv k :: ts => match args with
                     | a :: args => print_arg k a ++ print_tokens ts args
                     | [] => print_tokens ts []
                     end
  end%string.

(** The double quote of a C format is written as a single one in the literals of
    this development; no format of the sources has a single quote. *)
Definition dquote : ascii := ascii_of_nat 34.
Fixpoint q (f : string) : string :=
  match f with
  | EmptyString => EmptyString
  | String c f => String (if Ascii.eqb c "'" then dquote else c) (q f)
  end.

(** The whole text a format prints. *)
Definition format (f : string) (args : list arg) : string := print_tokens (tokens (q f)) args.

(** [snprintf] into [cap] bytes: the full length, and the string stored. *)
Definition snprintf (cap : nat) (f : string) (args : list arg) : nat * string :=
  let text := format f args in (String.length text, String.substring 0 (cap - 1) text).

(** ** Strings as characters *)
Definition of_chars (s : list ascii) : string := String.string_of_list_ascii s.
Definition to_chars (s : string) : list ascii := String.list_ascii_of_string s.

(** * Lemmas *)
Lemma string_length_app a b : String.length (a ++ b) = (String.length a + String.length b)%nat.
Proof. induction a as [|c a IH]; [done|]. exact (f_equal S IH). Qed.

Lemma string_app_assoc (a b c : string) : ((a ++ b) ++ c = a ++ (b ++ c))%string.
Proof. induction a as [|x a IH]; [done|]. exact (f_equal (String x) IH). Qed.

Lemma string_app_nil_r (a : string) : (a ++ "" = a)%string.
Proof. induction a as [|x a IH]; [done|]. exact (f_equal (String x) IH). Qed.

(** Characters of strings. *)
Lemma to_chars_app a b : to_chars (a ++ b) = to_chars a ++ to_chars b.
Proof. induction a as [|c a IH]; [done|]. exact (f_equal (cons c) IH). Qed.
Lemma to_of_chars l : to_chars (of_chars l) = l.
Proof. apply String.list_ascii_of_string_of_list_ascii. Qed.
Lemma to_chars_length s : length (to_chars s) = String.length s.
Proof. induction s as [|c s IH]; [done|]. exact (f_equal S IH). Qed.
Lemma substring_all n s : (String.length s <= n)%nat -> String.substring 0 n s = s.
Proof.
  revert n. induction s as [|c s IH]; intros n Hn; [by destruct n|].
  destruct n as [|n]; [simpl in Hn; lia|]. cbn. rewrite IH; [done|]. simpl in Hn. lia.
Qed.

(** The width of a number. *)
Lemma length_pretty_go k x s : (x < 10 ^ N.of_nat k)%N ->
  (String.length (pretty_N_go x s) <= k + String.length s)%nat.
Proof.
  revert x s. induction k as [|k IH]; intros x s Hx.
  - assert (x = 0)%N as -> by (cbn in Hx; lia). by rewrite pretty_N_go_0.
  - destruct (N.eq_dec x 0) as [->|Hne]; [rewrite pretty_N_go_0; lia|].
    rewrite pretty_N_go_step by lia.
    assert (x / 10 < 10 ^ N.of_nat k)%N as Hd.
    { apply N.Div0.div_lt_upper_bound. rewrite Nat2N.inj_succ, N.pow_succ_r' in Hx. lia. }
    specialize (IH _ (String (pretty_N_char (x mod 10)) s) Hd).
    change (String.length (String (pretty_N_char (x mod 10)) s)) with (S (String.length s)) in IH. lia.
Qed.

Lemma length_decimal k z : (1 <= k)%nat -> z < 10 ^ Z.of_nat k ->
  (String.length (decimal z) <= k)%nat.
Proof.
  intros Hk Hz. unfold decimal, pretty, pretty_N.
  destruct (decide (Z.to_N z = 0%N)); [cbn; lia|].
  pose proof (length_pretty_go k (Z.to_N z) "") as Hl.
  change (String.length "") with 0%nat in Hl. rewrite Nat.add_0_r in Hl. apply Hl.
  apply N2Z.inj_lt. rewrite N2Z.inj_pow, nat_N_Z. change (Z.of_N 10) with 10.
  assert (0 < 10 ^ Z.of_nat k) by (apply Z.pow_pos_nonneg; lia). lia.
Qed.

Lemma decimal_u32 z : (String.length (decimal (u32 z)) <= 10)%nat.
Proof. apply length_decimal; [lia|]. pose proof (u32_range z). lia. Qed.
Lemma decimal_u64 z : (String.length (decimal (u64 z)) <= 20)%nat.
Proof. apply length_decimal; [lia|]. pose proof (u64_range z). lia. Qed.
Lemma signed_s32 z : (String.length (signed_decimal (s32 z)) <= 11)%nat.
Proof.
  unfold signed_decimal, s32. pose proof (u32_range z) as Hr.
  destruct (Z.ltb_spec (u32 z) (2 ^ 31)).
  - destruct (Z.ltb_spec (u32 z) 0); [lia|].
    pose proof (length_decimal 10 (u32 z)). lia.
  - destruct (Z.ltb_spec (u32 z - 2 ^ 32) 0); rewrite ?string_length_app; cbn [String.length].
    + pose proof (length_decimal 10 (- (u32 z - 2 ^ 32)) ltac:(lia) ltac:(lia)). lia.
    + lia.
Qed.
Lemma signed_s64 z : (String.length (signed_decimal (s64 z)) <= 20)%nat.
Proof.
  unfold signed_decimal, s64. pose proof (u64_range z) as Hr.
  destruct (Z.ltb_spec (u64 z) (2 ^ 63)).
  - destruct (Z.ltb_spec (u64 z) 0); [lia|]. pose proof (length_decimal 20 (u64 z)). lia.
  - destruct (Z.ltb_spec (u64 z - 2 ^ 64) 0); rewrite ?string_length_app; cbn [String.length]; [|lia].
    pose proof (length_decimal 19 (- (u64 z - 2 ^ 64)) ltac:(lia) ltac:(lia)). lia.
Qed.

(** What a format can print at most: its literal characters, and per
    conversion the width of its type or the length of its string. *)
Definition lits (ts : list token) : Z :=
  foldr (fun t n => match t with TChar _ => 1 + n | TConv _ => n end) 0 ts.
Definition convs (ts : list token) : list conv :=
  omap (fun t => match t with TChar _ => None | TConv k => Some k end) ts.
Definition arg_width (k : conv) (a : arg) : Z :=
  match k, a with
  | ConvU, PInt _ => 10 | ConvD, PInt _ => 11 | ConvLLU, PInt _ => 20 | ConvLLD, PInt _ => 20
  | ConvS, PStr s => Z.of_nat (String.length s)
  | _, _ => 0
  end.
Fixpoint args_width (ks : list conv) (args : list arg) : Z :=
  match ks, args with
  | k :: ks, a :: args => arg_width k a + args_width ks args
  | _, _ => 0
  end.
Definition fwidth (f : string) (args : list arg) : Z :=
  lits (tokens (q f)) + args_width (convs (tokens (q f))) args.

Lemma print_arg_width k a : Z.of_nat (String.length (print_arg k a)) <= arg_width k a.
Proof.
  pose proof (fun z => inj_le _ _ (decimal_u32 z)). pose proof (fun z => inj_le _ _ (decimal_u64 z)).
  pose proof (fun z => inj_le _ _ (signed_s32 z)). pose proof (fun z => inj_le _ _ (signed_s64 z)).
  destruct k, a; cbn -[Z.of_nat]; done || lia.
Qed.
Lemma print_width ts args :
  Z.of_nat (String.length (print_tokens ts args)) <= lits ts + args_width (convs ts) args.
Proof.
  revert args. induction ts as [|[c|k] ts IH]; intros args; [done| |].
  - specialize (IH args). cbn [print_tokens lits foldr convs omap].
    change (String.length (String c ?s)) with (S (String.length s)).
    fold (lits ts). unfold convs in *. cbn. lia.
  - destruct args as [|a args].
    + specialize (IH []). cbn [print_tokens]. unfold convs in *. cbn.
      destruct (omap _ ts); cbn in *; unfold lits in IH; lia.
    + cbn [print_tokens]. rewrite string_length_app. specialize (IH args).
      pose proof (print_arg_width k a). unfold convs in *. cbn. unfold lits in IH. lia.
Qed.
Lemma format_width f args : Z.of_nat (String.length (format f args)) <= fwidth f args.
Proof. apply print_width. Qed.

Example format_demo :
  format "{'ok':%s,'slot':%u}" [PStr "true"; PInt 3] =
  ("{" ++ String dquote "ok" ++ String dquote ":true," ++ String dquote "slot" ++ String dquote ":3}")%string.
Proof. vm_compute. reflexivity. Qed.
