(* ===== verification/Platform.v ===== *)
(** The platform the firmware runs on, as interfaces.

    Zephyr's kernel clock, GPIO driver and settings subsystem, and the vendored
    [pstop_c] protocol library are not part of the repository, so they are
    type classes: the operations the sources call ([Os], [Gpio], [Settings],
    [Sockets], [PstopLib]), and next to each the laws the development relies
    on, which state the documented behaviour of those calls.  The components
    are written against the operations; a theorem that needs a law says so in
    its context.  Instances that satisfy the laws are in [Instances.v]. *)

From S2P Require Import Prelude.
#[local] Open Scope Z_scope.

(** ** Kernel: an opaque machine state and its millisecond clock.  The clock
    may move on at every read. *)
Class Os := {
  os : Type;
  k_uptime_get : os -> Z * os;
}.

(** ** GPIO.  A pin is named by its role: the drive ([out]) or sense ([in])
    pin of a channel. *)
Inductive pin := estop_out (c : nat) | estop_in (c : nat).
Inductive pin_flags := GPIO_OUTPUT_INACTIVE | GPIO_INPUT_PULL_DOWN.

Class Gpio `{Os} := {
  gpio_is_ready_dt : pin -> os -> bool;
  gpio_pin_configure_dt : pin -> pin_flags -> os -> Z * os;
  gpio_pin_set_dt : pin -> Z -> os -> Z * os;
  gpio_pin_get_dt : pin -> os -> Z * os;
  (* the emulated controller's input, CONFIG_GPIO_EMUL *)
  gpio_emul_input_set_dt : pin -> Z -> os -> os;
}.

(** What the emulator documents: an input reads back the level last set on it. *)
Class GpioEmulLaws `{Gpio} : Prop := {
  emul_get_set : forall c v w, (c < 2)%nat -> (v = 0 \/ v = 1) ->
    fst (gpio_pin_get_dt (estop_in c) (gpio_emul_input_set_dt (estop_in c) v w)) = v;
}.

(** ** Settings: a persistent store of byte strings under string keys.
    [settings_load_subtree] hands every stored entry under a root to the
    root's handler, as the name below the root, the value's length and a read
    callback ([None] is a read error), in the order of the list.
    [settings_name_steq name key] is [None] when [name]'s first component is
    not [key], and otherwise [Some next], the rest of the path if there is one. *)
Record setting_value := mk_setting_value {
  sv_len : nat;
  sv_read : nat -> option (list Z);
}.
Class Settings `{Os} := {
  settings_subsys_init : os -> Z * os;
  settings_save_one : string -> list Z -> os -> Z * os;
  settings_load_subtree : string -> os -> (Z * list (string * setting_value)) * os;
  settings_name_steq : string -> string -> option (option string);
}.

(** The value a stored byte string is handed over as. *)
Definition stored_value (b : list Z) : setting_value :=
  mk_setting_value (length b) (fun n => Some (take n b)).

(** The store's contract, over its contents [stored]: a successful save
    replaces one key, a failed one changes nothing; loading a subtree reports
    exactly the stored keys under the root, with their values; and path matching is
    by the first component. *)
Class SettingsLaws `{Settings} : Type := {
  stored : os -> string -> option (list Z);
  save_ok : forall k b w w', settings_save_one k b w = (0, w') ->
    forall k', stored w' k' = if decide (k' = k) then Some b else stored w k';
  save_failed : forall k b w r w', settings_save_one k b w = (r, w') -> r <> 0 ->
    forall k', stored w' k' = stored w k';
  init_keeps : forall w r w', settings_subsys_init w = (r, w') ->
    forall k, stored w' k = stored w k;
  load_keeps : forall root w x w', settings_load_subtree root w = (x, w') ->
    forall k, stored w' k = stored w k;
  load_complete : forall root w es w' name b,
    settings_load_subtree root w = ((0, es), w') ->
    stored w (root +:+ "/" +:+ name) = Some b -> (name, stored_value b) ∈ es;
  load_sound : forall root w es w' name v,
    settings_load_subtree root w = ((0, es), w') -> (name, v) ∈ es ->
    exists b, stored w (root +:+ "/" +:+ name) = Some b /\ v = stored_value b;
  steq_leaf : forall key, settings_name_steq key key = Some None;
  steq_path : forall key rest, settings_name_steq (key +:+ "/" +:+ rest) key = Some (Some rest);
  steq_other : forall name key next, settings_name_steq name key = Some next ->
    name = match next with None => key | Some rest => key +:+ "/" +:+ rest end;
}.

(** ** hwinfo: the chip's factory id. *)
Class Hwinfo `{Os} := {
  hwinfo_get_device_id : nat -> os -> (Z * list Z) * os;
}.

(** ** UDP sockets, the zsock calls. *)
Record sockaddr_in := mk_sockaddr { sin_addr : Z; sin_port : Z }.
#[export] Instance sockaddr_eq_dec : EqDecision sockaddr_in.
Proof. solve_decision. Defined.

Class Sockets `{Os} := {
  zsock_socket : os -> Z * os;
  zsock_bind : Z -> Z -> os -> Z * os;
  zsock_close : Z -> os -> os;
  zsock_sendto : Z -> list Z -> sockaddr_in -> os -> Z * os;
  zsock_recvfrom : Z -> nat -> os -> (Z * list Z * sockaddr_in) * os;
  errno : os -> Z;
  (* datagrams queued on a socket *)
  recv_queue : Z -> os -> nat;
}.

(** A receive that returns a datagram takes it off a finite queue. *)
Class SocketLaws `{Sockets} : Prop := {
  recv_consumes : forall fd len w n buf from w',
    zsock_recvfrom fd len w = ((n, buf, from), w') -> 0 <= n ->
    (recv_queue fd w' < recv_queue fd w)%nat;
}.

(** A call that fails leaves its error number, and closing the socket does not
    clear it. *)
Class ErrnoLaws `{Sockets} : Prop := {
  errno_socket : forall w n w', zsock_socket w = (n, w') -> n < 0 -> 0 < errno w';
  errno_bind : forall fd p w n w', zsock_bind fd p w = (n, w') -> n < 0 ->
    0 < errno (zsock_close fd w');
}.

(** ** pstop_c: message codes, messages and their 48-byte encoding, and the
    auxiliary channel that carries the role. *)
Definition PSTOP_MESSAGE_SIZE : nat := 48.

Inductive pstop_aux_role_t := PSTOP_AUX_ROLE_STOP_ONLY | PSTOP_AUX_ROLE_OPERATOR.

(** The fields of [protocol_data_t] the sources read and write. *)
Record protocol_data_t := mk_protocol_data {
  msg_counter : Z;
  last_received_counter : Z;
  last_received_stamp : Z;
  remote_id : Z;
}.
#[export] Instance eta_protocol_data : Eta protocol_data_t := fun p =>
  mk_protocol_data (msg_counter p) (last_received_counter p) (last_received_stamp p) (remote_id p).

Class PstopLib := {
  PSTOP_MESSAGE_UNKNOWN : Z;
  PSTOP_MESSAGE_OK : Z;
  PSTOP_MESSAGE_STOP : Z;
  PSTOP_MESSAGE_BOND : Z;
  PSTOP_MESSAGE_UNBOND : Z;
  pstop_msg_t : Type;
  m_message : pstop_msg_t -> Z;
  m_stamp : pstop_msg_t -> Z;
  m_counter : pstop_msg_t -> Z;
  m_heartbeat_timeout : pstop_msg_t -> Z;
  m_checksum : pstop_msg_t -> Z;
  m_calculated_checksum : pstop_msg_t -> Z;
  (* stamp, our id, receiver, counter *)
  pstop_create_bond_message : Z -> Z -> Z -> Z -> pstop_msg_t;
  (* message, stamp, received stamp, our id, receiver, counter, received counter *)
  pstop_create_generic_message : Z -> Z -> Z -> Z -> Z -> Z -> Z -> pstop_msg_t;
  pstop_aux_encode_role : pstop_msg_t -> pstop_aux_role_t -> pstop_msg_t;
  pstop_message_encode : pstop_msg_t -> list Z;
  pstop_message_decode : list Z -> pstop_msg_t;
  (* a freshly initialised protocol_data_t *)
  protocol_data_init : protocol_data_t;
  pstop_aux_role_str : pstop_aux_role_t -> string;
}.

(** The documented wire contract (pinned by tests/wire): distinct codewords,
    48-byte frames, counters that start at 0, and a decoder that recovers the message type and the
    counter an encoded message was created with. *)
Class PstopLaws `{PstopLib} : Prop := {
  pstop_codes_NoDup : NoDup [PSTOP_MESSAGE_UNKNOWN; PSTOP_MESSAGE_OK; PSTOP_MESSAGE_STOP;
                             PSTOP_MESSAGE_BOND; PSTOP_MESSAGE_UNBOND];
  pstop_codes_u8 : Forall (fun c => 0 <= c < 256)
                     [PSTOP_MESSAGE_UNKNOWN; PSTOP_MESSAGE_OK; PSTOP_MESSAGE_STOP;
                      PSTOP_MESSAGE_BOND; PSTOP_MESSAGE_UNBOND];
  init_counter : msg_counter protocol_data_init = 0;
  encode_length : forall m, length (pstop_message_encode m) = PSTOP_MESSAGE_SIZE;
  decode_bond : forall stamp me rcv ctr role, 0 <= ctr < 2 ^ 32 ->
    let m := pstop_message_decode (pstop_message_encode
               (pstop_aux_encode_role (pstop_create_bond_message stamp me rcv ctr) role)) in
    m_message m = PSTOP_MESSAGE_BOND /\ m_counter m = ctr;
  decode_generic : forall ty stamp rstamp me rcv ctr rctr role,
    0 <= ty < 256 -> 0 <= ctr < 2 ^ 32 ->
    let m := pstop_message_decode (pstop_message_encode
               (pstop_aux_encode_role
                  (pstop_create_generic_message ty stamp rstamp me rcv ctr rctr) role)) in
    m_message m = ty /\ m_counter m = ctr;
}.
