(* ===== verification/Instances.v ===== *)
(** Concrete instances of the platform interfaces: the wire format that
    tests/wire pins byte by byte, and a small simulated machine (a clock, two
    sense pins, a settings store, sockets with queued datagrams).  They show
    that the laws of [Platform.v] are satisfiable and are what the witnesses
    of the properties run on; no component's definition depends on them. *)

From S2P Require Import Prelude Platform.
#[local] Open Scope Z_scope.

(** ** The pstop wire format *)
Record wire_msg := mk_wire_msg {
  w_message : Z; w_stamp : Z; w_received_stamp : Z; w_id : Z; w_receiver_id : Z;
  w_heartbeat_timeout : Z; w_counter : Z; w_received_counter : Z; w_role : Z;
  w_checksum : Z; w_calculated : Z;
}.

Definition crc_shift (c : Z) : Z :=
  let s := Z.land (Z.shiftl c 1) 65535 in
  if Z.testbit c 15 then Z.lxor s 36245 (* 0x8D95 *) else s.
Definition crc_byte (c b : Z) : Z := Nat.iter 8 crc_shift (Z.lxor c (Z.shiftl b 8)).
Definition crc16 (bs : list Z) : Z := foldl crc_byte 65535 bs.

Definition wire_body (m : wire_msg) : list Z :=
  [2; u8 (w_message m)] ++ le_bytes 8 (w_stamp m) ++ le_bytes 8 (w_received_stamp m) ++
  le_bytes 4 (w_id m) ++ le_bytes 4 (w_receiver_id m) ++ le_bytes 4 (w_heartbeat_timeout m) ++
  le_bytes 4 (w_counter m) ++ le_bytes 4 (w_received_counter m) ++
  le_bytes 4 (w_role m) ++ le_bytes 4 0.
Definition wire_encode (m : wire_msg) : list Z :=
  wire_body m ++ le_bytes 2 (crc16 (wire_body m)).

Definition field (off n : nat) (bs : list Z) : Z := le_val (take n (drop off bs)).
Definition wire_decode (bs : list Z) : wire_msg :=
  mk_wire_msg (field 1 1 bs) (field 2 8 bs) (field 10 8 bs) (field 18 4 bs) (field 22 4 bs)
    (field 26 4 bs) (field 30 4 bs) (field 34 4 bs) (field 38 4 bs)
    (field 46 2 bs) (crc16 (take 46 bs)).

#[export] Instance wire_lib : PstopLib := {|
  PSTOP_MESSAGE_UNKNOWN := 0; PSTOP_MESSAGE_OK := 85 (* 0x55 *);
  PSTOP_MESSAGE_STOP := 146 (* 0x92 *); PSTOP_MESSAGE_BOND := 173 (* 0xAD *);
  PSTOP_MESSAGE_UNBOND := 106;
  pstop_msg_t := wire_msg;
  m_message := w_message; m_stamp := w_stamp; m_counter := w_counter;
  m_heartbeat_timeout := w_heartbeat_timeout; m_checksum := w_checksum;
  m_calculated_checksum := w_calculated;
  pstop_create_bond_message stamp me rcv ctr := mk_wire_msg 173 stamp 0 me rcv 0 ctr 0 0 0 0;
  pstop_create_generic_message ty stamp rstamp me rcv ctr rctr :=
    mk_wire_msg ty stamp rstamp me rcv 0 ctr rctr 0 0 0;
  pstop_aux_encode_role m r :=
    mk_wire_msg (w_message m) (w_stamp m) (w_received_stamp m) (w_id m) (w_receiver_id m)
      (w_heartbeat_timeout m) (w_counter m) (w_received_counter m)
      (match r with PSTOP_AUX_ROLE_STOP_ONLY => 0 | PSTOP_AUX_ROLE_OPERATOR => 1 end) 0 0;
  pstop_message_encode := wire_encode;
  pstop_message_decode := wire_decode;
  protocol_data_init := mk_protocol_data 0 0 0 0;
  pstop_aux_role_str r := match r with
    | PSTOP_AUX_ROLE_STOP_ONLY => "stop_only" | PSTOP_AUX_ROLE_OPERATOR => "operator" end%string;
|}.

(** tests/wire's golden BOND and OK frames. *)
Example golden_bond :
  wire_encode (mk_wire_msg 173 4660 0 3232235781 16909060 0 1 0 0 0 0) =
  [2;173;52;18;0;0;0;0;0;0;0;0;0;0;0;0;0;0;5;1;168;192;4;3;2;1;0;0;0;0;1;0;0;0;0;0;
   0;0;0;0;0;0;0;0;0;0;101;42].
Proof. vm_compute. reflexivity. Qed.
Example golden_ok :
  wire_encode (mk_wire_msg 85 8192 7936 3232235781 16909060 0 7 5 0 0 0) =
  [2;85;0;32;0;0;0;0;0;0;0;31;0;0;0;0;0;0;5;1;168;192;4;3;2;1;0;0;0;0;7;0;0;0;5;0;
   0;0;0;0;0;0;0;0;0;0;134;72].
Proof. vm_compute. reflexivity. Qed.

Lemma wire_decode_message m :
  0 <= w_message m < 256 -> w_message (wire_decode (wire_encode m)) = w_message m.
Proof.
  intros H. unfold wire_decode, wire_encode, wire_body, field. cbn.
  unfold u8. rewrite Z.mod_small by lia. lia.
Qed.
Lemma wire_decode_counter m :
  0 <= w_counter m < 2 ^ 32 -> w_counter (wire_decode (wire_encode m)) = w_counter m.
Proof.
  intros H. unfold wire_decode, wire_encode, wire_body.
  change (field 30 4 _) with (le_val (le_bytes 4 (w_counter m))).
  by apply le_val_bytes_small.
Qed.

#[export] Instance wire_laws : PstopLaws.
Proof.
  split.
  - apply (bool_decide_unpack _). reflexivity.
  - cbn. repeat (constructor; [lia|]). constructor.
  - reflexivity.
  - intros m. reflexivity.
  - intros. split; [apply wire_decode_message; cbn; lia|by apply wire_decode_counter].
  - intros. split; [by apply wire_decode_message|by apply wire_decode_counter].
Qed.

(** ** A simulated machine *)
Record sim := mk_sim {
  sim_clock : Z;
  sim_pins : Z * Z;                          (* the two sense pins *)
  sim_store : gmap string (list Z);          (* settings *)
  sim_flash_ok : bool;                       (* whether a settings write succeeds *)
  sim_next_fd : Z;
  sim_link_up : bool;                        (* whether a send succeeds *)
  sim_rx : list (Z * list Z * sockaddr_in);  (* queued datagrams, by socket *)
}.
#[export] Instance eta_sim : Eta sim := fun s =>
  mk_sim (sim_clock s) (sim_pins s) (sim_store s) (sim_flash_ok s) (sim_next_fd s)
         (sim_link_up s) (sim_rx s).

Definition sim_boot : sim := mk_sim 0 (0, 0) ∅ true 3 true [].

#[export] Instance sim_os : Os := {| os := sim; k_uptime_get w := (sim_clock w, w) |}.

Definition sim_pin (p : pin) (w : sim) : Z :=
  match p with
  | estop_in O => fst (sim_pins w) | estop_in _ => snd (sim_pins w) | estop_out _ => 0
  end.
Definition sim_set_pin (p : pin) (v : Z) (w : sim) : sim :=
  match p with
  | estop_in O => w <| sim_pins := (v, snd (sim_pins w)) |>
  | estop_in _ => w <| sim_pins := (fst (sim_pins w), v) |>
  | estop_out _ => w
  end.
#[export] Instance sim_gpio : Gpio := {|
  gpio_is_ready_dt _ _ := true;
  gpio_pin_configure_dt _ _ w := (0, w);
  gpio_pin_set_dt _ _ w := (0, w);
  gpio_pin_get_dt p w := (sim_pin p w, w);
  gpio_emul_input_set_dt := sim_set_pin;
|}.
#[export] Instance sim_emul : GpioEmulLaws.
Proof. split. intros [|[|c]] v w Hc Hv; done || lia. Qed.

(** A machine whose sense pins cannot be read. *)
Definition broken_gpio : @Gpio sim_os := {|
  gpio_is_ready_dt _ _ := true;
  gpio_pin_configure_dt _ _ w := (0, w);
  gpio_pin_set_dt _ _ w := (0, w);
  gpio_pin_get_dt _ w := (- EIO, w);
  gpio_emul_input_set_dt _ _ w := w;
|}.
(** A store entry is found under the root it was saved under. *)
Fixpoint strip_prefix (pre s : string) : option string :=
  match pre, s with
  | EmptyString, _ => Some s
  | String a pre, String b s => if Ascii.eqb a b then strip_prefix pre s else None
  | _, _ => None
  end.
Definition entries_under (root : string) (st : gmap string (list Z))
  : list (string * setting_value) :=
  omap (fun e => match strip_prefix (root +:+ "/") (fst e) with
                 | Some k => Some (k, stored_value (snd e))
                 | None => None
                 end) (map_to_list st).
#[export] Instance sim_settings : Settings := {|
  settings_subsys_init w := (0, w);
  settings_save_one k b w :=
    if sim_flash_ok w then (0, w <| sim_store ::= <[k := b]> |>) else (- EIO, w);
  settings_load_subtree root w := ((0, entries_under root (sim_store w)), w);
  settings_name_steq name key :=
    if String.eqb name key then Some None
    else match strip_prefix (key +:+ "/") name with
         | Some rest => Some (Some rest)
         | None => None
         end;
|}.

Lemma strip_prefix_app pre s : strip_prefix pre (pre +:+ s) = Some s.
Proof. induction pre as [|a pre IH]; simpl; [done|]. by rewrite Ascii.eqb_refl. Qed.
Lemma strip_prefix_Some pre s rest : strip_prefix pre s = Some rest -> s = pre +:+ rest.
Proof.
  revert s. induction pre as [|a pre IH]; intros s H; simpl in *; [injection H as ->; reflexivity|].
  destruct s as [|b s]; [done|]. destruct (Ascii.eqb a b) eqn:E; [|done].
  apply Ascii.eqb_eq in E. subst. rewrite (IH s H). reflexivity.
Qed.
Lemma app_string_assoc (a b c : string) : (a +:+ b) +:+ c = a +:+ (b +:+ c).
Proof. induction a as [|x a IH]; [done|]. exact (f_equal (String x) IH). Qed.
Lemma app_string_ne (a b : string) : b <> ""%string -> a +:+ b <> a.
Proof. intros Hb. induction a as [|x a IH]; [done|]. intros [= H]. by apply IH. Qed.

#[export] Instance sim_settings_laws : SettingsLaws.
Proof.
  refine {| stored := fun (w : os) k => sim_store w !! k |}; cbn.
  - intros k b w w' H k'. destruct (sim_flash_ok w); [|discriminate H]. simplify_eq. cbn.
    destruct (decide (k' = k)) as [->|Hne]; [by rewrite lookup_insert_eq|].
    by rewrite lookup_insert_ne.
  - intros k b w r w' H Hr k'. destruct (sim_flash_ok w); by simplify_eq.
  - intros. by simplify_eq.
  - intros. by simplify_eq.
  - intros root w es w' name b H Hs. simplify_eq. unfold entries_under.
    apply list_elem_of_omap. eexists. split; [by apply elem_of_map_to_list|]. cbn.
    by rewrite <- app_string_assoc, strip_prefix_app.
  - intros root w es w' name v H He. simplify_eq. unfold entries_under in He.
    apply list_elem_of_omap in He as ([k b] & Hk & He). cbn in He.
    apply elem_of_map_to_list in Hk.
    destruct (strip_prefix _ k) eqn:E; simplify_eq.
    apply strip_prefix_Some in E. subst. exists b. split; [|done].
    by rewrite <- app_string_assoc.
  - intros key. by rewrite String.eqb_refl.
  - intros key rest. destruct (String.eqb_spec (key +:+ "/" +:+ rest) key) as [E|_].
    + exfalso. by eapply app_string_ne; [|exact E].
    + by rewrite <- app_string_assoc, strip_prefix_app.
  - intros name key next. destruct (String.eqb_spec name key) as [->|_].
    + by intros ?; simplify_eq.
    + destruct (strip_prefix _ name) eqn:E; intros; simplify_eq.
      apply strip_prefix_Some in E. by rewrite E, app_string_assoc.
Defined.

#[export] Instance sim_hwinfo : Hwinfo := {|
  hwinfo_get_device_id n w := ((6, take n [2; 0; 0; 18; 52; 86]), w);
|}.

Fixpoint take_datagram (fd : Z) (q : list (Z * list Z * sockaddr_in))
  : option (list Z * sockaddr_in * list (Z * list Z * sockaddr_in)) :=
  match q with
  | [] => None
  | (fd', b, a) :: q =>
      if fd =? fd' then Some (b, a, q)
      else match take_datagram fd q with
           | Some (b', a', q') => Some (b', a', (fd', b, a) :: q')
           | None => None
           end
  end.
#[export] Instance sim_sockets : Sockets := {|
  zsock_socket w := (sim_next_fd w, w <| sim_next_fd ::= Z.add 1 |>);
  zsock_bind _ _ w := (0, w);
  zsock_close _ w := w;
  zsock_sendto _ b _ w := ((if sim_link_up w then Z.of_nat (length b) else -1), w);
  zsock_recvfrom fd len w :=
    match take_datagram fd (sim_rx w) with
    | Some (b, a, q) => ((Z.of_nat (length (take len b)), take len b, a), w <| sim_rx := q |>)
    | None => ((-1, [], mk_sockaddr 0 0), w)
    end;
  errno _ := EIO;
  recv_queue _ w := length (sim_rx w);
|}.

Lemma take_datagram_length fd q b a q' :
  take_datagram fd q = Some (b, a, q') -> (length q' < length q)%nat.
Proof.
  revert b a q'. induction q as [|[[fd' b'] a'] q IH]; intros b a q' H; simpl in *; [done|].
  destruct (fd =? fd'); [simplify_eq; simpl; lia|].
  destruct (take_datagram fd q) as [[[b'' a''] q'']|]; [|done].
  simplify_eq. simpl. specialize (IH _ _ _ eq_refl). lia.
Qed.
#[export] Instance sim_socket_laws : SocketLaws.
Proof.
  split. cbn. intros fd len w n buf from w' H Hn.
  destruct (take_datagram fd (sim_rx w)) as [[[b a] q]|] eqn:E; simplify_eq; [|lia].
  by eapply take_datagram_length.
Qed.
#[export] Instance sim_errno_laws : ErrnoLaws.
Proof. split; intros; cbn; unfold EIO; lia. Qed.
