(* ===== verification/Verdict.v ===== *)
(** The stop-switch verdict: [estop_verdict.c], the pure decision core of one
    channel, and [estop_gpio.c], which drives the loop and reads it back.

    [estop_decide] is the C function statement by statement.  Its
    specification is over the history of reads: [raw_closed] reads, the
    trailing run of healthy reads, and the windows that settle a channel. *)

From S2P Require Import Prelude Platform.
#[local] Open Scope Z_scope.

Definition LOOP_RECLOSE_DEBOUNCE_TICKS : Z := 3.
Definition LOOP_BOOT_OPEN_CONFIRM_TICKS : Z := 5.
Definition ESTOP_CHANNELS : nat := 2.

Record estop_state_t := mk_estop {
  high_ok : bool;
  low_ok : bool;
  primed_high : bool;
  primed_low : bool;
  closed_streak : Z; (* uint8_t *)
  open_streak : Z;   (* uint8_t *)
  settled : bool;
}.
#[export] Instance eta_estop : Eta estop_state_t := fun s =>
  mk_estop (high_ok s) (low_ok s) (primed_high s) (primed_low s)
           (closed_streak s) (open_streak s) (settled s).
#[export] Instance estop_inhabited : Inhabited estop_state_t :=
  populate (mk_estop false false false false 0 0 false).

Definition estop_state_init : estop_state_t :=
  mk_estop false false false false 0 0 false.

Section Verdict.
Context `{PstopLib}.

Definition k_estop_msg (idx : Z) : Z :=
  if idx =? 0 then PSTOP_MESSAGE_OK else PSTOP_MESSAGE_STOP.

Definition estop_decide (st : estop_state_t) (core_id rb_hi rb_lo : Z)
  : Z * estop_state_t :=
  let msg :=
    if core_id =? 0
    then k_estop_msg (Z.land (Z.lor (Z.lxor rb_hi 1) rb_lo) 1)
    else if (rb_hi =? 1) && (rb_lo =? 0) then PSTOP_MESSAGE_OK else PSTOP_MESSAGE_STOP in
  let st := st <| high_ok := rb_hi =? 1 |> <| low_ok := rb_lo =? 0 |>
               <| primed_high := true |> <| primed_low := true |> in
  let raw_closed := high_ok st && low_ok st in
  let st :=
    if raw_closed then
      let st := if closed_streak st <? 255
                then st <| closed_streak ::= fun n => u8 (n + 1) |> else st in
      let st := st <| open_streak := 0 |> in
      if LOOP_RECLOSE_DEBOUNCE_TICKS <=? closed_streak st
      then st <| settled := true |> else st
    else
      let st := st <| closed_streak := 0 |> in
      let st := if open_streak st <? 255
                then st <| open_streak ::= fun n => u8 (n + 1) |> else st in
      if LOOP_BOOT_OPEN_CONFIRM_TICKS <=? open_streak st
      then st <| settled := true |> else st in
  let msg := if negb (raw_closed && (LOOP_RECLOSE_DEBOUNCE_TICKS <=? closed_streak st))
             then PSTOP_MESSAGE_STOP else msg in
  (msg, st).

(** The reclose debounce has run its course. *)
Definition reclosed (st : estop_state_t) : bool :=
  LOOP_RECLOSE_DEBOUNCE_TICKS <=? closed_streak st.

Definition estop_channels_primed (st0 st1 : estop_state_t) : bool :=
  primed_high st0 && primed_low st0 && primed_high st1 && primed_low st1 &&
  settled st0 && settled st1.

(** One channel's successive reads, from boot: the verdict of every tick and
    the state left behind. *)
Fixpoint estop_run (core_id : Z) (st : estop_state_t) (reads : list (Z * Z))
  : list Z * estop_state_t :=
  match reads with
  | [] => ([], st)
  | (hi, lo) :: rest =>
      let '(v, st) := estop_decide st core_id hi lo in
      let '(vs, st) := estop_run core_id st rest in
      (v :: vs, st)
  end.
End Verdict.
#[global] Arguments estop_decide {_} _ _ _ _ : simpl never.

(** A read pair of a loop that conducts as driven. *)
Definition raw_closed (r : Z * Z) : bool := (fst r =? 1) && (snd r =? 0).
Definition raw_open (r : Z * Z) : bool := negb (raw_closed r).

(** Some prefix of the history ends in three healthy reads, or in five
    unhealthy ones: the boot warm-up is over. *)
Fixpoint settles_after (pre : list (Z * Z)) (reads : list (Z * Z)) : bool :=
  (3 <=? trailing raw_closed pre)%nat || (5 <=? trailing raw_open pre)%nat ||
  match reads with
  | [] => false
  | r :: rest => settles_after (pre ++ [r]) rest
  end.
Definition warmed_up (reads : list (Z * Z)) : bool := settles_after [] reads.

(** ** estop_gpio.c *)
Section Gpio.
Context `{PstopLib} `{Gpio}.

(** [sim_pole_closed[]] and [sim_propagate] of CONFIG_GPIO_EMUL builds; a
    hardware build propagates nothing ([None]). *)
Definition sim_poles : Type := option (list bool).

Definition estop_sim_set_pole (ch : Z) (closed : bool) (poles : list bool) : list bool :=
  if (0 <=? ch) && (ch <? Z.of_nat ESTOP_CHANNELS)
  then <[Z.to_nat ch := closed]> poles else poles.

Definition sim_propagate (poles : sim_poles) (ch : nat) (driven : Z) (w : os) : os :=
  match poles with
  | None => w
  | Some ps => gpio_emul_input_set_dt (estop_in ch) (if nth ch ps false then driven else 0) w
  end.

(** One channel of [estop_gpio_init]'s loop; 0 or -errno. *)
Definition estop_gpio_init_channel (c : nat) (w : os) : Z * os :=
  if negb (gpio_is_ready_dt (estop_out c) w) || negb (gpio_is_ready_dt (estop_in c) w)
  then (- ENODEV, w)
  else
    let '(ret, w) := gpio_pin_configure_dt (estop_out c) GPIO_OUTPUT_INACTIVE w in
    if negb (ret =? 0) then (ret, w)
    else
      let '(ret, w) := gpio_pin_configure_dt (estop_in c) GPIO_INPUT_PULL_DOWN w in
      if negb (ret =? 0) then (ret, w) else (0, w).

Fixpoint estop_gpio_init_from (c n : nat) (w : os) : Z * os :=
  match n with
  | O => (0, w)
  | S n =>
      let '(ret, w) := estop_gpio_init_channel c w in
      if negb (ret =? 0) then (ret, w) else estop_gpio_init_from (S c) n w
  end.
Definition estop_gpio_init (w : os) : Z * os := estop_gpio_init_from 0 ESTOP_CHANNELS w.

(** Drive and read back both phases of channel [core_id]'s loop. *)
Definition estop_read_phases (poles : sim_poles) (core_id : nat) (w : os) : (Z * Z) * os :=
  let '(_, w) := gpio_pin_set_dt (estop_out core_id) 1 w in
  let w := sim_propagate poles core_id 1 w in
  let '(rb_hi, w) := gpio_pin_get_dt (estop_in core_id) w in
  let '(_, w) := gpio_pin_set_dt (estop_out core_id) 0 w in
  let w := sim_propagate poles core_id 0 w in
  let '(rb_lo, w) := gpio_pin_get_dt (estop_in core_id) w in
  ((if rb_hi <? 0 then 0 else rb_hi, if rb_lo <? 0 then 1 else rb_lo), w).

Definition estop_channel_sample (poles : sim_poles) (core_id : nat) (st : estop_state_t)
           (w : os) : Z * estop_state_t * os :=
  let '((rb_hi, rb_lo), w) := estop_read_phases poles core_id w in
  let '(v, st) := estop_decide st (Z.of_nat core_id) rb_hi rb_lo in
  (v, st, w).
End Gpio.

(** * Lemmas *)

(** What [estop_decide] computes, with the two diverse expressions resolved. *)
Section DecideLemmas.
Context `{PstopLib}.

Lemma k_estop_msg_closed : k_estop_msg (Z.land (Z.lor (Z.lxor 1 1) 0) 1) = PSTOP_MESSAGE_OK.
Proof. reflexivity. Qed.

Lemma estop_decide_verdict st c hi lo :
  fst (estop_decide st c hi lo) =
  if raw_closed (hi, lo) && reclosed (snd (estop_decide st c hi lo))
  then PSTOP_MESSAGE_OK else PSTOP_MESSAGE_STOP.
Proof.
  unfold estop_decide, raw_closed, reclosed; simpl.
  destruct (hi =? 1) eqn:Hhi, (lo =? 0) eqn:Hlo; simpl; try done.
  to_prop; subst. rewrite k_estop_msg_closed.
  repeat (bool_case; simpl in *; try done).
Qed.

Lemma estop_decide_state st c c' hi lo :
  snd (estop_decide st c hi lo) = snd (estop_decide st c' hi lo).
Proof. reflexivity. Qed.

Lemma estop_decide_streaks st c hi lo :
  let st' := snd (estop_decide st c hi lo) in
  closed_streak st' =
    (if raw_closed (hi, lo)
     then if closed_streak st <? 255 then u8 (closed_streak st + 1) else closed_streak st
     else 0) /\
  open_streak st' =
    (if raw_open (hi, lo)
     then if open_streak st <? 255 then u8 (open_streak st + 1) else open_streak st
     else 0) /\
  settled st' = settled st || (3 <=? closed_streak st') || (5 <=? open_streak st') /\
  primed_high st' = true /\ primed_low st' = true /\
  high_ok st' = (hi =? 1) /\ low_ok st' = (lo =? 0).
Proof.
  unfold estop_decide, raw_open, raw_closed, LOOP_RECLOSE_DEBOUNCE_TICKS,
    LOOP_BOOT_OPEN_CONFIRM_TICKS; simpl.
  destruct (hi =? 1), (lo =? 0), (settled st); simpl;
    repeat (bool_case; simpl); repeat split; try done; simpl in *.
  all: by rewrite orb_false_r.
Qed.

Lemma estop_run_app c st l1 l2 :
  estop_run c st (l1 ++ l2) =
  let '(v1, st1) := estop_run c st l1 in
  let '(v2, st2) := estop_run c st1 l2 in (v1 ++ v2, st2).
Proof.
  revert st. induction l1 as [|[hi lo] l1 IH]; intros st;
    cbn [estop_run app].
  - by destruct (estop_run c st l2).
  - destruct (estop_decide st c hi lo) as [v st1]. rewrite IH.
    destruct (estop_run c st1 l1) as [v1 st2].
    by destruct (estop_run c st2 l2) as [v2 st3].
Qed.

Lemma estop_run_snoc_state c st l hi lo :
  snd (estop_run c st (l ++ [(hi, lo)])) =
  snd (estop_decide (snd (estop_run c st l)) c hi lo).
Proof.
  rewrite estop_run_app. destruct (estop_run c st l) as [v1 st1]. cbn [estop_run snd].
  by destruct (estop_decide st1 c hi lo).
Qed.

Lemma estop_run_snoc_last c st l hi lo :
  last (fst (estop_run c st (l ++ [(hi, lo)]))) =
  Some (fst (estop_decide (snd (estop_run c st l)) c hi lo)).
Proof.
  rewrite estop_run_app. destruct (estop_run c st l) as [v1 st1]. cbn [estop_run snd].
  destruct (estop_decide st1 c hi lo) as [v st2]. apply last_snoc.
Qed.

(** The streaks are the trailing runs of the history, saturated at 255. *)
Lemma estop_run_streaks c l :
  let st := snd (estop_run c estop_state_init l) in
  closed_streak st = Z.min 255 (Z.of_nat (trailing raw_closed l)) /\
  open_streak st = Z.min 255 (Z.of_nat (trailing raw_open l)).
Proof.
  induction l as [|[hi lo] l IH] using rev_ind; [done|].
  rewrite estop_run_snoc_state.
  pose proof (estop_decide_streaks (snd (estop_run c estop_state_init l)) c hi lo)
    as (H1 & H2 & _).
  simpl in *. rewrite H1, H2. destruct IH as [-> ->].
  rewrite !trailing_snoc. unfold u8. split; repeat bool_case; to_prop;
    rewrite ?Z.mod_small by lia; lia.
Qed.

(** The verdict on a read that extends a history. *)
Lemma estop_decide_after c l hi lo :
  fst (estop_decide (snd (estop_run c estop_state_init l)) c hi lo) =
  if (3 <=? trailing raw_closed (l ++ [(hi, lo)]))%nat
  then PSTOP_MESSAGE_OK else PSTOP_MESSAGE_STOP.
Proof.
  rewrite estop_decide_verdict. unfold reclosed. rewrite <- estop_run_snoc_state.
  destruct (estop_run_streaks c (l ++ [(hi, lo)])) as [-> _].
  rewrite trailing_snoc. unfold LOOP_RECLOSE_DEBOUNCE_TICKS.
  destruct (raw_closed (hi, lo)); [|done]. simpl andb.
  set (n := S _). assert ((3 <=? Z.min 255 (Z.of_nat n)) = (3 <=? n)%nat) as ->; [|done].
  apply eq_true_iff_eq. rewrite Z.leb_le, Nat.leb_le. lia.
Qed.

Lemma settles_after_snoc pre l r :
  settles_after pre (l ++ [r]) =
  settles_after pre l || (3 <=? trailing raw_closed (pre ++ l ++ [r]))%nat
                      || (5 <=? trailing raw_open (pre ++ l ++ [r]))%nat.
Proof.
  revert pre. induction l as [|x l IH]; intros pre; simpl.
  - btauto.
  - rewrite IH, <- app_assoc. simpl. btauto.
Qed.

Lemma estop_run_settled c l :
  settled (snd (estop_run c estop_state_init l)) = warmed_up l.
Proof.
  unfold warmed_up. induction l as [|[hi lo] l IH] using rev_ind; [done|].
  rewrite settles_after_snoc, app_nil_l, <- IH.
  pose proof (estop_run_streaks c (l ++ [(hi, lo)])) as [Hc Ho].
  rewrite estop_run_snoc_state in *.
  pose proof (estop_decide_streaks (snd (estop_run c estop_state_init l)) c hi lo)
    as (_ & _ & Hs & _).
  rewrite Hs, Hc, Ho.
  f_equal; [f_equal|]; apply eq_true_iff_eq; rewrite Z.leb_le, Nat.leb_le; lia.
Qed.
End DecideLemmas.
Create Rewrite HintDb verdict.
#[export] Hint Rewrite @estop_run_snoc_last @estop_run_snoc_state : verdict.

Section GpioLemmas.
Context `{PstopLib} `{Gpio}.

Lemma estop_read_phases_range poles c w hi lo w' :
  estop_read_phases poles c w = ((hi, lo), w') -> 0 <= hi /\ 0 <= lo.
Proof.
  unfold estop_read_phases. repeat pair_case. intros ?. simplify_eq.
  split; bool_case; to_prop; lia.
Qed.
End GpioLemmas.

(** * Properties *)

Section Properties.
Context `{PstopLib}.

(** The two diverse expressions of the verdict agree: whatever the two
    cores read, and whatever state they carry, core 0's arithmetic image and
    core 1's boolean give the same message byte and the same next state. *)
Theorem estop_decide_cores_agree st hi lo :
  estop_decide st 0 hi lo = estop_decide st 1 hi lo.
Proof.
  apply injective_projections; [|apply estop_decide_state].
  by rewrite !estop_decide_verdict, (estop_decide_state st 0 1).
Qed.

(** From power-on, the verdict of a tick is OK exactly when that tick and
    the two before it all read a closed loop; any other history ends in STOP,
    so the open edge is reported on the very tick it is read. *)
Theorem verdict_ok_iff_three_closed {L : PstopLaws} core reads hi lo :
  let history := reads ++ [(hi, lo)] in
  last (fst (estop_run core estop_state_init history)) =
    Some (if (3 <=? trailing raw_closed history)%nat
          then PSTOP_MESSAGE_OK else PSTOP_MESSAGE_STOP) /\
  PSTOP_MESSAGE_OK <> PSTOP_MESSAGE_STOP.
Proof.
  intros history. split.
  - unfold history. rewrite estop_run_snoc_last. f_equal. apply estop_decide_after.
  - pose proof pstop_codes_NoDup as Hnd. intros E. rewrite E in Hnd.
    apply NoDup_cons in Hnd as [_ Hnd]. apply NoDup_cons in Hnd as [Hn _].
    apply Hn. left.
Qed.

(** A channel settles exactly when its history has once ended in three
    closed reads in a row (a full debounce) or five open ones (held open at
    boot), whichever core runs it, and then stays settled; both streak counters
    saturate within their byte. *)
Theorem channel_settles_iff_warmed_up core reads :
  let st := snd (estop_run core estop_state_init reads) in
  settled st = warmed_up reads /\
  0 <= closed_streak st <= 255 /\ 0 <= open_streak st <= 255 /\
  (forall hi lo, settled st = true ->
     settled (snd (estop_decide st core hi lo)) = true).
Proof.
  intros st. split; [apply estop_run_settled|].
  destruct (estop_run_streaks core reads) as [Hc Ho]. fold st in Hc, Ho.
  split; [lia|]. split; [lia|]. intros hi lo Hs.
  destruct (estop_decide_streaks st core hi lo) as (_ & _ & -> & _). by rewrite Hs.
Qed.
End Properties.

Section GpioProperties.
Context `{PstopLib} `{Gpio}.

(** A read error never passes for a healthy level: if either phase's read
    of the sense pin fails (negative), the sample's verdict is STOP and the
    channel records an open tick, whatever the driver does. *)
Theorem read_error_is_stop poles c st w w1 w2 r1 r2 e1 e2 :
  gpio_pin_set_dt (estop_out c) 1 w = (e1, w1) ->
  gpio_pin_get_dt (estop_in c) (sim_propagate poles c 1 w1) = r1 ->
  gpio_pin_set_dt (estop_out c) 0 (snd r1) = (e2, w2) ->
  gpio_pin_get_dt (estop_in c) (sim_propagate poles c 0 w2) = r2 ->
  fst r1 < 0 \/ fst r2 < 0 ->
  let '(v, st', _) := estop_channel_sample poles c st w in
  v = PSTOP_MESSAGE_STOP /\ closed_streak st' = 0.
Proof.
  intros E1 E2 E3 E4 Herr. unfold estop_channel_sample, estop_read_phases.
  rewrite E1, E2. destruct r1 as [hi w1']. simpl in E3, Herr. rewrite E3, E4.
  destruct r2 as [lo w2']. simpl in Herr.
  set (hi' := if hi <? 0 then 0 else hi). set (lo' := if lo <? 0 then 1 else lo).
  pose proof (estop_decide_verdict st (Z.of_nat c) hi' lo') as Hv.
  destruct (estop_decide_streaks st (Z.of_nat c) hi' lo') as [Hc _].
  destruct (estop_decide st (Z.of_nat c) hi' lo') as [v st']. simpl in Hv, Hc.
  assert (raw_closed (hi', lo') = false) as Hraw.
  { unfold raw_closed, hi', lo'. simpl. destruct Herr; repeat bool_case; to_prop;
      simpl; try lia; done. }
  rewrite Hraw in *. by simpl in *.
Qed.

(** On the emulated loopback, a closed pole reads as a closed loop and an
    open pole as an open one: the modelled wire conducts the driven level,
    and only through a closed pole. *)
Theorem sim_pole_reads {L : GpioEmulLaws} ps c w :
  (c < ESTOP_CHANNELS)%nat ->
  fst (estop_read_phases (Some ps) c w) = (if nth c ps false then 1 else 0, 0).
Proof.
  intros Hc. unfold estop_read_phases, sim_propagate.
  destruct (gpio_pin_set_dt (estop_out c) 1 w) as [e w1].
  pose proof (emul_get_set c (if nth c ps false then 1 else 0) w1 Hc) as Hhi.
  destruct (gpio_pin_get_dt _ _) as [hi w2].
  destruct (gpio_pin_set_dt (estop_out c) 0 w2) as [e' w3].
  pose proof (emul_get_set c (if nth c ps false then 0 else 0) w3 Hc) as Hlo.
  destruct (gpio_pin_get_dt _ _) as [lo w4]. simpl in *.
  rewrite Hhi, Hlo by (destruct (nth c ps false); auto).
  by destruct (nth c ps false).
Qed.
End GpioProperties.

(** * Witnesses *)
From S2P Require Import Instances.

Example verdict_ok_iff_three_closed_witness :
  last (fst (estop_run 0 estop_state_init [(0, 0); (1, 0); (1, 0); (1, 0)])) = Some 85.
Proof.
  exact (proj1 (verdict_ok_iff_three_closed (L := wire_laws) 0 [(0, 0); (1, 0); (1, 0)] 1 0)).
Defined.

Example read_error_is_stop_witness :
  let '(v, st, _) := @estop_channel_sample wire_lib sim_os broken_gpio None 0
                       estop_state_init sim_boot in
  v = 146 /\ closed_streak st = 0.
Proof.
  exact (@read_error_is_stop wire_lib sim_os broken_gpio None 0 estop_state_init sim_boot
           sim_boot sim_boot _ _ _ _ eq_refl eq_refl eq_refl eq_refl (or_introl eq_refl)).
Defined.

Example sim_pole_reads_witness :
  (1 < 2)%nat /\ fst (estop_read_phases (Some [false; true]) 1 sim_boot) = (1, 0).
Proof. split; [lia|]. exact (sim_pole_reads [false; true] 1 sim_boot ltac:(unfold ESTOP_CHANNELS; lia)). Defined.
