(* ===== verification/AppSettings.v ===== *)
(** Persistent configuration: [app_settings.c].

    The state is the file's statics: the peer table, the device ids, the role,
    the ring offset and the WiFi list.  Each setter writes flash first and RAM
    only on success; [persisted] is the invariant that ties the two, and
    [app_settings_init] restores exactly the state a previous boot left. *)

From S2P Require Import Prelude Platform.
#[local] Open Scope Z_scope.

Definition PSTOP_MAX_MACHINES : nat := 4.
Definition PSTOP_WIFI_MAX : nat := 4.
Definition PSTOP_WIFI_SSID_MAX : nat := 32.
Definition PSTOP_WIFI_PASS_MAX : nat := 64.
Definition PSTOP_SETTINGS_ROOT : string := "pstop".
Definition DERIVED_ID_PREFIX : Z := 16777216.  (* 0x01000000 *)
Definition FALLBACK_ID : Z := 3232235781.      (* 0xC0A80105 *)

Record pstop_peer := mk_peer {
  ip : Z;       (* uint32_t, host byte order *)
  port : Z;     (* uint16_t *)
  peer_dev_id : Z; (* uint32_t [id] *)
  configured : bool;
}.
#[export] Instance peer_eq_dec : EqDecision pstop_peer.
Proof. solve_decision. Defined.
Definition zero_peer : pstop_peer := mk_peer 0 0 0 false.
#[export] Instance peer_inhabited : Inhabited pstop_peer := populate zero_peer.

(** [char ssid[33]; char pass[65]] as byte arrays. *)
Record pstop_wifi_net := mk_wifi { ssid : list Z; pass : list Z }.
#[export] Instance wifi_eq_dec : EqDecision pstop_wifi_net.
Proof. solve_decision. Defined.
Definition zero_wifi : pstop_wifi_net :=
  mk_wifi (replicate (S PSTOP_WIFI_SSID_MAX) 0) (replicate (S PSTOP_WIFI_PASS_MAX) 0).
#[export] Instance wifi_inhabited : Inhabited pstop_wifi_net := populate zero_wifi.

Record app_settings := mk_settings {
  peers : list pstop_peer;
  device_id : Z;   (* uint32_t *)
  derived_id : Z;  (* uint32_t *)
  is_operator : bool;
  ring_offset : Z; (* uint8_t *)
  wifi : list pstop_wifi_net;
}.
#[export] Instance eta_settings : Eta app_settings := fun s =>
  mk_settings (peers s) (device_id s) (derived_id s) (is_operator s) (ring_offset s) (wifi s).

(** The statics as [app_settings_init] zeroes them. *)
Definition zero_settings (derived : Z) : app_settings :=
  mk_settings (replicate PSTOP_MAX_MACHINES zero_peer) 0 derived false 0
              (replicate PSTOP_WIFI_MAX zero_wifi).

(** ** Memory images of the stored values (32-bit little-endian layout, padding
    zeroed by the callers' memset) *)
Definition bool_byte (b : bool) : Z := if b then 1 else 0.
Definition peer_bytes (p : pstop_peer) : list Z :=
  le_bytes 4 (ip p) ++ le_bytes 2 (port p) ++ [0; 0] ++ le_bytes 4 (peer_dev_id p) ++
  [bool_byte (configured p); 0; 0; 0].
Definition peer_of_bytes (b : list Z) : pstop_peer :=
  mk_peer (le_val (take 4 b)) (le_val (take 2 (drop 4 b))) (le_val (take 4 (drop 8 b)))
          (negb (nth 12 b 0 =? 0)).
Definition sizeof_peer : nat := 16.
Definition wifi_bytes (n : pstop_wifi_net) : list Z := ssid n ++ pass n.
Definition sizeof_wifi : nat := 98.

(** [ssid[32] = '\0'; pass[64] = '\0'] on a freshly read entry. *)
Definition wifi_of_bytes (b : list Z) : pstop_wifi_net :=
  mk_wifi (take PSTOP_WIFI_SSID_MAX b ++ [0])
          (take PSTOP_WIFI_PASS_MAX (drop (S PSTOP_WIFI_SSID_MAX) b) ++ [0]).

(** ** The C library's atoi, on a C string *)
Definition is_space (c : Ascii.ascii) : bool :=
  let n := Ascii.nat_of_ascii c in (n =? 32)%nat || ((9 <=? n) && (n <=? 13))%nat.
Definition digit_val (c : Ascii.ascii) : option Z :=
  let n := Ascii.nat_of_ascii c in
  if ((48 <=? n) && (n <=? 57))%nat then Some (Z.of_nat n - 48) else None.
Fixpoint atoi_digits (s : string) (acc : Z) : Z :=
  match s with
  | EmptyString => acc
  | String c s => match digit_val c with Some d => atoi_digits s (acc * 10 + d) | None => acc end
  end.
Fixpoint atoi (s : string) : Z :=
  match s with
  | String c s' =>
      if is_space c then atoi s'
      else if (Ascii.nat_of_ascii c =? 45)%nat (* - *) then - atoi_digits s' 0
      else if (Ascii.nat_of_ascii c =? 43)%nat (* + *) then atoi_digits s' 0
      else atoi_digits s 0
  | EmptyString => 0
  end.

(** [snprintf(key, .., ROOT "/peers/%d", slot)] and its wifi sibling. *)
Definition peer_name (slot : nat) : string := "peers/" +:+ pretty (N.of_nat slot).
Definition wifi_name (idx : nat) : string := "wifi/" +:+ pretty (N.of_nat idx).
Definition setting_key (name : string) : string := PSTOP_SETTINGS_ROOT +:+ "/" +:+ name.

Section AppSettings.
Context `{Settings} `{!Hwinfo}.

(** A handler branch: the length check, then the read into the static. *)
Definition load_into (v : setting_value) (size : nat) (st : app_settings)
           (store : list Z -> app_settings) : Z * app_settings :=
  if negb (sv_len v =? size)%nat then (- EINVAL, st)
  else match sv_read v size with
       | None => (- EIO, st)
       | Some b => (0, store b)
       end.

Definition pstop_settings_set (st : app_settings) (name : string) (v : setting_value)
  : Z * app_settings :=
  match settings_name_steq name "device_id" with
  | Some None => load_into v 4 st (fun b => st <| device_id := le_val b |>)
  | _ =>
  match settings_name_steq name "operator" with
  | Some None => load_into v 1 st (fun b => st <| is_operator := negb (nth 0 b 0 =? 0) |>)
  | _ =>
  match settings_name_steq name "ring_off" with
  | Some None => load_into v 1 st (fun b => st <| ring_offset := nth 0 b 0 |>)
  | _ =>
  match settings_name_steq name "wifi" with
  | Some (Some next) =>
      let idx := atoi next in
      if (idx <? 0) || (Z.of_nat PSTOP_WIFI_MAX <=? idx) then (- EINVAL, st)
      else load_into v sizeof_wifi st
             (fun b => st <| wifi ::= <[Z.to_nat idx := wifi_of_bytes b]> |>)
  | _ =>
  match settings_name_steq name "peers" with
  | Some (Some next) =>
      let slot := atoi next in
      if (slot <? 0) || (Z.of_nat PSTOP_MAX_MACHINES <=? slot) then (- EINVAL, st)
      else load_into v sizeof_peer st
             (fun b => st <| peers ::= <[Z.to_nat slot := peer_of_bytes b]> |>)
  | _ => (- ENOENT, st)
  end end end end end.

(** CONFIG_HWINFO builds derive the id from the chip's MAC. *)
Definition derive_device_id (config_hwinfo : bool) (w : os) : Z * os :=
  if config_hwinfo then
    let '((n, mac), w) := hwinfo_get_device_id 6 w in
    if 3 <=? n
    then (Z.lor (Z.lor (Z.lor DERIVED_ID_PREFIX
                              (Z.shiftl (nth (Z.to_nat (n - 3)) mac 0) 16))
                       (Z.shiftl (nth (Z.to_nat (n - 2)) mac 0) 8))
                (nth (Z.to_nat (n - 1)) mac 0), w)
    else (FALLBACK_ID, w)
  else (FALLBACK_ID, w).

Definition load_entries (st : app_settings) (es : list (string * setting_value))
  : app_settings :=
  foldl (fun st e => snd (pstop_settings_set st (fst e) (snd e))) st es.

Definition app_settings_init (config_hwinfo : bool) (w : os) : Z * app_settings * os :=
  let '(derived, w) := derive_device_id config_hwinfo w in
  let st := zero_settings derived in
  let '(ret, w) := settings_subsys_init w in
  if negb (ret =? 0) then (ret, st, w)
  else
    let '((ret, es), w) := settings_load_subtree PSTOP_SETTINGS_ROOT w in
    let st := load_entries st es in
    if negb (ret =? 0) then (ret, st, w)
    else
      let st := if 16 <=? ring_offset st then st <| ring_offset := 0 |> else st in
      (0, st, w).

Definition slot_ok (slot : Z) : bool := (0 <=? slot) && (slot <? Z.of_nat PSTOP_MAX_MACHINES).

Definition app_settings_peer_get (st : app_settings) (slot : Z) : Z * option pstop_peer :=
  if negb (slot_ok slot) then (- EINVAL, None)
  else (0, Some (peers st !!! Z.to_nat slot)).

Definition save_peer (slot : nat) (p : pstop_peer) (w : os) : Z * os :=
  settings_save_one (setting_key (peer_name slot)) (peer_bytes p) w.

(** The shared tail of [app_settings_set_peer] and [app_settings_clear_peer]. *)
Definition store_peer (st : app_settings) (slot : Z) (p : pstop_peer) (w : os)
  : Z * app_settings * os :=
  let '(ret, w) := save_peer (Z.to_nat slot) p w in
  (ret, (if ret =? 0 then st <| peers ::= <[Z.to_nat slot := p]> |> else st), w).

Definition app_settings_set_peer (st : app_settings) (slot ip port id : Z) (w : os)
  : Z * app_settings * os :=
  if negb (slot_ok slot) then (- EINVAL, st, w)
  else store_peer st slot (mk_peer ip port id true) w.

Definition app_settings_clear_peer (st : app_settings) (slot : Z) (w : os)
  : Z * app_settings * os :=
  if negb (slot_ok slot) then (- EINVAL, st, w) else store_peer st slot zero_peer w.

Definition app_settings_set_device_id (st : app_settings) (id : Z) (w : os)
  : Z * app_settings * os :=
  let '(ret, w) := settings_save_one (setting_key "device_id") (le_bytes 4 id) w in
  if negb (ret =? 0) then (ret, st, w) else (0, st <| device_id := id |>, w).

Definition app_settings_effective_device_id (st : app_settings) : Z :=
  if negb (device_id st =? 0) then device_id st else derived_id st.

Definition app_settings_set_ring_offset (st : app_settings) (offset : Z) (w : os)
  : Z * app_settings * os :=
  if 16 <=? offset then (- EINVAL, st, w)
  else
    let '(ret, w) := settings_save_one (setting_key "ring_off") [offset] w in
    if negb (ret =? 0) then (ret, st, w) else (0, st <| ring_offset := offset |>, w).

Definition app_settings_wifi_get (st : app_settings) (idx : Z) : Z * option pstop_wifi_net :=
  if (idx <? 0) || (Z.of_nat PSTOP_WIFI_MAX <=? idx) then (- EINVAL, None)
  else (0, Some (wifi st !!! Z.to_nat idx)).

(** The loop stops at the first failed write; the entries before it are
    already replaced, in flash and in RAM. *)
Fixpoint wifi_set_from (st : app_settings) (i : nat) (nets : list pstop_wifi_net) (w : os)
  : Z * app_settings * os :=
  match nets with
  | [] => (0, st, w)
  | net :: nets =>
      let '(ret, w) := settings_save_one (setting_key (wifi_name i)) (wifi_bytes net) w in
      if negb (ret =? 0) then (ret, st, w)
      else wifi_set_from (st <| wifi ::= <[i := net]> |>) (S i) nets w
  end.
Definition app_settings_wifi_set_all (st : app_settings) (nets : list pstop_wifi_net) (w : os)
  : Z * app_settings * os :=
  wifi_set_from st 0 (take PSTOP_WIFI_MAX nets) w.

Definition app_settings_set_operator (st : app_settings) (op : bool) (w : os)
  : Z * app_settings * os :=
  let '(ret, w) := settings_save_one (setting_key "operator") [bool_byte op] w in
  if negb (ret =? 0) then (ret, st, w) else (0, st <| is_operator := op |>, w).
End AppSettings.

(** ** The invariant between RAM and flash *)
Definition u32_field (z : Z) : Prop := 0 <= z < 2 ^ 32.
Definition peer_wf (p : pstop_peer) : Prop :=
  u32_field (ip p) /\ 0 <= port p < 2 ^ 16 /\ u32_field (peer_dev_id p).
Definition wifi_wf (n : pstop_wifi_net) : Prop :=
  length (ssid n) = S PSTOP_WIFI_SSID_MAX /\ last (ssid n) = Some 0 /\
  length (pass n) = S PSTOP_WIFI_PASS_MAX /\ last (pass n) = Some 0.
Record settings_wf (st : app_settings) : Prop := {
  wf_peers_len : length (peers st) = PSTOP_MAX_MACHINES;
  wf_peers : Forall peer_wf (peers st);
  wf_device_id : u32_field (device_id st);
  wf_ring : 0 <= ring_offset st < 16;
  wf_wifi_len : length (wifi st) = PSTOP_WIFI_MAX;
  wf_wifi : Forall wifi_wf (wifi st);
}.

(** What each settings key holds when RAM is [st]. *)
Definition images (st : app_settings) : list (string * list Z) :=
  [("device_id"%string, le_bytes 4 (device_id st));
   ("operator"%string, [bool_byte (is_operator st)]);
   ("ring_off"%string, [ring_offset st])] ++
  imap (fun i n => (wifi_name i, wifi_bytes n)) (wifi st) ++
  imap (fun i p => (peer_name i, peer_bytes p)) (peers st).

Section Persisted.
Context `{L : SettingsLaws}.

(** Flash holds, under each of the firmware's keys, the image of what RAM
    holds, or nothing and RAM is at its default; and no other key. *)
Definition persisted (st : app_settings) (w : os) : Prop :=
  forall name, match stored w (setting_key name) with
  | Some b => (name, b) ∈ images st
  | None => forall b, (name, b) ∈ images st -> (name, b) ∈ images (zero_settings 0)
  end.
End Persisted.

(** [acc'] is [acc] with the settings named in [names] taken from [st]. *)
Record copied (st acc : app_settings) (names : list string) (acc' : app_settings) : Prop := {
  cp_derived : derived_id acc' = derived_id acc;
  cp_device : device_id acc' =
    if decide ("device_id"%string ∈ names) then device_id st else device_id acc;
  cp_operator : is_operator acc' =
    if decide ("operator"%string ∈ names) then is_operator st else is_operator acc;
  cp_ring : ring_offset acc' =
    if decide ("ring_off"%string ∈ names) then ring_offset st else ring_offset acc;
  cp_wifi : forall i, wifi acc' !! i =
    if decide (wifi_name i ∈ names) then wifi st !! i else wifi acc !! i;
  cp_peers : forall i, peers acc' !! i =
    if decide (peer_name i ∈ names) then peers st !! i else peers acc !! i;
}.

(** The setters, as operations on RAM and flash. *)
Inductive setting_op :=
| OpSetPeer (slot ip port id : Z)
| OpClearPeer (slot : Z)
| OpSetDeviceId (id : Z)
| OpSetRingOffset (offset : Z)
| OpSetOperator (op : bool)
| OpSetWifi (nets : list pstop_wifi_net).
Definition op_wf (o : setting_op) : Prop :=
  match o with
  | OpSetPeer _ ip port id => peer_wf (mk_peer ip port id true)
  | OpClearPeer _ | OpSetOperator _ => True
  | OpSetDeviceId id => u32_field id
  | OpSetRingOffset off => 0 <= off
  | OpSetWifi nets => Forall wifi_wf nets
  end.

Section Ops.
Context `{Settings} `{!Hwinfo}.
Definition run_setting_op (st : app_settings) (o : setting_op) (w : os)
  : Z * app_settings * os :=
  match o with
  | OpSetPeer slot ip port id => app_settings_set_peer st slot ip port id w
  | OpClearPeer slot => app_settings_clear_peer st slot w
  | OpSetDeviceId id => app_settings_set_device_id st id w
  | OpSetRingOffset off => app_settings_set_ring_offset st off w
  | OpSetOperator op => app_settings_set_operator st op w
  | OpSetWifi nets => app_settings_wifi_set_all st nets w
  end.
Definition run_setting_ops (st : app_settings) (os_ : list setting_op) (w : os)
  : app_settings * os :=
  foldl (fun sw o => let '(_, st, w) := run_setting_op (fst sw) o (snd sw) in (st, w))
        (st, w) os_.
End Ops.

(** * Lemmas *)

Lemma images_spec st name b :
  (name, b) ∈ images st <->
  (name = "device_id"%string /\ b = le_bytes 4 (device_id st)) \/
  (name = "operator"%string /\ b = [bool_byte (is_operator st)]) \/
  (name = "ring_off"%string /\ b = [ring_offset st]) \/
  (exists i n, wifi st !! i = Some n /\ name = wifi_name i /\ b = wifi_bytes n) \/
  (exists i p, peers st !! i = Some p /\ name = peer_name i /\ b = peer_bytes p).
Proof.
  unfold images. rewrite !elem_of_app, !elem_of_cons, elem_of_nil, !elem_of_lookup_imap.
  naive_solver.
Qed.

Lemma wifi_name_inj i j : wifi_name i = wifi_name j -> i = j.
Proof.
  unfold wifi_name. intros H. apply (inj (String.append _)) in H.
  apply pretty_N_inj in H. lia.
Qed.
Lemma peer_name_inj i j : peer_name i = peer_name j -> i = j.
Proof.
  unfold peer_name. intros H. apply (inj (String.append _)) in H.
  apply pretty_N_inj in H. lia.
Qed.

Lemma peer_of_bytes_peer_bytes p : peer_wf p -> peer_of_bytes (peer_bytes p) = p.
Proof.
  intros (Hip & Hport & Hid). unfold peer_of_bytes, peer_bytes.
  change (take 4 (le_bytes 4 (ip p) ++ _)) with (le_bytes 4 (ip p)).
  change (take 2 (drop 4 _)) with (le_bytes 2 (port p)).
  change (take 4 (drop 8 _)) with (le_bytes 4 (peer_dev_id p)).
  change (nth 12 _ 0) with (bool_byte (configured p)).
  rewrite !le_val_bytes_small by done. by destruct p as [? ? ? []].
Qed.

Lemma wifi_of_bytes_wifi_bytes n : wifi_wf n -> wifi_of_bytes (wifi_bytes n) = n.
Proof.
  intros (Hs & Hs0 & Hp & Hp0). destruct n as [s p]; simpl in *.
  unfold wifi_of_bytes, wifi_bytes; simpl ssid; simpl pass.
  apply last_Some in Hs0 as [s' ->]. apply last_Some in Hp0 as [p' ->].
  rewrite length_app in Hs, Hp; simpl in Hs, Hp.
  rewrite (drop_app_length' (s' ++ [0])) by (rewrite length_app; simpl; lia).
  rewrite <- app_assoc, !take_app_length' by lia. done.
Qed.

Section HandlerLemmas.
Context `{L : SettingsLaws}.

Lemma steq_None name key :
  (forall next, name <> match next with None => key | Some r => key +:+ "/" +:+ r end) ->
  settings_name_steq name key = None.
Proof.
  intros Hn. destruct (settings_name_steq name key) as [next|] eqn:E; [|done].
  exfalso. eapply Hn. by apply steq_other.
Qed.

Ltac steq :=
  repeat (rewrite steq_leaf || rewrite steq_path ||
          rewrite (steq_None _ _) by (intros [?|]; discriminate));
  cbv beta iota.

Lemma load_device_id acc z : u32_field z ->
  pstop_settings_set acc "device_id" (stored_value (le_bytes 4 z)) =
  (0, acc <| device_id := z |>).
Proof.
  intros Hz. unfold pstop_settings_set. steq. unfold load_into, stored_value; cbn [sv_len sv_read].
  rewrite length_le_bytes. cbn [negb Nat.eqb].
  rewrite take_ge by (by rewrite length_le_bytes). by rewrite le_val_bytes_small.
Qed.
Lemma load_operator acc b :
  pstop_settings_set acc "operator" (stored_value [bool_byte b]) =
  (0, acc <| is_operator := b |>).
Proof. unfold pstop_settings_set. steq. by destruct b. Qed.
Lemma load_ring acc z :
  pstop_settings_set acc "ring_off" (stored_value [z]) = (0, acc <| ring_offset := z |>).
Proof. unfold pstop_settings_set. by steq. Qed.

Lemma load_wifi acc i n : (i < PSTOP_WIFI_MAX)%nat -> wifi_wf n ->
  pstop_settings_set acc (wifi_name i) (stored_value (wifi_bytes n)) =
  (0, acc <| wifi ::= <[i := n]> |>).
Proof.
  intros Hi Hn. unfold pstop_settings_set.
  change (wifi_name i) with ("wifi" +:+ "/" +:+ pretty (N.of_nat i)). steq.
  assert (atoi (pretty (N.of_nat i)) = Z.of_nat i) as ->.
  { unfold PSTOP_WIFI_MAX in Hi. by do 4 (destruct i as [|i]; [vm_compute; done|]); lia. }
  replace ((Z.of_nat i <? 0) || (Z.of_nat PSTOP_WIFI_MAX <=? Z.of_nat i)) with false
    by (symmetry; apply orb_false_iff; split; [apply Z.ltb_ge|apply Z.leb_gt]; lia).
  assert (length (wifi_bytes n) = sizeof_wifi) as Hlen.
  { destruct Hn as (? & _ & ? & _). unfold wifi_bytes. rewrite length_app.
    unfold PSTOP_WIFI_SSID_MAX, PSTOP_WIFI_PASS_MAX, sizeof_wifi in *. lia. }
  unfold load_into, stored_value; cbn [sv_len sv_read]. rewrite Hlen. cbn [negb Nat.eqb].
  rewrite Nat.eqb_refl. cbn [negb].
  by rewrite take_ge, wifi_of_bytes_wifi_bytes, Nat2Z.id by (done || lia).
Qed.

Lemma load_peer acc i p : (i < PSTOP_MAX_MACHINES)%nat -> peer_wf p ->
  pstop_settings_set acc (peer_name i) (stored_value (peer_bytes p)) =
  (0, acc <| peers ::= <[i := p]> |>).
Proof.
  intros Hi Hp. unfold pstop_settings_set.
  change (peer_name i) with ("peers" +:+ "/" +:+ pretty (N.of_nat i)). steq.
  assert (atoi (pretty (N.of_nat i)) = Z.of_nat i) as ->.
  { unfold PSTOP_MAX_MACHINES in Hi. by do 4 (destruct i as [|i]; [vm_compute; done|]); lia. }
  replace ((Z.of_nat i <? 0) || (Z.of_nat PSTOP_MAX_MACHINES <=? Z.of_nat i)) with false
    by (symmetry; apply orb_false_iff; split; [apply Z.ltb_ge|apply Z.leb_gt]; lia).
  unfold load_into, stored_value; cbn [sv_len sv_read].
  assert (length (peer_bytes p) = sizeof_peer) as Hlen by done.
  rewrite Hlen, Nat.eqb_refl. cbn [negb].
  by rewrite take_ge, peer_of_bytes_peer_bytes, Nat2Z.id by (done || lia).
Qed.
End HandlerLemmas.

Section LoadLemmas.
Context `{L : SettingsLaws}.

Lemma copied_nil st acc : copied st acc [] acc.
Proof. split; intros; rewrite ?decide_False by apply not_elem_of_nil; done. Qed.

Lemma decide_elem_app {A} (x : string) n1 n2 (a b : A) :
  (if decide (x ∈ n1 ++ n2) then a else b) =
  (if decide (x ∈ n2) then a else if decide (x ∈ n1) then a else b).
Proof.
  destruct (decide (x ∈ n1 ++ n2)) as [H1|H1]; rewrite elem_of_app in H1;
    repeat case_decide; tauto.
Qed.

Lemma copied_app st acc n1 acc1 n2 acc2 :
  copied st acc n1 acc1 -> copied st acc1 n2 acc2 -> copied st acc (n1 ++ n2) acc2.
Proof.
  intros [d1 e1 o1 r1 w1 p1] [d2 e2 o2 r2 w2 p2].
  split; intros; rewrite ?decide_elem_app;
    rewrite ?d2, ?e2, ?o2, ?r2, ?w2, ?p2, ?d1, ?e1, ?o1, ?r1, ?w1, ?p1; done.
Qed.

Definition same_shape (st acc : app_settings) : Prop :=
  length (wifi acc) = length (wifi st) /\ length (peers acc) = length (peers st).

Ltac in_one :=
  repeat match goal with
  | |- context [decide (?a ∈ [?b])] =>
      destruct (decide (a ∈ [b])) as [?Hin|?Hin]; rewrite list_elem_of_singleton in *
  end.

Lemma load_one st acc name b :
  settings_wf st -> same_shape st acc -> (name, b) ∈ images st ->
  let acc' := snd (pstop_settings_set acc name (stored_value b)) in
  copied st acc [name] acc' /\ same_shape st acc'.
Proof.
  intros Hwf [Hw Hp] Hin.
  apply images_spec in Hin
    as [[-> ->]|[[-> ->]|[[-> ->]|[(i & n & Hi & -> & ->)|(i & p & Hi & -> & ->)]]]].
  - rewrite load_device_id by apply Hwf. split; [|done].
    split; intros; in_one; done || (exfalso; by eapply (f_equal (String.get 0)) in Hin).
  - rewrite load_operator. split; [|done].
    split; intros; in_one; done || (exfalso; by eapply (f_equal (String.get 0)) in Hin).
  - rewrite load_ring. split; [|done].
    split; intros; in_one; done || (exfalso; by eapply (f_equal (String.get 0)) in Hin).
  - pose proof (lookup_lt_Some _ _ _ Hi) as Hlt.
    rewrite load_wifi; [|by rewrite <- (wf_wifi_len _ Hwf)|].
    2: { eapply Forall_lookup_1; [apply Hwf|done]. }
    split; [|by split; cbn; rewrite ?length_insert].
    split; intros; in_one; try done; cbn.
    + apply wifi_name_inj in Hin. subst. by rewrite list_lookup_insert_eq by lia.
    + rewrite list_lookup_insert_ne; [done|]. intros ->. by apply Hin.
  - pose proof (lookup_lt_Some _ _ _ Hi) as Hlt.
    rewrite load_peer; [|by rewrite <- (wf_peers_len _ Hwf)|].
    2: { eapply Forall_lookup_1; [apply Hwf|done]. }
    split; [|by split; cbn; rewrite ?length_insert].
    split; intros; in_one; try done; cbn.
    + apply peer_name_inj in Hin. subst. by rewrite list_lookup_insert_eq by lia.
    + rewrite list_lookup_insert_ne; [done|]. intros ->. by apply Hin.
Qed.

Lemma load_entries_copied st acc es :
  settings_wf st -> same_shape st acc ->
  (forall name v, (name, v) ∈ es -> exists b, v = stored_value b /\ (name, b) ∈ images st) ->
  copied st acc es.*1 (load_entries acc es).
Proof.
  intros Hwf. revert acc. induction es as [|[name v] es IH]; intros acc Hs Hes.
  - apply copied_nil.
  - destruct (Hes name v) as (b & -> & Hb); [left|].
    destruct (load_one st acc name b Hwf Hs Hb) as [C S].
    change ((name, stored_value b) :: es).*1 with ([name] ++ es.*1).
    apply (copied_app _ _ _ _ _ _ C). apply IH; [done|].
    intros. apply Hes. by right.
Qed.

(** A setting whose key is absent has its default image. *)
Lemma absent_is_default st w name b :
  persisted st w -> stored w (setting_key name) = None ->
  (name, b) ∈ images st -> (name, b) ∈ images (zero_settings 0).
Proof. intros Hp Hn Hb. specialize (Hp name). rewrite Hn in Hp. by apply Hp. Qed.

Lemma peer_bytes_inj p q : peer_wf p -> peer_wf q -> peer_bytes p = peer_bytes q -> p = q.
Proof.
  intros Hp Hq E. by rewrite <- (peer_of_bytes_peer_bytes p), E, peer_of_bytes_peer_bytes.
Qed.
Lemma wifi_bytes_inj p q : wifi_wf p -> wifi_wf q -> wifi_bytes p = wifi_bytes q -> p = q.
Proof.
  intros Hp Hq E. by rewrite <- (wifi_of_bytes_wifi_bytes p), E, wifi_of_bytes_wifi_bytes.
Qed.

Lemma zero_settings_wf d : settings_wf (zero_settings d).
Proof.
  split; try done; apply (Forall_replicate _ 4); repeat split; done.
Qed.

Ltac names_differ :=
  exfalso; match goal with
  | H : _ = _ :> string |- _ => by eapply (f_equal (String.get 0)) in H
  end.

Lemma default_wifi st w i n : settings_wf st -> persisted st w ->
  stored w (setting_key (wifi_name i)) = None -> wifi st !! i = Some n ->
  replicate PSTOP_WIFI_MAX zero_wifi !! i = Some n.
Proof.
  intros Hwf Hp Hn Hi.
  assert ((wifi_name i, wifi_bytes n) ∈ images (zero_settings 0)) as H1.
  { eapply absent_is_default; [done..|]. apply images_spec. naive_solver. }
  apply images_spec in H1
    as [[? _]|[[? _]|[[? _]|[(j & m & Hj & E & Eb)|(j & m & _ & E & _)]]]];
    try names_differ.
  apply wifi_name_inj in E as <-.
  change (wifi (zero_settings 0)) with (replicate PSTOP_WIFI_MAX zero_wifi) in Hj.
  rewrite Hj. f_equal.
  apply lookup_replicate in Hj as [-> _]. symmetry.
  apply wifi_bytes_inj; [eapply Forall_lookup_1; [apply Hwf|done]|done|done].
Qed.
Lemma default_peer st w i n : settings_wf st -> persisted st w ->
  stored w (setting_key (peer_name i)) = None -> peers st !! i = Some n ->
  replicate PSTOP_MAX_MACHINES zero_peer !! i = Some n.
Proof.
  intros Hwf Hp Hn Hi.
  assert ((peer_name i, peer_bytes n) ∈ images (zero_settings 0)) as H1.
  { eapply absent_is_default; [done..|]. apply images_spec. naive_solver. }
  apply images_spec in H1
    as [[? _]|[[? _]|[[? _]|[(j & m & Hj & E & Eb)|(j & m & Hj & E & Eb)]]]];
    try names_differ.
  apply peer_name_inj in E as <-.
  change (peers (zero_settings 0)) with (replicate PSTOP_MAX_MACHINES zero_peer) in Hj.
  rewrite Hj. f_equal.
  apply lookup_replicate in Hj as [-> _]. symmetry.
  apply peer_bytes_inj; [eapply Forall_lookup_1; [apply Hwf|done]|done|done].
Qed.
Lemma default_scalars st w : settings_wf st -> persisted st w ->
  (stored w (setting_key "device_id") = None -> device_id st = 0) /\
  (stored w (setting_key "operator") = None -> is_operator st = false) /\
  (stored w (setting_key "ring_off") = None -> ring_offset st = 0).
Proof.
  intros Hwf Hp. repeat split; intros Hn.
  - assert (("device_id"%string, le_bytes 4 (device_id st)) ∈ images (zero_settings 0)) as H1.
    { eapply absent_is_default; [done..|]. apply images_spec. auto. }
    apply images_spec in H1 as [[_ E]|[[? _]|[[? _]|[(?&?&_&?&_)|(?&?&_&?&_)]]]];
      try names_differ.
    rewrite <- (le_val_bytes_small 4 (device_id st)) by apply Hwf. by rewrite E.
  - assert (("operator"%string, [bool_byte (is_operator st)]) ∈ images (zero_settings 0)) as H1.
    { eapply absent_is_default; [done..|]. apply images_spec. auto. }
    apply images_spec in H1 as [[? _]|[[_ E]|[[? _]|[(?&?&_&?&_)|(?&?&_&?&_)]]]];
      try names_differ.
    by destruct (is_operator st).
  - assert (("ring_off"%string, [ring_offset st]) ∈ images (zero_settings 0)) as H1.
    { eapply absent_is_default; [done..|]. apply images_spec. auto. }
    apply images_spec in H1 as [[? _]|[[? _]|[[_ E]|[(?&?&_&?&_)|(?&?&_&?&_)]]]];
      try names_differ.
    by simplify_eq.
Qed.
End LoadLemmas.

Section RestoreLemmas.
Context `{L : SettingsLaws}.

Lemma list_of_defaults {A} (x : A) n l l' (P : nat -> Prop) `{forall i, Decision (P i)} :
  length l = n ->
  (forall i, l' !! i = if decide (P i) then l !! i else replicate n x !! i) ->
  (forall i y, ~ P i -> l !! i = Some y -> replicate n x !! i = Some y) ->
  l' = l.
Proof.
  intros Hn Hl' Hd. apply list_eq. intros i. rewrite Hl'. case_decide as HP; [done|].
  destruct (l !! i) as [y|] eqn:Hi; [by apply Hd|].
  apply lookup_ge_None in Hi. apply lookup_ge_None. by rewrite length_replicate, <- Hn.
Qed.

(** Copying every stored setting over the defaults yields the state. *)
Lemma loaded_is_state st w d names ld :
  settings_wf st -> persisted st w ->
  copied st (zero_settings d) names ld ->
  (forall name, name ∉ names -> stored w (setting_key name) = None) ->
  ld = st <| derived_id := d |>.
Proof.
  intros Hwf Hp [cd ce co cr cw cp] Habs.
  destruct (default_scalars st w Hwf Hp) as (D1 & D2 & D3).
  assert (wifi ld = wifi st) as Ew.
  { eapply (list_of_defaults zero_wifi _ _ _ (fun i => wifi_name i ∈ names));
      [apply Hwf|exact cw|]. intros i y Hi Hy. eapply default_wifi; eauto. }
  assert (peers ld = peers st) as Ep.
  { eapply (list_of_defaults zero_peer _ _ _ (fun i => peer_name i ∈ names));
      [apply Hwf|exact cp|]. intros i y Hi Hy. eapply default_peer; eauto. }
  destruct ld as [lp ldev lder lop lring lw]; cbn in *. subst lw lp lder. f_equal.
  - destruct (decide ("device_id"%string ∈ names)) as [|Hn]; [by rewrite ce|].
    rewrite ce. symmetry. by apply D1, Habs.
  - destruct (decide ("operator"%string ∈ names)) as [|Hn]; [by rewrite co|].
    rewrite co. symmetry. by apply D2, Habs.
  - destruct (decide ("ring_off"%string ∈ names)) as [|Hn]; [by rewrite cr|].
    rewrite cr. symmetry. by apply D3, Habs.
Qed.
End RestoreLemmas.

Section SaveLemmas.
Context `{L : SettingsLaws} `{!Hwinfo}.

(** RAM and flash stay tied across a write of one key. *)
Lemma persisted_save st st' w w' name b ret :
  persisted st w ->
  settings_save_one (setting_key name) b w = (ret, w') ->
  (name, b) ∈ images st' ->
  (forall n x, n <> name -> (n, x) ∈ images st' <-> (n, x) ∈ images st) ->
  persisted (if ret =? 0 then st' else st) w'.
Proof.
  intros Hp Hs Hb Hother n. destruct (Z.eqb_spec ret 0) as [->|Hr].
  - rewrite (save_ok _ _ _ _ Hs). case_decide as Hn.
    + unfold setting_key in Hn. do 2 apply (inj (String.append _)) in Hn. by subst.
    + assert (n <> name) as Hne by (intros ->; done).
      specialize (Hp n). destruct (stored w (setting_key n)); setoid_rewrite Hother; done.
  - rewrite (save_failed _ _ _ _ _ Hs Hr). apply Hp.
Qed.

Lemma images_insert_peer st i p n x : n <> peer_name i ->
  (n, x) ∈ images (st <| peers ::= <[i := p]> |>) <-> (n, x) ∈ images st.
Proof.
  intros Hn. rewrite !images_spec; cbn.
  do 4 (apply or_iff_compat_l). split; intros (j & q & Hj & -> & ->);
    exists j, q; (split; [|done]).
  - rewrite list_lookup_insert_ne in Hj; [done|]. by intros ->.
  - rewrite list_lookup_insert_ne; [done|]. by intros ->.
Qed.
Lemma images_insert_wifi st i p n x : n <> wifi_name i ->
  (n, x) ∈ images (st <| wifi ::= <[i := p]> |>) <-> (n, x) ∈ images st.
Proof.
  intros Hn. rewrite !images_spec; cbn.
  do 3 (apply or_iff_compat_l). apply or_iff_compat_r.
  split; intros (j & q & Hj & -> & ->); exists j, q; (split; [|done]).
  - rewrite list_lookup_insert_ne in Hj; [done|]. by intros ->.
  - rewrite list_lookup_insert_ne; [done|]. by intros ->.
Qed.

Definition tied (st : app_settings) (w : os) : Prop := settings_wf st /\ persisted st w.

Lemma tied_store_peer st slot p w ret st' w' :
  tied st w -> slot_ok slot = true -> peer_wf p ->
  store_peer st slot p w = (ret, st', w') -> tied st' w'.
Proof.
  intros [Hwf Hp] Hslot Hpeer E. unfold store_peer, save_peer in E. pair_case. simplify_eq.
  unfold slot_ok in Hslot. to_prop. unfold PSTOP_MAX_MACHINES in *.
  split.
  - destruct (ret =? 0); [|done]. destruct Hwf. split; try done; cbn.
    + by rewrite length_insert.
    + by apply Forall_insert.
  - eapply persisted_save; [done..| |].
    + apply images_spec. do 4 right. eexists _, _. split; [|done]. cbn.
      apply list_lookup_insert_eq. rewrite (wf_peers_len _ Hwf). unfold PSTOP_MAX_MACHINES. lia.
    + intros. by apply images_insert_peer.
Qed.

Lemma tied_wifi_from nets st i w ret st' w' :
  tied st w -> (i + length nets <= PSTOP_WIFI_MAX)%nat -> Forall wifi_wf nets ->
  wifi_set_from st i nets w = (ret, st', w') -> tied st' w'.
Proof.
  revert st i w. induction nets as [|net nets IH]; intros st i w Ht Hi Hn E; simpl in E.
  { by simplify_eq. }
  apply Forall_cons in Hn as [Hnet Hnets]. simpl in Hi. pair_case.
  destruct Ht as [Hwf Hp].
  assert (persisted (if z =? 0 then st <| wifi ::= <[i := net]> |> else st) o) as Hp'.
  { eapply persisted_save; [done..| |].
    - apply images_spec. do 3 right. left. eexists _, _. split; [|done]. cbn.
      apply list_lookup_insert_eq. rewrite (wf_wifi_len _ Hwf). lia.
    - intros. by apply images_insert_wifi. }
  destruct (z =? 0); simpl in E; [|by simplify_eq].
  refine (IH _ _ _ _ _ Hnets E); [|lia].
  split; [|done]. destruct Hwf. split; try done; cbn.
  - by rewrite length_insert.
  - by apply Forall_insert.
Qed.

Lemma tied_setting_op st o w ret st' w' :
  tied st w -> op_wf o -> run_setting_op st o w = (ret, st', w') -> tied st' w'.
Proof.
  intros Ht Ho E. destruct o; simpl in E, Ho.
  - unfold app_settings_set_peer in E. bool_case; to_prop; simplify_eq; [done|].
    by eapply tied_store_peer.
  - unfold app_settings_clear_peer in E. bool_case; to_prop; simplify_eq; [done|].
    by refine (tied_store_peer _ _ _ _ _ _ _ Ht _ _ E).
  - unfold app_settings_set_device_id in E. pair_case. destruct Ht as [Hwf Hp].
    eapply (persisted_save _ (st <| device_id := id |>)) in Heqp;
      [|done|apply images_spec; auto|].
    2: { intros n x Hn. rewrite !images_spec; cbn. naive_solver. }
    destruct (z =? 0); simpl in E; simplify_eq; [|done].
    split; [|done]. by destruct Hwf; split.
  - unfold app_settings_set_ring_offset in E. bool_case; to_prop; [by simplify_eq|].
    pair_case. destruct Ht as [Hwf Hp].
    eapply (persisted_save _ (st <| ring_offset := offset |>)) in Heqp;
      [|done|apply images_spec; auto|].
    2: { intros n x Hn. rewrite !images_spec; cbn. naive_solver. }
    destruct (z =? 0); simpl in E; simplify_eq; [|done].
    split; [|done]. by destruct Hwf; split.
  - unfold app_settings_set_operator in E. pair_case. destruct Ht as [Hwf Hp].
    eapply (persisted_save _ (st <| is_operator := op |>)) in Heqp;
      [|done|apply images_spec; auto|].
    2: { intros n x Hn. rewrite !images_spec; cbn. naive_solver. }
    destruct (z =? 0); simpl in E; simplify_eq; [|done].
    split; [|done]. by destruct Hwf; split.
  - refine (tied_wifi_from _ _ 0 _ _ _ _ Ht _ (Forall_take _ _ _ Ho) E).
    rewrite length_take. lia.
Qed.

Lemma tied_setting_ops ops st w st' w' :
  tied st w -> Forall op_wf ops -> run_setting_ops st ops w = (st', w') -> tied st' w'.
Proof.
  unfold run_setting_ops. revert st w. induction ops as [|o ops IH]; intros st w Ht Ho E.
  { simpl in E. by simplify_eq. }
  apply Forall_cons in Ho as [Ho Hops]. simpl in E.
  destruct (run_setting_op st o w) as [[ret st1] w1] eqn:E1.
  eapply IH; [|done|exact E]. by eapply tied_setting_op.
Qed.
End SaveLemmas.

Section RebootLemmas.
Context `{L : SettingsLaws} `{!Hwinfo}.

(** Erased flash is tied to the defaults. *)
Lemma tied_erased d w :
  (forall name, stored w (setting_key name) = None) -> tied (zero_settings d) w.
Proof. intros He. split; [apply zero_settings_wf|]. intros name. by rewrite He. Qed.

(** The hardware id is read without touching flash. *)
Definition hwinfo_keeps_flash : Prop :=
  forall v k, stored (snd (hwinfo_get_device_id 6 v)) k = stored v k.

Lemma derive_keeps cfg w d w' :
  hwinfo_keeps_flash -> derive_device_id cfg w = (d, w') ->
  forall k, stored w' k = stored w k.
Proof.
  intros Hhw E k. unfold derive_device_id in E. destruct cfg; [|by simplify_eq].
  specialize (Hhw w k). destruct (hwinfo_get_device_id 6 w) as [[n mac] wh].
  by destruct (3 <=? n); simplify_eq.
Qed.

(** What a load of the firmware's own flash makes of the defaults. *)
Lemma load_restores st d w es w' :
  tied st w -> settings_load_subtree PSTOP_SETTINGS_ROOT w = ((0, es), w') ->
  load_entries (zero_settings d) es = st <| derived_id := d |>.
Proof.
  intros [Hwf Hp] El. apply (loaded_is_state st w d es.*1); [done..| |].
  - apply load_entries_copied; [done| |].
    + split; cbn; [by rewrite (wf_wifi_len _ Hwf)|by rewrite (wf_peers_len _ Hwf)].
    + intros name v He. destruct (load_sound _ _ _ _ _ _ El He) as (b & Hb & ->).
      exists b. split; [done|]. specialize (Hp name).
      unfold setting_key in Hp. by rewrite Hb in Hp.
  - intros name Hn. destruct (stored w (setting_key name)) as [b|] eqn:Hb; [|done].
    exfalso. apply Hn. eapply load_complete in Hb; [|exact El].
    by apply (list_elem_of_fmap_2 fst) in Hb.
Qed.

Lemma tied_stored st w w' : (forall k, stored w' k = stored w k) -> tied st w -> tied st w'.
Proof. intros Hk [Hwf Hp]. split; [done|]. intros name. rewrite Hk. apply Hp. Qed.

Lemma tied_derived st d w : tied st w -> tied (st <| derived_id := d |>) w.
Proof. intros [Hwf Hp]. split; [by destruct Hwf; split|]. exact Hp. Qed.

Lemma init_restores cfg st w st' w' :
  hwinfo_keeps_flash -> tied st w -> app_settings_init cfg w = (0, st', w') ->
  st' = st <| derived_id := derived_id st' |> /\ tied st' w'.
Proof.
  intros Hhw Ht E. unfold app_settings_init in E.
  destruct (derive_device_id cfg w) as [d w1] eqn:Ed.
  apply (tied_stored _ _ _ (derive_keeps _ _ _ _ Hhw Ed)) in Ht.
  destruct (settings_subsys_init w1) as [r1 w2] eqn:Ei.
  destruct (Z.eqb_spec r1 0) as [->|Hr1]; [|simpl in E; by simplify_eq].
  apply (tied_stored _ _ _ (init_keeps _ _ _ Ei)) in Ht.
  destruct (settings_load_subtree PSTOP_SETTINGS_ROOT w2) as [[r2 es] w3] eqn:El.
  destruct (Z.eqb_spec r2 0) as [->|Hr2]; [|simpl in E; by simplify_eq].
  cbn [negb Z.eqb] in E. rewrite (load_restores st d w2 es w3 Ht El) in E.
  apply (tied_stored _ _ _ (load_keeps _ _ _ _ El)) in Ht.
  pose proof (wf_ring _ (proj1 Ht)) as Hr. cbn in E.
  destruct (Z.leb_spec 16 (ring_offset st)); [lia|]. simplify_eq.
  split; [by destruct st|by apply tied_derived].
Qed.

(** A setter refused by the argument check or by flash. *)
Definition single_key (o : setting_op) : Prop :=
  match o with OpSetWifi _ => False | _ => True end.

Lemma failed_setter_keeps st o w ret st' w' :
  single_key o -> run_setting_op st o w = (ret, st', w') -> ret <> 0 -> st' = st.
Proof.
  intros Ho E Hr. destruct o; try done; simpl in E;
    unfold app_settings_set_peer, app_settings_clear_peer, app_settings_set_device_id,
      app_settings_set_ring_offset, app_settings_set_operator, store_peer in E;
    repeat (pair_case || bool_case); to_prop; by simplify_eq.
Qed.

(** The stored key set only grows or keeps its values when a setter fails. *)
Lemma failed_setter_keeps_flash st o w ret st' w' :
  single_key o -> run_setting_op st o w = (ret, st', w') -> ret <> 0 ->
  forall k, stored w' k = stored w k.
Proof.
  intros Ho E Hr k. destruct o; try done; simpl in E;
    unfold app_settings_set_peer, app_settings_clear_peer, app_settings_set_device_id,
      app_settings_set_ring_offset, app_settings_set_operator, store_peer, save_peer in E;
    repeat (pair_case || bool_case); to_prop; simplify_eq;
    try done; by eapply save_failed.
Qed.
End RebootLemmas.

Section DeviceIdLemmas.
(** The three MAC bytes below the prefix. *)
Lemma mac_id_value x y z :
  0 <= x < 256 -> 0 <= y < 256 -> 0 <= z < 256 ->
  Z.lor (Z.lor (Z.lor DERIVED_ID_PREFIX (Z.shiftl x 16)) (Z.shiftl y 8)) z =
  16777216 + 65536 * x + 256 * y + z.
Proof.
  intros Hx Hy Hz. unfold DERIVED_ID_PREFIX.
  change 16777216 with (Z.shiftl (Z.shiftl (Z.shiftl 1 8) 8) 8) at 1.
  change (Z.shiftl x 16) with (Z.shiftl x (8 + 8)).
  rewrite <- (Z.shiftl_shiftl x) by lia.
  rewrite <- !Z.shiftl_lor, !lor_concat by lia. lia.
Qed.
End DeviceIdLemmas.

(** * Properties *)

Section Properties.
Context `{L : SettingsLaws} `{!Hwinfo}.

(** C13: A reboot restores the configuration.  Start from flash and RAM in
    step (erased flash and the defaults are), run any sequence of setters -
    refused ones, failed writes and partial WiFi updates included - and
    reboot: [app_settings_init] gives back every setting as RAM had it (only the
    MAC-derived id is computed anew), in step with flash again. *)
Theorem reboot_restores_settings cfg st w ops st1 w1 st2 w2 :
  hwinfo_keeps_flash -> tied st w -> Forall op_wf ops ->
  run_setting_ops st ops w = (st1, w1) ->
  app_settings_init cfg w1 = (0, st2, w2) ->
  st2 = st1 <| derived_id := derived_id st2 |> /\ tied st2 w2.
Proof.
  intros Hhw Ht Ho E Ei. eapply init_restores; [done| |exact Ei].
  by eapply tied_setting_ops.
Qed.

(** The device id is never 0, the value the protocol reserves.  A derived
    id is 0x01 over the last three bytes of the chip's factory address, so it
    keeps within the prefix block and two chips whose last three bytes differ
    get different ids; a pinned id wins over it, and pinning 0 falls back to it. *)
Theorem effective_device_id_nonzero cfg w1 n mac d w2 w3 st st' w' :
  hwinfo_get_device_id 6 w1 = ((n, mac), w2) ->
  Forall (fun b => 0 <= b < 256) mac ->
  derive_device_id cfg w1 = (d, w3) -> derived_id st = d ->
  app_settings_effective_device_id st <> 0 /\
  (cfg = true -> 3 <= n ->
     d = 16777216 + 65536 * nth (Z.to_nat (n - 3)) mac 0 +
         256 * nth (Z.to_nat (n - 2)) mac 0 + nth (Z.to_nat (n - 1)) mac 0) /\
  (app_settings_set_device_id st 0 w3 = (0, st', w') ->
     app_settings_effective_device_id st' = d).
Proof.
  intros Hw Hmac Ed Hst.
  assert (forall i, 0 <= nth i mac 0 < 256) as Hb.
  { intros i. destruct (nth_in_or_default i mac 0) as [Hin|E0]; [|rewrite E0; lia].
    apply list_elem_of_In in Hin. by eapply (proj1 (Forall_forall _ _)) in Hmac; [|exact Hin]. }
  assert (cfg = true -> 3 <= n ->
          d = 16777216 + 65536 * nth (Z.to_nat (n - 3)) mac 0 +
              256 * nth (Z.to_nat (n - 2)) mac 0 + nth (Z.to_nat (n - 1)) mac 0) as Hd.
  { intros -> Hn. unfold derive_device_id in Ed. rewrite Hw in Ed.
    destruct (Z.leb_spec 3 n); [|lia]. injection Ed as <- _. by apply mac_id_value. }
  assert (d <> 0) as Hd0.
  { unfold derive_device_id in Ed. rewrite Hw in Ed.
    destruct cfg; [destruct (Z.leb_spec 3 n)|]; injection Ed as <- _; try done.
    rewrite mac_id_value by done. pose proof (Hb (Z.to_nat (n - 3))).
    pose proof (Hb (Z.to_nat (n - 2))). pose proof (Hb (Z.to_nat (n - 1))). lia. }
  split; [|split; [done|]].
  - unfold app_settings_effective_device_id. bool_case; to_prop; congruence.
  - intros E. unfold app_settings_set_device_id in E. pair_case. by bool_case; to_prop; simplify_eq.
Qed.

(** A setter of a single key is all or nothing: when it reports an error
    (a slot or an offset out of range, or a failed flash write) neither RAM nor
    flash has changed, and an out-of-range argument is always refused with
    -EINVAL before flash is touched. *)
Theorem setter_all_or_nothing st o w ret st' w' :
  single_key o -> run_setting_op st o w = (ret, st', w') ->
  (ret <> 0 -> st' = st /\ forall k, stored w' k = stored w k) /\
  (forall slot ip port id, o = OpSetPeer slot ip port id -> slot < 0 \/ 4 <= slot ->
     (ret, st', w') = (- EINVAL, st, w)) /\
  (forall off, o = OpSetRingOffset off -> 16 <= off -> (ret, st', w') = (- EINVAL, st, w)).
Proof.
  intros Ho E. split; [|split].
  - intros Hr. split; [by eapply failed_setter_keeps|by eapply failed_setter_keeps_flash].
  - intros slot ip0 port0 id -> Hs. simpl in E. unfold app_settings_set_peer in E.
    destruct (slot_ok slot) eqn:Hslot; [|done].
    unfold slot_ok, PSTOP_MAX_MACHINES in Hslot. to_prop. lia.
  - intros off -> Hoff. simpl in E. unfold app_settings_set_ring_offset in E.
    destruct (Z.leb_spec 16 off); [done|lia].
Qed.
End Properties.

(** * Witnesses *)
From S2P Require Import Instances.

Definition demo_ops : list setting_op :=
  [OpSetPeer 1 3232235777 8890 7; OpSetPeer 9 1 1 1; OpSetRingOffset 5; OpSetOperator true].
Definition demo_run : app_settings * os := run_setting_ops (zero_settings 1) demo_ops sim_boot.

Lemma sim_hwinfo_keeps : hwinfo_keeps_flash.
Proof. by intros v k. Qed.

Example reboot_restores_settings_witness :
  let st := snd (fst (app_settings_init true (snd demo_run))) in
  ring_offset st = 5 /\ is_operator st = true /\ peers st = peers (fst demo_run) /\
  derived_id st = 16777216 + 65536 * 18 + 256 * 52 + 86.
Proof.
  destruct (reboot_restores_settings (H := sim_os) true (zero_settings 1) sim_boot demo_ops
              (fst demo_run) (snd demo_run)
              (snd (fst (app_settings_init true (snd demo_run))))
              (snd (app_settings_init true (snd demo_run)))) as [E _].
  - exact sim_hwinfo_keeps.
  - by apply tied_erased.
  - repeat (apply Forall_cons; split); [| |done|done|by apply Forall_nil];
      repeat split; cbn; lia.
  - exact (surjective_pairing demo_run).
  - vm_compute. reflexivity.
  - cbv zeta. rewrite E. vm_compute. auto.
Defined.

Example setter_all_or_nothing_witness :
  let w := sim_boot <| sim_flash_ok := false |> in
  - EIO <> 0 /\ snd (fst (run_setting_op (zero_settings 1) (OpSetOperator true) w)) = zero_settings 1.
Proof.
  set (w := sim_boot <| sim_flash_ok := false |>). split; [discriminate|].
  refine (proj1 (proj1 (setter_all_or_nothing (H := sim_os) (zero_settings 1)
            (OpSetOperator true) w (- EIO) _ _ I _) _)).
  - vm_compute. reflexivity.
  - discriminate.
Defined.

Example effective_device_id_nonzero_witness :
  app_settings_effective_device_id (zero_settings 17970262) <> 0.
Proof.
  refine (proj1 (effective_device_id_nonzero (H := sim_os) true sim_boot 6 [2; 0; 0; 18; 52; 86] 17970262
            sim_boot sim_boot (zero_settings 17970262) (zero_settings 17970262) sim_boot
            eq_refl _ eq_refl _)).
  - repeat (apply Forall_cons; split; [lia|]). by apply Forall_nil.
  - reflexivity.
Defined.
