(* ===== verification/Session.v ===== *)
(** One pstop session: [session.c].

    A session is the C struct; an operation takes the session and the machine
    and returns both.  The machine is paired with the log of every datagram
    handed to the socket ([net]), the observation the transmission properties
    of this file and of [Lockstep.v] are stated over.  The receive loop runs on
    fuel; [poll_terminates] shows that the length of the socket's queue is
    enough of it. *)

From S2P Require Import Prelude Platform AppSettings.
#[local] Open Scope Z_scope.

Definition PSTOP_LOCAL_PORT : Z := 8891.
Definition PSTOP_MIN_SEND_PERIOD_MS : Z := 100.
Definition PSTOP_MAX_SEND_PERIOD_MS : Z := 1000.
Definition PSTOP_BOND_RETRY_MS : Z := 5000.
Definition PSTOP_REBOND_FLOOR_MS : Z := 2500.
Definition PSTOP_REBOND_MACHINE_MAX_MISSED : Z := 5.
Definition PSTOP_REBOND_JITTER_MARGIN_MS : Z := 500.

Inductive pstop_sess_state :=
  PSTOP_SESS_IDLE | PSTOP_SESS_BONDING | PSTOP_SESS_BONDED | PSTOP_SESS_REJECTED.
#[export] Instance sess_state_eq_dec : EqDecision pstop_sess_state.
Proof. solve_decision. Defined.

Record pstop_session := mk_session {
  s_slot : Z;
  s_sock : Z;
  s_peer_addr : sockaddr_in;
  s_peer_id : Z;
  s_proto : protocol_data_t;
  s_state : pstop_sess_state;
  s_hb_ms : Z;          (* uint32_t *)
  s_last_send_ms : Z;   (* uint64_t *)
  s_last_reply_ms : Z;  (* uint64_t *)
  s_last_bond_ms : Z;   (* uint64_t *)
  s_sent : Z;           (* uint32_t, and the next four *)
  s_replies : Z;
  s_send_fail : Z;
  s_rebonds : Z;
  s_unbonds : Z;
  s_last_msg : Z;       (* uint8_t *)
}.
#[export] Instance eta_session : Eta pstop_session := fun s =>
  mk_session (s_slot s) (s_sock s) (s_peer_addr s) (s_peer_id s) (s_proto s) (s_state s)
    (s_hb_ms s) (s_last_send_ms s) (s_last_reply_ms s) (s_last_bond_ms s) (s_sent s)
    (s_replies s) (s_send_fail s) (s_rebonds s) (s_unbonds s) (s_last_msg s).

(** A zeroed struct, as static storage holds it. *)
Definition zero_session : pstop_session :=
  mk_session 0 0 (mk_sockaddr 0 0) 0 (mk_protocol_data 0 0 0 0) PSTOP_SESS_IDLE
    0 0 0 0 0 0 0 0 0 0.
#[export] Instance session_inhabited : Inhabited pstop_session := populate zero_session.

(** A datagram handed to [zsock_sendto]: socket, bytes, destination. *)
Definition datagram : Type := (Z * list Z * sockaddr_in)%type.

Section Net.
Context `{Os}.
(** The machine, and every datagram sent so far (ghost). *)
Record net := mk_net { machine : os; sent_log : list datagram }.
#[export] Instance eta_net : Eta net := fun w => mk_net (machine w) (sent_log w).
Definition on_machine {A} (f : os -> A * os) (w : net) : A * net :=
  let '(a, o) := f (machine w) in (a, w <| machine := o |>).
End Net.

(** ** Pure operations *)

Definition pstop_session_send_period_ms (s : pstop_session) : Z :=
  if s_hb_ms s =? 0 then PSTOP_MIN_SEND_PERIOD_MS
  else
    let period := s_hb_ms s / 2 in
    let period := if period <? PSTOP_MIN_SEND_PERIOD_MS
                  then PSTOP_MIN_SEND_PERIOD_MS else period in
    if PSTOP_MAX_SEND_PERIOD_MS <? period then PSTOP_MAX_SEND_PERIOD_MS else period.

Definition pstop_session_rebond_after_ms (s : pstop_session) : Z :=
  let derived := u64 (u64 (s_hb_ms s * PSTOP_REBOND_MACHINE_MAX_MISSED) +
                      PSTOP_REBOND_JITTER_MARGIN_MS) in
  if derived <? PSTOP_REBOND_FLOOR_MS then PSTOP_REBOND_FLOOR_MS else derived.

Definition pstop_session_due (s : pstop_session) (now_ms : Z) : bool :=
  match s_state s with
  | PSTOP_SESS_REJECTED => false
  | PSTOP_SESS_BONDING => PSTOP_BOND_RETRY_MS <=? u64 (now_ms - s_last_bond_ms s)
  | PSTOP_SESS_IDLE => true
  | PSTOP_SESS_BONDED => pstop_session_send_period_ms s <=? u64 (now_ms - s_last_send_ms s)
  end.

Section Session.
Context `{PstopLib}.

(** [protocol_data_init] and [device_id_set] on the session's peer. *)
Definition fresh_proto (peer_id : Z) : protocol_data_t :=
  protocol_data_init <| remote_id := peer_id |>.

Definition pstop_session_rebond (s : pstop_session) : pstop_session :=
  s <| s_state := PSTOP_SESS_IDLE |> <| s_hb_ms := 0 |>
    <| s_rebonds ::= fun n => u32 (n + 1) |>
    <| s_proto := fresh_proto (s_peer_id s) |>.

Definition pstop_session_watchdog (s : pstop_session) (now_ms : Z) : pstop_session :=
  match s_state s with
  | PSTOP_SESS_BONDED =>
      if u64 (now_ms - s_last_reply_ms s) <? pstop_session_rebond_after_ms s then s
      else pstop_session_rebond s
  | _ => s
  end.

(** [me] is [app_settings_effective_device_id()]. *)
Definition pstop_session_build (s : pstop_session) (me verdict : Z)
           (role : pstop_aux_role_t) (now_ms : Z) : list Z :=
  let type := if decide (s_state s = PSTOP_SESS_BONDED) then verdict
              else PSTOP_MESSAGE_BOND in
  let next := u32 (msg_counter (s_proto s) + 1) in
  let msg :=
    if type =? PSTOP_MESSAGE_BOND
    then pstop_create_bond_message now_ms me (remote_id (s_proto s)) next
    else pstop_create_generic_message type now_ms (last_received_stamp (s_proto s)) me
           (remote_id (s_proto s)) next (last_received_counter (s_proto s)) in
  pstop_message_encode (pstop_aux_encode_role msg role).

(** The body of the receive loop, on a datagram of full length. *)
Definition session_receive (s : pstop_session) (now_ms : Z) (buf : list Z)
           (from : sockaddr_in) : pstop_session :=
  if negb (sin_addr from =? sin_addr (s_peer_addr s)) ||
     negb (sin_port from =? sin_port (s_peer_addr s)) then s
  else
    let msg := pstop_message_decode buf in
    if negb (m_checksum msg =? m_calculated_checksum msg) then s
    else if m_message msg =? PSTOP_MESSAGE_UNBOND then
      s <| s_state := PSTOP_SESS_REJECTED |> <| s_last_msg := m_message msg |>
        <| s_unbonds ::= fun n => u32 (n + 1) |>
    else if decide (s_state s = PSTOP_SESS_REJECTED) then s
    else
      let s := s <| s_proto ::= fun p => p <| last_received_counter := m_counter msg |>
                                          <| last_received_stamp := m_stamp msg |> |>
                 <| s_last_reply_ms := now_ms |> <| s_last_msg := m_message msg |>
                 <| s_replies ::= fun n => u32 (n + 1) |> in
      let s := if negb (m_heartbeat_timeout msg =? 0)
               then s <| s_hb_ms := m_heartbeat_timeout msg |> else s in
      if decide (s_state s = PSTOP_SESS_BONDED) then s
      else s <| s_state := PSTOP_SESS_BONDED |>.

(** ** Operations on the socket *)
Context `{Sockets}.

Definition pstop_session_open (s : pstop_session) (slot : Z) (peer : option pstop_peer)
           (w : net) : Z * pstop_session * net :=
  let s := s <| s_sock := -1 |> in
  match peer with
  | None => (- EINVAL, s, w)
  | Some peer =>
    if (slot <? 0) || (Z.of_nat PSTOP_MAX_MACHINES <=? slot) then (- EINVAL, s, w)
    else
      let '(sock, w) := on_machine zsock_socket w in
      if sock <? 0 then (- errno (machine w), s, w)
      else
        let '(ret, w) := on_machine (zsock_bind sock (u16 (PSTOP_LOCAL_PORT + slot))) w in
        if ret <? 0 then
          let w := w <| machine ::= zsock_close sock |> in
          (- errno (machine w), s, w)
        else
          (0, s <| s_slot := slot |> <| s_sock := sock |> <| s_peer_id := peer_dev_id peer |>
                <| s_state := PSTOP_SESS_IDLE |> <| s_hb_ms := 0 |> <| s_last_send_ms := 0 |>
                <| s_last_reply_ms := 0 |> <| s_last_bond_ms := 0 |> <| s_sent := 0 |>
                <| s_replies := 0 |> <| s_send_fail := 0 |> <| s_rebonds := 0 |>
                <| s_unbonds := 0 |> <| s_last_msg := PSTOP_MESSAGE_UNKNOWN |>
                <| s_peer_addr := mk_sockaddr (ip peer) (port peer) |>
                <| s_proto := fresh_proto (peer_dev_id peer) |>, w)
  end.

Definition pstop_session_close (s : pstop_session) (w : net) : pstop_session * net :=
  if 0 <=? s_sock s then
    (s <| s_sock := -1 |> <| s_state := PSTOP_SESS_IDLE |>,
     w <| machine ::= zsock_close (s_sock s) |>)
  else (s, w).

Definition sendto (fd : Z) (buf : list Z) (addr : sockaddr_in) (w : net) : Z * net :=
  let '(n, w) := on_machine (zsock_sendto fd buf addr) w in
  (n, w <| sent_log ::= fun l => l ++ [(fd, buf, addr)] |>).

Definition pstop_session_commit_send (s : pstop_session) (buf48 : list Z) (now_ms : Z)
           (w : net) : Z * pstop_session * net :=
  let '(n, w) := sendto (s_sock s) buf48 (s_peer_addr s) w in
  if negb (n =? Z.of_nat PSTOP_MESSAGE_SIZE) then
    (- errno (machine w), s <| s_send_fail ::= fun n => u32 (n + 1) |>, w)
  else
    let s := s <| s_proto ::= fun p => p <| msg_counter ::= fun n => u32 (n + 1) |> |>
               <| s_last_send_ms := now_ms |> <| s_sent ::= fun n => u32 (n + 1) |> in
    let s := match s_state s with
             | PSTOP_SESS_IDLE => s <| s_state := PSTOP_SESS_BONDING |>
                                    <| s_last_bond_ms := now_ms |>
             | PSTOP_SESS_BONDING => s <| s_last_bond_ms := now_ms |>
             | _ => s
             end in
    (0, s, w).

(** [None] is out of fuel. *)
Fixpoint poll_loop (fuel : nat) (s : pstop_session) (now_ms : Z) (w : net)
  : option (pstop_session * net) :=
  match fuel with
  | O => None
  | S fuel =>
      let '((n, buf, from), w) :=
        on_machine (zsock_recvfrom (s_sock s) PSTOP_MESSAGE_SIZE) w in
      if negb (n =? Z.of_nat PSTOP_MESSAGE_SIZE) then Some (s, w)
      else poll_loop fuel (session_receive s now_ms buf from) now_ms w
  end.
Definition pstop_session_poll (s : pstop_session) (now_ms : Z) (w : net)
  : pstop_session * net :=
  default (s, w) (poll_loop (S (recv_queue (s_sock s) (machine w))) s now_ms w).
End Session.
#[global] Arguments session_receive {_} _ _ _ _ : simpl never.
#[global] Arguments pstop_session_build {_} _ _ _ _ _ : simpl never.
#[global] Arguments pstop_session_watchdog {_} _ _ : simpl never.
#[global] Arguments pstop_session_commit_send {_ _} _ _ _ _ : simpl never.
#[global] Arguments pstop_session_poll {_ _ _} _ _ _ : simpl never.

(** * Specification

    A session's life as a sequence of events: what the lockstep calls on it -
    a send finds the machine in any state [w], so it may fail or fall short -
    with the datagrams the poll loop hands to [session_receive]. *)
Inductive sess_event `{Os} :=
| EvSend (buf48 : list Z) (now : Z) (w : net)
| EvReceive (now : Z) (buf : list Z) (from : sockaddr_in)
| EvWatchdog (now : Z)
| EvRebond.

Section Spec.
Context `{PstopLib} `{Sockets}.

Definition sess_apply (s : pstop_session) (e : sess_event) : pstop_session :=
  match e with
  | EvSend buf now w => snd (fst (pstop_session_commit_send s buf now w))
  | EvReceive now buf from => session_receive s now buf from
  | EvWatchdog now => pstop_session_watchdog s now
  | EvRebond => pstop_session_rebond s
  end.
Definition sess_run (s : pstop_session) (es : list sess_event) : pstop_session :=
  foldl sess_apply s es.

(** The moves of the bond state machine. *)
Inductive sess_move : pstop_sess_state -> pstop_sess_state -> Prop :=
| move_stay st : sess_move st st
| move_bond : sess_move PSTOP_SESS_IDLE PSTOP_SESS_BONDING
| move_bonded st : st <> PSTOP_SESS_REJECTED -> sess_move st PSTOP_SESS_BONDED
| move_rejected st : sess_move st PSTOP_SESS_REJECTED
| move_silent : sess_move PSTOP_SESS_BONDED PSTOP_SESS_IDLE.

(** Does an event start bonding afresh? *)
Definition restarts (s : pstop_session) (e : sess_event) : bool :=
  match e with
  | EvRebond => true
  | EvWatchdog now => bool_decide (s_state s = PSTOP_SESS_BONDED) &&
                      (pstop_session_rebond_after_ms s <=? u64 (now - s_last_reply_ms s))
  | _ => false
  end.
(** Is it a send that put a whole frame on the wire? *)
Definition is_sent (s : pstop_session) (e : sess_event) : bool :=
  match e with
  | EvSend buf _ w => fst (zsock_sendto (s_sock s) buf (s_peer_addr s) (machine w)) =? 48
  | _ => false
  end.

(** Successful sends since the last restart, [acc] of them before [es]. *)
Fixpoint sends_since (s : pstop_session) (es : list sess_event) (acc : Z) : Z :=
  match es with
  | [] => acc
  | e :: es => sends_since (sess_apply s e) es
                 (if restarts s e then 0 else if is_sent s e then acc + 1 else acc)
  end.

(** The frame a session would transmit, decoded. *)
Definition next_frame (s : pstop_session) me verdict role now : pstop_msg_t :=
  pstop_message_decode (pstop_session_build s me verdict role now).

Record session_wf (s : pstop_session) : Prop := {
  wf_counter : 0 <= msg_counter (s_proto s) < 2 ^ 32;
  wf_hb : 0 <= s_hb_ms s < 2 ^ 32;
}.
End Spec.

(** * Lemmas *)
(** What [pstop_session_commit_send] does to the session, by the send's outcome:
    proved of it below. *)
Definition sent_session (s : pstop_session) (ok : bool) (now_ms : Z) : pstop_session :=
  if ok then
    let s := s <| s_proto ::= fun p => p <| msg_counter ::= fun n => u32 (n + 1) |> |>
               <| s_last_send_ms := now_ms |> <| s_sent ::= fun n => u32 (n + 1) |> in
    match s_state s with
    | PSTOP_SESS_IDLE => s <| s_state := PSTOP_SESS_BONDING |> <| s_last_bond_ms := now_ms |>
    | PSTOP_SESS_BONDING => s <| s_last_bond_ms := now_ms |>
    | _ => s
    end
  else s <| s_send_fail ::= fun n => u32 (n + 1) |>.

Section Lemmas.
Context `{PstopLib} `{Sockets}.

Lemma commit_send_spec s buf now w :
  let '(ret, s', w') := pstop_session_commit_send s buf now w in
  sent_log w' = sent_log w ++ [(s_sock s, buf, s_peer_addr s)] /\
  s' = sent_session s (is_sent s (EvSend buf now w)) now.
Proof.
  unfold pstop_session_commit_send, sendto, on_machine.
  destruct (zsock_sendto _ _ _ _) as [n o] eqn:E. cbn. change (Z.of_nat PSTOP_MESSAGE_SIZE) with 48.
  destruct (Z.eqb_spec n 48) as [->|Hn]; cbn; (split; [done|]).
  - rewrite E. cbn. by destruct (s_state s).
  - rewrite E. cbn. apply Z.eqb_neq in Hn. by rewrite Hn.
Qed.
Lemma sess_apply_send s buf now w :
  sess_apply s (EvSend buf now w) = sent_session s (is_sent s (EvSend buf now w)) now.
Proof.
  pose proof (commit_send_spec s buf now w) as Hs. cbn [sess_apply].
  by destruct (pstop_session_commit_send s buf now w) as [[ret s'] w'], Hs as [_ ->].
Qed.

(** The peer a session talks to, and the socket, never change. *)
Lemma sess_apply_static s e :
  s_sock (sess_apply s e) = s_sock s /\ s_peer_addr (sess_apply s e) = s_peer_addr s /\
  s_peer_id (sess_apply s e) = s_peer_id s /\ s_slot (sess_apply s e) = s_slot s.
Proof.
  destruct e as [buf now w| | |]; [rewrite sess_apply_send; destruct (is_sent s _)|..]; cbn; try done.
  - destruct (s_state s); done.
  - unfold session_receive. repeat (bool_case; cbn); done.
  - unfold pstop_session_watchdog. destruct (s_state s); try bool_case; done.
Qed.

Lemma receive_move s now buf from :
  sess_move (s_state s) (s_state (session_receive s now buf from)).
Proof.
  unfold session_receive. repeat (bool_case; cbn); try constructor; cbn in *; try congruence; done.
Qed.

Lemma sess_apply_move s e : e <> EvRebond ->
  sess_move (s_state s) (s_state (sess_apply s e)).
Proof.
  intros Hne. destruct e as [buf now w|now buf from|now|]; try done; cbn [sess_apply].
  - change (sess_move (s_state s) (s_state (sess_apply s (EvSend buf now w)))).
    rewrite sess_apply_send. destruct (is_sent s _); cbn; [|constructor]. destruct (s_state s) eqn:E; cbn; rewrite ?E; constructor.
  - apply receive_move.
  - unfold pstop_session_watchdog. destruct (s_state s) eqn:E; rewrite ?E; try constructor.
    bool_case; [rewrite E|]; constructor.
Qed.

Lemma rejected_stays s e : e <> EvRebond ->
  s_state s = PSTOP_SESS_REJECTED -> s_state (sess_apply s e) = PSTOP_SESS_REJECTED.
Proof.
  intros Hne Hs. pose proof (sess_apply_move s e Hne) as M. rewrite Hs in M. by inversion M.
Qed.

(** A parked session's protocol data is frozen until the rebond. *)
Lemma rejected_receive s now buf from :
  s_state s = PSTOP_SESS_REJECTED ->
  s_proto (session_receive s now buf from) = s_proto s /\
  s_last_reply_ms (session_receive s now buf from) = s_last_reply_ms s /\
  s_hb_ms (session_receive s now buf from) = s_hb_ms s.
Proof.
  intros Hs. unfold session_receive. repeat (bool_case; cbn); congruence || done.
Qed.

Lemma receive_counter s now buf from :
  msg_counter (s_proto (session_receive s now buf from)) = msg_counter (s_proto s).
Proof. unfold session_receive. repeat (bool_case; cbn); done. Qed.
End Lemmas.

Section PollLemmas.
Context `{!PstopLib} `{SL : SocketLaws}.

Lemma receive_sock s now buf from : s_sock (session_receive s now buf from) = s_sock s.
Proof. apply (sess_apply_static s (EvReceive now buf from)). Qed.

Lemma poll_loop_enough fuel1 fuel2 s now w :
  (recv_queue (s_sock s) (machine w) < fuel1)%nat ->
  (recv_queue (s_sock s) (machine w) < fuel2)%nat ->
  exists r, poll_loop fuel1 s now w = Some r /\ poll_loop fuel2 s now w = Some r.
Proof.
  revert fuel2 s w. induction fuel1 as [|fuel1 IH]; intros [|fuel2] s w Hf1 Hf2; try lia.
  cbn [poll_loop]. unfold on_machine.
  destruct (zsock_recvfrom _ _ _) as [[[n buf] from] o] eqn:E. cbn [fst snd].
  destruct (Z.eqb_spec n (Z.of_nat PSTOP_MESSAGE_SIZE)) as [->|Hn]; cbn [negb].
  - apply recv_consumes in E; [|lia]. apply IH; rewrite receive_sock; cbn; lia.
  - by eexists.
Qed.

Lemma poll_enough fuel s now w :
  (recv_queue (s_sock s) (machine w) < fuel)%nat ->
  poll_loop fuel s now w = Some (pstop_session_poll s now w).
Proof.
  intros Hf. unfold pstop_session_poll.
  destruct (poll_loop_enough fuel (S (recv_queue (s_sock s) (machine w))) s now w)
    as (r & -> & ->); [done|lia|done].
Qed.

(** A poll is a run of receives, and sends nothing. *)
Lemma poll_loop_receives fuel s now w s' w' :
  poll_loop fuel s now w = Some (s', w') ->
  sent_log w' = sent_log w /\
  exists ds : list (list Z * sockaddr_in),
    s' = sess_run s (map (fun d => EvReceive now (fst d) (snd d)) ds).
Proof.
  revert s w. induction fuel as [|fuel IH]; intros s w E; [done|].
  cbn [poll_loop] in E. unfold on_machine in E.
  destruct (zsock_recvfrom _ _ _) as [[[n buf] from] o]. cbn [fst snd] in E.
  destruct (n =? _); cbn [negb] in E.
  - apply IH in E as (Hl & ds & ->). split; [done|]. by exists ((buf, from) :: ds).
  - simplify_eq. split; [done|]. by exists [].
Qed.

End PollLemmas.

Section PollUnconditional.
Context `{PstopLib} `{Sockets}.
Lemma poll_receives s now w :
  sent_log (snd (pstop_session_poll s now w)) = sent_log w /\
  exists ds : list (list Z * sockaddr_in),
    fst (pstop_session_poll s now w) =
      sess_run s (map (fun d => EvReceive now (fst d) (snd d)) ds).
Proof.
  unfold pstop_session_poll. destruct (poll_loop _ s now w) as [[s' w']|] eqn:E; cbn.
  - by apply poll_loop_receives in E.
  - split; [done|]. by exists [].
Qed.
End PollUnconditional.

Section FrameLemmas.
Context `{PstopLib} {PL : PstopLaws} `{Sockets}.

Lemma next_frame_spec s me verdict role now :
  0 <= verdict < 256 ->
  m_message (next_frame s me verdict role now) =
    (if decide (s_state s = PSTOP_SESS_BONDED) then verdict else PSTOP_MESSAGE_BOND) /\
  m_counter (next_frame s me verdict role now) = u32 (msg_counter (s_proto s) + 1).
Proof.
  intros Hv. unfold next_frame, pstop_session_build.
  pose proof (u32_range (msg_counter (s_proto s) + 1)) as Hc.
  destruct (decide _) as [Hb|Hb].
  - destruct (Z.eqb_spec verdict PSTOP_MESSAGE_BOND) as [->|Hne].
    + by apply decode_bond.
    + by apply decode_generic.
  - rewrite Z.eqb_refl. by apply decode_bond.
Qed.

Lemma build_length s me verdict role now :
  length (pstop_session_build s me verdict role now) = PSTOP_MESSAGE_SIZE.
Proof. apply encode_length. Qed.

Lemma sess_apply_counter s e :
  msg_counter (s_proto (sess_apply s e)) =
  if restarts s e then 0
  else if is_sent s e then u32 (msg_counter (s_proto s) + 1) else msg_counter (s_proto s).
Proof.
  destruct e as [buf now w|now buf from|now|]; [rewrite sess_apply_send|..];
    cbn [restarts sess_apply is_sent].
  - change (fst _ =? 48) with (is_sent s (EvSend buf now w)).
    destruct (is_sent s _); [|done]. cbn. by destruct (s_state s).
  - apply receive_counter.
  - unfold pstop_session_watchdog. destruct (s_state s); cbn; try done.
    rewrite Z.leb_antisym. destruct (_ <? _); cbn; [done|apply init_counter].
  - apply init_counter.
Qed.

Lemma sess_run_counter es s acc :
  msg_counter (s_proto s) = u32 acc ->
  msg_counter (s_proto (sess_run s es)) = u32 (sends_since s es acc).
Proof.
  revert s acc. induction es as [|e es IH]; intros s acc Hs; [done|].
  apply (IH (sess_apply s e)). rewrite sess_apply_counter.
  destruct (restarts s e); [done|]. destruct (is_sent s e); [|done].
  rewrite Hs. unfold u32. by rewrite Z.add_mod_idemp_l.
Qed.
End FrameLemmas.

(** * Properties *)
Section Properties.
Context `{!PstopLib} {PL : PstopLaws} `{SO : Sockets}.

(** C11: Contiguous counters: whatever a session has been through - failed sends,
    skipped ticks, replies, parking, watchdog re-bonds - the frame it would
    transmit next decodes to the counter one past the number of frames that
    actually left since its last (re)start, and it is a BOND unless the
    session is bonded, in which case it carries exactly the verdict. *)
Theorem frame_counters_contiguous s0 es me verdict role now :
  msg_counter (s_proto s0) = 0 -> 0 <= verdict < 256 ->
  let s := sess_run s0 es in
  m_counter (next_frame s me verdict role now) = u32 (sends_since s0 es 0 + 1) /\
  m_message (next_frame s me verdict role now) =
    (if decide (s_state s = PSTOP_SESS_BONDED) then verdict else PSTOP_MESSAGE_BOND) /\
  length (pstop_session_build s me verdict role now) = PSTOP_MESSAGE_SIZE.
Proof.
  intros Hz Hv s. destruct (next_frame_spec s me verdict role now Hv) as [Hm Hc].
  split; [|split; [done|apply build_length]].
  rewrite Hc. unfold s. rewrite (sess_run_counter es s0 0) by done.
  unfold u32. by rewrite Z.add_mod_idemp_l.
Qed.
End Properties.

Section StateProperties.
Context `{!PstopLib} `{SO : Sockets}.

(** UNBOND parks a session for good: from REJECTED, no sequence of sends,
    replies (of any content, from anyone) and watchdog checks leaves the state,
    or makes the session due, or revives its reply stamp; a rebond request does,
    straight to IDLE with the heartbeat window forgotten and the counters
    restarted. *)
Theorem rejected_until_rebond s es now :
  s_state s = PSTOP_SESS_REJECTED -> Forall (fun e => e <> EvRebond) es ->
  let s' := sess_run s es in
  s_state s' = PSTOP_SESS_REJECTED /\ pstop_session_due s' now = false /\
  s_last_reply_ms s' = s_last_reply_ms s /\ s_hb_ms s' = s_hb_ms s /\
  let r := pstop_session_rebond s' in
  s_state r = PSTOP_SESS_IDLE /\ pstop_session_due r now = true /\ s_hb_ms r = 0 /\
  s_proto r = fresh_proto (s_peer_id s).
Proof.
  intros Hs Hes s'.
  assert (s_state s' = PSTOP_SESS_REJECTED /\ s_last_reply_ms s' = s_last_reply_ms s /\
          s_hb_ms s' = s_hb_ms s /\ s_peer_id s' = s_peer_id s) as (H1 & H2 & H3 & H4).
  { unfold s', sess_run. clear s'. revert s Hs. induction Hes as [|e es He _ IH]; intros s Hs;
      [done|]. cbn [foldl].
    destruct (IH (sess_apply s e) (rejected_stays _ _ He Hs)) as (E1 & -> & -> & ->).
    destruct (sess_apply_static s e) as (_ & _ & -> & _).
    split; [done|].
    destruct e as [buf t w|t buf from|t|]; [rewrite sess_apply_send; destruct (is_sent s _)|..];
      cbn; try done.
    - rewrite Hs. done.
    - destruct (rejected_receive s t buf from Hs) as (_ & -> & ->). done.
    - unfold pstop_session_watchdog. by rewrite Hs. }
  repeat split; try done.
  - unfold pstop_session_due. by rewrite H1.
  - cbn. by rewrite H4.
Qed.

(** The bond state machine: whatever a session lives through short of a
    rebond request, every event moves it along the documented edges (IDLE to
    BONDING by a send, to BONDED by a reply, anywhere to REJECTED by an UNBOND,
    BONDED to IDLE by silence), and a datagram from another address or port, or
    with a bad checksum, changes nothing at all. *)
Theorem session_moves s e buf from now :
  (e <> EvRebond -> sess_move (s_state s) (s_state (sess_apply s e))) /\
  (from <> s_peer_addr s \/
   m_checksum (pstop_message_decode buf) <> m_calculated_checksum (pstop_message_decode buf) ->
   session_receive s now buf from = s).
Proof.
  split; [apply sess_apply_move|]. intros Hbad. unfold session_receive.
  destruct (Z.eqb_spec (sin_addr from) (sin_addr (s_peer_addr s))) as [Ea|]; [|done].
  destruct (Z.eqb_spec (sin_port from) (sin_port (s_peer_addr s))) as [Ep|]; [|done].
  cbn. destruct (Z.eqb_spec (m_checksum (pstop_message_decode buf))
                   (m_calculated_checksum (pstop_message_decode buf))); [|done].
  destruct Hbad as [Hf|]; [|done]. destruct Hf. destruct from, (s_peer_addr s).
  cbn in *. congruence.
Qed.

(** The rates the machine relies on: transmission is between 100 ms and
    1000 ms, half the advertised window when that fits; and the re-bond watchdog
    never fires before the machine's own bond-drop timeout of five windows,
    for every 32-bit window, so no wrap-around undercuts it. *)
Theorem session_rates s :
  0 <= s_hb_ms s < 2 ^ 32 ->
  100 <= pstop_session_send_period_ms s <= 1000 /\
  (200 <= s_hb_ms s <= 2000 -> pstop_session_send_period_ms s = s_hb_ms s / 2) /\
  pstop_session_rebond_after_ms s = Z.max 2500 (s_hb_ms s * 5 + 500) /\
  s_hb_ms s * 5 < pstop_session_rebond_after_ms s.
Proof.
  intros Hhb.
  unfold pstop_session_send_period_ms, pstop_session_rebond_after_ms,
    PSTOP_MIN_SEND_PERIOD_MS, PSTOP_MAX_SEND_PERIOD_MS, PSTOP_REBOND_MACHINE_MAX_MISSED,
    PSTOP_REBOND_JITTER_MARGIN_MS, PSTOP_REBOND_FLOOR_MS.
  rewrite (u64_small (s_hb_ms s * 5)), u64_small by lia.
  cbv zeta. repeat split; intros; repeat bool_case; to_prop;
    Z.to_euclidean_division_equations; lia.
Qed.

(** The watchdog re-bonds a session exactly when it is bonded and has been
    silent for the whole window, and then touches nothing but the bond: the
    socket, the peer and the telemetry stay. *)
Theorem watchdog_fires_iff_silent s now :
  let s' := pstop_session_watchdog s now in
  (restarts s (EvWatchdog now) = true <->
   s_state s = PSTOP_SESS_BONDED /\
   pstop_session_rebond_after_ms s <= u64 (now - s_last_reply_ms s)) /\
  s' = (if restarts s (EvWatchdog now) then pstop_session_rebond s else s) /\
  s_sent s' = s_sent s /\ s_sock s' = s_sock s /\ s_peer_addr s' = s_peer_addr s.
Proof.
  cbn. unfold pstop_session_watchdog.
  rewrite andb_true_iff, bool_decide_eq_true, Z.leb_le, Z.leb_antisym.
  split; [done|]. destruct (s_state s); cbn; try done. by destruct (_ <? _).
Qed.

(** A reply that arrives after a re-bond counts as the bond: an IDLE session
    that has sent nothing since its restart becomes BONDED on any valid frame
    of its peer other than UNBOND, so its next frame is a verdict with counter
    1, not the BOND the machine expects first. *)
Theorem late_reply_skips_bond {PL : PstopLaws} s now buf me verdict role later :
  let msg := pstop_message_decode buf in
  m_checksum msg = m_calculated_checksum msg -> m_message msg <> PSTOP_MESSAGE_UNBOND ->
  0 <= verdict < 256 ->
  let s' := session_receive (pstop_session_rebond s) now buf (s_peer_addr s) in
  s_state s' = PSTOP_SESS_BONDED /\
  m_message (next_frame s' me verdict role later) = verdict /\
  m_counter (next_frame s' me verdict role later) = 1.
Proof.
  intros msg Hck Hun Hv s'.
  assert (s_state s' = PSTOP_SESS_BONDED /\ msg_counter (s_proto s') = 0) as [Hs Hc].
  { unfold s'. rewrite receive_counter. split; [|apply init_counter].
    unfold session_receive. cbn. rewrite !Z.eqb_refl. cbn.
    fold msg. rewrite Hck, Z.eqb_refl. cbn.
    destruct (Z.eqb_spec (m_message msg) PSTOP_MESSAGE_UNBOND); [done|].
    by destruct (negb _). }
  destruct (next_frame_spec s' me verdict role later Hv) as [-> ->].
  rewrite Hs, Hc. by destruct (decide _).
Qed.
End StateProperties.

Section PollProperties.
Context `{!PstopLib} `{SL : SocketLaws}.

(** The receive loop returns: with the datagrams queued on the socket (each
    receive takes one off) as fuel and one more, the loop ends, any larger fuel
    gives the same result, nothing is transmitted, and what it did to the session
    is [session_receive] on some datagrams in turn. *)
Theorem poll_terminates fuel s now w :
  (recv_queue (s_sock s) (machine w) < fuel)%nat ->
  poll_loop fuel s now w = Some (pstop_session_poll s now w) /\
  sent_log (snd (pstop_session_poll s now w)) = sent_log w /\
  exists ds : list (list Z * sockaddr_in),
    fst (pstop_session_poll s now w) =
      sess_run s (map (fun d => EvReceive now (fst d) (snd d)) ds).
Proof. intros Hf. split; [by apply poll_enough|apply poll_receives]. Qed.
End PollProperties.

(** * Witnesses *)
From S2P Require Import Instances.

Definition demo_peer : pstop_peer := mk_peer 3232235777 8890 16909060 true.
Definition demo_net : @net sim_os := @mk_net sim_os sim_boot [].
Definition demo_session : pstop_session :=
  snd (fst (pstop_session_open zero_session 1 (Some demo_peer) demo_net)).
(** The machine's bond ack (a 500 ms window), with its checksum. *)
Definition demo_reply (ty : Z) : list Z :=
  wire_encode (mk_wire_msg ty 777 0 16909060 5 500 1 1 0 0 0).
Definition demo_addr : sockaddr_in := mk_sockaddr 3232235777 8890.

(** A send that goes out, one on a dead link, the machine's ack, and another
    send: the next frame is the third. *)
Definition demo_dead : @net sim_os := @mk_net sim_os (sim_boot <| sim_link_up := false |>) [].
Definition demo_frame (now : Z) : list Z :=
  pstop_session_build demo_session 5 146 PSTOP_AUX_ROLE_OPERATOR now.
Definition demo_events : list sess_event :=
  [EvSend (demo_frame 100) 100 demo_net; EvSend (demo_frame 200) 200 demo_dead;
   EvReceive 210 (demo_reply 173) demo_addr; EvSend (demo_frame 300) 300 demo_net].

Example frame_counters_contiguous_witness :
  let s := sess_run demo_session demo_events in
  m_counter (next_frame s 5 146 PSTOP_AUX_ROLE_OPERATOR 400) = 3 /\
  m_message (next_frame s 5 146 PSTOP_AUX_ROLE_OPERATOR 400) = 146.
Proof.
  destruct (frame_counters_contiguous (PL := wire_laws) demo_session demo_events
              5 146 PSTOP_AUX_ROLE_OPERATOR 400) as (Hc & Hm & _).
  - vm_compute. reflexivity.
  - lia.
  - cbv zeta. rewrite Hc, Hm. vm_compute. auto.
Defined.

Example rejected_until_rebond_witness :
  let s := session_receive demo_session 50 (demo_reply 106) demo_addr in
  s_state s = PSTOP_SESS_REJECTED /\
  pstop_session_due (sess_run s [EvReceive 60 (demo_reply 173) demo_addr]) 100000 = false.
Proof.
  set (s := session_receive _ _ _ _).
  assert (s_state s = PSTOP_SESS_REJECTED) as Hs by (vm_compute; reflexivity).
  split; [exact Hs|].
  refine (proj1 (proj2 (rejected_until_rebond s [EvReceive 60 (demo_reply 173) demo_addr]
                          100000 Hs _))).
  by repeat constructor.
Defined.

Example session_moves_witness :
  session_receive demo_session 50 (demo_reply 173) (mk_sockaddr 1 8890) = demo_session.
Proof.
  refine (proj2 (session_moves demo_session EvRebond (demo_reply 173) (mk_sockaddr 1 8890) 50) _).
  left. vm_compute. discriminate.
Defined.

Example session_rates_witness :
  let s := demo_session <| s_hb_ms := 500 |> in
  0 <= s_hb_ms s < 2 ^ 32 /\ pstop_session_send_period_ms s = 250.
Proof.
  set (s := _ <| s_hb_ms := 500 |>). split; [vm_compute; split; [discriminate|reflexivity]|].
  assert (0 <= s_hb_ms s < 2 ^ 32) as H by (vm_compute; split; [discriminate|reflexivity]).
  rewrite (proj1 (proj2 (session_rates s H))) by (vm_compute; split; discriminate). reflexivity.
Defined.

Example late_reply_skips_bond_witness :
  s_state (session_receive (pstop_session_rebond demo_session) 50 (demo_reply 85) demo_addr) =
  PSTOP_SESS_BONDED.
Proof.
  refine (proj1 (late_reply_skips_bond (PL := wire_laws) demo_session 50 (demo_reply 85)
                   5 146 PSTOP_AUX_ROLE_OPERATOR 60 _ _ _)).
  - vm_compute. reflexivity.
  - vm_compute. discriminate.
  - lia.
Defined.

Example poll_terminates_witness :
  let w := @mk_net sim_os (sim_boot <| sim_rx := [(3, demo_reply 173, demo_addr)] |>) [] in
  (recv_queue 3 (machine w) < 2)%nat /\
  poll_loop 2 demo_session 9 w = Some (pstop_session_poll demo_session 9 w).
Proof.
  set (w := mk_net _ _).
  assert (recv_queue 3 (machine w) < 2)%nat as Hq by (vm_compute; lia).
  split; [exact Hq|].
  exact (proj1 (poll_terminates (SL := sim_socket_laws) 2 demo_session 9 w Hq)).
Defined.
Example demo_poll_bonds :
  let w := @mk_net sim_os (sim_boot <| sim_rx := [(3, demo_reply 173, demo_addr)] |>) [] in
  s_state (fst (pstop_session_poll demo_session 9 w)) = PSTOP_SESS_BONDED.
Proof. vm_compute. reflexivity. Qed.
