(* ===== verification/Lockstep.v ===== *)
(** The dual-channel comparator: [lockstep.c].

    The state is the file's statics.  A tick snapshots its inputs and mints a
    generation ([begin_tick]), runs one sampler pass per channel, and compares,
    transmits, polls and re-bonds ([run_tick_body]).  [tick_sync] composes them
    on one thread; the comparator thread calls the same two halves around its
    waits, whose timeouts are [run_tick_body]'s late mask. *)

From S2P Require Import Prelude Platform Verdict AppSettings Session.
#[local] Open Scope Z_scope.

Definition PSTOP_TICK_MS : Z := 100.
Definition PSTOP_SAMPLER_DEADLINE_MS : Z := 80.

Inductive pstop_lockstep_event :=
  PSTOP_LOCKSTEP_EVENT_NONE | PSTOP_LOCKSTEP_EVENT_CONTENT | PSTOP_LOCKSTEP_EVENT_TIMEOUT.

Record pstop_lockstep_diag := mk_diag {
  mismatch_slot : Z;
  mismatch_offset : nat;
  mismatch_verdict : Z * Z;
  mismatch_uptime_ms : Z;
  late_mask : Z;
  late_by_ms : Z;
  late_uptime_ms : Z;
  latency_max_ms : list Z;
  last_kind : pstop_lockstep_event;
}.
#[export] Instance eta_diag : Eta pstop_lockstep_diag := fun d =>
  mk_diag (mismatch_slot d) (mismatch_offset d) (mismatch_verdict d) (mismatch_uptime_ms d)
    (late_mask d) (late_by_ms d) (late_uptime_ms d) (latency_max_ms d) (last_kind d).

Record lockstep := mk_lockstep {
  sessions : list pstop_session;          (* [PSTOP_MAX_MACHINES] *)
  slot_active : list bool;
  estop : list estop_state_t;             (* [ESTOP_CHANNELS] *)
  frames : list (list (list Z));          (* [channel][slot], 48 bytes each *)
  tick_now_ms : Z;
  tick_due : list bool;
  tick_role : pstop_aux_role_t;
  sampler_verdict : list Z;
  sampler_done_ms : list Z;
  rebond_requests : Z;
  reconfigure_requests : Z;
  diag : pstop_lockstep_diag;
  tick_gen : Z;                           (* uint32_t *)
  sampler_gen : list Z;                   (* uint32_t *)
  mismatches : Z;                         (* uint32_t, and the next two *)
  missed_deadlines : Z;
  gated_ticks : Z;
}.
#[export] Instance eta_lockstep : Eta lockstep := fun l =>
  mk_lockstep (sessions l) (slot_active l) (estop l) (frames l) (tick_now_ms l) (tick_due l)
    (tick_role l) (sampler_verdict l) (sampler_done_ms l) (rebond_requests l)
    (reconfigure_requests l) (diag l) (tick_gen l) (sampler_gen l) (mismatches l)
    (missed_deadlines l) (gated_ticks l).

(** Static storage at boot: all zeros. *)
Definition lockstep_zero : lockstep :=
  mk_lockstep (replicate PSTOP_MAX_MACHINES zero_session) (replicate PSTOP_MAX_MACHINES false)
    (replicate ESTOP_CHANNELS estop_state_init)
    (replicate ESTOP_CHANNELS (replicate PSTOP_MAX_MACHINES (replicate PSTOP_MESSAGE_SIZE 0)))
    0 (replicate PSTOP_MAX_MACHINES false) PSTOP_AUX_ROLE_STOP_ONLY
    (replicate ESTOP_CHANNELS 0) (replicate ESTOP_CHANNELS 0) 0 0
    (mk_diag 0 0 (0, 0) 0 0 0 0 [0; 0] PSTOP_LOCKSTEP_EVENT_NONE) 0
    (replicate ESTOP_CHANNELS 0) 0 0 0.

Definition slots : list nat := seq 0 PSTOP_MAX_MACHINES.
Definition channels : list nat := seq 0 ESTOP_CHANNELS.

(** Indexed reads of the statics. *)
Definition active (l : lockstep) (slot : nat) : bool := slot_active l !!! slot.
Definition session_at (l : lockstep) (slot : nat) : pstop_session := sessions l !!! slot.
Definition estop_at (l : lockstep) (c : nat) : estop_state_t := estop l !!! c.
Definition verdict_at (l : lockstep) (c : nat) : Z := sampler_verdict l !!! c.
Definition gen_at (l : lockstep) (c : nat) : Z := sampler_gen l !!! c.
Definition is_due (l : lockstep) (slot : nat) : bool := tick_due l !!! slot.
(** A slot whose frame this tick builds, compares and sends. *)
Definition due_slot (l : lockstep) (slot : nat) : bool := active l slot && is_due l slot.
Definition frame (l : lockstep) (c slot : nat) : list Z := (frames l !!! c) !!! slot.

Section Lockstep.
Context `{!PstopLib} `{Gpio} `{!Sockets}.

Definition slot_apply_config (cfg : app_settings) (slot : nat) (l : lockstep) (w : net)
  : bool * lockstep * net :=
  let '(s, w) := if active l slot then pstop_session_close (session_at l slot) w
                 else (session_at l slot, w) in
  let l := l <| sessions ::= <[slot := s <| s_sock := -1 |>]> |>
             <| slot_active ::= <[slot := false]> |> in
  match app_settings_peer_get cfg (Z.of_nat slot) with
  | (0, Some peer) =>
      if negb (configured peer) then (false, l, w)
      else
        let '(ret, s, w) :=
          pstop_session_open (session_at l slot) (Z.of_nat slot) (Some peer) w in
        let l := l <| sessions ::= <[slot := s]> |> in
        if negb (ret =? 0) then (false, l, w)
        else (true, l <| slot_active ::= <[slot := true]> |>, w)
  | _ => (false, l, w)
  end.

Definition init_slot (cfg : app_settings) (lw : lockstep * net) (slot : nat)
  : lockstep * net :=
  let '(l, w) := lw in
  let '(_, l, w) := slot_apply_config cfg slot (l <| slot_active ::= <[slot := false]> |>) w in
  (l, w).
Definition pstop_lockstep_init (cfg : app_settings) (l : lockstep) (w : net)
  : lockstep * net :=
  let l := l <| estop := replicate ESTOP_CHANNELS estop_state_init |> in
  foldl (init_slot cfg) (l, w) slots.

(** One slot of the sampler's build loop. *)
Definition build_slot (me verdict : Z) (channel : nat) (l : lockstep) (slot : nat)
  : lockstep :=
  if due_slot l slot
  then l <| frames ::= alter (<[slot :=
              pstop_session_build (session_at l slot) me verdict (tick_role l)
                (tick_now_ms l)]>) channel |>
  else l.

(** [cfg] is the settings as this channel's pass sees them. *)
Definition sampler_pass (poles : sim_poles) (cfg : app_settings) (channel : nat) (gen : Z)
           (l : lockstep) (w : net) : lockstep * net :=
  let '(r, w) := on_machine (fun o =>
    let '(v, e, o) := estop_channel_sample poles channel (estop_at l channel) o in
    ((v, e), o)) w in
  let '(verdict, e) := r in
  let l := l <| estop ::= <[channel := e]> |>
             <| sampler_verdict ::= <[channel := verdict]> |> in
  let l := foldl (build_slot (app_settings_effective_device_id cfg) verdict channel) l slots in
  let '(t, w) := on_machine k_uptime_get w in
  (l <| sampler_done_ms ::= <[channel := u32 t]> |>
     <| sampler_gen ::= <[channel := gen]> |>, w).

Definition samplers_published (gen : Z) (l : lockstep) : bool :=
  forallb (fun c => (gen_at l c) =? gen) channels.

Definition record_mismatch (slot : nat) (l : lockstep) (w : net) : lockstep * net :=
  let offset := first_diff (frame l 0 slot) (frame l 1 slot) in
  let '(t, w) := on_machine k_uptime_get w in
  (l <| diag ::= fun d =>
     d <| mismatch_slot := u8 (Z.of_nat slot) |> <| mismatch_offset := offset |>
       <| mismatch_verdict := (verdict_at l 0, verdict_at l 1) |>
       <| mismatch_uptime_ms := u64 t |>
       <| last_kind := PSTOP_LOCKSTEP_EVENT_CONTENT |> |>, w).

Definition record_late (mask late_by : Z) (l : lockstep) (w : net) : lockstep * net :=
  let '(t, w) := on_machine k_uptime_get w in
  (l <| diag ::= fun d =>
     d <| late_mask := mask |> <| late_by_ms := late_by |> <| late_uptime_ms := u64 t |>
       <| last_kind := PSTOP_LOCKSTEP_EVENT_TIMEOUT |> |>, w).

Definition record_latency (channel : nat) (latency : Z) (l : lockstep) : lockstep :=
  l <| diag ::= fun d =>
    if (latency_max_ms d !!! channel) <? latency
    then d <| latency_max_ms ::= <[channel := latency]> |> else d |>.

Definition primed (l : lockstep) : bool :=
  estop_channels_primed (estop_at l 0) (estop_at l 1).

(** The comparing loop of [comparator_pass]: the first due slot whose pair of
    frames differs. *)
Definition differing_slot (l : lockstep) : option nat :=
  List.find (fun slot => due_slot l slot && bool_decide (frame l 0 slot <> frame l 1 slot))
            slots.

(** Its transmitting loop. *)
Definition commit_slot (lw : lockstep * net) (slot : nat) : lockstep * net :=
  let '(l, w) := lw in
  if due_slot l slot then
    let '(_, s, w) := pstop_session_commit_send (session_at l slot) (frame l 0 slot)
                        (tick_now_ms l) w in
    (l <| sessions ::= <[slot := s]> |>, w)
  else (l, w).

Definition comparator_pass (l : lockstep) (w : net) : lockstep * net :=
  if negb (primed l) then (l <| gated_ticks ::= fun n => u32 (n + 1) |>, w)
  else
    match differing_slot l with
    | Some slot =>
        let '(l, w) := record_mismatch slot l w in
        (l <| mismatches ::= fun n => u32 (n + 1) |>, w)
    | None => foldl commit_slot (l, w) slots
    end.

Definition reconfigure_slot (cfg : app_settings) (mask : Z) (lw : lockstep * net) (slot : nat)
  : lockstep * net :=
  let '(l, w) := lw in
  if has_bit mask slot
  then let '(_, l, w) := slot_apply_config cfg slot l w in (l, w) else (l, w).
Definition rebond_slot (mask : Z) (l : lockstep) (slot : nat) : lockstep :=
  if active l slot && has_bit mask slot
  then l <| sessions ::= alter pstop_session_rebond slot |> else l.

Definition begin_tick (cfg : app_settings) (now_ms : Z) (l : lockstep) (w : net)
  : Z * lockstep * net :=
  let reconfigure := reconfigure_requests l in
  let rebond := rebond_requests l in
  let l := l <| reconfigure_requests := 0 |> <| rebond_requests := 0 |> in
  let '(l, w) := foldl (reconfigure_slot cfg reconfigure) (l, w) slots in
  let l := foldl (rebond_slot rebond) l slots in
  let l := l <| tick_now_ms := now_ms |>
             <| tick_role := if is_operator cfg then PSTOP_AUX_ROLE_OPERATOR
                             else PSTOP_AUX_ROLE_STOP_ONLY |> in
  let l := l <| tick_due := map (fun slot =>
             active l slot &&
             pstop_session_due (session_at l slot) now_ms) slots |> in
  let gen := u32 (tick_gen l + 1) in
  (gen, l <| tick_gen := gen |>, w).

Definition service_slot (now_ms : Z) (lw : lockstep * net) (slot : nat) : lockstep * net :=
  let '(l, w) := lw in
  if active l slot then
    let '(s, w) := pstop_session_poll (session_at l slot) now_ms w in
    let s := pstop_session_watchdog s now_ms in
    (l <| sessions ::= <[slot := s]> |>, w)
  else (l, w).

(** The samplers late for a tick: those the waits timed out on, and those
    whose last pass was for another generation. *)
Definition late_samplers (gen mask : Z) (l : lockstep) : Z :=
  foldl (fun m c => if negb ((gen_at l c) =? gen) then Z.lor m (BIT c) else m)
        mask channels.

(** The first result is the call of the tick observer, if any: the tick and
    the two verdicts. *)
Definition run_tick_body (now_ms gen mask late_by : Z) (l : lockstep) (w : net)
  : option (Z * Z * Z) * lockstep * net :=
  let mask := late_samplers gen mask l in
  let '(ev, l, w) :=
    if (mask =? 0) && samplers_published gen l then
      let '(l, w) := comparator_pass l w in
      (if primed l
       then Some (gen, verdict_at l 0, verdict_at l 1) else None,
       l, w)
    else
      let l := l <| missed_deadlines ::= fun n => u32 (n + 1) |> in
      let '(l, w) := record_late mask late_by l w in (None, l, w) in
  let '(l, w) := foldl (service_slot now_ms) (l, w) slots in
  (ev, l, w).

(** [cfgs c] is the settings as channel [c]'s pass sees them: they may change
    between the two. *)
Definition tick_sync (poles : sim_poles) (cfg : app_settings) (cfgs : nat -> app_settings)
           (now_ms mask : Z) (l : lockstep) (w : net)
  : option (Z * Z * Z) * lockstep * net :=
  let '(gen, l, w) := begin_tick cfg now_ms l w in
  let '(l, w) := foldl (fun lw c => sampler_pass poles (cfgs c) c gen (fst lw) (snd lw))
                       (l, w) channels in
  run_tick_body now_ms gen mask 0 l w.

Definition pstop_lockstep_tick (poles : sim_poles) (cfg : app_settings)
           (cfgs : nat -> app_settings) (now_ms : Z) (l : lockstep) (w : net) :=
  tick_sync poles cfg cfgs now_ms 0 l w.

(** ** Requests and queries from other threads *)
Definition request_reconfigure (slot : Z) (l : lockstep) : Z * lockstep :=
  if (slot <? 0) || (Z.of_nat PSTOP_MAX_MACHINES <=? slot) then (- EINVAL, l)
  else (0, l <| reconfigure_requests ::= fun m => Z.lor m (BIT (Z.to_nat slot)) |>).
Definition request_rebond (slot : Z) (l : lockstep) : Z * lockstep :=
  if (slot <? 0) || (Z.of_nat PSTOP_MAX_MACHINES <=? slot) then (- EINVAL, l)
  else (0, l <| rebond_requests ::= fun m => Z.lor m (BIT (Z.to_nat slot)) |>).
Definition lockstep_slot_active (slot : Z) (l : lockstep) : bool :=
  (0 <=? slot) && (slot <? Z.of_nat PSTOP_MAX_MACHINES) && active l (Z.to_nat slot).
Definition loop_health (channel : Z) (l : lockstep) : bool * bool :=
  if (channel <? 0) || (Z.of_nat ESTOP_CHANNELS <=? channel) then (false, false)
  else (high_ok (estop_at l (Z.to_nat channel)), low_ok (estop_at l (Z.to_nat channel))).
Definition last_verdict (channel : Z) (l : lockstep) : Z :=
  if (channel <? 0) || (Z.of_nat ESTOP_CHANNELS <=? channel) then PSTOP_MESSAGE_STOP
  else verdict_at l (Z.to_nat channel).
End Lockstep.
#[global] Arguments sampler_pass {_ _ _} _ _ _ _ _ _ : simpl never.
#[global] Arguments begin_tick {_ _ _} _ _ _ _ : simpl never.
#[global] Arguments comparator_pass {_ _} _ _ : simpl never.
#[global] Arguments run_tick_body {_ _ _} _ _ _ _ _ _ : simpl never.

(** * Specification *)

(** The table sizes of the statics. *)
Record lockstep_wf (l : lockstep) : Prop := {
  wf_sessions : length (sessions l) = PSTOP_MAX_MACHINES;
  wf_active : length (slot_active l) = PSTOP_MAX_MACHINES;
  wf_estop : length (estop l) = ESTOP_CHANNELS;
  wf_frames : length (frames l) = ESTOP_CHANNELS;
  wf_frame_rows : Forall (fun row => length row = PSTOP_MAX_MACHINES) (frames l);
  wf_verdicts : length (sampler_verdict l) = ESTOP_CHANNELS;
  wf_gens : length (sampler_gen l) = ESTOP_CHANNELS;
}.

(** What a cleared tick transmits: the frame of every due slot, to its peer. *)
Definition transmission (l : lockstep) (slot : nat) : datagram :=
  (s_sock (session_at l slot), frame l 0 slot, s_peer_addr (session_at l slot)).
Definition transmissions (l : lockstep) : list datagram :=
  map (transmission l) (filter (fun slot => due_slot l slot = true) slots).

(** The four ways a tick can end. *)
Inductive tick_outcome := Missed | Gated | Mismatch (slot : nat) | Cleared.
Definition outcome (gen mask : Z) (l : lockstep) : tick_outcome :=
  if negb (late_samplers gen mask l =? 0) then Missed
  else if negb (primed l) then Gated
  else match differing_slot l with Some slot => Mismatch slot | None => Cleared end.

(** The three counters a fault bumps. *)
Definition counters (l : lockstep) : Z * Z * Z := (missed_deadlines l, gated_ticks l, mismatches l).
Definition bump (o : tick_outcome) (c : Z * Z * Z) : Z * Z * Z :=
  let '(m, g, x) := c in
  match o with
  | Missed => (u32 (m + 1), g, x)
  | Gated => (m, u32 (g + 1), x)
  | Mismatch _ => (m, g, u32 (x + 1))
  | Cleared => (m, g, x)
  end.

Section Spec.
Context `{!PstopLib} `{Gpio} `{!Sockets}.

(** The reads each channel takes this tick, as the tick takes them. *)
Definition tick_reads (poles : sim_poles) (cfg : app_settings) (cfgs : nat -> app_settings)
           (now_ms : Z) (l : lockstep) (w : net) : (Z * Z) * (Z * Z) :=
  let '(gen, l, w) := begin_tick cfg now_ms l w in
  let r0 := fst (estop_read_phases poles 0 (machine w)) in
  let '(l, w) := sampler_pass poles (cfgs 0%nat) 0 gen l w in
  (r0, fst (estop_read_phases poles 1 (machine w))).

(** Successive ticks: their clock readings and the settings they saw. *)
Record tick_input := mk_tick_input {
  ti_now : Z; ti_cfg : app_settings; ti_cfgs : nat -> app_settings; ti_late : Z;
}.
Definition tick_of (poles : sim_poles) (i : tick_input) (lw : lockstep * net)
  : lockstep * net :=
  let '(_, l, w) := tick_sync poles (ti_cfg i) (ti_cfgs i) (ti_now i) (ti_late i)
                      (fst lw) (snd lw) in (l, w).
Fixpoint lockstep_run (poles : sim_poles) (is_ : list tick_input) (lw : lockstep * net)
  : list ((Z * Z) * (Z * Z)) * (lockstep * net) :=
  match is_ with
  | [] => ([], lw)
  | i :: is_ =>
      let r := tick_reads poles (ti_cfg i) (ti_cfgs i) (ti_now i) (fst lw) (snd lw) in
      let '(rs, lw) := lockstep_run poles is_ (tick_of poles i lw) in
      (r :: rs, lw)
  end.
End Spec.

(** * Lemmas *)
(** The datagrams sent between two machine states. *)
Definition new_sends `{Os} (w w' : net) : list datagram :=
  drop (length (sent_log w)) (sent_log w').

Lemma slots_elem i : (i < PSTOP_MAX_MACHINES)%nat -> i ∈ slots.
Proof. intros Hi. apply list_elem_of_In, in_seq. lia. Qed.

Section FoldLemmas.
Context `{!PstopLib} `{!Os} `{!Sockets}.

Lemma session_at_insert l slot slot' s :
  slot <> slot' -> session_at (l <| sessions ::= <[slot := s]> |>) slot' = session_at l slot'.
Proof. intros Hne. unfold session_at. cbn. by rewrite list_lookup_total_insert_ne. Qed.

(** A fold over distinct slots whose body touches only its own slot's session. *)
Lemma commit_fold ss l w l' w' :
  NoDup ss -> foldl commit_slot (l, w) ss = (l', w') ->
  l' = l <| sessions := sessions l' |> /\
  length (sessions l') = length (sessions l) /\
  (forall slot, slot ∉ ss -> session_at l' slot = session_at l slot) /\
  sent_log w' = sent_log w ++ map (transmission l) (filter (fun s => due_slot l s = true) ss).
Proof.
  intros Hnd. revert l w. induction Hnd as [|slot ss Hin _ IH]; intros l w E.
  { cbn in E. simplify_eq. destruct l'. cbn. by rewrite app_nil_r. }
  cbn [foldl commit_slot] in E. rewrite filter_cons.
  destruct (due_slot l slot) eqn:Hd.
  - pose proof (commit_send_spec (session_at l slot) (frame l 0 slot) (tick_now_ms l) w) as Hc.
    destruct (pstop_session_commit_send _ _ _ _) as [[ret s] w1].
    destruct Hc as [Hlog _]. apply IH in E as (El & Hlen & Hs & Hsent).
    split; [by rewrite El|]. split; [by rewrite Hlen; cbn; rewrite length_insert|]. split.
    + intros slot' Hn. apply not_elem_of_cons in Hn as [Hne Hn].
      rewrite Hs by done. by apply session_at_insert.
    + rewrite Hsent, Hlog, <- app_assoc. destruct (decide _) as [|Hf]; [|done]. cbn. do 2 f_equal.
      apply map_ext_in. intros slot' Hin'. apply list_elem_of_In, list_elem_of_filter in Hin' as [_ Hin'].
      pose proof (session_at_insert l slot slot' s) as Es. unfold transmission, frame.
      cbn in Es |- *. by rewrite Es by (by intros ->).
  - apply IH in E as (El & Hlen & Hs & Hsent). split; [done|]. split; [done|]. split.
    + intros slot' Hn. apply not_elem_of_cons in Hn as [_ Hn]. by apply Hs.
    + rewrite Hsent. destruct (decide _); [congruence|done].
Qed.

Lemma service_fold now ss l w l' w' :
  foldl (service_slot now) (l, w) ss = (l', w') ->
  l' = l <| sessions := sessions l' |> /\
  length (sessions l') = length (sessions l) /\ sent_log w' = sent_log w.
Proof.
  revert l w. induction ss as [|slot ss IH]; intros l w E; cbn [foldl service_slot] in E.
  { simplify_eq. by destruct l'. }
  destruct (active l slot); [|by apply IH].
  pose proof (poll_receives (session_at l slot) now w) as [Hlog _].
  destruct (pstop_session_poll _ _ _) as [s w1]. cbn in Hlog.
  apply IH in E as (El & Hlen & Hsent).
  split; [by rewrite El|]. rewrite Hlen, Hsent. cbn. by rewrite length_insert.
Qed.
End FoldLemmas.

Section CompareLemmas.
Context `{!PstopLib} `{!Os} `{!Sockets}.

Lemma differing_slot_None l :
  differing_slot l = None <->
  forall slot, (slot < PSTOP_MAX_MACHINES)%nat -> due_slot l slot = true ->
    frame l 0 slot = frame l 1 slot.
Proof.
  unfold differing_slot. split.
  - intros Hf slot Hs Hd. assert (In slot slots) as Hin by (apply in_seq; lia).
    pose proof (List.find_none _ _ Hf slot Hin) as Hb. cbn in Hb. rewrite Hd in Hb. cbn in Hb.
    apply bool_decide_eq_false in Hb. destruct (decide (frame l 0 slot = frame l 1 slot)); tauto.
  - intros Heq. destruct (List.find _ _) as [slot|] eqn:E; [|done].
    apply List.find_some in E as [Hin Hb]. apply in_seq in Hin.
    apply andb_true_iff in Hb as [Hd Hb]. apply bool_decide_eq_true in Hb.
    exfalso. apply Hb, Heq; [lia|done].
Qed.

Lemma differing_slot_Some l slot :
  differing_slot l = Some slot ->
  (slot < PSTOP_MAX_MACHINES)%nat /\ due_slot l slot = true /\ frame l 0 slot <> frame l 1 slot.
Proof.
  intros E. apply List.find_some in E as [Hin Hb]. to_prop. apply in_seq in Hin.
  split; [lia|done].
Qed.

Lemma late_samplers_zero gen mask l :
  late_samplers gen mask l = 0 <-> mask = 0 /\ gen_at l 0 = gen /\ gen_at l 1 = gen.
Proof.
  unfold late_samplers, channels. cbn [foldl seq ESTOP_CHANNELS].
  destruct (Z.eqb_spec (gen_at l 0) gen), (Z.eqb_spec (gen_at l 1) gen); cbn [negb];
    rewrite ?Z.lor_eq_0_iff; unfold BIT; cbn; intuition (done || lia).
Qed.

Lemma published_iff gen l :
  samplers_published gen l = true <-> gen_at l 0 = gen /\ gen_at l 1 = gen.
Proof.
  unfold samplers_published, channels. cbn [forallb seq ESTOP_CHANNELS].
  rewrite !andb_true_iff, !Z.eqb_eq. tauto.
Qed.

(** The whole comparison step. *)
Lemma comparator_pass_spec l w l' w' :
  comparator_pass l w = (l', w') ->
  if negb (primed l) then
    l' = l <| gated_ticks ::= fun n => u32 (n + 1) |> /\ sent_log w' = sent_log w
  else match differing_slot l with
  | Some slot =>
      l' = l <| diag := diag l' |> <| mismatches ::= fun n => u32 (n + 1) |> /\
      mismatch_slot (diag l') = u8 (Z.of_nat slot) /\
      mismatch_offset (diag l') = first_diff (frame l 0 slot) (frame l 1 slot) /\
      mismatch_verdict (diag l') = (verdict_at l 0, verdict_at l 1) /\
      last_kind (diag l') = PSTOP_LOCKSTEP_EVENT_CONTENT /\
      sent_log w' = sent_log w
  | None =>
      l' = l <| sessions := sessions l' |> /\ sent_log w' = sent_log w ++ transmissions l /\
      length (sessions l') = length (sessions l)
  end.
Proof.
  unfold comparator_pass. destruct (primed l); cbn [negb]; [|intros; by simplify_eq].
  destruct (differing_slot l) as [slot|].
  - unfold record_mismatch, on_machine. destruct (k_uptime_get (machine w)) as [t o].
    intros. by simplify_eq.
  - intros E. apply commit_fold in E as (El & Hlen & _ & Hs); [done|apply NoDup_seq].
Qed.
End CompareLemmas.

Section SamplerLemmas.
Context `{!PstopLib} `{Gpio} `{!Sockets}.

(** What one sampler writes for a slot. *)
Definition encoding (l : lockstep) (me verdict : Z) (slot : nat) : list Z :=
  pstop_session_build (session_at l slot) me verdict (tick_role l) (tick_now_ms l).

Lemma frames_row_length l c : lockstep_wf l -> (c < ESTOP_CHANNELS)%nat ->
  length (frames l !!! c) = PSTOP_MAX_MACHINES.
Proof.
  intros Hwf Hc. rewrite <- (wf_frames _ Hwf) in Hc.
  apply list_lookup_lookup_total_lt in Hc.
  by apply (Forall_lookup_1 _ _ _ _ (wf_frame_rows _ Hwf)) in Hc.
Qed.

Lemma lockstep_wf_frames l fs : lockstep_wf l ->
  length fs = length (frames l) -> Forall (fun row => length row = PSTOP_MAX_MACHINES) fs ->
  lockstep_wf (l <| frames := fs |>).
Proof. intros [] Hl Hr. split; cbn; try done. by rewrite Hl. Qed.

Lemma frame_alter l c slot slot' b : lockstep_wf l -> (c < ESTOP_CHANNELS)%nat ->
  (slot' < PSTOP_MAX_MACHINES)%nat ->
  frame (l <| frames ::= alter (<[slot := b]>) c |>) c slot' =
  if decide (slot = slot') then b else frame l c slot'.
Proof.
  intros Hwf Hc Hs. unfold frame. cbn.
  rewrite list_lookup_total_alter, decide_True by (by rewrite (wf_frames _ Hwf)).
  rewrite list_lookup_total_insert, frames_row_length by done.
  destruct (decide (slot = slot')) as [->|Hne].
  - by rewrite decide_True.
  - rewrite decide_False; [done|]. by intros [? _].
Qed.

Lemma build_fold me v c ss l :
  lockstep_wf l -> (c < ESTOP_CHANNELS)%nat -> Forall (fun s => (s < PSTOP_MAX_MACHINES)%nat) ss ->
  let l' := foldl (build_slot me v c) l ss in
  l' = l <| frames := frames l' |> /\ lockstep_wf l' /\
  (forall slot, (slot < PSTOP_MAX_MACHINES)%nat ->
     frame l' c slot = if bool_decide (slot ∈ ss) && due_slot l slot
                       then encoding l me v slot else frame l c slot) /\
  (forall c', c' <> c -> frames l' !! c' = frames l !! c').
Proof.
  intros Hwf Hc Hss. revert l Hwf. induction Hss as [|slot ss Hslot _ IH]; intros l Hwf.
  { cbn. split; [by destruct l|]. split; [done|]. split; [|done].
    intros. by rewrite bool_decide_eq_false_2 by apply not_elem_of_nil. }
  cbn [foldl].
  assert (build_slot me v c l slot =
          if due_slot l slot then l <| frames ::= alter (<[slot := encoding l me v slot]>) c |>
          else l) as -> by done.
  destruct (due_slot l slot) eqn:Hd.
  - set (b := encoding l me v slot).
    set (l1 := l <| frames ::= alter (<[slot := b]>) c |>).
    assert (lockstep_wf l1) as Hwf1.
    { apply lockstep_wf_frames; [done|apply length_alter|].
      apply Forall_alter; [apply Hwf|]. intros row Hrow. cbn. rewrite length_insert.
      intros ?. done. }
    destruct (IH l1 Hwf1) as (El & Hwf' & Hf & Ho).
    split; [by rewrite El|]. split; [done|]. split.
    + intros slot' Hs'. rewrite Hf by done. unfold l1 at 3. rewrite frame_alter by done.
      change (due_slot l1 slot') with (due_slot l slot').
      change (encoding l1 me v slot') with (encoding l me v slot').
      case_decide as E; [subst slot'|].
      * rewrite Hd, (bool_decide_eq_true_2 (slot ∈ slot :: ss)) by left.
        cbn [andb]. change (encoding l me v slot) with b. by destruct (_ && _).
      * rewrite (bool_decide_ext (slot' ∈ slot :: ss) (slot' ∈ ss)); [done|].
        rewrite elem_of_cons. split; [intros [->|]; done|auto].
    + intros c' Hne. rewrite Ho by done. cbn. by rewrite list_lookup_alter_ne.
  - destruct (IH l Hwf) as (El & Hwf' & Hf & Ho).
    split; [done|]. split; [done|]. split; [|done].
    intros slot' Hs'. rewrite Hf by done.
    destruct (decide (slot' = slot)) as [->|Hne]; [by rewrite Hd, !andb_false_r|].
    rewrite (bool_decide_ext (slot' ∈ slot :: ss) (slot' ∈ ss)); [done|].
    rewrite elem_of_cons. split; [intros [->|]; done|auto].
Qed.
End SamplerLemmas.

Section TickLemmas.
Context `{!PstopLib} `{Gpio} `{!Sockets}.

Lemma due_slot_ext l l' slot :
  slot_active l' = slot_active l -> tick_due l' = tick_due l -> due_slot l' slot = due_slot l slot.
Proof. intros E1 E2. unfold due_slot, active, is_due. by rewrite E1, E2. Qed.

(** A sampler pass, field by field. *)
Lemma sampler_pass_spec poles cfg c gen l w l' w' :
  lockstep_wf l -> (c < ESTOP_CHANNELS)%nat ->
  sampler_pass poles cfg c gen l w = (l', w') ->
  let r := fst (estop_read_phases poles c (machine w)) in
  let '(v, e) := estop_decide (estop_at l c) (Z.of_nat c) (fst r) (snd r) in
  l' = l <| estop ::= <[c := e]> |> <| sampler_verdict ::= <[c := v]> |>
         <| frames := frames l' |> <| sampler_done_ms := sampler_done_ms l' |>
         <| sampler_gen ::= <[c := gen]> |> /\
  lockstep_wf l' /\ sent_log w' = sent_log w /\
  (forall slot, (slot < PSTOP_MAX_MACHINES)%nat ->
     frame l' c slot = if due_slot l slot
                       then encoding l (app_settings_effective_device_id cfg) v slot
                       else frame l c slot) /\
  (forall c', c' <> c -> frames l' !! c' = frames l !! c').
Proof.
  intros Hwf Hc E. unfold sampler_pass, on_machine, estop_channel_sample in E.
  destruct (estop_read_phases poles c (machine w)) as [[hi lo] o]. cbn [fst snd].
  cbv beta iota zeta in E.
  destruct (estop_decide (estop_at l c) (Z.of_nat c) hi lo) as [v e].
  cbv beta iota zeta in E.
  set (l1 := l <| estop ::= <[c := e]> |> <| sampler_verdict ::= <[c := v]> |>) in *.
  assert (lockstep_wf l1) as Hwf1.
  { destruct Hwf. split; cbn; rewrite ?length_insert; done. }
  destruct (build_fold (app_settings_effective_device_id cfg) v c slots l1 Hwf1 Hc)
    as (El & Hwf2 & Hf & Ho).
  { apply Forall_forall. intros s Hs. apply list_elem_of_In, in_seq in Hs. lia. }
  set (l2 := foldl _ l1 slots) in *. clearbody l2.
  destruct (k_uptime_get _) as [t o']. cbv beta iota zeta in E. injection E as <- <-. cbn.
  split; [by rewrite El|]. split; [destruct Hwf2; split; cbn; rewrite ?length_insert; done|].
  split; [done|]. split; [|exact Ho].
  intros slot Hs. specialize (Hf slot Hs).
  rewrite bool_decide_eq_true_2 in Hf by (apply list_elem_of_In, in_seq; lia).
  exact Hf.
Qed.

Lemma open_sends_nothing s slot p w :
  sent_log (snd (pstop_session_open s slot p w)) = sent_log w.
Proof.
  unfold pstop_session_open, on_machine.
  destruct p as [p|]; [|done]. bool_case; [done|].
  destruct (zsock_socket _) as [sock o]. cbn. bool_case; [done|].
  destruct (zsock_bind _ _ _) as [ret o']. cbn. by bool_case.
Qed.

Lemma close_sends_nothing s w : sent_log (snd (pstop_session_close s w)) = sent_log w.
Proof. unfold pstop_session_close. by bool_case. Qed.

Lemma slot_apply_config_spec cfg slot l w b l' w' :
  slot_apply_config cfg slot l w = (b, l', w') ->
  l' = l <| sessions := sessions l' |> <| slot_active := slot_active l' |> /\
  length (sessions l') = length (sessions l) /\
  length (slot_active l') = length (slot_active l) /\
  (forall i, i <> slot -> sessions l' !! i = sessions l !! i /\
                          slot_active l' !! i = slot_active l !! i) /\
  sent_log w' = sent_log w.
Proof.
  unfold slot_apply_config. intros E.
  destruct (if active l slot then _ else _) as [s w1] eqn:E1.
  assert (sent_log w1 = sent_log w) as Hw1.
  { pose proof (close_sends_nothing (session_at l slot) w) as Hc.
    destruct (active l slot); [by rewrite E1 in Hc|by simplify_eq]. }
  set (l1 := l <| sessions ::= _ |> <| slot_active ::= _ |>) in E.
  assert (l1 = l <| sessions := sessions l1 |> <| slot_active := slot_active l1 |> /\
    length (sessions l1) = length (sessions l) /\
    length (slot_active l1) = length (slot_active l) /\
    (forall i, i <> slot -> sessions l1 !! i = sessions l !! i /\
                            slot_active l1 !! i = slot_active l !! i)) as (El & Hl1 & Hl2 & Hi).
  { unfold l1. cbn. rewrite !length_insert. repeat split; by rewrite list_lookup_insert_ne. }
  clearbody l1.
  destruct (app_settings_peer_get cfg (Z.of_nat slot)) as [[| |] [p|]]; try by simplify_eq.
  destruct (negb (configured p)); [by simplify_eq|].
  pose proof (open_sends_nothing (session_at l1 slot) (Z.of_nat slot) (Some p) w1) as Ho.
  destruct (pstop_session_open _ _ _ _) as [[ret s2] w2]. cbn in Ho.
  destruct (negb (ret =? 0)); simplify_eq; cbn; rewrite ?length_insert, El; cbn;
    (repeat split; try done; try congruence);
    rewrite ?list_lookup_insert_ne by done; by apply Hi.
Qed.

(** [l'] is [l] up to its sessions and active flags, and those of the slots
    outside [ss] are [l]'s. *)
Record slots_changed (ss : nat -> Prop) (l l' : lockstep) : Prop := {
  sc_eq : l' = l <| sessions := sessions l' |> <| slot_active := slot_active l' |>;
  sc_sessions : length (sessions l') = length (sessions l);
  sc_active : length (slot_active l') = length (slot_active l);
  sc_other : forall i, ~ ss i -> sessions l' !! i = sessions l !! i /\
                                 slot_active l' !! i = slot_active l !! i;
}.
Lemma slots_changed_refl ss l : slots_changed ss l l.
Proof. split; try done. by destruct l. Qed.
Lemma slots_changed_trans ss l1 l2 l3 :
  slots_changed ss l1 l2 -> slots_changed ss l2 l3 -> slots_changed ss l1 l3.
Proof.
  intros [E1 S1 A1 O1] [E2 S2 A2 O2]. split.
  - rewrite E2, E1. done.
  - congruence.
  - congruence.
  - intros i Hi. destruct (O1 i Hi) as [<- <-]. by apply O2.
Qed.
Lemma slots_changed_wf ss l l' : slots_changed ss l l' -> lockstep_wf l -> lockstep_wf l'.
Proof. intros [E S A _] []. rewrite E. split; cbn; congruence. Qed.

Lemma reconfigure_fold cfg mask ss l w l' w' :
  foldl (reconfigure_slot cfg mask) (l, w) ss = (l', w') ->
  slots_changed (fun i => has_bit mask i = true) l l' /\ sent_log w' = sent_log w.
Proof.
  revert l w. induction ss as [|slot ss IH]; intros l w E; cbn [foldl] in E.
  { simplify_eq. split; [apply slots_changed_refl|done]. }
  unfold reconfigure_slot at 2 in E.
  destruct (has_bit mask slot) eqn:Hb; [|by apply IH].
  destruct (slot_apply_config cfg slot l w) as [[b l1] w1] eqn:E1.
  apply slot_apply_config_spec in E1 as (Ea & Es & Eact & Eo & Ew).
  apply IH in E as [Hc Hw]. split; [|congruence].
  refine (slots_changed_trans _ _ _ _ _ Hc). split; try done.
  intros i Hi. apply Eo. by intros ->.
Qed.

Lemma rebond_fold mask ss l : NoDup ss ->
  let l' := foldl (rebond_slot mask) l ss in
  slots_changed (fun i => has_bit mask i = true) l l' /\
  slot_active l' = slot_active l /\
  (forall i, sessions l' !! i =
     if bool_decide (i ∈ ss) && active l i && has_bit mask i
     then pstop_session_rebond <$> sessions l !! i else sessions l !! i).
Proof.
  intros Hnd. revert l. induction Hnd as [|slot ss Hin _ IH]; intros l; cbn [foldl].
  { split; [apply slots_changed_refl|]. split; [done|].
    intros i. by rewrite bool_decide_eq_false_2 by apply not_elem_of_nil. }
  destruct (IH (rebond_slot mask l slot)) as (Hc & Ha & Hs).
  assert (slot_active (rebond_slot mask l slot) = slot_active l) as Ha1
    by (unfold rebond_slot; by bool_case).
  split; [|split].
  - refine (slots_changed_trans _ _ _ _ _ Hc). unfold rebond_slot.
    destruct (active l slot && has_bit mask slot) eqn:Hb; [|apply slots_changed_refl].
    split; cbn; try done; [apply length_alter|].
    intros i Hi. split; [|done]. apply list_lookup_alter_ne. intros ->. to_prop. congruence.
  - by rewrite Ha.
  - intros i. rewrite Hs. unfold active. rewrite Ha1. fold (active l i).
    unfold rebond_slot.
    destruct (decide (i = slot)) as [->|Hne].
    + rewrite (bool_decide_eq_false_2 (slot ∈ ss)), (bool_decide_eq_true_2 (slot ∈ slot :: ss))
        by (done || left). cbn [andb].
      destruct (active l slot && has_bit mask slot); [|done].
      cbn. by rewrite list_lookup_alter_eq.
    + rewrite (bool_decide_ext (i ∈ slot :: ss) (i ∈ ss))
        by (rewrite elem_of_cons; split; [intros [->|]; done|auto]).
      destruct (active l slot && has_bit mask slot); [|done].
      cbn. by rewrite list_lookup_alter_ne.
Qed.

Lemma begin_tick_spec cfg now l w gen l' w' :
  begin_tick cfg now l w = (gen, l', w') ->
  gen = u32 (tick_gen l + 1) /\
  l' = l <| reconfigure_requests := 0 |> <| rebond_requests := 0 |>
         <| sessions := sessions l' |> <| slot_active := slot_active l' |>
         <| tick_now_ms := now |> <| tick_due := tick_due l' |>
         <| tick_role := if is_operator cfg then PSTOP_AUX_ROLE_OPERATOR
                         else PSTOP_AUX_ROLE_STOP_ONLY |>
         <| tick_gen := gen |> /\
  (lockstep_wf l -> lockstep_wf l') /\ sent_log w' = sent_log w /\
  (forall i, (i < PSTOP_MAX_MACHINES)%nat ->
     is_due l' i = active l' i && pstop_session_due (session_at l' i) now) /\
  (forall i, has_bit (reconfigure_requests l) i = false ->
     slot_active l' !! i = slot_active l !! i /\
     sessions l' !! i =
       if bool_decide (i ∈ slots) && active l i && has_bit (rebond_requests l) i
       then pstop_session_rebond <$> sessions l !! i else sessions l !! i).
Proof.
  unfold begin_tick. intros E.
  set (l0 := l <| reconfigure_requests := 0 |> <| rebond_requests := 0 |>) in E.
  destruct (foldl (reconfigure_slot _ _) _ _) as [l1 w1] eqn:E1.
  apply reconfigure_fold in E1 as [Hc1 Hw1].
  destruct (rebond_fold (rebond_requests l) slots l1 (NoDup_seq _ _)) as (Hc2 & Ha2 & Hs2).
  set (l2 := foldl (rebond_slot _) l1 slots) in *. clearbody l2.
  injection E as Eg El <-. cbn in Eg, El.
  destruct Hc1 as [Eq1 L1 A1 O1], Hc2 as [Eq2 L2 A2 _].
  assert (l2 = l0 <| sessions := sessions l2 |> <| slot_active := slot_active l2 |>) as Eq
    by (rewrite Eq2, Eq1; done).
  rewrite <- El, <- Eg. cbn. rewrite Eq. cbn.
  split; [done|]. split; [done|]. split.
  { intros []. unfold l0 in *. cbn in L1, A1. split; cbn; congruence. }
  split; [done|]. split.
  - intros i Hi. unfold is_due, active, session_at. cbn.
    do 4 (destruct i as [|i]; [done|]). unfold PSTOP_MAX_MACHINES in Hi. lia.
  - intros i Hi. unfold l0 in O1. cbn in O1.
    destruct (O1 i) as [Hsi Hai]; [by rewrite Hi|].
    rewrite Ha2. split; [done|]. rewrite Hs2, Hsi. unfold active.
    by rewrite !list_lookup_total_alt, Hai.
Qed.
End TickLemmas.

Section SamplersLemmas.
Context `{!PstopLib} `{Gpio} `{!Sockets}.

(** Both samplers' passes, from the state [begin_tick] leaves. *)
Record sampled (l l' : lockstep) (me v : nat -> Z) (e : nat -> estop_state_t) (gen : Z)
  : Prop := {
  sm_sessions : sessions l' = sessions l;
  sm_active : slot_active l' = slot_active l;
  sm_due : tick_due l' = tick_due l;
  sm_gen : tick_gen l' = tick_gen l;
  sm_mismatches : mismatches l' = mismatches l;
  sm_missed : missed_deadlines l' = missed_deadlines l;
  sm_gated : gated_ticks l' = gated_ticks l;
  sm_wf : lockstep_wf l';
  sm_verdict : forall c, (c < ESTOP_CHANNELS)%nat -> verdict_at l' c = v c;
  sm_estop : forall c, (c < ESTOP_CHANNELS)%nat -> estop_at l' c = e c;
  sm_published : forall c, (c < ESTOP_CHANNELS)%nat -> gen_at l' c = gen;
  sm_frame : forall c slot, (c < ESTOP_CHANNELS)%nat -> (slot < PSTOP_MAX_MACHINES)%nat ->
    due_slot l' slot = true -> frame l' c slot = encoding l (me c) (v c) slot;
}.

Lemma two_channels (P : nat -> Prop) :
  P 0%nat -> P 1%nat -> forall c, (c < ESTOP_CHANNELS)%nat -> P c.
Proof. intros H0' H1' [|[|c]] Hc; [done|done|unfold ESTOP_CHANNELS in Hc; lia]. Qed.

Definition pick {A} (a b : A) (c : nat) : A := match c with O => a | _ => b end.

Lemma samplers_spec poles cfgs gen l w l' w' :
  lockstep_wf l ->
  foldl (fun lw c => sampler_pass poles (cfgs c) c gen (fst lw) (snd lw)) (l, w) channels
    = (l', w') ->
  let r0 := fst (estop_read_phases poles 0 (machine w)) in
  let r1 := fst (estop_read_phases poles 1
                   (machine (snd (sampler_pass poles (cfgs 0%nat) 0 gen l w)))) in
  let d0 := estop_decide (estop_at l 0) 0 (fst r0) (snd r0) in
  let d1 := estop_decide (estop_at l 1) 1 (fst r1) (snd r1) in
  sampled l l' (fun c => app_settings_effective_device_id (cfgs c))
    (pick (fst d0) (fst d1)) (pick (snd d0) (snd d1)) gen /\
  sent_log w' = sent_log w.
Proof.
  intros Hwf E r0 r1. unfold channels in E. cbn [foldl seq ESTOP_CHANNELS fst snd] in E.
  destruct (sampler_pass poles (cfgs 0%nat) 0 gen l w) as [l1 w1] eqn:E0. cbn [fst snd] in E, r1.
  apply (sampler_pass_spec poles (cfgs 0%nat) 0 gen) in E0; [|done|unfold ESTOP_CHANNELS; lia].
  cbv zeta in E0. change (Z.of_nat 0) with 0 in E0. fold r0 in E0.
  destruct (estop_decide (estop_at l 0) 0 (fst r0) (snd r0)) as [v0 e0].
  destruct E0 as (El1 & Hwf1 & Hl1 & Hf1 & Ho1).
  apply (sampler_pass_spec poles (cfgs 1%nat) 1 gen) in E; [|done|unfold ESTOP_CHANNELS; lia].
  cbv zeta in E. change (Z.of_nat 1) with 1 in E. fold r1 in E.
  assert (estop_at l1 1 = estop_at l 1) as Ee.
  { rewrite El1. unfold estop_at. cbn. by rewrite list_lookup_total_insert_ne. }
  rewrite Ee in E. cbn [fst snd].
  destruct (estop_decide (estop_at l 1) 1 (fst r1) (snd r1)) as [v1 e1]. cbn [fst snd].
  destruct E as (El2 & Hwf2 & Hl2 & Hf2 & Ho2).
  split; [|congruence].
  assert (forall s, due_slot l' s = due_slot l s) as Hdue
    by (intros; rewrite El2, El1; done).
  assert (forall s, due_slot l1 s = due_slot l s) as Hdue1 by (intros; rewrite El1; done).
  destruct Hwf as [_ _ He _ _ Hv Hg].
  split; try (rewrite El2, El1; done); try apply two_channels; try done.
  1-6: rewrite El2, El1; unfold verdict_at, estop_at, gen_at; cbn;
    rewrite ?list_lookup_total_insert_ne by done;
    rewrite list_lookup_total_insert, decide_True by
      (split; [done|]; rewrite ?length_insert, ?Hv, ?He, ?Hg; unfold ESTOP_CHANNELS; lia); done.
  intros c slot Hc Hs Hd. rewrite Hdue in Hd. revert c Hc. apply two_channels; cbn [pick].
  - assert (frame l' 0 slot = frame l1 0 slot) as ->.
    { unfold frame. rewrite !(list_lookup_total_alt _ 0%nat), (Ho2 0%nat); done. }
    rewrite Hf1 by done. by rewrite Hd.
  - rewrite Hf2 by done. rewrite Hdue1, Hd. unfold encoding. rewrite El1. done.
Qed.
End SamplersLemmas.

Section BodyLemmas.
Context `{!PstopLib} `{Gpio} `{!Sockets}.

Lemma run_tick_body_spec now gen mask late_by l w ev l' w' :
  run_tick_body now gen mask late_by l w = (ev, l', w') ->
  let o := outcome gen mask l in
  l' = l <| sessions := sessions l' |> <| diag := diag l' |>
         <| missed_deadlines := fst (fst (bump o (counters l))) |>
         <| gated_ticks := snd (fst (bump o (counters l))) |>
         <| mismatches := snd (bump o (counters l)) |> /\
  length (sessions l') = length (sessions l) /\
  sent_log w' = sent_log w ++ match o with Cleared => transmissions l | _ => [] end /\
  ev = match o with
       | Cleared | Mismatch _ => Some (gen, verdict_at l 0, verdict_at l 1)
       | _ => None
       end /\
  match o with
  | Mismatch slot =>
      mismatch_slot (diag l') = u8 (Z.of_nat slot) /\
      mismatch_offset (diag l') = first_diff (frame l 0 slot) (frame l 1 slot) /\
      mismatch_verdict (diag l') = (verdict_at l 0, verdict_at l 1) /\
      last_kind (diag l') = PSTOP_LOCKSTEP_EVENT_CONTENT
  | Missed => late_mask (diag l') = late_samplers gen mask l /\
              last_kind (diag l') = PSTOP_LOCKSTEP_EVENT_TIMEOUT
  | _ => diag l' = diag l
  end.
Proof.
  unfold run_tick_body. intros E. cbv zeta.
  assert ((late_samplers gen mask l =? 0) && samplers_published gen l =
          (late_samplers gen mask l =? 0)) as Hpub.
  { destruct (Z.eqb_spec (late_samplers gen mask l) 0) as [Hz|]; [|done].
    apply late_samplers_zero in Hz as (_ & Hg). by apply published_iff in Hg as ->. }
  rewrite Hpub in E. clear Hpub. unfold outcome.
  destruct (late_samplers gen mask l =? 0) eqn:Hl; cbn [negb].
  - destruct (comparator_pass l w) as [l1 w1] eqn:Ec. apply comparator_pass_spec in Ec.
    destruct (foldl _ _ _) as [l2 w2] eqn:Es. apply service_fold in Es as (El2 & Hlen & Hw2).
    destruct (primed l) eqn:Hp; cbn [negb] in *.
    + destruct (differing_slot l) as [slot|].
      * destruct Ec as (El1 & D1 & D2 & D3 & D4 & Hw1).
        assert (primed l1 = true) as Hp1 by (rewrite El1; done).
        rewrite Hp1 in E. simplify_eq. cbn [bump counters fst snd].
        split; [rewrite El2, El1; done|]. split; [rewrite Hlen, El1; done|].
        rewrite Hw2, Hw1, app_nil_r. split; [done|].
        split; [rewrite El1; done|]. rewrite El2. done.
      * destruct Ec as (El1 & Hw1 & Hlen1).
        assert (primed l1 = true) as Hp1 by (rewrite El1; done).
        rewrite Hp1 in E. simplify_eq. cbn [bump counters fst snd].
        split; [rewrite El2, El1; by destruct l|]. split; [congruence|].
        rewrite Hw2, Hw1. split; [done|]. split; [rewrite El1; done|].
        rewrite El2, El1; done.
    + destruct Ec as (El1 & Hw1).
      assert (primed l1 = false) as Hp1 by (rewrite El1; done).
      rewrite Hp1 in E. simplify_eq. cbn [bump counters fst snd].
      rewrite Hw2, Hw1, app_nil_r.
      split; [rewrite El2; done|]. split; [rewrite Hlen; done|].
      split; [done|]. split; [done|]. rewrite El2; done.
  - unfold record_late, on_machine in E.
    destruct (k_uptime_get (machine w)) as [t o]. cbv beta iota in E.
    destruct (foldl _ _ _) as [l2 w2] eqn:Es. apply service_fold in Es as (El2 & Hlen & Hw2).
    simplify_eq. cbn [bump counters fst snd]. rewrite Hw2, app_nil_r.
    split; [rewrite El2; done|]. split; [rewrite Hlen; done|].
    split; [done|]. split; [done|]. rewrite El2. done.
Qed.

Lemma outcome_cleared gen mask l :
  outcome gen mask l = Cleared ->
  mask = 0 /\ gen_at l 0 = gen /\ gen_at l 1 = gen /\ primed l = true /\
  forall slot, (slot < PSTOP_MAX_MACHINES)%nat -> due_slot l slot = true ->
    frame l 0 slot = frame l 1 slot.
Proof.
  unfold outcome. destruct (Z.eqb_spec (late_samplers gen mask l) 0) as [Hz|]; [|done].
  apply late_samplers_zero in Hz as (-> & Hg0 & Hg1). cbn [negb].
  destruct (primed l); [|done]. cbn [negb].
  destruct (differing_slot l) eqn:E; [done|]. intros _.
  by pose proof (proj1 (differing_slot_None l) E).
Qed.

Lemma transmissions_elem l d :
  d ∈ transmissions l <-> exists slot, (slot < PSTOP_MAX_MACHINES)%nat /\
    due_slot l slot = true /\ d = transmission l slot.
Proof.
  unfold transmissions. rewrite list_elem_of_fmap. split.
  - intros (slot & -> & Hin). apply list_elem_of_filter in Hin as [Hd Hin].
    apply list_elem_of_In, in_seq in Hin. exists slot. split; [lia|done].
  - intros (slot & Hs & Hd & ->). exists slot. split; [done|].
    apply list_elem_of_filter. split; [done|]. apply list_elem_of_In, in_seq. lia.
Qed.

Lemma run_tick_body_wf now gen mask late_by l w ev l' w' :
  run_tick_body now gen mask late_by l w = (ev, l', w') -> lockstep_wf l -> lockstep_wf l'.
Proof.
  intros E []. apply run_tick_body_spec in E as (El & Hlen & _).
  rewrite El. split; cbn; congruence.
Qed.
End BodyLemmas.

Section TickFacts.
Context `{!PstopLib} `{Gpio} `{!Sockets}.

(** A synchronous tick, through the states between its three parts: [l1] the
    snapshot, [l2] both channels published, and the comparison's outcome. *)
Record tick_facts (cfg : app_settings) (cfgs : nat -> app_settings) (now mask : Z)
  (r0 r1 : Z * Z) (l l1 l2 l' : lockstep) (new : list datagram) (ev : option (Z * Z * Z))
  (o : tick_outcome) : Prop := {
  tf_l1_wf : lockstep_wf l1;
  tf_now : tick_now_ms l1 = now;
  tf_role : tick_role l1 = if is_operator cfg then PSTOP_AUX_ROLE_OPERATOR
                           else PSTOP_AUX_ROLE_STOP_ONLY;
  tf_estop1 : estop l1 = estop l;
  tf_counters1 : counters l1 = counters l;
  tf_due : forall i, (i < PSTOP_MAX_MACHINES)%nat ->
    is_due l1 i = active l1 i && pstop_session_due (session_at l1 i) now;
  tf_sampled : sampled l1 l2 (fun c => app_settings_effective_device_id (cfgs c))
    (pick (fst (estop_decide (estop_at l 0) 0 (fst r0) (snd r0)))
          (fst (estop_decide (estop_at l 1) 1 (fst r1) (snd r1))))
    (pick (snd (estop_decide (estop_at l 0) 0 (fst r0) (snd r0)))
          (snd (estop_decide (estop_at l 1) 1 (fst r1) (snd r1))))
    (u32 (tick_gen l + 1));
  tf_outcome : o = outcome (u32 (tick_gen l + 1)) mask l2;
  tf_wf : lockstep_wf l';
  tf_counters : counters l' = bump o (counters l);
  tf_verdict : sampler_verdict l' = sampler_verdict l2;
  tf_estop : estop l' = estop l2;
  tf_frames : frames l' = frames l2;
  tf_new : new = match o with Cleared => transmissions l2 | _ => [] end;
  tf_ev : ev = match o with
               | Cleared | Mismatch _ =>
                   Some (u32 (tick_gen l + 1), verdict_at l2 0, verdict_at l2 1)
               | _ => None
               end;
  tf_diag : match o with
  | Mismatch slot =>
      mismatch_slot (diag l') = u8 (Z.of_nat slot) /\
      mismatch_offset (diag l') = first_diff (frame l2 0 slot) (frame l2 1 slot) /\
      mismatch_verdict (diag l') = (verdict_at l2 0, verdict_at l2 1) /\
      last_kind (diag l') = PSTOP_LOCKSTEP_EVENT_CONTENT
  | Missed => late_mask (diag l') = mask /\
              last_kind (diag l') = PSTOP_LOCKSTEP_EVENT_TIMEOUT
  | _ => True
  end;
  tf_ids : tick_gen l' = u32 (tick_gen l + 1);
}.

Lemma late_samplers_published gen mask l :
  gen_at l 0 = gen -> gen_at l 1 = gen -> late_samplers gen mask l = mask.
Proof.
  intros H0' H1'. unfold late_samplers, channels. cbn [foldl seq ESTOP_CHANNELS].
  by rewrite H0', H1', Z.eqb_refl.
Qed.

Lemma tick_sync_facts poles cfg cfgs now mask l w ev l' w' :
  lockstep_wf l ->
  tick_sync poles cfg cfgs now mask l w = (ev, l', w') ->
  exists l1 l2 new,
    tick_facts cfg cfgs now mask (fst (tick_reads poles cfg cfgs now l w))
      (snd (tick_reads poles cfg cfgs now l w)) l l1 l2 l' new ev
      (outcome (u32 (tick_gen l + 1)) mask l2) /\
    sent_log w' = sent_log w ++ new /\ l1 = snd (fst (begin_tick cfg now l w)).
Proof.
  intros Hwf E. unfold tick_sync in E.
  destruct (begin_tick cfg now l w) as [[gen l1] w1] eqn:E1.
  assert (tick_reads poles cfg cfgs now l w =
    (fst (estop_read_phases poles 0 (machine w1)),
     fst (estop_read_phases poles 1
            (machine (snd (sampler_pass poles (cfgs 0%nat) 0 gen l1 w1)))))) as Hr.
  { unfold tick_reads. rewrite E1. by destruct (sampler_pass _ _ _ _ _ _). }
  rewrite Hr. cbn [fst snd]. clear Hr.
  destruct (foldl _ (l1, w1) channels) as [l2 w2] eqn:E2.
  apply begin_tick_spec in E1 as (-> & El1 & Hwf1 & Hw1 & Hdue & _). specialize (Hwf1 Hwf).
  apply samplers_spec in E2 as [Hs Hw2]; [|done]. cbv zeta in Hs.
  assert (estop l1 = estop l) as He by (rewrite El1; done).
  unfold estop_at in Hs at 1 2 3 4. rewrite He in Hs.
  pose proof (sm_wf _ _ _ _ _ _ Hs) as Hwf2.
  pose proof (run_tick_body_wf _ _ _ _ _ _ _ _ _ E Hwf2) as Hwf'.
  apply run_tick_body_spec in E as (El & _ & Hw & Hev & Hd).
  eexists l1, l2, _. split; [|split; [rewrite Hw, Hw2, Hw1; reflexivity|done]].
  set (o := outcome _ _ _) in *.
  assert (counters l2 = counters l) as Hcnt.
  { unfold counters. rewrite (sm_missed _ _ _ _ _ _ Hs), (sm_gated _ _ _ _ _ _ Hs),
      (sm_mismatches _ _ _ _ _ _ Hs), El1. done. }
  split; try done; try (rewrite El1; done); try (rewrite El; done).
  - transitivity (fst (fst (bump o (counters l2))), snd (fst (bump o (counters l2))),
                  snd (bump o (counters l2))); [by rewrite El|].
    rewrite Hcnt. by destruct (bump o (counters l)) as [[]].
  - destruct o; try done.
    rewrite late_samplers_published in Hd; [done|apply (sm_published _ _ _ _ _ _ Hs); unfold ESTOP_CHANNELS; lia..].
  - rewrite El. cbn. rewrite (sm_gen _ _ _ _ _ _ Hs), El1. done.
Qed.
End TickFacts.

Section AgreementLemmas.
Context `{!PstopLib} `{Gpio} `{!Sockets} {PL : PstopLaws}.

Lemma codes_u8 :
  0 <= PSTOP_MESSAGE_OK < 256 /\ 0 <= PSTOP_MESSAGE_STOP < 256 /\ 0 <= PSTOP_MESSAGE_BOND < 256.
Proof.
  pose proof pstop_codes_u8 as Hu. repeat (apply Forall_cons in Hu as [? Hu]). done.
Qed.
Lemma codes_distinct :
  PSTOP_MESSAGE_OK <> PSTOP_MESSAGE_STOP /\ PSTOP_MESSAGE_OK <> PSTOP_MESSAGE_BOND /\
  PSTOP_MESSAGE_STOP <> PSTOP_MESSAGE_BOND.
Proof.
  pose proof pstop_codes_NoDup as Hnd.
  repeat match goal with
  | H : NoDup (_ :: _) |- _ => apply NoDup_cons in H as [? H]
  end.
  repeat split; intros E; rewrite E in *; set_solver.
Qed.

Lemma decide_verdict_u8 st c hi lo : 0 <= fst (estop_decide st c hi lo) < 256.
Proof. rewrite estop_decide_verdict. destruct codes_u8 as (? & ? & _). by bool_case. Qed.

Lemma decide_verdict_code st c hi lo :
  fst (estop_decide st c hi lo) = PSTOP_MESSAGE_OK \/
  fst (estop_decide st c hi lo) = PSTOP_MESSAGE_STOP.
Proof. rewrite estop_decide_verdict. bool_case; auto. Qed.

Lemma encoding_message l me v slot : 0 <= v < 256 ->
  m_message (pstop_message_decode (encoding l me v slot)) =
  if decide (s_state (session_at l slot) = PSTOP_SESS_BONDED) then v else PSTOP_MESSAGE_BOND.
Proof. intros Hv. exact (proj1 (next_frame_spec _ _ _ _ _ Hv)). Qed.

(** A transmitted frame decodes to a BOND, or to the verdict both samplers gave. *)
Lemma transmitted_verdict cfg cfgs now mask r0 r1 l l1 l2 l' new ev o d :
  tick_facts cfg cfgs now mask r0 r1 l l1 l2 l' new ev o -> d ∈ new ->
  mask = 0 /\ primed l2 = true /\ o = Cleared /\
  exists slot, (slot < PSTOP_MAX_MACHINES)%nat /\ due_slot l2 slot = true /\
    d = transmission l2 slot /\
    (m_message (pstop_message_decode (snd (fst d))) = PSTOP_MESSAGE_BOND \/
     (m_message (pstop_message_decode (snd (fst d))) = verdict_at l2 0 /\
      m_message (pstop_message_decode (snd (fst d))) = verdict_at l2 1)).
Proof.
  intros T Hd. pose proof (tf_new _ _ _ _ _ _ _ _ _ _ _ _ _ T) as Hn.
  pose proof (tf_outcome _ _ _ _ _ _ _ _ _ _ _ _ _ T) as Ho.
  pose proof (tf_sampled _ _ _ _ _ _ _ _ _ _ _ _ _ T) as S.
  destruct o; subst new; try by apply not_elem_of_nil in Hd.
  symmetry in Ho. destruct (outcome_cleared _ _ _ Ho) as (Hm & _ & _ & Hp & Heq).
  apply transmissions_elem in Hd as (slot & Hs & Hdue & ->).
  do 3 (split; [done|]). exists slot. do 3 (split; [done|]). cbn [transmission fst snd].
  specialize (Heq slot Hs Hdue).
  rewrite !(sm_verdict _ _ _ _ _ _ S) by (unfold ESTOP_CHANNELS; lia). cbn [pick].
  assert (forall c, (c < ESTOP_CHANNELS)%nat ->
    0 <= pick (fst (estop_decide (estop_at l 0) 0 (fst r0) (snd r0)))
              (fst (estop_decide (estop_at l 1) 1 (fst r1) (snd r1))) c < 256) as Hv
    by (apply two_channels; apply decide_verdict_u8).
  assert (forall c, (c < ESTOP_CHANNELS)%nat ->
    m_message (pstop_message_decode (frame l2 0 slot)) =
    if decide (s_state (session_at l1 slot) = PSTOP_SESS_BONDED)
    then pick (fst (estop_decide (estop_at l 0) 0 (fst r0) (snd r0)))
              (fst (estop_decide (estop_at l 1) 1 (fst r1) (snd r1))) c
    else PSTOP_MESSAGE_BOND) as Hf.
  { intros c Hc.
    assert (frame l2 0 slot = frame l2 c slot) as ->.
    { revert c Hc. by apply (two_channels (fun c => frame l2 0 slot = frame l2 c slot)). }
    rewrite (sm_frame _ _ _ _ _ _ S) by done. by apply encoding_message, Hv. }
  pose proof (Hf 0%nat ltac:(unfold ESTOP_CHANNELS; lia)) as Hf0.
  pose proof (Hf 1%nat ltac:(unfold ESTOP_CHANNELS; lia)) as Hf1.
  rewrite Hf0 in *. destruct (decide _); [|by left]. right. by split.
Qed.
End AgreementLemmas.

Section RunLemmas.
Context `{!PstopLib} `{Gpio} `{!Sockets}.

Lemma tick_of_snd poles i lw :
  snd (tick_of poles i lw) =
  snd (tick_sync poles (ti_cfg i) (ti_cfgs i) (ti_now i) (ti_late i) (fst lw) (snd lw)).
Proof. unfold tick_of. by destruct (tick_sync _ _ _ _ _ _ _) as [[ev l'] w']. Qed.

Lemma lockstep_run_app poles is1 is2 lw :
  lockstep_run poles (is1 ++ is2) lw =
  let '(r1, lw1) := lockstep_run poles is1 lw in
  let '(r2, lw2) := lockstep_run poles is2 lw1 in (r1 ++ r2, lw2).
Proof.
  revert lw. induction is1 as [|i is1 IH]; intros lw; cbn [lockstep_run app].
  - by destruct (lockstep_run poles is2 lw).
  - rewrite IH. destruct (lockstep_run poles is1 _) as [r1 lw1].
    by destruct (lockstep_run poles is2 lw1).
Qed.

(** The reads of one channel over a run. *)
Definition channel_reads (c : nat) (rs : list ((Z * Z) * (Z * Z))) : list (Z * Z) :=
  map (fun r => if (c =? 0)%nat then fst r else snd r) rs.

(** After any run from boot, each channel's state is the pure core's over
    that channel's own reads. *)
Definition channels_track (rs : list ((Z * Z) * (Z * Z))) (l : lockstep) : Prop :=
  lockstep_wf l /\ forall c, (c < ESTOP_CHANNELS)%nat ->
    estop_at l c = snd (estop_run (Z.of_nat c) estop_state_init (channel_reads c rs)).

Lemma tick_tracks poles i rs lw lw' :
  channels_track rs (fst lw) -> tick_of poles i lw = lw' ->
  channels_track (rs ++ [tick_reads poles (ti_cfg i) (ti_cfgs i) (ti_now i) (fst lw) (snd lw)])
                 (fst lw').
Proof.
  intros [Hwf Ht] E. unfold tick_of in E.
  destruct (tick_sync _ _ _ _ _ _ _) as [[ev l'] w'] eqn:Et. subst lw'. cbn [fst].
  apply tick_sync_facts in Et as (l1 & l2 & new & T & _); [|done].
  set (r := tick_reads _ _ _ _ _ _) in *.
  split; [apply T|]. intros c Hc.
  unfold estop_at. rewrite (tf_estop _ _ _ _ _ _ _ _ _ _ _ _ _ T).
  change (estop l2 !!! c) with (estop_at l2 c).
  rewrite (sm_estop _ _ _ _ _ _ (tf_sampled _ _ _ _ _ _ _ _ _ _ _ _ _ T)) by done.
  unfold channel_reads. rewrite map_app. cbn [map].
  revert c Hc. apply two_channels; cbn [pick Nat.eqb].
  - destruct r as [[h0 l0] [h1 l1']]. cbn [fst snd].
    rewrite estop_run_snoc_state. by rewrite (Ht 0%nat) by (unfold ESTOP_CHANNELS; lia).
  - destruct r as [[h0 l0] [h1 l1']]. cbn [fst snd].
    rewrite estop_run_snoc_state. by rewrite (Ht 1%nat) by (unfold ESTOP_CHANNELS; lia).
Qed.

Lemma run_tracks poles is_ lw rs0 :
  channels_track rs0 (fst lw) ->
  channels_track (rs0 ++ fst (lockstep_run poles is_ lw)) (fst (snd (lockstep_run poles is_ lw))).
Proof.
  revert lw rs0. induction is_ as [|i is_ IH]; intros lw rs0 Ht; cbn [lockstep_run].
  { cbn. by rewrite app_nil_r. }
  pose proof (tick_tracks poles i rs0 lw _ Ht eq_refl) as Ht'.
  specialize (IH _ _ Ht'). destruct (lockstep_run poles is_ _) as [rs lw'].
  cbn [fst snd] in *. by rewrite <- app_assoc in IH.
Qed.
End RunLemmas.

Section ConfigLemmas.
Context `{!PstopLib} `{Gpio} `{!Sockets} `{!ErrnoLaws}.

(** Does a slot get its socket, and the socket its port? *)
Definition slot_opens (slot : nat) (w : os) : bool :=
  let '(sock, w) := zsock_socket w in
  (0 <=? sock) && (0 <=? fst (zsock_bind sock (u16 (PSTOP_LOCAL_PORT + Z.of_nat slot)) w)).
(** The machine once a slot's old session is closed. *)
Definition close_old (l : lockstep) (slot : nat) (w : net) : net :=
  if active l slot then snd (pstop_session_close (session_at l slot) w) else w.
(** The machine as [begin_tick] finds it when it opens slot [slot]: the slots
    before it have been applied, its own old session closed. *)
Definition slot_turn (cfg : app_settings) (slot : nat) (l : lockstep) (w : net) : os :=
  let l0 := l <| reconfigure_requests := 0 |> <| rebond_requests := 0 |> in
  machine (close_old l slot
    (snd (foldl (reconfigure_slot cfg (reconfigure_requests l)) (l0, w) (seq 0 slot)))).

(** A session freshly opened on the peer that the settings give its slot. *)
Definition opened_for (cfg : app_settings) (slot : nat) (s : pstop_session) : Prop :=
  exists p, peers cfg !!! slot = p /\ configured p = true /\
    s_peer_addr s = mk_sockaddr (ip p) (port p) /\ s_state s = PSTOP_SESS_IDLE /\
    s_proto s = fresh_proto (peer_dev_id p) /\ s_peer_id s = peer_dev_id p /\ s_sent s = 0.

Lemma open_fresh s slot p w s' w' :
  pstop_session_open s slot (Some p) w = (0, s', w') ->
  s_peer_addr s' = mk_sockaddr (ip p) (port p) /\ s_state s' = PSTOP_SESS_IDLE /\
  s_proto s' = fresh_proto (peer_dev_id p) /\ s_peer_id s' = peer_dev_id p /\ s_sent s' = 0.
Proof.
  unfold pstop_session_open, on_machine. intros E.
  bool_case; [discriminate E|].
  destruct (zsock_socket _) as [sock o] eqn:Es. cbn in E. bool_case; to_prop.
  { injection E as E _ _. apply errno_socket in Es; lia. }
  destruct (zsock_bind _ _ _) as [ret o'] eqn:Eb. cbn in E. bool_case; to_prop.
  { injection E as E _ _. apply errno_bind in Eb; lia. }
  injection E as <- <-. done.
Qed.

Lemma open_iff s slot p w : (slot < PSTOP_MAX_MACHINES)%nat ->
  (fst (fst (pstop_session_open s (Z.of_nat slot) (Some p) w)) =? 0) = slot_opens slot (machine w).
Proof.
  intros Hs. unfold pstop_session_open, on_machine, slot_opens.
  destruct (Z.ltb_spec (Z.of_nat slot) 0); [lia|].
  destruct (Z.leb_spec (Z.of_nat PSTOP_MAX_MACHINES) (Z.of_nat slot)); [lia|]. cbn [orb].
  destruct (zsock_socket _) as [sock o] eqn:Es. cbn.
  destruct (Z.leb_spec 0 sock), (Z.ltb_spec sock 0); try lia; cbn [andb].
  - destruct (zsock_bind _ _ _) as [ret o'] eqn:Eb. cbn.
    destruct (Z.leb_spec 0 ret), (Z.ltb_spec ret 0); try lia; cbn; [done|].
    apply errno_bind in Eb; [|lia]. cbn [fst]. apply Z.eqb_neq. lia.
  - apply errno_socket in Es; [|lia]. cbn [fst]. apply Z.eqb_neq. lia.
Qed.

Lemma slot_apply_config_result cfg slot l w b l' w' :
  lockstep_wf l -> (slot < PSTOP_MAX_MACHINES)%nat ->
  slot_apply_config cfg slot l w = (b, l', w') ->
  active l' slot = b /\
  (b = true -> opened_for cfg slot (session_at l' slot)) /\
  b = configured (peers cfg !!! slot) && slot_opens slot (machine (close_old l slot w)).
Proof.
  intros Hwf Hslot. unfold slot_apply_config, close_old.
  destruct (if active l slot then pstop_session_close _ _ else _) as [s w1] eqn:E0.
  assert (w1 = if active l slot then snd (pstop_session_close (session_at l slot) w) else w) as <-.
  { destruct (active l slot); [by rewrite E0|congruence]. }
  clear E0.
  set (l1 := l <| sessions ::= _ |> <| slot_active ::= _ |>).
  assert (length (sessions l1) = PSTOP_MAX_MACHINES /\
          length (slot_active l1) = PSTOP_MAX_MACHINES /\ active l1 slot = false)
    as (Hs & Ha & Hoff).
  { destruct Hwf. unfold l1, active. cbn. rewrite !length_insert.
    rewrite list_lookup_total_insert, decide_True by lia. done. }
  clearbody l1. unfold app_settings_peer_get, slot_ok.
  destruct (Z.leb_spec 0 (Z.of_nat slot)); [|lia].
  destruct (Z.ltb_spec (Z.of_nat slot) (Z.of_nat PSTOP_MAX_MACHINES)); [|lia].
  cbn [andb negb]. rewrite Nat2Z.id.
  destruct (configured (peers cfg !!! slot)) eqn:Hcfg; cbn [negb].
  2: { intros E. simplify_eq. done. }
  pose proof (open_iff (session_at l1 slot) slot (peers cfg !!! slot) w1 Hslot) as Ho.
  destruct (pstop_session_open _ _ _ _) as [[ret s2] w2] eqn:E2. cbn [fst] in Ho. rewrite <- Ho.
  destruct (Z.eqb_spec ret 0) as [->|Hr]; cbn [negb]; intros E; injection E as <- <- _.
  - apply open_fresh in E2. unfold active, session_at. cbn.
    rewrite !list_lookup_total_insert, !decide_True by lia.
    split; [done|]. split; [|done]. intros _. exists (peers cfg !!! slot). tauto.
  - done.
Qed.

(** Applying the settings touches the listed slots only. *)
Lemma reconfigure_fold_frame cfg mask ss l w :
  slots_changed (fun i => i ∈ ss) l (fst (foldl (reconfigure_slot cfg mask) (l, w) ss)).
Proof.
  revert l w. induction ss as [|s ss IH]; intros l w; cbn [foldl]; [apply slots_changed_refl|].
  assert (forall l1 l2, slots_changed (fun j => j ∈ ss) l1 l2 ->
          slots_changed (fun j => j ∈ s :: ss) l1 l2) as Hw.
  { intros l1 l2 [? ? ? Ho]. split; try done. intros j Hj. apply Ho. intros ?. apply Hj. by right. }
  unfold reconfigure_slot at 2. destruct (has_bit mask s); [|apply Hw, IH].
  destruct (slot_apply_config cfg s l w) as [[b l2] w2] eqn:E2.
  apply slot_apply_config_spec in E2 as (? & ? & ? & Ho & _).
  refine (slots_changed_trans _ _ _ _ _ (Hw _ _ (IH l2 w2))). split; try done.
  intros j Hj. apply Ho. intros ->. apply Hj. left.
Qed.

(** Applying the settings to a list of slots, one after the other: a slot the
    mask names is opened at its turn, on the peer the settings give it, or left
    idle. *)
Lemma reconfigure_fold_result cfg mask ss1 slot ss2 l w l' w' :
  lockstep_wf l -> NoDup (ss1 ++ slot :: ss2) -> (slot < PSTOP_MAX_MACHINES)%nat ->
  foldl (reconfigure_slot cfg mask) (l, w) (ss1 ++ slot :: ss2) = (l', w') ->
  has_bit mask slot = true ->
  active l' slot = configured (peers cfg !!! slot) &&
    slot_opens slot (machine (close_old l slot
      (snd (foldl (reconfigure_slot cfg mask) (l, w) ss1)))) /\
  (active l' slot = true -> opened_for cfg slot (session_at l' slot)).
Proof.
  intros Hwf Hnd Hlt E Hb. rewrite foldl_app in E. cbn [foldl] in E.
  pose proof (reconfigure_fold_frame cfg mask ss1 l w) as Hf1.
  destruct (foldl _ (l, w) ss1) as [la wa]. cbn [fst snd] in *.
  unfold reconfigure_slot at 2 in E. rewrite Hb in E.
  destruct (slot_apply_config cfg slot la wa) as [[b lb] wb] eqn:E1.
  pose proof (reconfigure_fold_frame cfg mask ss2 lb wb) as Hf2. rewrite E in Hf2. cbn [fst] in Hf2.
  apply slot_apply_config_result in E1 as (Ha & Ho & Hc); [|by eapply slots_changed_wf|done].
  apply NoDup_app in Hnd as (_ & Hn1 & Hn2). apply NoDup_cons in Hn2 as [Hn2 _].
  destruct (sc_other _ _ _ Hf1 slot) as [Es1 Ea1]; [intros Hi; apply (Hn1 _ Hi); left|].
  destruct (sc_other _ _ _ Hf2 slot) as [Es2 Ea2]; [done|].
  unfold close_old, active, session_at in *. rewrite !list_lookup_total_alt in *.
  rewrite Es2, Ea2, Ha, Hc, Es1, Ea1 in *. done.
Qed.
(** What a requested reconfiguration leaves in the slot. *)
Lemma begin_tick_reconfigured cfg now slot l w gen l1 w1 :
  begin_tick cfg now l w = (gen, l1, w1) ->
  lockstep_wf l -> (slot < PSTOP_MAX_MACHINES)%nat -> has_bit (reconfigure_requests l) slot = true ->
  active l1 slot = configured (peers cfg !!! slot) && slot_opens slot (slot_turn cfg slot l w) /\
  (active l1 slot = true ->
     configured (peers cfg !!! slot) = true /\
     let s := session_at l1 slot in let p := peers cfg !!! slot in
     s_peer_addr s = mk_sockaddr (ip p) (port p) /\ s_state s = PSTOP_SESS_IDLE /\
     s_proto s = fresh_proto (peer_dev_id p) /\ pstop_session_due s now = true).
Proof.
  intros E Hwf Hlt Hbit.
  unfold begin_tick in E.
  set (l0 := (_ <| reconfigure_requests := 0 |>) <| rebond_requests := 0 |>) in E.
  cbn [reconfigure_requests rebond_requests] in E.
  destruct (foldl (reconfigure_slot _ _) _ _) as [l2 w2] eqn:E2.
  assert (lockstep_wf l0) as Hwf0 by (destruct Hwf; split; done).
  assert (slot ∈ slots) as Hin by (apply list_elem_of_In, in_seq; lia).
  assert (lockstep_wf l2) as Hwf2
    by (apply reconfigure_fold in E2 as [Hch _]; by eapply slots_changed_wf).
  assert (slots = seq 0 slot ++ slot :: seq (S slot) (PSTOP_MAX_MACHINES - S slot)) as Hsplit.
  { change (slot :: seq (S slot) ?n) with (seq slot (S n)). rewrite <- (seq_app slot _ 0).
    unfold slots. f_equal. lia. }
  rewrite Hsplit in E2.
  destruct (reconfigure_fold_result cfg (reconfigure_requests l) (seq 0 slot) slot
              (seq (S slot) (PSTOP_MAX_MACHINES - S slot)) l0 w l2 w2 Hwf0) as [Hc Ho];
    [rewrite <- Hsplit; apply NoDup_seq|done|exact E2|done|].
  destruct (rebond_fold (rebond_requests l) slots l2 (NoDup_seq _ _)) as (_ & Ha & Hs).
  cbv beta iota zeta in E. set (l3 := foldl (rebond_slot _) l2 slots) in *. clearbody l3.
  injection E as _ <- _.
  unfold active, session_at in *. cbn. rewrite Ha. split; [exact Hc|]. intros Hact.
  destruct (Ho Hact) as (p & <- & Hcf & Hp1 & Hp2 & Hp3 & Hp4 & _).
  split; [done|]. specialize (Hs (slot)).
  rewrite !list_lookup_total_alt, Hs in *.
  destruct (lookup_lt_is_Some_2 (sessions l2) (slot)) as [s Es];
    [rewrite (wf_sessions _ Hwf2); lia|].
  rewrite Es in *. unfold pstop_session_due.
  destruct (bool_decide _ && _ && _); cbn in *; rewrite ?Hp2, ?Hp4; done.
Qed.
End ConfigLemmas.

(** * Properties *)
Section Properties.
Context `{!PstopLib} `{Gpio} `{!Sockets}.

Lemma new_sends_app (w w' : net) new :
  sent_log w' = sent_log w ++ new -> new_sends w w' = new.
Proof. intros E. unfold new_sends. by rewrite E, drop_app_length. Qed.

(** C3: The stop switch reaches the wire.  Run the firmware from boot through
    any ticks, with any clock, settings, role changes and lost windows.  If a tick
    transmits a frame that decodes to OK, then on that tick and the two before
    it both channels, each on its own reads, saw the loop closed: three
    healthy reads in a row on both sides, never one side's word for it. *)
Theorem ok_on_wire_needs_three_closed {PL : PstopLaws} poles is_ i lw d :
  lockstep_wf (fst lw) ->
  (forall c, (c < ESTOP_CHANNELS)%nat -> estop_at (fst lw) c = estop_state_init) ->
  let '(rs, lw1) := lockstep_run poles is_ lw in
  d ∈ new_sends (snd lw1) (snd (tick_of poles i lw1)) ->
  m_message (pstop_message_decode (snd (fst d))) = PSTOP_MESSAGE_OK ->
  let r := tick_reads poles (ti_cfg i) (ti_cfgs i) (ti_now i) (fst lw1) (snd lw1) in
  forall c, (c < ESTOP_CHANNELS)%nat ->
    (3 <= trailing raw_closed (channel_reads c (rs ++ [r])))%nat.
Proof.
  intros Hwf Hinit.
  assert (channels_track [] (fst lw)) as Ht0 by done.
  pose proof (run_tracks poles is_ lw [] Ht0) as Ht.
  destruct (lockstep_run poles is_ lw) as [rs [l w]]. cbn [fst snd app] in *.
  pose proof (tick_tracks poles i rs (l, w) _ Ht eq_refl) as Ht'.
  unfold tick_of in *. cbn [fst snd] in *.
  destruct (tick_sync _ _ _ _ _ l w) as [[ev l'] w'] eqn:Et. cbn [fst snd] in *.
  apply tick_sync_facts in Et as (l1 & l2 & new & T & Hw & _); [|apply Ht].
  rewrite (new_sends_app _ _ _ Hw). intros Hd Hok c Hc.
  destruct (transmitted_verdict _ _ _ _ _ _ _ _ _ _ _ _ _ _ T Hd)
    as (_ & _ & _ & slot & _ & _ & _ & Hm).
  set (r := tick_reads _ _ _ _ _ _) in *.
  pose proof codes_distinct as (Hos & Hob & _).
  destruct Hm as [Hm|[Hm0 Hm1]]; [congruence|].
  assert (verdict_at l2 c = PSTOP_MESSAGE_OK) as Hv.
  { revert c Hc. apply two_channels; congruence. }
  rewrite (sm_verdict _ _ _ _ _ _ (tf_sampled _ _ _ _ _ _ _ _ _ _ _ _ _ T)) in Hv by done.
  destruct Ht' as [_ Ht']. specialize (Ht' c Hc).
  destruct (estop_run_streaks (Z.of_nat c) (channel_reads c (rs ++ [r]))) as [Hs _].
  rewrite <- Ht' in Hs. unfold estop_at in Hs.
  rewrite (tf_estop _ _ _ _ _ _ _ _ _ _ _ _ _ T) in Hs.
  change (estop l2 !!! c) with (estop_at l2 c) in Hs.
  rewrite (sm_estop _ _ _ _ _ _ (tf_sampled _ _ _ _ _ _ _ _ _ _ _ _ _ T)) in Hs by done.
  enough (3 <= closed_streak (pick (snd (estop_decide (estop_at l 0) 0 r.1.1 r.1.2))
                       (snd (estop_decide (estop_at l 1) 1 r.2.1 r.2.2)) c)) by lia.
  clear Hs Ht'. revert c Hc Hv. apply (two_channels (fun c => _ -> _)); cbn [pick];
    rewrite estop_decide_verdict; unfold reclosed, LOOP_RECLOSE_DEBOUNCE_TICKS;
    intros Hv; destruct (raw_closed _); cbn [andb] in Hv; try congruence;
    bool_case; to_prop; done || congruence.
Qed.

(** C4: Nothing goes out unasked, nor on one sampler's say.  Whatever state the
    comparator is in, a datagram a tick transmits is the frame of one of the
    four slots, which at the tick's start is active and has its next send due by
    its own session ([pstop_session_due]: idle, or bonding with the retry time
    up, or bonded with a period passed since its last frame; never rejected),
    sent on that session's socket to that session's peer; both samplers encoded
    that very frame, on a tick no sampler missed and with both channels primed;
    and it is a BOND, or carries the verdict that both gave. *)
Theorem transmission_requires_agreement {PL : PstopLaws} poles cfg cfgs now mask l w ev l' w' d :
  lockstep_wf l ->
  tick_sync poles cfg cfgs now mask l w = (ev, l', w') ->
  d ∈ new_sends w w' ->
  let m := m_message (pstop_message_decode (snd (fst d))) in
  let l1 := snd (fst (begin_tick cfg now l w)) in
  mask = 0 /\ estop_channels_primed (estop_at l' 0) (estop_at l' 1) = true /\
  (exists slot, (slot < PSTOP_MAX_MACHINES)%nat /\
     active l1 slot = true /\ pstop_session_due (session_at l1 slot) now = true /\
     d = (s_sock (session_at l1 slot), frame l' 0 slot, s_peer_addr (session_at l1 slot)) /\
     frame l' 0 slot = frame l' 1 slot) /\
  (m = PSTOP_MESSAGE_BOND \/ (m = verdict_at l' 0 /\ m = verdict_at l' 1)).
Proof.
  intros Hwf E Hd. apply tick_sync_facts in E as (l1 & l2 & new & T & Hw & Hl1); [|done].
  rewrite (new_sends_app _ _ _ Hw) in Hd. cbv zeta. rewrite <- Hl1.
  destruct (transmitted_verdict _ _ _ _ _ _ _ _ _ _ _ _ _ _ T Hd)
    as (Hm & Hp & Ho & slot & Hs & Hdue & -> & Hv).
  destruct (outcome_cleared _ _ _ Ho) as (_ & _ & _ & _ & Heq).
  pose proof (tf_sampled _ _ _ _ _ _ _ _ _ _ _ _ _ T) as S.
  specialize (Heq slot Hs Hdue).
  assert (due_slot l1 slot = true) as Hd1 by (rewrite <- Hdue; symmetry; apply due_slot_ext; apply S).
  unfold due_slot in Hd1. rewrite (tf_due _ _ _ _ _ _ _ _ _ _ _ _ _ T) in Hd1 by done.
  unfold estop_at, verdict_at, frame, transmission, session_at in *.
  rewrite (tf_estop _ _ _ _ _ _ _ _ _ _ _ _ _ T), (tf_verdict _ _ _ _ _ _ _ _ _ _ _ _ _ T),
    (tf_frames _ _ _ _ _ _ _ _ _ _ _ _ _ T), <- (sm_sessions _ _ _ _ _ _ S).
  split; [done|]. split; [done|]. split; [|exact Hv].
  rewrite (sm_sessions _ _ _ _ _ _ S).
  exists slot. apply andb_prop in Hd1 as [Ha Hd1]. apply andb_prop in Hd1 as [_ Hd1]. done.
Qed.

Ltac outcome_case :=
  repeat split; intros;
  repeat match goal with
  | H : exists _, _ |- _ => destruct H
  | H : _ /\ _ |- _ => destruct H
  end; simplify_eq; done || congruence || lia.

(** Every tick ends in exactly one of four ways, and the telemetry says
    which: a missed window, an unprimed channel and a byte mismatch each bump
    their own 32-bit counter and no other, transmit nothing, and record their
    attribution; only a cleared tick transmits, and then bumps none.  The tick
    observer hears of exactly the primed ticks both samplers made.  The tables
    keep their shape. *)
Theorem tick_outcomes poles cfg cfgs now mask l w ev l' w' :
  lockstep_wf l ->
  tick_sync poles cfg cfgs now mask l w = (ev, l', w') ->
  lockstep_wf l' /\
  exists o, counters l' = bump o (counters l) /\
    (o <> Cleared -> sent_log w' = sent_log w) /\
    (mask <> 0 <-> o = Missed) /\
    (o = Missed -> late_mask (diag l') = mask /\
                   last_kind (diag l') = PSTOP_LOCKSTEP_EVENT_TIMEOUT) /\
    (o = Gated <-> mask = 0 /\ primed l' = false) /\
    ((exists slot, o = Mismatch slot) -> last_kind (diag l') = PSTOP_LOCKSTEP_EVENT_CONTENT) /\
    ev = (if (mask =? 0) && primed l'
          then Some (u32 (tick_gen l + 1), verdict_at l' 0, verdict_at l' 1) else None).
Proof.
  intros Hwf E. apply tick_sync_facts in E as (l1 & l2 & new & T & Hw & _); [|done].
  split; [apply T|]. eexists. split; [apply T|].
  pose proof (tf_sampled _ _ _ _ _ _ _ _ _ _ _ _ _ T) as S.
  pose proof (tf_diag _ _ _ _ _ _ _ _ _ _ _ _ _ T) as D.
  pose proof (tf_new _ _ _ _ _ _ _ _ _ _ _ _ _ T) as Hn.
  assert (primed l' = primed l2) as Hp.
  { unfold primed, estop_at. by rewrite (tf_estop _ _ _ _ _ _ _ _ _ _ _ _ _ T). }
  rewrite (tf_ev _ _ _ _ _ _ _ _ _ _ _ _ _ T), Hp.
  unfold verdict_at. rewrite (tf_verdict _ _ _ _ _ _ _ _ _ _ _ _ _ T).
  unfold outcome in *.
  rewrite late_samplers_published in * by (apply (sm_published _ _ _ _ _ _ S); unfold ESTOP_CHANNELS; lia).
  destruct (Z.eqb_spec mask 0) as [Hm|Hm]; cbn [negb andb] in *.
  - destruct (primed l2) eqn:Hp2; cbn [negb] in *.
    + destruct (differing_slot l2); subst new; rewrite ?app_nil_r in Hw; outcome_case.
    + subst new. rewrite app_nil_r in Hw; outcome_case.
  - subst new. rewrite app_nil_r in Hw; outcome_case.
Qed.

(** C10: Two healthy channels always get through.  On a tick both samplers made,
    with both channels primed, the same verdict and the same device id, every
    due slot's frame is transmitted and no counter moves - even when settings,
    the role included, changed between the two samplers' passes: the frames
    carry the role of the tick's snapshot. *)
Theorem agreement_transmits poles cfg cfgs now l w ev l' w' :
  lockstep_wf l ->
  tick_sync poles cfg cfgs now 0 l w = (ev, l', w') ->
  primed l' = true -> verdict_at l' 0 = verdict_at l' 1 ->
  app_settings_effective_device_id (cfgs 0%nat) = app_settings_effective_device_id (cfgs 1%nat) ->
  let l1 := snd (fst (begin_tick cfg now l w)) in
  new_sends w w' =
    map (fun slot => (s_sock (session_at l1 slot),
           pstop_session_build (session_at l1 slot) (app_settings_effective_device_id (cfgs 0%nat))
             (verdict_at l' 0)
             (if is_operator cfg then PSTOP_AUX_ROLE_OPERATOR else PSTOP_AUX_ROLE_STOP_ONLY) now,
           s_peer_addr (session_at l1 slot)))
        (filter (fun slot => due_slot l1 slot = true) slots) /\
  counters l' = counters l.
Proof.
  intros Hwf E Hp Hv Hid lb. apply tick_sync_facts in E as (l1 & l2 & new & T & Hw & Hl1); [|done].
  unfold lb. rewrite <- Hl1. clear lb.
  pose proof (tf_sampled _ _ _ _ _ _ _ _ _ _ _ _ _ T) as S.
  unfold verdict_at, primed, estop_at in *.
  rewrite (tf_verdict _ _ _ _ _ _ _ _ _ _ _ _ _ T) in *.
  rewrite (tf_estop _ _ _ _ _ _ _ _ _ _ _ _ _ T) in Hp.
  change (sampler_verdict l2 !!! ?c) with (verdict_at l2 c) in *.
  assert (outcome (u32 (tick_gen l + 1)) 0 l2 = Cleared) as Ho.
  { unfold outcome.
    rewrite late_samplers_published
      by (apply (sm_published _ _ _ _ _ _ S); unfold ESTOP_CHANNELS; lia).
    unfold primed, estop_at. rewrite Hp. cbn [negb Z.eqb].
    assert (differing_slot l2 = None) as ->; [|done].
    apply differing_slot_None. intros slot Hs Hd.
    rewrite !(sm_frame _ _ _ _ _ _ S) by (done || (unfold ESTOP_CHANNELS; lia)).
    rewrite !(sm_verdict _ _ _ _ _ _ S) in Hv by (unfold ESTOP_CHANNELS; lia).
    by rewrite Hid, Hv. }
  rewrite Ho in T. split; [|apply T].
  rewrite (new_sends_app _ _ _ Hw), (tf_new _ _ _ _ _ _ _ _ _ _ _ _ _ T).
  unfold transmissions.
  assert (forall s, due_slot l2 s = due_slot l1 s) as Hdue.
  { intros. apply due_slot_ext; apply S. }
  rewrite (list_filter_iff _ (fun slot => due_slot l1 slot = true)) by (intros; by rewrite Hdue).
  apply map_ext_in. intros slot Hin. apply list_elem_of_In, list_elem_of_filter in Hin as [Hd Hin].
  apply list_elem_of_In, in_seq in Hin.
  unfold transmission. rewrite (sm_frame _ _ _ _ _ _ S)
    by (rewrite ?Hdue; unfold ESTOP_CHANNELS; (done || lia)).
  rewrite (sm_verdict _ _ _ _ _ _ S) by (unfold ESTOP_CHANNELS; lia).
  unfold session_at. rewrite (sm_sessions _ _ _ _ _ _ S). unfold encoding.
  by rewrite (tf_role _ _ _ _ _ _ _ _ _ _ _ _ _ T), (tf_now _ _ _ _ _ _ _ _ _ _ _ _ _ T).
Qed.

(** A mismatch is attributed.  When a tick counts a mismatch, the record
    names a slot whose two 48-byte frames differ, the exact offset of the first
    byte that does (everything before it equal), and the two verdicts; and when
    both passes encoded the same device id, it is the verdicts that differ. *)
Theorem mismatch_attributed {PL : PstopLaws} poles cfg cfgs now mask l w ev l' w' :
  lockstep_wf l ->
  tick_sync poles cfg cfgs now mask l w = (ev, l', w') ->
  mismatches l' <> mismatches l ->
  let off := mismatch_offset (diag l') in
  mismatch_verdict (diag l') = (verdict_at l' 0, verdict_at l' 1) /\
  (app_settings_effective_device_id (cfgs 0%nat) = app_settings_effective_device_id (cfgs 1%nat) ->
     verdict_at l' 0 <> verdict_at l' 1) /\
  exists slot, (slot < PSTOP_MAX_MACHINES)%nat /\ mismatch_slot (diag l') = Z.of_nat slot /\
    (off < PSTOP_MESSAGE_SIZE)%nat /\
    take off (frame l' 0 slot) = take off (frame l' 1 slot) /\
    frame l' 0 slot !! off <> frame l' 1 slot !! off.
Proof.
  intros Hwf E Hmm off. apply tick_sync_facts in E as (l1 & l2 & new & T & _); [|done].
  pose proof (tf_sampled _ _ _ _ _ _ _ _ _ _ _ _ _ T) as S.
  pose proof (tf_counters _ _ _ _ _ _ _ _ _ _ _ _ _ T) as Hc.
  pose proof (tf_diag _ _ _ _ _ _ _ _ _ _ _ _ _ T) as Hd.
  pose proof (tf_outcome _ _ _ _ _ _ _ _ _ _ _ _ _ T) as Ho.
  destruct (outcome _ _ l2) as [| |slot|] eqn:Eo;
    try (unfold counters in Hc; cbn in Hc; simplify_eq; congruence).
  destruct Hd as (D1 & D2 & D3 & _).
  unfold outcome in Eo. do 2 (bool_case; [done|]).
  destruct (differing_slot l2) as [s|] eqn:Ed; [|done]. simplify_eq.
  apply differing_slot_Some in Ed as (Hs & Hdue & Hne).
  unfold verdict_at. rewrite (tf_verdict _ _ _ _ _ _ _ _ _ _ _ _ _ T).
  change (sampler_verdict l2 !!! ?c) with (verdict_at l2 c).
  split; [done|].
  assert (forall c, (c < ESTOP_CHANNELS)%nat -> length (frame l2 c slot) = PSTOP_MESSAGE_SIZE) as Hlen.
  { intros c Hc'. rewrite (sm_frame _ _ _ _ _ _ S) by done. apply encode_length. }
  split.
  - intros Hid Hv. apply Hne.
    rewrite !(sm_frame _ _ _ _ _ _ S) by (done || (unfold ESTOP_CHANNELS; lia)).
    rewrite !(sm_verdict _ _ _ _ _ _ S) in Hv by (unfold ESTOP_CHANNELS; lia).
    by rewrite Hid, Hv.
  - exists slot. split; [done|]. unfold PSTOP_MAX_MACHINES in Hs.
    split; [rewrite D1, u8_small; lia|].
    unfold off. rewrite D2. unfold frame. rewrite (tf_frames _ _ _ _ _ _ _ _ _ _ _ _ _ T).
    change (frames l2 !!! ?c !!! slot) with (frame l2 c slot).
    destruct (first_diff_spec (frame l2 0 slot) (frame l2 1 slot)) as (F1 & F2 & F3);
      [by rewrite !Hlen by (unfold ESTOP_CHANNELS; lia)|done|].
    rewrite Hlen in F1 by (unfold ESTOP_CHANNELS; lia). done.
Qed.

(** A rebond request is a bit the next tick consumes: it restarts the bond of
    the active slot it names and of no other slot nobody asked for, whose session
    is untouched; both masks are cleared, and a slot out of range is refused
    with -EINVAL and changes nothing. *)
Theorem rebond_request_consumed cfg now slot l lr w ret gen l1 w1 :
  lockstep_wf l ->
  request_rebond slot l = (ret, lr) -> begin_tick cfg now lr w = (gen, l1, w1) ->
  (ret = 0 <-> 0 <= slot < Z.of_nat PSTOP_MAX_MACHINES) /\
  (ret <> 0 -> ret = - EINVAL /\ lr = l) /\
  (ret = 0 -> has_bit (reconfigure_requests l) (Z.to_nat slot) = false ->
     active l (Z.to_nat slot) = true ->
     session_at l1 (Z.to_nat slot) = pstop_session_rebond (session_at l (Z.to_nat slot))) /\
  (forall i, i <> Z.to_nat slot -> has_bit (reconfigure_requests l) i = false ->
     has_bit (rebond_requests l) i = false -> session_at l1 i = session_at l i) /\
  rebond_requests l1 = 0 /\ reconfigure_requests l1 = 0 /\ sent_log w1 = sent_log w.
Proof.
  intros Hwf Er E. unfold request_rebond in Er.
  destruct ((slot <? 0) || (Z.of_nat PSTOP_MAX_MACHINES <=? slot)) eqn:Hr;
    injection Er as <- <-; apply begin_tick_spec in E as (_ & El1 & _ & Hw & _ & Hs).
  - assert (~ (0 <= slot < Z.of_nat PSTOP_MAX_MACHINES)) as Hn by (to_prop; lia).
    split; [split; [discriminate|done]|]. split; [done|]. split; [discriminate|].
    split; [|by rewrite El1].
    intros i _ Hc Hb. destruct (Hs i Hc) as [_ Hsi]. rewrite Hb, andb_false_r in Hsi.
    unfold session_at. by rewrite !list_lookup_total_alt, Hsi.
  - to_prop. split; [lia|]. split; [done|]. unfold active in *. cbn in Hs.
    split; [|split; [|by rewrite El1]].
    + intros _ Hc Ha. destruct (Hs _ Hc) as [_ Hsi].
      rewrite has_bit_lor, (bool_decide_eq_true_2 (Z.to_nat slot = _)), orb_true_r in Hsi by done.
      rewrite Ha, bool_decide_eq_true_2 in Hsi.
      2: { refine (slots_elem _ _). lia. }
      cbn in Hsi. unfold session_at. rewrite !list_lookup_total_alt, Hsi.
      destruct (lookup_lt_is_Some_2 (sessions l) (Z.to_nat slot)) as [s ->]; [|done].
      rewrite (wf_sessions _ Hwf). lia.
    + intros i Hi Hc Hb. destruct (Hs i Hc) as [_ Hsi].
      rewrite has_bit_lor, Hb, (bool_decide_eq_false_2 (Z.to_nat slot = i)), andb_false_r in Hsi by congruence.
      unfold session_at. by rewrite !list_lookup_total_alt, Hsi.
Qed.
End Properties.

Section ConfigProperties.
Context `{!PstopLib} `{Gpio} `{!Sockets} `{!ErrnoLaws}.

(** A peer change takes effect on the next tick: after a reconfigure request
    the slot is active exactly when the settings configure it and its socket
    opens at its turn ([slot_turn]), and then holds a session just opened on
    the peer the settings name, IDLE with fresh counters (so it bonds to the
    new machine); the old machine's bond and counters are gone. *)
Theorem reconfigure_applies cfg now slot l lr w gen l1 w1 :
  lockstep_wf l ->
  request_reconfigure slot l = (0, lr) -> begin_tick cfg now lr w = (gen, l1, w1) ->
  active l1 (Z.to_nat slot) = configured (peers cfg !!! Z.to_nat slot) &&
    slot_opens (Z.to_nat slot) (slot_turn cfg (Z.to_nat slot) lr w) /\
  (active l1 (Z.to_nat slot) = true ->
     configured (peers cfg !!! Z.to_nat slot) = true /\
     let s := session_at l1 (Z.to_nat slot) in let p := peers cfg !!! Z.to_nat slot in
     s_peer_addr s = mk_sockaddr (ip p) (port p) /\ s_state s = PSTOP_SESS_IDLE /\
     s_proto s = fresh_proto (peer_dev_id p) /\ pstop_session_due s now = true).
Proof.
  intros Hwf Er. unfold request_reconfigure in Er.
  bool_case; [discriminate Er|]. injection Er as <-. to_prop.
  intros E. eapply begin_tick_reconfigured; [exact E|by destruct Hwf; split|lia|cbn].
  by rewrite has_bit_lor, bool_decide_eq_true_2, orb_true_r.
Qed.
End ConfigProperties.

(** * Witnesses

    Slot 1 configured, both poles closed, the machine's bond ack queued. *)
From S2P Require Import Instances.

Definition both_closed : sim_poles := Some [true; true].
Definition demo_cfg : app_settings :=
  (zero_settings 5) <| peers ::= <[1%nat := mk_peer 3232235777 8890 16909060 true]> |>
                  <| is_operator := true |>.
Definition demo_ack : list Z := wire_encode (mk_wire_msg 173 777 0 16909060 5 500 1 1 0 0 0).
Definition demo_machine : @net sim_os :=
  @mk_net sim_os (sim_boot <| sim_rx := [(3, demo_ack, mk_sockaddr 3232235777 8890)] |>) [].
Definition demo_boot : lockstep * @net sim_os :=
  pstop_lockstep_init demo_cfg lockstep_zero demo_machine.
Definition demo_tick (now : Z) : tick_input := mk_tick_input now demo_cfg (fun _ => demo_cfg) 0.
Definition demo_two : lockstep * @net sim_os :=
  snd (lockstep_run both_closed [demo_tick 100; demo_tick 200] demo_boot).
(** The third tick's state and machine. *)
#[local] Abbreviation demo_three :=
  (tick_sync both_closed demo_cfg (fun _ => demo_cfg) 300 0 (fst demo_two) (snd demo_two)).

Lemma lockstep_wf_intro l :
  (length (sessions l) =? 4)%nat && (length (slot_active l) =? 4)%nat &&
  (length (estop l) =? 2)%nat && (length (frames l) =? 2)%nat &&
  forallb (fun row => length row =? 4)%nat (frames l) &&
  (length (sampler_verdict l) =? 2)%nat && (length (sampler_gen l) =? 2)%nat = true ->
  lockstep_wf l.
Proof.
  rewrite !andb_true_iff, !Nat.eqb_eq. intros ((((((? & ?) & ?) & ?) & Hf) & ?) & ?).
  split; try done. apply Forall_forall. intros row Hin. apply list_elem_of_In in Hin.
  apply forallb_forall with (x := row) in Hf; [|done]. by apply Nat.eqb_eq in Hf.
Qed.
Lemma demo_boot_wf : lockstep_wf (fst demo_boot).
Proof. apply lockstep_wf_intro. vm_compute. reflexivity. Qed.
Lemma demo_two_wf : lockstep_wf (fst demo_two).
Proof. apply lockstep_wf_intro. vm_compute. reflexivity. Qed.
Lemma hd_elem {A} (d : A) l : l <> [] -> hd d l ∈ l.
Proof. destruct l; [done|left]. Qed.
Lemma demo_ok_sent : exists d, d ∈ new_sends (snd demo_two) (snd demo_three) /\
  m_message (pstop_message_decode (snd (fst d))) = 85.
Proof.
  eexists (hd (0, [], mk_sockaddr 0 0) _). split; [apply hd_elem; vm_compute; discriminate|].
  vm_compute. reflexivity.
Qed.
Lemma demo_ok_sent_of : exists d,
  d ∈ new_sends (snd demo_two) (snd (tick_of both_closed (demo_tick 300) demo_two)) /\
  m_message (pstop_message_decode (snd (fst d))) = 85.
Proof.
  eexists (hd (0, [], mk_sockaddr 0 0) _). split; [apply hd_elem; vm_compute; discriminate|].
  vm_compute. reflexivity.
Qed.
Definition demo_reads : list ((Z * Z) * (Z * Z)) :=
  fst (lockstep_run both_closed [demo_tick 100; demo_tick 200] demo_boot).
Lemma demo_run_eq :
  lockstep_run both_closed [demo_tick 100; demo_tick 200] demo_boot = (demo_reads, demo_two).
Proof. exact (surjective_pairing _). Qed.

Example ok_on_wire_needs_three_closed_witness :
  (3 <= trailing raw_closed (channel_reads 1 (demo_reads ++
        [tick_reads both_closed demo_cfg (fun _ => demo_cfg) 300 (fst demo_two) (snd demo_two)])))%nat.
Proof.
  destruct demo_ok_sent_of as (d & Hd & Hm).
  pose proof (@ok_on_wire_needs_three_closed wire_lib sim_os sim_gpio sim_sockets wire_laws
                both_closed [demo_tick 100; demo_tick 200] (demo_tick 300) demo_boot d
                demo_boot_wf) as P.
  rewrite demo_run_eq in P.
  refine (P _ Hd Hm 1%nat _); [apply two_channels; vm_compute; reflexivity|].
  unfold ESTOP_CHANNELS. lia.
Defined.

Example transmission_requires_agreement_witness :
  estop_channels_primed (estop_at (snd (fst demo_three)) 0) (estop_at (snd (fst demo_three)) 1)
    = true.
Proof.
  destruct demo_ok_sent as (d & Hd & Hm).
  destruct demo_three as [[ev l'] w'] eqn:E.
  exact (proj1 (proj2 (@transmission_requires_agreement wire_lib sim_os sim_gpio sim_sockets
    wire_laws both_closed demo_cfg (fun _ => demo_cfg) 300 0 (fst demo_two) (snd demo_two)
    ev l' w' d demo_two_wf E Hd))).
Defined.

(** The same tick with channel 1's sampler late. *)
Example tick_outcomes_witness :
  let '(ev, l', w') := tick_sync both_closed demo_cfg (fun _ => demo_cfg) 300 2
                         (fst demo_two) (snd demo_two) in
  lockstep_wf l' /\ missed_deadlines l' = 1.
Proof.
  destruct (tick_sync both_closed demo_cfg (fun _ => demo_cfg) 300 2
              (fst demo_two) (snd demo_two)) as [[ev l'] w'] eqn:E.
  destruct (tick_outcomes _ _ _ _ _ _ _ _ _ _ demo_two_wf E) as (Hwf & o & Hc & _ & Hm & _).
  split; [exact Hwf|]. rewrite (proj1 Hm) in Hc by discriminate.
  apply (f_equal (fun c => fst (fst c))) in Hc. cbn [counters fst] in Hc. rewrite Hc.
  vm_compute. reflexivity.
Defined.

(** The role flips between the two passes. *)
Definition flipped (c : nat) : app_settings :=
  demo_cfg <| is_operator := (c =? 0)%nat |>.
Example agreement_transmits_witness :
  let '(ev, l', w') := tick_sync both_closed demo_cfg flipped 300 0
                         (fst demo_two) (snd demo_two) in
  length (new_sends (snd demo_two) w') = 1%nat /\ counters l' = counters (fst demo_two).
Proof.
  destruct (tick_sync both_closed demo_cfg flipped 300 0
              (fst demo_two) (snd demo_two)) as [[ev l'] w'] eqn:E.
  assert (l' = snd (fst (tick_sync both_closed demo_cfg flipped 300 0
                           (fst demo_two) (snd demo_two)))) as El by (rewrite E; reflexivity).
  destruct (agreement_transmits _ _ _ _ _ _ _ _ _ demo_two_wf E) as [Hs Hc].
  - rewrite El. vm_compute. reflexivity.
  - rewrite El. vm_compute. reflexivity.
  - reflexivity.
  - split; [|exact Hc]. rewrite Hs, length_map. vm_compute. reflexivity.
Defined.

(** Pole B opens while the loop of channel 0 still reads closed. *)
Definition demo_four : lockstep * @net sim_os :=
  snd (lockstep_run both_closed [demo_tick 100; demo_tick 200; demo_tick 300] demo_boot).
#[local] Abbreviation demo_split :=
  (tick_sync (Some [true; false]) demo_cfg (fun _ => demo_cfg) 700 0 (fst demo_four) (snd demo_four)).
Example mismatch_attributed_witness :
  let '(ev, l', w') := demo_split in verdict_at l' 0 <> verdict_at l' 1.
Proof.
  assert (lockstep_wf (fst demo_four)) as Hwf
    by (apply lockstep_wf_intro; vm_compute; reflexivity).
  assert (mismatches (snd (fst demo_split)) <> mismatches (fst demo_four)) as Hm
    by (vm_compute; discriminate).
  destruct demo_split as [[ev l'] w'] eqn:E.
  exact (proj1 (proj2 (mismatch_attributed (PL := wire_laws) _ _ _ _ _ _ _ _ _ _ Hwf E Hm))
           eq_refl).
Defined.

Example rebond_request_consumed_witness :
  let '(ret, lr) := request_rebond 1 (fst demo_two) in
  let '(gen, l1, w1) := begin_tick demo_cfg 300 lr (snd demo_two) in
  session_at l1 1 = pstop_session_rebond (session_at (fst demo_two) 1) /\ ret = 0.
Proof.
  destruct (request_rebond 1 (fst demo_two)) as [ret lr] eqn:Er.
  destruct (begin_tick demo_cfg 300 lr (snd demo_two)) as [[gen l1] w1] eqn:Eb.
  destruct (rebond_request_consumed _ _ _ _ _ _ _ _ _ _ demo_two_wf Er Eb) as (Hr & _ & Hs & _).
  assert (ret = 0) as Hret by (apply Hr; unfold PSTOP_MAX_MACHINES; lia).
  split; [|exact Hret]. apply Hs; [exact Hret|vm_compute; reflexivity..].
Defined.

Example reconfigure_applies_witness :
  let '(ret, lr) := request_reconfigure 1 (fst demo_two) in
  let '(gen, l1, w1) := begin_tick (zero_settings 5) 300 lr (snd demo_two) in
  active (fst demo_two) 1 = true /\ active l1 1 = false.
Proof.
  destruct (request_reconfigure 1 (fst demo_two)) as [ret lr] eqn:Er.
  destruct (begin_tick (zero_settings 5) 300 lr (snd demo_two)) as [[gen l1] w1] eqn:Eb.
  assert (ret = 0) as -> by (vm_compute in Er; injection Er as <- _; reflexivity).
  split; [vm_compute; reflexivity|].
  exact (proj1 (reconfigure_applies (zero_settings 5) 300 1 (fst demo_two) lr (snd demo_two)
                  gen l1 w1 demo_two_wf Er Eb)).
Defined.
