(* ===== verification/Threads.v ===== *)
(** The comparator's threads: [sampler_thread], [comparator_thread] and
    [pstop_lockstep_start] of lockstep.c, as an interleaving of atomic steps.

    [Lockstep.v] models what the threads compute; this file models when.  A
    state holds the statics, the machine, the four binary semaphores and each
    thread's program counter; an [action] names the thread that moves next, or
    a request, or a change of the machine by its environment, and [step] is
    what it does, [None] if that thread is blocked.  The grain is one access
    to a semaphore or to the generation, or one slot of one loop, so a pass
    that overruns its tick interleaves with the next one.

    The theorems: a frame leaves only after both channels encoded it for the
    tick in flight ([threads_send_agreed]), as long as no [go] of an earlier
    tick was pending when the generation was minted; with the samplers at a
    higher priority on one processor none ever is ([priority_never_overruns]);
    without that, a sampler that overruns a whole tick can run twice under one
    generation and let one channel's OK out ([overrun_sends_one_channel_ok]);
    undisturbed, a threaded tick computes what [tick_sync] does
    ([threaded_tick_is_tick_sync]); and no sampler can hang the comparator
    ([comparator_never_hangs]). *)

From S2P Require Import Prelude Platform Verdict AppSettings Session Lockstep.
#[local] Open Scope Z_scope.

(** ** Kernel semaphores with a limit of one, K_SEM_DEFINE(name, 0, 1) *)
Definition k_sem_give (n : nat) : nat := Nat.min (S n) 1.
Definition k_sem_reset (n : nat) : nat := 0.

(** Where a sampler thread is in its loop. *)
Inductive sampler_pc :=
| SWait                                    (* k_sem_take(go_sem[channel], K_FOREVER) *)
| SGen                                     (* atomic_get(&tick_gen) *)
| SSample (gen : Z)                        (* sampler_pass: estop_channel_sample *)
| SBuild (gen verdict : Z) (ss : list nat) (* its slot loop, then sampler_done_ms *)
| SPublish (gen : Z)                       (* atomic_set(&sampler_gen[channel], gen) *)
| SGive.                                   (* k_sem_give(done_sem[channel]) *)

(** The comparator loop's locals. *)
Record tick := mk_tick {
  tk_now : Z;          (* now_ms *)
  tk_gen : Z;
  tk_late : Z;         (* late_mask *)
  tk_late_by : Z;
}.
#[export] Instance eta_tick : Eta tick := fun t =>
  mk_tick (tk_now t) (tk_gen t) (tk_late t) (tk_late_by t).
Definition deadline (t : tick) : Z := tk_now t + PSTOP_SAMPLER_DEADLINE_MS.

(** Where the comparator thread is: the lists are what is left of a loop over
    the channels or the slots. *)
Inductive comparator_pc :=
| CTop                                (* next += PSTOP_TICK_MS; now_ms = k_uptime_get() *)
| CSnapshot (now : Z)                 (* begin_tick, up to the atomic_add *)
| CMint (now : Z)                     (* begin_tick's atomic_add *)
| CReset (t : tick) (cs : list nat)   (* k_sem_reset(done_sem[c]) *)
| CGo (t : tick) (cs : list nat)      (* k_sem_give(go_sem[c]) *)
| CTake (t : tick) (cs : list nat)    (* k_sem_take(done_sem[c], deadline) *)
| CLate (t : tick)                    (* late_by_ms *)
| CScan (t : tick)                    (* run_tick_body: the loop over sampler_gen *)
| CChoose (t : tick)                  (* its if, and the missed branch *)
| CPrimed (t : tick)                  (* comparator_pass: the priming gate *)
| CCompare (t : tick) (ss : list nat) (* its memcmp loop *)
| CCommit (t : tick) (ss : list nat)  (* its commit_send loop *)
| CObserve (t : tick)                 (* tick_observer *)
| CService (t : tick) (ss : list nat) (* poll and watchdog *)
| CSleep.                             (* k_sleep(K_TIMEOUT_ABS_MS(next)) *)

Section Threads.
Context `{!PstopLib} `{Gpio} `{!Sockets}.

(** The threads' state.  The last three fields are history the code does not
    keep: each channel's loop reads, the number of generations minted, and
    whether, at the last one, a [go] of an earlier tick was still pending on
    the channel or taken without its generation read yet. *)
Record threads := mk_threads {
  th_lock : lockstep;
  th_net : net;
  go_sem : list nat;
  done_sem : list nat;
  th_sampler : list sampler_pc;
  th_comparator : comparator_pc;
  th_next : Z;
  th_observed : list (Z * Z * Z);      (* the tick_observer calls *)
  th_reads : list (list (Z * Z));
  th_ticks : Z;
  th_overrun : list bool;
}.
#[local] Instance eta_threads : Eta threads := fun s =>
  mk_threads (th_lock s) (th_net s) (go_sem s) (done_sem s) (th_sampler s) (th_comparator s)
    (th_next s) (th_observed s) (th_reads s) (th_ticks s) (th_overrun s).

Inductive action :=
| Sampler (c : nat) (poles : sim_poles) (cfg : app_settings)
| Comparator (cfg : app_settings)
| Rebond (slot : Z)
| Reconfigure (slot : Z)
| Environment (f : os -> os).

(** [pstop_lockstep_start], from the statics [pstop_lockstep_init] leaves. *)
Definition pstop_lockstep_start (l : lockstep) (w : net) : threads :=
  let '(t, w) := on_machine k_uptime_get w in
  mk_threads l w (replicate ESTOP_CHANNELS 0%nat) (replicate ESTOP_CHANNELS 0%nat)
    (replicate ESTOP_CHANNELS SWait) CTop t [] (replicate ESTOP_CHANNELS []) 0
    (replicate ESTOP_CHANNELS false).

Definition go_at (s : threads) (c : nat) : nat := go_sem s !!! c.
Definition done_at (s : threads) (c : nat) : nat := done_sem s !!! c.
Definition sampler_at (s : threads) (c : nat) : sampler_pc := default SWait (th_sampler s !! c).
Definition reads_at (s : threads) (c : nat) : list (Z * Z) := th_reads s !!! c.
Definition overrun_at (s : threads) (c : nat) : bool := default false (th_overrun s !! c).
Definition goto_sampler (c : nat) (pc : sampler_pc) (s : threads) : threads :=
  s <| th_sampler ::= <[c := pc]> |>.
Definition goto (pc : comparator_pc) (s : threads) : threads := s <| th_comparator := pc |>.

(** The uptime the kernel's timeouts compare with. *)
Definition uptime (s : threads) : Z := fst (k_uptime_get (machine (th_net s))).

(** ** The sampler thread *)
Definition sampler_step (c : nat) (poles : sim_poles) (cfg : app_settings) (s : threads)
  : option threads :=
  let l := th_lock s in
  match sampler_at s c with
  | SWait =>
      if (go_at s c =? 0)%nat then None
      else Some (goto_sampler c SGen (s <| go_sem ::= alter pred c |>))
  | SGen => Some (goto_sampler c (SSample (tick_gen l)) s)
  | SSample gen =>
      let '(r, w) := on_machine (fun o =>
        let '(v, e, o') := estop_channel_sample poles c (estop_at l c) o in
        ((v, e), o')) (th_net s) in
      Some (goto_sampler c (SBuild gen (fst r) slots)
        (s <| th_lock := l <| estop ::= <[c := snd r]> |> <| sampler_verdict ::= <[c := fst r]> |> |>
           <| th_net := w |>
           <| th_reads ::= alter (fun rs =>
                rs ++ [fst (estop_read_phases poles c (machine (th_net s)))]) c |>))
  | SBuild gen v (slot :: ss) =>
      Some (goto_sampler c (SBuild gen v ss)
        (s <| th_lock := build_slot (app_settings_effective_device_id cfg) v c l slot |>))
  | SBuild gen v [] =>
      let '(t, w) := on_machine k_uptime_get (th_net s) in
      Some (goto_sampler c (SPublish gen)
        (s <| th_lock := l <| sampler_done_ms ::= <[c := u32 t]> |> |> <| th_net := w |>))
  | SPublish gen =>
      Some (goto_sampler c SGive (s <| th_lock := l <| sampler_gen ::= <[c := gen]> |> |>))
  | SGive => Some (goto_sampler c SWait (s <| done_sem ::= alter k_sem_give c |>))
  end.

(** ** The comparator thread *)

(** [begin_tick] in its two steps: the snapshot, and the atomic_add that
    publishes it. *)
Definition snapshot_tick (cfg : app_settings) (now_ms : Z) (l : lockstep) (w : net)
  : lockstep * net :=
  let reconfigure := reconfigure_requests l in
  let rebond := rebond_requests l in
  let l := l <| reconfigure_requests := 0 |> <| rebond_requests := 0 |> in
  let '(l, w) := foldl (reconfigure_slot cfg reconfigure) (l, w) slots in
  let l := foldl (rebond_slot rebond) l slots in
  let l := l <| tick_now_ms := now_ms |>
             <| tick_role := if is_operator cfg then PSTOP_AUX_ROLE_OPERATOR
                             else PSTOP_AUX_ROLE_STOP_ONLY |> in
  (l <| tick_due := map (fun slot =>
       active l slot && pstop_session_due (session_at l slot) now_ms) slots |>, w).
Definition mint_gen (l : lockstep) : Z * lockstep :=
  let gen := u32 (tick_gen l + 1) in (gen, l <| tick_gen := gen |>).

(** A [go] of an earlier tick this channel has still to act on. *)
Definition go_left (s : threads) (c : nat) : bool :=
  negb (go_at s c =? 0)%nat ||
  match sampler_at s c with SGen => true | _ => false end.

(** One turn of the wait for a sampler: a pending give is taken, whatever the
    time; with none the take fails once the deadline has passed. *)
Definition take_done (t : tick) (c : nat) (cs : list nat) (s : threads) : option threads :=
  if (done_at s c =? 0)%nat then
    if deadline t <=? uptime s
    then Some (goto (CTake (t <| tk_late ::= fun m => Z.lor m (BIT c) |>) cs) s)
    else None
  else
    let s := s <| done_sem ::= alter pred c |> in
    Some (goto (CTake t cs)
      (s <| th_lock ::= fun l =>
           record_latency c (u32 (sampler_done_ms l !!! c - u32 (tk_now t))) l |>)).

(** A slot of the comparing loop. *)
Definition compare_slot (t : tick) (slot : nat) (ss : list nat) (s : threads) : threads :=
  let l := th_lock s in
  if due_slot l slot && bool_decide (frame l 0 slot <> frame l 1 slot) then
    let '(l, w) := record_mismatch slot l (th_net s) in
    goto (CObserve t)
      (s <| th_lock := l <| mismatches ::= fun n => u32 (n + 1) |> |> <| th_net := w |>)
  else goto (CCompare t ss) s.

(** Run a step of the statics and the machine. *)
Definition on_statics (f : lockstep * net -> lockstep * net) (s : threads) : threads :=
  let '(l, w) := f (th_lock s, th_net s) in s <| th_lock := l |> <| th_net := w |>.

Definition comparator_step (cfg : app_settings) (s : threads) : option threads :=
  let l := th_lock s in
  match th_comparator s with
  | CTop =>
      let '(t, w) := on_machine k_uptime_get (th_net s) in
      Some (goto (CSnapshot (u64 t)) (s <| th_next ::= Z.add PSTOP_TICK_MS |> <| th_net := w |>))
  | CSnapshot now =>
      Some (goto (CMint now) (on_statics (fun lw => snapshot_tick cfg now (fst lw) (snd lw)) s))
  | CMint now =>
      let '(gen, l) := mint_gen l in
      Some (goto (CReset (mk_tick now gen 0 0) channels)
        (s <| th_lock := l |> <| th_ticks ::= Z.succ |>
           <| th_overrun := map (go_left s) channels |>))
  | CReset t (c :: cs) => Some (goto (CReset t cs) (s <| done_sem ::= alter k_sem_reset c |>))
  | CReset t [] => Some (goto (CGo t channels) s)
  | CGo t (c :: cs) => Some (goto (CGo t cs) (s <| go_sem ::= alter k_sem_give c |>))
  | CGo t [] => Some (goto (CTake t channels) s)
  | CTake t (c :: cs) => take_done t c cs s
  | CTake t [] => Some (goto (if tk_late t =? 0 then CScan t else CLate t) s)
  | CLate t =>
      let '(now, w) := on_machine k_uptime_get (th_net s) in
      let over := now - deadline t in
      Some (goto (CScan (t <| tk_late_by := if 0 <? over then u32 over else 0 |>))
                 (s <| th_net := w |>))
  | CScan t => Some (goto (CChoose (t <| tk_late ::= fun m => late_samplers (tk_gen t) m l |>)) s)
  | CChoose t =>
      if (tk_late t =? 0) && samplers_published (tk_gen t) l then Some (goto (CPrimed t) s)
      else Some (goto (CService t slots) (on_statics (fun lw =>
             record_late (tk_late t) (tk_late_by t)
               ((fst lw) <| missed_deadlines ::= fun n => u32 (n + 1) |>) (snd lw)) s))
  | CPrimed t =>
      Some (if primed l then goto (CCompare t slots) s
            else goto (CObserve t)
                   (s <| th_lock := l <| gated_ticks ::= fun n => u32 (n + 1) |> |>))
  | CCompare t (slot :: ss) => Some (compare_slot t slot ss s)
  | CCompare t [] => Some (goto (CCommit t slots) s)
  | CCommit t (slot :: ss) =>
      Some (goto (CCommit t ss) (on_statics (fun lw => commit_slot lw slot) s))
  | CCommit t [] => Some (goto (CObserve t) s)
  | CObserve t =>
      Some (goto (CService t slots)
        (if primed l
         then s <| th_observed ::= fun os => os ++ [(tk_gen t, verdict_at l 0, verdict_at l 1)] |>
         else s))
  | CService t (slot :: ss) =>
      Some (goto (CService t ss) (on_statics (fun lw => service_slot (tk_now t) lw slot) s))
  | CService t [] => Some (goto CSleep s)
  | CSleep => if th_next s <=? uptime s then Some (goto CTop s) else None
  end.

(** ** The system *)
Definition step (a : action) (s : threads) : option threads :=
  match a with
  | Sampler c poles cfg => if (c <? ESTOP_CHANNELS)%nat then sampler_step c poles cfg s else None
  | Comparator cfg => comparator_step cfg s
  | Rebond slot => Some (s <| th_lock ::= fun l => snd (request_rebond slot l) |>)
  | Reconfigure slot => Some (s <| th_lock ::= fun l => snd (request_reconfigure slot l) |>)
  | Environment f => Some (s <| th_net ::= fun w => w <| machine ::= f |> |>)
  end.

Fixpoint run (acts : list action) (s : threads) : option threads :=
  match acts with
  | [] => Some s
  | a :: acts => match step a s with Some s' => run acts s' | None => None end
  end.

(** One processor, the samplers above the comparator: it moves only when both
    are blocked.  Its timeouts are the kernel's and expire whoever runs. *)
Definition blocked (s : threads) (c : nat) : bool :=
  match sampler_at s c with SWait => (go_at s c =? 0)%nat | _ => false end.
Definition expiring (s : threads) : bool :=
  match th_comparator s with
  | CTake _ (c :: _) => (done_at s c =? 0)%nat
  | CSleep => true
  | _ => false
  end.
Definition by_priority (a : action) (s : threads) : bool :=
  match a with Comparator _ => expiring s || forallb (blocked s) channels | _ => true end.
Fixpoint priority_run (acts : list action) (s : threads) : option threads :=
  match acts with
  | [] => Some s
  | a :: acts =>
      if by_priority a s
      then match step a s with Some s' => priority_run acts s' | None => None end
      else None
  end.
End Threads.
#[export] Existing Instance eta_threads.

(** * Specification *)

Section Spec.
Context `{!PstopLib} `{Gpio} `{!Sockets}.

(** The firmware from power-on: [pstop_lockstep_init], then
    [pstop_lockstep_start]. *)
Definition boot_threads (cfg : app_settings) (w : net) : threads :=
  let '(l, w) := pstop_lockstep_init cfg lockstep_zero w in pstop_lockstep_start l w.

(** The generation a sampler's pass is for. *)
Definition pc_gen (pc : sampler_pc) : option Z :=
  match pc with SSample g | SBuild g _ _ | SPublish g => Some g | _ => None end.

(** The tick the comparator is in, from its mint to its end. *)
Definition tick_in (pc : comparator_pc) : option tick :=
  match pc with
  | CReset t _ | CGo t _ | CTake t _ | CLate t | CScan t | CChoose t | CPrimed t
  | CCompare t _ | CCommit t _ | CObserve t | CService t _ => Some t
  | CTop | CSnapshot _ | CMint _ | CSleep => None
  end.

(** The slots whose session is still the one the tick's frames encode. *)
Definition unsent (pc : comparator_pc) : list nat :=
  match pc with
  | CReset _ _ | CGo _ _ | CTake _ _ | CLate _ | CScan _ | CChoose _ | CPrimed _
  | CCompare _ _ => slots
  | CCommit _ ss => ss
  | _ => []
  end.

(** Channel [c]'s frames encode verdict [v] for the tick's due slots among
    [us], those still to be built ([ss]) apart. *)
Definition built (us : list nat) (l : lockstep) (c : nat) (v : Z) (ss : list nat) : Prop :=
  forall slot, slot ∈ us -> slot ∉ ss -> due_slot l slot = true ->
    exists me, frame l c slot = encoding l me v slot.

(** Nothing on channel [c] belongs to the current generation. *)
Definition untouched (s : threads) (c : nat) : Prop :=
  sampler_at s c <> SGen /\ pc_gen (sampler_at s c) <> Some (tick_gen (th_lock s)) /\
  gen_at (th_lock s) c <> tick_gen (th_lock s).

(** A pass for the current generation, and what it has written so far. *)
Definition passing (us : list nat) (s : threads) (c : nat) : Prop :=
  let l := th_lock s in
  match sampler_at s c with
  | SSample _ => True
  | SBuild _ v ss => verdict_at l c = v /\ built us l c v ss /\ reads_at s c <> []
  | SPublish _ => built us l c (verdict_at l c) [] /\ reads_at s c <> []
  | _ => False
  end.

(** The pass is over and no other can start. *)
Definition published (us : list nat) (s : threads) (c : nat) : Prop :=
  let l := th_lock s in
  go_at s c = 0%nat /\ (sampler_at s c = SWait \/ sampler_at s c = SGive) /\
  gen_at l c = tick_gen l /\ built us l c (verdict_at l c) [] /\ reads_at s c <> [].

(** How far channel [c] is with the tick it was given. *)
Inductive progress (us : list nat) (s : threads) (c : nat) : Prop :=
| given : go_at s c = 1%nat -> untouched s c -> progress us s c
| taken : go_at s c = 0%nat -> sampler_at s c = SGen ->
    gen_at (th_lock s) c <> tick_gen (th_lock s) -> progress us s c
| in_pass : go_at s c = 0%nat -> pc_gen (sampler_at s c) = Some (tick_gen (th_lock s)) ->
    gen_at (th_lock s) c <> tick_gen (th_lock s) -> passing us s c -> progress us s c
| done_pass : published us s c -> progress us s c.

(** What holds of a channel not overrun at the mint, by the comparator's
    position. *)
Definition stage (s : threads) (c : nat) : Prop :=
  match th_comparator s with
  | CReset _ _ => go_at s c = 0%nat /\ untouched s c
  | CGo _ cs => if decide (c ∈ cs) then go_at s c = 0%nat /\ untouched s c
                else progress slots s c
  | CTake _ _ | CLate _ | CScan _ | CChoose _ => progress slots s c
  | CPrimed _ | CCompare _ _ => published slots s c
  | CCommit _ ss => published ss s c
  | _ => True
  end.

(** What the comparator has established when both channels hold still. *)
Definition agreed (s : threads) : Prop :=
  let l := th_lock s in
  match th_comparator s with
  | CCompare _ ss => primed l = true /\ forall slot, slot ∈ slots -> slot ∉ ss ->
      due_slot l slot = true -> frame l 0 slot = frame l 1 slot
  | CCommit _ ss => primed l = true /\ forall slot, slot ∈ ss ->
      due_slot l slot = true -> frame l 0 slot = frame l 1 slot
  | _ => True
  end.

(** A channel's state is the pure core's over its own reads. *)
Definition tracks (s : threads) (c : nat) : Prop :=
  estop_at (th_lock s) c = snd (estop_run (Z.of_nat c) estop_state_init (reads_at s c)) /\
  (reads_at s c <> [] ->
     verdict_at (th_lock s) c = if (3 <=? trailing raw_closed (reads_at s c))%nat
                                then PSTOP_MESSAGE_OK else PSTOP_MESSAGE_STOP).

(** Generations never run ahead of the last one minted. *)
Definition gen_bounded (s : threads) (c : nat) : Prop :=
  0 <= gen_at (th_lock s) c <= tick_gen (th_lock s) /\
  match pc_gen (sampler_at s c) with
  | Some g => 0 <= g <= tick_gen (th_lock s)
  | None => True
  end.

Record threads_inv (s : threads) : Prop := {
  iv_wf : lockstep_wf (th_lock s);
  iv_go : length (go_sem s) = ESTOP_CHANNELS;
  iv_sampler : length (th_sampler s) = ESTOP_CHANNELS;
  iv_reads : length (th_reads s) = ESTOP_CHANNELS;
  iv_ticks : 0 <= th_ticks s;
  iv_tick : match tick_in (th_comparator s) with
            | Some t => tk_gen t = tick_gen (th_lock s)
            | None => True
            end;
  iv_unsent : NoDup (unsent (th_comparator s)) /\ Forall (.∈ slots) (unsent (th_comparator s));
  iv_cs : match th_comparator s with CGo _ cs => NoDup cs | _ => True end;
  iv_build : forall c, (c < ESTOP_CHANNELS)%nat ->
    match sampler_at s c with SBuild _ _ ss => Forall (.∈ slots) ss | _ => True end;
  iv_tracks : forall c, (c < ESTOP_CHANNELS)%nat -> tracks s c;
  iv_gen : th_ticks s < 2 ^ 32 -> tick_gen (th_lock s) = th_ticks s;
  iv_bounded : th_ticks s < 2 ^ 32 -> forall c, (c < ESTOP_CHANNELS)%nat -> gen_bounded s c;
  iv_stage : th_ticks s < 2 ^ 32 -> forall c, (c < ESTOP_CHANNELS)%nat ->
    overrun_at s c = false -> stage s c;
  iv_agreed : th_ticks s < 2 ^ 32 ->
    (forall c, (c < ESTOP_CHANNELS)%nat -> overrun_at s c = false) -> agreed s;
}.
End Spec.

(** * Lemmas *)

Section Frame.
Context `{!PstopLib} `{Gpio} `{!Sockets}.

(** What a channel's stage reads of the statics the comparator writes. *)
Record same_inputs (us : list nat) (l l' : lockstep) : Prop := {
  si_session : forall slot, slot ∈ us -> session_at l' slot = session_at l slot;
  si_due : forall slot, slot ∈ us -> due_slot l' slot = due_slot l slot;
  si_role : tick_role l' = tick_role l;
  si_now : tick_now_ms l' = tick_now_ms l;
  si_gen : tick_gen l' = tick_gen l;
}.

(** What it reads of its own channel. *)
Record same_channel (s s' : threads) (c : nat) : Prop := {
  sc_go : go_at s' c = go_at s c;
  sc_pc : sampler_at s' c = sampler_at s c;
  sc_gen : gen_at (th_lock s') c = gen_at (th_lock s) c;
  sc_verdict : verdict_at (th_lock s') c = verdict_at (th_lock s) c;
  sc_estop : estop_at (th_lock s') c = estop_at (th_lock s) c;
  sc_frames : frames (th_lock s') !!! c = frames (th_lock s) !!! c;
  sc_reads : reads_at s' c = reads_at s c;
}.

Lemma encoding_same us l l' me v slot : same_inputs us l l' -> slot ∈ us ->
  encoding l' me v slot = encoding l me v slot.
Proof. intros [Hs _ Hr Hn _] Hin. unfold encoding. by rewrite Hs, Hr, Hn. Qed.

Lemma built_same us us' l l' c v ss :
  us' ⊆ us -> same_inputs us' l l' -> frames l' !!! c = frames l !!! c ->
  built us l c v ss -> built us' l' c v ss.
Proof.
  intros Hus Hi Hf Hb slot Hin Hn Hd. unfold frame. rewrite Hf.
  rewrite (si_due _ _ _ Hi) in Hd by done.
  destruct (Hb slot (Hus _ Hin) Hn Hd) as [me Hme]. exists me.
  by rewrite (encoding_same us' l l').
Qed.

Lemma untouched_same us s s' c : same_inputs us (th_lock s) (th_lock s') ->
  same_channel s s' c -> untouched s c -> untouched s' c.
Proof. intros [_ _ _ _ Hg] [] []. unfold untouched. by rewrite sc_pc0, sc_gen0, Hg. Qed.

Lemma published_same us us' s s' c :
  us' ⊆ us -> same_inputs us' (th_lock s) (th_lock s') -> same_channel s s' c ->
  published us s c -> published us' s' c.
Proof.
  intros Hus Hi Hc (Hgo & Hpc & Hg & Hb & Hr). pose proof Hc as [].
  unfold published. rewrite sc_go0, sc_pc0, sc_gen0, (si_gen _ _ _ Hi), sc_verdict0, sc_reads0.
  do 3 (split; [done|]). split; [|done]. by apply (built_same us us' (th_lock s)).
Qed.

Lemma passing_same us us' s s' c :
  us' ⊆ us -> same_inputs us' (th_lock s) (th_lock s') -> same_channel s s' c ->
  passing us s c -> passing us' s' c.
Proof.
  intros Hus Hi [] Hp. unfold passing in *. rewrite sc_pc0, sc_verdict0, sc_reads0.
  destruct (sampler_at s c); try done; destruct_and!; split_and?; try done;
    by apply (built_same us us' (th_lock s)).
Qed.

Lemma progress_same us us' s s' c :
  us' ⊆ us -> same_inputs us' (th_lock s) (th_lock s') -> same_channel s s' c ->
  progress us s c -> progress us' s' c.
Proof.
  intros Hus Hi Hc. pose proof Hc as []. pose proof (si_gen _ _ _ Hi) as Hg. intros [Ha Hu|Ha Hp Hn|Ha Hp Hn Hx|Hx].
  - apply given; [congruence|]. by apply (untouched_same us' s).
  - apply taken; congruence.
  - apply in_pass; try congruence. by apply (passing_same us us' s).
  - apply done_pass. by apply (published_same us us' s).
Qed.

Lemma tracks_same s s' c : same_channel s s' c -> tracks s c -> tracks s' c.
Proof. intros [] Ht. unfold tracks in *. by rewrite sc_estop0, sc_reads0, sc_verdict0. Qed.

Lemma gen_bounded_same us s s' c : same_inputs us (th_lock s) (th_lock s') ->
  same_channel s s' c -> gen_bounded s c -> gen_bounded s' c.
Proof. intros [_ _ _ _ Hg] [] Hb. unfold gen_bounded in *. by rewrite sc_gen0, sc_pc0, Hg. Qed.

(** A published channel leaves its sampler nothing to run before the next [go]. *)
Lemma progress_published us s c :
  progress us s c -> gen_at (th_lock s) c = tick_gen (th_lock s) -> published us s c.
Proof. intros [? (_ & _ & ?)| | |] Hg; done. Qed.

Lemma stage_same s s' c :
  th_comparator s' = th_comparator s ->
  same_inputs (unsent (th_comparator s)) (th_lock s) (th_lock s') -> same_channel s s' c ->
  stage s c -> stage s' c.
Proof.
  intros Ec Hi Hc. pose proof (sc_go _ _ _ Hc) as Hgo.
  unfold stage. rewrite Ec, Hgo. destruct (th_comparator s); cbn [unsent] in Hi; try done;
    try (intros [? ?]; split; [done|by eapply untouched_same]);
    try by apply published_same; try by apply progress_same.
  1: case_decide; [intros [? ?]; split; [done|by eapply untouched_same]|].
  all: by apply progress_same.
Qed.
End Frame.

(** The two channels, one by one. *)
Ltac by_channel c Hc :=
  destruct c as [|[|c]]; [| |exfalso; unfold ESTOP_CHANNELS in Hc; lia].

Section SamplerSteps.
Context `{!PstopLib} `{Gpio} `{!Sockets}.

Lemma sampler_at_goto s c pc c' : length (th_sampler s) = ESTOP_CHANNELS ->
  (c < ESTOP_CHANNELS)%nat ->
  sampler_at (goto_sampler c pc s) c' = if decide (c = c') then pc else sampler_at s c'.
Proof.
  intros Hl Hc. unfold sampler_at, goto_sampler. cbn. case_decide as E.
  - subst c'. by rewrite list_lookup_insert_eq by lia.
  - by rewrite list_lookup_insert_ne.
Qed.

(** A sampler's step, seen from the comparator and from the other channel. *)
Record other_kept (c : nat) (s s' : threads) : Prop := {
  ok_comparator : th_comparator s' = th_comparator s;
  ok_ticks : th_ticks s' = th_ticks s;
  ok_overrun : th_overrun s' = th_overrun s;
  ok_next : th_next s' = th_next s;
  ok_observed : th_observed s' = th_observed s;
  ok_counters : counters (th_lock s') = counters (th_lock s);
  ok_inputs : forall us, same_inputs us (th_lock s) (th_lock s');
  ok_other : forall c', c' <> c -> same_channel s s' c';
  ok_wf : lockstep_wf (th_lock s) -> lockstep_wf (th_lock s');
  ok_lengths : length (go_sem s') = length (go_sem s) /\
    length (th_sampler s') = length (th_sampler s) /\ length (th_reads s') = length (th_reads s);
  ok_sent : sent_log (th_net s') = sent_log (th_net s);
}.

Lemma other_kept_intro c s s' l' go' pc w' rs' ds :
  length (th_sampler s) = ESTOP_CHANNELS -> (c < ESTOP_CHANNELS)%nat ->
  s' = goto_sampler c pc (s <| th_lock := l' |> <| th_net := w' |> <| go_sem := go' |>
         <| th_reads := rs' |> <| done_sem := ds |>) ->
  counters l' = counters (th_lock s) -> (forall us, same_inputs us (th_lock s) l') ->
  (lockstep_wf (th_lock s) -> lockstep_wf l') -> sent_log w' = sent_log (th_net s) ->
  length go' = length (go_sem s) -> length rs' = length (th_reads s) ->
  (forall c', c' <> c -> go' !!! c' = go_at s c' /\ gen_at l' c' = gen_at (th_lock s) c' /\
     verdict_at l' c' = verdict_at (th_lock s) c' /\ estop_at l' c' = estop_at (th_lock s) c' /\
     frames l' !!! c' = frames (th_lock s) !!! c' /\ rs' !!! c' = reads_at s c') ->
  other_kept c s s'.
Proof.
  intros Hl Hc -> Hcnt Hi Hwf Hw Hgo Hrs Ho. split; try done.
  - intros c' Hne. destruct (Ho c' Hne) as (? & ? & ? & ? & ? & ?). split; try done.
    unfold sampler_at, goto_sampler. cbn. by rewrite list_lookup_insert_ne.
  - split_and?; try done. cbn. by rewrite length_insert.
Qed.

Lemma same_inputs_refl us l : same_inputs us l l.
Proof. by split. Qed.

(** The other row of the frames is not a build's to write. *)
Lemma build_slot_row me v c l slot c' : c' <> c ->
  frames (build_slot me v c l slot) !!! c' = frames l !!! c'.
Proof.
  intros Hne. unfold build_slot. destruct (due_slot l slot); [|done]. cbn.
  by rewrite list_lookup_total_alter_ne.
Qed.

Lemma build_slot_spec me v c l slot : lockstep_wf l -> (c < ESTOP_CHANNELS)%nat ->
  slot ∈ slots ->
  let l' := build_slot me v c l slot in
  l' = l <| frames := frames l' |> /\ lockstep_wf l' /\
  forall slot', slot' ∈ slots ->
    frame l' c slot' = if decide (slot = slot' /\ due_slot l slot' = true)
                       then encoding l me v slot' else frame l c slot'.
Proof.
  intros Hwf Hc Hs. apply list_elem_of_In, in_seq in Hs.
  destruct (build_fold me v c [slot] l Hwf Hc) as (El & Hwf' & Hf & _).
  { constructor; [lia|constructor]. }
  cbn [foldl] in *. split; [done|]. split; [done|].
  intros slot' Hin. apply list_elem_of_In, in_seq in Hin. rewrite Hf by lia.
  destruct (due_slot l slot') eqn:Hd.
  - rewrite andb_true_r.
    destruct (decide (slot = slot' /\ true = true)) as [[-> _]|Hn].
    + by rewrite bool_decide_eq_true_2 by left.
    + rewrite bool_decide_eq_false_2; [done|]. intros ->%list_elem_of_singleton. by apply Hn.
  - rewrite andb_false_r, decide_False; [done|by intros []].
Qed.

Lemma sampler_step_other c poles cfg s s' :
  lockstep_wf (th_lock s) -> length (th_sampler s) = ESTOP_CHANNELS ->
  (c < ESTOP_CHANNELS)%nat ->
  match sampler_at s c with SBuild _ _ ss => Forall (.∈ slots) ss | _ => True end ->
  sampler_step c poles cfg s = Some s' -> other_kept c s s'.
Proof.
  intros Hwf Hl Hc Hss E. unfold sampler_step in E.
  destruct (sampler_at s c) as [| |g|g v [|slot ss]|g|] eqn:Epc.
  - bool_case; [done|]. injection E as <-.
    apply (other_kept_intro c s _ (th_lock s) (alter pred c (go_sem s)) SGen (th_net s)
             (th_reads s) (done_sem s)); try done; [apply length_alter|].
    intros c' Hne. split_and?; try done. by rewrite list_lookup_total_alter_ne.
  - injection E as <-.
    by apply (other_kept_intro c s _ (th_lock s) (go_sem s) (SSample (tick_gen (th_lock s)))
      (th_net s) (th_reads s) (done_sem s)).
  - unfold on_machine in E. destruct (estop_channel_sample _ _ _ _) as [[v e] o].
    injection E as <-. cbn [fst snd].
    eapply (other_kept_intro c s); try done; try apply length_alter.
    + intros []. split; cbn; rewrite ?length_insert; done.
    + intros c' Hne. split_and?; try done.
      1-2: by apply list_lookup_total_insert_ne.
      by apply list_lookup_total_alter_ne.
  - unfold on_machine in E. destruct (k_uptime_get _) as [t o]. injection E as <-.
    eapply (other_kept_intro c s); try done. intros []. by split.
  - injection E as <-. apply Forall_cons in Hss as [Hs _].
    pose proof (build_slot_row (app_settings_effective_device_id cfg) v c (th_lock s) slot) as Hr.
    destruct (build_slot_spec (app_settings_effective_device_id cfg) v c (th_lock s) slot)
      as (El & Hwf' & _); try done.
    set (l' := build_slot _ _ _ _ _) in *. clearbody l'.
    eapply (other_kept_intro c s _ l'); try done.
    + rewrite El. done.
    + intros us. split; intros; rewrite El; done.
    + intros c' Hne. split_and?; try (by apply Hr); try done; rewrite El; done.
  - injection E as <-. eapply (other_kept_intro c s); try done.
    + intros []. split; cbn; rewrite ?length_insert; done.
    + intros c' Hne. unfold gen_at. cbn. by rewrite list_lookup_total_insert_ne.
  - injection E as <-. by eapply (other_kept_intro c s).
Qed.

(** A sampler's step, seen from its own channel. *)
Definition own_step (c : nat) (s s' : threads) : Prop :=
  let l := th_lock s in let l' := th_lock s' in
  let kept := go_at s' c = go_at s c /\ reads_at s' c = reads_at s c in
  let statics := frames l' !!! c = frames l !!! c /\ verdict_at l' c = verdict_at l c /\
                 estop_at l' c = estop_at l c in
  match sampler_at s c with
  | SWait => go_at s c <> 0%nat /\ go_at s' c = pred (go_at s c) /\ sampler_at s' c = SGen /\
             reads_at s' c = reads_at s c /\ l' = l
  | SGen => kept /\ sampler_at s' c = SSample (tick_gen l) /\ l' = l
  | SSample g =>
      go_at s' c = go_at s c /\ gen_at l' c = gen_at l c /\
      exists r, reads_at s' c = reads_at s c ++ [r] /\
        let d := estop_decide (estop_at l c) (Z.of_nat c) (fst r) (snd r) in
        verdict_at l' c = fst d /\ estop_at l' c = snd d /\
        sampler_at s' c = SBuild g (fst d) slots
  | SBuild g v (slot :: ss) =>
      kept /\ sampler_at s' c = SBuild g v ss /\ gen_at l' c = gen_at l c /\
      verdict_at l' c = verdict_at l c /\ estop_at l' c = estop_at l c /\
      exists me, forall slot', slot' ∈ slots ->
        frame l' c slot' = if decide (slot = slot' /\ due_slot l slot' = true)
                           then encoding l me v slot' else frame l c slot'
  | SBuild g v [] => kept /\ sampler_at s' c = SPublish g /\ statics /\ gen_at l' c = gen_at l c
  | SPublish g => kept /\ sampler_at s' c = SGive /\ statics /\ gen_at l' c = g
  | SGive => kept /\ sampler_at s' c = SWait /\ l' = l
  end.

Lemma estop_channel_sample_eq poles c st o :
  fst (estop_channel_sample poles c st o) =
  estop_decide st (Z.of_nat c) (fst (fst (estop_read_phases poles c o)))
               (snd (fst (estop_read_phases poles c o))).
Proof.
  unfold estop_channel_sample. destruct (estop_read_phases poles c o) as [[hi lo] o'].
  cbn [fst snd]. by destruct (estop_decide _ _ _ _).
Qed.

Lemma sampler_step_own c poles cfg s s' :
  lockstep_wf (th_lock s) -> length (go_sem s) = ESTOP_CHANNELS ->
  length (th_sampler s) = ESTOP_CHANNELS -> length (th_reads s) = ESTOP_CHANNELS ->
  (c < ESTOP_CHANNELS)%nat ->
  match sampler_at s c with SBuild _ _ ss => Forall (.∈ slots) ss | _ => True end ->
  sampler_step c poles cfg s = Some s' -> own_step c s s'.
Proof.
  intros Hwf Hg Hl Hr Hc Hss E. unfold sampler_step in E. unfold own_step.
  pose proof (fun pc s0 H => sampler_at_goto s0 c pc c H Hc) as Hat.
  destruct (sampler_at s c) as [| |g|g v [|slot ss]|g|] eqn:Epc.
  - destruct (go_at s c =? 0)%nat eqn:E0; [done|]. injection E as <-. rewrite Hat, decide_True by done.
    split; [by apply Nat.eqb_neq|]. split; [|done].
    refine (eq_trans (list_lookup_total_alter _ _ _ _) _). by rewrite decide_True by lia.
  - injection E as <-. by rewrite Hat, decide_True.
  - unfold on_machine in E.
    pose proof (estop_channel_sample_eq poles c (estop_at (th_lock s) c) (machine (th_net s))) as Hs.
    destruct (estop_channel_sample _ _ _ _) as [[v e] o]. cbn [fst] in Hs.
    injection E as <-. cbn [fst snd]. rewrite Hat, decide_True by done.
    do 2 (split; [done|]). eexists. split.
    { refine (eq_trans (list_lookup_total_alter _ _ _ _) _). by rewrite decide_True by lia. }
    rewrite <- Hs. destruct Hwf. split_and!; try done; cbn [fst snd];
      refine (eq_trans (list_lookup_total_insert _ _ _ _) _); by rewrite decide_True by lia.
  - unfold on_machine in E. destruct (k_uptime_get _) as [t o]. injection E as <-.
    by rewrite Hat, decide_True.
  - injection E as <-. apply Forall_cons in Hss as [Hs _]. rewrite Hat, decide_True by done.
    destruct (build_slot_spec (app_settings_effective_device_id cfg) v c (th_lock s) slot)
      as (El & _ & Hf); try done.
    split; [done|]. split; [done|]. change (th_lock (goto_sampler _ _ _)) with
      (build_slot (app_settings_effective_device_id cfg) v c (th_lock s) slot).
    set (l' := build_slot _ _ _ _ _) in *. clearbody l'.
    do 3 (split; [by rewrite El|]). by eexists.
  - injection E as <-. rewrite Hat, decide_True by done. do 3 (split; [done|]).
    refine (eq_trans (list_lookup_total_insert _ _ _ _) _). destruct Hwf. by rewrite decide_True by lia.
  - injection E as <-. by rewrite Hat, decide_True.
Qed.
End SamplerSteps.

Section OwnChannel.
Context `{!PstopLib} `{Gpio} `{!Sockets}.
Variables (c : nat) (s s' : threads).
Hypothesis own : own_step c s s'.
Hypothesis kept : other_kept c s s'.

Lemma own_gen : tick_gen (th_lock s') = tick_gen (th_lock s).
Proof using kept. apply (si_gen [] _ _ (ok_inputs _ _ _ kept [])). Qed.

Lemma own_untouched : go_at s c = 0%nat -> untouched s c -> go_at s' c = 0%nat /\ untouched s' c.
Proof using own kept.
  intros Hgo (Hpc & Hg & Ha). unfold untouched. rewrite own_gen. unfold own_step in own.
  destruct (sampler_at s c) as [| |g|g v [|slot ss]|g|] eqn:Epc; cbn [pc_gen] in *; try done.
  - by destruct own as [? _].
  - destruct own as (Ego & Eg & r & _ & _ & _ & ->). rewrite Ego, Eg. done.
  - destruct own as ([Ego _] & -> & _ & ->). by rewrite Ego.
  - destruct own as ([Ego _] & -> & -> & _). by rewrite Ego.
  - destruct own as ([Ego _] & -> & _ & ->). rewrite Ego. split_and!; [done..|congruence].
  - destruct own as ([Ego _] & -> & ->). by rewrite Ego.
Qed.

(** A build step extends what the pass has built by its own slot. *)
Lemma own_built us v slot ss me : us ⊆ slots ->
  (forall slot', slot' ∈ slots ->
     frame (th_lock s') c slot' = if decide (slot = slot' /\ due_slot (th_lock s) slot' = true)
       then encoding (th_lock s) me v slot' else frame (th_lock s) c slot') ->
  built us (th_lock s) c v (slot :: ss) -> built us (th_lock s') c v ss.
Proof using kept.
  intros Hus Hf Hb slot' Hin Hn Hd. pose proof (ok_inputs _ _ _ kept us) as Hi.
  rewrite (si_due _ _ _ Hi) in Hd by done. rewrite Hf by by apply Hus.
  case_decide as E.
  - exists me. by rewrite (encoding_same us (th_lock s) (th_lock s')).
  - destruct (Hb slot') as [me' Hme]; try done.
    { rewrite not_elem_of_cons. split; [|done]. intros ->. by apply E. }
    exists me'. by rewrite (encoding_same us (th_lock s) (th_lock s')).
Qed.

Lemma own_kept_built us v ss : us ⊆ slots ->
  frames (th_lock s') !!! c = frames (th_lock s) !!! c ->
  built us (th_lock s) c v ss -> built us (th_lock s') c v ss.
Proof using kept.
  intros Hus Hf. apply built_same; [done|apply (ok_inputs _ _ _ kept)|done].
Qed.

Lemma own_passing us : us ⊆ slots -> go_at s c = 0%nat ->
  pc_gen (sampler_at s c) = Some (tick_gen (th_lock s)) ->
  gen_at (th_lock s) c <> tick_gen (th_lock s) -> passing us s c -> progress us s' c.
Proof using own kept.
  intros Hus Hgo Hpc Hg Hp. unfold own_step in own. unfold passing in Hp.
  destruct (sampler_at s c) as [| |g|g v [|slot ss]|g|] eqn:Epc; try done;
    injection Hpc as ->.
  - destruct own as (Ego & Eg & r & Er & Ev & _ & E).
    apply in_pass; rewrite ?own_gen, ?Eg, ?Ego, ?E; try done.
    unfold passing. rewrite E, Er. split; [done|]. split; [|by destruct (reads_at s c)].
    intros slot Hin Hn. by apply Hus in Hin.
  - destruct own as ([Ego Er] & E & (Ef & Ev & _) & Eg). destruct Hp as (<- & Hb & Hr).
    apply in_pass; rewrite ?own_gen, ?Eg, ?Ego, ?E; try done.
    unfold passing. rewrite E, Er, Ev. split; [|done]. by apply own_kept_built.
  - destruct own as ([Ego Er] & E & Eg & Ev & _ & me & Hf). destruct Hp as (Ev' & Hb & Hr).
    apply in_pass; rewrite ?own_gen, ?Eg, ?Ego, ?E; try done.
    unfold passing. rewrite E, Er, Ev. split_and!; [done| |done]. by eapply own_built.
  - destruct own as ([Ego Er] & E & (Ef & Ev & _) & Eg). destruct Hp as (Hb & Hr).
    apply done_pass. split; [congruence|]. rewrite own_gen, Eg, Er, Ev, E.
    split_and!; try done; [by right|]. by apply own_kept_built.
Qed.

Lemma own_published us : published us s c -> published us s' c /\ th_lock s' = th_lock s.
Proof using own kept.
  intros (Hgo & Hpc & Hg & Hb & Hr). unfold own_step in own.
  destruct Hpc as [Hpc|Hpc]; rewrite Hpc in own.
  - by destruct own as [? _].
  - destruct own as ([Ego Er] & E & El). split; [|done].
    split; [congruence|]. rewrite El, Er, E. split_and!; try done. by left.
Qed.

Lemma own_progress us : us ⊆ slots -> progress us s c -> progress us s' c.
Proof using own kept.
  intros Hus [Hgo Hu|Hgo Hpc Hg|Hgo Hpc Hg Hp|Hp].
  - pose proof Hu as (Hpc & Hpg & Hga). unfold own_step in own.
    destruct (sampler_at s c) as [| |g|g v [|slot ss]|g|] eqn:Epc; cbn [pc_gen] in *; try done.
    + destruct own as (_ & Ego & E & _ & El). apply taken; rewrite ?El; try done. lia.
    + destruct own as (Ego & Eg & r & _ & _ & _ & E). apply given; [congruence|].
      unfold untouched. by rewrite own_gen, E, Eg.
    + destruct own as ([Ego _] & E & _ & Eg). apply given; [congruence|].
      unfold untouched. by rewrite own_gen, E, Eg.
    + destruct own as ([Ego _] & E & Eg & _). apply given; [congruence|].
      unfold untouched. by rewrite own_gen, E, Eg.
    + destruct own as ([Ego _] & E & _ & Eg). apply given; [congruence|].
      unfold untouched. rewrite own_gen, E, Eg. split_and!; try done. congruence.
    + destruct own as ([Ego _] & E & El). apply given; [congruence|].
      unfold untouched. by rewrite El, E.
  - unfold own_step in own. rewrite Hpc in own. destruct own as ([Ego _] & E & El).
    apply in_pass; rewrite ?El, ?E; try done; [congruence|]. unfold passing. by rewrite E.
  - by apply own_passing.
  - by apply done_pass, own_published.
Qed.

Lemma own_tracks : tracks s c -> tracks s' c.
Proof using own.
  intros [He Hv]. unfold tracks, own_step in *.
  destruct (sampler_at s c) as [| |g|g v [|slot ss]|g|] eqn:Epc.
  - by destruct own as (_ & _ & _ & -> & ->).
  - by destruct own as ([_ ->] & _ & ->).
  - destruct own as (_ & _ & [hi lo] & Er & Ev & Es & _). rewrite Er, Es, Ev, He.
    cbn [fst snd]. rewrite estop_run_snoc_state. split; [done|]. intros _.
    apply estop_decide_after.
  - destruct own as ([_ Er] & _ & (_ & Ev & Es) & _). by rewrite Er, Ev, Es.
  - destruct own as ([_ Er] & _ & _ & Ev & Es & _). by rewrite Er, Ev, Es.
  - destruct own as ([_ Er] & _ & (_ & Ev & Es) & _). by rewrite Er, Ev, Es.
  - by destruct own as ([_ ->] & _ & ->).
Qed.

Lemma own_bounded : gen_bounded s c -> gen_bounded s' c.
Proof using own kept.
  intros [Hb Hp]. unfold gen_bounded. rewrite own_gen. unfold own_step in own.
  destruct (sampler_at s c) as [| |g|g v [|slot ss]|g|] eqn:Epc; cbn [pc_gen] in *.
  - destruct own as (_ & _ & -> & _ & ->). done.
  - destruct own as (_ & -> & ->). cbn [pc_gen]. lia.
  - destruct own as (_ & -> & r & _ & _ & _ & ->). done.
  - destruct own as (_ & -> & _ & ->). done.
  - destruct own as (_ & -> & -> & _). done.
  - destruct own as (_ & -> & _ & ->). done.
  - destruct own as (_ & -> & ->). done.
Qed.

Lemma own_build :
  match sampler_at s c with SBuild _ _ ss => Forall (.∈ slots) ss | _ => True end ->
  match sampler_at s' c with SBuild _ _ ss => Forall (.∈ slots) ss | _ => True end.
Proof using own.
  intros Hb. unfold own_step in own.
  destruct (sampler_at s c) as [| |g|g v [|slot ss]|g|] eqn:Epc.
  - by destruct own as (_ & _ & -> & _).
  - by destruct own as (_ & -> & _).
  - destruct own as (_ & _ & r & _ & _ & _ & ->). by apply Forall_forall.
  - by destruct own as (_ & -> & _).
  - destruct own as (_ & -> & _). by apply Forall_cons in Hb as [].
  - by destruct own as (_ & -> & _).
  - by destruct own as (_ & -> & _).
Qed.
End OwnChannel.

Section Preservation.
Context `{!PstopLib} `{Gpio} `{!Sockets}.

Lemma overrun_same s s' c : th_overrun s' = th_overrun s -> overrun_at s' c = overrun_at s c.
Proof. intros E. unfold overrun_at. by rewrite E. Qed.

Lemma own_stage c s s' : own_step c s s' -> other_kept c s s' -> stage s c -> stage s' c.
Proof.
  intros Ho Hk. unfold stage. rewrite (ok_comparator _ _ _ Hk).
  destruct (th_comparator s); try done;
    try (intros [? ?]; by apply (own_untouched c s s' Ho Hk));
    try apply (own_progress c s s' Ho Hk slots ltac:(done));
    try exact (fun Hp => proj1 (own_published c s s' Ho Hk _ Hp)).
  case_decide; [intros [? ?]; by apply (own_untouched c s s' Ho Hk)|].
  apply (own_progress c s s' Ho Hk slots ltac:(done)).
Qed.

(** With both channels published, only a give is left to a sampler. *)
Lemma own_agreed c s s' : own_step c s s' -> other_kept c s s' ->
  stage s c -> agreed s -> agreed s'.
Proof.
  intros Ho Hk. unfold stage, agreed. rewrite (ok_comparator _ _ _ Hk).
  destruct (th_comparator s); try done; intros Hp;
    by destruct (own_published c s s' Ho Hk _ Hp) as [_ ->].
Qed.

Lemma sampler_inv c poles cfg s s' :
  (c < ESTOP_CHANNELS)%nat -> threads_inv s -> sampler_step c poles cfg s = Some s' ->
  threads_inv s'.
Proof.
  intros Hc I E. pose proof I as [].
  pose proof (sampler_step_other c poles cfg s s' iv_wf0 iv_sampler0 Hc (iv_build0 c Hc) E) as Hk.
  pose proof (sampler_step_own c poles cfg s s' iv_wf0 iv_go0 iv_sampler0 iv_reads0 Hc
                (iv_build0 c Hc) E) as Ho.
  pose proof (ok_lengths _ _ _ Hk) as (L1 & L2 & L3).
  pose proof (ok_ticks _ _ _ Hk) as Et. pose proof (ok_comparator _ _ _ Hk) as Ec.
  pose proof (own_gen _ _ _ Hk) as Eg.
  pose proof (fun c' => overrun_same _ _ c' (ok_overrun _ _ _ Hk)) as Eo.
  split; rewrite ?Et, ?Ec, ?Eg; try done; try congruence.
  - by apply (ok_wf _ _ _ Hk).
  - intros c' Hc'. destruct (decide (c' = c)) as [->|Hne].
    + apply (own_build _ _ _ Ho), iv_build0, Hc.
    + rewrite (sc_pc _ _ _ (ok_other _ _ _ Hk c' Hne)). by apply iv_build0.
  - intros c' Hc'. destruct (decide (c' = c)) as [->|Hne].
    + by apply (own_tracks _ _ _ Ho), iv_tracks0.
    + by apply (tracks_same s s' c' (ok_other _ _ _ Hk c' Hne)), iv_tracks0.
  - intros Ht c' Hc'. destruct (decide (c' = c)) as [->|Hne].
    + by apply (own_bounded _ _ _ Ho Hk), iv_bounded0.
    + by apply (gen_bounded_same [] s s' c' (ok_inputs _ _ _ Hk []) (ok_other _ _ _ Hk c' Hne)),
        iv_bounded0.
  - intros Ht c' Hc'. rewrite Eo. intros Hov. destruct (decide (c' = c)) as [->|Hne].
    + by apply (own_stage _ _ _ Ho Hk), iv_stage0.
    + by apply (stage_same s s' c' Ec (ok_inputs _ _ _ Hk _) (ok_other _ _ _ Hk c' Hne)), iv_stage0.
  - intros Ht Hov. pose proof (fun c' Hc' => eq_trans (eq_sym (Eo c')) (Hov c' Hc')) as Hov'.
    apply (own_agreed _ _ _ Ho Hk); [by apply iv_stage0; auto|by apply iv_agreed0].
Qed.

(** What every step of the comparator but its mint leaves alone. *)
Record statics_kept (l l' : lockstep) : Prop := {
  sk_estop : estop l' = estop l;
  sk_verdict : sampler_verdict l' = sampler_verdict l;
  sk_gens : sampler_gen l' = sampler_gen l;
  sk_frames : frames l' = frames l;
  sk_gen : tick_gen l' = tick_gen l;
  sk_wf : lockstep_wf l -> lockstep_wf l';
}.
Lemma statics_kept_refl l : statics_kept l l.
Proof. by split. Qed.

Lemma kept_channel s s' c :
  statics_kept (th_lock s) (th_lock s') -> go_sem s' = go_sem s ->
  th_sampler s' = th_sampler s -> th_reads s' = th_reads s -> same_channel s s' c.
Proof.
  intros [] Eg Es Er. split; unfold go_at, sampler_at, gen_at, verdict_at, estop_at, reads_at;
    congruence.
Qed.

(** A step that leaves the samplers and their statics alone keeps the
    invariant if it moves the comparator soundly. *)
Lemma kept_inv s s' :
  threads_inv s -> statics_kept (th_lock s) (th_lock s') ->
  go_sem s' = go_sem s -> th_sampler s' = th_sampler s -> th_reads s' = th_reads s ->
  th_ticks s' = th_ticks s -> th_overrun s' = th_overrun s ->
  match tick_in (th_comparator s') with
  | Some t => tk_gen t = tick_gen (th_lock s)
  | None => True
  end ->
  (NoDup (unsent (th_comparator s')) /\ Forall (.∈ slots) (unsent (th_comparator s'))) ->
  match th_comparator s' with CGo _ cs => NoDup cs | _ => True end ->
  (forall c, (c < ESTOP_CHANNELS)%nat -> same_channel s s' c -> stage s c -> stage s' c) ->
  ((forall c, (c < ESTOP_CHANNELS)%nat -> stage s c) -> agreed s -> agreed s') ->
  threads_inv s'.
Proof.
  intros I Hk Eg Es Er Et Eo Htick Hun Hcs Hst Hag. pose proof I as [].
  pose proof (fun c => kept_channel s s' c Hk Eg Es Er) as Hc.
  pose proof (fun c => overrun_same s s' c Eo) as Eov.
  split; rewrite ?Eg, ?Es, ?Er, ?Et, ?(sk_gen _ _ Hk); try done.
  - by apply (sk_wf _ _ Hk).
  - intros c Hlt. rewrite (sc_pc _ _ _ (Hc c)). by apply iv_build0.
  - intros c Hlt. by apply (tracks_same s s'), iv_tracks0.
  - intros Ht c Hlt. specialize (iv_bounded0 Ht c Hlt). unfold gen_bounded in *.
    by rewrite (sc_gen _ _ _ (Hc c)), (sc_pc _ _ _ (Hc c)), (sk_gen _ _ Hk).
  - intros Ht c Hlt. rewrite Eov. auto.
  - intros Ht Hov. setoid_rewrite Eov in Hov. auto.
Qed.

Lemma begin_tick_split cfg now l w :
  begin_tick cfg now l w =
  let '(l, w) := snapshot_tick cfg now l w in
  let '(gen, l) := mint_gen l in (gen, l, w).
Proof. unfold begin_tick, snapshot_tick. by destruct (foldl _ _ _). Qed.

Lemma snapshot_gen cfg now l w : tick_gen (fst (snapshot_tick cfg now l w)) = tick_gen l.
Proof.
  unfold snapshot_tick. destruct (foldl _ _ _) as [l2 w2] eqn:E.
  apply reconfigure_fold in E as [Hc _].
  destruct (rebond_fold (rebond_requests l) slots l2 (NoDup_seq _ _)) as (Hc2 & _).
  transitivity (tick_gen (foldl (rebond_slot (rebond_requests l)) l2 slots)); [done|].
  by rewrite (sc_eq _ _ _ Hc2), (sc_eq _ _ _ Hc).
Qed.

Lemma snapshot_kept cfg now l w :
  statics_kept l (fst (snapshot_tick cfg now l w)) /\
  sent_log (snd (snapshot_tick cfg now l w)) = sent_log w.
Proof.
  pose proof (begin_tick_split cfg now l w) as E.
  pose proof (snapshot_gen cfg now l w) as Hg.
  destruct (snapshot_tick cfg now l w) as [l1 w1]. cbn [mint_gen] in E.
  apply begin_tick_spec in E as (_ & El & Hwf & Hw & _). cbn [fst snd]. split; [|done].
  split; [exact (f_equal estop El)|exact (f_equal sampler_verdict El)|
    exact (f_equal sampler_gen El)|exact (f_equal frames El)|done|].
  intros Hl. destruct (Hwf Hl). by split.
Qed.

Lemma on_statics_eq f s l w : f (th_lock s, th_net s) = (l, w) ->
  on_statics f s = s <| th_lock := l |> <| th_net := w |>.
Proof. intros E. unfold on_statics. by rewrite E. Qed.

(** One slot of the commit and of the service loop. *)
Lemma commit_slot_kept l w slot :
  let l' := fst (commit_slot (l, w) slot) in
  statics_kept l l' /\ primed l' = primed l /\
  (forall slot', slot' <> slot -> session_at l' slot' = session_at l slot') /\
  (forall slot', due_slot l' slot' = due_slot l slot') /\
  tick_role l' = tick_role l /\ tick_now_ms l' = tick_now_ms l /\
  sent_log (snd (commit_slot (l, w) slot)) =
    sent_log w ++ (if due_slot l slot then [transmission l slot] else []).
Proof.
  destruct (commit_slot (l, w) slot) as [l' w'] eqn:E.
  destruct (commit_fold [slot] l w l' w') as (El & Hlen & Hs & Hw); [repeat constructor; set_solver|done|].
  cbn [fst snd]. split_and!; try (rewrite El; done).
  - split; try (rewrite El; done). intros []. rewrite El. split; cbn; congruence.
  - intros slot' Hne. apply Hs. by rewrite list_elem_of_singleton.
  - rewrite Hw, filter_cons. by destruct (due_slot l slot).
Qed.

Lemma service_slot_kept now l w slot :
  statics_kept l (fst (service_slot now (l, w) slot)) /\
  sent_log (snd (service_slot now (l, w) slot)) = sent_log w.
Proof.
  destruct (service_slot now (l, w) slot) as [l' w'] eqn:E.
  destruct (service_fold now [slot] l w l' w' E) as (El & Hlen & Hw). split; [|done].
  cbn [fst]. split; try (rewrite El; done). intros []. rewrite El. split; cbn; congruence.
Qed.

Lemma slots_ok : NoDup slots /\ Forall (.∈ slots) slots.
Proof. split; [apply NoDup_seq|by apply Forall_forall]. Qed.

Lemma mint_inv cfg now s s' : threads_inv s -> th_comparator s = CMint now ->
  comparator_step cfg s = Some s' -> threads_inv s'.
Proof.
  intros I Ec E. unfold comparator_step in E. rewrite Ec in E. cbn [mint_gen] in E.
  injection E as <-. destruct I.
  set (G := u32 (tick_gen (th_lock s) + 1)) in *.
  assert (th_ticks s + 1 < 2 ^ 32 -> G = tick_gen (th_lock s) + 1) as HG.
  { intros Ht. unfold G. rewrite iv_gen0 by lia. apply u32_small. lia. }
  split; try done.
  - by destruct iv_wf0.
  - cbn. lia.
  - exact slots_ok.
  - intros Ht. cbn in Ht. rewrite <- Z.add_1_r in *. rewrite <- iv_gen0 by lia. by apply HG.
  - intros Ht c Hc. cbn in Ht. destruct (iv_bounded0 ltac:(lia) c Hc) as [Hg Hp].
    unfold gen_bounded. change (tick_gen (th_lock _)) with G. rewrite HG by lia.
    split; [change (gen_at (th_lock _) c) with (gen_at (th_lock s) c); lia|].
    change (sampler_at _ c) with (sampler_at s c). destruct (pc_gen _); [lia|done].
  - intros Ht c Hc Hov. cbn in Ht. destruct (iv_bounded0 ltac:(lia) c Hc) as [Hg Hp].
    assert (go_left s c = false) as Hl.
    { by_channel c Hc; exact Hov. }
    unfold go_left in Hl. apply orb_false_iff in Hl as [Hgo Hpc].
    apply negb_false_iff, Nat.eqb_eq in Hgo. split; [done|].
    unfold untouched. change (tick_gen (th_lock _)) with G. rewrite HG by lia.
    change (sampler_at _ c) with (sampler_at s c).
    change (gen_at (th_lock _) c) with (gen_at (th_lock s) c).
    split_and!; [by intros Epc; rewrite Epc in Hpc| |lia].
    intros Epc. rewrite Epc in Hp. lia.
Qed.

Lemma go_inv cfg t c cs s s' : threads_inv s -> th_comparator s = CGo t (c :: cs) ->
  comparator_step cfg s = Some s' -> threads_inv s'.
Proof.
  intros I Ec E. unfold comparator_step in E. rewrite Ec in E. injection E as <-.
  destruct I. rewrite Ec in *. cbn in iv_cs0. apply NoDup_cons in iv_cs0 as [Hin Hnd].
  set (s' := goto _ _).
  assert (forall c', c' <> c -> same_channel s s' c') as Hoc.
  { intros c' Hne. split; try done. by apply list_lookup_total_alter_ne. }
  split; try done.
  - by refine (eq_trans (length_alter _ _ _) _).
  - intros Ht c' Hc' Hov. specialize (iv_stage0 Ht c' Hc' Hov).
    unfold stage in iv_stage0. rewrite Ec in iv_stage0. cbn [stage th_comparator s' goto].
    change (if decide (c' ∈ cs) then go_at s' c' = 0%nat /\ untouched s' c' else progress slots s' c').
    destruct (decide (c' = c)) as [->|Hne].
    + rewrite decide_True in iv_stage0 by left. destruct iv_stage0 as [Hgo Hu].
      rewrite decide_False by done. apply given; [|done].
      refine (eq_trans (list_lookup_total_alter _ _ _ _) _).
      rewrite decide_True by (split; [done|lia]). unfold go_at in Hgo. by rewrite Hgo.
    + destruct (decide (c' ∈ cs)) as [Hi|Hi].
      * rewrite decide_True in iv_stage0 by by right. destruct iv_stage0 as [Hgo Hu].
        split; [by rewrite (sc_go _ _ _ (Hoc c' Hne))|done].
      * rewrite decide_False in iv_stage0 by (rewrite elem_of_cons; tauto).
        by apply (progress_same slots slots s s' c' ltac:(done) (same_inputs_refl _ _) (Hoc c' Hne)).
Qed.

Lemma commit_inv cfg t slot ss s s' : threads_inv s ->
  th_comparator s = CCommit t (slot :: ss) -> comparator_step cfg s = Some s' -> threads_inv s'.
Proof.
  intros I Ec E. unfold comparator_step in E. rewrite Ec in E. injection E as <-.
  destruct (commit_slot_kept (th_lock s) (th_net s) slot) as (Hk & Hp & Hs & Hd & Hr & Hn & _).
  destruct (commit_slot (th_lock s, th_net s) slot) as [l' w'] eqn:El.
  rewrite (on_statics_eq _ _ _ _ El). cbn [fst] in *.
  pose proof (iv_unsent _ I) as [Hnd Hin]. rewrite Ec in Hnd, Hin. cbn [unsent] in Hnd, Hin.
  apply NoDup_cons in Hnd as [Hslot Hnd]. apply Forall_cons in Hin as [_ Hin].
  apply (kept_inv s); try done.
  - pose proof (iv_tick _ I) as Ht. by rewrite Ec in Ht.
  - intros c _ Hc. unfold stage. rewrite Ec. apply (published_same (slot :: ss) ss); try done.
    + by intros x; right.
    + split; try done; [|apply Hk]. intros slot' Hi. apply Hs. by intros ->.
  - intros _. unfold agreed. rewrite Ec. intros [Hpr Ha].
    split; [exact (eq_trans Hp Hpr)|]. intros slot' Hi Hdue. unfold frame. cbn [th_lock goto].
    change (frames l' !!! 0%nat !!! slot' = frames l' !!! 1%nat !!! slot').
    rewrite (sk_frames _ _ Hk). apply Ha; [by right|]. by rewrite <- Hd.
Qed.

Lemma compare_inv cfg t slot ss s s' : threads_inv s ->
  th_comparator s = CCompare t (slot :: ss) -> comparator_step cfg s = Some s' -> threads_inv s'.
Proof.
  intros I Ec E. unfold comparator_step in E. rewrite Ec in E. injection E as <-.
  pose proof (iv_tick _ I) as Ht. rewrite Ec in Ht. unfold compare_slot.
  destruct (due_slot (th_lock s) slot && _) eqn:Hd.
  - destruct (record_mismatch slot (th_lock s) (th_net s)) as [l w] eqn:Er.
    unfold record_mismatch, on_machine in Er. destruct (k_uptime_get _) as [u o].
    injection Er as <- <-. apply (kept_inv s); try done.
    + split; try done. intros []. by split.
    + by split; constructor.
  - apply (kept_inv s); try done; try exact slots_ok.
    + intros c _ Hc. unfold stage. by rewrite Ec.
    + intros _. unfold agreed. rewrite Ec. intros [Hp Ha]. split; [done|].
      intros slot' Hi Hn Hdue. destruct (decide (slot' = slot)) as [->|Hne].
      * change (due_slot (th_lock s) slot = true) in Hdue. rewrite Hdue in Hd.
        apply bool_decide_eq_false in Hd. by destruct (decide (frame (th_lock s) 0 slot = frame (th_lock s) 1 slot)).
      * apply Ha; try done. rewrite not_elem_of_cons. by split.
Qed.

Lemma kept_progress s s' c : same_inputs slots (th_lock s) (th_lock s') ->
  same_channel s s' c -> progress slots s c -> progress slots s' c.
Proof. by apply progress_same. Qed.

Lemma take_inv cfg t c cs s s' : threads_inv s ->
  th_comparator s = CTake t (c :: cs) -> comparator_step cfg s = Some s' -> threads_inv s'.
Proof.
  intros I Ec E. unfold comparator_step in E. rewrite Ec in E.
  pose proof (iv_tick _ I) as Ht. rewrite Ec in Ht.
  unfold take_done in E. destruct (done_at s c =? 0)%nat.
  - destruct (deadline t <=? uptime s); [|done]. injection E as <-.
    apply (kept_inv s); try done; try exact slots_ok.
    intros c' Hc Hsc. unfold stage. rewrite Ec. by apply kept_progress.
  - injection E as <-. apply (kept_inv s); try done; try exact slots_ok.
    { split; try done. intros []. by split. }
    intros c' Hc Hsc. unfold stage. rewrite Ec. by apply kept_progress.
Qed.

Lemma choose_inv cfg t s s' : threads_inv s ->
  th_comparator s = CChoose t -> comparator_step cfg s = Some s' -> threads_inv s'.
Proof.
  intros I Ec E. unfold comparator_step in E. rewrite Ec in E.
  pose proof (iv_tick _ I) as Ht. rewrite Ec in Ht.
  destruct ((tk_late t =? 0) && _) eqn:Hpub.
  - apply andb_true_iff in Hpub as [_ Hpub]. apply published_iff in Hpub as [H0g H1g].
    injection E as <-. apply (kept_inv s); try done; try exact slots_ok.
    intros c Hc Hsc. unfold stage. rewrite Ec. intros Hp. apply progress_published; [by apply (kept_progress s)|].
    change (gen_at (th_lock s) c = tick_gen (th_lock s)). rewrite <- Ht.
    clear Hsc Hp. revert c Hc. by apply (two_channels (fun c => gen_at (th_lock s) c = tk_gen t)).
  - injection E as <-. unfold record_late, on_statics, on_machine.
    destruct (k_uptime_get _) as [u o]. apply (kept_inv s); try done; [|by split; constructor].
    split; try done. intros []. by split.
Qed.

(** The steps that only move the comparator on. *)
Lemma comparator_inv cfg s s' :
  threads_inv s -> comparator_step cfg s = Some s' -> threads_inv s'.
Proof.
  intros I E. pose proof (iv_tick _ I) as Ht. pose proof E as E'. unfold comparator_step in E.
  destruct (th_comparator s) as [|now|now|t [|c cs]|t [|c cs]|t [|c cs]|t|t|t|t|t [|slot ss]
    |t [|slot ss]|t|t [|slot ss]|] eqn:Ec; cbn [tick_in] in Ht;
    try (by eapply mint_inv); try (by eapply go_inv); try (by eapply commit_inv);
    try (by eapply compare_inv); try (by eapply take_inv); try (by eapply choose_inv); clear E'.
  - unfold on_machine in E. destruct (k_uptime_get _) as [u o]. injection E as <-.
    apply (kept_inv s); try done; by split; constructor.
  - pose proof (snapshot_kept cfg now (th_lock s) (th_net s)) as [Hk _].
    destruct (snapshot_tick cfg now (th_lock s) (th_net s)) as [l w] eqn:El.
    injection E as <-. rewrite (on_statics_eq _ _ l w El).
    apply (kept_inv s); try done. by split; constructor.
  - injection E as <-. apply (kept_inv s); try done; try exact slots_ok; [apply NoDup_seq|].
    intros c Hc Hsc. unfold stage. rewrite Ec. intros [Hgo Hu].
    change (th_comparator (goto _ _)) with (CGo t channels). cbv iota.
    rewrite decide_True; [done|]. apply list_elem_of_In, in_seq. lia.
  - injection E as <-. apply (kept_inv s); try done; try exact slots_ok.
    intros c' Hc Hsc. unfold stage. by rewrite Ec.
  - injection E as <-. apply (kept_inv s); try done; try exact slots_ok.
    intros c' Hc Hsc. unfold stage. rewrite Ec.
    rewrite decide_False by apply not_elem_of_nil. by apply kept_progress.
  - injection E as <-. apply (kept_inv s); try done; try exact slots_ok.
    + by destruct (tk_late t =? 0).
    + destruct (tk_late t =? 0); exact slots_ok.
    + by destruct (tk_late t =? 0).
    + intros c Hc Hsc. unfold stage. rewrite Ec. by destruct (tk_late t =? 0); apply kept_progress.
    + by destruct (tk_late t =? 0).
  - unfold on_machine in E. destruct (k_uptime_get _) as [u o]. injection E as <-.
    apply (kept_inv s); try done; try exact slots_ok.
    intros c' Hc Hsc. unfold stage. rewrite Ec. by apply kept_progress.
  - injection E as <-. apply (kept_inv s); try done; try exact slots_ok.
    intros c' Hc Hsc. unfold stage. rewrite Ec. by apply kept_progress.
  - injection E as <-. destruct (primed (th_lock s)) eqn:Hp.
    + apply (kept_inv s); try done; try exact slots_ok.
      intros c Hc Hsc. unfold stage. by rewrite Ec.
    + apply (kept_inv s); try done; [|by split; constructor]. split; try done. intros []. by split.
  - injection E as <-. apply (kept_inv s); try done; try exact slots_ok.
    + intros c Hc Hsc. unfold stage. by rewrite Ec.
    + intros _. unfold agreed. rewrite Ec. intros [Hp Ha]. split; [done|].
      intros slot Hi. apply Ha; [done|apply not_elem_of_nil].
  - injection E as <-. apply (kept_inv s); try done; by split; constructor.
  - injection E as <-. apply (kept_inv s); try (by destruct (primed (th_lock s))).
    + by split; constructor.
  - injection E as <-. apply (kept_inv s); try done; by split; constructor.
  - pose proof (service_slot_kept (tk_now t) (th_lock s) (th_net s) slot) as [Hk _].
    destruct (service_slot _ _ _) as [l w] eqn:El. injection E as <-.
    rewrite (on_statics_eq _ _ l w El). apply (kept_inv s); try done. by split; constructor.
  - destruct (_ <=? _); [|done]. injection E as <-.
    apply (kept_inv s); try done; by split; constructor.
Qed.
End Preservation.

Section Reachable.
Context `{!PstopLib} `{Gpio} `{!Sockets}.

(** A step that changes neither thread nor anything they share. *)
Lemma outside_inv s s' : threads_inv s ->
  statics_kept (th_lock s) (th_lock s') -> (forall us, same_inputs us (th_lock s) (th_lock s')) ->
  primed (th_lock s') = primed (th_lock s) ->
  go_sem s' = go_sem s -> th_sampler s' = th_sampler s -> th_reads s' = th_reads s ->
  th_ticks s' = th_ticks s -> th_overrun s' = th_overrun s ->
  th_comparator s' = th_comparator s -> threads_inv s'.
Proof.
  intros I Hk Hi Hp Eg Es Er Et Eo Ec. pose proof I as [].
  apply (kept_inv s); try done; rewrite ?Ec; try done.
  - intros c _ Hc. by apply stage_same.
  - intros _. unfold agreed. rewrite Ec, Hp. unfold frame. rewrite (sk_frames _ _ Hk).
    destruct (th_comparator s); try done; intros [? Ha]; (split; [done|]); intros slot; intros.
    all: apply Ha; try done; by rewrite <- (si_due _ _ _ (Hi [slot]) slot) by left.
Qed.

Lemma step_inv a s s' : threads_inv s -> step a s = Some s' -> threads_inv s'.
Proof.
  intros I E. destruct a as [c poles cfg|cfg|slot|slot|f]; cbn [step] in E.
  - destruct (Nat.ltb_spec c ESTOP_CHANNELS); [|done]. by eapply sampler_inv.
  - by eapply comparator_inv.
  - injection E as <-. unfold request_rebond. apply (outside_inv s); try done; cbn; bool_case;
      try done; split; try done. intros []. by split.
  - injection E as <-. unfold request_reconfigure. apply (outside_inv s); try done; cbn; bool_case;
      try done; split; try done. intros []. by split.
  - injection E as <-. by apply (outside_inv s).
Qed.

Lemma run_inv acts s s' : threads_inv s -> run acts s = Some s' -> threads_inv s'.
Proof.
  revert s. induction acts as [|a acts IH]; intros s I E; cbn [run] in E; [by simplify_eq|].
  destruct (step a s) eqn:Es; [|done]. by eapply IH; [eapply step_inv|].
Qed.

Lemma init_fold cfg ss l w l' w' :
  foldl (init_slot cfg) (l, w) ss = (l', w') ->
  l' = l <| sessions := sessions l' |> <| slot_active := slot_active l' |> /\
  length (sessions l') = length (sessions l) /\
  length (slot_active l') = length (slot_active l) /\ sent_log w' = sent_log w.
Proof.
  revert l w. induction ss as [|slot ss IH]; intros l w E; cbn [foldl] in E.
  { simplify_eq. by destruct l'. }
  unfold init_slot at 2 in E.
  destruct (slot_apply_config _ _ _ _) as [[b l1] w1] eqn:E1.
  apply slot_apply_config_spec in E1 as (Ea & Es & Eact & _ & Ew).
  apply IH in E as (El & L1 & L2 & W). rewrite El, Ea. cbn in *.
  rewrite length_insert in Eact. split_and!; try done; congruence.
Qed.

Lemma boot_inv cfg w : threads_inv (boot_threads cfg w) /\ sent_log (th_net (boot_threads cfg w)) = sent_log w.
Proof.
  unfold boot_threads, pstop_lockstep_start, on_machine, pstop_lockstep_init.
  destruct (foldl _ _ _) as [l w1] eqn:E. apply init_fold in E as (El & L1 & L2 & W).
  destruct (k_uptime_get _) as [t o]. split; [|exact W].
  assert (forall c, (c < ESTOP_CHANNELS)%nat -> gen_at l c = 0 /\ estop_at l c = estop_state_init) as Hc.
  { apply two_channels; by rewrite El. }
  split; try done; cbn [th_lock th_ticks].
  - split; [exact L1|exact L2|by rewrite El|by rewrite El| |by rewrite El|by rewrite El].
    rewrite El. by repeat constructor.
  - by split; constructor.
  - intros c Hlt. by by_channel c Hlt.
  - intros c Hlt. destruct (Hc c Hlt) as [_ He]. unfold tracks. cbn [th_lock]. rewrite He.
    by_channel c Hlt; by split.
  - intros _. by rewrite El.
  - intros _ c Hlt. destruct (Hc c Hlt) as [Hg _]. split; cbn [th_lock]; [|by by_channel c Hlt].
    rewrite Hg, El. cbn. lia.
Qed.
End Reachable.

Section Sends.
Context `{!PstopLib} `{Gpio} `{!Sockets}.

Lemma new_sends_nil (w w' : net) : sent_log w' = sent_log w -> new_sends w w' = [].
Proof. intros E. unfold new_sends. by rewrite E, drop_all. Qed.

(** Only a turn of the commit loop sends, and it sends its slot's frame. *)
Definition sends (s : threads) : list datagram :=
  match th_comparator s with
  | CCommit _ (slot :: _) =>
      if due_slot (th_lock s) slot then [transmission (th_lock s) slot] else []
  | _ => []
  end.

Lemma comparator_sends cfg s s' : comparator_step cfg s = Some s' ->
  sent_log (th_net s') = sent_log (th_net s) ++ sends s.
Proof.
  unfold comparator_step, sends. intros E.
  destruct (th_comparator s) as [|now|now|t [|c cs]|t [|c cs]|t [|c cs]|t|t|t|t|t [|slot ss]
    |t [|slot ss]|t|t [|slot ss]|] eqn:Ec; rewrite ?app_nil_r;
    unfold take_done, compare_slot, record_mismatch, record_late, on_statics, on_machine, mint_gen in E;
    try (injection E as <-; done);
    try (destruct (k_uptime_get _) as [u o]; injection E as <-; done).
  - pose proof (snapshot_kept cfg now (th_lock s) (th_net s)) as [_ Hw]. cbn [fst snd] in E.
    destruct (snapshot_tick _ _ _ _) as [l w]. by injection E as <-.
  - destruct (_ =? _)%nat; [destruct (_ <=? _); [|done]|]; by injection E as <-.
  - destruct (k_uptime_get _) as [u o]. destruct (_ && _); by injection E as <-.
  - destruct (primed _); by injection E as <-.
  - destruct (k_uptime_get _) as [u o]. destruct (_ && _); by injection E as <-.
  - pose proof (commit_slot_kept (th_lock s) (th_net s) slot) as (_ & _ & _ & _ & _ & _ & Hw).
    destruct (commit_slot _ _) as [l w]. by injection E as <-.
  - destruct (primed _); by injection E as <-.
  - pose proof (service_slot_kept (tk_now t) (th_lock s) (th_net s) slot) as [_ Hw].
    destruct (service_slot _ _ _) as [l w]. by injection E as <-.
  - destruct (_ <=? _); [|done]. by injection E as <-.
Qed.

Lemma step_sends a s s' d : threads_inv s -> step a s = Some s' ->
  d ∈ new_sends (th_net s) (th_net s') -> d ∈ sends s.
Proof.
  intros I E Hd. destruct a as [c poles cfg|cfg|slot|slot|f]; cbn [step] in E.
  2: { apply comparator_sends in E. unfold new_sends in Hd. by rewrite E, drop_app_length in Hd. }
  all: exfalso; revert Hd; rewrite new_sends_nil; [apply not_elem_of_nil|].
  - destruct (Nat.ltb_spec c ESTOP_CHANNELS) as [Hc|]; [|done].
    by apply (sampler_step_other c poles cfg s s' (iv_wf _ I) (iv_sampler _ I) Hc (iv_build _ I c Hc)).
  - by injection E as <-.
  - by injection E as <-.
  - by injection E as <-.
Qed.

(** What a frame on the wire says when neither channel was overrun. *)
Definition send_agreed (s : threads) (d : datagram) : Prop :=
  let l := th_lock s in
  let m := m_message (pstop_message_decode (snd (fst d))) in
  primed l = true /\
  exists slot, (slot < PSTOP_MAX_MACHINES)%nat /\ due_slot l slot = true /\
    d = transmission l slot /\ frame l 0 slot = frame l 1 slot /\
    forall c, (c < ESTOP_CHANNELS)%nat ->
      gen_at l c = tick_gen l /\ (m = PSTOP_MESSAGE_BOND \/ m = verdict_at l c) /\
      (m = PSTOP_MESSAGE_OK -> (3 <= trailing raw_closed (reads_at s c))%nat).

Lemma sends_agreed {PL : PstopLaws} s d :
  threads_inv s -> th_ticks s < 2 ^ 32 ->
  (forall c, (c < ESTOP_CHANNELS)%nat -> overrun_at s c = false) ->
  d ∈ sends s -> send_agreed s d.
Proof.
  intros I Ht Hov Hd. unfold sends in Hd.
  pose proof (iv_unsent _ I) as [_ Hin]. pose proof (iv_agreed _ I Ht Hov) as Ha.
  pose proof (fun c Hc => iv_stage _ I Ht c Hc (Hov c Hc)) as Hst.
  pose proof (iv_tracks _ I) as Htr. unfold stage, agreed in *.
  destruct (th_comparator s) as [| | | | | | | | | | |t [|slot ss]| | |] eqn:Ec;
    try by apply not_elem_of_nil in Hd.
  destruct (due_slot (th_lock s) slot) eqn:Hdue; [|by apply not_elem_of_nil in Hd].
  apply list_elem_of_singleton in Hd as ->. destruct Ha as [Hp Heq].
  cbn [unsent] in Hin. apply Forall_cons in Hin as [Hslot _].
  apply list_elem_of_In, in_seq in Hslot. specialize (Heq slot ltac:(left) Hdue).
  split; [done|]. exists slot. split; [lia|]. do 3 (split; [done|]). intros c Hc.
  destruct (Hst c Hc) as (_ & _ & Hg & Hb & Hr). split; [done|].
  destruct (Hb slot ltac:(left) ltac:(apply not_elem_of_nil) Hdue) as [me Hme].
  assert (snd (fst (transmission (th_lock s) slot)) = frame (th_lock s) c slot) as ->.
  { by_channel c Hc; done. }
  destruct (Htr c Hc) as [_ Hv]. specialize (Hv Hr).
  destruct codes_u8 as (? & ? & _). destruct codes_distinct as (Hne1 & Hne2 & _).
  rewrite Hme, encoding_message by (rewrite Hv; bool_case; lia).
  destruct (decide _) as [Hbd|Hbd]; split; auto.
  - rewrite Hv. bool_case; [intros _; by apply Nat.leb_le|by intros ?].
  - by intros ?.
Qed.

Lemma priority_run_run acts s s' : priority_run acts s = Some s' -> run acts s = Some s'.
Proof.
  revert s. induction acts as [|a acts IH]; intros s E; [done|]. cbn [priority_run run] in *.
  destruct (by_priority a s); [|done]. destruct (step a s); [by apply IH|done].
Qed.

Definition no_overrun (s : threads) : Prop :=
  forall c, (c < ESTOP_CHANNELS)%nat -> overrun_at s c = false.

(** Both samplers are blocked when the comparator mints a generation. *)
Lemma priority_step_no_overrun a s s' : threads_inv s -> by_priority a s = true ->
  step a s = Some s' -> no_overrun s -> no_overrun s'.
Proof.
  intros I Hp E Hn. destruct a as [c poles cfg|cfg|slot|slot|f]; cbn [step] in E;
    try by injection E as <-.
  - destruct (Nat.ltb_spec c ESTOP_CHANNELS) as [Hc|]; [|done].
    pose proof (sampler_step_other c poles cfg s s' (iv_wf _ I) (iv_sampler _ I) Hc
      (iv_build _ I c Hc) E) as Hk.
    intros c' Hc'. rewrite (overrun_same _ _ c' (ok_overrun _ _ _ Hk)). by apply Hn.
  - assert (th_overrun s' = th_overrun s \/
      exists now, th_comparator s = CMint now /\ th_overrun s' = map (go_left s) channels) as Ho.
    { clear Hp. unfold comparator_step, take_done, compare_slot, on_statics, on_machine, mint_gen in E.
      destruct (th_comparator s) as [|now|now|t [|c cs]|t [|c cs]|t [|c cs]|t|t|t|t|t [|slot ss]
        |t [|slot ss]|t|t [|slot ss]|] eqn:Ec; try (right; exists now; by injection E as <-); left;
      repeat first [done | injection E as <- | case_match; simplify_eq]. }
    destruct Ho as [Ho|(now & Ec & Ho)]; intros c Hc.
    + rewrite (overrun_same _ _ c Ho). by apply Hn.
    + cbn [by_priority] in Hp. unfold expiring in Hp. rewrite Ec in Hp. cbn [orb] in Hp.
      assert (blocked s c = true) as Hb.
      { eapply forallb_forall in Hp; [exact Hp|]. apply in_seq. lia. }
      assert (go_left s c = false) as Hl.
      { unfold blocked in Hb. unfold go_left. destruct (sampler_at s c); try done. by rewrite Hb. }
      unfold overrun_at. rewrite Ho. by_channel c Hc; exact Hl.
Qed.

Lemma priority_run_no_overrun acts s s' : threads_inv s -> no_overrun s ->
  priority_run acts s = Some s' -> no_overrun s'.
Proof.
  revert s. induction acts as [|a acts IH]; intros s I Hn E; cbn [priority_run] in E; [by simplify_eq|].
  destruct (by_priority a s) eqn:Hp; [|done]. destruct (step a s) as [s1|] eqn:Es; [|done].
  apply (IH s1); [by eapply step_inv|by eapply priority_step_no_overrun|done].
Qed.

Lemma boot_no_overrun cfg w : no_overrun (boot_threads cfg w).
Proof.
  unfold boot_threads, pstop_lockstep_start, on_machine.
  destruct (pstop_lockstep_init _ _ _) as [l w1]. destruct (k_uptime_get _) as [t o].
  intros c Hc. by by_channel c Hc.
Qed.
End Sends.

(** * Properties *)

Section Properties.
Context `{!PstopLib} `{Gpio} `{!Sockets}.

(** C1: Whatever the interleaving, nothing is transmitted that the two channels
    did not both encode for the tick in flight.  At the step that sends a frame
    both channels are primed and have published the current generation, the
    frame is channel 0's for an active, due slot and equals channel 1's byte for
    byte, it decodes to a BOND or to both channels' verdicts, and an OK means
    that each channel's last three loop reads were closed.  The run is any
    interleaving of samplers, comparator, requests and environment from
    power-on, of fewer than 2^32 ticks (13 years), in which neither channel
    still had a [go] of an earlier tick to act on when this tick's generation
    was minted. *)
Theorem threads_send_agreed {PL : PstopLaws} cfg w acts a s s' d :
  run acts (boot_threads cfg w) = Some s -> step a s = Some s' ->
  d ∈ new_sends (th_net s) (th_net s') ->
  th_ticks s < 2 ^ 32 -> no_overrun s -> send_agreed s d.
Proof.
  intros Hrun Hstep Hd Ht Hov.
  pose proof (run_inv _ _ _ (proj1 (boot_inv cfg w)) Hrun) as I.
  apply sends_agreed; try done. by eapply step_sends.
Qed.

(** C2: On one processor, with the samplers above the comparator as
    [pstop_lockstep_start] creates them, the previous property needs no
    condition: the comparator mints a generation only when both samplers are
    blocked with nothing pending, so no channel is ever overrun, however late
    the samplers run and whichever waits time out, and every frame sent is one
    both channels agreed on. *)
Theorem priority_never_overruns {PL : PstopLaws} cfg w acts a s s' d :
  priority_run acts (boot_threads cfg w) = Some s -> step a s = Some s' ->
  d ∈ new_sends (th_net s) (th_net s') -> th_ticks s < 2 ^ 32 ->
  no_overrun s /\ send_agreed s d.
Proof.
  intros Hrun Hstep Hd Ht.
  pose proof (priority_run_no_overrun _ _ _ (proj1 (boot_inv cfg w)) (boot_no_overrun cfg w) Hrun) as Hov.
  apply priority_run_run in Hrun.
  pose proof (run_inv _ _ _ (proj1 (boot_inv cfg w)) Hrun) as I.
  split; [done|]. apply sends_agreed; try done. by eapply step_sends.
Qed.
End Properties.

(** * Witnesses

    The configuration of [Lockstep]'s witnesses: slot 1 configured, the bond
    ack queued, on the simulated machine. *)
From S2P Require Import Instances.

#[local] Abbreviation sim_action := (@action sim_os).
Definition clock (t : Z) : sim_action :=
  @Environment sim_os (fun w : sim => w <| sim_clock := t |>).
Definition comparator_turns (n : nat) : list sim_action := replicate n (Comparator demo_cfg).
Definition sampler_turns (n c : nat) (poles : sim_poles) : list sim_action :=
  replicate n (Sampler c poles demo_cfg).
(** The comparator up to its [CGo], a sampler's whole pass, a woken tick in
    which both samplers run, and the 12 turns a gated and 22 a cleared tick
    has left after its mint. *)
Definition whole_pass (c : nat) (poles : sim_poles) := sampler_turns 10 c poles.
Definition demo_tick_of (rest : nat) (poles : sim_poles) : list sim_action :=
  comparator_turns 7 ++ whole_pass 0 poles ++ comparator_turns 1 ++ whole_pass 1 poles ++
  comparator_turns (S rest).
Definition woken (t : Z) (acts : list sim_action) : list sim_action :=
  clock t :: comparator_turns 1 ++ acts.
Definition demo_threads : threads := boot_threads demo_cfg demo_machine.

(** Two debouncing ticks and, in the third, the comparator about to send. *)
Definition demo_schedule : list sim_action :=
  clock 100 :: demo_tick_of 12 both_closed ++ woken 200 (demo_tick_of 12 both_closed) ++
  woken 300 (demo_tick_of 12 both_closed).
Definition demo_running : option threads := priority_run demo_schedule demo_threads.

(** The same in the tick that overruns: channel 0's pole closes while channel
    1's stays open; sampler 0 sleeps through tick 7, and in tick 8 takes the
    leftover [go] between the mint and the reset, publishes, and is given a
    second one, which it acts on between the comparison and the send. *)
Definition poles_open : sim_poles := Some [false; false].
Definition pole_b_open : sim_poles := Some [true; false].
Definition overrun_schedule : list sim_action :=
  clock 100 :: demo_tick_of 12 poles_open ++
  concat (map (fun t => woken t (demo_tick_of 12 poles_open)) [200; 300; 400]) ++
  woken 500 (demo_tick_of 22 poles_open) ++
  woken 600 (demo_tick_of 22 pole_b_open) ++
  (* tick 7: sampler 0 never runs *)
  woken 700 (comparator_turns 9 ++ whole_pass 1 pole_b_open ++
             clock 780 :: comparator_turns 11) ++
  (* tick 8 *)
  woken 800 (comparator_turns 3 ++ sampler_turns 9 0 pole_b_open ++ comparator_turns 6 ++
             sampler_turns 2 0 pole_b_open ++ whole_pass 1 pole_b_open ++
             comparator_turns 12 ++ sampler_turns 6 0 pole_b_open).

(** The state a schedule reaches. *)
Definition reached (r : option threads) : threads := default demo_threads r.
Definition demo_sending : threads := reached demo_running.
Definition demo_sent : threads := reached (step (Comparator demo_cfg) demo_sending).
Definition demo_frame : datagram :=
  hd (0, [], mk_sockaddr 0 0) (new_sends (th_net demo_sending) (th_net demo_sent)).

Lemma demo_frame_sent : demo_frame ∈ new_sends (th_net demo_sending) (th_net demo_sent).
Proof. apply hd_elem. vm_compute. discriminate. Qed.

Example threads_send_agreed_witness :
  m_message (pstop_message_decode (snd (fst demo_frame))) = PSTOP_MESSAGE_OK /\
  (3 <= trailing raw_closed (reads_at demo_sending 1))%nat.
Proof.
  assert (send_agreed demo_sending demo_frame) as (_ & slot & _ & _ & _ & _ & Hc).
  { apply (@threads_send_agreed wire_lib sim_os sim_gpio sim_sockets wire_laws
      demo_cfg demo_machine demo_schedule (Comparator demo_cfg) demo_sending demo_sent).
    - vm_compute. reflexivity.
    - vm_compute. reflexivity.
    - exact demo_frame_sent.
    - vm_compute. reflexivity.
    - intros c Hlt. by_channel c Hlt; vm_compute; reflexivity. }
  assert (m_message (pstop_message_decode (snd (fst demo_frame))) = PSTOP_MESSAGE_OK) as Hm
    by (vm_compute; reflexivity).
  split; [exact Hm|]. apply Hc; [unfold ESTOP_CHANNELS; lia|exact Hm].
Defined.

Example priority_never_overruns_witness :
  (3 <= trailing raw_closed (reads_at demo_sending 0))%nat.
Proof.
  assert (send_agreed demo_sending demo_frame) as (_ & slot & _ & _ & _ & _ & Hc).
  { refine (proj2 (@priority_never_overruns wire_lib sim_os sim_gpio sim_sockets wire_laws
      demo_cfg demo_machine demo_schedule (Comparator demo_cfg) demo_sending demo_sent demo_frame
      _ _ demo_frame_sent _)); vm_compute; reflexivity. }
  apply Hc; [unfold ESTOP_CHANNELS; lia|vm_compute; reflexivity].
Defined.

(** C7: The condition on overruns is needed: off one processor the generation
    stamp does not keep a single channel's OK off the wire.  From power-on there
    is a run, no timeout tainting its last tick, whose next step transmits an OK while
    channel 1's verdict is STOP and its loop reads open: the [go] of the tick
    before was never reset, so channel 0's sampler runs twice under one
    generation, and its second pass overwrites the frame between the
    comparison and the send. *)
Theorem overrun_sends_one_channel_ok : exists acts s s' d,
  run acts demo_threads = Some s /\ step (Comparator demo_cfg) s = Some s' /\
  new_sends (th_net s) (th_net s') = [d] /\
  m_message (pstop_message_decode (snd (fst d))) = PSTOP_MESSAGE_OK /\
  verdict_at (th_lock s') 1 = PSTOP_MESSAGE_STOP /\
  trailing raw_closed (reads_at s' 1) = 0%nat /\
  gen_at (th_lock s') 0 = tick_gen (th_lock s') /\ gen_at (th_lock s') 1 = tick_gen (th_lock s') /\
  option_map tk_late (tick_in (th_comparator s')) = Some 0 /\ overrun_at s 0 = true.
Proof.
  exists overrun_schedule, (reached (run overrun_schedule demo_threads)).
  eexists. eexists.
  split; [vm_compute; reflexivity|]. split; [vm_compute; reflexivity|].
  split; [vm_compute; reflexivity|].
  repeat (split; [vm_compute; reflexivity|]). vm_compute. reflexivity.
Qed.
