(* ===== verification/Ticks.v ===== *)
(** What the threads of [Threads.v] compute, and that the comparator always
    comes round.

    [threaded_tick_is_tick_sync]: with nothing else running, the comparator and
    the two samplers, scheduled by priority, end a tick with what [tick_sync]
    computes, up to the latency record only the threaded path keeps.
    [comparator_never_hangs]: whatever the samplers do, the comparator ends its
    tick within 32 turns, and it is blocked only by a clock. *)

From S2P Require Import Prelude Platform Verdict AppSettings Session Lockstep Threads.
#[local] Open Scope Z_scope.

(** ** The comparator's turns left in a tick *)
Definition rank (pc : comparator_pc) : nat :=
  match pc with
  | CTop => 32
  | CSnapshot _ => 31
  | CMint _ => 30
  | CReset _ cs => 27 + length cs
  | CGo _ cs => 24 + length cs
  | CTake _ cs => 21 + length cs
  | CLate _ => 20
  | CScan _ => 19
  | CChoose _ => 18
  | CPrimed _ => 17
  | CCompare _ ss => 12 + length ss
  | CCommit _ ss => 7 + length ss
  | CObserve _ => 6
  | CService _ ss => 1 + length ss
  | CSleep => 0
  end.

Section Liveness.
Context `{!PstopLib} `{Gpio} `{!Sockets}.

(** The uptime a blocked comparator waits for. *)
Definition wait_until (s : threads) : option Z :=
  match th_comparator s with
  | CTake t (_ :: _) => Some (deadline t)
  | CSleep => Some (th_next s)
  | _ => None
  end.

Definition is_comparator (a : action) : bool := match a with Comparator _ => true | _ => false end.
Definition turns (acts : list action) : nat :=
  length (filter (fun a => is_comparator a = true) acts).

Lemma comparator_step_rank cfg s s' : comparator_step cfg s = Some s' ->
  th_comparator s <> CSleep -> (rank (th_comparator s') < rank (th_comparator s))%nat.
Proof.
  unfold comparator_step, take_done, compare_slot, on_statics, on_machine, mint_gen. intros E.
  destruct (th_comparator s) as [|now|now|t [|c cs]|t [|c cs]|t [|c cs]|t|t|t|t|t [|slot ss]
    |t [|slot ss]|t|t [|slot ss]|] eqn:Ec; intros Hs; try done;
  repeat first [injection E as <- | case_match; simplify_eq]; cbn; try lia;
  destruct (tk_late t =? 0); cbn; lia.
Qed.

Lemma other_step_comparator a s s' : step a s = Some s' ->
  is_comparator a = false -> th_comparator s' = th_comparator s.
Proof.
  destruct a as [c poles cfg|cfg|slot|slot|f]; cbn [step]; intros E Ha; try done;
    try by injection E as <-.
  unfold sampler_step, on_machine in E. by repeat first [done | case_match; simplify_eq].
Qed.

Lemma run_app acts1 acts2 s :
  run (acts1 ++ acts2) s = match run acts1 s with Some s1 => run acts2 s1 | None => None end.
Proof.
  revert s. induction acts1 as [|a acts1 IH]; intros s; cbn [app run]; [done|].
  by destruct (step a s).
Qed.

Lemma comparator_blocked cfg s : comparator_step cfg s = None ->
  exists u, wait_until s = Some u /\ uptime s < u.
Proof.
  unfold comparator_step, wait_until, take_done, on_machine. intros E.
  destruct (th_comparator s) as [|now|now|t [|c cs]|t [|c cs]|t [|c cs]|t|t|t|t|t [|slot ss]
    |t [|slot ss]|t|t [|slot ss]|] eqn:Ec;
  try discriminate E;
  try (destruct (k_uptime_get _) as [u o]; discriminate E).
  - destruct (done_at s c =? 0)%nat; [|discriminate E].
    destruct (deadline t <=? uptime s) eqn:Hd; [discriminate E|]. to_prop. by eexists.
  - destruct ((tk_late t =? 0) && _); discriminate E.
  - destruct (th_next s <=? uptime s) eqn:Hd; [discriminate E|]. to_prop. by eexists.
Qed.

Lemma rank_sleep pc : rank pc = 0%nat -> pc = CSleep.
Proof. destruct pc; cbn; intros; (done || lia). Qed.

(** A comparator that does not sleep uses up its turns. *)
Lemma turns_bounded acts s s' : run acts s = Some s' ->
  (rank (th_comparator s) < turns acts)%nat ->
  exists acts1 acts2 s1, acts = acts1 ++ acts2 /\ run acts1 s = Some s1 /\
    th_comparator s1 = CSleep.
Proof.
  revert s. induction acts as [|a acts IH]; intros s E Ht; [unfold turns in Ht; cbn in Ht; lia|].
  destruct (Nat.eq_dec (rank (th_comparator s)) 0) as [Hs|Hs].
  { exists [], (a :: acts), s. split_and!; [done..|by apply rank_sleep]. }
  cbn [run] in E. destruct (step a s) as [s1|] eqn:Es; [|done].
  destruct (IH s1 E) as (acts1 & acts2 & s2 & -> & Hrun & Hc).
  - unfold turns in *. rewrite filter_cons in Ht. destruct (is_comparator a) eqn:Ha.
    + rewrite decide_True in Ht by done. cbn [length] in Ht. destruct a as [|cfg| | |]; try done.
      pose proof (comparator_step_rank cfg s s1 Es ltac:(by intros Ec; rewrite Ec in Hs)). lia.
    + rewrite decide_False in Ht by done. by rewrite (other_step_comparator a s s1 Es Ha).
  - exists (a :: acts1), acts2, s2. split; [done|]. cbn [run]. by rewrite Es.
Qed.

(** C9: The comparator cannot be hung by a sampler.  In every run from the top
    of its loop, whatever the samplers do or fail to do, more than 32 turns of
    the comparator take it through the end of its tick; and in every state
    where it cannot move it waits for an instant, the sampler deadline or the
    next tick, that the uptime has not reached. *)
Theorem comparator_never_hangs :
  (forall acts s s', run acts s = Some s' -> th_comparator s = CTop -> (32 < turns acts)%nat ->
     exists acts1 acts2 s1, acts = acts1 ++ acts2 /\ run acts1 s = Some s1 /\
       th_comparator s1 = CSleep) /\
  (forall cfg s, step (Comparator cfg) s = None ->
     exists u, wait_until s = Some u /\ uptime s < u).
Proof.
  split; [|apply comparator_blocked].
  intros acts s s' E Hc Ht. eapply turns_bounded; [exact E|]. by rewrite Hc.
Qed.
End Liveness.

(** * A threaded tick is a synchronous one *)

Section Equivalence.
Context `{!PstopLib} `{Gpio} `{!Sockets}.
Variables (poles : sim_poles) (cfg : app_settings) (cfgs : nat -> app_settings).

(** Only the comparator and the samplers run, each with its settings. *)
Definition undisturbed (a : action) : Prop :=
  a = Comparator cfg \/ exists c, a = Sampler c poles (cfgs c).
Definition reaches (s s' : threads) : Prop :=
  exists acts, Forall undisturbed acts /\ priority_run acts s = Some s'.

Lemma reaches_refl s : reaches s s.
Proof. exists []. split; [constructor|done]. Qed.

Lemma reaches_step a s s1 s' : undisturbed a -> by_priority a s = true ->
  step a s = Some s1 -> reaches s1 s' -> reaches s s'.
Proof.
  intros Ha Hp Hs (acts & Hf & Hr). exists (a :: acts). split; [by constructor|].
  cbn [priority_run]. by rewrite Hp, Hs.
Qed.

(** Both samplers wait: the comparator may move. *)
Definition idle_at (l : lockstep) (w : net) (pc : comparator_pc) (dn : list nat) (nx : Z)
    (obs : list (Z * Z * Z)) (rs : list (list (Z * Z))) (k : Z) (ov : list bool) : threads :=
  mk_threads l w [0; 0]%nat dn [SWait; SWait] pc nx obs rs k ov.

Lemma reaches_comparator l w pc dn nx obs rs k ov s1 s' :
  comparator_step cfg (idle_at l w pc dn nx obs rs k ov) = Some s1 -> reaches s1 s' ->
  reaches (idle_at l w pc dn nx obs rs k ov) s'.
Proof. apply (reaches_step (Comparator cfg)); [by left|]. apply orb_true_r. Qed.

Lemma reaches_sampler c s s1 s' : (c < ESTOP_CHANNELS)%nat ->
  sampler_step c poles (cfgs c) s = Some s1 -> reaches s1 s' -> reaches s s'.
Proof.
  intros Hc Hs. apply (reaches_step (Sampler c poles (cfgs c))); [right; by exists c|done|].
  cbn [step]. by apply Nat.ltb_lt in Hc as ->.
Qed.

(** The four loops of the tick's second half. *)
Lemma compare_reaches t ss l w dn nx obs rs k ov s' :
  reaches (match List.find (fun slot => due_slot l slot &&
                     bool_decide (frame l 0 slot <> frame l 1 slot)) ss with
           | Some slot =>
               let '(l, w) := record_mismatch slot l w in
               idle_at (l <| mismatches ::= fun n => u32 (n + 1) |>) w (CObserve t) dn nx obs rs k ov
           | None => idle_at l w (CCommit t slots) dn nx obs rs k ov
           end) s' ->
  reaches (idle_at l w (CCompare t ss) dn nx obs rs k ov) s'.
Proof.
  induction ss as [|slot ss IH]; cbn [List.find]; intros Hr.
  { by eapply reaches_comparator. }
  eapply reaches_comparator; [reflexivity|]. unfold compare_slot. cbn [th_lock th_net idle_at].
  destruct (due_slot l slot && _); [|by apply IH].
  by destruct (record_mismatch slot l w) as [l1 w1].
Qed.

Lemma commit_reaches t ss l w dn nx obs rs k ov s' :
  (let '(l, w) := foldl commit_slot (l, w) ss in
   reaches (idle_at l w (CObserve t) dn nx obs rs k ov) s') ->
  reaches (idle_at l w (CCommit t ss) dn nx obs rs k ov) s'.
Proof.
  revert l w. induction ss as [|slot ss IH]; cbn [foldl]; intros l w Hr.
  { by eapply reaches_comparator. }
  eapply reaches_comparator; [reflexivity|]. unfold on_statics. cbn [th_lock th_net idle_at].
  destruct (commit_slot (l, w) slot) as [l1 w1]. by apply IH.
Qed.

Lemma service_reaches t ss l w dn nx obs rs k ov s' :
  (let '(l, w) := foldl (service_slot (tk_now t)) (l, w) ss in
   reaches (idle_at l w CSleep dn nx obs rs k ov) s') ->
  reaches (idle_at l w (CService t ss) dn nx obs rs k ov) s'.
Proof.
  revert l w. induction ss as [|slot ss IH]; cbn [foldl]; intros l w Hr.
  { by eapply reaches_comparator. }
  eapply reaches_comparator; [reflexivity|]. unfold on_statics. cbn [th_lock th_net idle_at].
  destruct (service_slot (tk_now t) (l, w) slot) as [l1 w1]. by apply IH.
Qed.

Lemma observe_reaches t l w dn nx obs rs k ov s' :
  reaches (idle_at l w (CService t slots) dn nx
    (obs ++ if primed l then [(tk_gen t, verdict_at l 0, verdict_at l 1)] else []) rs k ov) s' ->
  reaches (idle_at l w (CObserve t) dn nx obs rs k ov) s'.
Proof.
  intros Hr. eapply reaches_comparator; [reflexivity|]. cbn [th_lock idle_at].
  destruct (primed l); [done|]. by rewrite app_nil_r in Hr.
Qed.

(** The observer and the services, as [run_tick_body] ends. *)
Lemma finish_reaches t l w dn nx obs rs k ov s' :
  (let '(ev, l, w) :=
     (let '(l', w') := foldl (service_slot (tk_now t)) (l, w) slots in
      (if primed l then Some (tk_gen t, verdict_at l 0, verdict_at l 1) else None, l', w')) in
   reaches (idle_at l w CSleep dn nx (obs ++ option_list ev) rs k ov) s') ->
  reaches (idle_at l w (CObserve t) dn nx obs rs k ov) s'.
Proof.
  intros Hr. apply observe_reaches, service_reaches.
  destruct (foldl _ (l, w) slots) as [l' w']. by destruct (primed l).
Qed.

(** [run_tick_body], turn by turn. *)
Lemma body_reaches t l w dn nx obs rs k ov s' :
  tk_late t = 0 -> gen_at l 0 = tk_gen t -> gen_at l 1 = tk_gen t ->
  (let '(ev, l, w) := run_tick_body (tk_now t) (tk_gen t) 0 (tk_late_by t) l w in
   reaches (idle_at l w CSleep dn nx (obs ++ option_list ev) rs k ov) s') ->
  reaches (idle_at l w (CScan t) dn nx obs rs k ov) s'.
Proof.
  intros Hl H0g H1g Hr. unfold run_tick_body in Hr.
  rewrite late_samplers_published in Hr by done.
  assert (samplers_published (tk_gen t) l = true) as Hp by by apply published_iff.
  rewrite Hp in Hr. cbn [Z.eqb andb] in Hr.
  set (t1 := t <| tk_late ::= fun m => late_samplers (tk_gen t) m l |>).
  apply (reaches_comparator l w (CScan t) dn nx obs rs k ov
           (idle_at l w (CChoose t1) dn nx obs rs k ov)); [done|].
  assert (tk_late t1 = 0) as Hl1 by (unfold t1; cbn; rewrite Hl; by apply late_samplers_published).
  assert (tk_gen t1 = tk_gen t /\ tk_now t1 = tk_now t) as [Eg En] by done. clearbody t1.
  apply (reaches_comparator l w (CChoose t1) dn nx obs rs k ov
           (idle_at l w (CPrimed t1) dn nx obs rs k ov)).
  { cbn [comparator_step th_comparator idle_at th_lock]. by rewrite Hl1, Eg, Hp. }
  apply (reaches_comparator l w (CPrimed t1) dn nx obs rs k ov
    (if primed l then idle_at l w (CCompare t1 slots) dn nx obs rs k ov
     else idle_at (l <| gated_ticks ::= fun n => u32 (n + 1) |>) w (CObserve t1) dn nx obs rs k ov)).
  { cbn [comparator_step th_comparator idle_at th_lock]. by destruct (primed l). }
  rewrite <- En, <- Eg in Hr. unfold comparator_pass in Hr.
  destruct (primed l) eqn:Hpr; cbn [negb] in Hr.
  - apply compare_reaches. unfold differing_slot in Hr.
    destruct (List.find _ slots) as [slot|].
    + destruct (record_mismatch slot l w) as [l1 w1]. apply finish_reaches.
      by destruct (foldl _ _ slots) as [l2 w2].
    + apply commit_reaches. destruct (foldl commit_slot (l, w) slots) as [l2 w2].
      apply finish_reaches. by destruct (foldl _ _ slots) as [l3 w3].
  - apply finish_reaches. by destruct (foldl _ _ slots) as [l2 w2].
Qed.

(** Sampler [c] alone in its loop, its [go] taken. *)
Definition sampling (c : nat) (p : sampler_pc) (l : lockstep) (w : net) (pc : comparator_pc)
    (dn : list nat) (nx : Z) (obs : list (Z * Z * Z)) (rs : list (list (Z * Z))) (k : Z)
    (ov : list bool) : threads :=
  mk_threads l w [0; 0]%nat dn (<[c := p]> [SWait; SWait]) pc nx obs rs k ov.

Lemma build_reaches c g v ss l w pc dn nx obs rs k ov s' : (c < ESTOP_CHANNELS)%nat ->
  reaches (sampling c (SBuild g v [])
    (foldl (build_slot (app_settings_effective_device_id (cfgs c)) v c) l ss)
    w pc dn nx obs rs k ov) s' ->
  reaches (sampling c (SBuild g v ss) l w pc dn nx obs rs k ov) s'.
Proof.
  intros Hc. revert l. induction ss as [|slot ss IH]; intros l Hr; [done|]. cbn [foldl] in Hr.
  apply (reaches_sampler c _ (sampling c (SBuild g v ss)
    (build_slot (app_settings_effective_device_id (cfgs c)) v c l slot) w pc dn nx obs rs k ov) _ Hc);
    [by by_channel c Hc|by apply IH].
Qed.

(** [sampler_pass], step by step. *)
Lemma pass_reaches c l w pc dn nx obs rs k ov s' : (c < ESTOP_CHANNELS)%nat ->
  (let '(l', w') := sampler_pass poles (cfgs c) c (tick_gen l) l w in
   reaches (idle_at l' w' pc (alter k_sem_give c dn) nx obs
     (alter (fun r => r ++ [fst (estop_read_phases poles c (machine w))]) c rs) k ov) s') ->
  reaches (mk_threads l w (alter k_sem_give c [0; 0]%nat) dn [SWait; SWait] pc nx obs rs k ov) s'.
Proof.
  intros Hc Hr. unfold sampler_pass, on_machine in Hr.
  apply (reaches_sampler c _ (sampling c SGen l w pc dn nx obs rs k ov) _ Hc); [by by_channel c Hc|].
  apply (reaches_sampler c _ (sampling c (SSample (tick_gen l)) l w pc dn nx obs rs k ov) _ Hc);
    [by by_channel c Hc|].
  set (rs' := alter _ c rs) in Hr.
  destruct (estop_channel_sample poles c (estop_at l c) (machine w)) as [[v e] o] eqn:Es.
  set (l1 := l <| estop ::= <[c := e]> |> <| sampler_verdict ::= <[c := v]> |>) in Hr.
  apply (reaches_sampler c _ (sampling c (SBuild (tick_gen l) v slots) l1 (w <| machine := o |>)
    pc dn nx obs rs' k ov) _ Hc).
  { by_channel c Hc; unfold sampler_step, on_machine; cbn [sampler_at sampling th_sampler th_lock
      th_net default list_insert insert lookup list_lookup]; by rewrite Es. }
  apply build_reaches; [done|].
  set (l2 := foldl _ l1 slots) in *. clearbody l2. cbv beta iota zeta in Hr.
  destruct (k_uptime_get (machine (w <| machine := o |>))) as [u o'] eqn:Eu.
  set (l3 := l2 <| sampler_done_ms ::= <[c := u32 u]> |>) in Hr.
  apply (reaches_sampler c _ (sampling c (SPublish (tick_gen l)) l3
    (w <| machine := o |> <| machine := o' |>) pc dn nx obs rs' k ov) _ Hc).
  { by_channel c Hc; unfold sampler_step, on_machine; cbn [sampler_at sampling th_sampler th_lock
      th_net default list_insert insert lookup list_lookup]; by rewrite Eu. }
  apply (reaches_sampler c _ (sampling c SGive (l3 <| sampler_gen ::= <[c := tick_gen l]> |>)
    (w <| machine := o |> <| machine := o' |>) pc dn nx obs rs' k ov) _ Hc); [by by_channel c Hc|].
  apply (reaches_sampler c _ (sampling c SWait (l3 <| sampler_gen ::= <[c := tick_gen l]> |>)
    (w <| machine := o |> <| machine := o' |>) pc (alter k_sem_give c dn) nx obs rs' k ov) _ Hc);
    [by by_channel c Hc|].
  by by_channel c Hc.
Qed.
End Equivalence.

Section Latency.
Context `{!PstopLib} `{Gpio} `{!Sockets}.

(** The latency record is the threaded path's own: nothing in a tick reads it. *)
Definition with_latency (f : list Z -> list Z) (l : lockstep) : lockstep :=
  l <| diag ::= fun d => d <| latency_max_ms ::= f |> |>.
Definition without_latency : lockstep -> lockstep := with_latency (fun _ => []).
Definition latency_on (f : list Z -> list Z) (lw : lockstep * net) : lockstep * net :=
  (with_latency f (fst lw), snd lw).

Lemma record_latency_eq c x l :
  record_latency c x l =
  with_latency (fun lat => if lat !!! c <? x then <[c := x]> lat else lat) l.
Proof.
  unfold record_latency, with_latency, update. destruct l as [? ? ? ? ? ? ? ? ? ? ? d]. cbn.
  destruct d. cbn. by destruct (_ <? x).
Qed.

Lemma foldl_commute {A B} (g : A -> A) (f : A -> B -> A) xs a :
  (forall a b, f (g a) b = g (f a b)) -> foldl f (g a) xs = g (foldl f a xs).
Proof.
  intros Hf. revert a. induction xs as [|x xs IH]; intros a; cbn [foldl]; [done|].
  by rewrite Hf, IH.
Qed.

Lemma commit_latency f lw slot : commit_slot (latency_on f lw) slot = latency_on f (commit_slot lw slot).
Proof.
  destruct lw as [l w]. unfold commit_slot, latency_on. cbn [fst snd].
  change (due_slot (with_latency f l) slot) with (due_slot l slot).
  change (session_at (with_latency f l) slot) with (session_at l slot).
  change (frame (with_latency f l) 0 slot) with (frame l 0 slot).
  change (tick_now_ms (with_latency f l)) with (tick_now_ms l).
  destruct (due_slot l slot); [|done].
  by destruct (pstop_session_commit_send _ _ _ _) as [[ret s] w'].
Qed.

Lemma service_latency f now lw slot :
  service_slot now (latency_on f lw) slot = latency_on f (service_slot now lw slot).
Proof.
  destruct lw as [l w]. unfold service_slot, latency_on. cbn [fst snd].
  change (active (with_latency f l) slot) with (active l slot).
  change (session_at (with_latency f l) slot) with (session_at l slot).
  destruct (active l slot); [|done]. by destruct (pstop_session_poll _ _ _) as [s w'].
Qed.

Lemma comparator_latency f l w :
  comparator_pass (with_latency f l) w = latency_on f (comparator_pass l w).
Proof.
  unfold comparator_pass. change (primed (with_latency f l)) with (primed l).
  destruct (primed l); cbn [negb]; [|done].
  change (differing_slot (with_latency f l)) with (differing_slot l).
  destruct (differing_slot l) as [slot|].
  - unfold record_mismatch, on_machine. by destruct (k_uptime_get _) as [u o].
  - exact (foldl_commute (latency_on f) commit_slot slots (l, w) (commit_latency f)).
Qed.

Lemma run_tick_body_latency f now gen mask late_by l w :
  run_tick_body now gen mask late_by (with_latency f l) w =
  let '(ev, l', w') := run_tick_body now gen mask late_by l w in (ev, with_latency f l', w').
Proof.
  unfold run_tick_body.
  change (late_samplers gen mask (with_latency f l)) with (late_samplers gen mask l).
  change (samplers_published gen (with_latency f l)) with (samplers_published gen l).
  pose proof (fun l w => foldl_commute (latency_on f) (service_slot now) slots (l, w)
                           (service_latency f now)) as Hs.
  unfold latency_on in Hs. cbn [fst snd] in Hs.
  destruct (_ && _).
  - rewrite comparator_latency. unfold latency_on.
    destruct (comparator_pass l w) as [l1 w1]. cbn [fst snd]. rewrite Hs.
    change (primed (with_latency f l1)) with (primed l1).
    by destruct (foldl _ (l1, w1) slots) as [l2 w2].
  - unfold record_late, on_machine. destruct (k_uptime_get _) as [u o]. cbv beta iota zeta.
    match goal with |- context [foldl _ (?x <| diag ::= ?g |>, ?w) slots] =>
      change (x <| diag ::= g |>) with (with_latency f (l <| missed_deadlines ::= fun n => u32 (n + 1) |>
        <| diag ::= g |>)) end.
    rewrite Hs. by destruct (foldl _ _ slots) as [l2 w2].
Qed.
End Latency.

Section Ticks.
Context `{!PstopLib} `{Gpio} `{!Sockets}.
Variables (poles : sim_poles) (cfg : app_settings) (cfgs : nat -> app_settings).
#[local] Abbreviation reaches := (reaches poles cfg cfgs).

(** From the top of the loop to the first [go]. *)
Lemma begin_reaches l w nx obs rs k ov s' :
  (let '(u, w) := on_machine k_uptime_get w in
   let '(gen, l, w) := begin_tick cfg (u64 u) l w in
   reaches (idle_at l w (CGo (mk_tick (u64 u) gen 0 0) channels) [0; 0]%nat
              (PSTOP_TICK_MS + nx) obs rs (Z.succ k) [false; false]) s') ->
  reaches (idle_at l w CTop [0; 0]%nat nx obs rs k ov) s'.
Proof.
  unfold on_machine. destruct (k_uptime_get (machine w)) as [u o] eqn:Eu.
  set (w1 := w <| machine := o |>). set (now := u64 u).
  rewrite begin_tick_split. destruct (snapshot_tick cfg now l w1) as [l1 w2] eqn:Es.
  cbn [mint_gen]. set (gen := u32 (tick_gen l1 + 1)). set (l2 := l1 <| tick_gen := gen |>).
  intros Hr.
  apply (reaches_comparator _ _ _ l w CTop [0; 0]%nat nx obs rs k ov
    (idle_at l w1 (CSnapshot now) [0; 0]%nat (PSTOP_TICK_MS + nx) obs rs k ov)).
  { cbn [comparator_step th_comparator idle_at th_net]. unfold on_machine. by rewrite Eu. }
  apply (reaches_comparator _ _ _ l w1 (CSnapshot now) [0; 0]%nat _ obs rs k ov
    (idle_at l1 w2 (CMint now) [0; 0]%nat (PSTOP_TICK_MS + nx) obs rs k ov)).
  { unfold comparator_step, on_statics. cbn [th_comparator idle_at th_lock th_net fst snd].
    by rewrite Es. }
  do 4 (eapply reaches_comparator; [reflexivity|]). exact Hr.
Qed.

(** The two waits, both gives pending. *)
Lemma waits_reach t l w nx obs rs k ov : tk_late t = 0 -> exists f, forall s',
  reaches (idle_at (with_latency f l) w (CScan t) [0; 0]%nat nx obs rs k ov) s' ->
  reaches (idle_at l w (CTake t channels) [1; 1]%nat nx obs rs k ov) s'.
Proof.
  intros Hl.
  set (lat := fun c l => u32 (sampler_done_ms l !!! c - u32 (tk_now t))).
  set (l1 := record_latency 0 (lat 0%nat l) l). set (l2 := record_latency 1 (lat 1%nat l1) l1).
  assert (exists f, l2 = with_latency f l) as [f Hf].
  { unfold l2, l1. rewrite !record_latency_eq.
    match goal with |- context [with_latency ?g (with_latency ?h l)] =>
      by exists (fun x => g (h x)) end. }
  exists f. rewrite <- Hf. intros s' Hr.
  apply (reaches_comparator _ _ _ l w (CTake t channels) [1; 1]%nat nx obs rs k ov
    (idle_at l1 w (CTake t [1%nat]) [0; 1]%nat nx obs rs k ov)); [done|].
  apply (reaches_comparator _ _ _ l1 w (CTake t [1%nat]) [0; 1]%nat nx obs rs k ov
    (idle_at l2 w (CTake t []) [0; 0]%nat nx obs rs k ov)); [done|].
  apply (reaches_comparator _ _ _ l2 w (CTake t []) [0; 0]%nat nx obs rs k ov
    (idle_at l2 w (CScan t) [0; 0]%nat nx obs rs k ov)); [|done].
  cbn [comparator_step th_comparator idle_at]. by rewrite Hl.
Qed.

(** The statics a tick starts its comparison from. *)
Lemma tick_sync_parts now mask l w ev l' w' : lockstep_wf l ->
  tick_sync poles cfg cfgs now mask l w = (ev, l', w') ->
  exists gen lB wB lC wC lD wD,
    begin_tick cfg now l w = (gen, lB, wB) /\ tick_gen lB = gen /\
    sampler_pass poles (cfgs 0%nat) 0 gen lB wB = (lC, wC) /\ tick_gen lC = gen /\
    sampler_pass poles (cfgs 1%nat) 1 gen lC wC = (lD, wD) /\
    gen_at lD 0 = gen /\ gen_at lD 1 = gen /\
    run_tick_body now gen mask 0 lD wD = (ev, l', w').
Proof.
  intros Hwf E. unfold tick_sync in E.
  destruct (begin_tick cfg now l w) as [[gen lB] wB] eqn:EB.
  destruct (foldl _ (lB, wB) channels) as [lD wD] eqn:ED.
  pose proof EB as EB'. apply begin_tick_spec in EB' as (_ & ElB & HwfB & _). specialize (HwfB Hwf).
  pose proof ED as ED'. apply samplers_spec in ED' as [S _]; [|done].
  unfold channels in ED. cbn [foldl seq ESTOP_CHANNELS fst snd] in ED.
  destruct (sampler_pass poles (cfgs 0%nat) 0 gen lB wB) as [lC wC] eqn:EC. cbn [fst snd] in ED.
  assert (tick_gen lB = gen) as HgB by by rewrite ElB.
  exists gen, lB, wB, lC, wC, lD, wD. split_and!; try done.
  - pose proof (sampler_pass_spec poles (cfgs 0%nat) 0 gen lB wB lC wC HwfB
      ltac:(unfold ESTOP_CHANNELS; lia) EC) as HC. cbv zeta in HC.
    destruct (estop_decide _ _ _ _) as [v e]. destruct HC as (-> & _). done.
  - apply (sm_published _ _ _ _ _ _ S). unfold ESTOP_CHANNELS. lia.
  - apply (sm_published _ _ _ _ _ _ S). unfold ESTOP_CHANNELS. lia.
Qed.

Lemma tick_reaches l w nx obs r0 r1 k ov u w1 ev l' w' :
  lockstep_wf l -> on_machine k_uptime_get w = (u, w1) ->
  tick_sync poles cfg cfgs (u64 u) 0 l w1 = (ev, l', w') ->
  exists f rs, reaches (idle_at l w CTop [0; 0]%nat nx obs [r0; r1] k ov)
    (idle_at (with_latency f l') w' CSleep [0; 0]%nat (PSTOP_TICK_MS + nx)
       (obs ++ option_list ev) rs (Z.succ k) [false; false]).
Proof.
  intros Hwf Eu E.
  destruct (tick_sync_parts _ _ _ _ _ _ _ Hwf E)
    as (gen & lB & wB & lC & wC & lD & wD & EB & HgB & EC & HgC & ED & H0g & H1g & Eb).
  set (t := mk_tick (u64 u) gen 0 0).
  set (rs1 := [r0 ++ [fst (estop_read_phases poles 0 (machine wB))]; r1]).
  set (rs2 := alter (fun r => r ++ [fst (estop_read_phases poles 1 (machine wC))]) 1%nat rs1).
  destruct (waits_reach t lD wD (PSTOP_TICK_MS + nx) obs rs2 (Z.succ k) [false; false] eq_refl)
    as [f Hf].
  exists f, rs2. apply begin_reaches. rewrite Eu, EB. fold t.
  apply (reaches_comparator _ _ _ lB wB (CGo t channels) [0; 0]%nat _ obs [r0; r1] _ _
    (mk_threads lB wB (alter k_sem_give 0%nat [0; 0]%nat) [0; 0]%nat [SWait; SWait] (CGo t [1%nat])
       (PSTOP_TICK_MS + nx) obs [r0; r1] (Z.succ k) [false; false])); [done|].
  apply pass_reaches; [unfold ESTOP_CHANNELS; lia|]. rewrite HgB, EC.
  change (alter k_sem_give 0%nat [0; 0]%nat) with [1; 0]%nat.
  change (alter _ 0%nat [r0; r1]) with rs1.
  apply (reaches_comparator _ _ _ lC wC (CGo t [1%nat]) [1; 0]%nat _ obs rs1 _ _
    (mk_threads lC wC (alter k_sem_give 1%nat [0; 0]%nat) [1; 0]%nat [SWait; SWait] (CGo t [])
       (PSTOP_TICK_MS + nx) obs rs1 (Z.succ k) [false; false])); [done|].
  apply pass_reaches; [unfold ESTOP_CHANNELS; lia|]. rewrite HgC, ED. fold rs2.
  apply (reaches_comparator _ _ _ lD wD (CGo t []) [1; 1]%nat _ obs rs2 _ _
    (idle_at lD wD (CTake t channels) [1; 1]%nat (PSTOP_TICK_MS + nx) obs rs2 (Z.succ k)
       [false; false])); [done|].
  apply Hf, body_reaches; [done..|]. cbn [tk_now tk_gen tk_late_by t].
  rewrite run_tick_body_latency, Eb. apply reaches_refl.
Qed.

(** C8: The threaded comparator and the synchronous tick the tests drive are the
    same computation.  From the top of the comparator's loop, both samplers
    waiting, the threads scheduled by priority with nothing else running reach
    the comparator's sleep with every semaphore and sampler as it was, having
    done to the machine, to every static (the latency record apart, which only
    the threads keep) and to the observer exactly what [tick_sync] does at the
    uptime the comparator read. *)
Theorem threaded_tick_is_tick_sync l w nx obs r0 r1 k ov u w1 ev l' w' :
  lockstep_wf l -> on_machine k_uptime_get w = (u, w1) ->
  tick_sync poles cfg cfgs (u64 u) 0 l w1 = (ev, l', w') ->
  exists acts s',
    Forall (undisturbed poles cfg cfgs) acts /\
    priority_run acts (idle_at l w CTop [0; 0]%nat nx obs [r0; r1] k ov) = Some s' /\
    th_comparator s' = CSleep /\ go_sem s' = [0; 0]%nat /\ done_sem s' = [0; 0]%nat /\
    th_sampler s' = [SWait; SWait] /\ th_next s' = PSTOP_TICK_MS + nx /\
    th_net s' = w' /\ without_latency (th_lock s') = without_latency l' /\
    th_observed s' = obs ++ option_list ev.
Proof.
  intros Hwf Eu E.
  destruct (tick_reaches l w nx obs r0 r1 k ov u w1 ev l' w' Hwf Eu E) as (f & rs & acts & Ha & Hr).
  eexists acts, _. split; [exact Ha|]. split; [exact Hr|]. by split_and!.
Qed.
End Ticks.

(** * Witnesses *)
From S2P Require Import Instances.

(** The state before [Lockstep]'s third tick, at its uptime. *)
Definition demo_three_in : lockstep * @net sim_os :=
  (fst demo_two, @mk_net sim_os ((machine (snd demo_two) : sim) <| sim_clock := 300 |>)
                   (sent_log (snd demo_two))).

Example threaded_tick_is_tick_sync_witness : exists acts s',
  priority_run acts (@idle_at sim_os (fst demo_three_in) (snd demo_three_in) CTop
    [0; 0]%nat 0 [] [[]; []] 0 [false; false]) = Some s' /\
  th_comparator s' = CSleep /\ length (sent_log (th_net s')) = 1%nat.
Proof.
  destruct (tick_sync both_closed demo_cfg (fun _ => demo_cfg) 300 0 (fst demo_three_in)
              (snd demo_three_in)) as [[ev l'] w'] eqn:E.
  destruct (threaded_tick_is_tick_sync both_closed demo_cfg (fun _ => demo_cfg) (fst demo_three_in)
    (snd demo_three_in) 0 [] [] [] 0 [false; false] 300 (snd demo_three_in) ev l' w' demo_two_wf
    eq_refl E) as (acts & s' & _ & Hr & Hc & _ & _ & _ & _ & Hw & _).
  exists acts, s'. split; [exact Hr|]. split; [exact Hc|]. rewrite Hw.
  apply (f_equal snd) in E. cbn [snd] in E. rewrite <- E. vm_compute. reflexivity.
Defined.

(** No sampler ever runs, and the clock passes every deadline. *)
Definition lone_comparator : list (@action sim_os) :=
  comparator_turns 9 ++ clock 1000 :: comparator_turns 21 ++ clock 2000 :: comparator_turns 3.
Example comparator_never_hangs_witness : exists acts1 acts2 s1,
  lone_comparator = acts1 ++ acts2 /\ run acts1 demo_threads = Some s1 /\
  th_comparator s1 = CSleep.
Proof.
  refine (proj1 comparator_never_hangs lone_comparator demo_threads
    (reached (run lone_comparator demo_threads)) _ _ _).
  - vm_compute. reflexivity.
  - vm_compute. reflexivity.
  - vm_compute. lia.
Defined.
