(* ===== verification/Health.v ===== *)
(** Device health: [health_logic.c], the pure core (the persisted counters'
    blob, the press edge detector, the wear levels, the warning board), and
    [health.c], which folds the comparator's edges into the counters, raises
    the built-in warnings and keeps the counters in flash.

    C strings are [string]s without NUL characters.  The board is the list of
    its first [n] entries, so [n] is the list's length. *)

From S2P Require Import Prelude Platform Printf.
#[local] Open Scope Z_scope.

(** ** health_logic.c *)
Record health_counters := mk_counters {
  presses : Z; mismatch_events : Z; uptime_s : Z; boots : Z; flashes : Z; otas : Z;
  fw_sha : list Z;      (* uint8_t[8] *)
  button_swaps : Z;     (* uint8_t *)
}.
#[export] Instance eta_counters : Eta health_counters := fun c =>
  mk_counters (presses c) (mismatch_events c) (uptime_s c) (boots c) (flashes c) (otas c)
    (fw_sha c) (button_swaps c).
Definition zero_counters : health_counters := mk_counters 0 0 0 0 0 0 (replicate 8 0) 0.

Definition HEALTH_BLOB_VER : Z := 1.
Definition HEALTH_BLOB_LEN : nat := 34.

Definition put_u32 (v : Z) : list Z :=
  [u8 (Z.shiftr v 24); u8 (Z.shiftr v 16); u8 (Z.shiftr v 8); u8 v].
Definition get_u32 (p : list Z) : Z :=
  Z.lor (Z.lor (Z.lor (Z.shiftl (nth 0 p 0) 24) (Z.shiftl (nth 1 p 0) 16))
               (Z.shiftl (nth 2 p 0) 8)) (nth 3 p 0).

Definition health_encode (c : health_counters) : list Z :=
  [u8 HEALTH_BLOB_VER] ++ put_u32 (presses c) ++ put_u32 (mismatch_events c) ++
  put_u32 (uptime_s c) ++ put_u32 (boots c) ++ put_u32 (flashes c) ++ put_u32 (otas c) ++
  fw_sha c ++ [button_swaps c].

Definition health_decode (blob : option (list Z)) (len : nat) : option health_counters :=
  match blob with
  | None => None
  | Some blob =>
      if negb (len =? HEALTH_BLOB_LEN)%nat || negb (nth 0 blob 0 =? u8 HEALTH_BLOB_VER) then None
      else Some (mk_counters (get_u32 (drop 1 blob)) (get_u32 (drop 5 blob))
                   (get_u32 (drop 9 blob)) (get_u32 (drop 13 blob)) (get_u32 (drop 17 blob))
                   (get_u32 (drop 21 blob)) (take 8 (drop 25 blob)) (nth 33 blob 0))
  end.

Record health_edge := mk_edge {
  seen : Z; edge_primed : bool; stop_both : bool; edge_mismatch : bool;
  edge_tick : Z * Z; edge_verdict : Z * Z;
}.
#[export] Instance eta_edge : Eta health_edge := fun e =>
  mk_edge (seen e) (edge_primed e) (stop_both e) (edge_mismatch e) (edge_tick e) (edge_verdict e).
Definition zero_edge : health_edge := mk_edge 0 false false false (0, 0) (0, 0).

Record health_edge_out := mk_edge_out { press : bool; mismatch : bool }.

Definition set_channel {A} (channel : Z) (x : A) (p : A * A) : A * A :=
  if channel =? 0 then (x, snd p) else (fst p, x).

Definition health_edge_step (st : health_edge) (channel tick verdict stop_code : Z)
  : health_edge_out * health_edge :=
  let out := mk_edge_out false false in
  if (channel <? 0) || (1 <? channel) then (out, st)
  else
    let st := st <| edge_tick ::= set_channel channel tick |>
                 <| edge_verdict ::= set_channel channel verdict |>
                 <| seen ::= fun s => Z.lor s (if channel =? 0 then 1 else 2) |> in
    if negb (seen st =? 3) || negb (fst (edge_tick st) =? snd (edge_tick st)) then (out, st)
    else
      let s0 := fst (edge_verdict st) =? stop_code in
      let s1 := snd (edge_verdict st) =? stop_code in
      let both := s0 && s1 in
      let mism := negb (Bool.eqb s0 s1) in
      let out := if edge_primed st
                 then mk_edge_out (both && negb (stop_both st)) (mism && negb (edge_mismatch st))
                 else out in
      (out, st <| edge_primed := true |> <| stop_both := both |> <| edge_mismatch := mism |>).

Definition HEALTH_OK : Z := 0.
Definition HEALTH_WARN : Z := 1.
Definition HEALTH_CRIT : Z := 2.

(** The level, and the percentage written through [pct_out]. *)
Definition health_button_level (presses rated_ops warn_pct : Z) : Z * Z :=
  let pct := if 0 <? rated_ops
             then let p := u64 (presses * 100) / rated_ops in
                  if 999 <? p then 999 else u32 p
             else 0 in
  (if rated_ops =? 0 then HEALTH_OK
   else if 100 <=? pct then HEALTH_CRIT
   else if (0 <? warn_pct) && (warn_pct <=? pct) then HEALTH_WARN
   else HEALTH_OK, pct).

Definition health_mismatch_level (mismatch_events presses min_events per_1000 : Z) : Z :=
  if (per_1000 =? 0) || (mismatch_events <? min_events) then HEALTH_OK
  else
    let basis := if presses <? 1000 then 1000 else presses in
    let allowed := u64 (basis * per_1000) / 1000 in
    if allowed <? mismatch_events then HEALTH_WARN else HEALTH_OK.

Definition health_flush_due (dirty : bool) (since min_interval max_interval : Z) : bool :=
  let max_interval := if max_interval <? min_interval then min_interval else max_interval in
  if max_interval <=? since then true else dirty && (min_interval <=? since).

(** *** The warning board *)
Definition HEALTH_MAX_WARNINGS : nat := 8.
Definition HEALTH_SRC_LEN : nat := 16.
Definition HEALTH_MSG_LEN : nat := 64.

Record health_warning := mk_warning {
  w_src : string; w_msg : string; w_level : Z; w_count : Z; w_first_ms : Z; w_last_ms : Z;
}.
#[export] Instance eta_warning : Eta health_warning := fun w =>
  mk_warning (w_src w) (w_msg w) (w_level w) (w_count w) (w_first_ms w) (w_last_ms w).
Record health_board := mk_board { dropped : Z; warnings : list health_warning }.
#[export] Instance eta_board : Eta health_board := fun b => mk_board (dropped b) (warnings b).
Definition zero_board : health_board := mk_board 0 [].

(** [strncmp(a, b, n) == 0] on C strings. *)
Definition strneq (n : nat) (a b : string) : bool :=
  String.eqb (String.substring 0 n a) (String.substring 0 n b).
Definition copy_str (src : option string) (cap : nat) : string :=
  String.substring 0 (cap - 1) (default ""%string src).

Fixpoint find_from (i : nat) (ws : list health_warning) (src : string) : option nat :=
  match ws with
  | [] => None
  | w :: ws => if strneq HEALTH_SRC_LEN (w_src w) src then Some i else find_from (S i) ws src
  end.
Definition find (b : health_board) (src : string) : option nat := find_from 0 (warnings b) src.

Definition health_board_clear (b : health_board) (src : string) : health_board :=
  match find b src with
  | None => b
  | Some i => b <| warnings ::= fun ws => take i ws ++ drop (S i) ws |>
  end.

(** The update of an entry shared by a new and an old warning. *)
Definition touch (msg : option string) (level now_ms : Z) (w : health_warning) : health_warning :=
  w <| w_msg := copy_str msg HEALTH_MSG_LEN |> <| w_level := level |>
    <| w_count ::= fun n => u32 (n + 1) |> <| w_last_ms := now_ms |>.

Definition health_board_publish (b : health_board) (src : string) (level : Z)
           (msg : option string) (now_ms : Z) : Z * health_board :=
  if level =? HEALTH_OK then (0, health_board_clear b src)
  else
    match find b src with
    | Some i => (0, b <| warnings ::= alter (touch msg level now_ms) i |>)
    | None =>
        if (HEALTH_MAX_WARNINGS <=? length (warnings b))%nat
        then (- ENOMEM, b <| dropped ::= fun n => u32 (n + 1) |>)
        else
          let w := mk_warning (copy_str (Some src) HEALTH_SRC_LEN) "" 0 0 now_ms 0 in
          (0, b <| warnings ::= fun ws => ws ++ [touch msg level now_ms w] |>)
    end.

Definition health_board_level (b : health_board) : Z :=
  foldl (fun worst w => if worst <? w_level w then w_level w else worst) HEALTH_OK (warnings b).

(** ** health.c *)
Record health_config := mk_health_config {
  cfg_rated_ops : Z; cfg_warn_pct : Z; cfg_mismatch_min : Z; cfg_mismatch_per_1000 : Z;
  cfg_flush_min_s : Z; cfg_flush_max_s : Z;
  cfg_fw_id : list Z;   (* APP_VERSION_STRING " " FW_SHA *)
}.

Record health := mk_health {
  h_counters : health_counters;
  h_board : health_board;
  h_dirty : bool;
  uptime_at_boot_s : Z;
  last_flush_ms : Z;
  h_flushes : Z;
  h_flush_fails : Z;
  h_edge : health_edge;
  press_delta : Z;
  mismatch_delta : Z;
  loaded_blob : list Z;
  h_loaded : bool;
}.
#[export] Instance eta_health : Eta health := fun h =>
  mk_health (h_counters h) (h_board h) (h_dirty h) (uptime_at_boot_s h) (last_flush_ms h)
    (h_flushes h) (h_flush_fails h) (h_edge h) (press_delta h) (mismatch_delta h)
    (loaded_blob h) (h_loaded h).
Definition zero_health : health :=
  mk_health zero_counters zero_board false 0 0 0 0 zero_edge 0 0 (replicate HEALTH_BLOB_LEN 0) false.

(** FNV-1a. *)
Definition fnv1a (id : list Z) : Z :=
  foldl (fun h c => u64 (Z.lxor h c * 1099511628211)) 14695981039346656037 id.
Definition fw_identity (id : list Z) : list Z :=
  map (fun i => u8 (Z.shiftr (fnv1a id) (56 - 8 * Z.of_nat i))) (seq 0 8).

Section Health.
Context `{!PstopLib} `{Settings} (cfg : health_config).

Definition health_settings_set (name : string) (v : setting_value) (h : health) : Z * health :=
  match settings_name_steq name "counters" with
  | Some None =>
      if negb (sv_len v =? HEALTH_BLOB_LEN)%nat then (- EINVAL, h)
      else match sv_read v HEALTH_BLOB_LEN with
           | None => (- EIO, h)
           | Some b => (0, h <| loaded_blob := b |> <| h_loaded := true |>)
           end
  | _ => (- ENOENT, h)
  end.

(** The tick observer, on the comparator's thread. *)
Definition observe (tick verdict0 verdict1 : Z) (h : health) : health :=
  let '(_, e) := health_edge_step (h_edge h) 0 tick verdict0 PSTOP_MESSAGE_STOP in
  let '(out, e) := health_edge_step e 1 tick verdict1 PSTOP_MESSAGE_STOP in
  let h := h <| h_edge := e |> in
  let h := if press out then h <| press_delta ::= fun n => u32 (n + 1) |> else h in
  if mismatch out then h <| mismatch_delta ::= fun n => u32 (n + 1) |> else h.

Definition now_uptime_s (w : os) : Z * os :=
  let '(t, w) := k_uptime_get w in (u32 (t / 1000), w).

Definition fold_locked (h : health) (w : os) : health * os :=
  let p := press_delta h in
  let m := mismatch_delta h in
  let h := h <| press_delta := 0 |> <| mismatch_delta := 0 |> in
  let h := if negb (p =? 0) || negb (m =? 0)
           then h <| h_counters ::= fun c =>
                    c <| presses ::= fun n => u32 (n + p) |>
                      <| mismatch_events ::= fun n => u32 (n + m) |> |>
                  <| h_dirty := true |>
           else h in
  let '(t, w) := now_uptime_s w in
  (h <| h_counters ::= fun c => c <| uptime_s := u32 (uptime_at_boot_s h + t) |> |>, w).

Definition HEALTH_SETTINGS_KEY : string := "pstop_health/counters".

Definition flush_locked (h : health) (w : os) : Z * health * os :=
  let '(h, w) := fold_locked h w in
  let '(ret, w) := settings_save_one HEALTH_SETTINGS_KEY (health_encode (h_counters h)) w in
  let '(t, w) := k_uptime_get w in
  let h := h <| last_flush_ms := t |> in
  if negb (ret =? 0) then (ret, h <| h_flush_fails ::= fun n => u32 (n + 1) |>, w)
  else (0, h <| h_flushes ::= fun n => u32 (n + 1) |> <| h_dirty := false |>, w).

Definition evaluate_locked (h : health) (w : os) : health * os :=
  let '(t, w) := k_uptime_get w in
  let now := u64 t in
  let c := h_counters h in
  let '(level, pct) := health_button_level (presses c) (cfg_rated_ops cfg) (cfg_warn_pct cfg) in
  let '(_, msg) := snprintf HEALTH_MSG_LEN "%u%% of rated %u ops"
                     [PInt pct; PInt (cfg_rated_ops cfg)] in
  let '(_, b) := health_board_publish (h_board h) "button_wear" level (Some msg) now in
  let level := health_mismatch_level (mismatch_events c) (presses c) (cfg_mismatch_min cfg)
                 (cfg_mismatch_per_1000 cfg) in
  let '(_, msg) := snprintf HEALTH_MSG_LEN "%u loop mismatches in %u presses"
                     [PInt (mismatch_events c); PInt (presses c)] in
  let '(_, b) := health_board_publish b "loop_mismatch" level (Some msg) now in
  (h <| h_board := b |>, w).

Definition load_health (h : health) (es : list (string * setting_value)) : health :=
  foldl (fun h e => snd (health_settings_set (fst e) (snd e) h)) h es.

(** This boot, and a reflash if the firmware changed. *)
Definition count_boot (c : health_counters) : health_counters :=
  let c := c <| boots ::= fun n => u32 (n + 1) |> in
  let fw := fw_identity (cfg_fw_id cfg) in
  if bool_decide (fw <> fw_sha c)
  then c <| flashes ::= fun n => u32 (n + 1) |> <| fw_sha := fw |> else c.

(** The locked part of [health_init]. *)
Definition health_boot (h : health) (w : os) : Z * health * os :=
  let h := h <| h_counters ::= count_boot |> in
  let '(t, w) := now_uptime_s w in
  let h := h <| uptime_at_boot_s := u32 (uptime_s (h_counters h) - t) |> in
  let '(h, w) := evaluate_locked h w in
  flush_locked h w.

(** The statics as [health_init] zeroes them. *)
Definition reset_statics (h : health) : health :=
  h <| h_counters := zero_counters |> <| h_board := zero_board |>
    <| h_edge := zero_edge |> <| press_delta := 0 |> <| mismatch_delta := 0 |>
    <| h_flushes := 0 |> <| h_flush_fails := 0 |> <| h_loaded := false |>.

(** The counters of the loaded blob, if one was loaded; unreadable is zero. *)
Definition adopt_blob (h : health) : health :=
  if h_loaded h
  then h <| h_counters := default zero_counters
              (health_decode (Some (loaded_blob h)) HEALTH_BLOB_LEN) |>
  else h.

(** A failed load starts from zero, with a warning in the log. *)
Definition health_init (h : health) (w : os) : Z * health * os :=
  let '((_, es), w) := settings_load_subtree "pstop_health" w in
  health_boot (adopt_blob (load_health (reset_statics h) es)) w.

Definition health_poll (h : health) (w : os) : health * os :=
  let '(h, w) := fold_locked h w in
  let '(h, w) := evaluate_locked h w in
  let '(t, w) := k_uptime_get w in
  if health_flush_due (h_dirty h) (u32 ((t - last_flush_ms h) / 1000))
       (cfg_flush_min_s cfg) (cfg_flush_max_s cfg)
  then let '(_, h, w) := flush_locked h w in (h, w)
  else (h, w).

Definition health_flush (h : health) (w : os) : Z * health * os := flush_locked h w.

Definition health_publish (src : string) (level : Z) (msg : option string) (h : health) (w : os)
  : Z * health * os :=
  let '(t, w) := k_uptime_get w in
  let '(ret, b) := health_board_publish (h_board h) src level msg (u64 t) in
  (ret, h <| h_board := b |>, w).

Definition health_level (h : health) : Z := health_board_level (h_board h).

Definition health_reset_button (h : health) (w : os) : Z * health * os :=
  let '(h, w) := fold_locked h w in
  let h := h <| h_counters ::= fun c =>
             let c := c <| presses := 0 |> <| mismatch_events := 0 |> in
             if button_swaps c <? 255 then c <| button_swaps ::= fun n => u8 (n + 1) |> else c |> in
  let '(h, w) := evaluate_locked h w in
  flush_locked h w.

Definition health_reset_all (h : health) (w : os) : Z * health * os :=
  let h := h <| press_delta := 0 |> <| mismatch_delta := 0 |>
             <| h_counters := zero_counters <| fw_sha := fw_identity (cfg_fw_id cfg) |> |> in
  let '(t, w) := now_uptime_s w in
  let h := h <| uptime_at_boot_s := u32 (0 - t) |> in
  let '(h, w) := evaluate_locked h w in
  flush_locked h w.
End Health.

Record health_snapshot := mk_snapshot {
  snap_counters : health_counters; snap_level : Z; snap_rated_ops : Z; snap_wear_pct : Z;
  snap_flushes : Z; snap_flush_fails : Z; snap_last_flush_age_s : Z; snap_board : health_board;
}.
Definition health_snapshot_get `{Os} (cfg : health_config) (h : health) (w : os)
  : health_snapshot * health * os :=
  let '(h, w) := fold_locked h w in
  let '(_, pct) := health_button_level (presses (h_counters h)) (cfg_rated_ops cfg)
                     (cfg_warn_pct cfg) in
  let '(t, w) := k_uptime_get w in
  (mk_snapshot (h_counters h) (health_board_level (h_board h)) (cfg_rated_ops cfg) pct
     (h_flushes h) (h_flush_fails h) (u32 ((t - last_flush_ms h) / 1000)) (h_board h), h, w).

#[global] Arguments health_decode : simpl never.
#[global] Arguments health_encode : simpl never.

(** * Specification *)
Definition u32_ok (z : Z) : Prop := 0 <= z < 2 ^ 32.
Record counters_wf (c : health_counters) : Prop := {
  cw_presses : u32_ok (presses c); cw_mismatch : u32_ok (mismatch_events c);
  cw_uptime : u32_ok (uptime_s c); cw_boots : u32_ok (boots c);
  cw_flashes : u32_ok (flashes c); cw_otas : u32_ok (otas c);
  cw_sha : length (fw_sha c) = 8%nat; cw_swaps : 0 <= button_swaps c < 256;
}.

(** One tick as the observer sees it, and what it looks for. *)
Record observation := mk_obs { o_tick : Z; o_v0 : Z; o_v1 : Z }.
Definition both_stopped (stop : Z) (o : observation) : bool := (o_v0 o =? stop) && (o_v1 o =? stop).
Definition disagreed (stop : Z) (o : observation) : bool :=
  negb (Bool.eqb (o_v0 o =? stop) (o_v1 o =? stop)).
(** Rising edges of [f]; the first observation is a baseline. *)
Fixpoint edges (f : observation -> bool) (prev : option bool) (l : list observation) : Z :=
  match l with
  | [] => 0
  | o :: l => (if bool_decide (prev = Some false) && f o then 1 else 0) + edges f (Some (f o)) l
  end.
(** The comparator never reports two ticks in a row under one number. *)
Fixpoint ticks_differ (prev : option Z) (l : list observation) : Prop :=
  match l with
  | [] => True
  | o :: l => prev <> Some (o_tick o) /\ ticks_differ (Some (o_tick o)) l
  end.

(** The operations that neither reset nor reload the counters. *)
Inductive health_op :=
| OpObserve (o : observation)
| OpPoll | OpFlush | OpSnapshot
| OpPublish (src : string) (level : Z) (msg : option string).
Fixpoint observations (ops : list health_op) : list observation :=
  match ops with
  | [] => []
  | OpObserve o :: ops => o :: observations ops
  | _ :: ops => observations ops
  end.

Section Ops.
Context `{!PstopLib} `{Settings} (cfg : health_config).
Definition health_step (hw : health * os) (op : health_op) : health * os :=
  let '(h, w) := hw in
  match op with
  | OpObserve o => (observe (o_tick o) (o_v0 o) (o_v1 o) h, w)
  | OpPoll => health_poll cfg h w
  | OpFlush => let '(_, h, w) := health_flush h w in (h, w)
  | OpSnapshot => let '(_, h, w) := health_snapshot_get cfg h w in (h, w)
  | OpPublish src level msg => let '(_, h, w) := health_publish src level msg h w in (h, w)
  end.
Definition health_run (hw : health * os) (ops : list health_op) : health * os :=
  foldl health_step hw ops.
End Ops.

(** Presses and mismatches counted so far, folded into the counters or not. *)
Definition total_presses (h : health) : Z := u32 (presses (h_counters h) + press_delta h).
Definition total_mismatches (h : health) : Z :=
  u32 (mismatch_events (h_counters h) + mismatch_delta h).

(** The board as a map from source to warning. *)
Definition board_get (b : health_board) (src : string) : option health_warning :=
  List.find (fun w => String.eqb (w_src w) src) (warnings b).
Definition short (src : string) : Prop := (String.length src < HEALTH_SRC_LEN)%nat.
Record board_wf (b : health_board) : Prop := {
  bw_size : (length (warnings b) <= HEALTH_MAX_WARNINGS)%nat;
  bw_unique : NoDup (map w_src (warnings b));
  bw_short : Forall (fun w => short (w_src w)) (warnings b);
}.

(** * Lemmas *)
Lemma get_put_u32 v rest : u32_ok v -> get_u32 (put_u32 v ++ rest) = v.
Proof.
  intros Hv. unfold u32_ok in Hv. unfold get_u32, put_u32. cbn [app nth].
  assert (forall n, 0 <= n -> 0 <= u8 (Z.shiftr v n) < 2 ^ 8) as Hb
    by (intros; apply u8_range).
  replace (u8 v) with (u8 (Z.shiftr v 0)) by (by rewrite Z.shiftr_0_r).
  apply Z.bits_inj'. intros i Hi. rewrite !Z.lor_spec, !Z.shiftl_spec by done.
  unfold u8.
  assert (forall n, 0 <= n -> Z.testbit (Z.shiftr v n mod 2 ^ 8) (i - n) =
          if (n <=? i) && (i <? n + 8) then Z.testbit v i else false) as Hbit.
  { intros n Hn. destruct (Z.leb_spec n i); cbn [andb]; [|by rewrite Z.testbit_neg_r by lia].
    destruct (Z.ltb_spec i (n + 8)).
    - rewrite Z.mod_pow2_bits_low by lia. rewrite Z.shiftr_spec by lia. f_equal. lia.
    - apply Z.mod_pow2_bits_high. lia. }
  rewrite !Hbit by lia. specialize (Hbit 0 ltac:(lia)). rewrite Z.sub_0_r in Hbit. rewrite Hbit.
  destruct (Z.ltb_spec i 32) as [Hlt|Hge].
  - repeat match goal with
    | |- context [?a <=? ?b] => destruct (Z.leb_spec a b)
    | |- context [?a <? ?b] => destruct (Z.ltb_spec a b)
    end; cbn [andb orb]; rewrite ?orb_false_r; try done; lia.
  - replace (Z.testbit v i) with false; [by repeat case_match|].
    symmetry. rewrite <- (Z.mod_small v (2 ^ 32)) by lia. apply Z.mod_pow2_bits_high. lia.
Qed.

Lemma length_encode c : length (fw_sha c) = 8%nat -> length (health_encode c) = HEALTH_BLOB_LEN.
Proof. intros Hs. unfold health_encode. rewrite !length_app, Hs. reflexivity. Qed.

Lemma decode_encode c : counters_wf c ->
  health_decode (Some (health_encode c)) HEALTH_BLOB_LEN = Some c.
Proof.
  intros []. unfold health_decode. cbn [negb Nat.eqb HEALTH_BLOB_LEN orb].
  change (nth 0 (health_encode c) 0 =? u8 HEALTH_BLOB_VER) with true. cbn [negb].
  unfold health_encode.
  change (drop 1 _) with (put_u32 (presses c) ++ put_u32 (mismatch_events c) ++
    put_u32 (uptime_s c) ++ put_u32 (boots c) ++ put_u32 (flashes c) ++ put_u32 (otas c) ++
    fw_sha c ++ [button_swaps c]).
  change (drop 5 _) with (put_u32 (mismatch_events c) ++
    put_u32 (uptime_s c) ++ put_u32 (boots c) ++ put_u32 (flashes c) ++ put_u32 (otas c) ++
    fw_sha c ++ [button_swaps c]).
  change (drop 9 _) with (put_u32 (uptime_s c) ++ put_u32 (boots c) ++ put_u32 (flashes c) ++
    put_u32 (otas c) ++ fw_sha c ++ [button_swaps c]).
  change (drop 13 _) with (put_u32 (boots c) ++ put_u32 (flashes c) ++ put_u32 (otas c) ++
    fw_sha c ++ [button_swaps c]).
  change (drop 17 _) with (put_u32 (flashes c) ++ put_u32 (otas c) ++ fw_sha c ++ [button_swaps c]).
  change (drop 21 _) with (put_u32 (otas c) ++ fw_sha c ++ [button_swaps c]).
  change (drop 25 _) with (fw_sha c ++ [button_swaps c]).
  change (nth 33 _ 0) with (nth 8 (fw_sha c ++ [button_swaps c]) 0).
  rewrite !get_put_u32, take_app_length', app_nth2, cw_sha0 by (done || lia).
  by destruct c.
Qed.

Section EdgeLemmas.
Context `{!PstopLib}.
Notation both := (both_stopped PSTOP_MESSAGE_STOP).
Notation dis := (disagreed PSTOP_MESSAGE_STOP).

(** The detector after at least one observation, the last being [o]; [None]
    before the first. *)
Definition edge_after (last : option observation) (e : health_edge) : Prop :=
  match last with
  | None => e = zero_edge
  | Some o => seen e = 3 /\ edge_primed e = true /\ stop_both e = both o /\
              edge_mismatch e = dis o /\ edge_tick e = (o_tick o, o_tick o)
  end.

(** Both channels' steps of one tick. *)
Definition edge_tick_step (o : observation) (e : health_edge) : health_edge_out * health_edge :=
  health_edge_step (snd (health_edge_step e 0 (o_tick o) (o_v0 o) PSTOP_MESSAGE_STOP))
    1 (o_tick o) (o_v1 o) PSTOP_MESSAGE_STOP.

Lemma edge_tick_step_spec last o e :
  edge_after last e -> (o_tick <$> last) <> Some (o_tick o) ->
  let '(out, e') := edge_tick_step o e in
  edge_after (Some o) e' /\
  press out = bool_decide (both <$> last = Some false) && both o /\
  mismatch out = bool_decide (dis <$> last = Some false) && dis o.
Proof.
  intros He Hne. destruct o as [t v0 v1], e as [s p sb em [t0 t1] [a b]].
  unfold edge_tick_step, health_edge_step, both_stopped, disagreed. cbn in *.
  destruct last as [[t' v0' v1']|]; cbn in *.
  - destruct He as (-> & -> & -> & -> & [= -> ->]).
    destruct (Z.eqb_spec t t') as [->|_]; [congruence|]. cbn.
    change (Z.lor (Z.lor 3 1) 2) with 3. rewrite !Z.eqb_refl. cbn.
    split; [done|]. unfold both_stopped, disagreed. cbn.
    by destruct (v0 =? PSTOP_MESSAGE_STOP), (v1 =? PSTOP_MESSAGE_STOP),
      (v0' =? PSTOP_MESSAGE_STOP), (v1' =? PSTOP_MESSAGE_STOP).
  - injection He as -> -> -> -> -> -> -> ->. cbn. change (Z.lor (Z.lor 0 1) 2) with 3.
    rewrite !Z.eqb_refl. by cbn.
Qed.

Lemma observe_spec last o h :
  edge_after last (h_edge h) -> (o_tick <$> last) <> Some (o_tick o) ->
  let h' := observe (o_tick o) (o_v0 o) (o_v1 o) h in
  edge_after (Some o) (h_edge h') /\
  h_counters h' = h_counters h /\
  press_delta h' = (if bool_decide (both <$> last = Some false) && both o
                    then u32 (press_delta h + 1) else press_delta h) /\
  mismatch_delta h' = (if bool_decide (dis <$> last = Some false) && dis o
                       then u32 (mismatch_delta h + 1) else mismatch_delta h).
Proof.
  intros He Hne. pose proof (edge_tick_step_spec last o (h_edge h) He Hne) as Hs.
  unfold observe. unfold edge_tick_step in Hs.
  destruct (health_edge_step (h_edge h) 0 _ _ _) as [o0 e0]. cbn [snd] in Hs.
  destruct (health_edge_step e0 1 _ _ _) as [out e1].
  destruct Hs as (He' & <- & <-). by destruct (press out), (mismatch out).
Qed.
End EdgeLemmas.

Section ConservationLemmas.
Context `{!PstopLib} `{Settings} (cfg : health_config).

(** An operation that neither counts nor loses an edge. *)
Definition quiet (h h' : health) : Prop :=
  total_presses h' = total_presses h /\ total_mismatches h' = total_mismatches h /\
  h_edge h' = h_edge h.
Lemma quiet_trans h1 h2 h3 : quiet h1 h2 -> quiet h2 h3 -> quiet h1 h3.
Proof. unfold quiet. naive_solver congruence. Qed.

Lemma u32_u32_add a b : u32 (u32 a + b) = u32 (a + b).
Proof. unfold u32. by rewrite Z.add_mod_idemp_l. Qed.

Lemma u32_bump c d k (b : bool) :
  u32 (u32 (c + (if b then u32 (d + 1) else d)) + k) =
  u32 (u32 (c + d) + ((if b then 1 else 0) + k)).
Proof.
  rewrite !u32_u32_add. destruct b; [|f_equal; lia].
  replace (c + u32 (d + 1) + k) with (u32 (d + 1) + (c + k)) by lia.
  rewrite u32_u32_add. f_equal. lia.
Qed.

Lemma fold_quiet h w : quiet h (fst (fold_locked h w)).
Proof.
  unfold fold_locked, now_uptime_s. destruct (k_uptime_get w) as [t w']. cbn.
  unfold quiet, total_presses, total_mismatches.
  destruct (Z.eqb_spec (press_delta h) 0) as [Hp|], (Z.eqb_spec (mismatch_delta h) 0) as [Hm|];
    cbn; rewrite ?Hp, ?Hm, ?u32_u32_add, ?Z.add_0_r; done.
Qed.

Lemma flush_spec h w :
  let '(ret, h', w') := flush_locked h w in
  let hf := fst (fold_locked h w) in
  h_counters h' = h_counters hf /\ h_edge h' = h_edge hf /\
  press_delta h' = press_delta hf /\ mismatch_delta h' = mismatch_delta hf.
Proof.
  unfold flush_locked. destruct (fold_locked h w) as [hf w1]. cbn.
  destruct (settings_save_one _ _ _) as [ret w2]. destruct (k_uptime_get w2) as [t w3]. cbn.
  by destruct (negb (ret =? 0)).
Qed.
Lemma flush_quiet h w : let '(_, h', _) := flush_locked h w in quiet h h'.
Proof.
  pose proof (flush_spec h w) as Hs. pose proof (fold_quiet h w) as Hf.
  destruct (flush_locked h w) as [[ret h'] w']. destruct Hs as (Hc & He & Hp & Hm).
  unfold quiet, total_presses, total_mismatches in *. by rewrite Hc, He, Hp, Hm.
Qed.
Lemma evaluate_spec h w :
  exists b, fst (evaluate_locked cfg h w) = h <| h_board := b |>.
Proof.
  unfold evaluate_locked. destruct (k_uptime_get w) as [t w']. repeat pair_case. by eexists.
Qed.
Lemma evaluate_quiet h w : quiet h (fst (evaluate_locked cfg h w)).
Proof. destruct (evaluate_spec h w) as [b ->]. done. Qed.

Lemma op_quiet op h w :
  (forall o, op <> OpObserve o) -> quiet h (fst (health_step cfg (h, w) op)).
Proof.
  intros Hop. destruct op as [o| | | |src level msg]; cbn.
  - by destruct (Hop o).
  - unfold health_poll. pose proof (fold_quiet h w) as Hf.
    destruct (fold_locked h w) as [h1 w1]. cbn in Hf.
    pose proof (evaluate_quiet h1 w1) as He.
    destruct (evaluate_locked cfg h1 w1) as [h2 w2]. cbn in He.
    destruct (k_uptime_get w2) as [t w3]. pose proof (flush_quiet h2 w3) as Hfl.
    destruct (flush_locked h2 w3) as [[ret h3] w4].
    destruct (health_flush_due _ _ _ _); cbn; eauto using quiet_trans.
  - unfold health_flush. pose proof (flush_quiet h w) as Hf. by destruct (flush_locked h w) as [[? ?] ?].
  - unfold health_snapshot_get. pose proof (fold_quiet h w) as Hf.
    destruct (fold_locked h w) as [h1 w1]. destruct (health_button_level _ _ _).
    by destruct (k_uptime_get w1).
  - unfold health_publish. destruct (k_uptime_get w). by destruct (health_board_publish _ _ _ _ _).
Qed.

Lemma run_counts ops last h w :
  edge_after last (h_edge h) -> ticks_differ (o_tick <$> last) (observations ops) ->
  let h' := fst (health_run cfg (h, w) ops) in
  total_presses h' =
    u32 (total_presses h +
         edges (both_stopped PSTOP_MESSAGE_STOP)
               (both_stopped PSTOP_MESSAGE_STOP <$> last) (observations ops)) /\
  total_mismatches h' =
    u32 (total_mismatches h +
         edges (disagreed PSTOP_MESSAGE_STOP)
               (disagreed PSTOP_MESSAGE_STOP <$> last) (observations ops)).
Proof.
  revert last h w. induction ops as [|op ops IH]; intros last h w He Ht.
  { cbn. rewrite !Z.add_0_r. unfold total_presses, total_mismatches, u32.
    by rewrite !Z.mod_mod. }
  unfold health_run. cbn [foldl]. fold (health_run cfg (health_step cfg (h, w) op) ops).
  destruct (health_step cfg (h, w) op) as [h1 w1] eqn:E1.
  assert ((exists o, op = OpObserve o) \/ (forall o, op <> OpObserve o)) as [[o ->]|Hno]
    by (destruct op; naive_solver).
  - cbn in E1. injection E1 as <- <-. cbn [observations ticks_differ] in Ht.
    destruct Ht as [Hne Ht]. destruct (observe_spec last o h He Hne) as (He' & Hc & Hp & Hm).
    destruct (IH (Some o) _ w He' Ht) as [-> ->].
    unfold total_presses, total_mismatches. rewrite Hc, Hp, Hm. cbn [observations edges fmap option_fmap option_map].
    split; apply u32_bump.
  - destruct (op_quiet op h w Hno) as (Q1 & Q2 & Q3). rewrite E1 in Q1, Q2, Q3. cbn [fst] in *.
    assert (observations (op :: ops) = observations ops) as Eo by (destruct op; naive_solver).
    rewrite Eo in *. rewrite <- Q3 in He. rewrite <- Q1, <- Q2. by apply IH.
Qed.
End ConservationLemmas.

(** ** The board *)
Lemma strneq_short a b : short a -> short b -> strneq HEALTH_SRC_LEN a b = String.eqb a b.
Proof. unfold short, strneq, HEALTH_SRC_LEN. intros Ha Hb. by rewrite !substring_all by lia. Qed.

Lemma copy_src_short s : short s -> copy_str (Some s) HEALTH_SRC_LEN = s.
Proof. unfold short, copy_str, HEALTH_SRC_LEN. intros. cbn [default id]. apply substring_all. lia. Qed.

(** The index [find] returns, against the map view. *)
Lemma find_from_spec i ws src :
  short src -> Forall (fun w => short (w_src w)) ws ->
  match find_from i ws src with
  | Some j => exists k w, j = (i + k)%nat /\ ws !! k = Some w /\ w_src w = src /\
                List.find (fun w => String.eqb (w_src w) src) ws = Some w
  | None => List.find (fun w => String.eqb (w_src w) src) ws = None /\ src ∉ map w_src ws
  end.
Proof.
  intros Hs Hws. revert i. induction Hws as [|w ws Hw _ IH]; intros i; cbn [find_from].
  { split; [done|apply not_elem_of_nil]. }
  rewrite strneq_short by done. cbn [List.find map].
  destruct (String.eqb_spec (w_src w) src) as [E|Hne].
  - exists 0%nat, w. by rewrite Nat.add_0_r.
  - specialize (IH (S i)). destruct (find_from (S i) ws src) as [j|].
    + destruct IH as (k & w' & -> & Hk & E & Hf). exists (S k), w'. split; [lia|done].
    + destruct IH as [Hf Hin]. split; [done|]. rewrite not_elem_of_cons. split; congruence.
Qed.

Lemma find_spec b src : short src -> board_wf b ->
  match find b src with
  | Some i => exists w, warnings b !! i = Some w /\ w_src w = src /\ board_get b src = Some w
  | None => board_get b src = None /\ src ∉ map w_src (warnings b)
  end.
Proof.
  intros Hs []. unfold find, board_get.
  pose proof (find_from_spec 0 (warnings b) src Hs bw_short0) as Hf.
  destruct (find_from 0 _ _); [|done]. destruct Hf as (k & w & -> & ?). by exists w.
Qed.

Lemma find_ext (f g : health_warning -> bool) ws :
  (forall w, f w = g w) -> List.find f ws = List.find g ws.
Proof. intros Hfg. induction ws as [|w ws IH]; [done|]. cbn. by rewrite Hfg, IH. Qed.
Lemma find_app_w f (l1 l2 : list health_warning) :
  List.find f (l1 ++ l2) = match List.find f l1 with Some w => Some w | None => List.find f l2 end.
Proof. induction l1 as [|w l1 IH]; [done|]. cbn. by destruct (f w). Qed.
Lemma find_none_src (ws : list health_warning) src :
  src ∉ map w_src ws -> List.find (fun w => String.eqb (w_src w) src) ws = None.
Proof.
  induction ws as [|w ws IH]; [done|]. cbn. rewrite not_elem_of_cons. intros [Hne Hin].
  destruct (String.eqb_spec (w_src w) src); [congruence|]. by apply IH.
Qed.

(** A board split around the entry of one source. *)
Lemma board_split b i w : board_wf b -> warnings b !! i = Some w ->
  exists l1 l2, warnings b = l1 ++ w :: l2 /\ length l1 = i /\
    w_src w ∉ map w_src l1 /\ w_src w ∉ map w_src l2.
Proof.
  intros [] Hi. exists (take i (warnings b)), (drop (S i) (warnings b)).
  assert (warnings b = take i (warnings b) ++ w :: drop (S i) (warnings b)) as E
    by (by rewrite take_drop_middle).
  split; [done|]. split.
  { apply lookup_lt_Some in Hi. rewrite length_take. lia. }
  rewrite E, map_app in bw_unique0. cbn in bw_unique0.
  apply NoDup_app in bw_unique0 as (_ & Hd & Hn). apply NoDup_cons in Hn as [Hn _].
  split; [|done]. intros Hin. eapply Hd; [exact Hin|left].
Qed.

Definition put (b : health_board) (src : string) (ow : option health_warning) (s : string)
  : option health_warning := if decide (s = src) then ow else board_get b s.

Lemma clear_spec b src : short src -> board_wf b ->
  let b' := health_board_clear b src in
  board_wf b' /\ dropped b' = dropped b /\
  forall s, board_get b' s = put b src None s.
Proof.
  intros Hs Hwf. unfold health_board_clear. pose proof (find_spec b src Hs Hwf) as Hf.
  destruct (find b src) as [i|]; cbn zeta.
  - destruct Hf as (w & Hi & Hw & Hg).
    destruct (board_split b i w Hwf Hi) as (l1 & l2 & E & <- & Hn1 & Hn2).
    unfold board_get, put. cbn. rewrite E.
    replace (S (length l1)) with (length l1 + 1)%nat by lia.
    rewrite take_app_length, drop_app_add. cbn [drop]. rewrite drop_0. cbn.
    destruct Hwf as [Hl Hu Hsh]. rewrite E in *. rewrite map_app in Hu. cbn in Hu.
    split; [|split; [done|]].
    + split; cbn.
      * rewrite !length_app in *. cbn in Hl. lia.
      * rewrite map_app. apply NoDup_app in Hu as (H1 & H2 & H3). apply NoDup_cons in H3 as [_ H3].
        apply NoDup_app. split; [done|]. split; [|done].
        intros x Hx Hx'. eapply H2; [exact Hx|by right].
      * apply Forall_app in Hsh as [? Hsh]. apply Forall_cons in Hsh as [_ ?].
        by apply Forall_app.
    + intros s. rewrite !find_app_w. unfold board_get. rewrite E, find_app_w. cbn. rewrite Hw in *.
      destruct (decide (s = src)) as [->|Hne].
      * by rewrite (find_none_src l1), (find_none_src l2).
      * destruct (String.eqb_spec src s); [congruence|done].
  - destruct Hf as [Hg Hn]. split; [done|]. split; [done|].
    intros s. unfold put. case_decide; congruence.
Qed.

Lemma publish_spec b src level msg now : short src -> board_wf b -> level <> HEALTH_OK ->
  let '(ret, b') := health_board_publish b src level msg now in
  board_wf b' /\
  (board_get b src = None /\ length (warnings b) = HEALTH_MAX_WARNINGS ->
     ret = - ENOMEM /\ b' = b <| dropped ::= fun n => u32 (n + 1) |>) /\
  (~ (board_get b src = None /\ length (warnings b) = HEALTH_MAX_WARNINGS) ->
     ret = 0 /\ dropped b' = dropped b /\
     forall s, board_get b' s =
       put b src (Some (touch msg level now
         (default (mk_warning src "" 0 0 now 0) (board_get b src)))) s).
Proof.
  intros Hs Hwf Hl. unfold health_board_publish.
  destruct (Z.eqb_spec level HEALTH_OK) as [|_]; [done|].
  pose proof (find_spec b src Hs Hwf) as Hf. destruct (find b src) as [i|].
  - destruct Hf as (w & Hi & Hw & Hg). rewrite Hg.
    destruct (board_split b i w Hwf Hi) as (l1 & l2 & E & <- & Hn1 & Hn2).
    destruct Hwf as [Hsz Hu Hsh]. cbn. unfold board_get, put; cbn. rewrite E in *.
    rewrite alter_app_r_alt, Nat.sub_diag by lia. cbn. rewrite map_app in Hu.
    split; [|split; [intros [? _]; done|]].
    + split; cbn.
      * rewrite !length_app in *. by cbn in *.
      * by rewrite map_app.
      * apply Forall_app in Hsh as [? Hsh]. apply Forall_cons in Hsh as [? ?].
        apply Forall_app. split; [done|]. by constructor.
    + intros _. split; [done|]. split; [done|]. intros s.
      unfold board_get. rewrite E, !find_app_w. cbn. rewrite Hw in *.
      destruct (decide (s = src)) as [->|Hne].
      * by rewrite (find_none_src l1), String.eqb_refl.
      * destruct (String.eqb_spec src s); [congruence|done].
  - destruct Hf as [Hg Hn]. rewrite Hg. destruct Hwf as [Hsz Hu Hsh].
    destruct (Nat.leb_spec HEALTH_MAX_WARNINGS (length (warnings b))) as [Hfull|Hroom].
    + split; [by split|]. split; [done|]. intros Hx. destruct Hx. split; [done|lia].
    + rewrite copy_src_short by done. cbn. split; [|split; [lia|]].
      * split; cbn.
        -- rewrite length_app. cbn. lia.
        -- rewrite map_app. apply NoDup_app. split; [done|]. split; [|apply NoDup_singleton].
           intros x Hx Hx'. apply list_elem_of_singleton in Hx'. by subst.
        -- apply Forall_app. split; [done|]. by constructor.
      * intros _. split; [done|]. split; [done|]. intros s. unfold board_get, put; cbn.
        rewrite find_app_w. cbn. destruct (decide (s = src)) as [->|Hne].
        -- by rewrite (find_none_src (warnings b)), String.eqb_refl.
        -- unfold board_get. destruct (String.eqb_spec src s); [congruence|].
           by destruct (List.find _ _).
Qed.

Lemma level_fold ws acc :
  let l := foldl (fun worst w => if worst <? w_level w then w_level w else worst) acc ws in
  acc <= l /\ Forall (fun w => w_level w <= l) ws /\ (l = acc \/ exists w, w ∈ ws /\ l = w_level w).
Proof.
  revert acc. induction ws as [|w ws IH]; intros acc; cbn.
  { split; [lia|]. split; [constructor|by left]. }
  specialize (IH (if acc <? w_level w then w_level w else acc)). cbn in IH.
  destruct IH as (H1 & H2 & H3). destruct (Z.ltb_spec acc (w_level w)).
  - split; [lia|]. split; [by constructor|].
    right. destruct H3 as [->|(w' & Hin & ->)]; [exists w; split; [left|done]|].
    exists w'. split; [by right|done].
  - split; [done|]. split; [constructor; [lia|done]|].
    destruct H3 as [->|(w' & Hin & ->)]; [by left|]. right. exists w'. split; [by right|done].
Qed.

Section RebootLemmas.
Context `{!PstopLib} `{L : SettingsLaws} (cfg : health_config).

Lemma fold_counters_wf h w :
  counters_wf (h_counters h) -> counters_wf (h_counters (fst (fold_locked h w))).
Proof.
  intros Hc. unfold fold_locked, now_uptime_s. destruct (k_uptime_get w) as [t w']. cbn.
  destruct Hc. bool_case; split; cbn; try done; apply u32_range.
Qed.

Lemma flush_stores h w h' w' :
  flush_locked h w = (0, h', w') ->
  (forall v, forall k, stored (snd (k_uptime_get v)) k = stored v k) ->
  stored w' HEALTH_SETTINGS_KEY = Some (health_encode (h_counters h')) /\
  h_counters h' = h_counters (fst (fold_locked h w)) /\ h_dirty h' = false.
Proof.
  unfold flush_locked. intros E Hk. destruct (fold_locked h w) as [hf w1]. cbn.
  destruct (settings_save_one _ _ _) as [ret w2] eqn:Es. pose proof (Hk w2) as Hw.
  destruct (k_uptime_get w2) as [t w3]. cbn in Hw.
  destruct (Z.eqb_spec ret 0) as [->|Hr]; cbn in E; [|by simplify_eq].
  simplify_eq. cbn. rewrite Hw, (save_ok _ _ _ _ Es). by rewrite decide_True.
Qed.

Lemma load_health_spec h es blob :
  length blob = HEALTH_BLOB_LEN ->
  (forall v, ("counters"%string, v) ∈ es -> v = stored_value blob) ->
  ("counters"%string, stored_value blob) ∈ es ->
  load_health h es = h <| loaded_blob := blob |> <| h_loaded := true |>.
Proof.
  intros Hlen Hall.
  assert (forall h, ("counters"%string, stored_value blob) ∈ es \/
            (h_loaded h = true /\ loaded_blob h = blob) ->
            load_health h es = h <| loaded_blob := blob |> <| h_loaded := true |>) as Hgen;
    [|intros Hin; apply Hgen; by left].
  clear h. revert Hall. induction es as [|[name v] es IH]; intros Hall h Hin.
  { destruct Hin as [Hin|[Hl1 Hl2]]; [by apply not_elem_of_nil in Hin|].
    destruct h; cbn in *. by subst. }
  unfold load_health. cbn [foldl fst snd]. fold (load_health).
  change (foldl _ ?a es) with (load_health a es).
  unfold health_settings_set.
  destruct (settings_name_steq name "counters") as [[rest|]|] eqn:Es; cbn [snd].
  - apply IH; [intros; apply Hall; by right|].
    destruct Hin as [Hin|Hin]; [|by right]. apply elem_of_cons in Hin as [[= <- _]|]; [|by left].
    by rewrite steq_leaf in Es.
  - apply steq_other in Es. subst name. rewrite (Hall v) by left.
    unfold stored_value. cbn [sv_len sv_read]. rewrite Hlen, Nat.eqb_refl. cbn [negb snd].
    rewrite take_ge by lia. rewrite IH; [done|intros; apply Hall; by right|by right].
  - apply IH; [intros; apply Hall; by right|].
    destruct Hin as [Hin|Hin]; [|by right]. apply elem_of_cons in Hin as [[= <- _]|]; [|by left].
    by rewrite steq_leaf in Es.
Qed.
End RebootLemmas.

Section BootLemmas.
Context `{!PstopLib} `{Settings} (cfg : health_config).

Lemma boot_counters h w : press_delta h = 0 -> mismatch_delta h = 0 ->
  let '(_, h', _) := health_boot cfg h w in
  h_counters h' = (count_boot cfg (h_counters h)) <| uptime_s := uptime_s (h_counters h') |>.
Proof.
  intros Hp Hm. unfold health_boot. destruct (now_uptime_s w) as [t w1].
  set (h1 := _ <| uptime_at_boot_s := _ |>).
  assert (h_counters h1 = count_boot cfg (h_counters h) /\ press_delta h1 = 0 /\
          mismatch_delta h1 = 0) as (Hc & Hp1 & Hm1) by done.
  clearbody h1. destruct (evaluate_spec cfg h1 w1) as [b Hb].
  destruct (evaluate_locked cfg h1 w1) as [he we]. cbn [fst] in Hb. subst he.
  pose proof (flush_spec (h1 <| h_board := b |>) we) as Hf.
  destruct (flush_locked _ _) as [[r h'] w']. destruct Hf as (-> & _).
  unfold fold_locked. cbn. rewrite Hp1, Hm1, Hc. cbn.
  by destruct (now_uptime_s we).
Qed.
End BootLemmas.

(** * Properties *)
Section Properties.
Context `{!PstopLib} `{Settings} (cfg : health_config).

(** C38: No press is lost or counted twice.  From power-on, through any interleaving
    of comparator ticks with polls, flushes (failing ones included), snapshots
    and published warnings, the presses counted - folded into the counters or
    still pending - are exactly the rising edges of "both channels STOP" in the ticks
    observed, the first tick being only a baseline; likewise the mismatch events. *)
Theorem no_press_lost ops h w :
  h_edge h = zero_edge -> ticks_differ None (observations ops) ->
  let h' := fst (health_run cfg (h, w) ops) in
  total_presses h' =
    u32 (total_presses h + edges (both_stopped PSTOP_MESSAGE_STOP) None (observations ops)) /\
  total_mismatches h' =
    u32 (total_mismatches h + edges (disagreed PSTOP_MESSAGE_STOP) None (observations ops)).
Proof. intros He Ht. exact (run_counts cfg ops None h w He Ht). Qed.
End Properties.

Section RebootProperties.
Context `{!PstopLib} `{L : SettingsLaws} (cfg : health_config).

(** The counters survive a reboot: after a successful flush, [health_init] on
    the same flash restores every persisted count from the blob, adds this boot,
    counts a reflash exactly when the firmware identity changed, and remembers the
    new identity. *)
Theorem counters_survive_reboot h w h1 w1 h0 r h2 w2 es w3 :
  (forall v k, stored (snd (k_uptime_get v)) k = stored v k) ->
  counters_wf (h_counters h) ->
  health_flush h w = (0, h1, w1) ->
  settings_load_subtree "pstop_health" w1 = ((0, es), w3) ->
  health_init cfg h0 w1 = (r, h2, w2) ->
  let c1 := h_counters h1 in let c2 := h_counters h2 in
  let fw := fw_identity (cfg_fw_id cfg) in
  presses c2 = presses c1 /\ mismatch_events c2 = mismatch_events c1 /\ otas c2 = otas c1 /\
  button_swaps c2 = button_swaps c1 /\ boots c2 = u32 (boots c1 + 1) /\ fw_sha c2 = fw /\
  flashes c2 = (if bool_decide (fw = fw_sha c1) then flashes c1 else u32 (flashes c1 + 1)).
Proof.
  intros Hk Hwf Ef Eload Ei. cbv zeta.
  apply flush_stores in Ef as (Hst & Hc & _); [|exact Hk].
  apply (fold_counters_wf h w) in Hwf. rewrite <- Hc in Hwf. clear Hc.
  set (blob := health_encode (h_counters h1)) in *.
  assert (length blob = HEALTH_BLOB_LEN) as Hlen by apply length_encode, Hwf.
  unfold health_init in Ei. rewrite Eload in Ei.
  rewrite (load_health_spec (reset_statics h0) es blob Hlen) in Ei.
  2: { intros v Hv. destruct (load_sound _ _ _ _ _ _ Eload Hv) as (b & Hb & ->).
       change (_ +:+ _) with HEALTH_SETTINGS_KEY in Hb. congruence. }
  2: { eapply load_complete; [exact Eload|]. exact Hst. }
  set (hl := adopt_blob _) in Ei.
  assert (h_counters hl = h_counters h1 /\ press_delta hl = 0 /\ mismatch_delta hl = 0)
    as (Hc & Hp & Hm).
  { unfold hl, adopt_blob. cbn [h_loaded loaded_blob update eta_health eta].
    unfold blob. cbn. pose proof (decode_encode _ Hwf) as Hd. cbn in Hd. by rewrite Hd. }
  clearbody hl. pose proof (boot_counters cfg hl w3 Hp Hm) as Hb. rewrite Ei in Hb.
  rewrite Hb, Hc. unfold count_boot. cbn.
  destruct (decide (fw_identity (cfg_fw_id cfg) = fw_sha (h_counters h1))) as [E|E].
  - rewrite (bool_decide_eq_false_2 (_ <> _)) by tauto. by rewrite bool_decide_eq_true_2.
  - rewrite (bool_decide_eq_true_2 (_ <> _)) by done. by rewrite bool_decide_eq_false_2.
Qed.
End RebootProperties.

(** The blob is exactly the counters: 34 bytes that decode to what was encoded,
    and anything of another length or version decodes to nothing, so a foreign
    blob means zeroed counters and never wrong ones. *)
Theorem blob_roundtrip c blob len :
  counters_wf c ->
  length (health_encode c) = HEALTH_BLOB_LEN /\
  health_decode (Some (health_encode c)) HEALTH_BLOB_LEN = Some c /\
  (health_decode (Some blob) len <> None -> len = HEALTH_BLOB_LEN /\ nth 0 blob 0 = 1).
Proof.
  intros Hc. split; [apply length_encode, Hc|]. split; [by apply decode_encode|].
  unfold health_decode. destruct (Nat.eqb_spec len HEALTH_BLOB_LEN); [|done].
  destruct (Z.eqb_spec (nth 0 blob 0) (u8 HEALTH_BLOB_VER)); done.
Qed.

(** The warning board is a bounded map.  Over sources of at most 15
    characters, publishing sets that source's level, message and count and leaves
    every other entry alone, level OK removes it, only a new source on a full board
    is refused (-ENOMEM, counted), one entry per source and at most eight are kept,
    and the board's level is the worst on it. *)
Theorem board_is_bounded_map b src level msg now :
  short src -> board_wf b ->
  let '(ret, b') := health_board_publish b src level msg now in
  board_wf b' /\
  (level = HEALTH_OK -> ret = 0 /\ forall s, board_get b' s = put b src None s) /\
  (level <> HEALTH_OK -> board_get b src = None /\ length (warnings b) = HEALTH_MAX_WARNINGS ->
     ret = - ENOMEM /\ warnings b' = warnings b /\ dropped b' = u32 (dropped b + 1)) /\
  (level <> HEALTH_OK -> ~ (board_get b src = None /\ length (warnings b) = HEALTH_MAX_WARNINGS) ->
     ret = 0 /\ forall s, board_get b' s =
       put b src (Some (touch msg level now
         (default (mk_warning src "" 0 0 now 0) (board_get b src)))) s) /\
  Forall (fun w => w_level w <= health_board_level b') (warnings b') /\
  (health_board_level b' = HEALTH_OK \/
   exists w, w ∈ warnings b' /\ health_board_level b' = w_level w).
Proof.
  intros Hs Hwf. destruct (decide (level = HEALTH_OK)) as [->|Hl].
  - unfold health_board_publish. cbn [HEALTH_OK Z.eqb].
    destruct (clear_spec b src Hs Hwf) as (Hwf' & _ & Hg).
    destruct (level_fold (warnings (health_board_clear b src)) HEALTH_OK) as (_ & H2 & H3).
    split; [done|]. split; [done|]. split; [done|]. split; [done|]. done.
  - pose proof (publish_spec b src level msg now Hs Hwf Hl) as Hp.
    destruct (health_board_publish b src level msg now) as [ret b'].
    destruct Hp as (Hwf' & Hfull & Hok).
    destruct (level_fold (warnings b') HEALTH_OK) as (_ & H2 & H3).
    split; [done|]. split; [done|]. split.
    + intros _ Hx. destruct (Hfull Hx) as [-> ->]. done.
    + split; [|done]. intros _ Hx. destruct (Hok Hx) as (-> & _ & Hg). done.
Qed.

(** The wear level is right over the whole 32-bit range: the percentage is
    [100 * presses / rated] clamped to 999 with no overflow on the way, critical
    exactly from the rated count on, a warning exactly from [warn_pct] percent on,
    and more presses never lower it; a rating of 0 disables it. *)
Theorem button_level_spec presses presses' rated warn :
  u32_ok presses -> u32_ok presses' -> u32_ok rated -> 0 <= warn ->
  let '(level, pct) := health_button_level presses rated warn in
  (rated = 0 -> level = HEALTH_OK /\ pct = 0) /\
  (0 < rated ->
     pct = Z.min 999 (100 * presses / rated) /\
     (level = HEALTH_CRIT <-> rated <= presses) /\
     (level = HEALTH_WARN <-> presses < rated /\ 0 < warn /\ warn * rated <= 100 * presses) /\
     (presses <= presses' -> level <= fst (health_button_level presses' rated warn))).
Proof.
  unfold u32_ok. intros Hp Hp' Hr Hw.
  assert (forall p, 0 <= p < 2 ^ 32 -> 0 < rated ->
    (if 0 <? rated then (if 999 <? u64 (p * 100) / rated then 999 else u32 (u64 (p * 100) / rated))
     else 0) = Z.min 999 (100 * p / rated)) as Hpct.
  { intros p Hpp Hrr. rewrite u64_small by lia. replace (p * 100) with (100 * p) by lia.
    assert (0 <= 100 * p / rated) by (apply Z.div_pos; lia).
    destruct (Z.ltb_spec 0 rated); [|lia]. destruct (Z.ltb_spec 999 (100 * p / rated)); [lia|].
    rewrite u32_small; lia. }
  unfold health_button_level, HEALTH_OK, HEALTH_CRIT, HEALTH_WARN. cbv zeta.
  destruct (Z.eqb_spec rated 0) as [->|Hne]; [split; [done|lia]|].
  split; [lia|]. intros Hrr. rewrite !Hpct by lia. cbn [fst].
  assert (forall p n, 0 <= p -> (n <= 100 * p / rated <-> n * rated <= 100 * p)) as Hdiv.
  { intros p n Hpp. rewrite (Z.mul_comm n). split.
    - intros Hn. pose proof (Z.mul_div_le (100 * p) rated Hrr). nia.
    - intros Hn. apply Z.div_le_lower_bound; lia. }
  pose proof (Hdiv presses 100) as H1. pose proof (Hdiv presses warn) as H2.
  pose proof (Hdiv presses' 100) as H3. pose proof (Hdiv presses' warn) as H4.
  assert (presses <= presses' -> 100 * presses / rated <= 100 * presses' / rated) as Hmono
    by (intros; apply Z.div_le_mono; lia).
  repeat match goal with
  | |- context [?a <=? ?b] => destruct (Z.leb_spec a b)
  | |- context [?a <? ?b] => destruct (Z.ltb_spec a b)
  end; cbn [andb]; split_and!; intros; try lia; nia.
Qed.

(** A source name of 16 characters or more is never found again: its stored
    copy is cut to 15, so every publish takes another of the eight entries (and is
    refused, -ENOMEM, once they are gone) and clearing it has no effect. *)
Theorem long_source_never_found b src level msg now :
  (HEALTH_SRC_LEN <= String.length src)%nat ->
  Forall (fun w => short (w_src w)) (warnings b) -> level <> HEALTH_OK ->
  find b src = None /\ health_board_clear b src = b /\
  ((length (warnings b) < HEALTH_MAX_WARNINGS)%nat ->
     length (warnings (snd (health_board_publish b src level msg now))) =
       S (length (warnings b)) /\
     find (snd (health_board_publish b src level msg now)) src = None).
Proof.
  intros Hlen Hsh Hl.
  assert (forall s n, (String.length (String.substring 0 n s) = Nat.min n (String.length s))%nat) as Hsub.
  { intros s. induction s as [|c s IH]; intros [|n]; cbn; try done. by rewrite IH. }
  assert (forall i ws, Forall (fun w => short (w_src w)) ws -> find_from i ws src = None) as Hnone.
  { intros i ws Hws. revert i. induction Hws as [|w ws Hw _ IH]; intros i; [done|]. cbn.
    assert (strneq HEALTH_SRC_LEN (w_src w) src = false) as ->; [|apply IH].
    apply String.eqb_neq. intros E. apply (f_equal String.length) in E. rewrite !Hsub in E.
    unfold short in Hw. lia. }
  assert (find b src = None) as Hf by (by apply Hnone).
  split; [done|]. split; [unfold health_board_clear; by rewrite Hf|].
  intros Hroom. unfold health_board_publish. rewrite Hf.
  destruct (Z.eqb_spec level HEALTH_OK); [done|].
  destruct (Nat.leb_spec HEALTH_MAX_WARNINGS (length (warnings b))); [lia|].
  cbn. split; [rewrite length_app; cbn; lia|]. apply Hnone, Forall_app. split; [done|].
  constructor; [|constructor]. cbn. unfold short, copy_str. rewrite Hsub.
  unfold HEALTH_SRC_LEN. lia.
Qed.

(** * Witnesses *)
From S2P Require Import Instances.

(** Upstream's defaults. *)
Definition demo_health_cfg : health_config :=
  mk_health_config 100000 80 50 20 60 600 [49; 46; 48].
Definition demo_ops : list health_op :=
  [OpObserve (mk_obs 1 85 85); OpObserve (mk_obs 2 146 85); OpPoll; OpObserve (mk_obs 3 146 146);
   OpFlush; OpObserve (mk_obs 4 146 146); OpSnapshot].

Example no_press_lost_witness :
  total_presses (fst (health_run demo_health_cfg (zero_health, sim_boot) demo_ops)) = 1 /\
  total_mismatches (fst (health_run demo_health_cfg (zero_health, sim_boot) demo_ops)) = 1.
Proof.
  destruct (@no_press_lost wire_lib sim_os sim_settings demo_health_cfg demo_ops zero_health sim_boot eq_refl) as [Hp Hm].
  - cbn. repeat split; discriminate.
  - split; [etransitivity; [exact Hp|vm_compute; reflexivity]|].
    etransitivity; [exact Hm|vm_compute; reflexivity].
Defined.

Definition demo_counted : health * os :=
  health_run demo_health_cfg (zero_health, sim_boot) demo_ops.
Lemma demo_counters_wf : counters_wf (h_counters (fst demo_counted)).
Proof.
  assert (forall c : health_counters,
    (0 <=? presses c) && (presses c <? 2 ^ 32) && (0 <=? mismatch_events c) &&
    (mismatch_events c <? 2 ^ 32) && (0 <=? uptime_s c) && (uptime_s c <? 2 ^ 32) &&
    (0 <=? boots c) && (boots c <? 2 ^ 32) && (0 <=? flashes c) && (flashes c <? 2 ^ 32) &&
    (0 <=? otas c) && (otas c <? 2 ^ 32) && (length (fw_sha c) =? 8)%nat &&
    (0 <=? button_swaps c) && (button_swaps c <? 256) = true -> counters_wf c) as Hb.
  { intros c. rewrite !andb_true_iff, !Z.leb_le, !Z.ltb_lt, Nat.eqb_eq.
    intros. split; unfold u32_ok; tauto. }
  apply Hb. vm_compute. reflexivity.
Qed.

#[local] Abbreviation demo_flushed := (health_flush (fst demo_counted) (snd demo_counted)).
Example counters_survive_reboot_witness :
  presses (h_counters (snd (fst (health_init demo_health_cfg zero_health (snd demo_flushed))))) =
  presses (h_counters (snd (fst demo_flushed))).
Proof.
  destruct demo_flushed as [[r h1] w1] eqn:Ef.
  assert (r = 0) as -> by (vm_compute in Ef; injection Ef as <- _ _; reflexivity).
  cbn [fst snd]. destruct (health_init demo_health_cfg zero_health w1) as [[r2 h2] w2] eqn:Ei.
  exact (proj1 (@counters_survive_reboot sim_os sim_settings sim_settings_laws demo_health_cfg (fst demo_counted) (snd demo_counted)
    h1 w1 zero_health r2 h2 w2 (entries_under "pstop_health" (sim_store w1)) w1
    (fun _ _ => eq_refl) demo_counters_wf Ef eq_refl Ei)).
Defined.

Example blob_roundtrip_witness :
  health_decode (Some (health_encode (h_counters (fst demo_counted)))) 34 =
    Some (h_counters (fst demo_counted)).
Proof. exact (proj1 (proj2 (blob_roundtrip _ [] 0 demo_counters_wf))). Defined.

Example board_is_bounded_map_witness :
  let b := snd (health_board_publish zero_board "wifi" HEALTH_WARN (Some "lost"%string) 5) in
  short "wifi" /\ option_map w_level (board_get b "wifi") = Some HEALTH_WARN.
Proof.
  assert (short "wifi") as Hs by (vm_compute; lia).
  assert (board_wf zero_board) as Hwf by (split; [vm_compute; lia|constructor|constructor]).
  split; [exact Hs|].
  pose proof (board_is_bounded_map zero_board "wifi" HEALTH_WARN (Some "lost"%string) 5 Hs Hwf) as P.
  destruct (health_board_publish zero_board "wifi" HEALTH_WARN (Some "lost"%string) 5) as [ret b'].
  destruct P as (_ & _ & _ & Hput & _).
  destruct (Hput ltac:(discriminate)) as [_ Hg]; [intros [_ H]; discriminate H|].
  cbn [snd]. rewrite Hg. reflexivity.
Defined.

Example button_level_spec_witness :
  u32_ok 85000 /\ fst (health_button_level 85000 100000 80) = HEALTH_WARN.
Proof.
  assert (u32_ok 85000) as H1 by (unfold u32_ok; lia).
  assert (u32_ok 100000) as H2 by (unfold u32_ok; lia).
  split; [exact H1|].
  pose proof (button_level_spec 85000 85000 100000 80 H1 H1 H2 ltac:(lia)) as P.
  destruct (health_button_level 85000 100000 80) as [level pct].
  destruct P as [_ P]. destruct (P ltac:(lia)) as (_ & _ & Hw & _).
  apply Hw. lia.
Defined.

Example long_source_never_found_witness :
  health_board_clear (snd (health_board_publish zero_board "prusa_link_upload" HEALTH_WARN None 5))
    "prusa_link_upload" =
  snd (health_board_publish zero_board "prusa_link_upload" HEALTH_WARN None 5).
Proof.
  refine (proj1 (proj2 (long_source_never_found _ "prusa_link_upload" HEALTH_WARN None 5 _ _ _))).
  - vm_compute. lia.
  - repeat constructor.
  - discriminate.
Defined.
