(* ===== verification/Floats.v ===== *)
(** C floats: the Standard Library's binary32 and binary64 [spec_float], with the
    conversions and the order the rover, the pan-tilt head and the power monitor use. *)

From Stdlib Require Import SpecFloat.
From S2P Require Import Prelude.
#[local] Open Scope Z_scope.

Definition float32 : Type := spec_float.
Definition float64 : Type := spec_float.
Definition f32_of_int (z : Z) : float32 := binary_normalize 24 128 z 0 false.
Definition f64_of_int (z : Z) : float64 := binary_normalize 53 1024 z 0 false.
(** A conversion that rounds. *)
Definition convert (prec emax : Z) (x : spec_float) : spec_float :=
  match x with
  | S754_finite s m e => binary_normalize prec emax (if s then Zneg m else Zpos m) e s
  | _ => x
  end.
Definition to_f32 (x : float64) : float32 := convert 24 128 x.
Definition to_f64 (x : float32) : float64 := convert 53 1024 x.
Definition fadd : float32 -> float32 -> float32 := SFadd 24 128.
Definition fsub : float32 -> float32 -> float32 := SFsub 24 128.
Definition fmul : float32 -> float32 -> float32 := SFmul 24 128.
Definition fdiv : float32 -> float32 -> float32 := SFdiv 24 128.
Definition f0 : float32 := f32_of_int 0.
Definition f1 : float32 := f32_of_int 1.
Definition fm1 : float32 := f32_of_int (-1).
Definition is_nan (x : spec_float) : bool := match x with S754_nan => true | _ => false end.
Definition is_zero (x : spec_float) : bool := match x with S754_zero _ => true | _ => false end.

(** A double's conversion to an integer, towards zero. *)
Definition truncate (x : float64) : Z :=
  match x with
  | S754_finite s m e => let v := if 0 <=? e then Z.pos m * 2 ^ e else Z.pos m / 2 ^ (- e) in if s then - v else v
  | _ => 0
  end.

(** [MIN] and [MAX], the macros. *)
Definition MIN (a b : spec_float) : spec_float := if SFltb a b then a else b.
Definition MAX (a b : spec_float) : spec_float := if SFltb b a then a else b.

(** * Order *)

Lemma SFcompare_opp x y c : SFcompare x y = Some c -> SFcompare y x = Some (CompOpp c).
Proof.
  destruct x as [[|]|[|]| |[|] m e], y as [[|]|[|]| |[|] m' e']; cbn; try discriminate; intros [= <-]; try reflexivity.
  - rewrite (Z.compare_antisym e e'). destruct (e ?= e'); cbn; try reflexivity.
    change (Some (CompOpp (m' ?= m)%positive) = Some (CompOpp (CompOpp (m ?= m')%positive))). by rewrite Pos.compare_antisym, CompOpp_involutive.
  - rewrite (Z.compare_antisym e e'). destruct (e ?= e'); cbn; try reflexivity.
    change (Some (m' ?= m)%positive = Some (CompOpp (m ?= m')%positive)). by rewrite Pos.compare_antisym.
Qed.


(** Where a float stands among the others: its sign, then its exponent and mantissa. *)
Definition rank (x : spec_float) : Z * Z * Z :=
  match x with
  | S754_zero _ | S754_nan => (0, 0, 0)
  | S754_infinity s => (if s then -2 else 2, 0, 0)
  | S754_finite s m e => if s then (-1, - e, - Zpos m) else (1, e, Zpos m)
  end.
Definition rank_le (a b : Z * Z * Z) : Prop :=
  let '(s, e, m) := a in let '(s', e', m') := b in
  s < s' \/ s = s' /\ (e < e' \/ e = e' /\ m <= m').
Lemma compare_rank x y : is_nan x = false -> is_nan y = false ->
  SFcompare x y = Some (let '(s, e, m) := rank x in let '(s', e', m') := rank y in
    match s ?= s' with Eq => match e ?= e' with Eq => m ?= m' | c => c end | c => c end).
Proof.
  destruct x as [[|]|[|]| |[|] m e], y as [[|]|[|]| |[|] m' e']; try discriminate; intros _ _; try reflexivity;
    cbn [rank Z.compare]; unfold SFcompare.
  - f_equal. rewrite Z.compare_opp, (Z.compare_antisym e e'). destruct (e ?= e'); cbn [CompOpp]; try reflexivity.
Qed.
Lemma leb_rank x y : is_nan x = false -> is_nan y = false -> (SFleb x y = true <-> rank_le (rank x) (rank y)).
Proof.
  intros Hx Hy. unfold SFleb. rewrite compare_rank by done. unfold rank_le.
  destruct (rank x) as [[s e] m], (rank y) as [[s' e'] m'].
  destruct (Z.compare_spec s s'); [|split; [lia|done]|split; [done|lia]].
  destruct (Z.compare_spec e e'); [|split; [lia|done]|split; [done|lia]].
  destruct (Z.compare_spec m m'); split; (done || lia).
Qed.
Lemma ltb_leb x y : is_nan x = false -> is_nan y = false -> SFltb x y = negb (SFleb y x).
Proof.
  intros Hx Hy. unfold SFltb, SFleb. pose proof (compare_rank x y Hx Hy) as E. rewrite E.
  rewrite (SFcompare_opp _ _ _ E). by destruct (let '(_, _, _) := rank x in _).
Qed.
Lemma leb_refl x : is_nan x = false -> SFleb x x = true.
Proof. intros Hx. apply leb_rank; [done..|]. destruct (rank x) as [[s e] m]. cbn. lia. Qed.
Lemma leb_trans x y z : is_nan x = false -> is_nan y = false -> is_nan z = false ->
  SFleb x y = true -> SFleb y z = true -> SFleb x z = true.
Proof.
  intros Hx Hy Hz. rewrite !leb_rank by done. destruct (rank x) as [[? ?] ?], (rank y) as [[? ?] ?], (rank z) as [[? ?] ?]. cbn. lia.
Qed.
Lemma leb_total x y : is_nan x = false -> is_nan y = false -> SFleb x y = true \/ SFleb y x = true.
Proof.
  intros Hx Hy. rewrite !leb_rank by done. destruct (rank x) as [[? ?] ?], (rank y) as [[? ?] ?]. cbn. lia.
Qed.

(** The least of a run of readings, as it is kept. *)
Lemma min_kept x l : is_nan x = false -> Forall (fun y => is_nan y = false) l ->
  let r := foldl MIN x l in is_nan r = false /\ (r = x \/ r ∈ l) /\ SFleb r x = true /\ Forall (fun y => SFleb r y = true) l.
Proof.
  revert x. induction l as [|y l IH]; intros x Hx Hl; cbn [foldl]; [split_and!; [done|by left|by apply leb_refl|constructor]|].
  inversion Hl as [|? ? Hy Hl']; subst. assert (is_nan (MIN x y) = false) as Hm by (unfold MIN; by destruct (SFltb x y)).
  destruct (IH (MIN x y) Hm Hl') as (Hr & Hin & Hle & Hall). cbv zeta. set (r := foldl MIN (MIN x y) l) in *.
  assert (SFleb (MIN x y) x = true /\ SFleb (MIN x y) y = true) as [Lx Ly].
  { unfold MIN. rewrite ltb_leb by done. destruct (SFleb y x) eqn:E; cbn [negb]; (split; [try done; by apply leb_refl|try by apply leb_refl]).
    destruct (leb_total x y Hx Hy); congruence. }
  split; [done|]. split; [|split; [by apply (leb_trans r (MIN x y) x)|constructor; [by apply (leb_trans r (MIN x y) y)|done]]].
  destruct Hin as [->|Hin]; [|right; by right]. unfold MIN. destruct (SFltb x y); [by left|right; by left].
Qed.
Lemma max_kept x l : is_nan x = false -> Forall (fun y => is_nan y = false) l ->
  let r := foldl MAX x l in is_nan r = false /\ (r = x \/ r ∈ l) /\ SFleb x r = true /\ Forall (fun y => SFleb y r = true) l.
Proof.
  revert x. induction l as [|y l IH]; intros x Hx Hl; cbn [foldl]; [split_and!; [done|by left|by apply leb_refl|constructor]|].
  inversion Hl as [|? ? Hy Hl']; subst. assert (is_nan (MAX x y) = false) as Hm by (unfold MAX; by destruct (SFltb y x)).
  destruct (IH (MAX x y) Hm Hl') as (Hr & Hin & Hle & Hall). cbv zeta. set (r := foldl MAX (MAX x y) l) in *.
  assert (SFleb x (MAX x y) = true /\ SFleb y (MAX x y) = true) as [Lx Ly].
  { unfold MAX. rewrite ltb_leb by done. destruct (SFleb x y) eqn:E; cbn [negb]; (split; [try done; by apply leb_refl|try by apply leb_refl]).
    destruct (leb_total x y Hx Hy); congruence. }
  split; [done|]. split; [|split; [by apply (leb_trans x (MAX x y) r)|constructor; [by apply (leb_trans y (MAX x y) r)|done]]].
  destruct Hin as [->|Hin]; [|right; by right]. unfold MAX. destruct (SFltb y x); [by left|right; by left].
Qed.
