(* ===== verification/HttpUtil.v ===== *)
(** Request parsing helpers: [common/http_util/http_util.c].

    A C string is the list of its characters before the NUL.  Zephyr's
    [base64_decode] is a parameter of the basic-auth check. *)

From S2P Require Import Prelude.
From Stdlib Require Import Ascii.
#[local] Open Scope Z_scope.

Definition cstr : Type := list ascii.
Definition chr (s : string) : ascii := match s with String c _ => c | EmptyString => zero end.

(** [strchr]: the rest of [s] from the first [c] on. *)
Fixpoint strchr (s : cstr) (c : ascii) : option cstr :=
  match s with
  | [] => None
  | a :: s' => if Ascii.eqb a c then Some s else strchr s' c
  end.
(** [strncmp(s, key, strlen(key)) == 0]. *)
Fixpoint has_prefix (key s : cstr) : bool :=
  match key, s with
  | [], _ => true
  | k :: key, a :: s => Ascii.eqb k a && has_prefix key s
  | _, [] => false
  end.

(** [strstr]: the rest of [s] from the first [pat] on. *)
Fixpoint strstr (s pat : cstr) : option cstr :=
  if has_prefix pat s then Some s
  else match s with [] => None | _ :: s => strstr s pat end.

(** [strcasecmp(a, b) == 0]. *)
Definition lower (c : ascii) : ascii :=
  let n := nat_of_ascii c in if (65 <=? n)%nat && (n <=? 90)%nat then ascii_of_nat (n + 32) else c.
Definition strcaseeq (a b : cstr) : bool := bool_decide (map lower a = map lower b).

(** The pair loop of [http_query_get]; what [out] holds is the second result. *)
Fixpoint query_loop (fuel : nat) (p key : cstr) (out_len : nat) : Z * cstr :=
  match fuel, p with
  | O, _ | _, [] => (- ENOENT, [])
  | S fuel, _ =>
      let end_ := strchr p (chr "&") in
      let pair_len := match end_ with Some e => (length p - length e)%nat | None => length p end in
      let key_len := length key in
      if (key_len <? pair_len)%nat && has_prefix key p &&
         bool_decide (p !! key_len = Some (chr "="))
      then
        let val := take (pair_len - key_len - 1) (drop (key_len + 1) p) in
        if (out_len <=? length val)%nat then (- ENOSPC, []) else (0, val)
      else match end_ with
           | None => (- ENOENT, [])
           | Some e => query_loop fuel (tail e) key out_len
           end
  end.

(** [None] in the result is an [out] left unwritten; [None] as an argument is a
    null pointer. *)
Definition http_query_get (url key : option cstr) (out_len : nat) : Z * option cstr :=
  match url, key with
  | Some url, Some key =>
      if (out_len =? 0)%nat then (- EINVAL, None)
      else match strchr url (chr "?") with
           | None => (- ENOENT, Some [])
           | Some p => let '(ret, out) := query_loop (length url) (tail p) key out_len in
                       (ret, Some out)
           end
  | _, _ => (- EINVAL, None)
  end.

Definition http_query_flag (url key : option cstr) : bool :=
  match http_query_get url key 4 with
  | (0, Some val) => bool_decide (val = [chr "1"])
  | _ => false
  end.

(** ** Numbers *)
Definition char_code (c : ascii) : Z := Z.of_nat (nat_of_ascii c).
Definition isspace (c : ascii) : bool :=
  let n := char_code c in (n =? 32) || ((9 <=? n) && (n <=? 13)).
Definition dec_digit (c : ascii) : option Z :=
  let n := char_code c in if (48 <=? n) && (n <=? 57) then Some (n - 48) else None.

(** The digit loop of one octet: the value and the rest of the string. *)
Fixpoint parse_octet (s : cstr) (v digits : Z) : option (Z * cstr) :=
  match s with
  | c :: s' =>
      match dec_digit c with
      | Some d =>
          let v := u32 (u32 (v * 10) + d) in
          if (255 <? v) || (3 <? digits + 1) then None else parse_octet s' v (digits + 1)
      | None => if digits =? 0 then None else Some (v, s)
      end
  | [] => if digits =? 0 then None else Some (v, [])
  end.

(** [todo] octets to go; a dot after every one but the last. *)
Fixpoint parse_octets (todo : nat) (s : cstr) (ip : Z) : option Z :=
  match todo with
  | O => match s with [] => Some ip | _ => None end
  | S todo =>
      match parse_octet s 0 0 with
      | None => None
      | Some (v, s) =>
          let ip := Z.lor (u32 (Z.shiftl ip 8)) v in
          match todo, s with
          | O, _ => parse_octets todo s ip
          | _, c :: s => if Ascii.eqb c (chr ".") then parse_octets todo s ip else None
          | _, [] => None
          end
      end
  end.

Definition http_parse_ipv4 (s : option cstr) : Z * option Z :=
  match s with
  | None => (- EINVAL, None)
  | Some s => match parse_octets 4 s 0 with
              | Some ip => (0, Some ip)
              | None => (- EINVAL, None)
              end
  end.

Definition hex_digit (c : ascii) : Z :=
  let n := char_code c in
  if (48 <=? n) && (n <=? 57) then n - 48
  else if (97 <=? n) && (n <=? 102) then n - 97 + 10
  else if (65 <=? n) && (n <=? 70) then n - 65 + 10
  else -1.

Fixpoint u32_loop (s : cstr) (base v : Z) : option Z :=
  match s with
  | [] => Some v
  | c :: s =>
      let d := hex_digit c in
      if (d <? 0) || (base <=? u32 d) then None
      else
        let v := u64 (u64 (v * base) + d) in
        if UINT32_MAX <? v then None else u32_loop s base v
  end.

Definition http_parse_u32 (s : option cstr) : Z * option Z :=
  let run s base := match u32_loop s base 0 with
                    | Some v => (0, Some (u32 v))
                    | None => (- EINVAL, None)
                    end in
  match s with
  | None | Some [] => (- EINVAL, None)
  | Some (c0 :: s1) =>
      match s1 with
      | c1 :: s2 =>
          if Ascii.eqb c0 (chr "0") && (Ascii.eqb c1 (chr "x") || Ascii.eqb c1 (chr "X"))
          then match s2 with [] => (- EINVAL, None) | _ => run s2 16 end
          else run (c0 :: s1) 10
      | [] => run (c0 :: s1) 10
      end
  end.

(** ** Basic auth *)
(** [base64_decode(dst, cap, src)]: the bytes, or [None] on a nonzero return;
    it never writes more than [cap]. *)
Class Base64 := {
  base64_decode : nat -> cstr -> option cstr;
  base64_cap : forall cap src b, base64_decode cap src = Some b -> (length b <= cap)%nat;
}.

Definition byte_xor (a b : ascii) : Z := Z.lxor (char_code a) (char_code b).
Definition auth_diff (a b : cstr) : Z :=
  foldl Z.lor 0 (zip_with byte_xor a b).
Definition basic_scheme : cstr := String.list_ascii_of_string "Basic ".

Definition http_basic_auth_ok `{Base64} (header user password : option cstr) : bool :=
  match header, user, password with
  | Some header, Some user, Some password =>
      if (length password =? 0)%nat then false
      else if negb (has_prefix basic_scheme header) then false
      else
        match base64_decode 127 (drop (length basic_scheme) header) with
        | None => false
        | Some decoded =>
            let user_len := length user in
            let pw_len := length password in
            if negb (length decoded =? user_len + 1 + pw_len)%nat ||
               negb (bool_decide (take user_len decoded = user)) ||
               negb (bool_decide (decoded !! user_len = Some (chr ":"))) then false
            else auth_diff (drop (user_len + 1) decoded) password =? 0
        end
  | _, _, _ => false
  end.

(** * Specification *)

(** The query string's pairs. *)
Fixpoint split_on (c : ascii) (s : cstr) : list cstr :=
  match s with
  | [] => [[]]
  | a :: s => if Ascii.eqb a c then [] :: split_on c s
              else match split_on c s with
                   | h :: t => (a :: h) :: t
                   | [] => [[a]]
                   end
  end.
(** The value of a pair that is [key=value]. *)
Definition pair_value (key pair : cstr) : option cstr :=
  if has_prefix (key ++ [chr "="]) pair then Some (drop (length key + 1) pair) else None.
Fixpoint first_value (key : cstr) (pairs : list cstr) : option cstr :=
  match pairs with
  | [] => None
  | p :: pairs => match pair_value key p with Some v => Some v | None => first_value key pairs end
  end.

(** Decimal digits, most significant first. *)
Definition dec_value (s : cstr) : Z :=
  foldl (fun v c => v * 10 + default 0 (dec_digit c)) 0 s.
Definition octet_text (s : cstr) : Prop :=
  (1 <= length s <= 3)%nat /\ Forall (fun c => dec_digit c <> None) s /\ dec_value s <= 255.
Definition digit (d : Z) : ascii := ascii_of_nat (Z.to_nat (48 + d)).
Definition show_octet (v : Z) : cstr :=
  if v <? 10 then [digit v]
  else if v <? 100 then [digit (v / 10); digit (v mod 10)]
  else [digit (v / 100); digit (v / 10 mod 10); digit (v mod 10)].
Definition octet_of (ip : Z) (i : Z) : Z := Z.shiftr ip (8 * i) mod 256.
Definition show_ipv4 (ip : Z) : cstr :=
  show_octet (octet_of ip 3) ++ [chr "."] ++ show_octet (octet_of ip 2) ++ [chr "."] ++
  show_octet (octet_of ip 1) ++ [chr "."] ++ show_octet (octet_of ip 0).

Definition digits_value (base : Z) (s : cstr) : Z :=
  foldl (fun v c => v * base + hex_digit c) 0 s.
Definition digits_of (base : Z) (s : cstr) : bool :=
  forallb (fun c => (0 <=? hex_digit c) && (hex_digit c <? base)) s.

(** * Lemmas *)
Lemma strchr_split c s :
  match strchr s c with
  | None => split_on c s = [s] /\ c ∉ s
  | Some e => exists h, s = h ++ e /\ c ∉ h /\ exists t, e = c :: t /\ split_on c s = h :: split_on c t
  end.
Proof.
  induction s as [|a s IH]; cbn; [split; [done|apply not_elem_of_nil]|].
  destruct (Ascii.eqb_spec a c) as [->|Hne].
  - exists []. split; [done|]. split; [apply not_elem_of_nil|]. by exists s.
  - destruct (strchr s c) as [e|].
    + destruct IH as (h & -> & Hh & t & -> & Hs). exists (a :: h).
      split; [done|]. split; [rewrite not_elem_of_cons; split; [by intros ->|done]|].
      exists t. split; [done|]. by rewrite Hs.
    + destruct IH as [-> Hn]. split; [done|]. rewrite not_elem_of_cons. split; [by intros ->|done].
Qed.

Lemma has_prefix_app key s : has_prefix key (key ++ s) = true.
Proof. induction key as [|k key IH]; [done|]. cbn. by rewrite Ascii.eqb_refl, IH. Qed.
Lemma has_prefix_spec key s : has_prefix key s = true <-> exists r, s = key ++ r.
Proof.
  split; [|intros [r ->]; apply has_prefix_app].
  revert s. induction key as [|k key IH]; intros s Hp; [by exists s|].
  destruct s as [|a s]; [done|]. cbn in Hp. apply andb_true_iff in Hp as [Hk Hp].
  apply Ascii.eqb_eq in Hk as ->. destruct (IH s Hp) as [r ->]. by exists r.
Qed.

(** The loop's test of a pair is [pair_value]'s. *)
Lemma pair_test key h rest :
  (length key <? length h)%nat && has_prefix key (h ++ rest) &&
    bool_decide ((h ++ rest) !! length key = Some (chr "=")) =
  has_prefix (key ++ [chr "="]) h.
Proof.
  apply eq_true_iff_eq. rewrite !andb_true_iff, Nat.ltb_lt, bool_decide_eq_true, !has_prefix_spec.
  split.
  - intros [[Hl [r Hr]] Heq]. rewrite lookup_app_l in Heq by done.
    assert (take (length key) h = key) as Hk.
    { rewrite <- (take_app_le h rest) by lia. by rewrite Hr, take_app_length. }
    exists (drop (S (length key)) h).
    rewrite <- app_assoc. cbn. rewrite <- Hk at 1. by rewrite take_drop_middle.
  - intros [r ->]. rewrite !length_app. cbn. rewrite <- !app_assoc. cbn.
    split; [split; [lia|by eexists]|].
    rewrite lookup_app_r, Nat.sub_diag by lia. done.
Qed.

Lemma query_loop_spec fuel p key n :
  (length p <= fuel)%nat ->
  query_loop fuel p key n =
  match first_value key (split_on (chr "&") p) with
  | None => (- ENOENT, [])
  | Some v => if (n <=? length v)%nat then (- ENOSPC, []) else (0, v)
  end.
Proof.
  revert p. induction fuel as [|fuel IH]; intros p Hl.
  { destruct p; [|cbn in Hl; lia]. cbn. unfold pair_value. by destruct key. }
  destruct p as [|a p]; [cbn; unfold pair_value; by destruct key|].
  cbn [query_loop]. set (q := a :: p) in *.
  pose proof (strchr_split (chr "&") q) as Hs. destruct (strchr q (chr "&")) as [e|].
  - destruct Hs as (h & Hq & _ & t & -> & ->). rewrite Hq in *.
    replace (length (h ++ chr "&" :: t) - length (chr "&" :: t))%nat with (length h)
      by (rewrite length_app; lia).
    rewrite pair_test. cbn [first_value]. unfold pair_value.
    destruct (has_prefix (key ++ [chr "="]) h) eqn:Hp.
    + apply has_prefix_spec in Hp as [r ->].
      assert (take (length ((key ++ [chr "="]) ++ r) - length key - 1)
                (drop (length key + 1) (((key ++ [chr "="]) ++ r) ++ chr "&" :: t)) = r) as ->.
      { rewrite <- !app_assoc. rewrite drop_app_add. cbn [drop app].
        rewrite drop_0, !length_app. cbn [length].
        rewrite take_app_length' by lia. done. }
      assert (drop (length key + 1) ((key ++ [chr "="]) ++ r) = r) as ->; [|done].
      rewrite <- app_assoc, drop_app_add. cbn. apply drop_0.
    + apply IH. rewrite length_app in Hl. cbn in *. lia.
  - destruct Hs as [-> _]. pose proof (pair_test key q []) as Ht. rewrite app_nil_r in Ht.
    cbv beta iota zeta.
    match goal with |- (if ?c then _ else _) = _ =>
      replace c with (has_prefix (key ++ [chr "="]) q) by (symmetry; exact Ht) end. cbn [first_value]. unfold pair_value.
    destruct (has_prefix (key ++ [chr "="]) q) eqn:Hp; [|done].
    apply has_prefix_spec in Hp as [r ->].
    rewrite take_ge; [done|]. rewrite length_drop. lia.
Qed.

Lemma dec_digit_range c d : dec_digit c = Some d -> 0 <= d <= 9.
Proof.
  unfold dec_digit. destruct ((48 <=? char_code c) && (char_code c <=? 57)) eqn:E; [|done].
  intros [= <-]. to_prop. lia.
Qed.
Lemma dec_digit_digit d : 0 <= d <= 9 -> dec_digit (digit d) = Some d.
Proof.
  intros Hd. unfold dec_digit, digit, char_code. rewrite nat_ascii_embedding by lia.
  rewrite Z2Nat.id by lia. destruct (Z.leb_spec 48 (48 + d)); [|lia].
  destruct (Z.leb_spec (48 + d) 57); [|lia]. cbn. f_equal. lia.
Qed.

Definition dec_step (v : Z) (c : ascii) : Z := v * 10 + default 0 (dec_digit c).
Definition is_digit (c : ascii) : Prop := dec_digit c <> None.
Definition no_digit_first (s : cstr) : Prop :=
  match s with [] => True | c :: _ => dec_digit c = None end.

Lemma dec_step_le v c : 0 <= v -> v <= dec_step v c.
Proof.
  intros Hv. unfold dec_step. destruct (dec_digit c) as [d|] eqn:E; cbn; [|lia].
  apply dec_digit_range in E. lia.
Qed.
Lemma dec_foldl_le ds v : 0 <= v -> v <= foldl dec_step v ds.
Proof.
  revert v. induction ds as [|c ds IH]; intros v Hv; [cbn; lia|]. cbn.
  pose proof (dec_step_le v c Hv). pose proof (IH (dec_step v c) ltac:(lia)). lia.
Qed.

Lemma parse_octet_sound s v n v' rest :
  0 <= v <= 255 -> parse_octet s v n = Some (v', rest) -> 0 <= n ->
  exists ds, s = ds ++ rest /\ Forall is_digit ds /\ no_digit_first rest /\
    n + Z.of_nat (length ds) <= Z.max n 3 /\ 0 < n + Z.of_nat (length ds) /\
    v' = foldl dec_step v ds /\ v' <= 255.
Proof.
  revert v n. induction s as [|c s IH]; intros v n Hv E Hn; cbn in E.
  { destruct (Z.eqb_spec n 0); [done|]. simplify_eq. exists []. cbn. repeat split; try done; lia. }
  destruct (dec_digit c) as [d|] eqn:Ed.
  - pose proof (dec_digit_range _ _ Ed) as Hd. rewrite !u32_small in E by (rewrite ?u32_small; lia).
    assert (dec_step v c = v * 10 + d) as Hs by (unfold dec_step; by rewrite Ed).
    destruct ((255 <? v * 10 + d) || (3 <? n + 1)) eqn:Hc; [done|]. to_prop.
    destruct (IH (v * 10 + d) (n + 1) ltac:(lia) E ltac:(lia))
      as (ds & -> & Hds & Hr & H1 & H2 & -> & H4).
    exists (c :: ds). cbn [length foldl app]. rewrite Hs. split; [done|].
    split; [constructor; [by unfold is_digit; rewrite Ed|done]|]. repeat split; try done; lia.
  - destruct (Z.eqb_spec n 0); [done|]. simplify_eq. exists []. cbn. rewrite Ed.
    repeat split; try done; lia.
Qed.

Lemma parse_octet_complete ds rest v n :
  0 <= v -> 0 <= n -> Forall is_digit ds -> no_digit_first rest ->
  n + Z.of_nat (length ds) <= 3 -> 0 < n + Z.of_nat (length ds) ->
  foldl dec_step v ds <= 255 ->
  parse_octet (ds ++ rest) v n = Some (foldl dec_step v ds, rest).
Proof.
  revert v n. induction ds as [|c ds IH]; intros v n Hv Hn Hds Hr Hl Hp Hle; cbn in *.
  { destruct rest as [|c rest]; cbn in *; [|rewrite Hr]; destruct (Z.eqb_spec n 0); done || lia. }
  apply Forall_cons in Hds as [Hc Hds]. unfold is_digit in Hc.
  destruct (dec_digit c) as [d|] eqn:Ed; [|done]. pose proof (dec_digit_range _ _ Ed) as Hd.
  assert (dec_step v c = v * 10 + d) as Hs by (unfold dec_step; by rewrite Ed).
  rewrite Hs in *. pose proof (dec_foldl_le ds (v * 10 + d) ltac:(lia)) as Hmono.
  rewrite !u32_small by (rewrite ?u32_small; lia).
  destruct (Z.ltb_spec 255 (v * 10 + d)); [lia|]. destruct (Z.ltb_spec 3 (n + 1)); [lia|].
  cbn [orb]. apply IH; (done || lia).
Qed.

Lemma octet_text_spec s :
  octet_text s <-> (1 <= length s <= 3)%nat /\ Forall is_digit s /\ foldl dec_step 0 s <= 255.
Proof. done. Qed.

Lemma dot_no_digit s : no_digit_first (chr "." :: s).
Proof. done. Qed.

Lemma ip_shift ip v : 0 <= ip < 2 ^ 24 -> 0 <= v < 256 ->
  Z.lor (u32 (Z.shiftl ip 8)) v = ip * 256 + v.
Proof.
  intros Hip Hv. rewrite u32_small; [by rewrite lor_concat by lia|].
  rewrite Z.shiftl_mul_pow2 by lia. lia.
Qed.

Lemma dec_value_range s : 0 <= dec_value s.
Proof. apply (dec_foldl_le s 0). lia. Qed.

(** The last octet, and one that a dot follows. *)
Lemma parse_octets_last s ip v :
  0 <= ip < 2 ^ 24 ->
  (parse_octets 1 s ip = Some v <-> octet_text s /\ v = ip * 256 + dec_value s).
Proof.
  intros Hip. cbn [parse_octets]. split.
  - destruct (parse_octet s 0 0) as [[o rest]|] eqn:E; [|done].
    apply parse_octet_sound in E as (ds & -> & Hds & Hr & H1 & H2 & -> & H4); [|lia..].
    destruct rest; [|done]. rewrite app_nil_r. intros [= <-].
    pose proof (dec_foldl_le ds 0 ltac:(lia)).
    rewrite ip_shift by lia. split; [|done]. split; [lia|]. done.
  - intros [(Hl & Hd & Hv) ->].
    pose proof (parse_octet_complete s [] 0 0 ltac:(lia) ltac:(lia) Hd I) as E.
    rewrite app_nil_r in E. change (foldl dec_step 0 s) with (dec_value s) in E.
    pose proof (dec_value_range s).
    rewrite E by lia. by rewrite ip_shift by lia.
Qed.
Lemma parse_octets_dot n s ip v :
  0 <= ip < 2 ^ 24 ->
  (parse_octets (S (S n)) s ip = Some v <->
   exists a rest, s = a ++ chr "." :: rest /\ octet_text a /\
     parse_octets (S n) rest (ip * 256 + dec_value a) = Some v).
Proof.
  intros Hip. cbn [parse_octets]. split.
  - destruct (parse_octet s 0 0) as [[o rest]|] eqn:E; [|done].
    apply parse_octet_sound in E as (ds & -> & Hds & Hr & H1 & H2 & -> & H4); [|lia..].
    destruct rest as [|c rest]; [done|]. destruct (Ascii.eqb_spec c (chr ".")) as [->|]; [|done].
    pose proof (dec_foldl_le ds 0 ltac:(lia)). rewrite ip_shift by lia.
    intros Hp. exists ds, rest. split; [done|]. split; [|done]. split; [lia|]. done.
  - intros (a & rest & -> & (Hl & Hd & Hv) & Hp).
    pose proof (parse_octet_complete a (chr "." :: rest) 0 0 ltac:(lia) ltac:(lia) Hd (dot_no_digit rest)) as E.
    change (foldl dec_step 0 a) with (dec_value a) in E. pose proof (dec_value_range a).
    rewrite E by lia. cbn [Ascii.eqb]. rewrite ip_shift by lia.
    rewrite Ascii.eqb_refl. exact Hp.
Qed.

Lemma show_octet_text v : 0 <= v < 256 -> octet_text (show_octet v) /\ dec_value (show_octet v) = v.
Proof.
  intros Hv. unfold octet_text, show_octet, dec_value.
  assert (forall d, 0 <= d <= 9 -> dec_digit (digit d) = Some d) as Hd by apply dec_digit_digit.
  assert (0 <= v / 10 mod 10 <= 9 /\ 0 <= v mod 10 <= 9 /\ 0 <= v / 100 <= 2) as (H1 & H2 & H3)
    by (Z.to_euclidean_division_equations; lia).
  destruct (Z.ltb_spec v 10); [|destruct (Z.ltb_spec v 100)]; cbn;
    rewrite ?Hd by (Z.to_euclidean_division_equations; lia); cbn;
    (split; [split; [lia|]; split;
      [repeat constructor; rewrite Hd by (Z.to_euclidean_division_equations; lia); done|]|]);
    Z.to_euclidean_division_equations; lia.
Qed.

(** ** [http_parse_u32] *)
Lemma hex_digit_range c : -1 <= hex_digit c < 16.
Proof.
  unfold hex_digit. repeat match goal with
  | |- context [(?a <=? ?b) && (?b <=? ?c)] => destruct ((a <=? b) && (b <=? c)) eqn:?
  end; to_prop; lia.
Qed.

Lemma digits_value_le base s v : 2 <= base -> 0 <= v -> digits_of base s = true ->
  v <= foldl (fun v c => v * base + hex_digit c) v s.
Proof.
  intros Hb. revert v. induction s as [|c s IH]; intros v Hv Hd; [cbn; lia|].
  cbn in *. to_prop. pose proof (IH (v * base + hex_digit c) ltac:(nia) ltac:(done)). nia.
Qed.

Lemma u32_loop_spec s base v :
  2 <= base <= 16 -> 0 <= v < 2 ^ 32 ->
  u32_loop s base v =
  let v' := foldl (fun v c => v * base + hex_digit c) v s in
  if digits_of base s && (v' <=? UINT32_MAX) then Some v' else None.
Proof.
  intros Hb. revert v. induction s as [|c s IH]; intros v Hv; cbn; [|fold (digits_of base s)].
  { unfold UINT32_MAX. destruct (Z.leb_spec v (2 ^ 32 - 1)); [done|lia]. }
  pose proof (hex_digit_range c) as Hc.
  destruct (Z.ltb_spec (hex_digit c) 0) as [Hneg|Hpos]; cbn [orb].
  { destruct (Z.leb_spec 0 (hex_digit c)); [lia|]. done. }
  rewrite (u32_small (hex_digit c)) by lia.
  destruct (Z.leb_spec 0 (hex_digit c)); [|lia]. cbn [andb].
  rewrite Z.leb_antisym. destruct (Z.ltb_spec (hex_digit c) base) as [Hlt|Hge]; cbn [negb andb]; [|done].
  rewrite (u64_small (v * base)), u64_small by nia.
  unfold UINT32_MAX in *. destruct (Z.ltb_spec (2 ^ 32 - 1) (v * base + hex_digit c)) as [Hbig|Hok].
  - destruct (digits_of base s) eqn:Hd; [|done]. cbn [andb].
    pose proof (digits_value_le base s (v * base + hex_digit c) ltac:(lia) ltac:(nia) Hd).
    destruct (Z.leb_spec (foldl (fun v c => v * base + hex_digit c) (v * base + hex_digit c) s)
                (2 ^ 32 - 1)); [lia|done].
  - by rewrite IH by nia.
Qed.

(** ** Basic auth *)
Lemma auth_diff_nonneg l acc : 0 <= acc -> Forall (fun z => 0 <= z) l ->
  0 <= foldl Z.lor acc l /\ (foldl Z.lor acc l = 0 <-> acc = 0 /\ Forall (fun z => z = 0) l).
Proof.
  intros Ha Hl. revert acc Ha. induction Hl as [|z l Hz _ IH]; intros acc Ha; cbn.
  { split; [done|]. split; [by split|tauto]. }
  destruct (IH (Z.lor acc z)) as [H1 H2]; [by apply Z.lor_nonneg|].
  split; [done|]. rewrite H2, Z.lor_eq_0_iff, Forall_cons. tauto.
Qed.

Lemma char_code_back c : ascii_of_nat (Z.to_nat (char_code c)) = c.
Proof. unfold char_code. by rewrite Nat2Z.id, ascii_nat_embedding. Qed.
Lemma char_code_inj a b : char_code a = char_code b -> a = b.
Proof.
  unfold char_code. intros E. apply Nat2Z.inj in E.
  by rewrite <- (ascii_nat_embedding a), E, ascii_nat_embedding.
Qed.

Lemma auth_diff_zero a b : length a = length b -> (auth_diff a b = 0 <-> a = b).
Proof.
  intros Hl. unfold auth_diff.
  assert (Forall (fun z => 0 <= z) (zip_with byte_xor a b)) as Hpos.
  { clear Hl. revert b. induction a as [|x a IH]; intros [|y b]; constructor; [|apply IH].
    unfold byte_xor, char_code. apply Z.lxor_nonneg. lia. }
  rewrite (proj2 (auth_diff_nonneg _ 0 ltac:(lia) Hpos)). clear Hpos.
  revert b Hl. induction a as [|x a IH]; intros [|y b] Hl; try done.
  cbn in *. rewrite Forall_cons. injection Hl as Hl. specialize (IH b Hl).
  unfold byte_xor at 1. rewrite Z.lxor_eq_0_iff. split.
  - intros (_ & Hx & Hr). apply char_code_inj in Hx as ->. f_equal. by apply IH.
  - intros [= -> ->]. split; [done|]. split; [done|]. by apply IH.
Qed.

(** * Properties *)

(** [http_query_get] is lookup in the split query: it finds the value of the first
    [key=value] pair between ampersands after the first question mark, copies it
    whole or refuses it when it does not fit with its NUL ([-ENOSPC]), and reports
    [-ENOENT] when there is no query or no such pair; the scan always ends, with
    the URL's length as fuel. *)
Theorem query_get_spec url key out_len :
  (0 < out_len)%nat ->
  http_query_get (Some url) (Some key) out_len =
  match strchr url (chr "?") with
  | None => (- ENOENT, Some [])
  | Some q =>
      match first_value key (split_on (chr "&") (tail q)) with
      | None => (- ENOENT, Some [])
      | Some v => if (out_len <=? length v)%nat then (- ENOSPC, Some []) else (0, Some v)
      end
  end.
Proof.
  intros Hn. unfold http_query_get. destruct (Nat.eqb_spec out_len 0); [lia|].
  pose proof (strchr_split (chr "?") url) as Hs. destruct (strchr url (chr "?")) as [q|]; [|done].
  destruct Hs as (h & -> & _ & t & -> & _). cbn [tail].
  rewrite query_loop_spec by (rewrite length_app; cbn; lia).
  destruct (first_value _ _); [|done]. by bool_case.
Qed.

(** Four groups of digits, and the value they have. *)
Lemma parse_ipv4_octets s ip :
  http_parse_ipv4 (Some s) = (0, Some ip) <->
  exists a b c d, s = a ++ chr "." :: b ++ chr "." :: c ++ chr "." :: d /\
    octet_text a /\ octet_text b /\ octet_text c /\ octet_text d /\
    ip = ((dec_value a * 256 + dec_value b) * 256 + dec_value c) * 256 + dec_value d.
Proof.
  assert (http_parse_ipv4 (Some s) = (0, Some ip) <-> parse_octets 4 s 0 = Some ip) as Hp.
  { unfold http_parse_ipv4. destruct (parse_octets 4 s 0); [|done].
    split; [by intros [= ->]|by intros [= ->]]. }
  rewrite Hp, (parse_octets_dot 2) by lia. split.
  - intros (a & r1 & -> & Ha & E). pose proof (dec_value_range a). pose proof Ha as (_ & _ & ?).
    rewrite (parse_octets_dot 1) in E by lia. destruct E as (b & r2 & -> & Hb & E).
    pose proof (dec_value_range b). pose proof Hb as (_ & _ & ?).
    rewrite (parse_octets_dot 0) in E by lia. destruct E as (c & d & -> & Hc & E).
    pose proof (dec_value_range c). pose proof Hc as (_ & _ & ?).
    rewrite parse_octets_last in E by lia. destruct E as [Hd ->].
    exists a, b, c, d. repeat split; try done; apply Ha || apply Hb || apply Hc || apply Hd.
  - intros (a & b & c & d & -> & Ha & Hb & Hc & Hd & ->).
    pose proof (dec_value_range a). pose proof (dec_value_range b). pose proof (dec_value_range c).
    pose proof Ha as (_ & _ & ?). pose proof Hb as (_ & _ & ?). pose proof Hc as (_ & _ & ?).
    exists a, (b ++ chr "." :: c ++ chr "." :: d). split; [done|]. split; [done|].
    rewrite (parse_octets_dot 1) by lia. exists b, (c ++ chr "." :: d). split; [done|]. split; [done|].
    rewrite (parse_octets_dot 0) by lia. exists c, d. split; [done|]. split; [done|].
    rewrite parse_octets_last by lia. split; [done|]. lia.
Qed.
Lemma parse_show_ipv4 ip : 0 <= ip < 2 ^ 32 -> http_parse_ipv4 (Some (show_ipv4 ip)) = (0, Some ip).
Proof.
  intros Hip. apply parse_ipv4_octets.
  assert (forall i, 0 <= octet_of ip i < 256) as Ho by (intros; apply Z.mod_pos_bound; lia).
  exists (show_octet (octet_of ip 3)), (show_octet (octet_of ip 2)),
    (show_octet (octet_of ip 1)), (show_octet (octet_of ip 0)).
  split; [done|].
  do 4 (split; [by apply show_octet_text|]).
  rewrite !(fun v H => proj2 (show_octet_text v H)) by done.
  unfold octet_of. rewrite !Z.shiftr_div_pow2 by lia.
  change (2 ^ (8 * 3)) with 16777216. change (2 ^ (8 * 2)) with 65536.
  change (2 ^ (8 * 1)) with 256. change (2 ^ (8 * 0)) with 1.
  Z.to_euclidean_division_equations. lia.
Qed.

(** An IPv4 address is accepted exactly when it is four groups of one to three
    digits, each at most 255, joined by single dots and nothing else, and the
    value is then the four octets in network order; so no octet overflows, and
    every 32-bit address printed in dotted form is read back as itself. *)
Theorem parse_ipv4_exact s ip :
  (http_parse_ipv4 (Some s) = (0, Some ip) <->
   exists a b c d, s = a ++ chr "." :: b ++ chr "." :: c ++ chr "." :: d /\
     octet_text a /\ octet_text b /\ octet_text c /\ octet_text d /\
     ip = ((dec_value a * 256 + dec_value b) * 256 + dec_value c) * 256 + dec_value d) /\
  (0 <= ip < 2 ^ 32 -> http_parse_ipv4 (Some (show_ipv4 ip)) = (0, Some ip)).
Proof. split; [apply parse_ipv4_octets|apply parse_show_ipv4]. Qed.

(** A number is accepted exactly when it is a non-empty run of digits of its base
    (16 after 0x or 0X, otherwise 10) whose value fits 32 bits, and is then that
    value: no digit string wraps around into a small number. *)
Theorem parse_u32_exact s v :
  http_parse_u32 (Some s) = (0, Some v) <->
  exists base body, body <> [] /\ digits_of base body = true /\ v = digits_value base body /\
    digits_value base body <= UINT32_MAX /\
    ((base = 16 /\ exists x, (x = chr "x" \/ x = chr "X") /\ s = chr "0" :: x :: body) \/
     (base = 10 /\ s = body)).
Proof.
  assert (forall s base, 2 <= base <= 16 ->
    match u32_loop s base 0 with Some v => (0, Some (u32 v)) | None => (- EINVAL, None) end = (0, Some v)
    <-> digits_of base s = true /\ v = digits_value base s /\ digits_value base s <= UINT32_MAX) as Hrun.
  { intros s' base Hb. rewrite u32_loop_spec by lia. cbv zeta. fold (digits_value base s').
    destruct (digits_of base s') eqn:Hd; cbn [andb]; [|split; [done|by intros [? _]]].
    pose proof (digits_value_le base s' 0 ltac:(lia) ltac:(lia) Hd) as H0.
    fold (digits_value base s') in H0. unfold UINT32_MAX in *.
    destruct (Z.leb_spec (digits_value base s') (2 ^ 32 - 1)).
    - rewrite u32_small by lia. split; [by intros [= <-]|by intros (_ & -> & _)].
    - split; [done|]. intros (_ & _ & ?). lia. }
  assert (forall (x : ascii) body, (x = chr "x" \/ x = chr "X") ->
          digits_of 10 (chr "0" :: x :: body) = false) as Hx by (by intros x body [-> | ->]).
  assert (forall c0 c1, Ascii.eqb c0 (chr "0") && (Ascii.eqb c1 (chr "x") || Ascii.eqb c1 (chr "X")) = true
          <-> c0 = chr "0" /\ (c1 = chr "x" \/ c1 = chr "X")) as Hc.
  { intros c0 c1. by rewrite andb_true_iff, orb_true_iff, !Ascii.eqb_eq. }
  unfold http_parse_u32. destruct s as [|c0 [|c1 s2]].
  - split; [done|]. intros (base & body & Hne & _ & _ & _ & [(_ & x & _ & ?)|(_ & <-)]); done.
  - rewrite Hrun by lia. split.
    + intros (? & ? & ?). exists 10, [c0]. split; [done|]. repeat split; auto.
    + intros (base & body & Hne & Hd & -> & Hle & [(_ & x & _ & ?)|(-> & <-)]); done.
  - destruct (_ && _) eqn:E.
    + apply Hc in E as [-> Hx1]. destruct s2 as [|c2 s3].
      * split; [done|].
        intros (base & body & Hne & Hd & -> & Hle & [(_ & x & _ & [= _ <-])|(-> & <-)]); [done|].
        by rewrite Hx in Hd.
      * rewrite Hrun by lia. split.
        -- intros (? & ? & ?). exists 16, (c2 :: s3). split; [done|]. repeat split; auto.
           left. split; [done|]. by exists c1.
        -- intros (base & body & Hne & Hd & -> & Hle & [(-> & x & _ & [= _ <-])|(-> & <-)]); [done|].
           by rewrite Hx in Hd.
    + rewrite Hrun by lia. split.
      * intros (? & ? & ?). exists 10, (c0 :: c1 :: s2). split; [done|]. repeat split; auto.
      * intros (base & body & Hne & Hd & -> & Hle & [(-> & x & Hx1 & [= -> -> ->])|(-> & <-)]); [|done].
        exfalso. assert (false = true) as F; [|done]. rewrite <- E. by apply Hc.
Qed.

Section AuthProperties.
Context `{Base64}.

(** Basic auth lets in exactly the right credentials: the check passes if and
    only if the header is the scheme followed by a base64 text that decodes (within
    127 bytes) to user, colon, password, and the password is not empty; the
    accumulated XOR is zero only for equal passwords. *)
Theorem basic_auth_exact header user password :
  http_basic_auth_ok (Some header) (Some user) (Some password) = true <->
  password <> [] /\
  exists text, header = basic_scheme ++ text /\
    base64_decode 127 text = Some (user ++ chr ":" :: password).
Proof.
  unfold http_basic_auth_ok. destruct (Nat.eqb_spec (length password) 0) as [Hz|Hz].
  { apply nil_length_inv in Hz as ->. split; [done|]. by intros [? _]. }
  assert (password <> []) as Hne by (by intros ->).
  destruct (has_prefix basic_scheme header) eqn:Hp; cbn [negb].
  2: { split; [done|]. intros [_ (text & -> & _)]. by rewrite has_prefix_app in Hp. }
  apply has_prefix_spec in Hp as [text ->]. rewrite drop_app_length.
  assert (forall o : option cstr, (exists t, basic_scheme ++ text = basic_scheme ++ t /\ base64_decode 127 t = o)
          <-> base64_decode 127 text = o) as Ht.
  { intros o. split; [|intros E; by exists text].
    intros (t & Et & E). apply app_inv_head in Et. by subst. }
  rewrite Ht. destruct (base64_decode 127 text) as [decoded|]; [|split; [done|by intros [_ ?]]].
  set (u := length user). set (pw := length password).
  destruct (Nat.eqb_spec (length decoded) (u + 1 + pw)) as [Hl|Hl]; cbn [negb orb].
  2: { split; [done|]. intros [_ [= ->]]. rewrite length_app in Hl. cbn in Hl. unfold u, pw in Hl. lia. }
  destruct (decide (take u decoded = user)) as [Hu|Hu].
  2: { rewrite bool_decide_eq_false_2 by done. cbn. split; [done|]. intros [_ [= ->]].
       unfold u in Hu. by rewrite take_app_length in Hu. }
  rewrite bool_decide_eq_true_2 by done. cbn [negb orb].
  destruct (decide (decoded !! u = Some (chr ":"))) as [Hc|Hc].
  2: { rewrite bool_decide_eq_false_2 by done. cbn. split; [done|]. intros [_ [= ->]].
       exfalso. apply Hc. by apply list_lookup_middle. }
  rewrite bool_decide_eq_true_2 by done. cbn [negb].
  rewrite Z.eqb_eq, auth_diff_zero by (rewrite length_drop; unfold u, pw in *; lia).
  rewrite Nat.add_1_r. split.
  - intros Hd. split; [done|]. f_equal. rewrite <- Hu at 1. rewrite <- Hd.
    symmetry. by apply take_drop_middle.
  - intros [_ [= E]]. rewrite E. unfold u. rewrite <- Nat.add_1_r, drop_app_add. cbn. apply drop_0.
Qed.
End AuthProperties.

(** * An instance for the witnesses *)

(** Base64, without line breaks. *)
Definition b64_digit (c : ascii) : option Z :=
  let n := char_code c in
  if (65 <=? n) && (n <=? 90) then Some (n - 65)
  else if (97 <=? n) && (n <=? 122) then Some (n - 71)
  else if (48 <=? n) && (n <=? 57) then Some (n + 4)
  else if n =? 43 then Some 62 else if n =? 47 then Some 63 else None.
Fixpoint b64_bits (s : cstr) (acc : Z) (bits : nat) : option cstr :=
  match s with
  | [] => Some []
  | c :: s =>
      if Ascii.eqb c (chr "=") then if forallb (Ascii.eqb (chr "=")) s then Some [] else None
      else
        match b64_digit c with
        | None => None
        | Some d =>
            let acc := acc * 64 + d in
            if (bits + 6 <? 8)%nat then b64_bits s acc (bits + 6)
            else
              let bits := (bits + 6 - 8)%nat in
              let byte := ascii_of_nat (Z.to_nat (Z.shiftr acc (Z.of_nat bits))) in
              cons byte <$> b64_bits s (acc mod 2 ^ Z.of_nat bits) bits
        end
  end.
#[export] Instance sim_base64 : Base64.
Proof.
  refine {|
    base64_decode cap s :=
      if negb (length s mod 4 =? 0)%nat then None
      else match b64_bits s 0 0 with
           | Some b => if (length b <=? cap)%nat then Some b else None
           | None => None
           end |}.
  intros cap s b. destruct (negb _); [done|]. destruct (b64_bits s 0 0) as [x|]; [|done].
  destruct (Nat.leb_spec (length x) cap); [|done]. by intros [= <-].
Defined.

(** * Witnesses *)
Example query_get_spec_witness :
  http_query_get (Some (String.list_ascii_of_string "/api?slot=2&ip=10.0.0.1"))
    (Some (String.list_ascii_of_string "ip")) 16 =
  (0, Some (String.list_ascii_of_string "10.0.0.1")).
Proof. rewrite query_get_spec by lia. vm_compute. reflexivity. Defined.

Example parse_ipv4_exact_witness :
  http_parse_ipv4 (Some (show_ipv4 3232235781)) = (0, Some 3232235781).
Proof. exact (proj2 (parse_ipv4_exact [] 3232235781) ltac:(lia)). Defined.
