(* ===== verification/LogRing.v ===== *)
(** The retained log ring: [log_ring.c], a 4096-byte ring in memory that
    survives a reboot, with a checked header.

    Its specification is the history of bytes written since the last reset:
    the ring holds the tail of it, and a copy is the newest part of that tail. *)

From S2P Require Import Prelude.
#[local] Open Scope Z_scope.

Definition LOG_RING_MAGIC : Z := 1241988318. (* 0x4A07BCDE *)
Definition LOG_RING_SIZE : nat := Z.to_nat 4096.

Record log_ring := mk_log_ring {
  lr_magic : Z; lr_head : Z; lr_wrapped : Z; lr_check : Z; (* uint32_t *)
  lr_buf : list Z;                                          (* char[LOG_RING_SIZE] *)
}.
#[export] Instance eta_log_ring : Eta log_ring := fun r =>
  mk_log_ring (lr_magic r) (lr_head r) (lr_wrapped r) (lr_check r) (lr_buf r).

(** [~x] on uint32_t. *)
Definition not32 (x : Z) : Z := u32 (Z.lnot x).
Definition check_of (r : log_ring) : Z :=
  not32 (Z.lxor (Z.lxor (lr_magic r) (lr_head r)) (lr_wrapped r)).

Definition log_ring_reset (r : log_ring) : log_ring :=
  let r := r <| lr_magic := LOG_RING_MAGIC |> <| lr_head := 0 |> <| lr_wrapped := 0 |> in
  r <| lr_check := check_of r |>.

Definition log_ring_valid (r : log_ring) : bool :=
  (lr_magic r =? LOG_RING_MAGIC) && (lr_head r <? Z.of_nat LOG_RING_SIZE) &&
  (lr_wrapped r <=? 1) && (lr_check r =? check_of r).

(** [memcpy(&buf[at], data, n)]. *)
Definition write_at (at_ : nat) (data buf : list Z) : list Z :=
  take at_ buf ++ data ++ drop (at_ + length data) buf.

(** The copy loop: buffer, head and wrapped flag; [None] is out of fuel. *)
Fixpoint write_loop (fuel : nat) (data buf : list Z) (head : nat) (wrapped : Z)
  : option (list Z * nat * Z) :=
  match data with
  | [] => Some (buf, head, wrapped)
  | _ =>
      match fuel with
      | O => None
      | S fuel =>
          let n := Nat.min (LOG_RING_SIZE - head) (length data) in
          let buf := write_at head (take n data) buf in
          let head := (head + n)%nat in
          if (head =? LOG_RING_SIZE)%nat
          then write_loop fuel (drop n data) buf 0 1
          else write_loop fuel (drop n data) buf head wrapped
      end
  end.

Definition log_ring_write (r : log_ring) (data : list Z) : log_ring :=
  let data := if (LOG_RING_SIZE <? length data)%nat
              then drop (length data - LOG_RING_SIZE) data else data in
  match write_loop (S (length data)) data (lr_buf r) (Z.to_nat (lr_head r)) (lr_wrapped r) with
  | None => r
  | Some (buf, head, wrapped) =>
      let r := r <| lr_buf := buf |> <| lr_head := Z.of_nat head |> <| lr_wrapped := wrapped |> in
      r <| lr_check := check_of r |>
  end.

(** The bytes copied out; their count is the C function's result. *)
Definition log_ring_copy (r : log_ring) (cap : nat) : list Z :=
  if negb (log_ring_valid r) || (cap =? 0)%nat then []
  else
    let total := if negb (lr_wrapped r =? 0) then LOG_RING_SIZE else Z.to_nat (lr_head r) in
    let start := if negb (lr_wrapped r =? 0) then Z.to_nat (lr_head r) else 0%nat in
    let '(start, total) := if (cap <? total)%nat
                           then (((start + (total - cap)) mod LOG_RING_SIZE)%nat, cap)
                           else (start, total) in
    let first := Nat.min (LOG_RING_SIZE - start) total in
    take first (drop start (lr_buf r)) ++ take (total - first) (lr_buf r).

(** * Specification *)

(** The newest [n] bytes of a history. *)
Definition newest (n : nat) (h : list Z) : list Z := drop (length h - n) h.

(** What the ring holds, oldest byte first. *)
Definition contents (buf : list Z) (head : nat) (wrapped : Z) : list Z :=
  if wrapped =? 0 then take head buf else drop head buf ++ take head buf.

(** The ring after writing the history [h] since a reset. *)
Record holds (buf : list Z) (head : nat) (wrapped : Z) (h : list Z) : Prop := {
  ho_len : length buf = LOG_RING_SIZE;
  ho_head : (head < LOG_RING_SIZE)%nat;
  ho_flag : wrapped = 0 \/ wrapped = 1;
  ho_short : wrapped = 0 -> length h = head;
  ho_full : wrapped = 1 -> (LOG_RING_SIZE <= length h)%nat;
  ho_contents : contents buf head wrapped = newest LOG_RING_SIZE h;
}.
Definition ring_holds (r : log_ring) (h : list Z) : Prop :=
  log_ring_valid r = true /\ 0 <= lr_head r /\
  holds (lr_buf r) (Z.to_nat (lr_head r)) (lr_wrapped r) h.

(** * Lemmas *)
Lemma size_pos : (0 < LOG_RING_SIZE)%nat.
Proof. apply Nat.ltb_lt. vm_compute. reflexivity. Qed.
Lemma size_u32 : Z.of_nat LOG_RING_SIZE = 4096.
Proof. unfold LOG_RING_SIZE. by rewrite Z2Nat.id. Qed.
#[global] Opaque LOG_RING_SIZE.

Lemma newest_all n h : (length h <= n)%nat -> newest n h = h.
Proof. intros Hl. unfold newest. by replace (length h - n)%nat with 0%nat by lia. Qed.
Lemma length_newest n h : length (newest n h) = Nat.min n (length h).
Proof. unfold newest. rewrite length_drop. lia. Qed.
Lemma newest_newest n m h : (n <= m)%nat -> newest n (newest m h) = newest n h.
Proof.
  intros Hn. unfold newest. rewrite length_drop, drop_drop. f_equal. lia.
Qed.
Lemma newest_app n h d : newest n (h ++ d) = newest n (newest (n - length d) h ++ d).
Proof.
  unfold newest. rewrite !length_app, length_drop.
  destruct (le_lt_dec n (length d)) as [Hd|Hd].
  - replace (n - length d)%nat with 0%nat by lia. rewrite Nat.sub_0_r, drop_all. cbn.
    rewrite drop_app_ge by lia. f_equal. lia.
  - rewrite drop_app_le by lia.
    replace (length h - (length h - (n - length d)) + length d - n)%nat with 0%nat by lia.
    rewrite drop_0. f_equal. f_equal. lia.
Qed.

Lemma newest_app_newest n h d : newest n (h ++ d) = newest n (newest n h ++ d).
Proof. by rewrite newest_app, (newest_app n (newest n h)), newest_newest by lia. Qed.

Lemma length_write_at at_ d buf : (at_ + length d <= length buf)%nat ->
  length (write_at at_ d buf) = length buf.
Proof. intros Hl. unfold write_at. rewrite !length_app, length_take, length_drop. lia. Qed.

Lemma newest_tail n k h d : length h = n -> (k <= n)%nat -> length d = k ->
  newest n (h ++ d) = drop k h ++ d.
Proof.
  intros <- Hk <-. unfold newest. rewrite length_app.
  replace (length h + length d - length h)%nat with (length d) by lia.
  by rewrite drop_app_le by lia.
Qed.

(** One piece of a write: [d] fits between the head and the end. *)
Lemma holds_piece buf head wrapped h d :
  holds buf head wrapped h -> (0 < length d)%nat -> (head + length d <= LOG_RING_SIZE)%nat ->
  let head' := (head + length d)%nat in
  if (head' =? LOG_RING_SIZE)%nat then holds (write_at head d buf) 0 1 (h ++ d)
  else holds (write_at head d buf) head' wrapped (h ++ d).
Proof.
  intros [Hlen Hh Hf Hs Hfull Hc] Hd Hfit head'. pose proof size_pos as Hpos.
  assert (length (write_at head d buf) = LOG_RING_SIZE) as Hlen' by (by rewrite length_write_at, Hlen by lia).
  assert (take (head + length d) (write_at head d buf) = take head buf ++ d) as Htake.
  { unfold write_at. rewrite app_assoc, take_app_le, take_ge; [done|..];
      rewrite length_app, length_take; lia. }
  assert (drop (head + length d) (write_at head d buf) = drop (head + length d) buf) as Hdrop.
  { unfold write_at. rewrite app_assoc, drop_app_length'; [done|].
    rewrite length_app, length_take. lia. }
  assert (newest LOG_RING_SIZE (h ++ d) =
          if wrapped =? 0 then newest LOG_RING_SIZE (take head buf ++ d)
          else drop (head + length d) buf ++ take head buf ++ d) as Hnew.
  { destruct Hf as [-> | ->]; cbn [Z.eqb] in *; unfold contents in Hc; cbn in Hc.
    - rewrite Hc. rewrite (newest_all _ h); [done|]. rewrite Hs by done. lia.
    - rewrite newest_app_newest, <- Hc.
      rewrite (newest_tail _ (length d)) by (rewrite ?length_app, ?length_drop, ?length_take; lia).
      rewrite drop_app_le, drop_drop by (rewrite length_drop; lia). by rewrite <- app_assoc. }
  destruct (Nat.eqb_spec head' LOG_RING_SIZE) as [E|E].
  - split; try done; [by right|rewrite length_app|].
    + intros _. destruct Hf as [Hw|Hw]; [rewrite Hs by done; unfold head' in E; lia|].
      specialize (Hfull Hw). lia.
    + unfold contents. cbn [Z.eqb]. rewrite drop_0, take_0, app_nil_r. unfold head' in E.
      assert (write_at head d buf = take head buf ++ d) as ->.
      { rewrite <- Htake, E. by rewrite take_ge by lia. }
      rewrite Hnew. destruct (wrapped =? 0).
      * rewrite newest_all; [done|]. rewrite length_app, length_take. lia.
      * rewrite (drop_ge buf) by lia. done.
  - unfold head' in *. split; try done; [lia| | |].
    + intros Hw. rewrite length_app, Hs by done. done.
    + intros Hw. rewrite length_app. specialize (Hfull Hw). lia.
    + unfold contents. rewrite Htake, Hdrop, Hnew. destruct (wrapped =? 0); [|done].
      rewrite newest_all; [done|]. rewrite length_app, length_take. lia.
Qed.

Lemma write_loop_holds fuel d buf head wrapped h :
  holds buf head wrapped h -> (length d < fuel)%nat ->
  exists buf' head' wrapped', write_loop fuel d buf head wrapped = Some (buf', head', wrapped') /\
    holds buf' head' wrapped' (h ++ d).
Proof.
  revert d buf head wrapped h. induction fuel as [|fuel IH]; intros d buf head wrapped h Hh Hl; [lia|].
  destruct d as [|x d]; [rewrite app_nil_r; by eexists _, _, _|]. cbn [write_loop].
  set (dd := x :: d) in *. assert (0 < length dd)%nat as Hd by (cbn; lia).
  pose proof (ho_head _ _ _ _ Hh) as Hlt.
  set (n := Nat.min (LOG_RING_SIZE - head) (length dd)).
  assert (length (take n dd) = n) as Hn by (rewrite length_take; lia).
  pose proof (holds_piece buf head wrapped h (take n dd) Hh) as Hp. rewrite Hn in Hp.
  specialize (Hp ltac:(lia) ltac:(lia)). cbv zeta in Hp.
  assert (length (drop n dd) < fuel)%nat as Hl' by (rewrite length_drop; lia).
  assert (h ++ dd = (h ++ take n dd) ++ drop n dd) as -> by (by rewrite <- app_assoc, take_drop).
  destruct (head + n =? LOG_RING_SIZE)%nat; by apply IH.
Qed.

Lemma valid_intro r :
  lr_magic r = LOG_RING_MAGIC -> (lr_head r < Z.of_nat LOG_RING_SIZE) -> lr_wrapped r <= 1 ->
  lr_check r = check_of r -> log_ring_valid r = true.
Proof.
  intros H1 H2 H3 H4. unfold log_ring_valid. rewrite H1, H4, !Z.eqb_refl.
  destruct (Z.ltb_spec (lr_head r) (Z.of_nat LOG_RING_SIZE)); [|lia].
  by destruct (Z.leb_spec (lr_wrapped r) 1); [|lia].
Qed.
Lemma valid_magic r : log_ring_valid r = true -> lr_magic r = LOG_RING_MAGIC.
Proof. unfold log_ring_valid. intros Hv. by to_prop. Qed.

Lemma holds_newest buf head wrapped h h' :
  holds buf head wrapped h -> (LOG_RING_SIZE <= length h)%nat ->
  (LOG_RING_SIZE <= length h')%nat -> newest LOG_RING_SIZE h = newest LOG_RING_SIZE h' ->
  holds buf head wrapped h'.
Proof.
  intros [Hlen Hh Hf Hs Hfull Hc] Hl Hl' E. split; try done.
  - intros Hw. specialize (Hs Hw). lia.
  - by rewrite Hc.
Qed.

Lemma write_spec r h data : ring_holds r h -> ring_holds (log_ring_write r data) (h ++ data).
Proof.
  intros (Hv & H0 & Hh). unfold log_ring_write. pose proof size_pos as Hpos.
  pose proof (ho_head _ _ _ _ Hh) as Hhead.
  set (cut := if (LOG_RING_SIZE <? length data)%nat
              then drop (length data - LOG_RING_SIZE) data else data).
  destruct (write_loop_holds (S (length cut)) cut _ _ _ h Hh (Nat.lt_succ_diag_r _))
    as (buf & head & wrapped & -> & Hh').
  assert (holds buf head wrapped (h ++ data)) as Hh2.
  { unfold cut in Hh'. destruct (Nat.ltb_spec LOG_RING_SIZE (length data)); [|done].
    eapply holds_newest; [exact Hh'|rewrite length_app, length_drop; lia|rewrite length_app; lia|].
    unfold newest. rewrite !length_app, length_drop, !drop_app_ge by lia.
    rewrite drop_drop. f_equal. lia. }
  clear Hh'. cbn. destruct Hh2 as [Hlen Hhd Hf Hs Hfull Hc].
  split; [|split; [cbn; lia|cbn; rewrite Nat2Z.id; by split]].
  apply valid_intro; cbn; [by apply valid_magic|lia|lia|done].
Qed.

Lemma copy_contents buf head wrapped cap :
  length buf = LOG_RING_SIZE -> (head < LOG_RING_SIZE)%nat -> (0 < cap)%nat ->
  (let total := if negb (wrapped =? 0) then LOG_RING_SIZE else head in
   let start := if negb (wrapped =? 0) then head else 0%nat in
   let '(start, total) := if (cap <? total)%nat
                          then (((start + (total - cap)) mod LOG_RING_SIZE)%nat, cap)
                          else (start, total) in
   let first := Nat.min (LOG_RING_SIZE - start) total in
   take first (drop start buf) ++ take (total - first) buf) =
  newest cap (contents buf head wrapped).
Proof.
  intros Hlen Hhead Hcap. pose proof size_pos. cbv zeta. unfold contents.
  destruct (wrapped =? 0); cbn [negb].
  - destruct (Nat.ltb_spec cap head) as [Hc|Hc].
    + rewrite Nat.add_0_l, Nat.mod_small by lia.
      rewrite Nat.min_r, Nat.sub_diag, take_0, app_nil_r by lia.
      unfold newest. rewrite length_take, Nat.min_l by lia.
      rewrite take_drop_commute. f_equal. f_equal. lia.
    + rewrite newest_all by (rewrite length_take; lia).
      by rewrite Nat.min_r, Nat.sub_diag, take_0, app_nil_r, drop_0 by lia.
  - assert (length (drop head buf ++ take head buf) = LOG_RING_SIZE) as HlC
      by (rewrite length_app, length_drop, length_take; lia).
    destruct (Nat.ltb_spec cap LOG_RING_SIZE) as [Hc|Hc].
    + unfold newest. rewrite HlC. destruct (le_lt_dec cap head) as [Hle|Hgt].
      * assert ((head + (LOG_RING_SIZE - cap)) mod LOG_RING_SIZE = head - cap)%nat as ->.
        { replace (head + (LOG_RING_SIZE - cap))%nat with (head - cap + 1 * LOG_RING_SIZE)%nat by lia.
          rewrite Nat.Div0.mod_add, Nat.mod_small by lia. done. }
        rewrite Nat.min_r, Nat.sub_diag, take_0, app_nil_r by lia.
        rewrite drop_app_ge by (rewrite length_drop; lia). rewrite length_drop, Hlen.
        replace (LOG_RING_SIZE - cap - (LOG_RING_SIZE - head))%nat with (head - cap)%nat by lia.
        rewrite take_drop_commute. f_equal. f_equal. lia.
      * rewrite Nat.mod_small by lia.
        replace (Nat.min _ cap) with (cap - head)%nat by lia.
        rewrite (take_ge (drop _ buf)) by (rewrite length_drop; lia).
        rewrite drop_app_le by (rewrite length_drop; lia). rewrite drop_drop.
        f_equal; f_equal; lia.
    + rewrite newest_all by lia. rewrite Nat.min_l by lia.
      rewrite (take_ge (drop head buf)) by (rewrite length_drop; lia). f_equal. f_equal. lia.
Qed.

(** Successive writes from a reset. *)
Definition write_all (r : log_ring) (ws : list (list Z)) : log_ring := foldl log_ring_write r ws.

Lemma reset_holds r : length (lr_buf r) = LOG_RING_SIZE -> ring_holds (log_ring_reset r) [].
Proof.
  intros Hl. pose proof size_pos. split; [|split; [cbn; lia|]].
  - apply valid_intro; cbn; [done|lia|lia|done].
  - split; cbn; try done; lia || by left.
Qed.

Lemma write_all_holds ws r h : ring_holds r h -> ring_holds (write_all r ws) (h ++ concat ws).
Proof.
  revert r h. induction ws as [|w ws IH]; intros r h Hr; cbn; [by rewrite app_nil_r|].
  rewrite app_assoc. apply IH. by apply write_spec.
Qed.

Lemma copy_holds r h cap : ring_holds r h -> (0 < cap)%nat ->
  log_ring_copy r cap = newest (Nat.min cap LOG_RING_SIZE) h.
Proof.
  intros (Hv & H0 & Hh) Hcap.
  unfold log_ring_copy. rewrite Hv. destruct (Nat.eqb_spec cap 0); [lia|]. cbn [negb orb].
  etransitivity; [by apply (copy_contents (lr_buf r) (Z.to_nat (lr_head r)) (lr_wrapped r) cap);
    try apply Hh|].
  rewrite (ho_contents _ _ _ _ Hh).
  destruct (le_lt_dec cap LOG_RING_SIZE).
  - rewrite Nat.min_l by lia. by apply newest_newest.
  - rewrite Nat.min_r by lia. apply newest_all. rewrite length_newest. lia.
Qed.

(** * Properties *)

(** The ring is the tail of the log.  Whatever lines were written since a
    reset, in whatever pieces (longer than the ring included), the header is
    valid, every write loop ran to its end, and a copy of capacity [cap] is
    exactly the newest [cap] bytes (at most 4096) of everything written, in order. *)
Theorem copy_is_newest r ws cap :
  length (lr_buf r) = LOG_RING_SIZE -> (0 < cap)%nat ->
  let ring := write_all (log_ring_reset r) ws in
  log_ring_valid ring = true /\
  log_ring_copy ring cap = newest (Nat.min cap LOG_RING_SIZE) (concat ws).
Proof.
  intros Hl Hcap ring. pose proof (write_all_holds ws _ _ (reset_holds r Hl)) as Hr.
  split; [apply Hr|by apply copy_holds].
Qed.

(** Power-on garbage reads as empty: a header with a wrong magic, a head or flag
    out of range, or a checksum that does not match gives an empty copy, and a valid
    header whose head, checksum or magic word alone changed in memory is invalid. *)
Theorem torn_header_is_empty r r' cap :
  log_ring_valid r = true -> 0 <= lr_head r' < 2 ^ 32 -> 0 <= lr_head r < 2 ^ 32 ->
  (log_ring_valid r' = false -> log_ring_copy r' cap = []) /\
  (r' = r <| lr_head := lr_head r' |> -> lr_head r' <> lr_head r -> log_ring_valid r' = false) /\
  (r' = r <| lr_check := lr_check r' |> -> lr_check r' <> lr_check r -> log_ring_valid r' = false) /\
  (r' = r <| lr_magic := lr_magic r' |> -> lr_magic r' <> lr_magic r -> log_ring_valid r' = false).
Proof.
  intros Hv Hr' Hr. split; [by unfold log_ring_copy; intros ->|].
  unfold log_ring_valid in Hv. to_prop.
  split; [|split]; intros E Hne; apply not_true_iff_false; intros Hv'; unfold log_ring_valid in Hv'; to_prop.
  - apply Hne. match goal with H : lr_check r' = _ |- _ => rename H into Hc' end.
    match goal with H : lr_check r = _ |- _ => rename H into Hc end.
    assert (lr_check r' = lr_check r) as Heq by (rewrite E; done). rewrite Hc, Hc' in Heq.
    unfold check_of in Heq.
    assert (lr_magic r' = lr_magic r /\ lr_wrapped r' = lr_wrapped r) as [Em Ew] by (rewrite E; done).
    rewrite Em, Ew in Heq.
    assert (forall x, not32 x = 2 ^ 32 - 1 - u32 x) as Hn.
    { intros x. unfold not32, u32, Z.lnot. Z.to_euclidean_division_equations. lia. }
    rewrite !Hn in Heq. assert (forall a b, u32 (Z.lxor a b) = Z.lxor (u32 a) (u32 b)) as Hx.
    { intros a b. unfold u32. apply Z.bits_inj'. intros i Hi. rewrite Z.lxor_spec.
      destruct (Z.ltb_spec i 32); [rewrite !Z.mod_pow2_bits_low by lia; apply Z.lxor_spec|].
      by rewrite !Z.mod_pow2_bits_high by lia. }
    rewrite !Hx, (u32_small (lr_head r)), (u32_small (lr_head r')) in Heq by done.
    assert (Z.lxor (Z.lxor (u32 (lr_magic r)) (lr_head r')) (u32 (lr_wrapped r)) =
            Z.lxor (Z.lxor (u32 (lr_magic r)) (lr_head r)) (u32 (lr_wrapped r))) as Hxx by lia.
    apply (f_equal (fun z => Z.lxor (u32 (lr_magic r)) (Z.lxor z (u32 (lr_wrapped r))))) in Hxx.
    by rewrite !Z.lxor_assoc, !Z.lxor_nilpotent, !Z.lxor_0_r, <- !Z.lxor_assoc,
      !Z.lxor_nilpotent, !Z.lxor_0_l in Hxx.
  - apply Hne. assert (check_of r' = check_of r) as Heq by (rewrite E; done). congruence.
  - congruence.
Qed.

(** * Witnesses *)
Definition demo_ring : log_ring := mk_log_ring 0 0 0 0 (replicate LOG_RING_SIZE 0).

Example copy_is_newest_witness :
  log_ring_copy (write_all (log_ring_reset demo_ring) [[1; 2; 3]; [4; 5]]) 4 = [2; 3; 4; 5].
Proof.
  assert (length (lr_buf demo_ring) = LOG_RING_SIZE) as Hl by (apply length_replicate).
  rewrite (proj2 (copy_is_newest demo_ring [[1; 2; 3]; [4; 5]] 4 Hl ltac:(lia))).
  rewrite Nat.min_l; [reflexivity|]. pose proof size_u32. lia.
Defined.

Example torn_header_is_empty_witness :
  log_ring_valid ((log_ring_reset demo_ring) <| lr_head := 7 |>) = false.
Proof.
  set (r := log_ring_reset demo_ring).
  assert (log_ring_valid r = true) as Hv
    by (apply valid_intro; cbn; pose proof size_u32; (reflexivity || lia)).
  refine (proj1 (proj2 (torn_header_is_empty r (r <| lr_head := 7 |>) 4 Hv _ _)) _ _); cbn;
    lia || reflexivity.
Defined.
