(* ===== verification/Uplink.v ===== *)
(** The uplink: [uplink.c], which of the interfaces carries the traffic now.

    Zephyr's network interfaces are the class [NetIf]; the two statics are a
    record.  The builds without Zephyr's own IP stack (native_sim) report the
    host. *)

From S2P Require Import Prelude Platform.
#[local] Open Scope Z_scope.

(** Zephyr's net_if calls.  [net_if_foreach] visits [net_if_list] in order; an
    address is its four bytes in network order. *)
Class NetIf `{Os} := {
  net_if : Type;
  net_if_list : os -> list net_if;
  net_if_is_wifi : net_if -> os -> bool;
  net_if_l2_ethernet : net_if -> os -> bool;
  net_if_is_up : net_if -> os -> bool;
  net_if_ipv4_get_global_addr : net_if -> os -> option (list Z);
  net_dhcpv4_start : net_if -> os -> os;
}.

Inductive uplink_kind := UPLINK_NONE | UPLINK_ETHERNET | UPLINK_WIFI | UPLINK_HOST.
#[export] Instance uplink_kind_eq_dec : EqDecision uplink_kind.
Proof. solve_decision. Defined.
Record uplink_status := mk_uplink { up_kind : uplink_kind; up_ipv4 : Z }.

Definition uplink_kind_str (kind : uplink_kind) : string :=
  match kind with
  | UPLINK_ETHERNET => "eth" | UPLINK_WIFI => "wifi" | UPLINK_HOST => "host" | UPLINK_NONE => "none"
  end.

(** [sys_be32_to_cpu] of an address. *)
Definition be32 (b : list Z) : Z := foldl (fun v x => v * 256 + x) 0 (take 4 b).

Section Uplink.
Context `{NetIf}.

Record uplinks := mk_uplinks { eth_iface : option net_if; wifi_iface : option net_if }.
#[export] Instance eta_uplinks : Eta uplinks := fun u => mk_uplinks (eth_iface u) (wifi_iface u).

(** CONFIG_WIFI and CONFIG_NET_DHCPV4. *)
Variables config_wifi config_dhcpv4 : bool.

Definition is_wifi (iface : net_if) (w : os) : bool :=
  if config_wifi then net_if_is_wifi iface w else false.

Definition classify (uw : uplinks * os) (iface : net_if) : uplinks * os :=
  let '(u, w) := uw in
  let dhcp w := if config_dhcpv4 then net_dhcpv4_start iface w else w in
  if is_wifi iface w
  then (match wifi_iface u with None => u <| wifi_iface := Some iface |> | Some _ => u end, dhcp w)
  else if net_if_l2_ethernet iface w
  then (match eth_iface u with None => u <| eth_iface := Some iface |> | Some _ => u end, dhcp w)
  else (u, w).

Definition uplink_init (u : uplinks) (w : os) : Z * uplinks * os :=
  let '(u, w) := foldl classify (u, w) (net_if_list w) in
  (match eth_iface u, wifi_iface u with None, None => - ENODEV | _, _ => 0 end, u, w).

Definition iface_ipv4 (iface : option net_if) (w : os) : Z :=
  match iface with
  | None => 0
  | Some iface =>
      if negb (net_if_is_up iface w) then 0
      else match net_if_ipv4_get_global_addr iface w with Some addr => be32 addr | None => 0 end
  end.

Definition uplink_ethernet_ready (u : uplinks) (w : os) : bool :=
  negb (iface_ipv4 (eth_iface u) w =? 0).

Definition uplink_status_get (u : uplinks) (w : os) : uplink_status :=
  let ip := iface_ipv4 (eth_iface u) w in
  if negb (ip =? 0) then mk_uplink UPLINK_ETHERNET ip
  else
    let ip := iface_ipv4 (wifi_iface u) w in
    if negb (ip =? 0) then mk_uplink UPLINK_WIFI ip else mk_uplink UPLINK_NONE 0.
End Uplink.

(** The builds without CONFIG_NET_NATIVE. *)
Definition host_status : uplink_status := mk_uplink UPLINK_HOST 2130706433. (* 0x7F000001 *)

(** * Lemmas *)
Lemma be32_range b : Forall (fun x => 0 <= x < 256) b -> (length b <= 4)%nat -> 0 <= be32 b < 2 ^ 32.
Proof.
  intros Hb Hl. unfold be32. rewrite take_ge by done.
  assert (forall l v, Forall (fun x => 0 <= x < 256) l -> 0 <= v ->
    0 <= foldl (fun v x => v * 256 + x) v l < (v + 1) * 256 ^ Z.of_nat (length l)) as Hf.
  { intros l. induction l as [|x l IH]; intros v Hx Hv; cbn [foldl length]; [lia|].
    inversion_clear Hx as [|? ? Hx1 Hx2]. specialize (IH (v * 256 + x) Hx2 ltac:(lia)).
    rewrite Nat2Z.inj_succ, Z.pow_succ_r by lia.
    assert (0 < 256 ^ Z.of_nat (length l)) by (apply Z.pow_pos_nonneg; lia). nia. }
  specialize (Hf b 0 Hb ltac:(lia)).
  assert (256 ^ Z.of_nat (length b) <= 256 ^ 4) by (apply Z.pow_le_mono_r; lia). lia.
Qed.

(** Ethernet wins; WiFi carries the traffic only while Ethernet has no address. *)
Lemma status_prefers_ethernet `{NetIf} u w :
  (uplink_ethernet_ready u w = true <-> up_kind (uplink_status_get u w) = UPLINK_ETHERNET) /\
  (up_kind (uplink_status_get u w) = UPLINK_NONE <->
     iface_ipv4 (eth_iface u) w = 0 /\ iface_ipv4 (wifi_iface u) w = 0) /\
  (up_kind (uplink_status_get u w) = UPLINK_NONE <-> up_ipv4 (uplink_status_get u w) = 0).
Proof.
  unfold uplink_ethernet_ready, uplink_status_get.
  destruct (Z.eqb_spec (iface_ipv4 (eth_iface u) w) 0) as [E|E],
    (Z.eqb_spec (iface_ipv4 (wifi_iface u) w) 0) as [E'|E']; cbn; intuition congruence.
Qed.

(** * A concrete instance, for the witnesses *)
From S2P Require Import Instances.

(** A network interface is named by its address, 0 for none. *)
#[export] Instance sim_netif : NetIf := {|
  net_if := Z;
  net_if_list _ := [3232235781];
  net_if_is_wifi _ _ := false;
  net_if_l2_ethernet _ _ := true;
  net_if_is_up _ _ := true;
  net_if_ipv4_get_global_addr a _ :=
    Some (map (fun n => Z.land (Z.shiftr a n) 255) [24; 16; 8; 0]);
  net_dhcpv4_start _ w := w;
|}.
