(* ===== verification/Wifi.v ===== *)
(** The WiFi supervisor: [wifi.c], a polled state machine that joins the stored
    networks in turn while Ethernet is down.

    Zephyr's WiFi manager is the class [WifiMgmt]; the requests the supervisor
    makes of it are logged next to the machine.  The work queue runs [supervise]
    every three seconds and at once on a reload. *)

From Stdlib Require Import Ascii.
From S2P Require Import Prelude Platform AppSettings HttpUtil Uplink.
#[local] Open Scope Z_scope.

Definition CONNECT_TIMEOUT_MS : Z := 20000.

(** The characters of a char array before its NUL. *)
Fixpoint c_chars (b : list Z) : cstr :=
  match b with
  | [] => []
  | x :: b => if x =? 0 then [] else ascii_of_nat (Z.to_nat x) :: c_chars b
  end.

(** What varies of [wifi_connect_req_params]; the lengths are the strings'. *)
Record connect_req := mk_connect { cr_ssid : cstr; cr_psk : cstr; cr_secured : bool }.
Inductive wifi_request := WIFI_CONNECT (p : connect_req) | WIFI_DISCONNECT.

Class WifiMgmt `{Os} := {
  (* NET_REQUEST_WIFI_IFACE_STATUS: the result, and whether the state is COMPLETED *)
  wifi_iface_status : os -> (Z * bool) * os;
  wifi_request_do : wifi_request -> os -> Z * os;
}.

(** The statics; the first two are atomics other threads read and set. *)
Record wifi_sup := mk_sup {
  active_idx : Z;
  reload : bool;
  trying : Z;       (* network of the attempt in flight *)
  attempt_ms : Z;
  next_idx : Z;
}.
#[export] Instance eta_sup : Eta wifi_sup := fun s =>
  mk_sup (active_idx s) (reload s) (trying s) (attempt_ms s) (next_idx s).
Definition sup_zero : wifi_sup := mk_sup (-1) false (-1) 0 0.

Section Wifi.
Context `{!Os} `{!NetIf} `{!WifiMgmt}.

Record air := mk_air { a_os : os; requests : list wifi_request }.
#[export] Instance eta_air : Eta air := fun a => mk_air (a_os a) (requests a).

(** [net_mgmt] of a request. *)
Definition net_mgmt (q : wifi_request) (a : air) : Z * air :=
  let '(r, w) := wifi_request_do q (a_os a) in (r, mk_air w (requests a ++ [q])).

Definition connected (a : air) : bool * air :=
  let '((r, completed), w) := wifi_iface_status (a_os a) in
  ((if negb (r =? 0) then false else completed), a <| a_os := w |>).

Definition disconnect (s : wifi_sup) (a : air) : wifi_sup * air :=
  let '(_, a) := net_mgmt WIFI_DISCONNECT a in
  (s <| active_idx := -1 |> <| trying := -1 |>, a).

Definition join_of (net : pstop_wifi_net) : connect_req :=
  let psk := c_chars (pass net) in
  mk_connect (c_chars (ssid net)) psk (0 <? u8 (Z.of_nat (length psk))).

(** The loop over [n]. *)
Fixpoint try_from (st : app_settings) (ns : list nat) (s : wifi_sup) (a : air) : wifi_sup * air :=
  match ns with
  | [] => (s, a)
  | n :: ns =>
      let idx := (next_idx s + Z.of_nat n) mod Z.of_nat PSTOP_WIFI_MAX in
      match app_settings_wifi_get st idx with
      | (0, Some net) =>
          if nth 0 (ssid net) 0 =? 0 then try_from st ns s a
          else
            let s := s <| next_idx := (idx + 1) mod Z.of_nat PSTOP_WIFI_MAX |> <| trying := idx |> in
            let '(t, w) := k_uptime_get (a_os a) in
            let s := s <| attempt_ms := t |> in
            let '(r, a) := net_mgmt (WIFI_CONNECT (join_of net)) (a <| a_os := w |>) in
            (if negb (r =? 0) then s <| trying := -1 |> else s, a)
      | _ => try_from st ns s a
      end
  end.
Definition try_next (st : app_settings) (s : wifi_sup) (a : air) : wifi_sup * air :=
  try_from st (seq 0 PSTOP_WIFI_MAX) s a.

(** [(trying < 0) || ((k_uptime_get() - attempt_ms) > CONNECT_TIMEOUT_MS)]: the
    clock is read only when an attempt is in flight. *)
Definition expired (s : wifi_sup) (a : air) : bool * air :=
  if trying s <? 0 then (true, a)
  else let '(t, w) := k_uptime_get (a_os a) in
       (CONNECT_TIMEOUT_MS <? t - attempt_ms s, a <| a_os := w |>).

Definition supervise (u : uplinks) (st : app_settings) (s : wifi_sup) (a : air) : wifi_sup * air :=
  let '(s, a) :=
    if reload s then
      let '(s, a) := disconnect (s <| reload := false |>) a in (s <| next_idx := 0 |>, a)
    else (s, a) in
  if uplink_ethernet_ready u (a_os a) then
    if (0 <=? active_idx s) || (0 <=? trying s) then
      let '(s, a) := disconnect s a in (s <| next_idx := 0 |>, a)
    else (s, a)
  else
    let '(up, a) := connected a in
    if up then
      (if (0 <=? trying s) && negb (active_idx s =? trying s)
       then s <| active_idx := trying s |> else s, a)
    else
      let s := if 0 <=? active_idx s then s <| active_idx := -1 |> <| trying := -1 |> else s in
      let '(late, a) := expired s a in
      if late then
        let '(s, a) :=
          if 0 <=? trying s then
            let '(_, a) := net_mgmt WIFI_DISCONNECT a in (s <| trying := -1 |>, a)
          else (s, a) in
        try_next st s a
      else (s, a).
End Wifi.

(** [pstop_wifi_reload]; the work item it also kicks is the next [supervise]. *)
Definition wifi_reload (s : wifi_sup) : wifi_sup := s <| reload := true |>.

(** * Specification *)

(** The network joined is the one attempted; the indices are in range. *)
Record sup_wf (s : wifi_sup) : Prop := {
  sw_active : active_idx s = -1 \/ active_idx s = trying s;
  sw_trying : -1 <= trying s < Z.of_nat PSTOP_WIFI_MAX;
  sw_next : 0 <= next_idx s < Z.of_nat PSTOP_WIFI_MAX;
}.

Definition usable (st : app_settings) (i : nat) : bool :=
  match wifi st !! i with Some n => negb (nth 0 (ssid n) 0 =? 0) | None => false end.
(** The first usable network from [next], round the list. *)
Fixpoint pick_from (f : nat -> bool) (ns : list nat) (next : nat) : option nat :=
  match ns with
  | [] => None
  | n :: ns => let i := ((next + n) mod PSTOP_WIFI_MAX)%nat in
               if f i then Some i else pick_from f ns next
  end.
Definition pick (f : nat -> bool) (next : nat) : option nat := pick_from f (seq 0 PSTOP_WIFI_MAX) next.

(** * Lemmas *)
(** Four picks in a row reach every usable network. *)
Fixpoint picks (f : nat -> bool) (k : nat) (next : nat) : list nat :=
  match k with
  | O => []
  | S k => match pick f next with
           | Some i => i :: picks f k ((i + 1) mod PSTOP_WIFI_MAX)%nat
           | None => []
           end
  end.
Lemma pick_ext f g next : (forall i, (i < PSTOP_WIFI_MAX)%nat -> f i = g i) -> pick f next = pick g next.
Proof.
  intros Hfg. unfold pick. generalize (seq 0 PSTOP_WIFI_MAX) as ns.
  induction ns as [|n ns IH]; [done|]. cbn [pick_from]. rewrite IH, Hfg; [done|].
  apply Nat.mod_upper_bound. done.
Qed.
Lemma picks_ext f g k next : (forall i, (i < PSTOP_WIFI_MAX)%nat -> f i = g i) -> picks f k next = picks g k next.
Proof.
  intros Hfg. revert next. induction k as [|k IH]; intros next; [done|]. cbn [picks].
  rewrite (pick_ext f g) by done. by destruct (pick g next); [rewrite IH|].
Qed.
Lemma picks_fair f next i : (next < PSTOP_WIFI_MAX)%nat -> (i < PSTOP_WIFI_MAX)%nat -> f i = true ->
  i ∈ picks f PSTOP_WIFI_MAX next.
Proof.
  intros Hn Hi Hf.
  set (g := fun j => match j with 0 => f 0 | 1 => f 1 | 2 => f 2 | _ => f 3 end%nat).
  rewrite (picks_ext f g) by (intros [|[|[|[|j]]]] Hj; done || (unfold PSTOP_WIFI_MAX in Hj; lia)).
  assert (g i = true) as Hg by (destruct i as [|[|[|[|i]]]]; done || (unfold PSTOP_WIFI_MAX in Hi; lia)).
  revert Hg. unfold g. clear Hf g.
  generalize (f 0%nat) (f 1%nat) (f 2%nat) (f 3%nat). intros b0 b1 b2 b3.
  destruct next as [|[|[|[|]]]]; try (unfold PSTOP_WIFI_MAX in Hn; lia);
    destruct i as [|[|[|[|]]]]; try (unfold PSTOP_WIFI_MAX in Hi; lia);
    cbv beta iota; intros ->; apply (bool_decide_unpack _);
    repeat match goal with b : bool |- _ => destruct b end; vm_compute; exact I.
Qed.

Lemma pick_some f next k : (next < PSTOP_WIFI_MAX)%nat -> (k < PSTOP_WIFI_MAX)%nat -> f k = true ->
  pick f next <> None.
Proof.
  intros Hn Hk Hf Hnone. pose proof (picks_fair f next k Hn Hk Hf) as Hin.
  change PSTOP_WIFI_MAX with (S 3) in Hin. cbn [picks] in Hin. rewrite Hnone in Hin.
  by apply not_elem_of_nil in Hin.
Qed.
Lemma pick_usable f next i : pick f next = Some i -> exists k, f k = true /\ (k < PSTOP_WIFI_MAX)%nat.
Proof.
  unfold pick. generalize (seq 0 PSTOP_WIFI_MAX) as ns.
  induction ns as [|n ns IH]; [done|]. cbn [pick_from].
  destruct (f _) eqn:E; [|exact IH]. intros _. eexists. split; [exact E|]. by apply Nat.mod_upper_bound.
Qed.

Section WifiLemmas.
Context `{!Os} `{!NetIf} `{!WifiMgmt}.

Lemma usable_get st idx : length (wifi st) = PSTOP_WIFI_MAX -> (idx < PSTOP_WIFI_MAX)%nat ->
  app_settings_wifi_get st (Z.of_nat idx) = (0, Some (wifi st !!! idx)) /\
  usable st idx = negb (nth 0 (ssid (wifi st !!! idx)) 0 =? 0).
Proof.
  intros Hl Hi. unfold app_settings_wifi_get, usable.
  destruct (Z.ltb_spec (Z.of_nat idx) 0); [lia|].
  destruct (Z.leb_spec (Z.of_nat PSTOP_WIFI_MAX) (Z.of_nat idx)); [lia|]. rewrite Nat2Z.id.
  split; [done|]. by rewrite list_lookup_lookup_total_lt by lia.
Qed.

(** What a search does: it asks to join the first usable network from [next_idx],
    and moves past it. *)
Definition sought (st : app_settings) (s s' : wifi_sup) (a a' : air) (i : nat) : Prop :=
  requests a' = requests a ++ [WIFI_CONNECT (join_of (wifi st !!! i))] /\
  next_idx s' = Z.of_nat ((i + 1) mod PSTOP_WIFI_MAX) /\
  (trying s' = Z.of_nat i \/ trying s' = -1) /\ (i < PSTOP_WIFI_MAX)%nat /\
  active_idx s' = active_idx s /\ reload s' = reload s.

Lemma try_next_spec st s a nx : length (wifi st) = PSTOP_WIFI_MAX -> next_idx s = Z.of_nat nx ->
  let '(s', a') := try_next st s a in
  match pick (usable st) nx with
  | None => s' = s /\ a' = a
  | Some i => sought st s s' a a' i
  end.
Proof.
  intros Hl Hnx. unfold try_next, pick. generalize (seq 0 PSTOP_WIFI_MAX) as ns.
  induction ns as [|n ns IH]; [done|]. cbn [try_from pick_from]. rewrite Hnx.
  replace ((Z.of_nat nx + Z.of_nat n) mod Z.of_nat PSTOP_WIFI_MAX)
    with (Z.of_nat ((nx + n) mod PSTOP_WIFI_MAX)) by (rewrite Nat2Z.inj_mod; lia).
  set (i := ((nx + n) mod PSTOP_WIFI_MAX)%nat).
  assert (i < PSTOP_WIFI_MAX)%nat as Hi by (by apply Nat.mod_upper_bound).
  destruct (usable_get st i Hl Hi) as [-> ->].
  destruct (nth 0 (ssid (wifi st !!! i)) 0 =? 0); cbn [negb]; [exact IH|].
  destruct (k_uptime_get (a_os a)) as [t w]. unfold net_mgmt.
  destruct (wifi_request_do _ _) as [r w']. unfold sought.
  replace (Z.of_nat ((i + 1) mod PSTOP_WIFI_MAX)) with ((Z.of_nat i + 1) mod Z.of_nat PSTOP_WIFI_MAX)
    by (rewrite Nat2Z.inj_mod; f_equal; lia).
  destruct (negb (r =? 0)); cbn; split_and!; auto.
Qed.

Lemma sought_wf st s s' a a' i : active_idx s = -1 -> sought st s s' a a' i -> sup_wf s'.
Proof.
  intros Ha (_ & Hn & Ht & Hi & Hact & _).
  assert (((i + 1) mod PSTOP_WIFI_MAX < PSTOP_WIFI_MAX)%nat) by (by apply Nat.mod_upper_bound).
  split; [left; congruence| |lia]. destruct Ht as [->| ->]; lia.
Qed.

(** Off the network, with nothing in flight or the attempt expired. *)
Definition off (u : uplinks) (s : wifi_sup) (a : air) : Prop :=
  reload s = false /\ uplink_ethernet_ready u (a_os a) = false /\ (connected a).1 = false /\
  (0 <= active_idx s \/ (expired s (connected a).2).1 = true).

Lemma expired_log s a : requests (expired s a).2 = requests a.
Proof. unfold expired. destruct (trying s <? 0); [done|]. by destruct (k_uptime_get (a_os a)). Qed.
Lemma connected_log a : requests (connected a).2 = requests a.
Proof. unfold connected. by destruct (wifi_iface_status (a_os a)) as [[r c] w]. Qed.

(** A pass in that state asks for the next usable network. *)
Lemma supervise_off u st s a nx : length (wifi st) = PSTOP_WIFI_MAX -> sup_wf s ->
  next_idx s = Z.of_nat nx -> off u s a ->
  let '(s', a') := supervise u st s a in
  sup_wf s' /\
  match pick (usable st) nx with
  | None => next_idx s' = next_idx s
  | Some i => next_idx s' = Z.of_nat ((i + 1) mod PSTOP_WIFI_MAX) /\
      exists pre, requests a' = pre ++ [WIFI_CONNECT (join_of (wifi st !!! i))] /\
        exists post, pre = requests a ++ post
  end.
Proof.
  intros Hl Hwf Hnx (Hr & Heth & Hup & Hexp). unfold supervise. rewrite Hr, Heth.
  pose proof (connected_log a) as Hlog. destruct (connected a) as [up a1]. cbn [fst snd] in *. subst up.
  set (s1 := if 0 <=? active_idx s then s <| active_idx := -1 |> <| trying := -1 |> else s).
  assert (next_idx s1 = Z.of_nat nx /\ active_idx s1 = -1 /\ -1 <= trying s1 < Z.of_nat PSTOP_WIFI_MAX /\
    (expired s1 a1).1 = true) as (Hn1 & Ha1 & Ht1 & He1).
  { unfold s1. destruct Hwf. destruct (Z.leb_spec 0 (active_idx s)); [cbn; split_and!; (done || lia)|].
    split_and!; try done; try lia. destruct Hexp as [?|Hexp]; [lia|done]. }
  clearbody s1. pose proof (expired_log s1 a1) as Hlog2.
  destruct (expired s1 a1) as [late a2]. cbn [fst snd] in *. subst late.
  assert (exists s2 a3, (if 0 <=? trying s1
      then let '(_, a) := net_mgmt WIFI_DISCONNECT a2 in (s1 <| trying := -1 |>, a) else (s1, a2)) = (s2, a3) /\
    next_idx s2 = Z.of_nat nx /\ active_idx s2 = -1 /\ trying s2 = -1 /\
    exists post, requests a3 = requests a ++ post) as (s2 & a3 & -> & Hn2 & Ha2 & Ht2 & post & Hp).
  { rewrite <- Hlog, <- Hlog2. destruct (Z.leb_spec 0 (trying s1)).
    - unfold net_mgmt. destruct (wifi_request_do WIFI_DISCONNECT (a_os a2)) as [r w]. eexists _, _.
      split; [done|]. cbn. split_and!; try done. by eexists.
    - exists s1, a2. split_and!; try done; try lia. exists []. by rewrite app_nil_r. }
  pose proof (try_next_spec st s2 a3 nx Hl Hn2) as Ht.
  destruct (try_next st s2 a3) as [s' a']. destruct (pick (usable st) nx) as [i|].
  - split; [by eapply sought_wf|]. destruct Ht as (Hreq & Hnext & _). split; [done|].
    exists (requests a3). split; [done|]. by exists post.
  - destruct Ht as [-> _]. split; [|congruence]. destruct Hwf. split; [by left|lia|].
    rewrite Hn2, <- Hnx. done.
Qed.

(** A pass keeps the state well formed and consumes the reload request. *)
Lemma supervise_wf u st s a : length (wifi st) = PSTOP_WIFI_MAX -> sup_wf s ->
  let '(s', a') := supervise u st s a in sup_wf s' /\ reload s' = false.
Proof.
  intros Hl Hwf. unfold supervise.
  assert (forall x, sup_wf x -> sup_wf (x <| active_idx := -1 |> <| trying := -1 |> <| next_idx := 0 |>)) as Hoff.
  { intros x []. split; cbn; [by left|lia|lia]. }
  assert (exists s1 a1, (if reload s
      then let '(s, a) := disconnect (s <| reload := false |>) a in (s <| next_idx := 0 |>, a)
      else (s, a)) = (s1, a1) /\ sup_wf s1 /\ reload s1 = false) as (s1 & a1 & -> & Hwf1 & Hr1).
  { destruct (reload s) eqn:Hr; [|by exists s, a]. unfold disconnect.
    destruct (net_mgmt WIFI_DISCONNECT a) as [r a1]. eexists _, a1. split; [done|]. split; [|done].
    apply (Hoff (s <| reload := false |>)). by destruct Hwf. }
  clear Hwf. destruct (uplink_ethernet_ready u (a_os a1)).
  { destruct ((0 <=? active_idx s1) || (0 <=? trying s1)); [|done]. unfold disconnect.
    destruct (net_mgmt WIFI_DISCONNECT a1) as [r a2]. split; [by apply Hoff|done]. }
  destruct (connected a1) as [[] a2].
  { destruct ((0 <=? trying s1) && _) eqn:E; [|done]. apply andb_true_iff in E as [E _].
    split; [|done]. destruct Hwf1. split; cbn; [by right|lia|lia]. }
  set (s2 := if 0 <=? active_idx s1 then s1 <| active_idx := -1 |> <| trying := -1 |> else s1).
  assert (sup_wf s2 /\ reload s2 = false /\ active_idx s2 = -1) as (Hwf2 & Hr2 & Ha2).
  { unfold s2. destruct Hwf1. destruct (Z.leb_spec 0 (active_idx s1)); [|split_and!; try done; lia].
    split_and!; [split; cbn; (by left) || lia|done|done]. }
  clearbody s2. destruct (expired s2 a2) as [[] a3]; [|done].
  assert (exists s4 a4, (if 0 <=? trying s2
      then let '(_, a) := net_mgmt WIFI_DISCONNECT a3 in (s2 <| trying := -1 |>, a) else (s2, a3)) = (s4, a4) /\
    sup_wf s4 /\ reload s4 = false /\ active_idx s4 = -1) as (s4 & a4 & -> & Hwf4 & Hr4 & Ha4).
  { destruct (0 <=? trying s2); [|by exists s2, a3].
    destruct (net_mgmt WIFI_DISCONNECT a3) as [r a4]. eexists _, a4. split; [done|].
    split_and!; try done. destruct Hwf2. split; cbn; [by left|lia|lia]. }
  destruct Hwf4 as [Hw1 Hw2 Hw3].
  pose proof (try_next_spec st s4 a4 (Z.to_nat (next_idx s4)) Hl ltac:(lia)) as Ht.
  destruct (try_next st s4 a4) as [s' a']. destruct (pick _ _) as [i|].
  - split; [by eapply sought_wf|]. by destruct Ht as (_ & _ & _ & _ & _ & ->).
  - by destruct Ht as [-> _].
Qed.

(** *** Runs of passes, with the world moving on in between *)
Definition one_pass (u : uplinks) (st : app_settings) (sa : wifi_sup * air) (env : os -> os) : wifi_sup * air :=
  supervise u st sa.1 (sa.2 <| a_os ::= env |>).
Definition passes (u : uplinks) (st : app_settings) (sa : wifi_sup * air) (envs : list (os -> os)) :=
  foldl (one_pass u st) sa envs.
(** Every pass finds the device off the network. *)
Fixpoint stays_off (u : uplinks) (st : app_settings) (sa : wifi_sup * air) (envs : list (os -> os)) : Prop :=
  match envs with
  | [] => True
  | env :: envs => off u sa.1 (sa.2 <| a_os ::= env |>) /\ stays_off u st (one_pass u st sa env) envs
  end.

Lemma passes_off u st envs sa nx : length (wifi st) = PSTOP_WIFI_MAX -> sup_wf sa.1 ->
  next_idx sa.1 = Z.of_nat nx -> stays_off u st sa envs ->
  forall i, (i ∈ picks (usable st) (length envs) nx \/ WIFI_CONNECT (join_of (wifi st !!! i)) ∈ requests sa.2) ->
    pick (usable st) nx <> None ->
    WIFI_CONNECT (join_of (wifi st !!! i)) ∈ requests (passes u st sa envs).2.
Proof.
  intros Hl. revert sa nx. induction envs as [|env envs IH]; intros sa nx Hwf Hnx Hoff i Hi Hsome.
  - destruct Hi as [Hi|Hi]; [by apply not_elem_of_nil in Hi|done].
  - destruct Hoff as [Hoff Hrest]. cbn [passes foldl]. cbn [length picks] in Hi.
    pose proof (supervise_off u st sa.1 _ nx Hl Hwf Hnx Hoff) as Hs. unfold one_pass in Hrest at 1.
    unfold passes in *. cbn [foldl]. unfold one_pass at 2.
    destruct (supervise u st sa.1 _) as [s1 a1]. destruct Hs as [Hwf1 Hs].
    destruct (pick (usable st) nx) as [j|] eqn:Ej; [|done].
    destruct Hs as (Hn1 & pre & Hreq & post & Hpre). cbn [requests update eta_air] in Hpre.
    apply (IH (s1, a1) ((j + 1) mod PSTOP_WIFI_MAX)%nat); [done|done|done| |].
    + destruct Hi as [Hi|Hi].
      * apply elem_of_cons in Hi as [->|Hi]; [right|by left]. cbn. rewrite Hreq. apply elem_of_app. right.
        by apply list_elem_of_singleton.
      * right. cbn. rewrite Hreq, Hpre. apply elem_of_app. left. apply elem_of_app. by left.
    + apply pick_usable in Ej as (k & Hk & Hk'). eapply pick_some; [|exact Hk'|exact Hk].
      by apply Nat.mod_upper_bound.
Qed.
End WifiLemmas.

(** * Properties *)
Section Properties.
Context `{!Os} `{!NetIf} `{!WifiMgmt}.

(** One path for the machine sessions.  Every pass of the supervisor leaves it
    well formed - the network reported active is the one it asked to join, and the
    indices are in range - with the reload request consumed; and a pass that finds
    Ethernet carrying an address leaves WiFi neither joined nor being joined,
    having asked to disconnect if it was. *)
Theorem ethernet_wins u st s a :
  length (wifi st) = PSTOP_WIFI_MAX -> sup_wf s ->
  let '(s', a') := supervise u st s a in
  sup_wf s' /\ reload s' = false /\
  (reload s = false -> uplink_ethernet_ready u (a_os a) = true ->
     active_idx s' = -1 /\ trying s' = -1 /\
     requests a' = requests a ++ (if (0 <=? active_idx s) || (0 <=? trying s) then [WIFI_DISCONNECT] else [])).
Proof.
  intros Hl Hwf. pose proof (supervise_wf u st s a Hl Hwf) as Hs.
  destruct (supervise u st s a) as [s' a'] eqn:E. destruct Hs as [Hwf' Hr']. split; [done|]. split; [done|].
  intros Hr Heth. unfold supervise in E. rewrite Hr, Heth in E. destruct Hwf as [Ha Ht _].
  destruct ((0 <=? active_idx s) || (0 <=? trying s)) eqn:Eb.
  - unfold disconnect, net_mgmt in E. destruct (wifi_request_do _ _) as [r w]. by injection E as <- <-.
  - apply orb_false_iff in Eb as [E1 E2]. injection E as <- <-. rewrite app_nil_r. split_and!; (done || lia).
Qed.

(** C40: Every stored network gets its turn.  Off the network - no Ethernet, not
    connected, and each attempt refused, failed or timed out by the time of the
    next one - four attempts in a row include every stored network, with its own
    name and password, wherever in the list the supervisor was. *)
Theorem wifi_tries_every_network u st s a envs i :
  length (wifi st) = PSTOP_WIFI_MAX -> sup_wf s -> stays_off u st (s, a) envs ->
  length envs = PSTOP_WIFI_MAX -> (i < PSTOP_WIFI_MAX)%nat -> usable st i = true ->
  WIFI_CONNECT (join_of (wifi st !!! i)) ∈ requests (passes u st (s, a) envs).2.
Proof.
  intros Hl Hwf Hoff Henvs Hi Hu. pose proof (sw_next _ Hwf) as Hn.
  apply (passes_off u st envs (s, a) (Z.to_nat (next_idx s))); [done|done|cbn; lia|done| |].
  { left. rewrite Henvs. apply picks_fair; [lia|done|done]. }
  eapply pick_some; [|exact Hi|exact Hu]. lia.
Qed.
End Properties.

(** * Witnesses *)
From S2P Require Import Instances.

(** A manager that takes every request and never connects. *)
#[export] Instance sim_wifi : WifiMgmt := {|
  wifi_iface_status w := ((0, false), w);
  wifi_request_do _ w := (0, w);
|}.
Definition demo_net (name : string) : pstop_wifi_net :=
  mk_wifi (map char_code (String.list_ascii_of_string name) ++ [0]) [0].
Definition demo_nets : app_settings :=
  (zero_settings 5) <| wifi := [demo_net "home"; zero_wifi; demo_net "yard"; zero_wifi] |>.
Definition demo_air : @air sim_os := @mk_air sim_os sim_boot [].
Definition demo_no_uplink : @uplinks sim_os sim_netif := @mk_uplinks sim_os sim_netif None None.
Definition demo_eth : @uplinks sim_os sim_netif := @mk_uplinks sim_os sim_netif (Some 3232235781) None.
Definition later : @os sim_os -> @os sim_os := fun w => w <| sim_clock ::= Z.add 21000 |>.

Example ethernet_wins_witness :
  let '(s', a') := supervise demo_eth demo_nets (mk_sup 2 false 2 0 3) demo_air in
  active_idx s' = -1 /\ requests a' = [WIFI_DISCONNECT].
Proof.
  pose proof (@ethernet_wins sim_os sim_netif sim_wifi demo_eth demo_nets (mk_sup 2 false 2 0 3) demo_air
    eq_refl ltac:(split; cbn; unfold PSTOP_WIFI_MAX; lia)) as P.
  destruct (supervise demo_eth demo_nets (mk_sup 2 false 2 0 3) demo_air) as [s' a'].
  destruct P as (_ & _ & P). destruct (P eq_refl eq_refl) as (Ha & _ & Hr). split; [exact Ha|exact Hr].
Defined.

Example wifi_tries_every_network_witness :
  WIFI_CONNECT (join_of (demo_net "yard")) ∈
    requests (passes demo_no_uplink demo_nets (sup_zero, demo_air) [later; later; later; later]).2.
Proof.
  refine (@wifi_tries_every_network sim_os sim_netif sim_wifi demo_no_uplink demo_nets sup_zero demo_air
    [later; later; later; later] 2 eq_refl _ _ eq_refl _ eq_refl).
  - split; cbn; unfold PSTOP_WIFI_MAX; lia.
  - cbn [stays_off]. unfold off. vm_compute. tauto.
  - unfold PSTOP_WIFI_MAX. lia.
Defined.
