(* ===== verification/Ring.v ===== *)
(** The status ring: [ring.c], the 16 pixels as pure functions of every slot's
    link state, the persistence filter of the mismatch colour and the status
    pixel's blink pattern; and [leds.c]'s [collect], which feeds them from the
    comparator, the settings and the uplink. *)

From S2P Require Import Prelude Platform AppSettings Session Lockstep Uplink.
#[local] Open Scope Z_scope.

Definition RING_LEDS : nat := 16.
Definition RING_BRIGHTNESS : Z := 40.
Definition RING_LINK_FRESH_MS : Z := 2000.
Definition RING_MISMATCH_WINDOW_MS : Z := 250.
Definition RING_MISMATCH_PERSIST_FRAMES : Z := 3.
Definition RING_MISMATCH_HOLD_MS : Z := 300.
Definition RING_AMBER_ON_MS : Z := 160.
Definition RING_AMBER_OFF_MS : Z := 200.
Definition RING_AMBER_REST_MS : Z := 900.
Definition RING_LOCATE_TIMEOUT_MS : Z := u32 (5 * 60 * 1000).

Record ring_rgb := rgb { rgb_r : Z; rgb_g : Z; rgb_b : Z }. (* uint8_t *)
#[export] Instance ring_rgb_inhabited : Inhabited ring_rgb := populate (rgb 0 0 0).

Record ring_slot := mk_ring_slot {
  rs_configured : bool;
  rs_state : pstop_sess_state;
  rs_last_msg : Z;        (* uint8_t *)
  rs_last_reply_ms : Z;   (* uint64_t *)
}.
Definition zero_ring_slot : ring_slot := mk_ring_slot false PSTOP_SESS_IDLE 0 0.
#[export] Instance ring_slot_inhabited : Inhabited ring_slot := populate zero_ring_slot.

Record ring_input := mk_ring_input {
  in_now_ms : Z;          (* uint64_t *)
  in_slots : list ring_slot;
  in_mismatch : bool;
  in_locate : bool;
  in_uplink_up : bool;
  in_wave_head : Z;       (* uint8_t *)
  in_offset : Z;          (* uint8_t *)
}.

Inductive ring_state :=
  RING_IDLE | RING_UNREACHABLE | RING_BOND | RING_OK | RING_STOP | RING_MISMATCH | RING_LOCATE.
(** The enumerators' values, which [compose] compares. *)
Definition ring_state_val (s : ring_state) : Z :=
  match s with
  | RING_IDLE => 0 | RING_UNREACHABLE => 1 | RING_BOND => 2 | RING_OK => 3
  | RING_STOP => 4 | RING_MISMATCH => 5 | RING_LOCATE => 6
  end.

Definition WHITE_LEVEL : Z := RING_BRIGHTNESS / 2.
Definition AMBER_GREEN_PCT : Z := 40.
Definition wave_pct : list Z := [170; 135; 105; 80; 65].
Definition WAVE_FLOOR_PCT : Z := 55.

Definition scale (v pct : Z) : Z :=
  let s := u32 (v * pct) / 100 in u8 (if 255 <? s then 255 else s).

Definition amber_on (now_ms n : Z) : bool :=
  let group := RING_AMBER_ON_MS + RING_AMBER_OFF_MS in
  let period := u32 (u32 (n * group) + RING_AMBER_REST_MS) in
  let phase := u32 (now_ms mod period) in
  if u32 (n * group) <=? phase then false else phase mod group <? RING_AMBER_ON_MS.

Definition fill (c : ring_rgb) : list ring_rgb := replicate RING_LEDS c.

Definition configured_slots (inp : ring_input) : list nat :=
  List.filter (fun slot => rs_configured (in_slots inp !!! slot)) (seq 0 PSTOP_MAX_MACHINES).

Section Ring.
Context `{PstopLib}.

Definition fresh (inp : ring_input) (s : ring_slot) : bool :=
  bool_decide (rs_state s = PSTOP_SESS_BONDED) && (0 <? rs_last_reply_ms s) &&
  (rs_last_reply_ms s <=? in_now_ms inp) &&
  (u64 (in_now_ms inp - rs_last_reply_ms s) <? RING_LINK_FRESH_MS).

(** State, base colour and whether the wave runs over a slot's segment. *)
Definition slot_colour (inp : ring_input) (amber : Z) (s : ring_slot)
  : ring_state * ring_rgb * bool :=
  if negb (fresh inp s) then (RING_UNREACHABLE, rgb amber (scale amber AMBER_GREEN_PCT) 0, false)
  else if rs_last_msg s =? PSTOP_MESSAGE_STOP then (RING_STOP, rgb RING_BRIGHTNESS 0 0, true)
  else if rs_last_msg s =? PSTOP_MESSAGE_OK then (RING_OK, rgb 0 RING_BRIGHTNESS 0, true)
  else (RING_BOND, rgb 0 0 RING_BRIGHTNESS, false).

(** One pixel of a segment; [p] is the logical position. *)
Definition segment_pixel (inp : ring_input) (c : ring_rgb) (wave : bool) (p : nat) : ring_rgb :=
  if wave
  then let d := Z.rem ((in_wave_head inp - Z.of_nat p) + Z.of_nat RING_LEDS) (Z.of_nat RING_LEDS) in
       let pct := default WAVE_FLOOR_PCT (wave_pct !! Z.to_nat d) in
       rgb (scale (rgb_r c) pct) (scale (rgb_g c) pct) (scale (rgb_b c) pct)
  else c.

Definition seg_start (j n : nat) : nat := ((j * RING_LEDS) / n)%nat.

(** Segment [j] of [n]: the worst state so far and the frame. *)
Definition compose_slot (inp : ring_input) (amber : Z) (n : nat)
           (acc : ring_state * list ring_rgb) (js : nat * nat) : ring_state * list ring_rgb :=
  let '(worst, logical) := acc in
  let '(j, slot) := js in
  let '(st, c, wave) := slot_colour inp amber (in_slots inp !!! slot) in
  let worst := if ring_state_val worst <? ring_state_val st then st else worst in
  let logical := foldl (fun px p => <[p := segment_pixel inp c wave p]> px) logical
                   (seq (seg_start j n) (seg_start (S j) n - seg_start j n)) in
  (worst, logical).

Definition amber_level (inp : ring_input) : Z :=
  if amber_on (in_now_ms inp) (if in_uplink_up inp then 1 else 3) then RING_BRIGHTNESS else 0.

Definition compose (inp : ring_input) : ring_state * list ring_rgb :=
  let logical := fill (rgb 0 0 0) in
  if in_locate inp
  then (RING_LOCATE, <[0%nat := rgb RING_BRIGHTNESS RING_BRIGHTNESS RING_BRIGHTNESS]> logical)
  else if in_mismatch inp then (RING_MISMATCH, fill (rgb RING_BRIGHTNESS 0 RING_BRIGHTNESS))
  else
    let configured := configured_slots inp in
    let n := length configured in
    if (n =? 0)%nat then (RING_IDLE, fill (rgb WHITE_LEVEL WHITE_LEVEL WHITE_LEVEL))
    else foldl (compose_slot inp (amber_level inp) n) (RING_IDLE, logical) (imap pair configured).

Definition physical (off : Z) (i : nat) : nat :=
  ((i + Z.to_nat (off mod Z.of_nat RING_LEDS)) mod RING_LEDS)%nat.

(** [out] is the caller's array, which every pixel overwrites. *)
Definition ring_frame (inp : ring_input) (out : list ring_rgb) : ring_state * list ring_rgb :=
  let '(st, logical) := compose inp in
  (st, foldl (fun out i => <[physical (in_offset inp) i := logical !!! i]> out) out
         (seq 0 RING_LEDS)).
End Ring.

(** ** The mismatch colour's persistence filter *)
Record ring_mismatch := mk_ring_mismatch {
  last_count : Z;        (* uint32_t *)
  mm_streak : Z;         (* uint32_t *)
  window_start_ms : Z;   (* uint64_t *)
  advanced : bool;
  until_ms : Z;          (* uint64_t *)
}.
#[export] Instance eta_ring_mismatch : Eta ring_mismatch := fun m =>
  mk_ring_mismatch (last_count m) (mm_streak m) (window_start_ms m) (advanced m) (until_ms m).

Definition ring_mismatch_init (count : Z) : ring_mismatch := mk_ring_mismatch count 0 0 false 0.

Definition ring_mismatch_update (m : ring_mismatch) (count now_ms : Z) : bool * ring_mismatch :=
  let m := if negb (count =? last_count m)
           then let m := m <| last_count := count |> <| advanced := true |> in
                if RING_MISMATCH_PERSIST_FRAMES <=? mm_streak m
                then m <| until_ms := u64 (now_ms + RING_MISMATCH_HOLD_MS) |> else m
           else m in
  let m := if RING_MISMATCH_WINDOW_MS <=? u64 (now_ms - window_start_ms m)
           then let m := if advanced m
                         then let m := if mm_streak m <? RING_MISMATCH_PERSIST_FRAMES
                                       then m <| mm_streak ::= fun n => u32 (n + 1) |> else m in
                              if RING_MISMATCH_PERSIST_FRAMES <=? mm_streak m
                              then m <| until_ms := u64 (now_ms + RING_MISMATCH_HOLD_MS) |> else m
                         else m <| mm_streak := 0 |> in
                m <| advanced := false |> <| window_start_ms := now_ms |>
           else m in
  (now_ms <? until_ms m, m).

(** ** The status pixel *)
Inductive status_iface := STATUS_IFACE_NONE | STATUS_IFACE_ETHERNET | STATUS_IFACE_WIFI.
#[export] Instance status_iface_eq_dec : EqDecision status_iface.
Proof. solve_decision. Defined.

Definition STATUS_BRIGHTNESS : Z := 48.
Definition STATUS_ON_MS : Z := 180.
Definition STATUS_OFF_MS : Z := 220.
Definition STATUS_ZERO_MS : Z := 550.
Definition STATUS_DIGIT_GAP_MS : Z := 550.
Definition STATUS_CYCLE_GAP_MS : Z := 1500.
Definition STATUS_STROBE_MS : Z := 120.

Definition iface_colour (iface : status_iface) : ring_rgb :=
  match iface with
  | STATUS_IFACE_ETHERNET => rgb 0 0 STATUS_BRIGHTNESS
  | STATUS_IFACE_WIFI => rgb STATUS_BRIGHTNESS STATUS_BRIGHTNESS 0
  | STATUS_IFACE_NONE => rgb 0 0 0
  end.

(** [walk]'s progress: still walking at an offset, or returned early from
    inside a [STEP], with what the LED shows. *)
Inductive walk_state := Walking (at_ : Z) | Returned (at_ : Z) (lit : bool).

Definition STEP (t_ms : Z) (on : bool) (ms : Z) (s : walk_state) : walk_state :=
  match s with
  | Returned _ _ => s
  | Walking at_ =>
      if negb (t_ms =? UINT32_MAX) && (t_ms <? u32 (at_ + ms)) then Returned at_ on
      else Walking (u32 (at_ + ms))
  end.

Definition octet_digits (octet : Z) : list Z :=
  (if 100 <=? octet then [octet / 100] else []) ++
  (if 10 <=? octet then [(octet / 10) mod 10] else []) ++ [octet mod 10].

(** One digit of the octet, [b] blinks so far to [b + todo]. *)
Fixpoint walk_blinks (t_ms : Z) (first : bool) (todo : nat) (s : walk_state) : walk_state :=
  match todo with
  | O => s
  | S todo =>
      let s := if first then s else STEP t_ms false STATUS_OFF_MS s in
      walk_blinks t_ms false todo (STEP t_ms true STATUS_ON_MS s)
  end.
Definition walk_digit (t_ms : Z) (s : walk_state) (d_digit : nat * Z) : walk_state :=
  let '(d, digit) := d_digit in
  let s := if (0 <? d)%nat then STEP t_ms false STATUS_DIGIT_GAP_MS s else s in
  if digit =? 0 then STEP t_ms true STATUS_ZERO_MS s
  else walk_blinks t_ms true (Z.to_nat digit) s.

Definition walk_steps (iface : status_iface) (octet : Z) (fault : bool) (t_ms : Z) : walk_state :=
  let s := Walking 0 in
  if fault then STEP t_ms false STATUS_STROBE_MS (STEP t_ms true STATUS_STROBE_MS s)
  else if bool_decide (iface = STATUS_IFACE_NONE) then STEP t_ms false 1000 s
  else STEP t_ms false STATUS_CYCLE_GAP_MS
         (foldl (walk_digit t_ms) s (imap pair (octet_digits octet))).

(** The offset returned and the [lit] flag, false unless a [STEP] set it. *)
Definition walk (iface : status_iface) (octet : Z) (fault : bool) (t_ms : Z) : Z * bool :=
  match walk_steps iface octet fault t_ms with
  | Walking at_ => (at_, false)
  | Returned at_ lit => (at_, lit)
  end.

Definition status_cycle_ms (iface : status_iface) (octet : Z) (fault : bool) : Z :=
  fst (walk iface octet fault UINT32_MAX).

Definition status_pixel (iface : status_iface) (octet : Z) (fault : bool) (t_ms : Z) : ring_rgb :=
  if negb (snd (walk iface octet fault t_ms)) then rgb 0 0 0
  else if fault then rgb STATUS_BRIGHTNESS 0 0 else iface_colour iface.

(** ** leds.c *)
Definition status_iface_of (kind : uplink_kind) : status_iface :=
  match kind with
  | UPLINK_ETHERNET | UPLINK_HOST => STATUS_IFACE_ETHERNET
  | UPLINK_WIFI => STATUS_IFACE_WIFI
  | UPLINK_NONE => STATUS_IFACE_NONE
  end.

(** [leds_locate], the new [locate_until_ms]. *)
Definition leds_locate `{Os} (on : bool) (w : os) : Z * os :=
  if on then let '(t, w) := k_uptime_get w in (t + RING_LOCATE_TIMEOUT_MS, w) else (0, w).
Definition leds_locate_active `{Os} (locate_until_ms : Z) (w : os) : bool * os :=
  let '(t, w) := k_uptime_get w in (t <? locate_until_ms, w).

Section Leds.
Context `{!PstopLib} `{Os}.

(** The comparator runs on while [collect] reads it, without a lock: [seen slot k] is
    what it is at the [k]-th of the reads for [slot] - its active flag, its session's
    state, last message, and last reply's low and high word - and at the read of the
    mismatch counter, [seen PSTOP_MAX_MACHINES 0]. *)
Definition sightings : Type := nat -> nat -> lockstep.
(** A 64-bit field read by a 32-bit core: two words, maybe of different values. *)
Definition two_words (low high : Z) : Z := Z.shiftl (Z.shiftr high 32) 32 + u32 low.

Definition collect_slot (cfg : app_settings) (seen : sightings) (slot : nat) : ring_slot :=
  let conf := match app_settings_peer_get cfg (Z.of_nat slot) with
              | (_, Some peer) => configured peer | (_, None) => false end in
  let s k := session_at (seen slot k) slot in
  if active (seen slot 0%nat) slot
  then mk_ring_slot conf (s_state (s 1%nat)) (s_last_msg (s 2%nat))
         (two_words (s_last_reply_ms (s 3%nat)) (s_last_reply_ms (s 4%nat)))
  else mk_ring_slot conf PSTOP_SESS_IDLE PSTOP_MESSAGE_UNKNOWN 0.

(** One frame's input, the filter, and the advanced wave head. *)
Definition collect (cfg : app_settings) (seen : sightings) (up : uplink_status)
           (locate_until_ms : Z) (mm : ring_mismatch) (wave_head : Z) (w : os)
  : ring_input * ring_mismatch * Z * os :=
  let '(t, w) := k_uptime_get w in
  let now := u64 t in
  let '(mism, mm) := ring_mismatch_update mm (mismatches (seen PSTOP_MAX_MACHINES 0%nat)) now in
  let '(loc, w) := leds_locate_active locate_until_ms w in
  (mk_ring_input now (map (collect_slot cfg seen) (seq 0 PSTOP_MAX_MACHINES)) mism loc
     (bool_decide (up_kind up <> UPLINK_NONE)) wave_head (ring_offset cfg),
   mm, u8 ((wave_head + 1) mod Z.of_nat RING_LEDS), w).

(** [paint_pixel]'s colour. *)
Definition pixel_colour (inp : ring_input) (up : uplink_status) : ring_rgb :=
  let iface := status_iface_of (up_kind up) in
  let octet := u8 (Z.land (up_ipv4 up) 255) in
  let cycle := status_cycle_ms iface octet (in_mismatch inp) in
  status_pixel iface octet (in_mismatch inp) (u32 (in_now_ms inp mod cycle)).
End Leds.

(** * Specification *)

(** Whose segment a logical pixel is in, of [n] segments. *)
Definition owner (n p : nat) : nat := (((p + 1) * n - 1) / RING_LEDS)%nat.

(** The pixel a slot shows at [p]. *)
Definition slot_pixel `{PstopLib} (inp : ring_input) (slot p : nat) : ring_rgb :=
  let '(_, c, wave) := slot_colour inp (amber_level inp) (in_slots inp !!! slot) in
  segment_pixel inp c wave p.
Definition slot_state `{PstopLib} (inp : ring_input) (slot : nat) : ring_state :=
  fst (fst (slot_colour inp (amber_level inp) (in_slots inp !!! slot))).

Definition is_green (c : ring_rgb) : Prop := rgb_r c = 0 /\ 0 < rgb_g c /\ rgb_b c = 0.

(** Cleared to run: bonded, and the machine's last reply, less than two
    seconds old, was OK. *)
Definition cleared `{PstopLib} (now : Z) (s : ring_slot) : Prop :=
  rs_state s = PSTOP_SESS_BONDED /\ rs_last_msg s = PSTOP_MESSAGE_OK /\
  0 < rs_last_reply_ms s <= now /\ now - rs_last_reply_ms s < RING_LINK_FRESH_MS.

(** Frames fed to the filter: counter and time. *)
Definition mismatch_run (m : ring_mismatch) (fs : list (Z * Z)) : ring_mismatch :=
  foldl (fun m f => snd (ring_mismatch_update m (fst f) (snd f))) m fs.

(** The times at which the counter moved. *)
Fixpoint changes (c0 : Z) (fs : list (Z * Z)) : list Z :=
  match fs with
  | [] => []
  | (c, t) :: fs => (if c =? c0 then [] else [t]) ++ changes c fs
  end.
Fixpoint times_ok (now : Z) (fs : list (Z * Z)) : Prop :=
  match fs with
  | [] => True
  | (c, t) :: fs => now <= t < 2 ^ 63 /\ times_ok t fs
  end.
(** A fault in progress: frames at most [gap] apart, and at each of them the
    counter, last seen moving at [moved], moved within the last window. *)
Fixpoint steady (gap c0 moved now : Z) (fs : list (Z * Z)) : Prop :=
  match fs with
  | [] => True
  | (c, t) :: fs =>
      now <= t <= now + gap /\ t < 2 ^ 63 /\
      let moved := if c =? c0 then moved else t in
      t - moved < RING_MISMATCH_WINDOW_MS /\ steady gap c moved t fs
  end.

(** A blink pattern: on or off, for how many milliseconds. *)
Definition pattern : Type := list (bool * Z).
Definition total (pat : pattern) : Z := foldr (fun s n => snd s + n) 0 pat.
Fixpoint lit_at (pat : pattern) (t : Z) : bool :=
  match pat with
  | [] => false
  | (on, ms) :: pat => if t <? ms then on else lit_at pat (t - ms)
  end.
Fixpoint blinks (n : nat) : pattern :=
  match n with
  | O => []
  | S O => [(true, STATUS_ON_MS)]
  | S n => (true, STATUS_ON_MS) :: (false, STATUS_OFF_MS) :: blinks n
  end.
Definition digit_pattern (d : Z) : pattern :=
  if d =? 0 then [(true, STATUS_ZERO_MS)] else blinks (Z.to_nat d).
Fixpoint digits_pattern (ds : list Z) : pattern :=
  match ds with
  | [] => []
  | [d] => digit_pattern d
  | d :: ds => digit_pattern d ++ (false, STATUS_DIGIT_GAP_MS) :: digits_pattern ds
  end.
Definition octet_pattern (octet : Z) : pattern :=
  digits_pattern (octet_digits octet) ++ [(false, STATUS_CYCLE_GAP_MS)].

(** What a person reads off the blinks: count the short flashes, a long flash
    is a zero, a pause ends a digit. *)
Fixpoint read_blinks (pat : pattern) (digit number : Z) : Z :=
  match pat with
  | [] => number
  | (true, ms) :: pat => read_blinks pat (if ms <? STATUS_ZERO_MS then digit + 1 else digit) number
  | (false, ms) :: pat => if ms <? STATUS_DIGIT_GAP_MS then read_blinks pat digit number
                          else read_blinks pat 0 (number * 10 + digit)
  end.

(** * Lemmas *)
Lemma foldl_insert_seq {A} (f : nat -> A) s n (l : list A) i :
  foldl (fun px p => <[p := f p]> px) l (seq s n) !! i =
  if bool_decide (s <= i < s + n /\ i < length l)%nat then Some (f i) else l !! i.
Proof.
  revert s l. induction n as [|n IH]; intros s l; cbn [seq foldl].
  - rewrite bool_decide_eq_false_2 by lia. done.
  - rewrite IH, length_insert. case_bool_decide as H1; case_bool_decide as H2; try done; try lia.
    + assert (i = s) as -> by lia. apply list_lookup_insert_eq. lia.
    + destruct (decide (i = s)) as [->|]; [|by rewrite list_lookup_insert_ne].
      rewrite list_insert_ge by lia. done.
Qed.

Lemma foldl_insert_length {A B} (g : B -> nat) (f : B -> A) bs (l : list A) :
  length (foldl (fun px p => <[g p := f p]> px) l bs) = length l.
Proof. revert l. induction bs as [|b bs IH]; intros l; [done|]. cbn. by rewrite IH, length_insert. Qed.

(** Writing through an injection. *)
Lemma foldl_insert_inj {A} (g : nat -> nat) (v : nat -> A) n (l : list A) i :
  (forall a b, (a < n)%nat -> (b < n)%nat -> g a = g b -> a = b) -> (i < n)%nat ->
  (g i < length l)%nat ->
  foldl (fun px p => <[g p := v p]> px) l (seq 0 n) !! g i = Some (v i).
Proof.
  induction n as [|n IH]; intros Hinj Hi Hl; [lia|].
  rewrite seq_S, foldl_app. cbn [foldl plus]. destruct (decide (i = n)) as [->|Hne].
  - apply list_lookup_insert_eq. by rewrite foldl_insert_length.
  - rewrite list_lookup_insert_ne; [apply IH; eauto with lia|].
    intros E. apply Hne. symmetry. apply Hinj; lia || done.
Qed.

(** [n] segments in order cover the ring exactly once. *)
Lemma owner_spec n j p : (0 < n <= PSTOP_MAX_MACHINES)%nat -> (p < RING_LEDS)%nat -> (j < n)%nat ->
  (seg_start j n <= p < seg_start (S j) n)%nat <-> j = owner n p.
Proof.
  intros Hn Hp Hj.
  assert (forallb (fun n => forallb (fun j => forallb (fun p =>
    Bool.eqb ((seg_start j n <=? p)%nat && (p <? seg_start (S j) n)%nat) (j =? owner n p)%nat)
    (seq 0 RING_LEDS)) (seq 0 n)) (seq 1 PSTOP_MAX_MACHINES) = true) as Hall by (vm_compute; reflexivity).
  rewrite forallb_forall in Hall. specialize (Hall n ltac:(apply in_seq; lia)).
  rewrite forallb_forall in Hall. specialize (Hall j ltac:(apply in_seq; lia)).
  rewrite forallb_forall in Hall. specialize (Hall p ltac:(apply in_seq; lia)).
  apply Bool.eqb_prop in Hall.
  rewrite <- Nat.eqb_eq, <- Hall, andb_true_iff, Nat.leb_le, Nat.ltb_lt. done.
Qed.
Lemma owner_lt n p : (0 < n)%nat -> (p < RING_LEDS)%nat -> (owner n p < n)%nat.
Proof. unfold owner, RING_LEDS. intros Hn Hp. apply Nat.Div0.div_lt_upper_bound. nia. Qed.

Lemma physical_inj off a b : (a < RING_LEDS)%nat -> (b < RING_LEDS)%nat ->
  physical off a = physical off b -> a = b.
Proof.
  unfold physical, RING_LEDS. intros Ha Hb.
  assert (Z.to_nat (off mod Z.of_nat 16) < 16)%nat as Ho by (pose proof (Z.mod_pos_bound off 16); lia).
  generalize dependent (Z.to_nat (off mod Z.of_nat 16)). intros o Ho E.
  pose proof (Nat.div_mod (a + o) 16 ltac:(lia)). pose proof (Nat.div_mod (b + o) 16 ltac:(lia)).
  assert ((a + o) / 16 < 2)%nat by (apply Nat.Div0.div_lt_upper_bound; lia).
  assert ((b + o) / 16 < 2)%nat by (apply Nat.Div0.div_lt_upper_bound; lia). lia.
Qed.
Lemma physical_lt off i : (physical off i < RING_LEDS)%nat.
Proof. apply Nat.mod_upper_bound. done. Qed.
Lemma physical_surj off q : (q < RING_LEDS)%nat -> exists i, (i < RING_LEDS)%nat /\ physical off i = q.
Proof.
  intros Hq. unfold physical, RING_LEDS in *.
  assert (Z.to_nat (off mod Z.of_nat 16) < 16)%nat as Ho by (pose proof (Z.mod_pos_bound off 16); lia).
  generalize dependent (Z.to_nat (off mod Z.of_nat 16)). intros o Ho.
  destruct (le_lt_dec o q) as [Hle|Hlt].
  - exists (q - o)%nat. split; [lia|]. rewrite Nat.mod_small; lia.
  - exists (q + 16 - o)%nat. split; [lia|]. replace (q + 16 - o + o)%nat with (q + 1 * 16)%nat by lia.
    rewrite Nat.Div0.mod_add, Nat.mod_small; lia.
Qed.

Section RingLemmas.
Context `{PstopLib}.

Lemma compose_fold inp n cs :
  (0 < n <= PSTOP_MAX_MACHINES)%nat -> (length cs <= n)%nat ->
  let '(worst, px) := foldl (compose_slot inp (amber_level inp) n)
                        (RING_IDLE, fill (rgb 0 0 0)) (imap pair cs) in
  length px = RING_LEDS /\
  (forall p, (p < RING_LEDS)%nat ->
     px !! p = Some (match cs !! owner n p with
                     | Some slot => slot_pixel inp slot p | None => rgb 0 0 0 end)) /\
  ring_state_val worst = foldr (fun slot => Z.max (ring_state_val (slot_state inp slot))) 0 cs.
Proof.
  intros Hn. induction cs as [|slot cs IH] using rev_ind; intros Hlen.
  - split; [done|]. split; [|done]. intros p Hp. rewrite lookup_nil. by apply lookup_replicate_2.
  - rewrite length_app in Hlen. cbn in Hlen. rewrite imap_app, foldl_app.
    destruct (foldl _ _ (imap pair cs)) as [worst px]. destruct (IH ltac:(lia)) as (Hl & Hpx & Hw).
    clear IH. cbn [imap foldl]. unfold compose_slot.
    destruct (slot_colour inp (amber_level inp) (in_slots inp !!! slot)) as [[st c] wave] eqn:Ec.
    assert (slot_state inp slot = st) as Hst by (unfold slot_state; by rewrite Ec).
    assert (forall p, slot_pixel inp slot p = segment_pixel inp c wave p) as Hpix
      by (intros; unfold slot_pixel; by rewrite Ec).
    rewrite Nat.add_0_r. split; [by rewrite (foldl_insert_length id)|]. split.
    + intros p Hp. rewrite foldl_insert_seq, Hl.
      pose proof (owner_spec n (length cs) p Hn Hp ltac:(lia)) as Ho.
      assert (seg_start (length cs) n <= seg_start (S (length cs)) n)%nat as Hle.
      { unfold seg_start. apply Nat.Div0.div_le_mono. lia. }
      case_bool_decide as Hb.
      * assert (owner n p = length cs) as -> by (symmetry; apply Ho; lia).
        rewrite lookup_app_r, Nat.sub_diag by lia. cbn. by rewrite Hpix.
      * rewrite Hpx by done. destruct (decide (owner n p < length cs)%nat).
        -- by rewrite lookup_app_l.
        -- assert (owner n p <> length cs) as Hne by (intros E; symmetry in E; apply Ho in E; lia).
           rewrite (lookup_ge_None_2 cs) by lia.
           rewrite (lookup_ge_None_2 (cs ++ [slot])) by (rewrite length_app; cbn [length]; lia). done.
    + rewrite foldr_app. cbn. rewrite Hst.
      assert (forall z, foldr (fun slot => Z.max (ring_state_val (slot_state inp slot))) z cs =
                        Z.max z (foldr (fun slot => Z.max (ring_state_val (slot_state inp slot))) 0 cs)
              \/ z < 0) as Hf.
      { intros z. destruct (Z.ltb_spec z 0); [by right|left]. clear -H0.
        induction cs as [|x cs IH]; cbn; lia. }
      destruct (Hf (Z.max (ring_state_val st) 0)) as [-> | ?]; [|lia].
      rewrite <- Hw. assert (0 <= ring_state_val st) by (by destruct st).
      destruct (Z.ltb_spec (ring_state_val worst) (ring_state_val st)); lia.
Qed.
End RingLemmas.

Section FrameLemmas.
Context `{PstopLib}.

Lemma configured_lt inp : (length (configured_slots inp) <= PSTOP_MAX_MACHINES)%nat.
Proof.
  unfold configured_slots. set (l := seq 0 PSTOP_MAX_MACHINES).
  assert (length l = PSTOP_MAX_MACHINES) as <- by apply length_seq. clearbody l.
  induction l as [|x l IH]; cbn; [lia|]. destruct (rs_configured _); cbn; lia.
Qed.

(** The composed frame before rotation, when no override is up. *)
Lemma compose_segments inp :
  in_locate inp = false -> in_mismatch inp = false -> configured_slots inp <> [] ->
  let cs := configured_slots inp in
  length (snd (compose inp)) = RING_LEDS /\
  (forall p, (p < RING_LEDS)%nat -> exists slot, cs !! owner (length cs) p = Some slot /\
     snd (compose inp) !! p = Some (slot_pixel inp slot p)) /\
  ring_state_val (fst (compose inp)) =
    foldr (fun slot => Z.max (ring_state_val (slot_state inp slot))) 0 cs.
Proof.
  intros Hloc Hmis Hne cs. unfold compose. rewrite Hloc, Hmis. fold cs.
  assert (0 < length cs)%nat as Hpos by (fold cs in Hne; destruct cs; [done|cbn; lia]).
  destruct (Nat.eqb_spec (length cs) 0); [lia|].
  pose proof (compose_fold inp (length cs) cs) as Hf.
  pose proof (configured_lt inp) as Hmax. fold cs in Hmax.
  specialize (Hf ltac:(lia) ltac:(lia)). cbv zeta.
  destruct (foldl _ _ (imap pair cs)) as [worst px]. destruct Hf as (Hl & Hpx & Hw).
  split; [done|]. split; [|done]. intros p Hp. cbn [snd]. rewrite (Hpx p Hp).
  destruct (lookup_lt_is_Some_2 cs (owner (length cs) p)) as [slot Hs]; [by apply owner_lt|].
  exists slot. by rewrite Hs.
Qed.

Lemma length_compose inp : length (snd (compose inp)) = RING_LEDS.
Proof.
  destruct (in_locate inp) eqn:Hl; [unfold compose; by rewrite Hl|].
  destruct (in_mismatch inp) eqn:Hm; [unfold compose; by rewrite Hl, Hm|].
  destruct (configured_slots inp) as [|x cs] eqn:Hc.
  - unfold compose. by rewrite Hl, Hm, Hc.
  - apply compose_segments; [done|done|by rewrite Hc].
Qed.

Lemma ring_frame_rotates inp out i : length out = RING_LEDS -> (i < RING_LEDS)%nat ->
  snd (ring_frame inp out) !! physical (in_offset inp) i = snd (compose inp) !! i.
Proof.
  intros Hout Hi. unfold ring_frame. pose proof (length_compose inp) as Hl.
  destruct (compose inp) as [st px]. cbn [snd] in *.
  rewrite (foldl_insert_inj (physical (in_offset inp)) (fun i => px !!! i)).
  - symmetry. apply list_lookup_lookup_total_lt. lia.
  - intros a b Ha Hb. by apply physical_inj.
  - done.
  - rewrite Hout. apply physical_lt.
Qed.

Lemma scale_zero pct : scale 0 pct = 0.
Proof. done. Qed.

(** Only a cleared slot's pixel is green. *)
Lemma green_pixel inp slot p : PSTOP_MESSAGE_OK <> PSTOP_MESSAGE_STOP ->
  0 <= in_now_ms inp < 2 ^ 64 ->
  is_green (slot_pixel inp slot p) -> cleared (in_now_ms inp) (in_slots inp !!! slot).
Proof.
  intros Hcode Hnow. unfold slot_pixel, slot_colour.
  set (s := in_slots inp !!! slot). unfold is_green.
  destruct (fresh inp s) eqn:Hf; cbn [negb].
  - unfold fresh in Hf. to_prop.
    destruct (Z.eqb_spec (rs_last_msg s) PSTOP_MESSAGE_STOP) as [E|E].
    { unfold segment_pixel. cbn [rgb_g rgb_b rgb_r]. rewrite !scale_zero. lia. }
    destruct (Z.eqb_spec (rs_last_msg s) PSTOP_MESSAGE_OK) as [E'|E'].
    + intros _. match goal with Hd : u64 _ < _ |- _ => rewrite u64_small in Hd by lia end.
      by split_and!.
    + cbn. lia.
  - unfold segment_pixel. cbn [rgb_g rgb_b rgb_r]. unfold amber_level.
    change RING_BRIGHTNESS with 40. destruct (amber_on _ _); rewrite ?scale_zero; lia.
Qed.

Lemma cleared_fresh inp s : 0 <= in_now_ms inp < 2 ^ 64 ->
  cleared (in_now_ms inp) s -> fresh inp s = true.
Proof.
  intros Hnow (Hs & _ & Hr & Hd). unfold fresh. rewrite u64_small by lia.
  rewrite bool_decide_eq_true_2 by done.
  destruct (Z.ltb_spec 0 (rs_last_reply_ms s)), (Z.leb_spec (rs_last_reply_ms s) (in_now_ms inp)),
    (Z.ltb_spec (in_now_ms inp - rs_last_reply_ms s) RING_LINK_FRESH_MS); done || lia.
Qed.

Lemma wave_pct_bound d pct : default WAVE_FLOOR_PCT (wave_pct !! d) = pct -> 55 <= pct <= 170.
Proof. intros <-. do 5 (destruct d as [|d]; [cbn; lia|]). rewrite lookup_ge_None_2 by (cbn; lia). done. Qed.

Lemma scale_pos pct : 55 <= pct <= 170 -> 22 <= scale RING_BRIGHTNESS pct <= 68.
Proof.
  intros Hp. unfold scale, RING_BRIGHTNESS. rewrite u32_small by lia.
  assert (22 <= 40 * pct / 100 <= 68) by (Z.to_euclidean_division_equations; lia).
  destruct (Z.ltb_spec 255 (40 * pct / 100)); [lia|]. rewrite u8_small; lia.
Qed.

Lemma cleared_green inp slot p : PSTOP_MESSAGE_OK <> PSTOP_MESSAGE_STOP ->
  0 <= in_now_ms inp < 2 ^ 64 ->
  cleared (in_now_ms inp) (in_slots inp !!! slot) -> is_green (slot_pixel inp slot p).
Proof.
  intros Hcode Hnow Hc. unfold slot_pixel, slot_colour. rewrite (cleared_fresh _ _ Hnow Hc).
  destruct Hc as (_ & Hm & _). rewrite Hm. cbn [negb].
  rewrite (proj2 (Z.eqb_neq _ _)) by done. rewrite Z.eqb_refl.
  unfold segment_pixel. cbn [rgb_g rgb_b rgb_r].
  set (pct := default _ _). pose proof (scale_pos pct (wave_pct_bound _ _ eq_refl)).
  unfold is_green. cbn [rgb_g rgb_b rgb_r]. rewrite !scale_zero. lia.
Qed.
End FrameLemmas.

(** ** The filter *)

(** What holds after the frames whose changes are [ch], the last one at [now]. *)
Record filter_inv (m : ring_mismatch) (ch : list Z) (now : Z) : Prop := {
  fi_streak : 0 <= mm_streak m <= 3;
  fi_start : 0 <= window_start_ms m <= now;
  fi_count : mm_streak m + (if advanced m then 1 else 0) <= Z.of_nat (length ch);
  fi_hd : ch <> [] -> hd 0 ch <= now;
  fi_spread : 1 <= mm_streak m -> hd 0 ch + (mm_streak m - 1) * 250 <= window_start_ms m;
  fi_until : until_ms m = 0 \/ (3 <= length ch)%nat /\ hd 0 ch + 500 <= now;
}.

(** The filter's update, its tests split and its arithmetic unwrapped. *)
Lemma filter_step m ch now c t :
  filter_inv m ch now -> now <= t < 2 ^ 63 ->
  let '(painted, m') := ring_mismatch_update m c t in
  let ch' := ch ++ (if c =? last_count m then [] else [t]) in
  filter_inv m' ch' t /\ last_count m' = c /\
  (painted = true -> (3 <= length ch')%nat /\ hd 0 ch' + 500 <= t).
Proof.
  intros [Hs Hst Hc Hhd Hsp Hu] Ht. unfold ring_mismatch_update.
  unfold RING_MISMATCH_PERSIST_FRAMES, RING_MISMATCH_WINDOW_MS, RING_MISMATCH_HOLD_MS in *.
  destruct m as [lc k st adv un]. cbn in *.
  set (ch' := ch ++ (if c =? lc then [] else [t])).
  assert (length ch' = (length ch + if (c =? lc)%Z then 0 else 1)%nat) as Hl'
    by (unfold ch'; rewrite length_app; by destruct (c =? lc)).
  assert (hd 0 ch' <= t) as Hhd'.
  { unfold ch'. destruct ch; [destruct (c =? lc); cbn; lia|]. specialize (Hhd ltac:(done)). cbn in *. lia. }
  assert (length ch = 0%nat \/ hd 0 ch' = hd 0 ch) as Hsame by (unfold ch'; destruct ch; auto).
  clearbody ch'. clear Hhd.
  assert (u64 (t + 300) = t + 300) as Hu1 by (apply u64_small; lia).
  assert (u64 (t - st) = t - st) as Hu2 by (apply u64_small; lia).
  assert (u32 (k + 1) = k + 1) as Hu3 by (apply u32_small; lia).
  destruct (Z.eqb_spec c lc); destruct adv; destruct (Z.leb_spec 3 k); cbn -[Z.add]; rewrite ?Hu2;
    destruct (Z.leb_spec 250 (t - st)); cbn -[Z.add];
    try (destruct (Z.ltb_spec k 3); try lia; []); cbn -[Z.add];
    rewrite ?Hu3; try (destruct (Z.leb_spec 3 (k + 1))); try (destruct (Z.leb_spec 3 k); try lia; []);
    cbn -[Z.add]; rewrite ?Hu1; split_and!; intros; try lia;
    split; cbn -[Z.add]; intros; lia.
Qed.

Definition last_time (now : Z) (fs : list (Z * Z)) : Z := foldl (fun _ f => snd f) now fs.

Lemma filter_run fs m ch now :
  filter_inv m ch now -> times_ok now fs ->
  filter_inv (mismatch_run m fs) (ch ++ changes (last_count m) fs) (last_time now fs).
Proof.
  revert m ch now. induction fs as [|[c t] fs IH]; intros m ch now Hi Ht.
  - cbn. by rewrite app_nil_r.
  - cbn [times_ok] in Ht. destruct Ht as [Ht Hts].
    cbn [mismatch_run last_time foldl changes fst snd].
    pose proof (filter_step m ch now c t Hi Ht) as Hs.
    destruct (ring_mismatch_update m c t) as [painted m'] eqn:E. destruct Hs as (Hi' & Hc & _).
    rewrite app_assoc. rewrite <- Hc at 2. by apply IH.
Qed.

Lemma filter_init c0 : filter_inv (ring_mismatch_init c0) [] 0.
Proof. split; cbn; lia || done || by left. Qed.

Lemma times_ok_app now fs c t : times_ok now (fs ++ [(c, t)]) ->
  times_ok now fs /\ last_time now fs <= t < 2 ^ 63.
Proof.
  revert now. induction fs as [|[c1 t1] fs IH]; intros now; cbn; [tauto|].
  intros [H1 H2]. apply IH in H2. tauto.
Qed.

Lemma update_count m c t : last_count (snd (ring_mismatch_update m c t)) = c.
Proof.
  destruct m as [lc k st adv un]. unfold ring_mismatch_update. cbn -[Z.leb Z.ltb].
  destruct (Z.eqb_spec c lc) as [->|]; cbn -[Z.leb Z.ltb]; repeat (bool_case; cbn -[Z.leb Z.ltb]); done.
Qed.

Lemma changes_app m fs c t :
  changes (last_count m) (fs ++ [(c, t)]) =
  changes (last_count m) fs ++ (if c =? last_count (mismatch_run m fs) then [] else [t]).
Proof.
  revert m. induction fs as [|[c1 t1] fs IH]; intros m; [cbn; by rewrite app_nil_r|].
  cbn [app changes]. rewrite <- app_assoc. f_equal.
  specialize (IH (snd (ring_mismatch_update m c1 t1))). rewrite update_count in IH. exact IH.
Qed.

(** A fault in progress, last seen moving at [moved], begun at [t0]. *)
Definition fault_inv (gap t0 : Z) (m : ring_mismatch) (moved now : Z) : Prop :=
  exists k : nat,
    0 <= mm_streak m <= 3 /\ Z.min 3 (Z.of_nat k) <= mm_streak m /\
    0 <= window_start_ms m <= now /\ now < window_start_ms m + 250 /\
    window_start_ms m <= t0 + Z.of_nat k * (250 + gap) /\
    (advanced m = true \/ moved <= window_start_ms m) /\
    (3 <= mm_streak m -> moved + 300 <= until_ms m).

Lemma fault_step gap t0 m moved now c t :
  0 <= gap -> 0 <= moved <= now -> fault_inv gap t0 m moved now ->
  now <= t <= now + gap -> t < 2 ^ 63 ->
  let moved' := if c =? last_count m then moved else t in t - moved' < 250 ->
  let '(painted, m') := ring_mismatch_update m c t in
  fault_inv gap t0 m' moved' t /\ last_count m' = c /\
  (t0 + 3 * (250 + gap) <= t -> painted = true).
Proof.
  intros Hg Hm (k & Hs & Hk & Hst & Hw & Hb & Ha & Hu) Ht Htmax. cbv zeta.
  unfold ring_mismatch_update, fault_inv.
  unfold RING_MISMATCH_PERSIST_FRAMES, RING_MISMATCH_WINDOW_MS, RING_MISMATCH_HOLD_MS in *.
  destruct m as [lc s st adv un]. cbn in *. intros Hrecent.
  assert (u64 (t + 300) = t + 300) as Hu1 by (apply u64_small; lia).
  assert (u64 (t - st) = t - st) as Hu2 by (apply u64_small; lia).
  assert (u32 (s + 1) = s + 1) as Hu3 by (apply u32_small; lia).
  assert (t0 + 3 * (250 + gap) <= t -> t < st + 250 -> 3 <= Z.of_nat k) as Hlate by nia.
  assert (t0 + 3 * (250 + gap) <= t -> 2 <= Z.of_nat k) as Hlate2 by nia.
  destruct (Z.leb_spec 250 (t - st)) as [Hc|Hc].
  - assert (adv = true \/ c <> lc) as Hadv.
    { destruct Ha as [->|Ha]; [by left|]. destruct (Z.eqb_spec c lc); [lia|by right]. }
    destruct (Z.eqb_spec c lc); destruct adv; try (destruct Hadv; done); destruct (Z.leb_spec 3 s);
      cbn -[Z.add]; rewrite ?Hu2; destruct (Z.leb_spec 250 (t - st)); try lia; cbn -[Z.add];
      destruct (Z.ltb_spec s 3); try lia; cbn -[Z.add]; rewrite ?Hu3;
      try (destruct (Z.leb_spec 3 (s + 1))); try (destruct (Z.leb_spec 3 s); try lia; []);
      cbn -[Z.add]; rewrite ?Hu1; (split; [exists (S k)|split; [lia|intros; apply Z.ltb_lt; lia]]);
      rewrite ?Nat2Z.inj_succ; split_and!; intros; try (right; lia); nia.
  - destruct (Z.eqb_spec c lc); destruct (Z.leb_spec 3 s);
      cbn -[Z.add]; rewrite ?Hu2; destruct (Z.leb_spec 250 (t - st)); try lia; cbn -[Z.add];
      rewrite ?Hu1; (split; [exists k|split; [lia|intros; apply Z.ltb_lt; lia]]);
      split_and!; intros; try lia; auto.
Qed.

Lemma fault_begins m ch now c1 t0 gap :
  filter_inv m ch now -> now <= t0 < 2 ^ 63 -> c1 <> last_count m ->
  fault_inv gap t0 (snd (ring_mismatch_update m c1 t0)) t0 t0.
Proof.
  intros Hi Ht Hne. pose proof (filter_step m ch now c1 t0 Hi Ht) as Hs.
  destruct Hi as [Hs0 Hst _ _ _ _]. revert Hs. unfold ring_mismatch_update, fault_inv.
  unfold RING_MISMATCH_PERSIST_FRAMES, RING_MISMATCH_WINDOW_MS, RING_MISMATCH_HOLD_MS in *.
  destruct m as [lc k st adv un]. cbn in *. rewrite (proj2 (Z.eqb_neq c1 lc)) by done.
  assert (u64 (t0 + 300) = t0 + 300) as Hu1 by (apply u64_small; lia).
  assert (u64 (t0 - st) = t0 - st) as Hu2 by (apply u64_small; lia).
  assert (u32 (k + 1) = k + 1) as Hu3 by (apply u32_small; lia).
  intros _. exists 0%nat. destruct (Z.leb_spec 3 k); cbn -[Z.add]; rewrite ?Hu2;
    destruct (Z.leb_spec 250 (t0 - st)); cbn -[Z.add]; destruct (Z.ltb_spec k 3); try lia; cbn -[Z.add];
    rewrite ?Hu3; try (destruct (Z.leb_spec 3 (k + 1))); try (destruct (Z.leb_spec 3 k); try lia; []);
    cbn -[Z.add]; rewrite ?Hu1; split_and!; intros; try lia; auto; right; lia.
Qed.

Lemma fault_run gap t0 fs m moved now :
  0 <= gap -> 0 <= moved <= now -> fault_inv gap t0 m moved now ->
  steady gap (last_count m) moved now fs -> fs <> [] ->
  t0 + 3 * (250 + gap) <= last_time now fs ->
  exists fs' f, fs = fs' ++ [f] /\ fst (ring_mismatch_update (mismatch_run m fs') (fst f) (snd f)) = true.
Proof.
  intros Hg. revert m moved now. induction fs as [|[c t] fs IH]; intros m moved now Hm Hi Hst Hne Hlate; [done|].
  cbn [steady] in Hst. destruct Hst as (Ht & Hmax & Hrec & Hst).
  pose proof (fault_step gap t0 m moved now c t Hg Hm Hi Ht Hmax Hrec) as Hs.
  destruct (ring_mismatch_update m c t) as [painted m'] eqn:E. destruct Hs as (Hi' & Hc & Hp).
  destruct fs as [|f fs].
  - exists [], (c, t). split; [done|]. change (fst (ring_mismatch_update m c t) = true). rewrite E. by apply Hp.
  - destruct (IH m' (if c =? last_count m then moved else t) t ltac:(destruct (c =? last_count m); lia) Hi') as (fs' & f' & -> & Hpaint);
      [by rewrite Hc|done|exact Hlate|].
    exists ((c, t) :: fs'), f'. split; [done|]. 
    change (mismatch_run m ((c, t) :: fs')) with
      (mismatch_run (snd (ring_mismatch_update m c t)) fs').
    by rewrite E.
Qed.

(** ** The walk *)
Definition run_steps (t : Z) (pat : pattern) (s : walk_state) : walk_state :=
  foldl (fun s st => STEP t (fst st) (snd st) s) s pat.

Lemma run_steps_app t p q s : run_steps t (p ++ q) s = run_steps t q (run_steps t p s).
Proof. apply foldl_app. Qed.

Lemma walk_blinks_steps t n s :
  walk_blinks t true n s = run_steps t (blinks n) s.
Proof.
  assert (forall n s, walk_blinks t false n (STEP t true STATUS_ON_MS s) = run_steps t (blinks (S n)) s) as Hb.
  { clear n s. intros n. induction n as [|n IH]; intros s; [done|]. cbn [walk_blinks]. by rewrite IH. }
  destruct n as [|n]; [done|]. cbn [walk_blinks]. apply Hb.
Qed.

Lemma walk_digit_steps t s d digit :
  walk_digit t s (d, digit) =
  run_steps t ((if (0 <? d)%nat then [(false, STATUS_DIGIT_GAP_MS)] else []) ++ digit_pattern digit) s.
Proof.
  rewrite run_steps_app. unfold walk_digit, digit_pattern.
  destruct (0 <? d)%nat; destruct (digit =? 0); try done; apply walk_blinks_steps.
Qed.

Lemma walk_digits_steps t ds s k : ds <> [] ->
  foldl (walk_digit t) s (imap (fun i d => (k + i, d))%nat ds) =
  run_steps t ((if (0 <? k)%nat then [(false, STATUS_DIGIT_GAP_MS)] else []) ++ digits_pattern ds) s.
Proof.
  revert s k. induction ds as [|d ds IH]; intros s k Hne; [done|].
  cbn [imap foldl]. rewrite Nat.add_0_r, walk_digit_steps.
  destruct ds as [|d2 ds]; [done|].
  assert (imap ((fun i d => (k + i, d))%nat ∘ S) (d2 :: ds) = imap (fun i d => (S k + i, d))%nat (d2 :: ds)) as ->.
  { apply imap_ext. intros i x _. cbn. f_equal. lia. }
  rewrite (IH _ (S k) ltac:(done)).
  change (0 <? S k)%nat with true. cbv iota. rewrite <- run_steps_app. f_equal.
  rewrite <- !app_assoc. done.
Qed.

Lemma run_steps_returned t pat a b : run_steps t pat (Returned a b) = Returned a b.
Proof. induction pat as [|x pat IH]; [done|]. exact IH. Qed.

Definition positive (pat : pattern) : Prop := Forall (fun s => 0 < snd s) pat.

Lemma total_nonneg pat : positive pat -> 0 <= total pat.
Proof.
  induction 1 as [|x pat Hx _ IH]; [done|].
  change (total (x :: pat)) with (snd x + total pat). lia.
Qed.

Lemma total_cons on ms pat : total ((on, ms) :: pat) = ms + total pat.
Proof. done. Qed.
Lemma run_steps_cons t on ms pat s : run_steps t ((on, ms) :: pat) s = run_steps t pat (STEP t on ms s).
Proof. done. Qed.

Lemma run_steps_measure pat a : positive pat -> 0 <= a -> a + total pat < 2 ^ 32 ->
  run_steps UINT32_MAX pat (Walking a) = Walking (a + total pat).
Proof.
  intros Hp. revert a. induction Hp as [|[on ms] pat Hx Hp IH]; intros a Ha Hb.
  - cbn. f_equal. lia.
  - pose proof (total_nonneg pat Hp). rewrite total_cons in *. cbn [snd] in Hx.
    rewrite run_steps_cons. cbn [STEP]. rewrite Z.eqb_refl. cbn [negb andb].
    rewrite u32_small by lia. rewrite IH by lia. f_equal. lia.
Qed.

Lemma run_steps_lookup t pat a : positive pat -> 0 <= a <= t -> a + total pat < 2 ^ 32 ->
  t < UINT32_MAX -> t < a + total pat ->
  exists at_, run_steps t pat (Walking a) = Returned at_ (lit_at pat (t - a)).
Proof.
  intros Hp. revert a. induction Hp as [|[on ms] pat Hx Hp IH]; intros a Ha Hb Ht Hlt; [cbn in *; lia|].
  pose proof (total_nonneg pat Hp). rewrite total_cons in *. cbn [snd] in Hx.
  rewrite run_steps_cons. cbn [STEP lit_at]. rewrite u32_small by lia.
  destruct (Z.eqb_spec t UINT32_MAX); [lia|]. cbn [negb andb].
  destruct (Z.ltb_spec t (a + ms)); destruct (Z.ltb_spec (t - a) ms); try lia.
  - exists a. apply run_steps_returned.
  - destruct (IH (a + ms)) as [at_ E]; try lia. exists at_.
    replace (t - a - ms) with (t - (a + ms)) by lia. exact E.
Qed.

(** The patterns of all 256 octets. *)
Definition octet_ok (octet : Z) : bool :=
  forallb (fun s => 0 <? snd s) (octet_pattern octet) && (total (octet_pattern octet) <? 2 ^ 30) &&
  (0 <? total (octet_pattern octet)) &&
  (read_blinks (octet_pattern octet) 0 0 =? octet) &&
  negb (bool_decide (octet_digits octet = [])).
Lemma octets_ok octet : 0 <= octet < 256 -> octet_ok octet = true.
Proof.
  intros Ho. assert (forallb (fun n => octet_ok (Z.of_nat n)) (seq 0 256) = true) as Hall
    by (vm_compute; reflexivity).
  rewrite forallb_forall in Hall. specialize (Hall (Z.to_nat octet) ltac:(apply in_seq; lia)).
  by rewrite Z2Nat.id in Hall by lia.
Qed.

Lemma walk_pattern iface octet t : 0 <= octet < 256 -> iface <> STATUS_IFACE_NONE ->
  walk_steps iface octet false t = run_steps t (octet_pattern octet) (Walking 0).
Proof.
  intros Ho Hi. unfold walk_steps. rewrite bool_decide_eq_false_2 by done. cbn [andb].
  pose proof (octets_ok octet Ho) as Hok. unfold octet_ok in Hok. to_prop.
  unfold octet_pattern. rewrite run_steps_app. cbn [run_steps foldl fst snd]. f_equal.
  change (imap pair (octet_digits octet)) with (imap (fun i d => (0 + i, d))%nat (octet_digits octet)).
  rewrite walk_digits_steps by done. done.
Qed.

(** * Properties *)
Section Properties.
Context `{!PstopLib} {PL : PstopLaws}.

(** The frame divides the ring.  With no override up and at least one machine
    configured, every physical pixel is some logical pixel rotated by the offset;
    logical pixel [i] shows the [owner]-th configured slot, whose segments cover the
    16 pixels in slot order; the pixel is green if and only if that
    slot's machine cleared the run (bonded, last reply OK and under 2 s old); and
    the state returned is the largest of the slots' states. *)
Theorem ring_frame_segments inp out :
  length out = RING_LEDS -> 0 <= in_now_ms inp < 2 ^ 64 ->
  in_locate inp = false -> in_mismatch inp = false -> configured_slots inp <> [] ->
  let cs := configured_slots inp in
  let px := snd (ring_frame inp out) in
  length px = RING_LEDS /\
  (forall q, (q < RING_LEDS)%nat -> exists i, (i < RING_LEDS)%nat /\ physical (in_offset inp) i = q) /\
  (forall i, (i < RING_LEDS)%nat -> exists slot c,
     cs !! owner (length cs) i = Some slot /\
     px !! physical (in_offset inp) i = Some c /\ c = slot_pixel inp slot i /\
     (is_green c <-> cleared (in_now_ms inp) (in_slots inp !!! slot))) /\
  (forall j i, (j < length cs)%nat -> (i < RING_LEDS)%nat ->
     (seg_start j (length cs) <= i < seg_start (S j) (length cs))%nat <-> j = owner (length cs) i) /\
  ring_state_val (fst (ring_frame inp out)) =
    foldr (fun slot => Z.max (ring_state_val (slot_state inp slot))) 0 cs.
Proof.
  intros Hout Hnow Hloc Hmis Hne cs px. pose proof codes_distinct as (Hcode & _ & _).
  destruct (compose_segments inp Hloc Hmis Hne) as (Hl & Hpx & Hst).
  split_and!.
  - unfold px, ring_frame. destruct (compose inp). cbn [snd]. by rewrite foldl_insert_length.
  - intros q. apply physical_surj.
  - intros i Hi. destruct (Hpx i Hi) as (slot & Hs & Hc). exists slot, (slot_pixel inp slot i).
    split; [done|]. split; [unfold px; by rewrite ring_frame_rotates|]. split; [done|]. split.
    + by apply green_pixel.
    + by apply cleared_green.
  - intros j i Hj Hi. apply owner_spec; [|done|done].
    pose proof (configured_lt inp) as Hmax. fold cs in Hmax. lia.
  - etransitivity; [|exact Hst]. unfold ring_frame. by destruct (compose inp).
Qed.

Lemma two_words_same x : two_words x x = x.
Proof.
  unfold two_words, u32. rewrite Z.shiftl_mul_pow2, Z.shiftr_div_pow2 by lia.
  pose proof (Z.div_mod x (2 ^ 32) ltac:(lia)). lia.
Qed.

(** C35: Green is never shown without a clearance.  The LED thread reads the
    comparator's sessions while the comparator works on them, each field at its own
    moment and the 64-bit stamp a word at a time.  In any frame it composes from such
    reads, the settings and the uplink, overrides included, a green pixel belongs to a
    slot that is configured and that was active, bonded, last answered OK, and last
    answered less than two seconds before the frame, each when it was read; so it is
    shown wrongly only if the session changed during those five reads, and in every
    other frame the session is cleared to run by all its fields at once. *)
Theorem green_means_cleared `{Os} cfg seen up until mm head w inp mm' head' w' out q c :
  collect cfg seen up until mm head w = (inp, mm', head', w') -> length out = RING_LEDS ->
  snd (ring_frame inp out) !! q = Some c -> is_green c ->
  exists slot, (slot < PSTOP_MAX_MACHINES)%nat /\
    configured (peers cfg !!! slot) = true /\ active (seen slot 0%nat) slot = true /\
    let s k := session_at (seen slot k) slot in let now := u64 (fst (k_uptime_get w)) in
    let reply := two_words (s_last_reply_ms (s 3%nat)) (s_last_reply_ms (s 4%nat)) in
    s_state (s 1%nat) = PSTOP_SESS_BONDED /\ s_last_msg (s 2%nat) = PSTOP_MESSAGE_OK /\
    0 < reply <= now /\ now - reply < RING_LINK_FRESH_MS /\
    (forall s0, s 1%nat = s0 -> s 2%nat = s0 -> s 3%nat = s0 -> s 4%nat = s0 ->
       s_state s0 = PSTOP_SESS_BONDED /\ s_last_msg s0 = PSTOP_MESSAGE_OK /\
       0 < s_last_reply_ms s0 <= now /\ now - s_last_reply_ms s0 < RING_LINK_FRESH_MS).
Proof.
  intros Hc Hout Hq Hg. unfold collect in Hc.
  destruct (k_uptime_get w) as [t w1]. cbn [fst].
  destruct (ring_mismatch_update mm (mismatches (seen PSTOP_MAX_MACHINES 0%nat)) (u64 t)) as [mism mm1].
  destruct (leds_locate_active until w1) as [loc w2]. injection Hc as <- _ _ _.
  set (inp := mk_ring_input _ _ _ _ _ _ _) in *.
  pose proof (u64_range t) as Hnow. pose proof codes_distinct as (Hcode & _ & _).
  assert (q < RING_LEDS)%nat as Hq16.
  { apply lookup_lt_Some in Hq. unfold ring_frame in Hq. destruct (compose inp). cbn [snd] in Hq.
    by rewrite foldl_insert_length, Hout in Hq. }
  destruct (physical_surj (in_offset inp) q Hq16) as (i & Hi & <-).
  rewrite ring_frame_rotates in Hq by done.
  assert (exists slot, slot ∈ configured_slots inp /\ is_green (slot_pixel inp slot i)) as (slot & Hin & Hpix).
  { destruct (in_locate inp) eqn:Hloc.
    { unfold compose in Hq. rewrite Hloc in Hq. cbn [snd] in Hq.
      destruct i as [|i]; [cbn in Hq; injection Hq as <-; destruct Hg as (? & _); done|].
      rewrite list_lookup_insert_ne in Hq by done. unfold fill in Hq.
      apply lookup_replicate in Hq as [-> _]. destruct Hg as (_ & ? & _). done. }
    destruct (in_mismatch inp) eqn:Hmis.
    { unfold compose in Hq. rewrite Hloc, Hmis in Hq. cbn [snd] in Hq.
      apply lookup_replicate in Hq as [-> _]. destruct Hg as (? & _). done. }
    destruct (configured_slots inp) as [|s0 cs] eqn:Hcs.
    { unfold compose in Hq. rewrite Hloc, Hmis, Hcs in Hq. cbn [snd length Nat.eqb] in Hq.
      apply lookup_replicate in Hq as [-> _]. destruct Hg as (? & _). done. }
    rewrite <- Hcs. destruct (compose_segments inp Hloc Hmis ltac:(by rewrite Hcs)) as (_ & Hpx & _).
    destruct (Hpx i Hi) as (slot & Hs & Hc). exists slot. split; [by apply list_elem_of_lookup_2 in Hs|].
    rewrite Hc in Hq. by injection Hq as <-. }
  apply green_pixel in Hpix; [|done|done].
  unfold configured_slots in Hin. apply list_elem_of_In, filter_In in Hin as [Hin Hconf].
  apply in_seq in Hin. exists slot. split; [lia|].
  assert (in_slots inp !!! slot = collect_slot cfg seen slot) as Hslot.
  { unfold inp. cbn [in_slots]. apply list_lookup_total_correct.
    unfold PSTOP_MAX_MACHINES in *. by do 4 (destruct slot as [|slot]; [done|]); lia. }
  rewrite Hslot in *. unfold collect_slot in *. change (in_now_ms inp) with (u64 t) in Hpix.
  unfold app_settings_peer_get, slot_ok in *.
  rewrite (proj2 (Z.leb_le 0 (Z.of_nat slot))), (proj2 (Z.ltb_lt (Z.of_nat slot) _)), Nat2Z.id in * by lia.
  cbn [andb negb] in *. destruct (active (seen slot 0%nat) slot).
  - destruct Hpix as (Hst & Hms & Hr & Hf). cbn [rs_state rs_last_msg rs_last_reply_ms rs_configured] in *.
    do 2 (split; [done|]). cbv zeta. do 4 (split; [done|]). intros s0 E1 E2 E3 E4.
    rewrite E1, E2, E3, E4, two_words_same in *. done.
  - destruct Hpix as (Hst & _). done.
Qed.
End Properties.

(** A blip never paints the ring.  From boot, whatever the frames' spacing, the
    filter answers that the mismatch colour be painted only after the counter has
    moved at three frames or more, the first of them at least half a second before. *)
Theorem mismatch_needs_persistence c0 fs c t :
  times_ok 0 (fs ++ [(c, t)]) ->
  fst (ring_mismatch_update (mismatch_run (ring_mismatch_init c0) fs) c t) = true ->
  (3 <= length (changes c0 (fs ++ [(c, t)])))%nat /\
  hd 0 (changes c0 (fs ++ [(c, t)])) + 500 <= t.
Proof.
  intros Hts Hp. pose proof (times_ok_app _ _ _ _ Hts) as [Hfs Ht].
  pose proof (filter_run fs _ _ 0 (filter_init c0) Hfs) as Hi.
  pose proof (filter_step _ _ _ c t Hi Ht) as Hs.
  destruct (ring_mismatch_update _ c t) as [painted m']. cbn [fst] in Hp.
  destruct Hs as (_ & _ & Hr). specialize (Hr Hp). cbn [app] in Hr.
  change c0 with (last_count (ring_mismatch_init c0)). by rewrite changes_app.
Qed.

(** A sustained fault is painted, and stays painted.  From any state the filter
    reached, once the counter moves at [t0] and from then on frames come at most
    [gap] apart and each finds that the counter moved less than a window (250 ms)
    before it, every frame later than [t0 + 3 * (250 + gap)] paints. *)
Theorem persistent_fault_paints c0 pre c1 t0 fs c t gap :
  0 <= gap -> times_ok 0 (pre ++ [(c1, t0)]) ->
  c1 <> last_count (mismatch_run (ring_mismatch_init c0) pre) ->
  steady gap c1 t0 t0 (fs ++ [(c, t)]) -> t0 + 3 * (250 + gap) <= t ->
  fst (ring_mismatch_update (mismatch_run (ring_mismatch_init c0) (pre ++ (c1, t0) :: fs)) c t) = true.
Proof.
  intros Hgap Hts Hne Hst Hlate. pose proof (times_ok_app _ _ _ _ Hts) as [Hpre Ht].
  pose proof (filter_run pre _ _ 0 (filter_init c0) Hpre) as Hi.
  set (m := mismatch_run (ring_mismatch_init c0) pre) in *.
  pose proof (fault_begins m _ _ c1 t0 gap Hi Ht Hne) as Hf.
  unfold mismatch_run. rewrite foldl_app. fold (mismatch_run (ring_mismatch_init c0) pre). fold m.
  change (foldl _ m ((c1, t0) :: fs)) with (mismatch_run (snd (ring_mismatch_update m c1 t0)) fs).
  pose proof (fi_start _ _ _ Hi).
  destruct (fault_run gap t0 (fs ++ [(c, t)]) (snd (ring_mismatch_update m c1 t0)) t0 t0)
    as (fs' & f & E & Hp); [done|lia|done|by rewrite update_count|by destruct fs| |].
  - unfold last_time. by rewrite foldl_app.
  - apply app_inj_tail in E as [<- <-]. exact Hp.
Qed.

(** The status pixel blinks the address.  For every octet, on a live uplink and
    without a fault, the pixel at [t] of the cycle is the uplink's colour exactly in
    the lit steps of the octet's pattern, the cycle is the pattern's length, and
    counting the blinks digit by digit gives the octet back; no uplink is dark, and
    a fault is a red strobe whatever the octet. *)
Theorem status_pixel_blinks_octet iface octet t :
  0 <= octet < 256 ->
  let pat := octet_pattern octet in
  (iface <> STATUS_IFACE_NONE ->
     read_blinks pat 0 0 = octet /\ status_cycle_ms iface octet false = total pat /\ 0 < total pat /\
     (0 <= t < status_cycle_ms iface octet false ->
        status_pixel iface octet false t = if lit_at pat t then iface_colour iface else rgb 0 0 0) /\
     iface_colour iface <> rgb 0 0 0) /\
  (0 <= t < status_cycle_ms STATUS_IFACE_NONE octet false ->
     status_pixel STATUS_IFACE_NONE octet false t = rgb 0 0 0) /\
  (0 <= t < status_cycle_ms iface octet true ->
     status_pixel iface octet true t = if t <? STATUS_STROBE_MS then rgb STATUS_BRIGHTNESS 0 0 else rgb 0 0 0).
Proof.
  intros Ho pat. pose proof (octets_ok octet Ho) as Hok. unfold octet_ok in Hok. to_prop.
  subst pat. set (pat := octet_pattern octet) in *.
  assert (positive pat) as Hpos.
  { apply Forall_forall. intros s Hs. apply list_elem_of_In in Hs.
    match goal with Hf : forallb _ _ = true |- _ => rewrite forallb_forall in Hf; apply Hf in Hs end.
    by apply Z.ltb_lt. }
  assert (total pat < 2 ^ 30) as Htot by done.
  split; [|split].
  - intros Hi.
    assert (status_cycle_ms iface octet false = total pat) as Hcycle.
    { unfold status_cycle_ms, walk. rewrite walk_pattern by done. fold pat.
      rewrite run_steps_measure by (done || lia). done. }
    split; [done|]. rewrite Hcycle. split; [done|]. split; [done|]. split; [|by destruct iface].
    + intros Ht. unfold status_pixel, walk. rewrite walk_pattern by done. fold pat.
      destruct (run_steps_lookup t pat 0) as [at_ ->]; try done; try (unfold UINT32_MAX; lia).
      rewrite Z.sub_0_r. cbn [snd]. by destruct (lit_at pat t).
  - change (status_cycle_ms STATUS_IFACE_NONE octet false) with 1000. intros Ht.
    unfold status_pixel, walk, walk_steps. rewrite bool_decide_eq_true_2 by done. cbn [STEP].
    by bool_case.
  - change (status_cycle_ms iface octet true) with 240. intros Ht. unfold status_pixel, walk, walk_steps.
    cbn [STEP]. change (u32 (0 + STATUS_STROBE_MS)) with 120. unfold STATUS_STROBE_MS.
    rewrite (proj2 (Z.eqb_neq t UINT32_MAX)) by (unfold UINT32_MAX; lia). cbn [negb andb].
    destruct (Z.ltb_spec t 120); [done|]. cbn [STEP]. change (u32 (120 + 120)) with 240.
    rewrite (proj2 (Z.eqb_neq t UINT32_MAX)) by (unfold UINT32_MAX; lia). cbn [negb andb].
    rewrite (proj2 (Z.ltb_lt t 240)) by lia. done.
Qed.

(** * Witnesses *)
From S2P Require Import Instances.

(** Slot 1's machine cleared the run at 4500 ms, slot 3's is silent. *)
Definition demo_ring_cfg : app_settings :=
  (zero_settings 5) <| peers ::= fun ps => <[3%nat := mk_peer 1 8890 7 true]>
                                           (<[1%nat := mk_peer 2 8890 9 true]> ps) |>
                    <| ring_offset := 3 |>.
Definition demo_ring_lockstep : lockstep :=
  lockstep_zero <| slot_active ::= <[1%nat := true]> |>
                <| sessions ::= <[1%nat := zero_session <| s_state := PSTOP_SESS_BONDED |>
                                             <| s_last_msg := 85 |> <| s_last_reply_ms := 4500 |>]> |>.
Definition demo_ring_machine : @os sim_os := sim_boot <| sim_clock := 5000 |>.
#[local] Abbreviation demo_collected :=
  (collect demo_ring_cfg (fun _ _ => demo_ring_lockstep) (mk_uplink UPLINK_WIFI 0) 0 (ring_mismatch_init 0) 4
     demo_ring_machine).
Definition demo_ring_input : ring_input := fst (fst (fst demo_collected)).
Definition demo_dark : list ring_rgb := replicate RING_LEDS (rgb 0 0 0).

Example ring_frame_segments_witness :
  exists c, snd (ring_frame demo_ring_input demo_dark) !! 7%nat = Some c /\ is_green c.
Proof.
  destruct (@ring_frame_segments wire_lib wire_laws demo_ring_input demo_dark eq_refl
    ltac:(vm_compute; split; congruence) eq_refl eq_refl ltac:(vm_compute; discriminate))
    as (_ & _ & Hpx & _).
  destruct (Hpx 4%nat ltac:(vm_compute; lia)) as (slot & c & Hs & Hc & _ & Hiff).
  exists c. split; [exact Hc|]. apply Hiff.
  assert (slot = 1%nat) as -> by (vm_compute in Hs; injection Hs as <-; reflexivity).
  vm_compute. intuition congruence.
Defined.

Example green_means_cleared_witness :
  exists slot, s_last_msg (session_at demo_ring_lockstep slot) = 85 /\
    snd (ring_frame demo_ring_input demo_dark) !! 7%nat = Some (rgb 0 68 0).
Proof.
  destruct demo_collected as [[[inp mm'] head'] w'] eqn:E.
  assert (inp = demo_ring_input) as -> by (unfold demo_ring_input; rewrite E; reflexivity).
  assert (snd (ring_frame demo_ring_input demo_dark) !! 7%nat = Some (rgb 0 68 0)) as Hpx
    by (vm_compute; reflexivity).
  destruct (@green_means_cleared wire_lib wire_laws _ _ _ _ _ _ _ _ _ _ _ _ demo_dark 7 _ E eq_refl Hpx)
    as (slot & _ & _ & _ & _ & Hm & _); [repeat split; vm_compute; reflexivity|].
  exists slot. split; [exact Hm|exact Hpx].
Defined.

(** A fault from 1000 ms on: the counter moves every 100 ms. *)
Definition demo_fault : list (Z * Z) :=
  map (fun i => (Z.of_nat i, 1000 + 100 * Z.of_nat i)) (seq 1 11).

Example mismatch_needs_persistence_witness :
  hd 0 (changes 0 (demo_fault ++ [(12, 2200)])) + 500 <= 2200.
Proof.
  refine (proj2 (mismatch_needs_persistence 0 demo_fault 12 2200 _ _)).
  - vm_compute. intuition congruence.
  - vm_compute. reflexivity.
Defined.

Example persistent_fault_paints_witness :
  fst (ring_mismatch_update (mismatch_run (ring_mismatch_init 0) ([] ++ (1, 1100) :: tail demo_fault))
         12 2200) = true.
Proof.
  refine (persistent_fault_paints 0 [] 1 1100 (tail demo_fault) 12 2200 100 _ _ _ _ _); try lia.
  - vm_compute. intuition congruence.
  - vm_compute. intuition congruence.
  - vm_compute. intuition congruence.
Defined.

Example status_pixel_blinks_octet_witness :
  read_blinks (octet_pattern 109) 0 0 = 109.
Proof.
  exact (proj1 (proj1 (status_pixel_blinks_octet STATUS_IFACE_WIFI 109 0 ltac:(lia)) ltac:(discriminate))).
Defined.
