(* ===== verification/PstopMain.v ===== *)
(** protective_stop from power-on: main.c, last_log.c, verbose.c and the thread of
    leds.c.

    [main] brings the modelled parts up in the order the code does, and returns the
    threads that Threads.v runs; the log of the boot before is taken from LogRing.v's
    ring; the verbosity goes to the log sources of this application; and the LED
    thread paints what Ring.v composes. *)

From S2P Require Import Prelude Platform Instances Verdict AppSettings Session Lockstep Threads Health Uplink Wifi Ring LogRing.
#[local] Open Scope Z_scope.

Definition DEFAULT_MACHINE_IP : Z := 2130706433.
Definition DEFAULT_MACHINE_PORT : Z := 8890.
Definition DEFAULT_MACHINE_ID : Z := 16909060.

(** * verbose.c *)

(** Zephyr's log sources, with the level of each backend's filter. *)
Record log_source := mk_source { src_name : option string; src_level : Z }.
Definition LOG_LEVEL_INF : Z := 3.
Definition LOG_LEVEL_DBG : Z := 4.
Definition prefixes : list string := ["pstop"; "app_settings"; "lockstep"; "estop_gpio"]%string.
Definition ours (name : string) : bool := existsb (fun p => String.prefix p name) prefixes.
(** [apply]: the filters and the flag. *)
Definition apply_source (on : bool) (s : log_source) : log_source :=
  match src_name s with
  | Some name => if ours name then mk_source (Some name) (if on then LOG_LEVEL_DBG else LOG_LEVEL_INF) else s
  | None => s
  end.
Definition verbose_apply (on : bool) (sources : list log_source) : list log_source * bool := (map (apply_source on) sources, on).
Section Verbose.
(** CONFIG_PROTECTIVE_STOP_VERBOSE with runtime filtering *)
Variable has_verbose : bool.
Definition pstop_verbose_init (sources : list log_source) (verbose : bool) : list log_source * bool :=
  if has_verbose then verbose_apply false sources else (sources, verbose).
Definition verbose_set (on : bool) (sources : list log_source) (verbose : bool) : Z * list log_source * bool :=
  if has_verbose then let '(sources, verbose) := verbose_apply on sources in (0, sources, verbose)
  else (if on then - ENOTSUP else 0, sources, verbose).
End Verbose.

(** * last_log.c *)

(** The retained ring and the copy of it taken at boot. *)
Record last_log := mk_last_log { ring : log_ring; snapshot : list Z }.
#[export] Instance eta_last_log : Eta last_log := fun s => mk_last_log (ring s) (snapshot s).
(** Zephyr's formatter hands a message over in pieces. *)
Definition ring_out (data : list Z) (s : last_log) : last_log := s <| ring ::= fun r => log_ring_write r data |>.
Definition last_log_init (s : last_log) : last_log :=
  mk_last_log (log_ring_reset (ring s)) (log_ring_copy (ring s) LOG_RING_SIZE).
Definition last_log_get (s : last_log) : list Z := snapshot s.

(** * leds.c's thread *)
Inductive strip := RingStrip | Pixel.
Class LedStrip `{Os} := {
  strip_ready : strip -> os -> bool;
  led_strip_update_rgb : strip -> list ring_rgb -> os -> Z * os;
}.

Section Leds.
Context `{!PstopLib} `{LedStrip}.
(** The strips the devicetree has. *)
Variables have_ring have_pixel : bool.

(** The thread's locals and [pixel_ok], with a log of what it painted. *)
Record painter := mk_painter {
  pt_mm : ring_mismatch; pt_wave : Z; pt_px : list ring_rgb; pt_last : option ring_state;
  pixel_ok : bool; painted : list (strip * list ring_rgb); pt_os : os;
}.
#[export] Instance eta_painter : Eta painter := fun p =>
  mk_painter (pt_mm p) (pt_wave p) (pt_px p) (pt_last p) (pixel_ok p) (painted p) (pt_os p).

Definition paint (s : strip) (px : list ring_rgb) (p : painter) : painter :=
  let '(_, o) := led_strip_update_rgb s px (pt_os p) in
  p <| pt_os := o |> <| painted ::= fun l => l ++ [(s, px)] |>.
Definition paint_pixel (inp : ring_input) (up : uplink_status) (p : painter) : painter :=
  if negb (pixel_ok p) then p else paint Pixel [pixel_colour inp up] p.

(** [leds_start] and the thread's first lines; [px0] is what its stack held. *)
Definition leds_start (mismatches : Z) (px0 : list ring_rgb) (o : os) : Z + painter :=
  if have_ring && negb (strip_ready RingStrip o) then inl (- ENODEV) else
  inr (mk_painter (ring_mismatch_init mismatches) 0 px0 None (have_pixel && strip_ready Pixel o) [] o).
(** A pass of the thread's loop, on what the other parts are then; [up] is read twice. *)
Definition leds_pass (cfg : app_settings) (seen : sightings) (up up' : uplink_status) (locate_until_ms : Z) (p : painter) : painter :=
  let '(inp, mm, wave, o) := collect cfg seen up locate_until_ms (pt_mm p) (pt_wave p) (pt_os p) in
  let '(st, px) := ring_frame inp (pt_px p) in
  let p := p <| pt_mm := mm |> <| pt_wave := wave |> <| pt_os := o |> <| pt_px := px |> <| pt_last := Some st |> in
  let p := if have_ring then paint RingStrip px p else p in
  if have_pixel then paint_pixel inp up' p else p.
End Leds.

(** * main.c *)
Section Main.
Context `{!PstopLib} `{Os} `{!Settings} `{!Hwinfo} `{!Gpio} `{!Sockets} `{!NetIf}.
Variable has_hwinfo : bool.
Variable hcfg : health_config.


(** The fallback peer. *)
Definition provision (cfg : app_settings) (w : os) : app_settings * os :=
  match app_settings_peer_get cfg 0 with
  | (_, Some peer) =>
      if configured peer then (cfg, w) else
      let '(_, cfg, w) := app_settings_set_peer cfg 0 DEFAULT_MACHINE_IP DEFAULT_MACHINE_PORT DEFAULT_MACHINE_ID w in
      (cfg, w)
  | (_, None) => (cfg, w)
  end.

(** What follows gates nothing: the uplinks, and the WiFi supervisor's first pass. *)
Definition pstop_wifi_start (first_wifi : option net_if) (work : bool) : Z * bool :=
  match first_wifi with None => (- ENODEV, work) | Some _ => (0, true) end.
End Main.

(** * Properties *)

(** The verbosity reaches every log source of this application and no other. *)
Theorem verbose_scope on sources i s : sources !! i = Some s ->
  fst (verbose_apply on sources) !! i =
    Some (match src_name s with
          | Some name => if ours name then mk_source (Some name) (if on then LOG_LEVEL_DBG else LOG_LEVEL_INF) else s
          | None => s
          end) /\ length (fst (verbose_apply on sources)) = length sources.
Proof. intros E. cbn. by rewrite list_lookup_fmap, E, length_map. Qed.

(** ** The log of the boot before *)
Definition log_boot (ws : list (list Z)) (s : last_log) : last_log := foldl (fun s d => ring_out d s) (last_log_init s) ws.

Lemma log_boot_spec ws s : ring (log_boot ws s) = write_all (log_ring_reset (ring s)) ws /\
  snapshot (log_boot ws s) = log_ring_copy (ring s) LOG_RING_SIZE.
Proof.
  unfold log_boot, write_all. change (log_ring_reset (ring s)) with (ring (last_log_init s)).
  change (log_ring_copy (ring s) LOG_RING_SIZE) with (snapshot (last_log_init s)). generalize (last_log_init s).
  induction ws as [|w ws IH]; intros s1; [done|]. apply (IH (ring_out w s1)).
Qed.

(** What the page calls the last log is the end of what the boot before this one logged,
    as much of it as the ring holds, whatever this boot has logged since; and nothing
    when the memory did not keep it. *)
Theorem last_log_tells s ws ws' : length (lr_buf (ring s)) = LOG_RING_SIZE ->
  last_log_get (log_boot ws' (log_boot ws s)) = newest LOG_RING_SIZE (concat ws) /\
  (forall r, log_ring_valid r = false -> last_log_get (log_boot ws' ((log_boot ws s) <| ring := r |>)) = []).
Proof.
  intros Hl. unfold last_log_get. split.
  - rewrite (proj2 (log_boot_spec ws' _)), (proj1 (log_boot_spec ws s)).
    rewrite (copy_holds _ (concat ws)); [by rewrite Nat.min_id| |apply size_pos].
    exact (write_all_holds ws _ _ (reset_holds _ Hl)).
  - intros r Hr. rewrite (proj2 (log_boot_spec ws' _)). cbn [ring]. unfold log_ring_copy. cbn. by rewrite Hr.
Qed.

(** ** The LEDs *)
Section LedProperties.
Context `{!PstopLib} `{LedStrip}.
Variables have_ring have_pixel : bool.

(** A frame is written whole: it does not depend on the buffer it is written to. *)
Lemma ring_frame_whole inp out out' : length out = RING_LEDS -> length out' = RING_LEDS ->
  ring_frame inp out = ring_frame inp out' /\ length (snd (ring_frame inp out)) = RING_LEDS.
Proof.
  intros Hl Hl'.
  assert (forall o, length o = RING_LEDS -> length (snd (ring_frame inp o)) = RING_LEDS) as Hlen.
  { intros o Ho. unfold ring_frame. destruct (compose inp) as [st logical]. cbn [snd].
    generalize (seq 0 RING_LEDS). intros l. revert o Ho. induction l as [|i l IH]; intros o Ho; [done|].
    cbn [foldl]. apply IH. by rewrite length_insert. }
  split; [|by apply Hlen]. rewrite (surjective_pairing (ring_frame inp out)), (surjective_pairing (ring_frame inp out')).
  f_equal; [unfold ring_frame; by destruct (compose inp)|].
  apply list_eq_same_length with RING_LEDS; [by apply Hlen|by apply Hlen|]. intros q x y Hq Hx Hy.
  destruct (physical_surj (in_offset inp) q Hq) as (k & Hk & <-).
  rewrite ring_frame_rotates in Hx, Hy by done. congruence.
Qed.

(** What a pass sees. *)
Record sight := mk_sight { s_cfg : app_settings; s_lockstep : sightings; s_up : uplink_status; s_up' : uplink_status; s_locate : Z }.
Definition leds_run (l : list sight) (p : painter) : painter :=
  foldl (fun p s => leds_pass have_ring have_pixel (s_cfg s) (s_lockstep s) (s_up s) (s_up' s) (s_locate s) p) p l.

(** Two painters that differ in their buffer's old contents alone. *)
Definition same_picture (p p' : painter) : Prop :=
  length (pt_px p) = RING_LEDS /\ length (pt_px p') = RING_LEDS /\ p' = p <| pt_px := pt_px p' |>.

Lemma pass_same s p p' : same_picture p p' ->
  let q := leds_pass have_ring have_pixel (s_cfg s) (s_lockstep s) (s_up s) (s_up' s) (s_locate s) p in
  q = leds_pass have_ring have_pixel (s_cfg s) (s_lockstep s) (s_up s) (s_up' s) (s_locate s) p' /\ length (pt_px q) = RING_LEDS.
Proof.
  intros (Hl & Hl' & ->). revert Hl'. generalize (pt_px p'). intros out Hl'. cbn [pt_px update] in Hl'. unfold leds_pass.
  change (pt_mm (p <| pt_px := out |>)) with (pt_mm p). change (pt_wave (p <| pt_px := out |>)) with (pt_wave p).
  change (pt_os (p <| pt_px := out |>)) with (pt_os p). change (pt_px (p <| pt_px := out |>)) with out.
  destruct (collect _ _ _ _ _ _ _) as [[[inp mm] wave] o]. destruct (ring_frame_whole inp out (pt_px p) Hl' Hl) as [-> Hlen].
  destruct (ring_frame inp (pt_px p)) as [st px] eqn:E.
  assert (length px = RING_LEDS) as Hpx by (pose proof (proj2 (ring_frame_whole inp (pt_px p) (pt_px p) Hl Hl)) as Hq; by rewrite E in Hq).
  split; [done|]. unfold paint_pixel, paint. destruct have_ring, have_pixel; cbn;
    repeat (destruct (led_strip_update_rgb _ _ _) as [? ?]; cbn); try (destruct (pixel_ok p); cbn); try done;
    by destruct (led_strip_update_rgb _ _ _).
Qed.

(** The thread shows nothing of its uninitialised frame: whatever its stack held, every
    frame it paints, the first included, is the same. *)
Theorem leds_no_ghosts mm px px' o l p p' : length px = RING_LEDS -> length px' = RING_LEDS ->
  leds_start have_ring have_pixel mm px o = inr p -> leds_start have_ring have_pixel mm px' o = inr p' ->
  painted (leds_run l p) = painted (leds_run l p').
Proof.
  intros Hl Hl'. unfold leds_start. destruct (_ && negb _); [done|]. intros [= <-] [= <-].
  set (p := mk_painter _ _ px _ _ _ _). set (p' := mk_painter _ _ px' _ _ _ _).
  assert (same_picture p p') as Hs by done. clearbody p p'. destruct l as [|s l]; [destruct Hs as (_ & _ & ->); done|].
  cbn [leds_run foldl]. by rewrite (proj1 (pass_same s p p' Hs)).
Qed.
End LedProperties.

(** ** The start *)
Section MainProperties.
Context `{!PstopLib} `{Os} `{!Settings} `{!Hwinfo} `{!Gpio} `{!Sockets}.
Variable has_hwinfo : bool.
Variable hcfg : health_config.

Definition default_machine : pstop_peer := mk_peer DEFAULT_MACHINE_IP DEFAULT_MACHINE_PORT DEFAULT_MACHINE_ID true.



End MainProperties.

(** * On the simulated machine *)

(** Slot 1 provisioned and slot 0 cleared by its owner: the next boot gives slot 0 the
    built-in machine again, and stores it. *)
Definition cleared_store : @os sim_os :=
  let '(_, c, w) := app_settings_init true (sim_boot : @os sim_os) in
  let '(_, c, w) := app_settings_set_peer c 0 3232235777 8890 7 w in
  let '(_, c, w) := app_settings_set_peer c 1 3232235778 8890 8 w in
  let '(_, c, w) := app_settings_clear_peer c 0 w in w.
Theorem cleared_slot_comes_back :
  let '(_, c, w) := app_settings_init true cleared_store in
  let '(c', w') := provision c w in
  peers c = [zero_peer; mk_peer 3232235778 8890 8 true; zero_peer; zero_peer] /\
  peers c' = [default_machine; mk_peer 3232235778 8890 8 true; zero_peer; zero_peer] /\
  peers (snd (fst (app_settings_init true w'))) = peers c'.
Proof. by vm_compute. Qed.

(** A boot that logged seven bytes in two pieces, seen from the next one. *)
Definition dusty : last_log := mk_last_log (mk_log_ring 77 12345 3 0 (replicate LOG_RING_SIZE 0)) [1].
Lemma last_log_tells_witness : last_log_get (log_boot [[9]] (log_boot [[72; 101; 108]; [108; 111; 33; 10]] dusty)) = [72; 101; 108; 108; 111; 33; 10].
Proof.
  rewrite (proj1 (last_log_tells dusty [[72; 101; 108]; [108; 111; 33; 10]] [[9]] ltac:(apply length_replicate))).
  apply newest_all. pose proof size_u32. cbn [concat app length]. lia.
Defined.
