(* ===== verification/Api.v ===== *)
(** The control plane's request handlers: [api.c].

    A handler takes the request and the device - the components' states, which
    the C code reaches through their functions, and the machine - and returns
    the response and the device.  Handlers are sequenced in a small state monad
    and written route by route as in the source; a body is built by the bounded
    appender [out] from the source's own format strings. *)

From Stdlib Require Import Ascii.
From S2P Require Import Prelude Printf Platform Instances AppSettings Session Lockstep Health HttpUtil Uplink Wifi Ring.
#[local] Open Scope Z_scope.

(** ** Responses *)
Record pstop_api_response := mk_rsp {
  rsp_status : Z;
  rsp_body : string;      (* the first [len] bytes of the body buffer *)
  rsp_auth_challenge : bool;
  rsp_restart : bool;
}.
#[export] Instance eta_rsp : Eta pstop_api_response := fun r =>
  mk_rsp (rsp_status r) (rsp_body r) (rsp_auth_challenge r) (rsp_restart r).
Definition init_rsp : pstop_api_response := mk_rsp 0 "" false false.

Record out := mk_out { o_cap : nat; o_text : string; o_overflow : bool }.
#[export] Instance eta_out : Eta out := fun o => mk_out (o_cap o) (o_text o) (o_overflow o).
Definition new_out (cap : nat) : out := mk_out cap "" false.

Definition out_printf (f : string) (args : list arg) (o : out) : out :=
  if o_overflow o then o
  else
    let text := format f args in
    if (o_cap o - String.length (o_text o) <=? String.length text)%nat
    then o <| o_overflow := true |>
    else o <| o_text ::= fun t => (t ++ text)%string |>.

Definition finish (o : out) (status : Z) (rsp : pstop_api_response) : pstop_api_response :=
  let '(o, status) :=
    if o_overflow o
    then (out_printf "{'ok':false,'error':'response too large'}" []
            (o <| o_text := "" |> <| o_overflow := false |>), 500)
    else (o, status) in
  rsp <| rsp_status := status |> <| rsp_body := o_text o |>.

Definition reply (cap : nat) (rsp : pstop_api_response) (status : Z) (f : string) (args : list arg)
  : pstop_api_response :=
  let text := format f args in
  let o := new_out cap in
  let o := if (cap <=? String.length text)%nat then o <| o_overflow := true |>
           else o <| o_text := text |> in
  finish o status rsp.

Definition bool_str (b : bool) : string := if b then "true" else "false".
Definition PBool (b : bool) : arg := PStr (bool_str b).

(** ** What the handlers reach *)
Record api_config := mk_api_config {
  ADMIN_PASSWORD : cstr;          (* CONFIG_PROTECTIVE_STOP_ADMIN_PASSWORD *)
  APP_VERSION_STRING : string;
  FW_SHA : string;
  ac_health : health_config;
  verbose_built : bool;           (* CONFIG_PROTECTIVE_STOP_VERBOSE with run-time filtering *)
  net_native : bool;              (* CONFIG_NET_NATIVE *)
  coredump_built : bool;          (* CONFIG_DEBUG_COREDUMP_BACKEND_FLASH_PARTITION *)
}.

(** Zephyr's stored coredump. *)
Class Coredump `{Os} := {
  coredump_has_stored : os -> Z;
  coredump_stored_size : os -> Z;
  (* offset, length: the count or an error, and the bytes *)
  coredump_copy : Z -> nat -> os -> (Z * list Z) * os;
}.

(** Zephyr's [json_obj_parse] with the two descriptors of the file: its result,
    and what it leaves in the zeroed struct. *)
Class JsonLib := {
  json_parse_settings : list ascii -> Z * (Z * Z);
  json_parse_wifi : list ascii -> Z * list (option cstr * option cstr);
}.
(** The result is the set of fields decoded, or negative; a decoded number is a
    32-bit one; an array never has more elements than the descriptor's. *)
Class JsonLaws `{JsonLib} : Prop := {
  json_settings_u32 : forall b r ro id, json_parse_settings b = (r, (ro, id)) ->
    0 <= ro < 2 ^ 32 /\ 0 <= id < 2 ^ 32;
  json_settings_fields : forall b, fst (json_parse_settings b) < 4;
  json_wifi_max : forall b, (length (snd (json_parse_wifi b)) <= PSTOP_WIFI_MAX)%nat;
}.

Definition PSTOP_DEFAULT_MACHINE_ID : Z := 16909060. (* 0x01020304 *)
Definition PSTOP_API_ADMIN_USER : cstr := to_chars "admin".
Definition PSTOP_API_BODY_MAX : nat := Z.to_nat 2048.
Definition WIFI_MASK : cstr := to_chars "********".

Section Device.
Context `{NetIf}.
Record device := mk_device {
  d_settings : app_settings;
  d_lockstep : lockstep;
  d_health : health;
  locate_until_ms : Z;      (* leds.c *)
  verbose : bool;           (* verbose.c *)
  d_wifi : wifi_sup;        (* wifi.c *)
  d_uplinks : uplinks;
  d_os : os;
}.
#[export] Instance eta_device : Eta device := fun d =>
  mk_device (d_settings d) (d_lockstep d) (d_health d) (locate_until_ms d) (verbose d)
    (d_wifi d) (d_uplinks d) (d_os d).

(** *** The monad *)
Definition act (A : Type) : Type := device -> A * device.
Definition api_ret {A} (a : A) : act A := fun d => (a, d).
Definition bind {A B} (m : act A) (k : A -> act B) : act B := fun d => let '(a, d) := m d in k a d.
Definition get {A} (f : device -> A) : act A := fun d => (f d, d).
End Device.

Declare Scope act_scope.
Notation "'let*' x ':=' m 'in' k" := (bind m (fun x => k))
  (at level 200, x pattern, right associativity) : act_scope.
#[local] Open Scope act_scope.

Section Api.
Context `{!PstopLib} `{Settings} `{!NetIf} `{!Base64} `{!Coredump} `{!JsonLib}.
Variable cfg : api_config.

(** *** The components' functions as actions on the device *)
Definition on_settings (f : app_settings -> os -> Z * app_settings * os) : act Z := fun d =>
  let '(r, st, w) := f (d_settings d) (d_os d) in (r, d <| d_settings := st |> <| d_os := w |>).
Definition on_health (f : health -> os -> Z * health * os) : act Z := fun d =>
  let '(r, h, w) := f (d_health d) (d_os d) in (r, d <| d_health := h |> <| d_os := w |>).
Definition uptime_get : act Z := fun d =>
  let '(t, w) := k_uptime_get (d_os d) in (t, d <| d_os := w |>).
Definition pstop_lockstep_request_reconfigure (slot : Z) : act Z := fun d =>
  let '(r, l) := request_reconfigure slot (d_lockstep d) in (r, d <| d_lockstep := l |>).
Definition pstop_lockstep_request_rebond (slot : Z) : act Z := fun d =>
  let '(r, l) := request_rebond slot (d_lockstep d) in (r, d <| d_lockstep := l |>).
Definition act_leds_locate (on : bool) : act unit := fun d =>
  let '(u, w) := leds_locate on (d_os d) in (tt, d <| locate_until_ms := u |> <| d_os := w |>).
Definition act_locate_active : act bool := fun d =>
  let '(b, w) := leds_locate_active (locate_until_ms d) (d_os d) in (b, d <| d_os := w |>).
Definition act_snapshot : act health_snapshot := fun d =>
  let '(s, h, w) := health_snapshot_get (ac_health cfg) (d_health d) (d_os d) in
  (s, d <| d_health := h |> <| d_os := w |>).
Definition act_uplink : act uplink_status :=
  get (fun d => if net_native cfg then uplink_status_get (d_uplinks d) (d_os d) else host_status).

(** verbose.c; the log filters it also sets are Zephyr's. *)
Definition pstop_verbose_set (on : bool) : act Z := fun d =>
  if verbose_built cfg then (0, d <| verbose := on |>)
  else ((if on then - ENOTSUP else 0), d).
Definition pstop_wifi_reload : act unit := fun d => (tt, d <| d_wifi ::= wifi_reload |>).

(** crash.c *)
Definition crash_size (w : os) : Z :=
  if negb (coredump_built cfg) then 0
  else if negb (coredump_has_stored w =? 1) then 0
  else let size := coredump_stored_size w in if 0 <? size then size else 0.
Definition crash_read (offset : Z) (len : nat) (w : os) : (Z * list Z) * os :=
  if coredump_built cfg then coredump_copy offset len w else ((- ENOTSUP, []), w).

(** A query value by its key's name. *)
Definition query (url : cstr) (key : string) (cap : nat) : Z * cstr :=
  let '(r, v) := http_query_get (Some url) (Some (to_chars key)) cap in (r, default [] v).
Definition flag (url : cstr) (key : string) : bool :=
  http_query_flag (Some url) (Some (to_chars key)).
Definition parse_u32 (v : cstr) : option Z :=
  let '(r, x) := http_parse_u32 (Some v) in if r =? 0 then x else None.
Definition parse_ipv4 (v : cstr) : option Z :=
  let '(r, x) := http_parse_ipv4 (Some v) in if r =? 0 then x else None.

Definition admin_ok (auth : cstr) (cap : nat) (rsp : pstop_api_response)
  : bool * pstop_api_response :=
  if (length (ADMIN_PASSWORD cfg) =? 0)%nat
  then (false, reply cap rsp 403 "{'ok':false,'error':'admin disabled: no password configured'}" [])
  else if http_basic_auth_ok (Some auth) (Some PSTOP_API_ADMIN_USER) (Some (ADMIN_PASSWORD cfg))
  then (true, rsp)
  else (false, (reply cap rsp 401 "{'ok':false,'error':'unauthorized'}" [])
                 <| rsp_auth_challenge := true |>).

Definition role_str (st : app_settings) : string :=
  pstop_aux_role_str (if is_operator st then PSTOP_AUX_ROLE_OPERATOR else PSTOP_AUX_ROLE_STOP_ONLY).

(** The event kinds' values, and [pstop_mm_last]'s packing. *)
Definition event_val (e : pstop_lockstep_event) : Z :=
  match e with
  | PSTOP_LOCKSTEP_EVENT_NONE => 0 | PSTOP_LOCKSTEP_EVENT_TIMEOUT => 1
  | PSTOP_LOCKSTEP_EVENT_CONTENT => 2
  end.
Definition pack_mm_last (d : pstop_lockstep_diag) : Z :=
  match last_kind d with
  | PSTOP_LOCKSTEP_EVENT_CONTENT =>
      Z.lor (Z.lor (Z.lor (Z.lor (u32 (Z.shiftl (event_val PSTOP_LOCKSTEP_EVENT_CONTENT) 28))
        (u32 (Z.shiftl (Z.land (mismatch_slot d) 3) 24)))
        (u32 (Z.shiftl (Z.of_nat (mismatch_offset d)) 16)))
        (u32 (Z.shiftl (fst (mismatch_verdict d)) 8))) (u32 (snd (mismatch_verdict d)))
  | PSTOP_LOCKSTEP_EVENT_TIMEOUT =>
      Z.lor (Z.lor (u32 (Z.shiftl (event_val PSTOP_LOCKSTEP_EVENT_TIMEOUT) 28))
        (u32 (Z.shiftl (Z.land (late_mask d) 3) 26))) (Z.shiftl 255 16)
  | PSTOP_LOCKSTEP_EVENT_NONE => 0
  end.

(** *** GET /state.json *)
Record totals := mk_totals {
  t_sent : Z; t_replies : Z; t_send_fail : Z; t_rebonds : Z; t_last_reply_ms : Z; t_last_msg : Z;
}.
Definition add_slot (l : lockstep) (t : totals) (slot : nat) : totals :=
  let s := session_at l slot in
  if negb (lockstep_slot_active (Z.of_nat slot) l) then t
  else
    let newer := negb (s_last_msg s =? PSTOP_MESSAGE_UNKNOWN) &&
                 (t_last_reply_ms t <=? s_last_reply_ms s) in
    mk_totals (u32 (t_sent t + s_sent s)) (u32 (t_replies t + s_replies s))
      (u32 (t_send_fail t + s_send_fail s)) (u32 (t_rebonds t + s_rebonds s))
      (if newer then s_last_reply_ms s else t_last_reply_ms t)
      (if newer then s_last_msg s else t_last_msg t).

Definition state_val (s : pstop_sess_state) : Z :=
  match s with
  | PSTOP_SESS_IDLE => 0 | PSTOP_SESS_BONDING => 1 | PSTOP_SESS_BONDED => 2
  | PSTOP_SESS_REJECTED => 3
  end.
Definition peer_of (st : app_settings) (slot : nat) : pstop_peer :=
  default zero_peer (snd (app_settings_peer_get st (Z.of_nat slot))).

(** One entry of [pstop_machines]. *)
Definition out_slot (st : app_settings) (l : lockstep) (o : out) (slot : nat) : out :=
  let s := session_at l slot in
  let p := peer_of st slot in
  let active := lockstep_slot_active (Z.of_nat slot) l in
  let cfgd z := if configured p then z else 0 in
  let act z := if active then z else 0 in
  out_printf ("%s{'cfg':%d,'ip':%u,'port':%u,'id':%u,'state':%d," ++
              "'sent':%u,'replies':%u,'send_fail':%u,'rebonds':%u," ++
              "'unbonds':%u,'hb_ms':%u,'last_msg':%u,'last_reply_ms':%llu}")
    [PStr (if (slot =? 0)%nat then "" else ","); PInt (cfgd 1); PInt (cfgd (ip p));
     PInt (cfgd (port p)); PInt (cfgd (peer_dev_id p)); PInt (act (state_val (s_state s)));
     PInt (act (s_sent s)); PInt (act (s_replies s)); PInt (act (s_send_fail s));
     PInt (act (s_rebonds s)); PInt (act (s_unbonds s)); PInt (act (s_hb_ms s));
     PInt (if active then s_last_msg s else PSTOP_MESSAGE_UNKNOWN);
     PInt (act (s_last_reply_ms s))] o.

(** One byte of an address. *)
Definition ip_byte (ipv4 n : Z) : Z := Z.land (Z.shiftr ipv4 n) 255.

Definition last_event_ms (d : pstop_lockstep_diag) : Z :=
  match last_kind d with
  | PSTOP_LOCKSTEP_EVENT_CONTENT => mismatch_uptime_ms d
  | PSTOP_LOCKSTEP_EVENT_TIMEOUT => late_uptime_ms d
  | PSTOP_LOCKSTEP_EVENT_NONE => 0
  end.

(** The body, from the values the handler reads. *)
Definition state_out (cap : nat) (st : app_settings) (l : lockstep) (now : Z) (up : uplink_status)
           (level : Z) (locate : bool) (idx dump : Z) : out :=
  let dg := diag l in
  let peer0 := peer_of st 0 in
  let '(hi0, lo0) := loop_health 0 l in
  let '(hi1, lo1) := loop_health 1 l in
  let t := foldl (add_slot l) (mk_totals 0 0 0 0 0 PSTOP_MESSAGE_UNKNOWN) slots in
  let o := new_out cap in
  let o := out_printf "{'uptime_ms':%llu,'fw_ver':'%s','fw_sha':'%s',"
             [PInt now; PStr (APP_VERSION_STRING cfg); PStr (FW_SHA cfg)] o in
  let o := out_printf "'role':'%s','device_id':%u,"
             [PStr (role_str st); PInt (app_settings_effective_device_id st)] o in
  let o := out_printf "'l0':%u,'l1':%u," [PInt (last_verdict 0 l); PInt (last_verdict 1 l)] o in
  let o := out_printf "'e_hi0':%d,'e_lo0':%d,'e_hi1':%d,'e_lo1':%d,"
             [PInt (bool_byte hi0); PInt (bool_byte lo0); PInt (bool_byte hi1); PInt (bool_byte lo1)] o in
  let o := out_printf "'pstop_peer_ip':%u,'pstop_peer_port':%u,"
             [PInt (if configured peer0 then ip peer0 else 0);
              PInt (if configured peer0 then port peer0 else 0)] o in
  let o := out_printf ("'pstop_sent':%u,'pstop_replies':%u,'pstop_last_msg':%u," ++
                       "'pstop_send_fail':%u,'pstop_rebonds':%u,'pstop_last_reply_ms':%llu,")
             [PInt (t_sent t); PInt (t_replies t); PInt (t_last_msg t); PInt (t_send_fail t);
              PInt (t_rebonds t); PInt (t_last_reply_ms t)] o in
  let o := out_printf ("'pstop_mismatch':%u,'pstop_mm_timeout':%u,'pstop_mm_content':%u," ++
                       "'pstop_mm_last':[%u,0,%llu],'pstop_core_lat_max_ms':[%u,%u]," ++
                       "'pstop_gated_ticks':%u,")
             [PInt (u32 (mismatches l + missed_deadlines l)); PInt (missed_deadlines l);
              PInt (mismatches l); PInt (pack_mm_last dg); PInt (last_event_ms dg);
              PInt (latency_max_ms dg !!! 0%nat); PInt (latency_max_ms dg !!! 1%nat);
              PInt (gated_ticks l)] o in
  let o := out_printf ("'health':%d,'ring_offset':%u,'ring_led1':%d,'active_iface':'%s'," ++
                       "'local_ip':'%u.%u.%u.%u','wifi_idx':%d,'crash_present':%d,")
             [PInt level; PInt (ring_offset st); PInt (bool_byte locate);
              PStr (uplink_kind_str (up_kind up)); PInt (ip_byte (up_ipv4 up) 24);
              PInt (ip_byte (up_ipv4 up) 16); PInt (ip_byte (up_ipv4 up) 8);
              PInt (ip_byte (up_ipv4 up) 0); PInt idx; PInt (bool_byte (0 <? dump))] o in
  let o := out_printf "'pstop_machines':[" [] o in
  let o := foldl (out_slot st l) o slots in
  out_printf "]}" [] o.

Definition pstop_api_state (cap : nat) : act pstop_api_response :=
  let* st := get d_settings in
  let* l := get d_lockstep in
  let* now := uptime_get in
  let* up := act_uplink in
  let* level := get (fun d => health_level (d_health d)) in
  let* locate := act_locate_active in
  let* idx := get (fun d => active_idx (d_wifi d)) in
  let* dump := get (fun d => crash_size (d_os d)) in
  api_ret (finish (state_out cap st l now up level locate idx dump) 200 init_rsp).

(** *** The peer table *)

(** The request's address, port and id, or the error text. *)
Definition slot_params (url : cstr) : (Z * Z * Z) + string :=
  match (let '(r, v) := query url "ip" 24 in if r =? 0 then parse_ipv4 v else None) with
  | None => inr "bad or missing ip"%string
  | Some ip =>
      match (let '(r, v) := query url "port" 24 in if r =? 0 then parse_u32 v else None) with
      | None => inr "bad or missing port"%string
      | Some port =>
          if (port <? 1) || (65535 <? port) then inr "bad or missing port"%string
          else
            let '(r, v) := query url "id" 24 in
            if r =? - ENOENT then inl (ip, port, PSTOP_DEFAULT_MACHINE_ID)
            else match (if r =? 0 then parse_u32 v else None) with
                 | Some id => if id =? 0 then inr "bad id"%string else inl (ip, port, id)
                 | None => inr "bad id"%string
                 end
      end
  end.

Definition set_slot (slot : Z) (url : cstr) : act (Z * (Z * Z * Z) * string) :=
  match slot_params url with
  | inr err => api_ret (- EINVAL, (0, 0, 0), err)
  | inl (ip, port, id) =>
      let* r := on_settings (fun st => app_settings_set_peer st slot ip (u16 port) id) in
      if negb (r =? 0) then api_ret (r, (ip, port, id), "settings write failed"%string)
      else
        let* _ := pstop_lockstep_request_reconfigure slot in
        api_ret (0, (ip, port, id), ""%string)
  end.

Definition clear_slot (slot : Z) : act Z :=
  let* r := on_settings (fun st => app_settings_clear_peer st slot) in
  if r =? 0 then let* _ := pstop_lockstep_request_reconfigure slot in api_ret r else api_ret r.

Definition ip_args (ip : Z) : list arg :=
  [PInt (ip_byte ip 24); PInt (ip_byte ip 16); PInt (ip_byte ip 8); PInt (ip_byte ip 0)].

Definition pstop_api_pstop_peer (url : cstr) (cap : nat) : act pstop_api_response :=
  if flag url "clear" then
    let* r := clear_slot 0 in
    api_ret (reply cap init_rsp (if r =? 0 then 200 else 500) "{'ok':%s,'cleared':true}" [PBool (r =? 0)])
  else
    let* res := set_slot 0 url in
    let '(r, (ip, port, _), err) := res in
    if negb (r =? 0) then
      api_ret (reply cap init_rsp (if r =? - EINVAL then 400 else 500) "{'ok':false,'error':'%s'}" [PStr err])
    else
      api_ret (reply cap init_rsp 200 "{'ok':true,'ip':'%u.%u.%u.%u','port':%u}"
             (ip_args ip ++ [PInt port])).

Definition pstop_api_pstop_peers (url : cstr) (cap : nat) : act pstop_api_response :=
  let '(r, val) := query url "slot" 8 in
  match (if r =? 0 then parse_u32 val else None) with
  | None => api_ret (reply cap init_rsp 400 "{'ok':false,'error':'missing slot'}" [])
  | Some slot =>
      if Z.of_nat PSTOP_MAX_MACHINES <=? slot
      then api_ret (reply cap init_rsp 400 "{'ok':false,'error':'slot out of range'}" [])
      else if flag url "rebond" then
        let* _ := pstop_lockstep_request_rebond slot in
        api_ret (reply cap init_rsp 200 "{'ok':true,'slot':%u,'rebond':true}" [PInt slot])
      else if flag url "clear" then
        let* r := clear_slot slot in
        api_ret (reply cap init_rsp (if r =? 0 then 200 else 500)
               "{'ok':%s,'slot':%u,'cleared':true}" [PBool (r =? 0); PInt slot])
      else
        let* res := set_slot slot url in
        let '(r, (ip, port, id), err) := res in
        if negb (r =? 0) then
          api_ret (reply cap init_rsp (if r =? - EINVAL then 400 else 500) "{'ok':false,'error':'%s'}" [PStr err])
        else
          api_ret (reply cap init_rsp 200
                 "{'ok':true,'slot':%u,'ip':'%u.%u.%u.%u','port':%u,'id':%u}"
                 ([PInt slot] ++ ip_args ip ++ [PInt port; PInt id]))
  end.

(** *** The other routes *)
Definition pstop_api_role (post : bool) (url auth : cstr) (cap : nat) : act pstop_api_response :=
  let '(ok, rsp) := admin_ok auth cap init_rsp in
  if negb ok then api_ret rsp
  else if post then
    let '(r, val) := query url "role" 16 in
    if negb (r =? 0) then api_ret (reply cap rsp 400 "{'ok':false,'error':'missing role'}" [])
    else
      match (if bool_decide (val = to_chars "operator") then Some true
             else if bool_decide (val = to_chars "stop_only") then Some false else None) with
      | None => api_ret (reply cap rsp 400 "{'ok':false,'error':'role must be stop_only or operator'}" [])
      | Some op =>
          let* r := on_settings (fun st => app_settings_set_operator st op) in
          if negb (r =? 0)
          then api_ret (reply cap rsp 500 "{'ok':false,'error':'settings write failed'}" [])
          else
            let* st := get d_settings in
            api_ret (reply cap rsp 200 "{'ok':true,'role':'%s','applied':true}" [PStr (role_str st)])
      end
  else
    let* st := get d_settings in
    api_ret (reply cap rsp 200 "{'ok':true,'role':'%s'}" [PStr (role_str st)]).

Definition pstop_api_admin_status (auth : cstr) (cap : nat) : act pstop_api_response :=
  let '(ok, rsp) := admin_ok auth cap init_rsp in
  if negb ok then api_ret rsp
  else
    let* l := get d_lockstep in
    let active := length (List.filter (fun slot => lockstep_slot_active (Z.of_nat slot) l) slots) in
    let* now := uptime_get in
    let* st := get d_settings in
    api_ret (reply cap rsp 200
           ("{'ok':true,'fw_ver':'%s','fw_sha':'%s','uptime_ms':%llu," ++
            "'device_id':%u,'role':'%s','sessions':%d}")
           [PStr (APP_VERSION_STRING cfg); PStr (FW_SHA cfg); PInt now;
            PInt (app_settings_effective_device_id st); PStr (role_str st); PInt (Z.of_nat active)]).

Definition pstop_api_admin_restart (auth : cstr) (cap : nat) : act pstop_api_response :=
  let '(ok, rsp) := admin_ok auth cap init_rsp in
  if negb ok then api_ret rsp
  else api_ret ((reply cap rsp 200 "{'ok':true,'message':'rebooting in 500 ms'}" [])
              <| rsp_restart := true |>).

Definition pstop_api_ring_offset (url : cstr) (cap : nat) : act pstop_api_response :=
  let '(r, val) := query url "n" 8 in
  match (if r =? 0 then parse_u32 val else None) with
  | None => api_ret (reply cap init_rsp 400 "{'ok':false,'error':'n must be 0..15'}" [])
  | Some n =>
      if 15 <? n then api_ret (reply cap init_rsp 400 "{'ok':false,'error':'n must be 0..15'}" [])
      else
        let* r := on_settings (fun st => app_settings_set_ring_offset st (u8 n)) in
        if negb (r =? 0)
        then api_ret (reply cap init_rsp 500 "{'ok':false,'error':'settings write failed'}" [])
        else api_ret (reply cap init_rsp 200 "{'ok':true,'ring_offset':%u}" [PInt n])
  end.

Definition pstop_api_ring_led1 (url : cstr) (cap : nat) : act pstop_api_response :=
  let '(r, val) := query url "on" 4 in
  if negb (r =? 0) || (negb (bool_decide (val = to_chars "0")) && negb (bool_decide (val = to_chars "1")))
  then api_ret (reply cap init_rsp 400 "{'ok':false,'error':'on must be 0 or 1'}" [])
  else
    let on := bool_decide (val !! 0%nat = Some (chr "1")) in
    let* _ := act_leds_locate on in
    let* st := get d_settings in
    api_ret (reply cap init_rsp 200 "{'ok':true,'ring_led1':%d,'ring_offset':%u}"
           [PInt (bool_byte on); PInt (ring_offset st)]).

(** *** Health *)
Definition out_warning (now : Z) (o : out) (iw : nat * health_warning) : out :=
  let '(i, w) := iw in
  out_printf "%s{'src':'%s','level':%d,'msg':'%s','count':%u,'age_s':%u}"
    [PStr (if (i =? 0)%nat then "" else ","); PStr (w_src w); PInt (w_level w); PStr (w_msg w);
     PInt (w_count w); PInt (u32 (u64 (now - w_first_ms w) / 1000))] o.

Definition health_out (cap : nat) (now : Z) (snap : health_snapshot) : out :=
  let c := snap_counters snap in
  let o := new_out cap in
  let o := out_printf ("{'ok':true,'level':%d,'presses':%u,'mismatch_events':%u," ++
             "'uptime_s':%u,'boots':%u,'flashes':%u,'otas':%u,'button_swaps':%u," ++
             "'button_rated_ops':%u,'button_wear_pct':%u,'fw_sha':'%s'," ++
             "'nvs_flushes':%u,'nvs_flush_fails':%u,'last_flush_age_s':%u," ++
             "'warnings':[")
             [PInt (snap_level snap); PInt (presses c); PInt (mismatch_events c); PInt (uptime_s c);
              PInt (boots c); PInt (flashes c); PInt (otas c); PInt (button_swaps c);
              PInt (snap_rated_ops snap); PInt (snap_wear_pct snap); PStr (FW_SHA cfg);
              PInt (snap_flushes snap); PInt (snap_flush_fails snap);
              PInt (snap_last_flush_age_s snap)] o in
  let o := foldl (out_warning now) o (imap pair (warnings (snap_board snap))) in
  out_printf "],'dropped':%u}" [PInt (dropped (snap_board snap))] o.

Definition pstop_api_health (cap : nat) : act pstop_api_response :=
  let* t := uptime_get in
  let* snap := act_snapshot in
  api_ret (finish (health_out cap (u64 t) snap) 200 init_rsp).

Definition pstop_api_health_reset (url auth : cstr) (cap : nat) : act pstop_api_response :=
  let '(ok, rsp) := admin_ok auth cap init_rsp in
  if negb ok then api_ret rsp
  else if negb (flag url "confirm")
  then api_ret (reply cap rsp 400 "{'ok':false,'error':'confirm=1 required'}" [])
  else
    let '(r, v) := query url "what" 8 in
    let what := if negb (r =? 0) then [] else v in
    let done r := reply cap rsp (if r =? 0 then 200 else 500) "{'ok':%s,'reset':'%s'}"
                    [PBool (r =? 0); PStr (of_chars what)] in
    if bool_decide (what = to_chars "button")
    then let* r := on_health (health_reset_button (ac_health cfg)) in api_ret (done r)
    else if bool_decide (what = to_chars "all")
    then let* r := on_health (health_reset_all (ac_health cfg)) in api_ret (done r)
    else api_ret (reply cap rsp 400 "{'ok':false,'error':'what must be button or all'}" []).

(** The response and the dump's size. *)
Definition pstop_api_coredump (auth : cstr) (cap : nat) : act (pstop_api_response * Z) :=
  let '(ok, rsp) := admin_ok auth cap init_rsp in
  if negb ok then api_ret (rsp, 0)
  else
    let* size := get (fun d => crash_size (d_os d)) in
    if size =? 0 then api_ret (reply cap rsp 404 "{'ok':false,'error':'no coredump'}" [], size)
    else api_ret (rsp <| rsp_status := 200 |>, size).

Definition pstop_api_admin_page (auth : cstr) (cap : nat) : act pstop_api_response :=
  let '(ok, rsp) := admin_ok auth cap init_rsp in
  api_ret (if ok then rsp <| rsp_status := 200 |> else rsp).

(** *** Admin settings *)
Definition settings_reply (cap : nat) (rsp : pstop_api_response) : act pstop_api_response :=
  let* st := get d_settings in
  api_ret (reply cap rsp 200 "{'ok':true,'ring_offset':%u,'device_id':%u,'device_id_pinned':%s}"
         [PInt (ring_offset st); PInt (app_settings_effective_device_id st);
          PBool (negb (device_id st =? 0))]).

Fixpoint reconfigure_all (ss : list nat) : act unit :=
  match ss with
  | [] => api_ret tt
  | slot :: ss => let* _ := pstop_lockstep_request_reconfigure (Z.of_nat slot) in reconfigure_all ss
  end.

Definition pstop_api_admin_settings (post : bool) (body : list ascii) (auth : cstr) (cap : nat)
  : act pstop_api_response :=
  let '(ok, rsp) := admin_ok auth cap init_rsp in
  if negb ok then api_ret rsp
  else if negb post then settings_reply cap rsp
  else
    let '(fields, (in_ring_offset, in_device_id)) := json_parse_settings body in
    if fields <=? 0
    then api_ret (reply cap rsp 400
                "{'ok':false,'error':'expected a JSON object with ring_offset and/or device_id'}" [])
    else if has_bit fields 0 && (15 <? in_ring_offset)
    then api_ret (reply cap rsp 400 "{'ok':false,'error':'ring_offset must be 0..15'}" [])
    else
      let* r := if has_bit fields 0
                then on_settings (fun st => app_settings_set_ring_offset st (u8 in_ring_offset))
                else api_ret 0 in
      if negb (r =? 0)
      then api_ret (reply cap rsp 500 "{'ok':false,'error':'settings write failed'}" [])
      else if has_bit fields 1 then
        let* r := on_settings (fun st => app_settings_set_device_id st in_device_id) in
        if negb (r =? 0)
        then api_ret (reply cap rsp 500 "{'ok':false,'error':'settings write failed'}" [])
        else let* _ := reconfigure_all slots in settings_reply cap rsp
      else settings_reply cap rsp.

(** *** WiFi networks *)

(** [strcpy] into a char array. *)
Definition strcpy (dst : list Z) (src : cstr) : list Z :=
  map char_code src ++ [0] ++ drop (S (length src)) dst.

Definition plain_char (c : ascii) : bool :=
  negb (Ascii.eqb c dquote || Ascii.eqb c "\" || (char_code c <? 32)).
Definition plain_string (s : cstr) : bool := forallb plain_char s.

(** The password stored for [ssid], if a network has that name. *)
Fixpoint stored_pass (st : app_settings) (idx : list nat) (ssid_ : cstr) : option (list Z) :=
  match idx with
  | [] => None
  | j :: idx =>
      match app_settings_wifi_get st (Z.of_nat j) with
      | (0, Some old) => if bool_decide (c_chars (ssid old) = ssid_) then Some (pass old)
                         else stored_pass st idx ssid_
      | _ => stored_pass st idx ssid_
      end
  end.

(** The loop over the request's networks; [nets] is the static it fills. *)
Fixpoint wifi_from_json (st : app_settings) (i : nat) (ins : list (option cstr * option cstr))
         (nets : list pstop_wifi_net) : option string * list pstop_wifi_net :=
  match ins with
  | [] => (None, nets)
  | (in_ssid, in_pass) :: ins =>
      let pass_ := default [] in_pass in
      match in_ssid with
      | None => (Some "ssid must be 1..32 plain characters"%string, nets)
      | Some ssid_ =>
          if (length ssid_ =? 0)%nat || (PSTOP_WIFI_SSID_MAX <? length ssid_)%nat ||
             negb (plain_string ssid_)
          then (Some "ssid must be 1..32 plain characters"%string, nets)
          else
            let set_ssid n := mk_wifi (strcpy (ssid n) ssid_) (pass n) in
            let set_pass p n := mk_wifi (ssid n) (strcpy (pass n) p) in
            let nets := alter set_ssid i nets in
            if bool_decide (pass_ = WIFI_MASK) then
              let nets := match stored_pass st (seq 0 PSTOP_WIFI_MAX) ssid_ with
                          | Some old => alter (set_pass (c_chars old)) i nets
                          | None => nets end in
              wifi_from_json st (S i) ins nets
            else if negb (length pass_ =? 0)%nat &&
                    ((length pass_ <? 8)%nat || (PSTOP_WIFI_PASS_MAX <? length pass_)%nat ||
                     negb (plain_string pass_))
            then (Some "pass must be empty (open network) or 8..64 plain characters"%string, nets)
            else wifi_from_json st (S i) ins (alter (set_pass pass_) i nets)
      end
  end.

(** One entry of the listing, and whether it is still the first. *)
Definition out_wifi (st : app_settings) (acc : out * bool) (i : nat) : out * bool :=
  let '(o, first) := acc in
  match app_settings_wifi_get st (Z.of_nat i) with
  | (0, Some net) =>
      if bool_decide (nth 0 (ssid net) 0 = 0) then (o, first)
      else (out_printf "%s{'ssid':'%s','pass':'%s'}"
              [PStr (if first then "" else ","); PStr (of_chars (c_chars (ssid net)));
               PStr (if negb (nth 0 (pass net) 0 =? 0) then of_chars WIFI_MASK else "")] o, false)
  | _ => (o, first)
  end.

Definition wifi_listing (cap : nat) (rsp : pstop_api_response) : act pstop_api_response :=
  let* st := get d_settings in
  let o := out_printf "{'ok':true,'networks':[" [] (new_out cap) in
  let '(o, _) := foldl (out_wifi st) (o, true) (seq 0 PSTOP_WIFI_MAX) in
  let* idx := get (fun d => active_idx (d_wifi d)) in
  let o := out_printf "],'active_idx':%d}" [PInt idx] o in
  api_ret (finish o 200 rsp).

Definition pstop_api_admin_wifi (post : bool) (body : list ascii) (auth : cstr) (cap : nat)
  : act pstop_api_response :=
  let '(ok, rsp) := admin_ok auth cap init_rsp in
  if negb ok then api_ret rsp
  else if negb post then wifi_listing cap rsp
  else
    let '(fields, networks) := json_parse_wifi body in
    if negb (fields =? BIT 0)
    then api_ret (reply cap rsp 400
                "{'ok':false,'error':'expected {\'networks\':[{\'ssid\',\'pass\'}]}, at most 4'}" [])
    else
      let* st := get d_settings in
      let '(err, nets) := wifi_from_json st 0 networks (replicate PSTOP_WIFI_MAX zero_wifi) in
      match err with
      | Some err => api_ret (reply cap rsp 400 "{'ok':false,'error':'%s'}" [PStr err])
      | None =>
          let* r := on_settings (fun st => app_settings_wifi_set_all st nets) in
          if negb (r =? 0)
          then api_ret (reply cap rsp 500 "{'ok':false,'error':'settings write failed'}" [])
          else let* _ := pstop_wifi_reload in wifi_listing cap rsp
      end.

Definition pstop_api_admin_verbose (toggle : bool) (auth : cstr) (cap : nat)
  : act pstop_api_response :=
  let '(ok, rsp) := admin_ok auth cap init_rsp in
  if negb ok then api_ret rsp
  else if toggle then
    let* v := get verbose in
    let* r := pstop_verbose_set (negb v) in
    if negb (r =? 0)
    then api_ret (reply cap rsp 501 "{'ok':false,'error':'verbose logging not built in'}" [])
    else let* v := get verbose in api_ret (reply cap rsp 200 "{'ok':true,'verbose':%s}" [PBool v])
  else let* v := get verbose in api_ret (reply cap rsp 200 "{'verbose':%s}" [PBool v]).
End Api.

(** * Lemmas *)

(** ** The appender *)

(** Two appenders of capacities [c] and [c'] that hold the same text, of at most
    [n] characters, and have not overflowed. *)
Definition agree (c c' : nat) (n : Z) (o o' : out) : Prop :=
  (o_overflow o = false /\ o_overflow o' = false) /\ (o_cap o = c /\ o_cap o' = c') /\
  o_text o = o_text o' /\ Z.of_nat (String.length (o_text o)) <= n.

Lemma agree_new c c' : agree c c' 0 (new_out c) (new_out c').
Proof. done. Qed.
Lemma agree_le c c' n m o o' : agree c c' n o o' -> n <= m -> agree c c' m o o'.
Proof. intros (H1 & H2 & H3 & H4) Hm. split_and!; try apply H1; try apply H2; try done; lia. Qed.

Lemma out_printf_agree c c' n f args o o' :
  agree c c' n o o' -> n + fwidth f args < Z.of_nat c -> (c <= c')%nat ->
  agree c c' (n + fwidth f args) (out_printf f args o) (out_printf f args o').
Proof.
  intros ((Ho & Ho') & (Hc & Hc') & Ht & Hl) Hn Hcc. unfold out_printf. rewrite Ho, Ho', Hc, Hc'.
  pose proof (format_width f args) as Hw. rewrite <- Ht.
  destruct (Nat.leb_spec (c - String.length (o_text o)) (String.length (format f args))); [lia|].
  destruct (Nat.leb_spec (c' - String.length (o_text o)) (String.length (format f args))); [lia|].
  unfold agree. cbn -[String.append]. rewrite <- Ht, string_length_app. split_and!; try done. lia.
Qed.

Lemma out_fold_agree {A} c c' (step : out -> A -> out) w xs :
  (forall o o' n x, x ∈ xs -> agree c c' n o o' -> n + w < Z.of_nat c ->
     agree c c' (n + w) (step o x) (step o' x)) ->
  0 <= w -> forall o o' n, agree c c' n o o' -> n + w * Z.of_nat (length xs) < Z.of_nat c ->
  agree c c' (n + w * Z.of_nat (length xs)) (foldl step o xs) (foldl step o' xs).
Proof.
  intros Hstep Hw. induction xs as [|x xs IH]; intros o o' n Ho Hn; cbn [foldl length] in *.
  - by rewrite Z.mul_0_r, Z.add_0_r.
  - rewrite Nat2Z.inj_succ in *. replace (n + w * Z.succ (Z.of_nat (length xs)))
      with ((n + w) + w * Z.of_nat (length xs)) in * by lia.
    apply IH; [|by apply Hstep; [left|..]; [done|nia]|done].
    intros. apply Hstep; [by right|done..].
Qed.

(** A finished body is whole, the same for every capacity it fits. *)
Lemma finish_agree c c' n o o' status rsp : agree c c' n o o' -> n < Z.of_nat c ->
  let r := finish o status rsp in
  r = finish o' status rsp /\ rsp_status r = status /\
  (String.length (rsp_body r) < c)%nat.
Proof.
  intros ((Ho & Ho') & _ & Ht & Hl) Hn. unfold finish. rewrite Ho, Ho', Ht.
  split; [done|]. split; [done|]. cbn. rewrite <- Ht. lia.
Qed.

(** A body is whole or replaced by an error: [reply]'s two outcomes. *)
Lemma reply_spec cap rsp status f args : (45 < cap)%nat ->
  let r := reply cap rsp status f args in
  ((String.length (format f args) < cap)%nat /\
     r = rsp <| rsp_status := status |> <| rsp_body := format f args |>) \/
  ((cap <= String.length (format f args))%nat /\
     r = rsp <| rsp_status := 500 |>
             <| rsp_body := format "{'ok':false,'error':'response too large'}" [] |>).
Proof.
  intros Hcap. unfold reply.
  destruct (Nat.leb_spec cap (String.length (format f args))) as [Hl|Hl]; [right|left]; (split; [done|]).
  - unfold finish. cbn -[String.length format Nat.leb Nat.sub]. unfold out_printf. cbn -[format Nat.leb Nat.sub].
    set (e := format _ _). assert (String.length e = 41%nat) as -> by reflexivity.
    rewrite Nat.sub_0_r. destruct (Nat.leb_spec cap 41); [lia|]. done.
  - done.
Qed.

(** Evaluate the constant part of a width. *)
Ltac eval_width :=
  unfold fwidth;
  repeat match goal with
  | |- context [lits ?t] => let n := eval vm_compute in (lits t) in change (lits t) with n
  | |- context [convs ?t] => let n := eval vm_compute in (convs t) in change (convs t) with n
  end; cbn [args_width arg_width].

(** Chain the appends of a body. *)
Ltac chain_out :=
  lazymatch goal with
  | |- agree _ _ _ (new_out _) _ => apply agree_new
  | |- agree _ _ _ (out_printf _ _ _) _ => apply out_printf_agree; [chain_out| |done]
  end.

Section BodyLemmas.
Context `{!PstopLib} `{Settings} `{!NetIf} `{!Base64} `{!Coredump} `{!JsonLib}.
Variable cfg : api_config.

Lemma body_max : Z.of_nat PSTOP_API_BODY_MAX = 2048.
Proof. unfold PSTOP_API_BODY_MAX. by rewrite Z2Nat.id. Qed.

Lemma out_slot_agree st l c c' n o o' slot :
  agree c c' n o o' -> n + 272 < Z.of_nat c -> (c <= c')%nat ->
  agree c c' (n + 272) (out_slot st l o slot) (out_slot st l o' slot).
Proof.
  intros Ho Hn Hc. unfold out_slot.
  match goal with |- context [out_printf ?f ?a o] =>
    assert (fwidth f a <= 272) as Hw by (eval_width; destruct (slot =? 0)%nat; cbn; lia)
  end.
  eapply agree_le; [apply out_printf_agree; [exact Ho|lia|done]|lia].
Qed.

Lemma kind_str_length k : (String.length (uplink_kind_str k) <= 4)%nat.
Proof. destruct k; cbn; lia. Qed.

Definition short_warning (w : health_warning) : Prop :=
  (String.length (w_src w) < HEALTH_SRC_LEN)%nat /\ (String.length (w_msg w) < HEALTH_MSG_LEN)%nat.

Lemma out_warning_agree now c c' n o o' i w :
  short_warning w ->
  agree c c' n o o' -> n + 160 < Z.of_nat c -> (c <= c')%nat ->
  agree c c' (n + 160) (out_warning now o (i, w)) (out_warning now o' (i, w)).
Proof.
  intros [Hs Hm] Ho Hn Hc. unfold out_warning. unfold HEALTH_SRC_LEN, HEALTH_MSG_LEN in *.
  match goal with |- context [out_printf ?f ?a o] =>
    assert (fwidth f a <= 160) as Hw by (eval_width; destruct (i =? 0)%nat; cbn [String.length]; lia)
  end.
  eapply agree_le; [apply out_printf_agree; [exact Ho|lia|done]|lia].
Qed.
End BodyLemmas.

Lemma fold_board `{Os} h w : h_board (fst (fold_locked h w)) = h_board h.
Proof.
  unfold fold_locked. destruct (now_uptime_s w) as [t w']. cbn.
  by destruct (negb (press_delta h =? 0) || negb (mismatch_delta h =? 0)).
Qed.

Section BodyBounds.
Context `{!PstopLib} `{Settings} `{!NetIf} `{!Base64} `{!Coredump} `{!JsonLib}.
Variable cfg : api_config.
Hypothesis strings_short :
  (String.length (APP_VERSION_STRING cfg) + String.length (FW_SHA cfg) <= 60)%nat.
Hypothesis role_short : forall r, (String.length (pstop_aux_role_str r) <= 16)%nat.

Lemma state_out_agree c' st l now up level locate idx dump :
  (PSTOP_API_BODY_MAX <= c')%nat ->
  agree PSTOP_API_BODY_MAX c' 2046
    (state_out cfg PSTOP_API_BODY_MAX st l now up level locate idx dump)
    (state_out cfg c' st l now up level locate idx dump).
Proof.
  intros Hc. pose proof body_max as Hbm. unfold state_out.
  destruct (loop_health 0 l) as [hi0 lo0], (loop_health 1 l) as [hi1 lo1]. cbv zeta.
  assert (String.length (role_str st) <= 16)%nat as Hr by apply role_short.
  pose proof (kind_str_length (up_kind up)) as Hk.
  eapply agree_le.
  - apply out_printf_agree; [|..|done]; [apply (out_fold_agree _ _ _ 272); [|done|chain_out|]|].
    all: try (rewrite Hbm; eval_width; change (length slots) with 4%nat; lia).
    intros. by apply out_slot_agree.
  - eval_width. change (length slots) with 4%nat. lia.
Qed.

Lemma health_out_agree c' now snap :
  (PSTOP_API_BODY_MAX <= c')%nat -> Forall short_warning (warnings (snap_board snap)) ->
  (length (warnings (snap_board snap)) <= HEALTH_MAX_WARNINGS)%nat ->
  agree PSTOP_API_BODY_MAX c' 2046 (health_out cfg PSTOP_API_BODY_MAX now snap)
    (health_out cfg c' now snap).
Proof.
  intros Hc Hshort Hmax. pose proof body_max as Hbm. unfold health_out. cbv zeta.
  assert (length (imap pair (warnings (snap_board snap))) <= 8)%nat as Hlen by (by rewrite length_imap).
  set (ws := imap pair (warnings (snap_board snap))) in *.
  assert (forall i w, (i, w) ∈ ws -> short_warning w) as Hws.
  { intros i w Hin. apply list_elem_of_lookup in Hin as [k Hk]. unfold ws in Hk.
    rewrite list_lookup_imap in Hk. apply fmap_Some in Hk as (x & Hx & [= -> ->]).
    rewrite Forall_lookup in Hshort. by eapply Hshort. }
  clearbody ws.
  eapply agree_le.
  - apply out_printf_agree; [|..|done]; [apply (out_fold_agree _ _ _ 160); [|done|chain_out|]|].
    all: try (rewrite Hbm; eval_width; lia).
    intros o o' n [i w] Hin. intros. apply out_warning_agree; eauto.
  - eval_width. lia.
Qed.
End BodyBounds.

(** A reply that fits the buffer keeps its status and its body. *)
Lemma reply_fits cap rsp status f args :
  fwidth f args < Z.of_nat cap ->
  reply cap rsp status f args = rsp <| rsp_status := status |> <| rsp_body := format f args |>.
Proof.
  intros Hw. unfold reply. pose proof (format_width f args).
  destruct (Nat.leb_spec cap (String.length (format f args))); [lia|done].
Qed.
Ltac reply_fits Hcap :=
  rewrite reply_fits by (eval_width; unfold PSTOP_API_BODY_MAX in Hcap; lia).

(** The request of [/api/pstop_peers] that sets a slot. *)
Definition peer_request (url : cstr) : option (nat * (Z * Z * Z)) :=
  let '(r, v) := query url "slot" 8 in
  match (if r =? 0 then parse_u32 v else None) with
  | Some slot =>
      if (Z.of_nat PSTOP_MAX_MACHINES <=? slot) || flag url "rebond" || flag url "clear" then None
      else match slot_params url with
           | inl p => Some (Z.to_nat slot, p) | inr _ => None end
  | None => None
  end.

Lemma parse_u32_range v x : parse_u32 v = Some x -> 0 <= x < 2 ^ 32.
Proof.
  unfold parse_u32, http_parse_u32.
  assert (forall o : option Z, (let '(r, x) := match o with Some v => (0, Some (u32 v)) | None => (- EINVAL, None) end
            in if r =? 0 then x else None) = Some x -> 0 <= x < 2 ^ 32) as Hg.
  { intros [z|]; [|done]. cbn [Z.eqb]. intros [= <-]. apply u32_range. }
  destruct v as [|c0 [|c1 s2]]; [done|apply Hg|].
  destruct (_ && _); [destruct s2; [done|]|]; apply Hg.
Qed.

Lemma slot_params_range url ip port id : slot_params url = inl (ip, port, id) ->
  1 <= port <= 65535 /\ 0 < id < 2 ^ 32.
Proof.
  unfold slot_params. destruct (query url "ip" 24) as [r0 v0], (query url "port" 24) as [r1 v1],
    (query url "id" 24) as [r2 v2].
  destruct (if r0 =? 0 then _ else _) as [a|]; [|done].
  destruct (if r1 =? 0 then parse_u32 v1 else None) as [p|] eqn:Ep; [|done].
  destruct (Z.ltb_spec p 1), (Z.ltb_spec 65535 p); cbn [orb]; try done.
  destruct (r2 =? - ENOENT).
  - intros [= <- <- <-]. unfold PSTOP_DEFAULT_MACHINE_ID. lia.
  - destruct (if r2 =? 0 then parse_u32 v2 else None) as [i|] eqn:Ei; [|done].
    destruct (Z.eqb_spec i 0); [done|]. intros [= <- <- <-]. split; [lia|].
    destruct (r2 =? 0); [|done]. apply parse_u32_range in Ei. lia.
Qed.

(** ** WiFi networks *)
Lemma char_code_of_nat x : 0 < x < 256 -> char_code (ascii_of_nat (Z.to_nat x)) = x.
Proof. intros. unfold char_code. rewrite nat_ascii_embedding by lia. lia. Qed.
Lemma char_code_range c : 0 <= char_code c < 256.
Proof. unfold char_code. pose proof (nat_ascii_bounded c). lia. Qed.

(** A C string never holds a NUL. *)
Definition no_nul (s : cstr) : Prop := Forall (fun c => char_code c <> 0) s.
Lemma c_chars_no_nul b : Forall (fun x => 0 <= x < 256) b -> no_nul (c_chars b).
Proof.
  induction b as [|x b IH]; cbn [c_chars]; [constructor|]. intros Hb. inversion_clear Hb.
  destruct (Z.eqb_spec x 0); [constructor|]. constructor; [cbv beta; rewrite char_code_of_nat; lia|by apply IH].
Qed.
Lemma c_chars_strcpy dst s : no_nul s -> c_chars (strcpy dst s) = s.
Proof.
  intros Hs. unfold strcpy. generalize (drop (S (length s)) dst) as rest. intros rest.
  induction Hs as [|c s Hc Hs IH]; [done|]. cbn [map app c_chars] in *.
  destruct (Z.eqb_spec (char_code c) 0); [done|]. by rewrite char_code_back, IH.
Qed.
Lemma c_chars_length b : last b = Some 0 -> (S (length (c_chars b)) <= length b)%nat.
Proof.
  induction b as [|x b IH]; [done|]. destruct b as [|y b].
  - cbn. intros [= ->]. cbn. lia.
  - intros Hl. set (l := y :: b) in *.
    change (c_chars (x :: l)) with (if x =? 0 then [] else ascii_of_nat (Z.to_nat x) :: c_chars l).
    specialize (IH Hl). destruct (x =? 0); cbn [length]; lia.
Qed.
Lemma strcpy_wf n s : (length s < n)%nat ->
  length (strcpy (replicate n 0) s) = n /\ last (strcpy (replicate n 0) s) = Some 0.
Proof.
  intros Hn. unfold strcpy. rewrite !length_app, length_map, length_drop, length_replicate. cbn [length].
  split; [lia|]. rewrite last_app. cbn [app]. rewrite drop_replicate.
  destruct (n - S (length s))%nat as [|k]; [done|]. rewrite last_cons.
  assert (last (replicate (S k) 0) = Some 0) as ->; [|done].
  clear Hn. induction k as [|k IH]; [done|]. exact IH.
Qed.

Lemma finish_status o status rsp : rsp_status (finish o status rsp) = status \/
  rsp_status (finish o status rsp) = 500.
Proof. unfold finish. destruct (o_overflow o); cbn; auto. Qed.
Lemma reply_status cap rsp status f args : rsp_status (reply cap rsp status f args) = status \/
  rsp_status (reply cap rsp status f args) = 500.
Proof. apply finish_status. Qed.
Lemma wifi_listing_keeps `{NetIf} cap rsp d : exists r, wifi_listing cap rsp d = (r, d) /\
  (rsp_status r = 200 \/ rsp_status r = 500).
Proof.
  unfold wifi_listing, bind, get, api_ret. cbv beta iota zeta.
  destruct (foldl (out_wifi (d_settings d)) _ _) as [o first]. eexists. split; [done|].
  apply finish_status.
Qed.

(** A network of the request that [wifi_from_json] takes, and what it makes of it. *)
Definition pass_plain (p : cstr) : bool :=
  (length p =? 0)%nat ||
  negb ((length p <? 8)%nat || (PSTOP_WIFI_PASS_MAX <? length p)%nat || negb (plain_string p)).
Definition net_ok (x : option cstr * option cstr) : bool :=
  match x.1 with
  | None => false
  | Some s => negb ((length s =? 0)%nat || (PSTOP_WIFI_SSID_MAX <? length s)%nat || negb (plain_string s)) &&
              (bool_decide (default [] x.2 = WIFI_MASK) || pass_plain (default [] x.2))
  end.
Definition merged (st : app_settings) (x : option cstr * option cstr) (n : pstop_wifi_net)
  : pstop_wifi_net :=
  let p := default [] x.2 in
  mk_wifi (strcpy (ssid n) (default [] x.1))
    (if bool_decide (p = WIFI_MASK)
     then match stored_pass st (seq 0 PSTOP_WIFI_MAX) (default [] x.1) with
          | Some old => strcpy (pass n) (c_chars old) | None => pass n end
     else strcpy (pass n) p).

Lemma alter_alter {A} (f g : A -> A) i (l : list A) : alter g i (alter f i l) = alter (fun x => g (f x)) i l.
Proof. revert i. induction l as [|x l IH]; intros [|i]; try done. exact (f_equal (cons x) (IH i)). Qed.

(** Name the password of a request's entry. *)
Ltac pass_of p :=
  pose (q := match p with Some s => s | None => [] end : cstr);
  repeat match goal with |- context [from_option ?f ?d p] => change (from_option f d p) with q end;
  clearbody q.

Lemma wifi_from_json_cons st i x ins nets : net_ok x = true ->
  wifi_from_json st i (x :: ins) nets = wifi_from_json st (S i) ins (alter (merged st x) i nets).
Proof.
  destruct x as [[s|] p]; [|done]. unfold net_ok, merged. cbn [fst snd wifi_from_json from_option].
  unfold id. destruct (_ || negb (plain_string s)); [done|]. cbn [negb andb].
  pass_of p.
  destruct (decide (q = WIFI_MASK)) as [Hm|Hm].
  - rewrite !(bool_decide_eq_true_2 _ Hm). intros _.
    destruct (stored_pass st _ s); by rewrite ?alter_alter.
  - rewrite !(bool_decide_eq_false_2 _ Hm). cbn [orb]. unfold pass_plain. rewrite alter_alter.
    destruct (length q =? 0)%nat; [done|]. cbn [orb negb andb].
    by destruct (_ || negb (plain_string q)).
Qed.
Lemma wifi_from_json_bad st i x ins nets : net_ok x = false ->
  (wifi_from_json st i (x :: ins) nets).1 <> None.
Proof.
  destruct x as [[s|] p]; [|done]. unfold net_ok. cbn [fst snd wifi_from_json from_option].
  destruct (_ || negb (plain_string s)); [done|]. cbn [negb andb].
  pass_of p.
  destruct (decide (q = WIFI_MASK)) as [Hm|Hm]; [by rewrite !(bool_decide_eq_true_2 _ Hm)|].
  rewrite !(bool_decide_eq_false_2 _ Hm). cbn [orb]. unfold pass_plain.
  destruct (length q =? 0)%nat; [done|]. cbn [orb negb andb].
  by destruct (_ || negb (plain_string q)).
Qed.

Lemma alter_middle {A} (f : A -> A) l1 x l2 : alter f (length l1) (l1 ++ x :: l2) = l1 ++ f x :: l2.
Proof. induction l1 as [|y l1 IH]; [done|]. exact (f_equal (cons y) IH). Qed.

Lemma wifi_from_json_spec st ins l1 l2 :
  (length ins <= length l2)%nat ->
  let r := wifi_from_json st (length l1) ins (l1 ++ l2) in
  (r.1 = None -> forallb net_ok ins = true) /\
  (forallb net_ok ins = true -> r = (None, l1 ++ zip_with (merged st) ins l2 ++ drop (length ins) l2)).
Proof.
  cbv zeta. revert l1 l2. induction ins as [|x ins IH]; intros l1 l2 Hl.
  { cbn. split; [done|]. intros _. by rewrite drop_0. }
  destruct l2 as [|n l2]; [cbn in Hl; lia|]. cbn in Hl. cbn [forallb].
  destruct (net_ok x) eqn:Hx.
  - rewrite wifi_from_json_cons, alter_middle by done.
    specialize (IH (l1 ++ [merged st x n]) l2 ltac:(lia)).
    rewrite length_app, <- app_assoc in IH. cbn [length app] in IH. rewrite Nat.add_1_r in IH.
    cbn [zip_with length drop andb]. by rewrite <- app_assoc in IH.
  - split; [|done]. intros Hn. by apply wifi_from_json_bad in Hn.
Qed.

Lemma stored_pass_find st s : length (wifi st) = PSTOP_WIFI_MAX ->
  stored_pass st (seq 0 PSTOP_WIFI_MAX) s =
  pass <$> List.find (fun n => bool_decide (c_chars (ssid n) = s)) (wifi st).
Proof.
  intros Hl. destruct st as [? ? ? ? ? ws]. cbn [AppSettings.wifi] in Hl.
  destruct ws as [|a [|b [|c [|d [|]]]]]; try done. clear Hl.
  cbn -[c_chars bool_decide app_settings_wifi_get].
  repeat match goal with |- context [app_settings_wifi_get ?st ?i] =>
    let v := eval vm_compute in (app_settings_wifi_get st i) in
    change (app_settings_wifi_get st i) with v; cbv iota
  end.
  repeat match goal with |- context [if bool_decide (c_chars (ssid ?n) = s) then _ else _] =>
    destruct (decide (c_chars (ssid n) = s)) as [E|E];
      [by rewrite !(bool_decide_eq_true_2 _ E)|rewrite !(bool_decide_eq_false_2 _ E); clear E]
  end. done.
Qed.

Lemma stored_pass_wf st s old : settings_wf st -> stored_pass st (seq 0 PSTOP_WIFI_MAX) s = Some old ->
  (length (c_chars old) <= PSTOP_WIFI_PASS_MAX)%nat.
Proof.
  intros [] Hold. rewrite stored_pass_find in Hold by done. apply fmap_Some in Hold as (n & Hn & ->).
  apply find_some in Hn as [Hn _]. rewrite Forall_forall in wf_wifi.
  destruct (wf_wifi n) as (_ & _ & Hlen & Hlast); [by apply list_elem_of_In|].
  apply c_chars_length in Hlast. lia.
Qed.

(** What a request stores is NUL-terminated arrays of the right sizes. *)
Lemma merged_wf st x : settings_wf st -> net_ok x = true -> wifi_wf (merged st x zero_wifi).
Proof.
  intros Hwf. destruct x as [[s|] p]; [|done]. unfold net_ok, merged, pass_plain.
  cbn [fst snd from_option ssid pass zero_wifi]. unfold id.
  destruct (Nat.eqb_spec (length s) 0), (Nat.ltb_spec PSTOP_WIFI_SSID_MAX (length s)); try done.
  intros Hp. split; [|split]; [by apply strcpy_wf; lia..|].
  assert (forall s', (length s' <= PSTOP_WIFI_PASS_MAX)%nat ->
    length (strcpy (replicate (S PSTOP_WIFI_PASS_MAX) 0) s') = S PSTOP_WIFI_PASS_MAX /\
    last (strcpy (replicate (S PSTOP_WIFI_PASS_MAX) 0) s') = Some 0) as Hq by (intros; apply strcpy_wf; lia).
  cbn [negb andb orb] in Hp. destruct (plain_string s); [|done].
  revert Hp. pass_of p. intros Hp. destruct (decide (q = WIFI_MASK)) as [Hm|Hm];
    rewrite ?(bool_decide_eq_true_2 _ Hm), ?(bool_decide_eq_false_2 _ Hm) in *.
  - destruct (stored_pass st (seq 0 PSTOP_WIFI_MAX) s) as [old|] eqn:E; [|done].
    apply Hq. by eapply stored_pass_wf.
  - cbn [negb andb orb] in Hp. apply Hq.
    destruct (Nat.eqb_spec (length q) 0); [lia|].
    destruct (Nat.ltb_spec PSTOP_WIFI_PASS_MAX (length q)); [|lia].
    by rewrite orb_true_r in Hp.
Qed.

(** What a request stores is NUL-terminated arrays of the right sizes. *)
Lemma wifi_from_json_wf st ins nets : settings_wf st ->
  (length ins <= PSTOP_WIFI_MAX)%nat ->
  wifi_from_json st 0 ins (replicate PSTOP_WIFI_MAX zero_wifi) = (None, nets) ->
  length nets = PSTOP_WIFI_MAX /\ Forall wifi_wf nets.
Proof.
  intros Hwf Hl Hrun.
  destruct (wifi_from_json_spec st ins [] (replicate PSTOP_WIFI_MAX zero_wifi)) as [H1 H2];
    [by rewrite length_replicate|].
  cbn [length app] in H1, H2. rewrite Hrun in H1, H2. specialize (H1 eq_refl).
  apply (f_equal snd) in H2; [|done]. cbn [snd] in H2. subst nets. rewrite forallb_forall in H1. split.
  - rewrite length_app, length_zip_with, length_drop, length_replicate. lia.
  - rewrite zip_with_replicate_r by done.
    apply Forall_app. split; [|apply Forall_drop, Forall_replicate; by repeat split].
    apply Forall_fmap, Forall_forall. intros x Hx. apply merged_wf; [done|].
    apply H1. by apply list_elem_of_In.
Qed.

(** A stored list replaces the table. *)
Lemma wifi_set_from_ok `{Settings} nets st w l1 l2 st' w' :
  wifi st = l1 ++ l2 -> length nets = length l2 ->
  wifi_set_from st (length l1) nets w = (0, st', w') -> st' = st <| wifi := l1 ++ nets |>.
Proof.
  revert st w l1 l2. induction nets as [|n nets IH]; intros st w l1 l2 Hst Hl Hrun.
  - destruct l2; [|done]. cbn in Hrun. injection Hrun as <- <-. rewrite <- Hst. by destruct st.
  - destruct l2 as [|x l2]; [done|]. cbn [wifi_set_from] in Hrun.
    destruct (settings_save_one _ _ _) as [r w1]. destruct (Z.eqb_spec r 0) as [->|Hr]; cbn [negb] in Hrun;
      [|by injection Hrun as ? _].
    replace (S (length l1)) with (length (l1 ++ [n])) in Hrun by (rewrite length_app; cbn; lia).
    apply (IH _ _ _ l2) in Hrun; [|cbn; rewrite Hst|by injection Hl].
    + rewrite Hrun, <- app_assoc. by destruct st.
    + replace (length l1) with (length l1 + 0)%nat by lia. by rewrite insert_app_r, <- app_assoc.
Qed.

(** The two strings of a stored network, and the password the listing shows. *)
Definition wifi_strings (n : pstop_wifi_net) : cstr * cstr := (c_chars (ssid n), c_chars (pass n)).
Definition listed (st : app_settings) : list pstop_wifi_net :=
  List.filter (fun n => negb (nth 0 (ssid n) 0 =? 0)) (wifi st).
Definition shown (n : pstop_wifi_net) : option cstr * option cstr :=
  (Some (c_chars (ssid n)), Some (if negb (nth 0 (pass n) 0 =? 0) then WIFI_MASK else [])).
Definition bytes_ok (n : pstop_wifi_net) : Prop :=
  Forall (fun x => 0 <= x < 256) (ssid n) /\ Forall (fun x => 0 <= x < 256) (pass n).

Lemma c_chars_empty b : c_chars b = [] <-> nth 0 b 0 = 0.
Proof. destruct b as [|x b]; [done|]. cbn. by destruct (Z.eqb_spec x 0). Qed.

Lemma listed_in st n : n ∈ listed st <-> n ∈ wifi st /\ c_chars (ssid n) <> [].
Proof.
  unfold listed. rewrite !list_elem_of_In, filter_In, negb_true_iff, Z.eqb_neq, c_chars_empty. done.
Qed.

Lemma stored_pass_listed st n : length (wifi st) = PSTOP_WIFI_MAX ->
  NoDup (map (fun n => c_chars (ssid n)) (listed st)) -> n ∈ listed st ->
  stored_pass st (seq 0 PSTOP_WIFI_MAX) (c_chars (ssid n)) = Some (pass n).
Proof.
  intros Hl Hnd Hn. rewrite stored_pass_find by done.
  destruct (List.find _ (wifi st)) as [m|] eqn:E.
  - apply find_some in E as [Hm E]. apply list_elem_of_In in Hm. apply bool_decide_eq_true in E.
    assert (m ∈ listed st) as Hm' by (apply listed_in; rewrite E; by apply listed_in in Hn as [_ ?]).
    apply list_elem_of_lookup in Hm' as [i Hi]. apply list_elem_of_lookup in Hn as [j Hj].
    assert (i = j) as ->; [|cbn; congruence].
    eapply NoDup_lookup; [exact Hnd|..]; rewrite list_lookup_fmap; [by rewrite Hi|]. by rewrite Hj, E.
  - apply listed_in in Hn as [Hn _]. apply list_elem_of_In in Hn.
    pose proof (find_none _ _ E n Hn) as Hf. by apply bool_decide_eq_false in Hf.
Qed.

Lemma merged_shown st n : length (wifi st) = PSTOP_WIFI_MAX ->
  NoDup (map (fun n => c_chars (ssid n)) (listed st)) -> n ∈ listed st -> bytes_ok n ->
  wifi_strings (merged st (shown n) zero_wifi) = wifi_strings n.
Proof.
  intros Hl Hnd Hn [Hs Hp]. unfold wifi_strings, merged, shown. cbn [fst snd from_option ssid pass]. unfold id.
  rewrite c_chars_strcpy by (by apply c_chars_no_nul). f_equal.
  destruct (Z.eqb_spec (nth 0 (pass n) 0) 0) as [Hz|Hz]; cbn [negb].
  - rewrite bool_decide_eq_false_2 by done. rewrite c_chars_strcpy by constructor.
    symmetry. by apply c_chars_empty.
  - rewrite bool_decide_eq_true_2 by done. rewrite stored_pass_listed by done.
    by rewrite c_chars_strcpy by (by apply c_chars_no_nul).
Qed.

Lemma net_ok_shown st n : settings_wf st -> n ∈ listed st -> plain_string (c_chars (ssid n)) = true ->
  net_ok (shown n) = true.
Proof.
  intros [] Hn Hp. apply listed_in in Hn as [Hn Hne]. rewrite Forall_forall in wf_wifi.
  destruct (wf_wifi n Hn) as (Hl & Hlast & _). apply c_chars_length in Hlast.
  unfold net_ok, shown. cbn [fst snd from_option]. unfold id. rewrite Hp.
  destruct (Nat.eqb_spec (length (c_chars (ssid n))) 0) as [E|_]; [by apply nil_length_inv in E|].
  destruct (Nat.ltb_spec PSTOP_WIFI_SSID_MAX (length (c_chars (ssid n)))); [lia|]. cbn [negb orb andb].
  destruct (negb (nth 0 (pass n) 0 =? 0)); cbn [negb orb]; [by rewrite bool_decide_eq_true_2|].
  by rewrite orb_true_r.
Qed.

(** * Concrete instances, for the witnesses *)

#[export] Instance sim_coredump : Coredump := {|
  coredump_has_stored _ := 1;
  coredump_stored_size _ := 5000;
  coredump_copy off n w :=
    let b := take n (drop (Z.to_nat off) (map (fun i => Z.of_nat i mod 251) (seq 0 5000))) in
    ((Z.of_nat (length b), b), w);
|}.

(** A tokenizer for the two documents: string literals and numbers. *)
Inductive json_token := JStr (s : cstr) | JNum (z : Z).
Fixpoint json_tokens (s : list ascii) (open : option cstr) (num : option Z) : list json_token :=
  let flush := match num with Some z => [JNum z] | None => [] end in
  match s with
  | [] => flush
  | c :: s =>
      match open with
      | Some t => if Ascii.eqb c dquote then JStr t :: json_tokens s None None
                  else json_tokens s (Some (t ++ [c])) None
      | None =>
          if Ascii.eqb c dquote then flush ++ json_tokens s (Some []) None
          else match dec_digit c with
               | Some d => json_tokens s None (Some (u32 (default 0 num * 10 + d)))
               | None => flush ++ json_tokens s None None
               end
      end
  end.
Fixpoint settings_fields (ts : list json_token) (acc : Z * (Z * Z)) : Z * (Z * Z) :=
  match ts with
  | JStr k :: JNum z :: ts =>
      let '(r, (ro, id)) := acc in
      if bool_decide (k = to_chars "ring_offset") then settings_fields ts (Z.lor r 1, (u32 z, id))
      else if bool_decide (k = to_chars "device_id") then settings_fields ts (Z.lor r 2, (ro, u32 z))
      else (- EINVAL, (ro, id))
  | [] => acc
  | _ => (- EINVAL, snd acc)
  end.
Fixpoint wifi_fields (ts : list json_token) : list (option cstr * option cstr) :=
  match ts with
  | JStr k :: JStr v :: JStr k' :: JStr v' :: ts =>
      if bool_decide (k = to_chars "ssid" /\ k' = to_chars "pass")
      then (Some v, Some v') :: wifi_fields ts else wifi_fields ts
  | _ => []
  end.
#[export] Instance sim_json : JsonLib := {|
  json_parse_settings b := settings_fields (json_tokens b None None) (0, (0, 0));
  json_parse_wifi b :=
    match json_tokens b None None with
    | JStr k :: ts => if bool_decide (k = to_chars "networks")
                      then (1, take PSTOP_WIFI_MAX (wifi_fields ts)) else (- EINVAL, [])
    | _ => (- EINVAL, [])
    end;
|}.

(** * Properties *)
Section Properties.
Context `{!PstopLib} `{Settings} `{!NetIf} `{!Base64} `{!Coredump} `{!JsonLib}.
Variable cfg : api_config.

(** The telemetry always fits.  With a version string and build id of at
    most 60 characters together, [/state.json] with every slot configured and
    every counter at its widest, and [/api/health] with a full warning board, are
    answered 200 with a body that is whole: shorter than the 2048-byte buffer and
    the one an unlimited buffer would get. *)
Theorem telemetry_bodies_fit d c' :
  (String.length (APP_VERSION_STRING cfg) + String.length (FW_SHA cfg) <= 60)%nat ->
  (forall r, String.length (pstop_aux_role_str r) <= 16)%nat ->
  Forall short_warning (warnings (h_board (d_health d))) ->
  (length (warnings (h_board (d_health d))) <= HEALTH_MAX_WARNINGS)%nat ->
  (PSTOP_API_BODY_MAX <= c')%nat ->
  let rs := fst (pstop_api_state cfg PSTOP_API_BODY_MAX d) in
  let rh := fst (pstop_api_health cfg PSTOP_API_BODY_MAX d) in
  (rsp_status rs = 200 /\ (String.length (rsp_body rs) < PSTOP_API_BODY_MAX)%nat /\
   rs = fst (pstop_api_state cfg c' d)) /\
  (rsp_status rh = 200 /\ (String.length (rsp_body rh) < PSTOP_API_BODY_MAX)%nat /\
   rh = fst (pstop_api_health cfg c' d)).
Proof.
  intros Hver Hrole Hshort Hmax Hc'. pose proof body_max as Hbm. cbv zeta. split.
  - unfold pstop_api_state, bind, act_uplink, act_locate_active, uptime_get, get, api_ret.
    destruct (k_uptime_get (d_os d)) as [t w]. cbv beta iota zeta. cbn [locate_until_ms d_os update eta_device eta].
    match goal with |- context [leds_locate_active ?a ?b] => destruct (leds_locate_active a b) as [loc w'] end.
    cbn [fst]. match goal with |- context [state_out cfg PSTOP_API_BODY_MAX ?st ?l ?now ?up ?lv ?lo ?idx ?dump] =>
      pose proof (state_out_agree cfg Hver Hrole c' st l now up lv lo idx dump Hc') as Ha end.
    destruct (finish_agree _ _ _ _ _ 200 init_rsp Ha) as (H1' & H2' & H3'); [lia|done].
  - unfold pstop_api_health, bind, get, api_ret, uptime_get, act_snapshot, health_snapshot_get.
    destruct (k_uptime_get (d_os d)) as [t w]. cbv beta iota zeta.
    cbn [d_health d_os update eta_device eta].
    pose proof (fold_board (d_health d) w) as Hb.
    destruct (fold_locked (d_health d) w) as [h w1]. cbn [fst] in Hb.
    destruct (health_button_level _ _ _) as [lv pct]. destruct (k_uptime_get w1) as [t2 w2].
    cbn [fst]. match goal with |- context [health_out cfg PSTOP_API_BODY_MAX ?now ?snap] =>
      pose proof (health_out_agree cfg Hver c' now snap Hc') as Ha end.
    cbn [snap_board] in Ha. rewrite <- Hb in Hshort, Hmax. specialize (Ha Hshort Hmax).
    destruct (finish_agree _ _ _ _ _ 200 init_rsp Ha) as (H1' & H2' & H3'); [lia|done].
Qed.

(** C12: A peer update takes effect, whole or not at all.  When a request for slot
    [slot] parses (a dotted address, a port of 1..65535, a nonzero 32-bit id or
    the default), a 200 means the settings name exactly that peer for exactly that
    slot, and the comparator's next tick makes the slot active exactly when it
    gets a socket and its port at its turn ([slot_opens], [slot_turn]), and an active
    slot holds a fresh session to that very address and id, due at once, with
    every other slot's session untouched; anything but 200 leaves the settings
    and the comparator as they were. *)
Theorem peer_update_takes_effect `{!Sockets} `{!ErrnoLaws} url cap d rsp d' slot ip port id now n gen l1 w1 :
  lockstep_wf (d_lockstep d) -> length (peers (d_settings d)) = PSTOP_MAX_MACHINES ->
  (PSTOP_API_BODY_MAX <= cap)%nat ->
  peer_request url = Some (slot, (ip, port, id)) ->
  pstop_api_pstop_peers url cap d = (rsp, d') ->
  begin_tick (d_settings d') now (d_lockstep d') n = (gen, l1, w1) ->
  (rsp_status rsp <> 200 -> d_settings d' = d_settings d /\ d_lockstep d' = d_lockstep d) /\
  (rsp_status rsp = 200 ->
     (slot < PSTOP_MAX_MACHINES)%nat /\ 1 <= port <= 65535 /\ 0 < id < 2 ^ 32 /\
     d_settings d' = (d_settings d) <| peers ::= <[slot := mk_peer ip port id true]> |> /\
     active l1 slot = slot_opens slot (slot_turn (d_settings d') slot (d_lockstep d') n) /\
     (active l1 slot = true ->
        let s := session_at l1 slot in
        s_peer_addr s = mk_sockaddr ip port /\ s_proto s = fresh_proto id /\
        s_state s = PSTOP_SESS_IDLE /\ pstop_session_due s now = true) /\
     forall j, j <> slot -> has_bit (reconfigure_requests (d_lockstep d)) j = false ->
       has_bit (rebond_requests (d_lockstep d)) j = false ->
       sessions l1 !! j = sessions (d_lockstep d) !! j).
Proof.
  intros Hwf Hpeers Hcap Hreq Hrun Htick. pose proof body_max as Hbm.
  unfold peer_request in Hreq. unfold pstop_api_pstop_peers in Hrun.
  destruct (query url "slot" 8) as [r v].
  destruct (if r =? 0 then parse_u32 v else None) as [sl|] eqn:Esl; [|done].
  assert (0 <= sl) as Hsl0 by (destruct (r =? 0); [|done]; apply parse_u32_range in Esl; lia).
  destruct (Z.leb_spec (Z.of_nat PSTOP_MAX_MACHINES) sl) as [|Hsl]; [done|].
  destruct (flag url "rebond"), (flag url "clear"); cbn [orb] in Hreq; try done.
  unfold set_slot in Hrun.
  destruct (slot_params url) as [[[ip' port'] id']|err] eqn:Ep; [|done].
  injection Hreq as <- -> -> ->. apply slot_params_range in Ep as [Hport Hid].
  unfold bind, on_settings, app_settings_set_peer, slot_ok in Hrun.
  rewrite (proj2 (Z.leb_le 0 sl)), (proj2 (Z.ltb_lt sl _)) in Hrun by lia. cbn [andb negb] in Hrun.
  unfold store_peer in Hrun.
  destruct (save_peer _ _ _) as [ret w]. rewrite u16_small in Hrun by lia.
  destruct (Z.eqb_spec ret 0) as [->|Hret]; cbn [negb] in Hrun.
  - unfold pstop_lockstep_request_reconfigure, request_reconfigure in Hrun.
    destruct (Z.ltb_spec sl 0); [lia|]. destruct (Z.leb_spec (Z.of_nat PSTOP_MAX_MACHINES) sl); [lia|].
    cbn [orb] in Hrun. unfold api_ret in Hrun. cbn -[reply] in Hrun.
    rewrite reply_fits in Hrun by (eval_width; lia). injection Hrun as <- <-. cbn [rsp_status].
    split; [done|]. intros _. cbn in Htick.
    split; [lia|]. split; [done|]. split; [done|]. split; [done|].
    pose proof (begin_tick_spec _ _ _ _ _ _ _ Htick) as (_ & _ & _ & _ & _ & Hoth).
    assert (has_bit (Z.lor (reconfigure_requests (d_lockstep d)) (BIT (Z.to_nat sl))) (Z.to_nat sl) = true)
      as Hbit by (by rewrite has_bit_lor, bool_decide_eq_true_2, orb_true_r).
    apply (begin_tick_reconfigured _ _ (Z.to_nat sl)) in Htick as [Hac Hact];
      [|by destruct Hwf; split|lia|exact Hbit].
    split; [|split].
    + rewrite Hac. cbn [peers d_settings update].
      rewrite list_lookup_total_insert, decide_True by lia. done.
    + intros Ha. destruct (Hact Ha) as (_ & Hs). cbn in Hs.
      rewrite list_lookup_total_insert, decide_True in Hs by lia. cbn in Hs. tauto.
    + intros j Hj Hr Hb. cbn in Hoth. destruct (Hoth j) as [_ ->].
      { by rewrite has_bit_lor, Hr, bool_decide_eq_false_2. }
      by rewrite Hb, andb_false_r.
  - unfold api_ret in Hrun. cbn -[reply] in Hrun.
    assert ((ret =? 0) = false) as E0 by lia. rewrite E0 in Hrun. cbn [negb] in Hrun.
    injection Hrun as <- <-. split; [done|].
    rewrite reply_fits by (eval_width; cbn; lia). cbn. destruct (ret =? - EINVAL); done.
Qed.

(** Posting the WiFi listing back changes nothing.  A client that posts the
    networks exactly as the listing shows them - real names, the mask in place of
    each password, nothing for an open network - gets every stored network back
    with its password, compacted to the front of the table, provided the names are
    plain and distinct; the answer is 200, or 500 when the store fails or the body
    does not fit. *)
Theorem wifi_listing_posts_back body auth cap d rsp d' :
  let st := d_settings d in
  (admin_ok cfg auth cap init_rsp).1 = true ->
  settings_wf st -> Forall bytes_ok (wifi st) ->
  Forall (fun n => plain_string (c_chars (ssid n)) = true) (listed st) ->
  NoDup (map (fun n => c_chars (ssid n)) (listed st)) ->
  json_parse_wifi body = (1, map shown (listed st)) ->
  pstop_api_admin_wifi cfg true body auth cap d = (rsp, d') ->
  (rsp_status rsp = 200 \/ rsp_status rsp = 500) /\
  (rsp_status rsp = 200 ->
     map wifi_strings (wifi (d_settings d')) =
       map wifi_strings (listed st) ++
       replicate (PSTOP_WIFI_MAX - length (listed st)) ([], []) /\
     reload (d_wifi d') = true).
Proof.
  cbv zeta. intros Hauth Hwf Hbytes Hplain Hnd Hjson Hrun.
  set (st := d_settings d) in *. pose proof (wf_wifi_len _ Hwf) as Hlen.
  assert (length (listed st) <= PSTOP_WIFI_MAX)%nat as Hle
    by (rewrite <- Hlen; apply filter_length_le).
  assert (forallb net_ok (map shown (listed st)) = true) as Hok.
  { apply forallb_forall. intros x Hx. apply in_map_iff in Hx as (n & <- & Hn).
    apply list_elem_of_In in Hn. rewrite Forall_forall in Hplain. eapply net_ok_shown; eauto. }
  destruct (wifi_from_json_spec st (map shown (listed st)) [] (replicate PSTOP_WIFI_MAX zero_wifi)) as [_ Hj];
    [by rewrite length_map, length_replicate|].
  specialize (Hj Hok). cbn [length app] in Hj.
  rewrite zip_with_replicate_r, drop_replicate, length_map in Hj by (by rewrite length_map).
  set (nets := _ ++ _) in Hj.
  assert (length nets = PSTOP_WIFI_MAX) as Hnl
    by (unfold nets; rewrite length_app, length_fmap, length_map, length_replicate; lia).
  unfold pstop_api_admin_wifi in Hrun. destruct (admin_ok cfg auth cap init_rsp) as [ok rsp0].
  cbn [fst] in Hauth. subst ok. cbn [negb] in Hrun. rewrite Hjson in Hrun.
  unfold bind at 1, get at 1 in Hrun. cbv beta iota in Hrun. fold st in Hrun.
  change (negb (1 =? BIT 0)) with false in Hrun. cbv beta iota in Hrun. fold st in Hrun. rewrite Hj in Hrun.
  unfold bind at 1, on_settings in Hrun. fold st in Hrun.
  unfold app_settings_wifi_set_all in Hrun. rewrite take_ge in Hrun by lia.
  destruct (wifi_set_from st 0 nets (d_os d)) as [[r st'] w] eqn:Hset.
  destruct (Z.eqb_spec r 0) as [->|Hr]; cbn [negb] in Hrun.
  - apply (wifi_set_from_ok _ _ _ [] (wifi st)) in Hset; [|done|by rewrite Hnl].
    assert (d_settings d' = st' /\ reload (d_wifi d') = true /\ (rsp_status rsp = 200 \/ rsp_status rsp = 500))
      as (-> & Hrel & Hst).
    { unfold bind, pstop_wifi_reload in Hrun.
      match type of Hrun with wifi_listing ?c ?r ?d0 = _ =>
        destruct (wifi_listing_keeps c r d0) as (rsp1 & E & Hst) end.
      rewrite E in Hrun. by injection Hrun as <- <-. }
    split; [done|]. intros _. split; [|done]. rewrite Hset. change (wifi (st <| wifi := [] ++ nets |>)) with nets.
    unfold nets. rewrite map_app. f_equal.
    + change (list_fmap _ _ ?f ?l) with (map f l). rewrite !map_map. apply map_ext_in. intros n Hn.
      apply list_elem_of_In in Hn. apply merged_shown; [done..|].
      rewrite Forall_forall in Hbytes. apply Hbytes. by apply listed_in in Hn as [? _].
    + exact (fmap_replicate wifi_strings _ zero_wifi).
  - unfold api_ret in Hrun. injection Hrun as <- _.
    pose proof (reply_status cap rsp0 500 "{'ok':false,'error':'settings write failed'}" []) as Hs.
    assert (rsp_status (reply cap rsp0 500 "{'ok':false,'error':'settings write failed'}" []) = 500) as E
      by (by destruct Hs).
    rewrite E. split; [by right|done].
Qed.
End Properties.

(** * Witnesses *)
Definition demo_api_config : api_config :=
  mk_api_config (to_chars "hunter22") "2.4.0" "0123abc" demo_health_cfg true true true.
Definition demo_device : @device sim_os sim_netif :=
  @mk_device sim_os sim_netif demo_cfg (fst demo_two) zero_health 0 false sup_zero
    (@mk_uplinks sim_os sim_netif (Some 3232235781) None) (machine (snd demo_two)).

Example telemetry_bodies_fit_witness :
  rsp_status (fst (@pstop_api_state wire_lib sim_os sim_netif sim_coredump demo_api_config
                     PSTOP_API_BODY_MAX demo_device)) = 200.
Proof.
  refine (proj1 (proj1 (@telemetry_bodies_fit wire_lib sim_os sim_netif sim_coredump demo_api_config
    demo_device PSTOP_API_BODY_MAX _ _ _ _ _))).
  - cbn. lia.
  - intros []; cbn; lia.
  - constructor.
  - cbn. unfold HEALTH_MAX_WARNINGS. lia.
  - lia.
Defined.

Definition demo_url : cstr := to_chars "/api/pstop_peers?slot=2&ip=10.0.0.7&port=8889&id=42".
Example peer_update_takes_effect_witness :
  let '(rsp, d') := pstop_api_pstop_peers demo_url
                      PSTOP_API_BODY_MAX demo_device in
  let '(gen, l1, n1) := begin_tick (d_settings d') 400 (d_lockstep d') (snd demo_two) in
  active l1 2 = true /\ s_peer_addr (session_at l1 2) = mk_sockaddr 167772167 8889.
Proof.
  destruct (pstop_api_pstop_peers demo_url
              PSTOP_API_BODY_MAX demo_device) as [rsp d'] eqn:E.
  destruct (begin_tick (d_settings d') 400 (d_lockstep d') (snd demo_two)) as [[gen l1] n1] eqn:T.
  assert (rsp_status rsp = 200) as Hs.
  { apply (f_equal fst) in E. cbn [fst] in E. rewrite <- E. vm_compute. reflexivity. }
  destruct (proj2 (@peer_update_takes_effect wire_lib sim_os sim_settings sim_netif
    sim_sockets sim_errno_laws demo_url PSTOP_API_BODY_MAX demo_device rsp d' 2%nat 167772167 8889 42
    400 (snd demo_two) gen l1 n1 demo_two_wf eq_refl (le_n _) ltac:(vm_compute; reflexivity) E T) Hs)
    as (_ & _ & _ & _ & Ha & Hf & _).
  assert (active l1 2 = true) as Hon.
  { rewrite Ha. apply (f_equal snd) in E. cbn [snd] in E. rewrite <- E. vm_compute. reflexivity. }
  split; [exact Hon|exact (proj1 (Hf Hon))].
Defined.

Definition demo_auth : cstr := to_chars "Basic YWRtaW46aHVudGVyMjI=".
Definition demo_network : pstop_wifi_net :=
  mk_wifi (strcpy (ssid zero_wifi) (to_chars "home")) (strcpy (pass zero_wifi) (to_chars "s3cretpass")).
Definition demo_wifi_device : @device sim_os sim_netif :=
  demo_device <| d_settings ::= fun st => st <| wifi := [zero_wifi; demo_network; zero_wifi; zero_wifi] |> |>.
Definition demo_wifi_body : list ascii :=
  to_chars (format "{'networks':[{'ssid':'home','pass':'********'}]}" []).
Example wifi_listing_posts_back_witness :
  let '(rsp, d') := pstop_api_admin_wifi demo_api_config true demo_wifi_body demo_auth PSTOP_API_BODY_MAX
                      demo_wifi_device in
  map wifi_strings (wifi (d_settings d')) =
    [(to_chars "home", to_chars "s3cretpass"); ([], []); ([], []); ([], [])].
Proof.
  destruct (pstop_api_admin_wifi demo_api_config true demo_wifi_body demo_auth PSTOP_API_BODY_MAX
              demo_wifi_device) as [rsp d'] eqn:E.
  assert (rsp_status rsp = 200) as Hs.
  { apply (f_equal fst) in E. cbn [fst] in E. rewrite <- E. vm_compute. reflexivity. }
  refine (proj1 (proj2 (@wifi_listing_posts_back sim_os sim_settings sim_netif sim_base64 sim_json
    demo_api_config demo_wifi_body demo_auth PSTOP_API_BODY_MAX demo_wifi_device rsp d' _ _ _ _ _ _ E) Hs)).
  - vm_compute. reflexivity.
  - split; [reflexivity| | | |reflexivity|].
    + repeat (constructor; [unfold peer_wf, u32_field; cbn; lia|]). constructor.
    + unfold u32_field. cbn. lia.
    + cbn. lia.
    + repeat (constructor; [repeat split; vm_compute; reflexivity|]). constructor.
  - apply (bool_decide_unpack _). vm_compute. exact I.
  - apply (bool_decide_unpack _). vm_compute. exact I.
  - apply (bool_decide_unpack _). vm_compute. exact I.
  - vm_compute. reflexivity.
Defined.
