(* ===== verification/Frames.v ===== *)
(** What a request can change: frame conditions of the handlers of [Api.v].

    A handler [respects] a preorder on devices when it only ever moves along it.
    The preorders used are "the types are kept" and "everything behind the admin
    credentials is as it was"; each is shown once per component call and carried
    through the handlers, route by route, by one tactic. *)

From Stdlib Require Import Ascii.
From S2P Require Import Prelude Printf Platform AppSettings Session Lockstep Health HttpUtil Uplink Wifi Ring Api.
#[local] Open Scope Z_scope.
#[local] Open Scope act_scope.

Section Logic.
Context `{NetIf}.

Definition respects {A} (R : device -> device -> Prop) (m : act A) : Prop := forall d, R d (m d).2.

Variable R : device -> device -> Prop.
Context `{!PreOrder R}.

Lemma respects_ret {A} (a : A) : respects R (api_ret a).
Proof. intros d. reflexivity. Qed.
Lemma respects_get {A} (f : device -> A) : respects R (get f).
Proof. intros d. reflexivity. Qed.
Lemma respects_bind {A B} (m : act A) (k : A -> act B) :
  respects R m -> (forall a, respects R (k a)) -> respects R (bind m k).
Proof.
  intros Hm Hk d. unfold bind. specialize (Hm d). destruct (m d) as [a d1]. cbn [snd] in Hm.
  etransitivity; [exact Hm|apply Hk].
Qed.
End Logic.

(** What a handler answers. *)
Definition returns `{NetIf} {A} (P : A -> Prop) (m : act A) : Prop := forall d, P (m d).1.
Lemma returns_ret `{NetIf} {A} (P : A -> Prop) a : P a -> returns P (api_ret a).
Proof. by intros Ha d. Qed.
Lemma returns_bind `{NetIf} {A B} (P : B -> Prop) (m : act A) (k : A -> act B) :
  (forall a, returns P (k a)) -> returns P (bind m k).
Proof. intros Hk d. unfold bind. destruct (m d) as [a d1]. apply Hk. Qed.

(** Walk through a handler; the component calls are left to the hints. *)
Create HintDb frames discriminated.
Ltac walk :=
  repeat first
    [ solve [eauto with frames]
    | apply respects_ret; [exact _]
    | apply respects_get; [exact _]
    | apply respects_bind; [exact _| |intros ?]
    | lazymatch goal with |- respects _ (match ?x with _ => _ end) => destruct x eqn:? end
    | progress cbv zeta ].

(** A response that schedules no restart. *)
Definition stays_up (rsp : pstop_api_response) : Prop := rsp_restart rsp = false.
Lemma finish_stays_up o status rsp : stays_up rsp -> stays_up (finish o status rsp).
Proof. unfold finish. by destruct (o_overflow o). Qed.
Lemma reply_stays_up cap rsp status f args : stays_up rsp -> stays_up (reply cap rsp status f args).
Proof. apply finish_stays_up. Qed.
Ltac walk_returns :=
  repeat first
    [ solve [eauto with frames]
    | apply returns_bind; intros ?
    | apply returns_ret
    | apply reply_stays_up; reflexivity
    | apply finish_stays_up; reflexivity
    | lazymatch goal with |- returns _ (match ?x with _ => _ end) => destruct x eqn:? end
    | progress cbv zeta ].

Section Frames.
Context `{!PstopLib} `{Settings} `{!NetIf} `{!Base64} `{!Coredump} `{!JsonLib}.
Variable cfg : api_config.

(** *** What the credentials guard *)
Record guarded := mk_guarded {
  g_operator : bool; g_device_id : Z; g_derived : Z; g_wifi : list pstop_wifi_net;
  g_verbose : bool; g_sup : wifi_sup; g_uplinks : uplinks;
  g_counters : health_counters; g_board : health_board;
}.
(** The health counters less what the ring and the clock add on their own. *)
Definition frozen (c : health_counters) : health_counters :=
  c <| presses := 0 |> <| mismatch_events := 0 |> <| uptime_s := 0 |>.
Definition guarded_by (d : device) : guarded :=
  let st := d_settings d in
  mk_guarded (is_operator st) (device_id st) (derived_id st) (wifi st) (verbose d) (d_wifi d)
    (d_uplinks d) (frozen (h_counters (d_health d))) (h_board (d_health d)).
Definition confined (d d' : device) : Prop := guarded_by d' = guarded_by d.
#[export] Instance confined_preorder : PreOrder confined.
Proof. split; unfold confined; [done|]. intros d1 d2 d3 E1 E2. congruence. Qed.

(** *** The types of the device's parts *)
Definition device_wf (d : device) : Prop := settings_wf (d_settings d) /\ lockstep_wf (d_lockstep d).
Definition keeps_wf (d d' : device) : Prop := device_wf d -> device_wf d'.
#[export] Instance keeps_wf_preorder : PreOrder keeps_wf.
Proof. split; [by intros d ?|]. intros d1 d2 d3 E1 E2 Hd. by apply E2, E1. Qed.

(** Nothing but the machine changed. *)
Definition read_only (d d' : device) : Prop :=
  d_settings d' = d_settings d /\ d_lockstep d' = d_lockstep d /\
  locate_until_ms d' = locate_until_ms d /\ guarded_by d' = guarded_by d.
#[export] Instance read_only_preorder : PreOrder read_only.
Proof. split; [done|]. intros d1 d2 d3 (?&?&?&?) (?&?&?&?). split_and!; congruence. Qed.

(** A preorder that does not look at the machine, the clock's or otherwise. *)
Class IgnoresOs (R : device -> device -> Prop) : Prop := {
  ignores_preorder :: PreOrder R;
  ignores_os : forall d w, R d (d <| d_os := w |>);
}.
#[export] Instance confined_os : IgnoresOs confined.
Proof. split; [exact _|done]. Qed.
#[export] Instance keeps_wf_os : IgnoresOs keeps_wf.
Proof. split; [exact _|]. intros d w Hd. exact Hd. Qed.
#[export] Instance read_only_os : IgnoresOs read_only.
Proof. split; [exact _|done]. Qed.

Section Clock.
Variable R : device -> device -> Prop.
Context `{!IgnoresOs R}.
Lemma respects_uptime : respects R uptime_get.
Proof. intros d. unfold uptime_get. destruct (k_uptime_get (d_os d)). apply ignores_os. Qed.
Lemma respects_locate_active : respects R act_locate_active.
Proof.
  intros d. unfold act_locate_active.
  match goal with |- context [leds_locate_active ?a ?b] => destruct (leds_locate_active a b) end.
  apply ignores_os.
Qed.
Lemma respects_settings (f : app_settings -> os -> Z * app_settings * os) :
  (forall d, R d (d <| d_settings := (f (d_settings d) (d_os d)).1.2 |>)) -> respects R (on_settings f).
Proof.
  intros Hf d. unfold on_settings. specialize (Hf d).
  destruct (f (d_settings d) (d_os d)) as [[r st] w]. cbn [fst snd] in *.
  etransitivity; [exact Hf|]. apply ignores_os.
Qed.
End Clock.

Lemma fold_frozen h w : frozen (h_counters (fold_locked h w).1) = frozen (h_counters h) /\
  h_board (fold_locked h w).1 = h_board h.
Proof.
  split; [|apply fold_board]. unfold fold_locked. destruct (now_uptime_s w) as [t w'].
  cbn [fst]. by destruct (negb (press_delta h =? 0) || negb (mismatch_delta h =? 0)).
Qed.

Lemma snapshot_confined : respects confined (act_snapshot cfg) /\ respects read_only (act_snapshot cfg).
Proof.
  enough (forall d, d_settings (act_snapshot cfg d).2 = d_settings d /\
    d_lockstep (act_snapshot cfg d).2 = d_lockstep d /\
    locate_until_ms (act_snapshot cfg d).2 = locate_until_ms d /\
    guarded_by (act_snapshot cfg d).2 = guarded_by d) as Hall.
  { split; intros d; [apply Hall|exact (Hall d)]. }
  intros d. unfold act_snapshot, health_snapshot_get.
  pose proof (fold_frozen (d_health d) (d_os d)) as [Hf Hb].
  destruct (fold_locked (d_health d) (d_os d)) as [h w]. cbn [fst] in Hf, Hb.
  destruct (health_button_level _ _ _) as [l p], (k_uptime_get w) as [t w']. cbn [snd].
  split_and!; try done. unfold guarded_by. cbn. by rewrite Hf, Hb.
Qed.

Lemma snapshot_keeps_wf : respects keeps_wf (act_snapshot cfg).
Proof.
  intros d. unfold act_snapshot.
  destruct (health_snapshot_get (ac_health cfg) (d_health d) (d_os d)) as [[s h] w]. by intros ?.
Qed.

(** *** The setters *)
Lemma settings_confined (f : app_settings -> os -> Z * app_settings * os) :
  (forall st w, let st' := (f st w).1.2 in
     is_operator st' = is_operator st /\ device_id st' = device_id st /\
     derived_id st' = derived_id st /\ wifi st' = wifi st) ->
  respects confined (on_settings f).
Proof.
  intros Hf. apply respects_settings; [exact _|]. intros d. unfold confined, guarded_by.
  destruct (Hf (d_settings d) (d_os d)) as (E1 & E2 & E3 & E4). cbn in *. congruence.
Qed.
Lemma set_peer_confined slot ip port id :
  respects confined (on_settings (fun st => app_settings_set_peer st slot ip port id)).
Proof.
  apply settings_confined. intros st w. unfold app_settings_set_peer, store_peer.
  destruct (negb (slot_ok slot)); [done|]. destruct (save_peer _ _ w) as [r w'].
  by destruct (r =? 0).
Qed.
Lemma clear_peer_confined slot :
  respects confined (on_settings (fun st => app_settings_clear_peer st slot)).
Proof.
  apply settings_confined. intros st w. unfold app_settings_clear_peer, store_peer.
  destruct (negb (slot_ok slot)); [done|]. destruct (save_peer _ _ w) as [r w'].
  by destruct (r =? 0).
Qed.
Lemma set_ring_offset_confined n :
  respects confined (on_settings (fun st => app_settings_set_ring_offset st n)).
Proof.
  apply settings_confined. intros st w. unfold app_settings_set_ring_offset.
  destruct (16 <=? n); [done|]. destruct (settings_save_one _ _ w) as [r w'].
  by destruct (negb (r =? 0)).
Qed.

Lemma wifi_set_from_wf nets st i w : settings_wf st -> Forall wifi_wf nets ->
  settings_wf (wifi_set_from st i nets w).1.2.
Proof.
  revert st i w. induction nets as [|n nets IH]; intros st i w Hwf Hn; [done|].
  apply Forall_cons in Hn as [Hn Hns]. cbn [wifi_set_from].
  destruct (settings_save_one _ _ w) as [r w']. destruct (negb (r =? 0)); [done|].
  apply IH; [|done]. destruct Hwf. split; try done; cbn; [by rewrite length_insert|by apply Forall_insert].
Qed.
Lemma store_peer_wf st slot p w : peer_wf p -> settings_wf st -> settings_wf (store_peer st slot p w).1.2.
Proof.
  intros Hp []. unfold store_peer. destruct (save_peer _ _ w) as [r w']. cbn [fst snd].
  destruct (r =? 0); [|by split]. split; try done; cbn; [by rewrite length_insert|by apply Forall_insert].
Qed.
(** Every setter keeps the statics' types. *)
Lemma setting_op_wf o st w : op_wf o -> settings_wf st -> settings_wf (run_setting_op st o w).1.2.
Proof.
  intros Ho Hwf. destruct o as [slot ip port id|slot|id|n|op|nets]; cbn [run_setting_op op_wf] in *.
  - unfold app_settings_set_peer. destruct (negb (slot_ok slot)); [done|]. by apply store_peer_wf.
  - unfold app_settings_clear_peer. destruct (negb (slot_ok slot)); [done|]. by apply store_peer_wf.
  - unfold app_settings_set_device_id. destruct (settings_save_one _ _ w) as [r w'].
    destruct (negb (r =? 0)); [done|]. destruct Hwf. by split.
  - unfold app_settings_set_ring_offset. destruct (Z.leb_spec 16 n); [done|].
    destruct (settings_save_one _ _ w) as [r w'].
    destruct (negb (r =? 0)); [done|]. destruct Hwf. split; done || (cbn; lia).
  - unfold app_settings_set_operator. destruct (settings_save_one _ _ w) as [r w'].
    destruct (negb (r =? 0)); [done|]. destruct Hwf. by split.
  - apply wifi_set_from_wf; [done|]. by apply Forall_take.
Qed.
Lemma settings_keeps_wf (f : app_settings -> os -> Z * app_settings * os) :
  (forall st w, settings_wf st -> settings_wf (f st w).1.2) -> respects keeps_wf (on_settings f).
Proof.
  intros Hf. apply respects_settings; [exact _|]. intros d [Hs Hl]. split; [by apply Hf|done].
Qed.

(** *** Requests to the comparator, the locator and the reset buttons *)
Lemma reconfigure_confined slot : respects confined (pstop_lockstep_request_reconfigure slot).
Proof.
  intros d. unfold pstop_lockstep_request_reconfigure.
  by destruct (request_reconfigure slot (d_lockstep d)).
Qed.
Lemma rebond_confined slot : respects confined (pstop_lockstep_request_rebond slot).
Proof. intros d. unfold pstop_lockstep_request_rebond. by destruct (request_rebond slot (d_lockstep d)). Qed.
Lemma locate_confined on : respects confined (act_leds_locate on).
Proof. intros d. unfold act_leds_locate. by destruct (leds_locate on (d_os d)). Qed.

Lemma requests_wf slot l : lockstep_wf l ->
  lockstep_wf (request_reconfigure slot l).2 /\ lockstep_wf (request_rebond slot l).2.
Proof.
  intros Hl. unfold request_reconfigure, request_rebond.
  destruct ((slot <? 0) || _); [done|]. by destruct Hl.
Qed.
Lemma reconfigure_keeps_wf slot : respects keeps_wf (pstop_lockstep_request_reconfigure slot).
Proof.
  intros d [Hs Hl]. unfold pstop_lockstep_request_reconfigure.
  pose proof (proj1 (requests_wf slot _ Hl)). by destruct (request_reconfigure slot (d_lockstep d)).
Qed.
Lemma rebond_keeps_wf slot : respects keeps_wf (pstop_lockstep_request_rebond slot).
Proof.
  intros d [Hs Hl]. unfold pstop_lockstep_request_rebond.
  pose proof (proj2 (requests_wf slot _ Hl)). by destruct (request_rebond slot (d_lockstep d)).
Qed.
Lemma locate_keeps_wf on : respects keeps_wf (act_leds_locate on).
Proof. intros d Hd. unfold act_leds_locate. by destruct (leds_locate on (d_os d)). Qed.
Lemma health_keeps_wf f : respects keeps_wf (on_health f).
Proof. intros d Hd. unfold on_health. by destruct (f (d_health d) (d_os d)) as [[? ?] ?]. Qed.
Lemma verbose_keeps_wf on : respects keeps_wf (pstop_verbose_set cfg on).
Proof. intros d Hd. unfold pstop_verbose_set. by destruct (verbose_built cfg). Qed.
Lemma reload_keeps_wf : respects keeps_wf pstop_wifi_reload.
Proof. by intros d Hd. Qed.
End Frames.

#[export] Hint Resolve set_peer_confined clear_peer_confined set_ring_offset_confined
  reconfigure_confined rebond_confined locate_confined : frames.
#[export] Hint Resolve reconfigure_keeps_wf rebond_keeps_wf locate_keeps_wf health_keeps_wf
  verbose_keeps_wf reload_keeps_wf snapshot_keeps_wf : frames.
#[export] Hint Extern 1 (respects confined (act_snapshot _)) => apply snapshot_confined : frames.
#[export] Hint Extern 1 (respects read_only (act_snapshot _)) => apply snapshot_confined : frames.
#[export] Hint Extern 1 (respects _ uptime_get) => apply respects_uptime; exact _ : frames.
#[export] Hint Extern 1 (respects _ act_locate_active) => apply respects_locate_active; exact _ : frames.
#[export] Hint Extern 1 (respects _ (act_uplink _)) => unfold act_uplink; apply respects_get; exact _ : frames.

Section Handlers.
Context `{!PstopLib} `{Settings} `{!NetIf} `{!Base64} `{!Coredump} `{!JsonLib}.
Variable cfg : api_config.
Variable cap : nat.

(** *** The routes that ask for no credentials *)
Lemma state_confined : respects confined (pstop_api_state cfg cap).
Proof. unfold pstop_api_state. walk. Qed.
Lemma set_slot_confined slot url : respects confined (set_slot slot url).
Proof. unfold set_slot. walk. Qed.
Lemma clear_slot_confined slot : respects confined (clear_slot slot).
Proof. unfold clear_slot. walk. Qed.
#[local] Hint Resolve set_slot_confined clear_slot_confined : frames.
Lemma peer_confined url : respects confined (pstop_api_pstop_peer url cap).
Proof. unfold pstop_api_pstop_peer. walk. Qed.
Lemma peers_confined url : respects confined (pstop_api_pstop_peers url cap).
Proof. unfold pstop_api_pstop_peers. walk. Qed.
Lemma ring_offset_confined url : respects confined (pstop_api_ring_offset url cap).
Proof. unfold pstop_api_ring_offset. walk. Qed.
Lemma ring_led1_confined url : respects confined (pstop_api_ring_led1 url cap).
Proof. unfold pstop_api_ring_led1. walk. Qed.
Lemma health_confined : respects confined (pstop_api_health cfg cap).
Proof. unfold pstop_api_health. walk. Qed.

(** They never schedule a restart either. *)
Lemma public_stays_up url :
  returns stays_up (pstop_api_state cfg cap) /\ returns stays_up (pstop_api_pstop_peer url cap) /\
  returns stays_up (pstop_api_pstop_peers url cap) /\ returns stays_up (pstop_api_ring_offset url cap) /\
  returns stays_up (pstop_api_ring_led1 url cap) /\ returns stays_up (pstop_api_health cfg cap).
Proof.
  unfold pstop_api_state, pstop_api_pstop_peer, pstop_api_pstop_peers, pstop_api_ring_offset,
    pstop_api_ring_led1, pstop_api_health.
  split_and!; walk_returns.
Qed.

(** *** Credentials *)
Definition authorized (auth : cstr) : bool :=
  negb (length (ADMIN_PASSWORD cfg) =? 0)%nat &&
  http_basic_auth_ok (Some auth) (Some PSTOP_API_ADMIN_USER) (Some (ADMIN_PASSWORD cfg)).
(** The two refusals. *)
Definition refusal : pstop_api_response :=
  if (length (ADMIN_PASSWORD cfg) =? 0)%nat
  then reply cap init_rsp 403 "{'ok':false,'error':'admin disabled: no password configured'}" []
  else (reply cap init_rsp 401 "{'ok':false,'error':'unauthorized'}" []) <| rsp_auth_challenge := true |>.

Lemma admin_ok_spec auth :
  admin_ok cfg auth cap init_rsp = if authorized auth then (true, init_rsp) else (false, refusal).
Proof.
  unfold admin_ok, authorized, refusal. destruct (length _ =? 0)%nat; [done|].
  by destruct (http_basic_auth_ok _ _ _).
Qed.
Lemma no_header_unauthorized : authorized [] = false.
Proof.
  unfold authorized, http_basic_auth_ok. destruct (length (ADMIN_PASSWORD cfg) =? 0)%nat; reflexivity.
Qed.

(** *** Every handler keeps the types *)
Lemma parse_ipv4_range v x : parse_ipv4 v = Some x -> u32_field x.
Proof.
  unfold parse_ipv4, http_parse_ipv4. destruct (parse_octets 4 v 0) as [y|] eqn:E; [|done].
  cbn [Z.eqb]. intros [= ->].
  apply parse_octets_dot in E as (a & r1 & _ & (_ & _ & Ha) & E); [|lia].
  pose proof (dec_value_range a).
  apply parse_octets_dot in E as (b & r2 & _ & (_ & _ & Hb) & E); [|lia].
  pose proof (dec_value_range b).
  apply parse_octets_dot in E as (c & r3 & _ & (_ & _ & Hc) & E); [|lia].
  pose proof (dec_value_range c).
  apply parse_octets_last in E as [(_ & _ & He) ->]; [|lia].
  pose proof (dec_value_range r3). unfold u32_field. lia.
Qed.
Lemma slot_params_ip url ip port id : slot_params url = inl (ip, port, id) -> u32_field ip.
Proof.
  unfold slot_params. destruct (query url "ip" 24) as [r0 v0], (query url "port" 24) as [r1 v1],
    (query url "id" 24) as [r2 v2].
  destruct (if r0 =? 0 then parse_ipv4 v0 else None) as [a|] eqn:E; [|done].
  assert (u32_field a) as Ha by (destruct (r0 =? 0); [by apply parse_ipv4_range in E|done]).
  destruct (if r1 =? 0 then _ else _); [|done]. destruct ((z <? 1) || _); [done|].
  destruct (r2 =? - ENOENT); [by intros [= <- _ _]|].
  destruct (if r2 =? 0 then _ else _); [|done]. destruct (z0 =? 0); [done|]. by intros [= <- _ _].
Qed.
Lemma set_slot_keeps_wf slot url : respects keeps_wf (set_slot slot url).
Proof.
  unfold set_slot. destruct (slot_params url) as [[[ip port] id]|err] eqn:E; [|walk].
  pose proof (slot_params_ip _ _ _ _ E). apply slot_params_range in E as [Hp Hid].
  apply respects_bind; [exact _| |intros r; walk].
  apply settings_keeps_wf. intros st w. apply (setting_op_wf (OpSetPeer slot ip (u16 port) id)).
  split; [done|]. split; [apply u16_range|]. unfold u32_field. cbn. lia.
Qed.

Lemma op_keeps_wf o : op_wf o -> respects keeps_wf (on_settings (fun st => run_setting_op st o)).
Proof. intros Ho. apply settings_keeps_wf. intros st w. by apply setting_op_wf. Qed.
Lemma clear_peer_keeps_wf slot : respects keeps_wf (on_settings (fun st => app_settings_clear_peer st slot)).
Proof. by apply (op_keeps_wf (OpClearPeer slot)). Qed.
Lemma set_ring_offset_keeps_wf n :
  respects keeps_wf (on_settings (fun st => app_settings_set_ring_offset st (u8 n))).
Proof. apply (op_keeps_wf (OpSetRingOffset (u8 n))). apply u8_range. Qed.
Lemma set_operator_keeps_wf b : respects keeps_wf (on_settings (fun st => app_settings_set_operator st b)).
Proof. by apply (op_keeps_wf (OpSetOperator b)). Qed.
Lemma set_device_id_keeps_wf id : u32_field id ->
  respects keeps_wf (on_settings (fun st => app_settings_set_device_id st id)).
Proof. apply (op_keeps_wf (OpSetDeviceId id)). Qed.
#[local] Hint Resolve set_slot_keeps_wf clear_peer_keeps_wf set_ring_offset_keeps_wf
  set_operator_keeps_wf : frames.
Lemma clear_slot_keeps_wf slot : respects keeps_wf (clear_slot slot).
Proof. unfold clear_slot. walk. Qed.
Lemma reconfigure_all_keeps_wf ss : respects keeps_wf (reconfigure_all ss).
Proof. induction ss as [|s ss IH]; cbn [reconfigure_all]; walk. Qed.
Lemma settings_reply_keeps_wf rsp : respects keeps_wf (settings_reply cap rsp).
Proof. unfold settings_reply. walk. Qed.
Lemma wifi_listing_keeps_wf rsp : respects keeps_wf (wifi_listing cap rsp).
Proof. intros d Hd. by destruct (wifi_listing_keeps cap rsp d) as (r & -> & _). Qed.
#[local] Hint Resolve clear_slot_keeps_wf reconfigure_all_keeps_wf settings_reply_keeps_wf
  wifi_listing_keeps_wf : frames.

Lemma admin_settings_keeps_wf `{!JsonLaws} post body auth :
  respects keeps_wf (pstop_api_admin_settings cfg post body auth cap).
Proof.
  unfold pstop_api_admin_settings.
  destruct (json_parse_settings body) as [fields [ro id]] eqn:E.
  pose proof (json_settings_u32 _ _ _ _ E) as [_ Hid].
  pose proof (set_device_id_keeps_wf id Hid). walk.
Qed.
Lemma admin_wifi_keeps_wf `{!JsonLaws} post body auth :
  respects keeps_wf (pstop_api_admin_wifi cfg post body auth cap).
Proof.
  unfold pstop_api_admin_wifi. destruct (admin_ok cfg auth cap init_rsp) as [[] rsp]; cbn [negb]; [|walk].
  destruct post; cbn [negb]; [|walk].
  pose proof (json_wifi_max body) as Hmax. destruct (json_parse_wifi body) as [fields ins].
  destruct (negb (fields =? BIT 0)); [walk|].
  intros d Hd. unfold bind at 1, get at 1. cbv beta iota.
  destruct (wifi_from_json _ 0 ins _) as [[err|] nets] eqn:E; [done|].
  apply wifi_from_json_wf in E as [_ Hn]; [|apply Hd|done].
  assert (respects keeps_wf (on_settings (fun st => app_settings_wifi_set_all st nets)))
    by by apply (op_keeps_wf (OpSetWifi nets)).
  unshelve refine ((_ : respects keeps_wf _) d Hd). walk.
Qed.

(** *** Dispatch on the route *)
Lemma peer_keeps_wf url : respects keeps_wf (pstop_api_pstop_peer url cap).
Proof. unfold pstop_api_pstop_peer. walk. Qed.
Lemma peers_keeps_wf url : respects keeps_wf (pstop_api_pstop_peers url cap).
Proof. unfold pstop_api_pstop_peers. walk. Qed.
Lemma ring_offset_keeps_wf url : respects keeps_wf (pstop_api_ring_offset url cap).
Proof. unfold pstop_api_ring_offset. walk. Qed.
Lemma ring_led1_keeps_wf url : respects keeps_wf (pstop_api_ring_led1 url cap).
Proof. unfold pstop_api_ring_led1. walk. Qed.
Lemma state_keeps_wf : respects keeps_wf (pstop_api_state cfg cap).
Proof. unfold pstop_api_state. walk. Qed.
Lemma health_route_keeps_wf : respects keeps_wf (pstop_api_health cfg cap).
Proof. unfold pstop_api_health. walk. Qed.
Lemma role_keeps_wf post url auth : respects keeps_wf (pstop_api_role cfg post url auth cap).
Proof. unfold pstop_api_role. walk. Qed.
Lemma status_keeps_wf auth : respects keeps_wf (pstop_api_admin_status cfg auth cap).
Proof. unfold pstop_api_admin_status. walk. Qed.
Lemma restart_keeps_wf auth : respects keeps_wf (pstop_api_admin_restart cfg auth cap).
Proof. unfold pstop_api_admin_restart. walk. Qed.
Lemma health_reset_keeps_wf url auth : respects keeps_wf (pstop_api_health_reset cfg url auth cap).
Proof. unfold pstop_api_health_reset. walk. Qed.
Lemma coredump_keeps_wf auth : respects keeps_wf (pstop_api_coredump cfg auth cap).
Proof. unfold pstop_api_coredump. walk. Qed.
Lemma page_keeps_wf auth : respects keeps_wf (pstop_api_admin_page cfg auth cap).
Proof. unfold pstop_api_admin_page. walk. Qed.
Lemma admin_verbose_keeps_wf toggle auth : respects keeps_wf (pstop_api_admin_verbose cfg toggle auth cap).
Proof. unfold pstop_api_admin_verbose. walk. Qed.

(** *** The requests that only look *)
Lemma state_reads : respects read_only (pstop_api_state cfg cap).
Proof. unfold pstop_api_state. walk. Qed.
Lemma health_reads : respects read_only (pstop_api_health cfg cap).
Proof. unfold pstop_api_health. walk. Qed.
Lemma role_reads url auth : respects read_only (pstop_api_role cfg false url auth cap).
Proof. unfold pstop_api_role. walk. Qed.
Lemma status_reads auth : respects read_only (pstop_api_admin_status cfg auth cap).
Proof. unfold pstop_api_admin_status. walk. Qed.
Lemma coredump_reads auth : respects read_only (pstop_api_coredump cfg auth cap).
Proof. unfold pstop_api_coredump. walk. Qed.
Lemma page_reads auth : respects read_only (pstop_api_admin_page cfg auth cap).
Proof. unfold pstop_api_admin_page. walk. Qed.
Lemma settings_reads body auth : respects read_only (pstop_api_admin_settings cfg false body auth cap).
Proof. unfold pstop_api_admin_settings, settings_reply. cbn [negb]. walk. Qed.
Lemma wifi_reads body auth : respects read_only (pstop_api_admin_wifi cfg false body auth cap).
Proof.
  intros d. unfold pstop_api_admin_wifi. destruct (admin_ok cfg auth cap init_rsp) as [[] rsp]; cbn [negb]; [|done].
  destruct (wifi_listing_keeps cap rsp d) as (r & -> & _). done.
Qed.
Lemma verbose_reads auth : respects read_only (pstop_api_admin_verbose cfg false auth cap).
Proof. unfold pstop_api_admin_verbose. walk. Qed.
End Handlers.
#[export] Hint Resolve state_confined peer_confined peers_confined ring_offset_confined
  ring_led1_confined health_confined : frames.
#[export] Hint Resolve peer_keeps_wf peers_keeps_wf ring_offset_keeps_wf ring_led1_keeps_wf
  state_keeps_wf health_route_keeps_wf role_keeps_wf status_keeps_wf restart_keeps_wf
  health_reset_keeps_wf coredump_keeps_wf page_keeps_wf admin_verbose_keeps_wf
  admin_settings_keeps_wf admin_wifi_keeps_wf : frames.
#[export] Hint Resolve state_reads health_reads role_reads status_reads coredump_reads page_reads
  settings_reads wifi_reads verbose_reads : frames.
