(* ===== verification/HttpRequests.v ===== *)
(** The requests in progress: [http_server.c]'s table of clients.

    Zephyr's server calls back with a client and what it has parsed; the callbacks
    of different clients interleave.  What spans a client's callbacks - its
    credentials and the body gathered so far - is its [req_state], one slot of a
    fixed table, claimed on a client's first callback and zeroed when its
    transaction ends. *)

From Stdlib Require Import Ascii.
From S2P Require Import Prelude Printf HttpUtil.
#[local] Open Scope Z_scope.

Definition REQ_BODY_MAX : nat := Z.to_nat 1024.

Inductive route :=
| ROUTE_STATE | ROUTE_PSTOP_PEER | ROUTE_PSTOP_PEERS | ROUTE_ROLE | ROUTE_RING_OFFSET
| ROUTE_RING_LED1 | ROUTE_HEALTH | ROUTE_HEALTH_RESET | ROUTE_LAST_LOG | ROUTE_COREDUMP
| ROUTE_ADMIN_PAGE | ROUTE_ADMIN_STATUS | ROUTE_ADMIN_RESTART | ROUTE_ADMIN_SETTINGS
| ROUTE_ADMIN_WIFI | ROUTE_ADMIN_VERBOSE | ROUTE_ADMIN_VERBOSE_TOGGLE.
#[export] Instance route_eq_dec : EqDecision route.
Proof. solve_decision. Defined.

Inductive http_transaction_status :=
| HTTP_SERVER_TRANSACTION_ABORTED | HTTP_SERVER_TRANSACTION_COMPLETE
| HTTP_SERVER_REQUEST_DATA_MORE | HTTP_SERVER_REQUEST_DATA_FINAL.
#[export] Instance status_eq_dec : EqDecision http_transaction_status.
Proof. solve_decision. Defined.

(** A callback's arguments; clients are numbered, [None] headers are the null
    pointer of a callback after the first. *)
Record callback := mk_callback {
  cb_client : nat;
  cb_route : route;
  cb_post : bool;
  cb_url : cstr;
  cb_status : http_transaction_status;
  cb_headers : option (list (cstr * cstr));
  cb_data : list ascii;
}.

#[export] Instance eta_callback : Eta callback := fun c =>
  mk_callback (cb_client c) (cb_route c) (cb_post c) (cb_url c) (cb_status c) (cb_headers c) (cb_data c).

(** A client's request in progress; [body] holds the [len] bytes gathered. *)
Record req_state := mk_req {
  r_client : option nat;
  r_auth : cstr;
  r_body : list ascii;
  r_overflow : bool;
  r_streaming : bool;
  r_stream_off : Z;
  r_stream_size : Z;
}.
#[export] Instance eta_req : Eta req_state := fun r =>
  mk_req (r_client r) (r_auth r) (r_body r) (r_overflow r) (r_streaming r) (r_stream_off r)
    (r_stream_size r).
Definition zero_req : req_state := mk_req None [] [] false false 0 0.
#[export] Instance req_inhabited : Inhabited req_state := populate zero_req.

(** *** The table of clients *)
Fixpoint find_client (reqs : list req_state) (c : nat) : option nat :=
  match reqs with
  | [] => None
  | r :: reqs => if bool_decide (r_client r = Some c) then Some 0%nat
                 else S <$> find_client reqs c
  end.
Fixpoint find_free (reqs : list req_state) : option nat :=
  match reqs with
  | [] => None
  | r :: reqs => if bool_decide (r_client r = None) then Some 0%nat else S <$> find_free reqs
  end.
Definition req_for (reqs : list req_state) (c : nat) : option (nat * list req_state) :=
  match find_client reqs c with
  | Some i => Some (i, reqs)
  | None => match find_free reqs with
            | Some i => Some (i, <[i := zero_req <| r_client := Some c |>]> reqs)
            | None => None
            end
  end.
Definition req_release (reqs : list req_state) (c : nat) : list req_state :=
  map (fun r => if bool_decide (r_client r = Some c) then zero_req else r) reqs.

(** [asz] is sizeof(r->auth). *)
Definition capture_auth (asz : nat) (headers : option (list (cstr * cstr))) (r : req_state) : req_state :=
  match headers with
  | None => r
  | Some hs =>
      match List.find (fun h => strcaseeq (fst h) (to_chars "Authorization")) hs with
      | Some (_, value) => r <| r_auth := take (asz - 1) value |>
      | None => r <| r_auth := [] |>
      end
  end.

Definition gather_body (data : list ascii) (r : req_state) : req_state :=
  if (length data =? 0)%nat then r
  else if (REQ_BODY_MAX <? length (r_body r) + length data)%nat then r <| r_overflow := true |>
  else r <| r_body ::= fun b => b ++ data |>.


(** * Specification *)

(** A request of client [c] from its callbacks [own], taken alone. *)
Definition fresh_req (c : nat) : req_state := zero_req <| r_client := Some c |>.
Definition gather (asz : nat) (r : req_state) (cb : callback) : req_state :=
  gather_body (cb_data cb) (capture_auth asz (cb_headers cb) r).
Definition gathered (asz : nat) (c : nat) (own : list callback) : req_state :=
  foldl (gather asz) (fresh_req c) own.

(** The callbacks that end a transaction; a client's callbacks since its last. *)
Definition ends (cb : callback) : bool :=
  bool_decide (cb_status cb = HTTP_SERVER_TRANSACTION_ABORTED) ||
  bool_decide (cb_status cb = HTTP_SERVER_TRANSACTION_COMPLETE).
Definition own_step (c : nat) (own : list callback) (cb : callback) : list callback :=
  if bool_decide (cb_client cb = c) then if ends cb then [] else own ++ [cb] else own.
Definition own (c : nat) (h : list callback) : list callback := foldl (own_step c) [] h.
(** The clients with a transaction open. *)
Definition open_step (o : gset nat) (cb : callback) : gset nat :=
  if ends cb then o ∖ {[cb_client cb]} else {[cb_client cb]} ∪ o.
Definition open_clients (h : list callback) : gset nat := foldl open_step ∅ h.
(** The server's client limit: never more than [n] open. *)
Definition within (n : nat) (h : list callback) : Prop :=
  forall k, (size (open_clients (take k h)) <= n)%nat.

Definition clients (reqs : list req_state) : list nat := omap r_client reqs.

(** The table's well-formedness: a client holds one slot, a free slot is zero, and
    what a slot holds fits its arrays. *)
Record table_wf (asz : nat) (reqs : list req_state) : Prop := {
  tw_unique : NoDup (clients reqs);
  tw_scrubbed : Forall (fun r => r_client r = None -> r = zero_req) reqs;
  tw_auth : Forall (fun r => (length (r_auth r) <= asz - 1)%nat) reqs;
  tw_body : Forall (fun r => (length (r_body r) <= REQ_BODY_MAX)%nat) reqs;
}.

(** * Lemmas *)
Lemma clients_cons r reqs :
  clients (r :: reqs) = match r_client r with Some c => c :: clients reqs | None => clients reqs end.
Proof. reflexivity. Qed.
Lemma clients_in reqs i r c : reqs !! i = Some r -> r_client r = Some c -> c ∈ clients reqs.
Proof.
  intros Hi Hr. apply list_elem_of_omap. exists r. split; [|done]. by eapply list_elem_of_lookup_2.
Qed.

Lemma find_client_spec reqs c :
  match find_client reqs c with
  | Some i => exists r, reqs !! i = Some r /\ r_client r = Some c
  | None => c ∉ clients reqs
  end.
Proof.
  induction reqs as [|r reqs IH]; [apply not_elem_of_nil|]. cbn [find_client]. rewrite clients_cons.
  destruct (decide (r_client r = Some c)) as [E|E].
  - rewrite bool_decide_eq_true_2 by done. by exists r.
  - rewrite bool_decide_eq_false_2 by done. destruct (find_client reqs c) as [i|]; [exact IH|].
    destruct (r_client r) as [c'|]; [|exact IH].
    cbn. rewrite not_elem_of_cons. split; [congruence|exact IH].
Qed.
Lemma find_free_spec reqs :
  match find_free reqs with
  | Some i => exists r, reqs !! i = Some r /\ r_client r = None
  | None => length (clients reqs) = length reqs
  end.
Proof.
  induction reqs as [|r reqs IH]; [done|]. cbn [find_free]. rewrite clients_cons.
  destruct (r_client r) as [c|] eqn:E.
  - rewrite bool_decide_eq_false_2 by done. destruct (find_free reqs) as [i|]; [exact IH|].
    exact (f_equal S IH).
  - rewrite bool_decide_eq_true_2 by done. by exists r.
Qed.

Lemma clients_insert reqs i r r' : reqs !! i = Some r -> r_client r' = r_client r ->
  clients (<[i := r']> reqs) = clients reqs.
Proof.
  revert i. induction reqs as [|x reqs IH]; intros [|i] Hi Hr; try done.
  - injection Hi as ->. change (<[0%nat := r']> (r :: reqs)) with (r' :: reqs).
    by rewrite !clients_cons, Hr.
  - change (<[S i := r']> (x :: reqs)) with (x :: <[i := r']> reqs).
    rewrite !clients_cons, (IH i) by done. done.
Qed.
Lemma clients_claim reqs i r c r' : reqs !! i = Some r -> r_client r = None -> r_client r' = Some c ->
  clients (<[i := r']> reqs) ≡ₚ c :: clients reqs.
Proof.
  revert i. induction reqs as [|x reqs IH]; intros [|i] Hi Hr Hr'; try done.
  - injection Hi as ->. change (<[0%nat := r']> (r :: reqs)) with (r' :: reqs).
    by rewrite !clients_cons, Hr, Hr'.
  - change (<[S i := r']> (x :: reqs)) with (x :: <[i := r']> reqs).
    rewrite !clients_cons. destruct (r_client x) as [c'|]; [|by apply (IH i)].
    rewrite (IH i) by done. constructor.
Qed.
Lemma clients_release reqs c : clients (req_release reqs c) = filter (fun c' => c' <> c) (clients reqs).
Proof.
  induction reqs as [|x reqs IH]; [done|].
  change (req_release (x :: reqs) c) with
    ((if bool_decide (r_client x = Some c) then zero_req else x) :: req_release reqs c).
  rewrite !clients_cons.
  destruct (decide (r_client x = Some c)) as [E|E].
  - rewrite bool_decide_eq_true_2 by done. rewrite E, filter_cons_False by tauto. exact IH.
  - rewrite bool_decide_eq_false_2 by done. destruct (r_client x) as [c'|]; [|exact IH].
    rewrite filter_cons_True by congruence. by rewrite IH.
Qed.

(** A client's slot is its only one. *)
Lemma slot_unique reqs i j r r' c : NoDup (clients reqs) ->
  reqs !! i = Some r -> reqs !! j = Some r' -> r_client r = Some c -> r_client r' = Some c -> i = j.
Proof.
  revert i j. induction reqs as [|x reqs IH]; intros [|i] [|j] Hnd Hi Hj Hr Hr'; try done;
    rewrite clients_cons in Hnd; cbn in Hi, Hj.
  - injection Hi as ->. rewrite Hr in Hnd. apply NoDup_cons in Hnd as [Hnd _].
    by destruct (Hnd (clients_in _ _ _ _ Hj Hr')).
  - injection Hj as ->. rewrite Hr' in Hnd. apply NoDup_cons in Hnd as [Hnd _].
    by destruct (Hnd (clients_in _ _ _ _ Hi Hr)).
  - f_equal. eapply IH; try done. destruct (r_client x); [by apply NoDup_cons in Hnd as [_ ?]|done].
Qed.

(** What a claim gives: the client's own slot, or a free one made its own. *)
Lemma req_for_spec reqs c :
  match req_for reqs c with
  | Some (i, table) => exists r, table !! i = Some r /\ r_client r = Some c /\
      ((table = reqs /\ c ∈ clients reqs) \/
       (c ∉ clients reqs /\ r = fresh_req c /\
        exists r0, reqs !! i = Some r0 /\ r_client r0 = None /\ table = <[i := fresh_req c]> reqs))
  | None => c ∉ clients reqs /\ length (clients reqs) = length reqs
  end.
Proof.
  unfold req_for. pose proof (find_client_spec reqs c) as Hc.
  destruct (find_client reqs c) as [i|].
  - destruct Hc as (r & Hi & Hr). exists r. split; [done|]. split; [done|]. left. split; [done|].
    apply list_elem_of_omap. exists r. split; [by eapply list_elem_of_lookup_2|done].
  - pose proof (find_free_spec reqs) as Hf. destruct (find_free reqs) as [i|]; [|done].
    destruct Hf as (r0 & Hi & Hr0). exists (fresh_req c).
    rewrite list_lookup_insert_eq by (by eapply lookup_lt_Some).
    split; [done|]. split; [done|]. right. split; [done|]. split; [done|]. by exists r0.
Qed.

(** *** Well-formedness *)
Definition fits (asz : nat) (r : req_state) : Prop :=
  (length (r_auth r) <= asz - 1)%nat /\ (length (r_body r) <= REQ_BODY_MAX)%nat.

Lemma gather_fits asz r cb : fits asz r -> fits asz (gather asz r cb).
Proof.
  unfold fits. intros [Ha Hb]. unfold gather. set (r1 := capture_auth asz (cb_headers cb) r).
  assert ((length (r_auth r1) <= asz - 1)%nat /\ r_body r1 = r_body r) as [Ha1 Hb1].
  { unfold r1, capture_auth. destruct (cb_headers cb) as [hs|]; [|done].
    destruct (List.find _ hs) as [[n v]|]; [|cbn; split; [lia|done]].
    cbn. rewrite length_take. split; [lia|done]. }
  clearbody r1. unfold gather_body. destruct (length (cb_data cb) =? 0)%nat; [by rewrite Hb1|].
  destruct (Nat.ltb_spec REQ_BODY_MAX (length (r_body r1) + length (cb_data cb))); cbn.
  - by rewrite Hb1.
  - rewrite length_app. split; [done|lia].
Qed.
Lemma gather_client asz r cb : r_client (gather asz r cb) = r_client r.
Proof.
  unfold gather, gather_body, capture_auth.
  destruct (cb_headers cb) as [hs|]; [destruct (List.find _ hs) as [[n v]|]|];
    (destruct (length (cb_data cb) =? 0)%nat; [done|]); by case_match.
Qed.
Lemma gather_streaming asz r cb : r_streaming (gather asz r cb) = r_streaming r.
Proof.
  unfold gather, gather_body, capture_auth.
  destruct (cb_headers cb) as [hs|]; [destruct (List.find _ hs) as [[n v]|]|];
    (destruct (length (cb_data cb) =? 0)%nat; [done|]); by case_match.
Qed.

Lemma table_wf_fits asz reqs : table_wf asz reqs -> forall i r, reqs !! i = Some r -> fits asz r.
Proof.
  intros [_ _ Ha Hb] i r Hi. rewrite Forall_lookup in Ha. rewrite Forall_lookup in Hb.
  split; [by eapply Ha|by eapply Hb].
Qed.
Lemma table_wf_init asz n : table_wf asz (replicate n zero_req).
Proof.
  split; try (apply Forall_replicate; cbn; (done || lia)).
  induction n as [|n IH]; [constructor|exact IH].
Qed.
Lemma table_wf_release asz reqs c : table_wf asz reqs -> table_wf asz (req_release reqs c).
Proof.
  intros [Hu Hs Ha Hb]. split.
  - rewrite clients_release. by apply NoDup_filter.
  - apply Forall_fmap. eapply Forall_impl; [exact Hs|].
    intros r Hr. cbn. by case_bool_decide.
  - apply Forall_fmap. eapply Forall_impl; [exact Ha|].
    intros r Hr. cbn. case_bool_decide; [cbn; lia|done].
  - apply Forall_fmap. eapply Forall_impl; [exact Hb|].
    intros r Hr. cbn. case_bool_decide; [cbn; lia|done].
Qed.
Lemma table_wf_insert asz reqs i r r' : table_wf asz reqs -> reqs !! i = Some r ->
  r_client r' = r_client r -> (r_client r' = None -> r' = zero_req) -> fits asz r' ->
  table_wf asz (<[i := r']> reqs).
Proof.
  intros [Hu Hs Ha Hb] Hi Hc Hz [Hfa Hfb].
  split; [by erewrite clients_insert|by apply Forall_insert..].
Qed.
Lemma table_wf_claim asz reqs c i table : table_wf asz reqs -> req_for reqs c = Some (i, table) ->
  table_wf asz table.
Proof.
  intros Hwf E. pose proof (req_for_spec reqs c) as Hs. rewrite E in Hs.
  destruct Hs as (r & Hi & Hr & [[-> _]|(Hc & _ & r0 & Hi0 & Hr0 & ->)]); [done|].
  destruct Hwf as [Hu Hsc Ha Hb]. split; try (apply Forall_insert; cbn; (done || lia)).
  rewrite (clients_claim _ _ _ c) by done. by constructor.
Qed.

(** *** Isolation *)
Definition more (cb : callback) : Prop := cb_status cb = HTTP_SERVER_REQUEST_DATA_MORE.
Record isolated (asz n : nat) (h : list callback) (reqs : list req_state) : Prop := {
  iso_length : length reqs = n;
  iso_unique : NoDup (clients reqs);
  iso_open : forall c, c ∈ clients reqs <-> c ∈ open_clients h;
  iso_own : forall c, own c h <> [] -> Forall more (own c h) ->
    exists i, reqs !! i = Some (gathered asz c (own c h));
}.

Lemma own_snoc c h cb : own c (h ++ [cb]) = own_step c (own c h) cb.
Proof. unfold own. by rewrite foldl_app. Qed.
Lemma open_snoc h cb : open_clients (h ++ [cb]) = open_step (open_clients h) cb.
Proof. unfold open_clients. by rewrite foldl_app. Qed.
Lemma own_open c h : c ∈ open_clients h <-> own c h <> [].
Proof.
  induction h as [|cb h IH] using rev_ind; [done|].
  rewrite own_snoc, open_snoc. unfold open_step, own_step.
  destruct (decide (cb_client cb = c)) as [E|E].
  - rewrite bool_decide_eq_true_2 by done. destruct (ends cb); [set_solver|].
    split; [by destruct (own c h)|set_solver].
  - rewrite bool_decide_eq_false_2 by done. rewrite <- IH. destruct (ends cb); set_solver.
Qed.

Lemma gathered_client asz c o : r_client (gathered asz c o) = Some c.
Proof.
  induction o as [|cb o IH] using rev_ind; [done|].
  unfold gathered in *. rewrite foldl_app. cbn [foldl]. by rewrite gather_client.
Qed.
Lemma gathered_streaming asz c o : r_streaming (gathered asz c o) = false.
Proof.
  induction o as [|cb o IH] using rev_ind; [done|].
  unfold gathered in *. rewrite foldl_app. cbn [foldl]. by rewrite gather_streaming.
Qed.
Lemma gathered_snoc asz c o cb : gathered asz c (o ++ [cb]) = gather asz (gathered asz c o) cb.
Proof. unfold gathered. by rewrite foldl_app. Qed.

Lemma isolated_init asz n : isolated asz n [] (replicate n zero_req).
Proof.
  split; [by rewrite length_replicate| | |done].
  - apply (table_wf_init asz).
  - intros c. assert (clients (replicate n zero_req) = []) as ->; [|set_solver].
    induction n as [|n IH]; [done|exact IH].
Qed.

Lemma isolated_release asz n h reqs cb : ends cb = true -> isolated asz n h reqs ->
  isolated asz n (h ++ [cb]) (req_release reqs (cb_client cb)).
Proof.
  intros He [Hl Hu Ho Hw]. split.
  - unfold req_release. by rewrite length_map.
  - rewrite clients_release. by apply NoDup_filter.
  - intros c. rewrite clients_release, list_elem_of_filter, open_snoc, Ho. unfold open_step.
    rewrite He. set_solver.
  - intros c. rewrite own_snoc. unfold own_step. rewrite He.
    destruct (decide (cb_client cb = c)) as [E|E].
    + by rewrite bool_decide_eq_true_2.
    + rewrite bool_decide_eq_false_2 by done. intros Hne Hm. destruct (Hw c Hne Hm) as [i Hi].
      exists i. unfold req_release.
      rewrite list_lookup_fmap, Hi. cbn. rewrite bool_decide_eq_false_2; [done|].
      rewrite gathered_client. congruence.
Qed.

(** While the client limit holds, a claim succeeds, and gives the client's own
    request so far. *)
Lemma isolated_claim asz n h reqs cb : ends cb = false -> isolated asz n h reqs ->
  (size (open_clients (h ++ [cb])) <= n)%nat ->
  exists i table r, req_for reqs (cb_client cb) = Some (i, table) /\ table !! i = Some r /\
    r_client r = Some (cb_client cb) /\
    (Forall more (own (cb_client cb) h) -> r = gathered asz (cb_client cb) (own (cb_client cb) h)).
Proof.
  intros He [Hl Hu Ho Hw] Hn. set (c := cb_client cb) in *.
  pose proof (req_for_spec reqs c) as Hs. destruct (req_for reqs c) as [[i table]|].
  - destruct Hs as (r & Hi & Hr & Hcase). exists i, table, r. split; [done|]. split; [done|]. split; [done|].
    intros Hm. destruct Hcase as [[-> Hin]|(Hc & -> & _)].
    + apply Ho, own_open in Hin. destruct (Hw c Hin Hm) as [j Hj].
      assert (i = j) as ->; [|congruence].
      eapply slot_unique; [exact Hu|exact Hi|exact Hj|done|apply gathered_client].
    + assert (own c h = []) as ->; [|done].
      destruct (own c h) eqn:E; [done|]. exfalso. apply Hc, Ho, own_open. by rewrite E.
  - destruct Hs as [Hc Hlen]. exfalso.
    assert (open_clients h ≡ list_to_set (clients reqs)) as Hset by set_solver.
    rewrite open_snoc in Hn. unfold open_step in Hn. rewrite He in Hn. fold c in Hn.
    rewrite size_union in Hn by set_solver.
    rewrite size_singleton, Hset, size_list_to_set in Hn by done. lia.
Qed.

Lemma isolated_update asz n h reqs cb i table r r' : ends cb = false -> isolated asz n h reqs ->
  req_for reqs (cb_client cb) = Some (i, table) -> table !! i = Some r ->
  r_client r' = r_client r ->
  (Forall more (own (cb_client cb) h) -> r = gathered asz (cb_client cb) (own (cb_client cb) h)) ->
  (more cb -> r_streaming r = false -> r' = gather asz r cb) ->
  isolated asz n (h ++ [cb]) (<[i := r']> table).
Proof.
  intros He [Hl Hu Ho Hw] Hreq Hi Hr' Hown Hmore. set (c := cb_client cb) in *.
  pose proof (req_for_spec reqs c) as Hs. rewrite Hreq in Hs.
  destruct Hs as (r1 & Hi1 & Hr & Hcase). assert (r1 = r) as -> by congruence.
  assert (length table = n /\ NoDup (clients table) /\ (forall c', c' ∈ clients table <-> c' = c \/ c' ∈ clients reqs) /\
    (forall j x, reqs !! j = Some x -> r_client x <> Some c -> r_client x <> None -> j <> i /\ table !! j = Some x))
    as (Hlt & Hut & Hct & Hkeep).
  { destruct Hcase as [[-> Hin]|(Hc & _ & r0 & Hi0 & Hr0 & ->)].
    - split; [done|]. split; [done|]. split; [intros c'; split; [by right|intros [->|?]; done]|].
      intros j x Hj Hx _. split; [|done]. intros ->. congruence.
    - split; [by rewrite length_insert|].
      assert (clients (<[i := fresh_req c]> reqs) ≡ₚ c :: clients reqs) as Hp by (by eapply clients_claim).
      split; [rewrite Hp; by constructor|].
      split; [intros c'; rewrite Hp; apply elem_of_cons|].
      intros j x Hj Hx Hx'. assert (j <> i) by (intros ->; congruence).
      split; [done|]. by rewrite list_lookup_insert_ne. }
  split.
  - by rewrite length_insert.
  - by erewrite clients_insert.
  - intros c'. erewrite clients_insert by done. rewrite Hct, open_snoc, Ho. unfold open_step.
    rewrite He. fold c. set_solver.
  - intros c'. rewrite own_snoc. unfold own_step. rewrite He. fold c.
    destruct (decide (c = c')) as [<-|E].
    + rewrite bool_decide_eq_true_2 by done. intros _ Hm.
      apply Forall_app in Hm as [Hm Hcb]. apply Forall_cons in Hcb as [Hcb _]. exists i.
      rewrite list_lookup_insert_eq by (by eapply lookup_lt_Some). f_equal.
      rewrite gathered_snoc, <- (Hown Hm). apply Hmore; [exact Hcb|].
      rewrite (Hown Hm). apply gathered_streaming.
    + rewrite bool_decide_eq_false_2 by done. intros Hne Hm. destruct (Hw c' Hne Hm) as [j Hj].
      destruct (Hkeep _ _ Hj) as [Hji Hj']; [rewrite gathered_client; congruence|by rewrite gathered_client|].
      exists j. by rewrite list_lookup_insert_ne.
Qed.

(** *** What is gathered *)

(** The body is all of the data or, past the buffer, refused. *)
Lemma gathered_body asz c o :
  let data := concat (map cb_data o) in
  if r_overflow (gathered asz c o) then (REQ_BODY_MAX < length data)%nat
  else r_body (gathered asz c o) = data /\ (length data <= REQ_BODY_MAX)%nat.
Proof.
  cbv zeta. induction o as [|cb o IH] using rev_ind; [cbn; split; [done|lia]|].
  rewrite gathered_snoc, map_app, concat_app. cbn [map concat]. rewrite app_nil_r, length_app.
  set (r := gathered asz c o) in *. unfold gather.
  set (r1 := capture_auth asz (cb_headers cb) r).
  assert (r_overflow r1 = r_overflow r /\ r_body r1 = r_body r) as [Ho Hb].
  { unfold r1, capture_auth. destruct (cb_headers cb) as [hs|]; [|done].
    by destruct (List.find _ hs) as [[? v]|]. }
  clearbody r1. unfold gather_body. rewrite <- Ho, <- Hb in IH.
  destruct (Nat.eqb_spec (length (cb_data cb)) 0) as [Hz|Hz].
  { apply nil_length_inv in Hz as ->. rewrite app_nil_r, Nat.add_0_r. exact IH. }
  destruct (Nat.ltb_spec REQ_BODY_MAX (length (r_body r1) + length (cb_data cb))) as [Hlt|Hle].
  - cbn [r_overflow update eta_req]. destruct (r_overflow r1); [lia|].
    destruct IH as [Eb _]. rewrite Eb in Hlt. lia.
  - destruct (r_overflow r1) eqn:E.
    + change (r_overflow (r1 <| r_body ::= fun b => b ++ cb_data cb |>)) with (r_overflow r1).
      rewrite E. lia.
    + change (r_overflow (r1 <| r_body ::= fun b => b ++ cb_data cb |>)) with (r_overflow r1).
      rewrite E. destruct IH as [Eb _]. rewrite Eb in Hle. split; [|lia].
      change (r_body r1 ++ cb_data cb = concat (map cb_data o) ++ cb_data cb). by rewrite Eb.
Qed.
