(* ===== verification/HttpServer.v ===== *)
(** The HTTP glue: [http_server.c], [crash.c]'s streaming and the last boot's log.

    [route_handler] handles one callback of Zephyr's server on the whole state: the
    table of requests ([HttpRequests.v]), the device, the retained log and the
    pending restart.  The JSON parser works in place on the gathered body, which is
    scrubbed when the transaction ends; the model parses a copy. *)

From Stdlib Require Import Ascii.
From S2P Require Import Prelude Printf Platform AppSettings Session Lockstep Health HttpUtil Uplink Wifi Ring Api Frames HttpRequests.
#[local] Open Scope Z_scope.
#[local] Open Scope act_scope.

(** *** Responses *)
Inductive http_body :=
| Text (s : string)       (* the shared response buffer *)
| LastLog (b : list Z)    (* the snapshot of the previous boot's log *)
| AdminPage               (* the gzipped page *)
| Dump (b : list Z).      (* a chunk of the coredump *)
Inductive http_headers := NoHeaders | AuthChallenge | GzipEncoding.
(** What the callback leaves in the response context; a zero status is the
    server's default. *)
Record http_response_ctx := mk_rsp_ctx {
  rc_status : Z; rc_headers : http_headers; rc_body : option http_body; rc_final : bool;
}.
#[export] Instance eta_rsp_ctx : Eta http_response_ctx := fun r =>
  mk_rsp_ctx (rc_status r) (rc_headers r) (rc_body r) (rc_final r).
Definition no_rsp : http_response_ctx := mk_rsp_ctx 0 NoHeaders None false.

(** ** The routes: path, methods, handler and content type *)
Record resource := mk_resource {
  rs_path : string; rs_get : bool; rs_post : bool; rs_route : route; rs_type : string;
}.
Definition JSON : string := "application/json".
Definition resources : list resource := [
  mk_resource "/state.json" true false ROUTE_STATE JSON;
  mk_resource "/api/pstop_peer" false true ROUTE_PSTOP_PEER JSON;
  mk_resource "/api/pstop_peers" false true ROUTE_PSTOP_PEERS JSON;
  mk_resource "/api/role" true true ROUTE_ROLE JSON;
  mk_resource "/api/ring_offset" false true ROUTE_RING_OFFSET JSON;
  mk_resource "/api/ring_led1" false true ROUTE_RING_LED1 JSON;
  mk_resource "/api/health" true false ROUTE_HEALTH JSON;
  mk_resource "/api/health/reset" false true ROUTE_HEALTH_RESET JSON;
  mk_resource "/api/last_log" true false ROUTE_LAST_LOG "text/plain";
  mk_resource "/api/coredump" true false ROUTE_COREDUMP "application/octet-stream";
  mk_resource "/admin/" true false ROUTE_ADMIN_PAGE "text/html";
  mk_resource "/admin/api/status" true false ROUTE_ADMIN_STATUS JSON;
  mk_resource "/admin/api/restart" false true ROUTE_ADMIN_RESTART JSON;
  mk_resource "/admin/api/settings" true true ROUTE_ADMIN_SETTINGS JSON;
  mk_resource "/admin/api/wifi" true true ROUTE_ADMIN_WIFI JSON;
  mk_resource "/admin/api/verbose" true false ROUTE_ADMIN_VERBOSE JSON;
  mk_resource "/admin/api/verbose/toggle" false true ROUTE_ADMIN_VERBOSE_TOGGLE JSON
].

Section Server.
Context `{!PstopLib} `{Settings} `{!NetIf} `{!Base64} `{!Coredump} `{!JsonLib}.
Variable cfg : api_config.
Variable auth_size : nat.     (* CONFIG_HTTP_SERVER_CAPTURE_HEADER_BUFFER_SIZE *)

Record http_server := mk_server {
  reqs : list req_state;
  dev : device;
  snapshot : list Z;            (* last_log.c *)
  restart_scheduled : bool;     (* restart_work *)
}.
#[export] Instance eta_server : Eta http_server := fun s =>
  mk_server (reqs s) (dev s) (snapshot s) (restart_scheduled s).

Definition body_size : nat := PSTOP_API_BODY_MAX.

(** One chunk of the dump. *)
Definition stream_coredump (r : req_state) (w : os) : http_response_ctx * req_state * os :=
  let n := Z.min (Z.of_nat body_size) (r_stream_size r - r_stream_off r) in
  let '((ret, bytes), w) := crash_read cfg (r_stream_off r) (Z.to_nat n) w in
  if ret <=? 0 then (no_rsp <| rc_final := true |>, r, w)
  else
    let r := r <| r_stream_off ::= fun o => o + ret |> in
    (no_rsp <| rc_body := Some (Dump (take (Z.to_nat ret) bytes)) |>
            <| rc_final := r_stream_size r <=? r_stream_off r |>, r, w).

(** The switch's routes that answer from the response buffer. *)
Definition api_route (rt : route) (post : bool) (url auth : cstr) (body : list ascii)
  : option (act pstop_api_response) :=
  match rt with
  | ROUTE_STATE => Some (pstop_api_state cfg body_size)
  | ROUTE_PSTOP_PEER => Some (pstop_api_pstop_peer url body_size)
  | ROUTE_PSTOP_PEERS => Some (pstop_api_pstop_peers url body_size)
  | ROUTE_ROLE => Some (pstop_api_role cfg post url auth body_size)
  | ROUTE_RING_OFFSET => Some (pstop_api_ring_offset url body_size)
  | ROUTE_RING_LED1 => Some (pstop_api_ring_led1 url body_size)
  | ROUTE_HEALTH => Some (pstop_api_health cfg body_size)
  | ROUTE_HEALTH_RESET => Some (pstop_api_health_reset cfg url auth body_size)
  | ROUTE_ADMIN_PAGE => Some (pstop_api_admin_page cfg auth body_size)
  | ROUTE_ADMIN_STATUS => Some (pstop_api_admin_status cfg auth body_size)
  | ROUTE_ADMIN_RESTART => Some (pstop_api_admin_restart cfg auth body_size)
  | ROUTE_ADMIN_SETTINGS => Some (pstop_api_admin_settings cfg post body auth body_size)
  | ROUTE_ADMIN_WIFI => Some (pstop_api_admin_wifi cfg post body auth body_size)
  | ROUTE_ADMIN_VERBOSE => Some (pstop_api_admin_verbose cfg false auth body_size)
  | ROUTE_ADMIN_VERBOSE_TOGGLE => Some (pstop_api_admin_verbose cfg true auth body_size)
  | ROUTE_LAST_LOG | ROUTE_COREDUMP => None
  end.

(** The [respond] label: the API's response and the body it points at. *)
Definition respond (rsp : pstop_api_response) (body : http_body) (r : req_state)
           (d : device) : http_response_ctx * req_state * device * bool :=
  (mk_rsp_ctx (rsp_status rsp) (if rsp_auth_challenge rsp then AuthChallenge else NoHeaders)
     (Some body) true,
   r <| r_auth := [] |>, d, rsp_restart rsp).

(** Answering a request that is fully read.  The last result is the scheduling of
    a restart. *)
Definition answer (cb : callback) (snap : list Z) (r : req_state) (d : device)
  : http_response_ctx * req_state * device * bool :=
  if r_overflow r
  then respond (init_rsp <| rsp_status := 413 |>)
         (Text (snd (snprintf body_size "{'ok':false,'error':'body too large'}" []))) r d
  else
    match cb_route cb with
    | ROUTE_LAST_LOG => respond (init_rsp <| rsp_status := 200 |>) (LastLog snap) r d
    | ROUTE_COREDUMP =>
        let '((rsp, size), d) := pstop_api_coredump cfg (r_auth r) body_size d in
        let r := r <| r_stream_size := size |> in
        if rsp_status rsp =? 200 then
          let r := r <| r_streaming := true |> <| r_stream_off := 0 |> in
          let '(rc, r, w) := stream_coredump r (d_os d) in (rc, r, d <| d_os := w |>, false)
        else respond rsp (Text (rsp_body rsp)) r d
    | rt =>
        match api_route rt (cb_post cb) (cb_url cb) (r_auth r) (r_body r) with
        | Some m =>
            let '(rsp, d) := m d in
            if bool_decide (rt = ROUTE_ADMIN_PAGE) && (rsp_status rsp =? 200)
            then (mk_rsp_ctx 0 GzipEncoding (Some AdminPage) true, r, d, false)
            else respond rsp (Text (rsp_body rsp)) r d
        | None => (no_rsp, r, d, false)
        end
    end.

Definition route_handler (cb : callback) (s : http_server) : Z * http_response_ctx * http_server :=
  match cb_status cb with
  | HTTP_SERVER_TRANSACTION_ABORTED | HTTP_SERVER_TRANSACTION_COMPLETE =>
      (0, no_rsp, s <| reqs ::= fun t => req_release t (cb_client cb) |>)
  | _ =>
      match req_for (reqs s) (cb_client cb) with
      | None => (- ENOMEM, no_rsp, s)
      | Some (i, table) =>
          let r := table !!! i in
          if r_streaming r then
            let '(rc, r, w) := stream_coredump r (d_os (dev s)) in
            (0, rc, s <| reqs := <[i := r]> table |> <| dev ::= fun d => d <| d_os := w |> |>)
          else
            let r := gather_body (cb_data cb) (capture_auth auth_size (cb_headers cb) r) in
            if bool_decide (cb_status cb <> HTTP_SERVER_REQUEST_DATA_FINAL)
            then (0, no_rsp, s <| reqs := <[i := r]> table |>)
            else
              let '(rc, r, d, restart) := answer cb (snapshot s) r (dev s) in
              (0, rc, s <| reqs := <[i := r]> table |> <| dev := d |>
                        <| restart_scheduled ::= orb restart |>)
      end
  end.

(** [http_statics]: the table is all free. *)
Definition http_statics (max_clients : nat) (d : device) (snap : list Z) : http_server :=
  mk_server (replicate max_clients zero_req) d snap false.

Definition serve (s : http_server) (cb : callback) : http_server := snd (route_handler cb s).
Definition serve_all (s : http_server) (cbs : list callback) : http_server := foldl serve s cbs.

(** The responses of a run. *)
Fixpoint responses (s : http_server) (cbs : list callback) : list http_response_ctx :=
  match cbs with
  | [] => []
  | cb :: cbs => let '(_, rc, s) := route_handler cb s in rc :: responses s cbs
  end.
End Server.

(** * Specification *)

(** The routes behind the admin credentials. *)
Definition is_admin (rt : route) : bool :=
  match rt with
  | ROUTE_ROLE | ROUTE_HEALTH_RESET | ROUTE_COREDUMP | ROUTE_ADMIN_PAGE | ROUTE_ADMIN_STATUS
  | ROUTE_ADMIN_RESTART | ROUTE_ADMIN_SETTINGS | ROUTE_ADMIN_WIFI | ROUTE_ADMIN_VERBOSE
  | ROUTE_ADMIN_VERBOSE_TOGGLE => true
  | _ => false
  end.

(** Zephyr's stored dump: its size, and a copy of up to [n] of its bytes, at least
    one while there are any; copying does not disturb it. *)
Class CoredumpLaws `{Coredump} : Type := {
  stored_dump : os -> list Z;
  dump_size : forall w, coredump_has_stored w = 1 ->
    coredump_stored_size w = Z.of_nat (length (stored_dump w));
  dump_copy : forall off n w, (0 < n)%nat -> (off + n <= length (stored_dump w))%nat ->
    exists k b w', coredump_copy (Z.of_nat off) n w = ((Z.of_nat k, b), w') /\ (0 < k <= n)%nat /\
      take k b = take k (drop off (stored_dump w)) /\ stored_dump w' = stored_dump w;
}.

(** The chunks of a stream: the server calls back until the final one. *)
Fixpoint stream_all `{!PstopLib} `{Settings} `{!NetIf} `{!Coredump} (cfg : api_config) (fuel : nat)
         (r : req_state) (w : os) : list http_response_ctx :=
  match fuel with
  | O => []
  | S fuel => let '(rc, r, w) := stream_coredump cfg r w in
              rc :: if rc_final rc then [] else stream_all cfg fuel r w
  end.
Definition chunk (rc : http_response_ctx) : list Z :=
  match rc_body rc with Some (Dump b) => b | _ => [] end.

(** * Lemmas *)
Section ServerLemmas.
Context `{!PstopLib} `{Settings} `{!NetIf} `{!Base64} `{!Coredump} `{!JsonLib}.
Variable cfg : api_config.
Variable auth_size : nat.

Lemma denied rt post url auth body d : is_admin rt = true -> authorized cfg auth = false ->
  match api_route cfg rt post url auth body with
  | Some m => m d = (refusal cfg body_size, d)
  | None => rt = ROUTE_COREDUMP
  end.
Proof.
  intros Hrt Hauth. destruct rt; try discriminate; cbn [api_route].
  all: try reflexivity.
  all: cbv beta delta [pstop_api_role pstop_api_health_reset pstop_api_admin_page pstop_api_admin_status
    pstop_api_admin_restart pstop_api_admin_settings pstop_api_admin_wifi pstop_api_admin_verbose].
  all: fold body_size; by rewrite admin_ok_spec, Hauth.
Qed.
Lemma coredump_denied auth d : authorized cfg auth = false ->
  pstop_api_coredump cfg auth body_size d = ((refusal cfg body_size, 0), d).
Proof. intros Hauth. unfold pstop_api_coredump. by rewrite admin_ok_spec, Hauth. Qed.

Lemma refusal_spec : exists text,
  refusal cfg body_size = mk_rsp (if (length (ADMIN_PASSWORD cfg) =? 0)%nat then 403 else 401) text
                            (negb (length (ADMIN_PASSWORD cfg) =? 0)%nat) false.
Proof.
  unfold refusal. destruct (length _ =? 0)%nat.
  - rewrite reply_fits by (eval_width; unfold body_size; rewrite body_max; lia). by eexists.
  - rewrite reply_fits by (eval_width; unfold body_size; rewrite body_max; lia). by eexists.
Qed.

Lemma public_confined rt post url auth body m : is_admin rt = false ->
  api_route cfg rt post url auth body = Some m -> respects confined m /\ returns stays_up m.
Proof.
  intros Hrt Hm. pose proof (public_stays_up cfg body_size url) as (?&?&?&?&?&?).
  destruct rt; try discriminate Hrt; cbn [api_route] in Hm; try discriminate Hm;
    injection Hm as <-; split; eauto with frames.
Qed.

(** A body anyone may see. *)
Definition harmless (b : option http_body) : Prop :=
  match b with Some (Dump _) | Some AdminPage => False | _ => True end.

(** A refused request, and a public one. *)
Lemma answer_refused cb snap r d :
  is_admin (cb_route cb) = true -> r_overflow r = false -> authorized cfg (r_auth r) = false ->
  let '(rc, r', d', restart) := answer cfg cb snap r d in
  d' = d /\ restart = false /\ r_auth r' = [] /\ r_streaming r' = r_streaming r /\
  rc_final rc = true /\ harmless (rc_body rc) /\
  (rc_status rc, rc_headers rc) =
    (if (length (ADMIN_PASSWORD cfg) =? 0)%nat then (403, NoHeaders) else (401, AuthChallenge)).
Proof.
  intros Hrt Hov Hauth. destruct refusal_spec as (text & Href).
  pose proof (denied (cb_route cb) (cb_post cb) (cb_url cb) (r_auth r) (r_body r) d Hrt Hauth) as Hd.
  unfold answer. rewrite Hov.
  assert (forall r', r_streaming r' = r_streaming r ->
    let '(rc, r', d', restart) := respond (refusal cfg body_size) (Text (rsp_body (refusal cfg body_size))) r' d in
    d' = d /\ restart = false /\ r_auth r' = [] /\ r_streaming r' = r_streaming r /\
    rc_final rc = true /\ harmless (rc_body rc) /\
    (rc_status rc, rc_headers rc) =
      (if (length (ADMIN_PASSWORD cfg) =? 0)%nat then (403, NoHeaders) else (401, AuthChallenge))) as Hresp.
  { intros r' Hr'. rewrite Href. cbn. split_and!; try done. by destruct (length _ =? 0)%nat. }
  assert (rsp_status (refusal cfg body_size) =? 200 = false) as H200.
  { rewrite Href. cbn [rsp_status]. by destruct (length _ =? 0)%nat. }
  destruct (cb_route cb); try discriminate Hrt.
  all: try (rewrite coredump_denied, H200 by done; by apply Hresp).
  all: destruct (api_route _ _ _ _ _ _) as [m|]; [|discriminate Hd].
  all: rewrite Hd, ?H200, ?andb_false_r; by apply Hresp.
Qed.

Lemma answer_public cb snap r d : is_admin (cb_route cb) = false ->
  let '(rc, r', d', restart) := answer cfg cb snap r d in
  confined d d' /\ restart = false /\ (r_auth r' = [] \/ r_auth r' = r_auth r) /\
  r_streaming r' = r_streaming r /\ harmless (rc_body rc).
Proof.
  intros Hrt. unfold answer. destruct (r_overflow r); [cbn; by split_and!; auto|].
  pose proof (public_confined (cb_route cb) (cb_post cb) (cb_url cb) (r_auth r) (r_body r)) as Hm.
  revert Hrt Hm. destruct (cb_route cb); intros Hrt Hm; try discriminate Hrt; try (cbn; by split_and!; auto).
  all: cbv beta iota; destruct (api_route _ _ _ _ _ _) as [m|]; [|cbn; by split_and!; auto].
  all: destruct (Hm m Hrt eq_refl) as [Hc Hs]; specialize (Hc d); specialize (Hs d).
  all: destruct (m d) as [rsp d']; cbn; by split_and!; auto.
Qed.

Lemma stream_req r w : let '(_, r', _) := stream_coredump cfg r w in
  r_client r' = r_client r /\ r_body r' = r_body r /\ r_auth r' = r_auth r /\
  r_streaming r' = r_streaming r.
Proof.
  unfold stream_coredump. destruct (crash_read _ _ _ w) as [[ret bytes] w'].
  destruct (ret <=? 0); by split_and!.
Qed.
(** Answering leaves the client and the body, and at most clears the credentials. *)
Lemma answer_req cb snap r d : let '(_, r', _, _) := answer cfg cb snap r d in
  r_client r' = r_client r /\ r_body r' = r_body r /\ (r_auth r' = [] \/ r_auth r' = r_auth r).
Proof.
  unfold answer. destruct (r_overflow r); [cbn; auto|].
  destruct (cb_route cb).
  10: { destruct (pstop_api_coredump _ _ _ d) as [[rsp n] d1]. destruct (rsp_status rsp =? 200); [|cbn; auto].
    match goal with |- context [stream_coredump cfg ?r1 ?w] => pose proof (stream_req r1 w) as Hs;
      destruct (stream_coredump cfg r1 w) as [[rc r2] w2] end.
    cbn in Hs. destruct Hs as (-> & -> & -> & _). auto. }
  9: { cbn. auto. }
  all: cbv beta iota; destruct (api_route _ _ _ _ _ _) as [m|]; [|auto];
    destruct (m d) as [rsp d1]; destruct (bool_decide _ && _); cbn; auto.
Qed.

Lemma serve_ends s cb : ends cb = true ->
  serve cfg auth_size s cb = s <| reqs ::= fun t => req_release t (cb_client cb) |>.
Proof.
  unfold ends, serve, route_handler. destruct (cb_status cb); try discriminate; done.
Qed.
(** One callback's effect on the table. *)
Lemma serve_reqs s cb : ends cb = false ->
  match req_for (reqs s) (cb_client cb) with
  | None => serve cfg auth_size s cb = s
  | Some (i, table) => forall r, table !! i = Some r -> exists r',
      reqs (serve cfg auth_size s cb) = <[i := r']> table /\ r_client r' = r_client r /\
      (fits auth_size r -> fits auth_size r') /\
      (more cb -> r_streaming r = false -> r' = gather auth_size r cb)
  end.
Proof.
  intros He. unfold serve, route_handler.
  destruct (req_for (reqs s) (cb_client cb)) as [[i table]|]; [|unfold ends in He; by destruct (cb_status cb)].
  intros r Hi. rewrite (list_lookup_total_correct _ _ _ Hi).
  assert (ends cb = false -> forall A (a b : A), match cb_status cb with
    | HTTP_SERVER_TRANSACTION_ABORTED | HTTP_SERVER_TRANSACTION_COMPLETE => a | _ => b end = b) as Hst
    by (unfold ends; by destruct (cb_status cb)).
  rewrite (Hst He). clear Hst.
  destruct (r_streaming r) eqn:Hstr.
  { pose proof (stream_req r (d_os (dev s))) as Hs.
    destruct (stream_coredump cfg r (d_os (dev s))) as [[rc r'] w]. destruct Hs as (H1' & H2' & H3' & _).
    exists r'. cbn [snd]. split; [done|]. split; [done|]. split; [|done].
    unfold fits. by rewrite H2', H3'. }
  change (gather_body (cb_data cb) (capture_auth auth_size (cb_headers cb) r)) with (gather auth_size r cb).
  destruct (decide (cb_status cb = HTTP_SERVER_REQUEST_DATA_FINAL)) as [Hf|Hf].
  - rewrite bool_decide_eq_false_2 by tauto.
    pose proof (answer_req cb (snapshot s) (gather auth_size r cb) (dev s)) as Ha.
    destruct (answer cfg cb (snapshot s) (gather auth_size r cb) (dev s)) as [[[rc r'] d'] rst].
    destruct Ha as (Hc & Hb & Hau). exists r'. cbn [snd]. split; [done|].
    split; [by rewrite Hc, gather_client|]. split; [|unfold more; congruence].
    intros Hr. apply (gather_fits _ _ cb) in Hr as [Hr1 Hr2]. split; [|by rewrite Hb].
    destruct Hau as [->| ->]; [cbn; lia|done].
  - rewrite bool_decide_eq_true_2 by done. exists (gather auth_size r cb). cbn [snd].
    split; [done|]. split; [apply gather_client|]. split; [apply gather_fits|done].
Qed.

Lemma serve_all_snoc s h cb : serve_all cfg auth_size s (h ++ [cb]) = serve cfg auth_size (serve_all cfg auth_size s h) cb.
Proof. unfold serve_all. by rewrite foldl_app. Qed.

Lemma serve_table_wf s cb : table_wf auth_size (reqs s) -> table_wf auth_size (reqs (serve cfg auth_size s cb)).
Proof.
  intros Hwf. destruct (ends cb) eqn:He.
  - rewrite serve_ends by done. by apply table_wf_release.
  - pose proof (serve_reqs s cb He) as Hs.
    destruct (req_for (reqs s) (cb_client cb)) as [[i table]|] eqn:E; [|by rewrite Hs].
    pose proof (table_wf_claim _ _ _ _ _ Hwf E) as Hwt.
    pose proof (req_for_spec (reqs s) (cb_client cb)) as Hr. rewrite E in Hr. destruct Hr as (r & Hi & Hr & _).
    destruct (Hs r Hi) as (r' & -> & Hc & Hf & _).
    eapply table_wf_insert; [done|done|done|congruence|].
    apply Hf. by eapply table_wf_fits.
Qed.

Lemma serve_isolated n h s cb : (size (open_clients (h ++ [cb])) <= n)%nat ->
  isolated auth_size n h (reqs s) -> isolated auth_size n (h ++ [cb]) (reqs (serve cfg auth_size s cb)).
Proof.
  intros Hn Hiso. destruct (ends cb) eqn:He.
  - rewrite serve_ends by done. by apply isolated_release.
  - destruct (isolated_claim _ _ _ _ _ He Hiso Hn) as (i & table & r & E & Hi & Hr & Hown).
    pose proof (serve_reqs s cb He) as Hs. rewrite E in Hs.
    destruct (Hs r Hi) as (r' & -> & Hc & _ & Hm). by eapply isolated_update.
Qed.

Lemma within_snoc n h cb : within n (h ++ [cb]) -> within n h /\ (size (open_clients (h ++ [cb])) <= n)%nat.
Proof.
  intros Hw. split.
  - intros k. destruct (Nat.le_ge_cases k (length h)) as [Hk|Hk].
    + specialize (Hw k). by rewrite take_app_le in Hw.
    + specialize (Hw (length h)). rewrite take_app_length in Hw. by rewrite take_ge.
  - specialize (Hw (length (h ++ [cb]))). by rewrite take_ge in Hw.
Qed.
Lemma run_isolated n d snap h : within n h ->
  isolated auth_size n h (reqs (serve_all cfg auth_size (http_statics n d snap) h)).
Proof.
  induction h as [|cb h IH] using rev_ind; intros Hw; [apply isolated_init|].
  apply within_snoc in Hw as [Hw Hn]. rewrite serve_all_snoc. by apply serve_isolated; [|apply IH].
Qed.


(** *** Requests without credentials *)
Definition uninvited (cb : callback) : Prop :=
  authorized cfg (r_auth (capture_auth auth_size (cb_headers cb) zero_req)) = false.
Definition outsider (r : req_state) : Prop := authorized cfg (r_auth r) = false /\ r_streaming r = false.

Lemma outsider_zero c : outsider (zero_req <| r_client := c |>).
Proof. split; [apply no_header_unauthorized|done]. Qed.
Lemma gather_outsider r cb : uninvited cb -> outsider r -> outsider (gather auth_size r cb).
Proof.
  intros Hu [Ha Hs]. split; [|by rewrite gather_streaming].
  assert (r_auth (gather auth_size r cb) = r_auth (capture_auth auth_size (cb_headers cb) r)) as ->.
  { unfold gather, gather_body. destruct (length (cb_data cb) =? 0)%nat; [done|]. by case_match. }
  unfold uninvited, capture_auth in *. destruct (cb_headers cb) as [hs|]; [|done].
  by destruct (List.find _ hs) as [[? v]|].
Qed.
Lemma answer_outsider cb snap r d : outsider r ->
  let '(rc, r', d', restart) := answer cfg cb snap r d in
  outsider r' /\ confined d d' /\ restart = false /\ harmless (rc_body rc).
Proof.
  intros [Ha Hs]. destruct (is_admin (cb_route cb)) eqn:Hadm, (r_overflow r) eqn:Hov.
  1: { unfold answer. rewrite Hov. cbn. split; [|done]. split; [apply no_header_unauthorized|done]. }
  1: { pose proof (answer_refused cb snap r d Hadm Hov Ha) as Hr.
    destruct (answer cfg cb snap r d) as [[[rc r'] d'] restart].
    destruct Hr as (-> & -> & Hau & Hst & _ & Hh & _). split; [|done].
    split; [rewrite Hau; apply no_header_unauthorized|by rewrite Hst]. }
  all: pose proof (answer_public cb snap r d Hadm) as Hr;
    destruct (answer cfg cb snap r d) as [[[rc r'] d'] restart];
    destruct Hr as (Hc & -> & Hau & Hst & Hh); split_and!; try done; split;
    [destruct Hau as [->| ->]; [apply no_header_unauthorized|done]|by rewrite Hst].
Qed.

Lemma claim_outsider table c i t : Forall outsider table -> req_for table c = Some (i, t) ->
  Forall outsider t /\ outsider (t !!! i).
Proof.
  intros Hall E. pose proof (req_for_spec table c) as Hs. rewrite E in Hs.
  destruct Hs as (r & Hi & _ & Hcase).
  assert (Forall outsider t) as Ht.
  { destruct Hcase as [[-> _]|(_ & _ & r0 & _ & _ & ->)]; [done|].
    apply Forall_insert; [done|apply outsider_zero]. }
  split; [done|]. rewrite (list_lookup_total_correct _ _ _ Hi). rewrite Forall_lookup in Ht. by eapply Ht.
Qed.

Lemma serve_outsider s cb : Forall outsider (reqs s) -> uninvited cb ->
  let '(_, rc, s') := route_handler cfg auth_size cb s in
  Forall outsider (reqs s') /\ confined (dev s) (dev s') /\
  restart_scheduled s' = restart_scheduled s /\ harmless (rc_body rc).
Proof.
  intros Hall Hu. unfold route_handler.
  assert (Forall outsider (req_release (reqs s) (cb_client cb))) as Hrel.
  { apply Forall_fmap. eapply Forall_impl; [exact Hall|]. intros r Hr. cbn.
    case_bool_decide; [apply (outsider_zero None)|done]. }
  pose proof (claim_outsider (reqs s) (cb_client cb)) as Hcl.
  assert (let '(_, rc, s') :=
    match req_for (reqs s) (cb_client cb) with
    | None => (- ENOMEM, no_rsp, s)
    | Some (i, table) =>
        let r := gather auth_size (table !!! i) cb in
        if bool_decide (cb_status cb <> HTTP_SERVER_REQUEST_DATA_FINAL)
        then (0, no_rsp, s <| reqs := <[i := r]> table |>)
        else let '(rc, r, d, restart) := answer cfg cb (snapshot s) r (dev s) in
             (0, rc, s <| reqs := <[i := r]> table |> <| dev := d |>
                       <| restart_scheduled ::= orb restart |>)
    end in
    Forall outsider (reqs s') /\ confined (dev s) (dev s') /\
    restart_scheduled s' = restart_scheduled s /\ harmless (rc_body rc)) as Hmain.
  { destruct (req_for (reqs s) (cb_client cb)) as [[i table]|]; [|done].
    destruct (Hcl i table Hall eq_refl) as [Ht Hr]. apply (gather_outsider _ cb Hu) in Hr.
    cbv zeta. destruct (bool_decide _); [split; [by apply Forall_insert|done]|].
    pose proof (answer_outsider cb (snapshot s) _ (dev s) Hr) as Ha.
    destruct (answer cfg cb (snapshot s) _ (dev s)) as [[[rc r'] d'] restart].
    destruct Ha as (Hr' & Hc & -> & Hh). split; [by apply Forall_insert|done]. }
  destruct (cb_status cb); try done.
  all: destruct (req_for (reqs s) (cb_client cb)) as [[i table]|]; [|done].
  all: destruct (Hcl i table Hall eq_refl) as [_ [_ Hstr]]; rewrite Hstr; exact Hmain.
Qed.

(** *** Types *)
Lemma route_keeps_wf `{!JsonLaws} rt post url auth body m :
  api_route cfg rt post url auth body = Some m -> respects keeps_wf m.
Proof. destruct rt; cbn [api_route]; intros [= <-]; eauto with frames. Qed.
Lemma stream_device r d : device_wf d ->
  device_wf (d <| d_os := (stream_coredump cfg r (d_os d)).2 |>).
Proof. done. Qed.
Lemma answer_keeps_wf `{!JsonLaws} cb snap r d : device_wf d ->
  let '(_, _, d', _) := answer cfg cb snap r d in device_wf d'.
Proof.
  intros Hd. unfold answer. destruct (r_overflow r); [done|].
  pose proof (fun m => route_keeps_wf (cb_route cb) (cb_post cb) (cb_url cb) (r_auth r) (r_body r) m) as Hm.
  destruct (cb_route cb).
  10: { pose proof (coredump_keeps_wf cfg body_size (r_auth r) d Hd) as Hc.
    destruct (pstop_api_coredump _ _ _ d) as [[rsp n] d1]. destruct (rsp_status rsp =? 200); [|done].
    destruct (stream_coredump _ _ _) as [[rc r2] w2]. done. }
  9: done.
  all: cbv beta iota; destruct (api_route _ _ _ _ _ _) as [m|]; [|done];
    specialize (Hm m eq_refl d Hd); destruct (m d) as [rsp d1]; by destruct (bool_decide _ && _).
Qed.
Lemma serve_keeps_wf `{!JsonLaws} s cb : device_wf (dev s) -> device_wf (dev (serve cfg auth_size s cb)).
Proof.
  intros Hd. unfold serve, route_handler.
  assert (device_wf (dev (match req_for (reqs s) (cb_client cb) with
      | None => (- ENOMEM, no_rsp, s)
      | Some (i, table) =>
          let r := table !!! i in
          if r_streaming r then
            let '(rc, r, w) := stream_coredump cfg r (d_os (dev s)) in
            (0, rc, s <| reqs := <[i := r]> table |> <| dev ::= fun d => d <| d_os := w |> |>)
          else
            let r := gather_body (cb_data cb) (capture_auth auth_size (cb_headers cb) r) in
            if bool_decide (cb_status cb <> HTTP_SERVER_REQUEST_DATA_FINAL)
            then (0, no_rsp, s <| reqs := <[i := r]> table |>)
            else
              let '(rc, r, d, restart) := answer cfg cb (snapshot s) r (dev s) in
              (0, rc, s <| reqs := <[i := r]> table |> <| dev := d |>
                        <| restart_scheduled ::= orb restart |>)
      end).2)) as Hmain; [|by destruct (cb_status cb)].
  destruct (req_for (reqs s) (cb_client cb)) as [[i table]|]; [|done]. cbv zeta.
  destruct (r_streaming _); [by destruct (stream_coredump _ _ _) as [[rc r] w]|].
  destruct (bool_decide _); [done|].
  match goal with |- context [answer cfg cb ?sn ?r ?d] =>
    pose proof (answer_keeps_wf cb sn r d Hd) as Ha; destruct (answer cfg cb sn r d) as [[[rc r'] d'] rs] end.
  exact Ha.
Qed.

(** *** GET *)
Lemma get_reads res cb auth body m : res ∈ resources -> rs_get res = true ->
  cb_route cb = rs_route res -> cb_post cb = false ->
  api_route cfg (cb_route cb) (cb_post cb) (cb_url cb) auth body = Some m -> respects read_only m.
Proof.
  intros Hres Hget Hrt Hpost Hm. rewrite Hpost in Hm.
  unfold resources in Hres.
  repeat (apply elem_of_cons in Hres as [->|Hres];
    [cbn in Hget, Hrt; try discriminate Hget; rewrite Hrt in *; cbn [api_route] in Hm;
     try discriminate Hm; injection Hm as <-; solve [eauto with frames]|]).
  by apply not_elem_of_nil in Hres.
Qed.
Lemma answer_reads res cb snap r d : res ∈ resources -> rs_get res = true ->
  cb_route cb = rs_route res -> cb_post cb = false ->
  let '(_, _, d', _) := answer cfg cb snap r d in read_only d d'.
Proof.
  intros Hres Hget Hrt Hpost. unfold answer. destruct (r_overflow r); [done|].
  pose proof (fun m => get_reads res cb (r_auth r) (r_body r) m Hres Hget Hrt Hpost) as Hm.
  clear Hrt. destruct (cb_route cb).
  10: { pose proof (coredump_reads cfg body_size (r_auth r) d) as Hc.
    destruct (pstop_api_coredump _ _ _ d) as [[rsp n] d1]. destruct (rsp_status rsp =? 200); [|done].
    by destruct (stream_coredump _ _ _) as [[rc r2] w2]. }
  9: done.
  all: cbv beta iota; destruct (api_route _ _ _ _ _ _) as [m|]; [|done];
    specialize (Hm m eq_refl d); destruct (m d) as [rsp d1]; by destruct (bool_decide _ && _).
Qed.

(** *** Streaming *)
Lemma stream_all_whole `{!CoredumpLaws} fuel r w off :
  coredump_built cfg = true -> r_stream_off r = Z.of_nat off ->
  r_stream_size r = Z.of_nat (length (stored_dump w)) -> (off < length (stored_dump w))%nat ->
  (length (stored_dump w) - off <= fuel)%nat ->
  let rcs := stream_all cfg fuel r w in
  concat (map chunk rcs) = drop off (stored_dump w) /\
  map rc_final rcs = replicate (length rcs - 1) false ++ [true].
Proof.
  intros Hbuilt. cbv zeta. revert r w off. induction fuel as [|fuel IH]; intros r w off Hoff Hsize Hlt Hf; [lia|].
  cbn [stream_all]. unfold stream_coredump. rewrite Hoff, Hsize. unfold crash_read. rewrite Hbuilt.
  set (len := length (stored_dump w)) in *.
  set (n := Z.to_nat (Z.min (Z.of_nat body_size) (Z.of_nat len - Z.of_nat off))).
  assert (0 < n /\ off + n <= len)%nat as [Hn Hn'].
  { unfold n, body_size. rewrite body_max. lia. }
  destruct (dump_copy off n w Hn Hn') as (k & b & w' & E & Hk & Hb & Hw'). rewrite E.
  destruct (Z.leb_spec (Z.of_nat k) 0); [lia|]. rewrite Nat2Z.id. cbv zeta.
  set (r1 := r <| r_stream_off ::= fun o => o + Z.of_nat k |>).
  assert (r_stream_off r1 = Z.of_nat (off + k)) as Hoff1.
  { change (r_stream_off r1) with (r_stream_off r + Z.of_nat k). lia. }
  change (r_stream_size r1) with (r_stream_size r). rewrite Hsize, Hoff1.
  destruct (Z.leb_spec (Z.of_nat len) (Z.of_nat (off + k))) as [Hend|Hmore].
  - cbn -[take drop]. rewrite app_nil_r. split; [|done].
    rewrite Hb. apply take_ge. rewrite length_drop. fold len. lia.
  - cbn -[take drop stream_all]. destruct (IH r1 w' (off + k)%nat) as [Hc Hfin];
      [done|by rewrite Hw'|rewrite Hw'; fold len; lia|rewrite Hw'; fold len; lia|].
    rewrite Hc, Hw', Hfin. split.
    + rewrite Hb, <- drop_drop, take_drop. done.
    + rewrite Nat.sub_0_r. destruct (stream_all cfg fuel r1 w') eqn:Es; [by destruct fuel; cbn in Hfin|].
      cbn. by rewrite Nat.sub_0_r.
Qed.
End ServerLemmas.


(** * Properties *)
Section Properties.
Context `{!PstopLib} `{Settings} `{!NetIf} `{!Base64} `{!Coredump} `{!JsonLib}.
Variable cfg : api_config.
Variable auth_size : nat.

(** C5: Clients are isolated.  In any interleaving of callbacks, as long as the
    server keeps to its client limit, a client's request is answered exactly as if
    its own callbacks since its last transaction had been the only ones: the
    credentials captured are its own, and the body is the concatenation of its own
    data, whole, or refused past the buffer's 1024 bytes.  The only thing shared is
    the device. *)
Theorem clients_isolated n d snap h cb :
  let c := cb_client cb in
  within n (h ++ [cb]) -> cb_status cb = HTTP_SERVER_REQUEST_DATA_FINAL -> Forall more (own c h) ->
  let s := serve_all cfg auth_size (http_statics n d snap) h in
  let alone := gathered auth_size c (own c h ++ [cb]) in
  let data := concat (map cb_data (own c h ++ [cb])) in
  (if r_overflow alone then (REQ_BODY_MAX < length data)%nat else r_body alone = data) /\
  let '(rc, r', d', restart) := answer cfg cb (snapshot s) alone (dev s) in
  let '(ret, rc1, s1) := route_handler cfg auth_size cb s in
  ret = 0 /\ rc1 = rc /\ dev s1 = d' /\ restart_scheduled s1 = restart || restart_scheduled s.
Proof.
  cbv zeta. intros Hw Hf Hm. set (c := cb_client cb) in *.
  set (s := serve_all cfg auth_size _ h). split.
  { pose proof (gathered_body auth_size c (own c h ++ [cb])) as Hg. cbv zeta in Hg.
    destruct (r_overflow _); [done|]. by destruct Hg. }
  apply within_snoc in Hw as [Hw Hn]. pose proof (run_isolated cfg auth_size n d snap h Hw) as Hiso. fold s in Hiso.
  assert (ends cb = false) as He by (unfold ends; by rewrite Hf).
  destruct (isolated_claim _ _ _ _ _ He Hiso Hn) as (i & table & r & E & Hi & Hr & Hown).
  unfold route_handler. rewrite Hf, E, (list_lookup_total_correct _ _ _ Hi), (Hown Hm), gathered_streaming.
  fold c. change (gather_body (cb_data cb) (capture_auth auth_size (cb_headers cb) (gathered auth_size c (own c h))))
    with (gather auth_size (gathered auth_size c (own c h)) cb).
  rewrite <- gathered_snoc. rewrite bool_decide_eq_false_2 by tauto.
  by destruct (answer cfg cb (snapshot s) _ (dev s)) as [[[rc r'] d'] restart].
Qed.

(** The table of requests is always well formed: a client holds at most one
    slot, what a slot holds fits its arrays, and a free slot is zero - so once a
    client's transaction ends, completed or aborted, no slot holds its credentials
    or its body any more. *)
Theorem request_table_scrubbed n d snap h cb :
  let s := serve_all cfg auth_size (http_statics n d snap) (h ++ [cb]) in
  table_wf auth_size (reqs s) /\
  (ends cb = true -> forall r, r ∈ reqs s -> r_client r = Some (cb_client cb) -> False).
Proof.
  cbv zeta. split.
  - induction (h ++ [cb]) as [|cb' h' IH] using rev_ind; [apply table_wf_init|].
    rewrite serve_all_snoc. by apply serve_table_wf.
  - intros He r Hr Hc. rewrite serve_all_snoc, serve_ends in Hr by done.
    apply list_elem_of_lookup in Hr as [i Hi]. pose proof (clients_in _ _ _ _ Hi Hc) as Hin.
    cbn in Hin. rewrite clients_release in Hin. by apply list_elem_of_filter in Hin as [[] _].
Qed.

(** C6: Without the admin credentials nothing behind them changes.  Over any run
    of requests none of which carries valid credentials, whatever the routes,
    bodies and interleaving, the role, the device id, the stored networks, the
    health counters the ring does not drive, the warnings and the log verbosity
    are as they were, no restart is scheduled, and neither a byte of a coredump nor
    the admin page is sent. *)
Theorem outsiders_confined n d snap h :
  Forall (uninvited cfg auth_size) h ->
  let s0 := http_statics n d snap in
  let s := serve_all cfg auth_size s0 h in
  guarded_by (dev s) = guarded_by d /\ restart_scheduled s = false /\
  Forall (fun rc => harmless (rc_body rc)) (responses cfg auth_size s0 h).
Proof.
  cbv zeta. intros Hu.
  assert (forall s, Forall (outsider cfg) (reqs s) -> restart_scheduled s = false ->
    guarded_by (dev (serve_all cfg auth_size s h)) = guarded_by (dev s) /\
    restart_scheduled (serve_all cfg auth_size s h) = false /\
    Forall (fun rc => harmless (rc_body rc)) (responses cfg auth_size s h)) as Hgen.
  { induction Hu as [|cb h Hcb Hu IH]; intros s Hall Hrst; [done|].
    pose proof (serve_outsider cfg auth_size s cb Hall Hcb) as Hs.
    cbn [responses]. unfold serve_all. cbn [foldl]. fold (serve_all cfg auth_size).
    unfold serve at 2 4. destruct (route_handler cfg auth_size cb s) as [[ret rc] s'] eqn:E.
    destruct Hs as (Hall' & Hc & Hr & Hh). cbn [snd].
    destruct (IH s' Hall') as (Hg & Hr' & Hf); [by rewrite Hr|].
    split; [by rewrite <- Hc|]. split; [done|]. by constructor. }
  apply (Hgen (http_statics n d snap)); [|done].
  apply Forall_replicate. apply (outsider_zero cfg None).
Qed.

(** An admin route refuses a request without valid credentials before it does
    anything: the device is untouched, no restart is scheduled, the captured
    credentials are wiped, and the answer is 401 with a Basic challenge, or 403
    when the build has no password at all. *)
Theorem admin_routes_refuse cb snap r d :
  is_admin (cb_route cb) = true -> r_overflow r = false -> authorized cfg (r_auth r) = false ->
  let '(rc, r', d', restart) := answer cfg cb snap r d in
  d' = d /\ restart = false /\ r_auth r' = [] /\ rc_final rc = true /\ harmless (rc_body rc) /\
  (rc_status rc, rc_headers rc) =
    (if (length (ADMIN_PASSWORD cfg) =? 0)%nat then (403, NoHeaders) else (401, AuthChallenge)).
Proof.
  intros Hrt Hov Hau. pose proof (answer_refused cfg cb snap r d Hrt Hov Hau) as Ha.
  destruct (answer cfg cb snap r d) as [[[rc r'] d'] restart]. tauto.
Qed.

(** C39: The device's types survive every request.  Whatever is sent to whatever
    route in whatever order, the settings stay in their C types - four peers with
    32-bit addresses and ids and 16-bit ports, four networks of NUL-terminated
    arrays of the right sizes, a ring offset of 0..15, a 32-bit device id - and
    the comparator's tables keep their sizes. *)
Theorem requests_keep_types `{!JsonLaws} n d snap h :
  device_wf d -> device_wf (dev (serve_all cfg auth_size (http_statics n d snap) h)).
Proof.
  intros Hd. induction h as [|cb h IH] using rev_ind; [done|].
  rewrite serve_all_snoc. by apply serve_keeps_wf.
Qed.

(** A coredump arrives whole.  An authorized request for a stored dump is
    answered by a chunk of at most the response buffer, the next callbacks send the
    following ones, and the stream ends: exactly its last chunk is final, after at
    most one chunk per byte, and the chunks put together are the dump. *)
Theorem coredump_streams_whole `{!CoredumpLaws} cb snap r d :
  cb_route cb = ROUTE_COREDUMP -> r_overflow r = false -> authorized cfg (r_auth r) = true ->
  coredump_built cfg = true -> coredump_has_stored (d_os d) = 1 -> stored_dump (d_os d) <> [] ->
  let '(rc, r', d', _) := answer cfg cb snap r d in
  let rcs := rc :: (if rc_final rc then [] else stream_all cfg (length (stored_dump (d_os d))) r' (d_os d')) in
  concat (map chunk rcs) = stored_dump (d_os d) /\
  map rc_final rcs = replicate (length rcs - 1) false ++ [true].
Proof.
  intros Hrt Hov Hau Hb Hst Hne. pose proof (dump_size _ Hst) as Hsize.
  assert (0 < length (stored_dump (d_os d)))%nat as Hpos by (destruct (stored_dump (d_os d)); [done|cbn; lia]).
  assert (pstop_api_coredump cfg (r_auth r) body_size d =
    ((init_rsp <| rsp_status := 200 |>, Z.of_nat (length (stored_dump (d_os d)))), d)) as Hcd.
  { unfold pstop_api_coredump, bind, get, crash_size. rewrite admin_ok_spec, Hau. cbn [negb]. cbv beta iota zeta.
    rewrite Hb, Hst. change (negb (1 =? 1)) with false. cbn [negb]. cbv iota. rewrite Hsize.
    destruct (Z.ltb_spec 0 (Z.of_nat (length (stored_dump (d_os d))))); [|lia].
    destruct (Z.eqb_spec (Z.of_nat (length (stored_dump (d_os d)))) 0); [lia|]. done. }
  unfold answer. rewrite Hov, Hrt, Hcd. cbv beta iota zeta. change (rsp_status _ =? 200) with true. cbv iota.
  match goal with |- context [stream_coredump cfg ?x (d_os d)] => set (r0 := x) end.
  pose proof (stream_all_whole cfg (S (length (stored_dump (d_os d)))) r0 (d_os d) 0 Hb eq_refl eq_refl Hpos ltac:(lia)) as Hs.
  cbn [stream_all] in Hs. destruct (stream_coredump cfg r0 (d_os d)) as [[rc r'] w].
  exact Hs.
Qed.

(** A GET only looks.  Whatever resource the service publishes for GET, a GET
    of it leaves the settings, the comparator, the locate mode and everything behind
    the credentials exactly as they were: a browser that prefetches or retries changes
    nothing. *)
Theorem get_requests_read_only res cb snap r d :
  res ∈ resources -> rs_get res = true ->
  cb_route cb = rs_route res -> cb_post cb = false ->
  let '(_, _, d', _) := answer cfg cb snap r d in
  d_settings d' = d_settings d /\ d_lockstep d' = d_lockstep d /\
  locate_until_ms d' = locate_until_ms d /\ guarded_by d' = guarded_by d.
Proof.
  intros Hres Hget Hrt Hpost. exact (answer_reads cfg res cb snap r d Hres Hget Hrt Hpost).
Qed.
End Properties.

(** Paths and routes are one to one. *)
Lemma resources_distinct : NoDup (map rs_path resources) /\ NoDup (map rs_route resources).
Proof. split; apply (bool_decide_unpack _); vm_compute; exact I. Qed.

(** * Witnesses *)
From S2P Require Import Instances.

#[export] Instance sim_coredump_laws : CoredumpLaws.
Proof.
  refine {| stored_dump := fun _ : os => map (fun i => Z.of_nat i mod 251) (seq 0 5000) |}.
  - intros w _. by rewrite length_map, length_seq.
  - intros off n w Hn Hoff. cbn [coredump_copy sim_coredump]. rewrite Nat2Z.id.
    set (dump := map _ _) in *. clearbody dump.
    exists n, (take n (drop off dump)), w. rewrite length_take, length_drop.
    split; [repeat f_equal; lia|]. split; [lia|]. split; [|done]. by rewrite take_take, Nat.min_id.
Defined.

Lemma settings_fields_ok ts : forall r ro id, r < 4 -> 0 <= ro < 2 ^ 32 -> 0 <= id < 2 ^ 32 ->
  let x := settings_fields ts (r, (ro, id)) in
  x.1 < 4 /\ 0 <= x.2.1 < 2 ^ 32 /\ 0 <= x.2.2 < 2 ^ 32.
Proof.
  assert (forall r b, r < 4 -> 0 <= b < 4 -> Z.lor r b < 4) as Hlor.
  { intros r b Hr Hb. destruct (Z.leb_spec 0 r).
    - assert (r = 0 \/ r = 1 \/ r = 2 \/ r = 3) as Hc by lia.
      assert (b = 0 \/ b = 1 \/ b = 2 \/ b = 3) as Hd by lia.
      destruct Hc as [->|[->|[->| ->]]], Hd as [->|[->|[->| ->]]]; done.
    - assert (Z.lor r b < 0) by (apply Z.lor_neg; by left). lia. }
  revert ts. fix IH 1. intros [|[k|z] [|[k'|z'] ts]] r ro id Hr Hro Hid; cbn [settings_fields fst snd];
    unfold EINVAL; try (split_and!; (done || lia)).
  destruct (bool_decide (k = _)); [|destruct (bool_decide (k = _))].
  - apply IH; [apply Hlor; lia|apply u32_range|done].
  - apply IH; [apply Hlor; lia|done|apply u32_range].
  - cbn [fst snd]. split_and!; (done || lia).
Qed.
#[export] Instance sim_json_laws : JsonLaws.
Proof.
  split.
  - intros b r ro id E. cbn [json_parse_settings sim_json] in E.
    pose proof (settings_fields_ok (json_tokens b None None) 0 0 0 ltac:(lia) ltac:(lia) ltac:(lia)) as Hs.
    rewrite E in Hs. exact (proj2 Hs).
  - intros b. cbn [json_parse_settings sim_json]. apply settings_fields_ok; lia.
  - intros b. cbn [json_parse_wifi sim_json].
    destruct (json_tokens b None None) as [|[k|] ts]; try (cbn; lia).
    destruct (bool_decide _); cbn [snd]; [rewrite length_take; lia|cbn; lia].
Qed.

Lemma within_check n h :
  forallb (fun k => (size (open_clients (take k h)) <=? n)%nat) (seq 0 (S (length h))) = true -> within n h.
Proof.
  rewrite forallb_forall. intros Hall k. destruct (Nat.le_ge_cases k (length h)) as [Hk|Hk].
  - apply Nat.leb_le, Hall, in_seq. lia.
  - specialize (Hall (length h)). rewrite take_ge in Hall by done. rewrite take_ge by done.
    apply Nat.leb_le, Hall, in_seq. lia.
Qed.

(** Client 1 posts settings in two pieces, with credentials; client 2 asks for the
    role, without, in between. *)
Definition demo_cb (c : nat) (rt : route) (post : bool) (url : string)
           (st : http_transaction_status) (auth : option cstr) (data : string) : callback :=
  mk_callback c rt post (to_chars url) st
    (Some match auth with Some a => [(to_chars "authorization", a)] | None => [] end)
    (to_chars (format data [])).
Definition demo_first : callback :=
  demo_cb 1 ROUTE_ADMIN_SETTINGS true "/admin/api/settings" HTTP_SERVER_REQUEST_DATA_MORE
    (Some demo_auth) "{'ring_of".
Definition demo_other : callback :=
  demo_cb 2 ROUTE_ROLE true "/api/role?role=operator" HTTP_SERVER_REQUEST_DATA_FINAL None "junk".
Definition demo_last : callback :=
  (demo_cb 1 ROUTE_ADMIN_SETTINGS true "/admin/api/settings" HTTP_SERVER_REQUEST_DATA_FINAL
    None "fset':7}") <| cb_headers := None |>.
Definition demo_start : http_server := http_statics 2 demo_device [].
Definition demo_served : http_server :=
  serve_all demo_api_config 64 demo_start [demo_first; demo_other].

Example clients_isolated_witness :
  let '(ret, rc, s1) := route_handler demo_api_config 64 demo_last demo_served in
  ret = 0 /\ rc_status rc = 200.
Proof.
  destruct (@clients_isolated wire_lib sim_os sim_settings sim_netif sim_base64 sim_coredump sim_json
    demo_api_config 64 2 demo_device [] [demo_first; demo_other] demo_last) as [_ P].
  - apply within_check. vm_compute. reflexivity.
  - reflexivity.
  - repeat constructor.
  - change (serve_all _ _ _ _) with demo_served in P.
    destruct (answer _ _ _ _ _) as [[[rc r'] d'] rst] eqn:Ea.
    destruct (route_handler _ _ demo_last demo_served) as [[ret rc1] s1].
    destruct P as (-> & -> & _ & _). split; [reflexivity|].
    apply (f_equal (fun x => rc_status (fst (fst (fst x))))) in Ea. cbn [fst] in Ea. rewrite <- Ea.
    vm_compute. reflexivity.
Defined.

Definition demo_done : callback := demo_last <| cb_status := HTTP_SERVER_TRANSACTION_COMPLETE |>.
Example request_table_scrubbed_witness :
  Forall (fun r => r_client r <> Some 1%nat)
    (reqs (serve_all demo_api_config 64 demo_start ([demo_first; demo_other; demo_last] ++ [demo_done]))).
Proof.
  apply Forall_forall. intros r Hr Hc.
  exact (proj2 (@request_table_scrubbed wire_lib sim_os sim_settings sim_netif sim_base64 sim_coredump sim_json
    demo_api_config 64 2 demo_device [] [demo_first; demo_other; demo_last] demo_done) eq_refl r Hr Hc).
Defined.

Definition demo_intruder : callback :=
  demo_cb 3 ROUTE_ADMIN_RESTART true "/admin/api/restart" HTTP_SERVER_REQUEST_DATA_FINAL
    (Some (to_chars "Basic YWRtaW46Z3Vlc3M=")) "".
Example outsiders_confined_witness :
  guarded_by (dev (serve_all demo_api_config 64 demo_start [demo_other; demo_intruder])) =
  guarded_by demo_device.
Proof.
  refine (proj1 (@outsiders_confined wire_lib sim_os sim_settings sim_netif sim_base64 sim_coredump sim_json
    demo_api_config 64 2 demo_device [] [demo_other; demo_intruder] _)).
  repeat constructor.
Defined.

Example admin_routes_refuse_witness :
  let '(rc, r', d', restart) :=
    answer demo_api_config demo_intruder [] (gathered 64 3 [demo_intruder]) demo_device in
  (rc_status rc, rc_headers rc) = (401, AuthChallenge).
Proof.
  pose proof (@admin_routes_refuse wire_lib sim_os sim_settings sim_netif sim_base64 sim_coredump sim_json
    demo_api_config demo_intruder [] (gathered 64 3 [demo_intruder]) demo_device eq_refl eq_refl
    ltac:(vm_compute; reflexivity)) as P.
  destruct (answer _ _ _ _ _) as [[[rc r'] d'] restart]. exact (proj2 (proj2 (proj2 (proj2 (proj2 P))))).
Defined.

Lemma demo_device_wf : device_wf demo_device.
Proof.
  split; [|exact demo_two_wf]. split; [reflexivity| | | |reflexivity|].
  - repeat (constructor; [unfold peer_wf, u32_field; cbn; lia|]). constructor.
  - unfold u32_field. cbn. lia.
  - cbn. lia.
  - repeat (constructor; [repeat split; vm_compute; reflexivity|]). constructor.
Qed.
Example requests_keep_types_witness :
  device_wf (dev (serve_all demo_api_config 64 demo_start [demo_first; demo_other; demo_last])).
Proof.
  exact (@requests_keep_types wire_lib sim_os sim_settings sim_netif sim_base64 sim_coredump sim_json
    demo_api_config 64 sim_json_laws 2 demo_device [] [demo_first; demo_other; demo_last] demo_device_wf).
Defined.

Definition demo_dump_cb : callback :=
  demo_cb 1 ROUTE_COREDUMP false "/api/coredump" HTTP_SERVER_REQUEST_DATA_FINAL (Some demo_auth) "".
Example coredump_streams_whole_witness :
  let '(rc, r', d', _) := answer demo_api_config demo_dump_cb [] (gathered 64 1 [demo_dump_cb]) demo_device in
  length (concat (map chunk (rc :: (if rc_final rc then [] else
    stream_all demo_api_config (length (stored_dump (d_os demo_device))) r' (d_os d'))))) = 5000%nat.
Proof.
  pose proof (@coredump_streams_whole wire_lib sim_os sim_settings sim_netif sim_base64 sim_coredump sim_json
    demo_api_config sim_coredump_laws demo_dump_cb [] (gathered 64 1 [demo_dump_cb]) demo_device
    eq_refl eq_refl ltac:(vm_compute; reflexivity) eq_refl eq_refl ltac:(vm_compute; discriminate)) as P.
  destruct (answer _ _ _ _ _) as [[[rc r'] d'] rs]. rewrite (proj1 P). vm_compute. reflexivity.
Defined.

Definition demo_state_cb : callback :=
  demo_cb 1 ROUTE_STATE false "/state.json" HTTP_SERVER_REQUEST_DATA_FINAL None "".
Example get_requests_read_only_witness :
  let '(_, _, d', _) := answer demo_api_config demo_state_cb [] (gathered 64 1 [demo_state_cb]) demo_device in
  d_settings d' = d_settings demo_device.
Proof.
  pose proof (@get_requests_read_only wire_lib sim_os sim_settings sim_netif sim_base64 sim_coredump sim_json
    demo_api_config (mk_resource "/state.json" true false ROUTE_STATE JSON) demo_state_cb []
    (gathered 64 1 [demo_state_cb]) demo_device ltac:(apply list_elem_of_here) eq_refl eq_refl eq_refl) as P.
  destruct (answer _ _ _ _ _) as [[[rc r'] d'] rs]. exact (proj1 P).
Defined.
