(* ===== verification/Secrets.v ===== *)
(** What the control plane never says: the stored WiFi passwords.

    Two devices that differ only in the passwords of their stored networks - open
    networks staying open - are told apart by no request but one that rewrites the
    list.  A handler is [blind] when it commutes with swapping the passwords; every
    handler is, and so is the server. *)

From Stdlib Require Import Ascii.
From S2P Require Import Prelude Printf Platform AppSettings Session Lockstep Health HttpUtil Uplink Wifi Ring Api Frames HttpRequests HttpServer.
#[local] Open Scope Z_scope.
#[local] Open Scope act_scope.

(** * Specification *)
Definition same_but_password (n m : pstop_wifi_net) : Prop :=
  ssid n = ssid m /\ (nth 0 (pass n) 0 =? 0) = (nth 0 (pass m) 0 =? 0).

Section Secrets.
Context `{!PstopLib} `{Settings} `{!NetIf} `{!Base64} `{!Coredump} `{!JsonLib}.
Variable cfg : api_config.
Variable auth_size : nat.

Definition with_wifi (ws : list pstop_wifi_net) (d : device) : device :=
  d <| d_settings ::= fun st => st <| wifi := ws |> |>.
Definition swapped (d : device) (ws : list pstop_wifi_net) : Prop :=
  Forall2 same_but_password (wifi (d_settings d)) ws.
Definition blind {A} (m : act A) : Prop := forall d ws, swapped d ws ->
  m (with_wifi ws d) = ((m d).1, with_wifi ws (m d).2) /\ wifi (d_settings (m d).2) = wifi (d_settings d).

(** * Lemmas *)
Lemma blind_ret {A} (a : A) : blind (api_ret a).
Proof. done. Qed.
Lemma blind_get {A} (f : device -> A) : (forall d ws, f (with_wifi ws d) = f d) -> blind (get f).
Proof. intros Hf d ws _. split; [|done]. unfold get. cbn. by rewrite Hf. Qed.
Lemma blind_bind {A B} (m : act A) (k : A -> act B) : blind m -> (forall a, blind (k a)) -> blind (bind m k).
Proof.
  intros Hm Hk d ws Hs. unfold bind. destruct (Hm d ws Hs) as [-> Hw].
  destruct (m d) as [a d1]. cbn [fst snd] in *.
  destruct (Hk a d1 ws) as [E Hw']; [unfold swapped; by rewrite Hw|]. rewrite E. split; [done|congruence].
Qed.
(** The settings may be read by what does not look at the networks. *)
Lemma blind_settings {A} (k : app_settings -> act A) :
  (forall st ws d, k (st <| wifi := ws |>) d = k st d) -> (forall st, blind (k st)) ->
  blind (bind (get d_settings) k).
Proof.
  intros Hk Hb d ws Hs. unfold bind, get. cbv beta iota.
  change (d_settings (with_wifi ws d)) with ((d_settings d) <| wifi := ws |>). rewrite Hk. by apply Hb.
Qed.
Lemma blind_on_settings (f : app_settings -> os -> Z * app_settings * os) :
  (forall st ws w, f (st <| wifi := ws |>) w = ((f st w).1.1, (f st w).1.2 <| wifi := ws |>, (f st w).2)) ->
  (forall st w, wifi (f st w).1.2 = wifi st) -> blind (on_settings f).
Proof.
  intros Hf Hw d ws Hs. unfold on_settings.
  change (d_settings (with_wifi ws d)) with ((d_settings d) <| wifi := ws |>).
  change (d_os (with_wifi ws d)) with (d_os d). rewrite Hf. specialize (Hw (d_settings d) (d_os d)).
  destruct (f (d_settings d) (d_os d)) as [[r st'] w']. cbn [fst snd] in *. done.
Qed.

Lemma uptime_blind : blind uptime_get.
Proof.
  intros d ws _. unfold uptime_get. change (d_os (with_wifi ws d)) with (d_os d).
  by destruct (k_uptime_get (d_os d)).
Qed.
Lemma reconfigure_blind slot : blind (pstop_lockstep_request_reconfigure slot).
Proof.
  intros d ws _. unfold pstop_lockstep_request_reconfigure. change (d_lockstep (with_wifi ws d)) with (d_lockstep d).
  by destruct (request_reconfigure slot (d_lockstep d)).
Qed.
Lemma rebond_blind slot : blind (pstop_lockstep_request_rebond slot).
Proof.
  intros d ws _. unfold pstop_lockstep_request_rebond. change (d_lockstep (with_wifi ws d)) with (d_lockstep d).
  by destruct (request_rebond slot (d_lockstep d)).
Qed.
Lemma locate_blind on : blind (act_leds_locate on).
Proof.
  intros d ws _. unfold act_leds_locate. change (d_os (with_wifi ws d)) with (d_os d).
  by destruct (leds_locate on (d_os d)).
Qed.
Lemma locate_active_blind : blind act_locate_active.
Proof.
  intros d ws _. unfold act_locate_active. change (d_os (with_wifi ws d)) with (d_os d).
  change (locate_until_ms (with_wifi ws d)) with (locate_until_ms d).
  by destruct (leds_locate_active (locate_until_ms d) (d_os d)).
Qed.
Lemma snapshot_blind : blind (act_snapshot cfg).
Proof.
  intros d ws _. unfold act_snapshot. change (d_os (with_wifi ws d)) with (d_os d).
  change (d_health (with_wifi ws d)) with (d_health d).
  by destruct (health_snapshot_get (ac_health cfg) (d_health d) (d_os d)) as [[s h] w].
Qed.
Lemma health_blind f : blind (on_health f).
Proof.
  intros d ws _. unfold on_health. change (d_os (with_wifi ws d)) with (d_os d).
  change (d_health (with_wifi ws d)) with (d_health d).
  by destruct (f (d_health d) (d_os d)) as [[r h] w].
Qed.
Lemma verbose_blind on : blind (pstop_verbose_set cfg on).
Proof. intros d ws _. unfold pstop_verbose_set. by destruct (verbose_built cfg). Qed.
Lemma set_peer_blind slot ip port id : blind (on_settings (fun st => app_settings_set_peer st slot ip port id)).
Proof.
  apply blind_on_settings; intros; unfold app_settings_set_peer, store_peer;
    (destruct (negb (slot_ok slot)); [done|]); destruct (save_peer _ _ w) as [r w']; by destruct (r =? 0).
Qed.
Lemma clear_peer_blind slot : blind (on_settings (fun st => app_settings_clear_peer st slot)).
Proof.
  apply blind_on_settings; intros; unfold app_settings_clear_peer, store_peer;
    (destruct (negb (slot_ok slot)); [done|]); destruct (save_peer _ _ w) as [r w']; by destruct (r =? 0).
Qed.
Lemma set_ring_offset_blind n : blind (on_settings (fun st => app_settings_set_ring_offset st n)).
Proof.
  apply blind_on_settings; intros; unfold app_settings_set_ring_offset;
    (destruct (16 <=? n); [done|]); destruct (settings_save_one _ _ w) as [r w']; by destruct (negb (r =? 0)).
Qed.
Lemma set_operator_blind b : blind (on_settings (fun st => app_settings_set_operator st b)).
Proof.
  apply blind_on_settings; intros; unfold app_settings_set_operator;
    destruct (settings_save_one _ _ w) as [r w']; by destruct (negb (r =? 0)).
Qed.
Lemma set_device_id_blind id : blind (on_settings (fun st => app_settings_set_device_id st id)).
Proof.
  apply blind_on_settings; intros; unfold app_settings_set_device_id;
    destruct (settings_save_one _ _ w) as [r w']; by destruct (negb (r =? 0)).
Qed.
Lemma uplink_blind : blind (act_uplink cfg).
Proof. by apply blind_get. Qed.
End Secrets.

#[export] Hint Resolve uptime_blind reconfigure_blind rebond_blind locate_blind locate_active_blind
  snapshot_blind health_blind verbose_blind set_peer_blind clear_peer_blind set_ring_offset_blind
  set_operator_blind set_device_id_blind uplink_blind : frames.

Ltac walk_blind :=
  repeat first
    [ solve [eauto with frames]
    | apply blind_ret
    | apply blind_settings; [reflexivity|intros ?]
    | apply blind_bind; [|intros ?]
    | apply blind_get; reflexivity
    | lazymatch goal with |- blind (match ?x with _ => _ end) => destruct x eqn:? end
    | progress cbv zeta ].

Section Handlers.
Context `{!PstopLib} `{Settings} `{!NetIf} `{!Base64} `{!Coredump} `{!JsonLib}.
Variable cfg : api_config.
Variable cap : nat.
Lemma state_out_wifi st ws l now up level locate idx dump :
  state_out cfg cap (st <| wifi := ws |>) l now up level locate idx dump =
  state_out cfg cap st l now up level locate idx dump.
Proof.
  unfold state_out. destruct (loop_health 0 l) as [hi0 lo0], (loop_health 1 l) as [hi1 lo1]. cbv zeta.
  change (role_str (st <| wifi := ws |>)) with (role_str st).
  change (app_settings_effective_device_id (st <| wifi := ws |>)) with (app_settings_effective_device_id st).
  change (ring_offset (st <| wifi := ws |>)) with (ring_offset st).
  change (peer_of (st <| wifi := ws |>) 0) with (peer_of st 0).
  f_equal.
Qed.
Lemma state_blind : blind (pstop_api_state cfg cap).
Proof.
  unfold pstop_api_state. apply blind_settings; [|intros st; walk_blind].
  intros st ws d. unfold bind, get. cbv beta iota. destruct (uptime_get d) as [t d1], (act_uplink cfg d1) as [u d2].
  destruct (act_locate_active d2) as [b d3]. by rewrite state_out_wifi.
Qed.
Lemma set_slot_blind slot url : blind (set_slot slot url).
Proof. unfold set_slot. walk_blind. Qed.
Lemma clear_slot_blind slot : blind (clear_slot slot).
Proof. unfold clear_slot. walk_blind. Qed.
#[local] Hint Resolve set_slot_blind clear_slot_blind : frames.
Lemma peer_blind url : blind (pstop_api_pstop_peer url cap).
Proof. unfold pstop_api_pstop_peer. walk_blind. Qed.
Lemma peers_blind url : blind (pstop_api_pstop_peers url cap).
Proof. unfold pstop_api_pstop_peers. walk_blind. Qed.
Lemma ring_offset_blind url : blind (pstop_api_ring_offset url cap).
Proof. unfold pstop_api_ring_offset. walk_blind. Qed.
Lemma ring_led1_blind url : blind (pstop_api_ring_led1 url cap).
Proof. unfold pstop_api_ring_led1. walk_blind. Qed.
Lemma health_route_blind : blind (pstop_api_health cfg cap).
Proof. unfold pstop_api_health. walk_blind. Qed.
Lemma role_blind post url auth : blind (pstop_api_role cfg post url auth cap).
Proof. unfold pstop_api_role. walk_blind. Qed.
Lemma status_blind auth : blind (pstop_api_admin_status cfg auth cap).
Proof. unfold pstop_api_admin_status. walk_blind. Qed.
Lemma restart_blind auth : blind (pstop_api_admin_restart cfg auth cap).
Proof. unfold pstop_api_admin_restart. walk_blind. Qed.
Lemma health_reset_blind url auth : blind (pstop_api_health_reset cfg url auth cap).
Proof. unfold pstop_api_health_reset. walk_blind. Qed.
Lemma coredump_blind auth : blind (pstop_api_coredump cfg auth cap).
Proof. unfold pstop_api_coredump. walk_blind. Qed.
Lemma page_blind auth : blind (pstop_api_admin_page cfg auth cap).
Proof. unfold pstop_api_admin_page. walk_blind. Qed.
Lemma reconfigure_all_blind ss : blind (reconfigure_all ss).
Proof. induction ss as [|s ss IH]; cbn [reconfigure_all]; walk_blind. Qed.
Lemma settings_reply_blind rsp : blind (settings_reply cap rsp).
Proof. unfold settings_reply. walk_blind. Qed.
#[local] Hint Resolve reconfigure_all_blind settings_reply_blind : frames.
Lemma admin_settings_blind post body auth : blind (pstop_api_admin_settings cfg post body auth cap).
Proof. unfold pstop_api_admin_settings. walk_blind. Qed.
Lemma admin_verbose_blind toggle auth : blind (pstop_api_admin_verbose cfg toggle auth cap).
Proof. unfold pstop_api_admin_verbose. walk_blind. Qed.
End Handlers.
#[export] Hint Resolve state_blind peer_blind peers_blind ring_offset_blind ring_led1_blind
  health_route_blind role_blind status_blind restart_blind health_reset_blind coredump_blind page_blind
  admin_settings_blind admin_verbose_blind : frames.

Section Server.
Context `{!PstopLib} `{Settings} `{!NetIf} `{!Base64} `{!Coredump} `{!JsonLib}.
Variable cfg : api_config.
Variable auth_size : nat.

(** The listing shows names and masks. *)
Lemma out_wifi_swapped st ws acc i : Forall2 same_but_password (wifi st) ws ->
  out_wifi (st <| wifi := ws |>) acc i = out_wifi st acc i.
Proof.
  intros Hs. unfold out_wifi. destruct acc as [o first].
  assert (same_but_password (wifi st !!! i) (ws !!! i)) as [Hssid Hpass].
  { rewrite !list_lookup_total_alt. destruct (wifi st !! i) as [n|] eqn:E.
    - by destruct (Forall2_lookup_l _ _ _ _ _ Hs E) as (m & -> & ?).
    - apply lookup_ge_None in E. rewrite (Forall2_length _ _ _ Hs) in E.
      rewrite (proj2 (lookup_ge_None ws i)) by done. done. }
  unfold app_settings_wifi_get. destruct (_ || _); [done|]. rewrite Nat2Z.id.
  change (wifi (st <| wifi := ws |>)) with ws. by rewrite Hssid, Hpass.
Qed.
Lemma wifi_listing_blind cap rsp : blind (wifi_listing cap rsp).
Proof.
  intros d ws Hs. unfold wifi_listing, bind, get, api_ret. cbv beta iota zeta.
  change (d_settings (with_wifi ws d)) with ((d_settings d) <| wifi := ws |>).
  change (d_wifi (with_wifi ws d)) with (d_wifi d).
  rewrite (foldl_same _ (out_wifi (d_settings d))) by (intros; by apply out_wifi_swapped).
  by destruct (foldl (out_wifi (d_settings d)) _ _) as [o first].
Qed.
Lemma admin_wifi_blind body auth cap : blind (pstop_api_admin_wifi cfg false body auth cap).
Proof.
  unfold pstop_api_admin_wifi. destruct (admin_ok cfg auth cap init_rsp) as [[] rsp]; cbn [negb];
    [apply wifi_listing_blind|apply blind_ret].
Qed.
#[local] Hint Resolve admin_wifi_blind : frames.

(** The request that rewrites the list. *)
Definition rewrites_wifi (cb : callback) : Prop := cb_route cb = ROUTE_ADMIN_WIFI /\ cb_post cb = true.

Lemma route_blind cb auth body m : ~ rewrites_wifi cb ->
  api_route cfg (cb_route cb) (cb_post cb) (cb_url cb) auth body = Some m -> blind m.
Proof.
  unfold rewrites_wifi. intros Hn. destruct (cb_route cb); cbn [api_route]; intros [= <-]; eauto with frames.
  destruct (cb_post cb); [by destruct Hn|]. apply admin_wifi_blind.
Qed.

Lemma answer_blind cb snap r d ws : ~ rewrites_wifi cb -> swapped d ws ->
  let '(rc, r', d', restart) := answer cfg cb snap r d in
  answer cfg cb snap r (with_wifi ws d) = (rc, r', with_wifi ws d', restart) /\ swapped d' ws.
Proof.
  intros Hn Hs. unfold answer. destruct (r_overflow r); [done|].
  pose proof (fun m => route_blind cb (r_auth r) (r_body r) m Hn) as Hm. clear Hn.
  destruct (cb_route cb).
  10: { destruct (coredump_blind cfg body_size (r_auth r) d ws Hs) as [-> Hw].
    destruct (pstop_api_coredump _ _ _ d) as [[rsp n] d1]. cbn [fst snd] in *.
    assert (swapped d1 ws) as Hs1 by (unfold swapped; by rewrite Hw).
    destruct (rsp_status rsp =? 200); [|done]. change (d_os (with_wifi ws d1)) with (d_os d1).
    by destruct (stream_coredump _ _ _) as [[rc r2] w2]. }
  9: done.
  all: cbv beta iota; destruct (api_route _ _ _ _ _ _) as [m|]; [|done];
    destruct (Hm m eq_refl d ws Hs) as [-> Hw]; destruct (m d) as [rsp d1]; cbn [fst snd] in *;
    assert (swapped d1 ws) as Hs1 by (unfold swapped; by rewrite Hw);
    by destruct (bool_decide _ && _).
Qed.

Definition swap (ws : list pstop_wifi_net) (s : http_server) : http_server := s <| dev ::= with_wifi ws |>.
Lemma route_handler_blind cb s ws : ~ rewrites_wifi cb -> swapped (dev s) ws ->
  let '(ret, rc, s') := route_handler cfg auth_size cb s in
  route_handler cfg auth_size cb (swap ws s) = (ret, rc, swap ws s') /\ swapped (dev s') ws.
Proof.
  intros Hn Hs. unfold route_handler.
  change (reqs (swap ws s)) with (reqs s). change (snapshot (swap ws s)) with (snapshot s).
  change (dev (swap ws s)) with (with_wifi ws (dev s)).
  destruct (req_for (reqs s) (cb_client cb)) as [[i table]|]; [|by destruct (cb_status cb)].
  cbv zeta. destruct (r_streaming (table !!! i)).
  { change (d_os (with_wifi ws (dev s))) with (d_os (dev s)).
    destruct (stream_coredump _ _ _) as [[rc r] w]. by destruct (cb_status cb). }
  match goal with |- context [answer cfg cb ?sn ?r (dev s)] =>
    pose proof (answer_blind cb sn r (dev s) ws Hn Hs) as Ha; destruct (answer cfg cb sn r (dev s)) as [[[rc r'] d'] rs] end.
  destruct Ha as [-> Hd]. destruct (cb_status cb); done.
Qed.
End Server.

(** * Properties *)
Section Properties.
Context `{!PstopLib} `{Settings} `{!NetIf} `{!Base64} `{!Coredump} `{!JsonLib}.
Variable cfg : api_config.
Variable auth_size : nat.

(** C15: The control plane never says a stored WiFi password.  Change the passwords
    of the stored networks in any way that keeps open networks open: every response
    of every run of requests that does not rewrite the list - with credentials or
    without, the listing of the networks included - is the same. *)
Theorem passwords_never_shown n d snap h ws :
  Forall2 same_but_password (wifi (d_settings d)) ws ->
  Forall (fun cb => ~ rewrites_wifi cb) h ->
  responses cfg auth_size (http_statics n (with_wifi ws d) snap) h =
  responses cfg auth_size (http_statics n d snap) h.
Proof.
  intros Hs Hn. change (http_statics n (with_wifi ws d) snap) with (swap ws (http_statics n d snap)).
  assert (swapped (dev (http_statics n d snap)) ws) as Hsw by exact Hs.
  clear Hs. revert Hsw. generalize (http_statics n d snap) as s.
  induction Hn as [|cb h Hcb Hn IH]; intros s Hsw; [done|]. cbn [responses].
  pose proof (route_handler_blind cfg auth_size cb s ws Hcb Hsw) as Hr.
  destruct (route_handler cfg auth_size cb s) as [[ret rc] s']. destruct Hr as [-> Hsw'].
  f_equal. by apply IH.
Qed.
End Properties.

(** * Witnesses *)
From S2P Require Import Instances.

Definition demo_changed : pstop_wifi_net :=
  mk_wifi (ssid demo_network) (strcpy (pass zero_wifi) (to_chars "another one")).
Definition demo_list_cb : callback :=
  demo_cb 1 ROUTE_ADMIN_WIFI false "/admin/api/wifi" HTTP_SERVER_REQUEST_DATA_FINAL (Some demo_auth) "".
Example passwords_never_shown_witness :
  responses demo_api_config 64
    (http_statics 2 (with_wifi [zero_wifi; demo_changed; zero_wifi; zero_wifi] demo_wifi_device) []) [demo_list_cb] =
  responses demo_api_config 64 (http_statics 2 demo_wifi_device []) [demo_list_cb].
Proof.
  refine (@passwords_never_shown wire_lib sim_os sim_settings sim_netif sim_base64 sim_coredump sim_json
    demo_api_config 64 2 demo_wifi_device [] [demo_list_cb] _ _ _).
  - repeat constructor.
  - repeat constructor. intros [_ E]. discriminate E.
Defined.
