(* ===== verification/PrusaProto.v ===== *)
(** The Prusa camera service's client: [common/prusa_camera].

    [prusa_camera_proto.c] is the network-free half: the camera-info document, as
    the descriptors given to Zephyr's JSON encoder, and what an answer means.
    [prusa_camera.c] is the transport: one TLS connection per request, whose calls
    are logged next to the machine.  The encoder, the sockets and the HTTP client
    are Zephyr's: [JsonEncoder] and [Https]. *)

From Stdlib Require Import Ascii.
From S2P Require Import Prelude Printf Platform Instances HttpUtil.
#[local] Open Scope Z_scope.

(** * Zephyr's JSON descriptors

    A descriptor names a member of a struct [S] and how it is printed. *)
Inductive json_obj_descr : Type -> Type :=
| JSON_TOK_STRING {S} (name : string) (field : S -> option cstr) : json_obj_descr S
| JSON_TOK_UINT {S} (name : string) (field : S -> Z) : json_obj_descr S
| JSON_TOK_NUMBER {S} (name : string) (field : S -> Z) : json_obj_descr S
| JSON_TOK_INT64 {S} (name : string) (field : S -> Z) : json_obj_descr S
| JSON_TOK_TRUE {S} (name : string) (field : S -> bool) : json_obj_descr S
| JSON_OBJ_DESCR_ARRAY {S} (name : string) (field : S -> list cstr) : json_obj_descr S
| JSON_OBJ_DESCR_OBJECT {S T} (name : string) (field : S -> T)
    (sub : list (json_obj_descr T)) : json_obj_descr S.

(** [json_obj_encode_buf] into [len] bytes: zero and the text, or negative. *)
Class JsonEncoder := {
  json_obj_encode_buf : forall S, list (json_obj_descr S) -> S -> nat -> Z * cstr;
}.

(** The value that descriptors denote: none where a string is null, which the
    encoder would read through. *)
Inductive jval := JStr (s : cstr) | JNum (z : Z) | JBool (b : bool) | JArr (l : list jval)
                | JObj (l : list (string * jval)).
Fixpoint denote {S} (d : json_obj_descr S) : S -> option (string * jval) :=
  match d with
  | JSON_TOK_STRING n f => fun v => match f v with Some s => Some (n, JStr s) | None => None end
  | JSON_TOK_UINT n f | JSON_TOK_NUMBER n f | JSON_TOK_INT64 n f => fun v => Some (n, JNum (f v))
  | JSON_TOK_TRUE n f => fun v => Some (n, JBool (f v))
  | JSON_OBJ_DESCR_ARRAY n f => fun v => Some (n, JArr (map JStr (f v)))
  | @JSON_OBJ_DESCR_OBJECT _ T n f sub => fun v =>
      match
        (fix all (ds : list (json_obj_descr T)) : option (list (string * jval)) :=
           match ds with
           | [] => Some []
           | d :: ds => match denote d (f v), all ds with
                        | Some m, Some ms => Some (m :: ms)
                        | _, _ => None
                        end
           end) sub
      with Some ms => Some (n, JObj ms) | None => None end
  end.
Fixpoint denote_all {S} (ds : list (json_obj_descr S)) (v : S) : option (list (string * jval)) :=
  match ds with
  | [] => Some []
  | d :: ds => match denote d v, denote_all ds v with
               | Some m, Some ms => Some (m :: ms)
               | _, _ => None
               end
  end.

(** * prusa_camera_proto.c *)

Definition PRUSA_CAMERA_TOKEN_LEN : nat := 20.
Definition PRUSA_CAMERA_NAME_MAX : nat := 32.
Definition PRUSA_CAMERA_FINGERPRINT_MIN : nat := 16.
Definition PRUSA_CAMERA_FINGERPRINT_MAX : nat := 64.
Definition PRUSA_CAMERA_SNAPSHOT_MAX : Z := 1000000.

(** [enum prusa_camera_trigger], an unsigned int: the casts of the sources put
    error codes in it. *)
Definition PRUSA_CAMERA_TEN_SEC : Z := 0.
Definition PRUSA_CAMERA_THIRTY_SEC : Z := 1.
Definition PRUSA_CAMERA_SIXTY_SEC : Z := 2.
Definition PRUSA_CAMERA_TEN_MIN : Z := 3.
Definition trigger_names : list string := ["TEN_SEC"; "THIRTY_SEC"; "SIXTY_SEC"; "TEN_MIN"]%string.
Definition trigger_secs : list Z := [10; 30; 60; 600].

(** [None] is a null pointer. *)
Record prusa_camera_info := mk_info {
  i_name : option cstr;
  i_trigger : Z;
  i_rotation : Z;
  i_width : Z;
  i_height : Z;
  i_wifi_mac : option cstr;
  i_wifi_ipv4 : option cstr;
  i_wifi_ssid : option cstr;
  i_type : option cstr;
  i_firmware_version : option cstr;
  i_hardware_version : option cstr;
  i_manufacturer : option cstr;
  i_model : option cstr;
}.
#[export] Instance eta_info : Eta prusa_camera_info := fun i =>
  mk_info (i_name i) (i_trigger i) (i_rotation i) (i_width i) (i_height i) (i_wifi_mac i)
    (i_wifi_ipv4 i) (i_wifi_ssid i) (i_type i) (i_firmware_version i) (i_hardware_version i)
    (i_manufacturer i) (i_model i).

Record res_json := mk_res { width : Z; height : Z }.
Record net_json := mk_net { wifi_mac : option cstr; wifi_ipv4 : option cstr; wifi_ssid : option cstr }.
Record config_json := mk_config_json {
  c_name : option cstr; c_trigger_scheme : option cstr; c_rotation : Z;
  c_resolution : res_json; c_network_info : net_json;
}.
Record device_json := mk_device {
  d_type : option cstr; d_firmware_version : option cstr; d_hardware_version : option cstr;
  d_manufacturer : option cstr; d_model : option cstr;
}.
Record info_json := mk_info_json {
  v_config : config_json; v_features : list cstr; v_features_len : nat; v_device : device_json;
}.

Definition res_descr : list (json_obj_descr res_json) :=
  [JSON_TOK_UINT "width" width; JSON_TOK_UINT "height" height].
Definition net_descr : list (json_obj_descr net_json) :=
  [JSON_TOK_STRING "wifi_mac" wifi_mac; JSON_TOK_STRING "wifi_ipv4" wifi_ipv4;
   JSON_TOK_STRING "wifi_ssid" wifi_ssid].
(** The last two members are copied one by one. *)
Definition resolution_descr : json_obj_descr config_json :=
  JSON_OBJ_DESCR_OBJECT "resolution" c_resolution res_descr.
Definition network_info_descr (net : list (json_obj_descr net_json)) : json_obj_descr config_json :=
  JSON_OBJ_DESCR_OBJECT "network_info" c_network_info net.
Definition config_descr : list (json_obj_descr config_json) :=
  [JSON_TOK_STRING "name" c_name; JSON_TOK_STRING "trigger_scheme" c_trigger_scheme;
   JSON_TOK_UINT "rotation" c_rotation; resolution_descr; network_info_descr net_descr].
Definition device_descr : list (json_obj_descr device_json) :=
  [JSON_TOK_STRING "type" d_type; JSON_TOK_STRING "firmware_version" d_firmware_version;
   JSON_TOK_STRING "hardware_version" d_hardware_version;
   JSON_TOK_STRING "manufacturer" d_manufacturer; JSON_TOK_STRING "model" d_model].
(** [info_descr], with the lists it is given for its two objects. *)
Definition info_descr (cfg : list (json_obj_descr config_json)) (dev : list (json_obj_descr device_json))
  : list (json_obj_descr info_json) :=
  [JSON_OBJ_DESCR_OBJECT "config" v_config cfg;
   JSON_OBJ_DESCR_ARRAY "features" (fun v => take (v_features_len v) (v_features v));
   JSON_OBJ_DESCR_OBJECT "device" v_device dev].

Definition set (s : option cstr) : bool := match s with None | Some [] => false | Some _ => true end.
Definition strlen (s : option cstr) : nat := match s with None => 0 | Some s => length s end.

Fixpoint pick_strings {S} (all : list (json_obj_descr S)) (val : S) : list (json_obj_descr S) :=
  match all with
  | [] => []
  | d :: all =>
      if match d in json_obj_descr S return S -> bool with
         | JSON_TOK_STRING _ field => fun val => negb (set (field val))
         | _ => fun _ => false
         end val
      then pick_strings all val
      else d :: pick_strings all val
  end.

(** The guard of [prusa_camera_info_encode]. *)
Definition info_refused (info : prusa_camera_info) : bool :=
  negb (set (i_name info)) || (PRUSA_CAMERA_NAME_MAX <? strlen (i_name info))%nat ||
  negb (set (i_type info)) ||
  negb (set (i_firmware_version info)) || (16 <? strlen (i_firmware_version info))%nat ||
  negb (set (i_hardware_version info)) || (32 <? strlen (i_hardware_version info))%nat ||
  (Z.of_nat (length trigger_names) <=? i_trigger info) ||
  negb (Bool.eqb (i_width info =? 0) (i_height info =? 0)).

Definition prusa_camera_info_encode `{JsonEncoder} (info : prusa_camera_info) (len : nat) : Z * cstr :=
  if info_refused info then (- EINVAL, []) else
  let v := mk_info_json
    (mk_config_json (i_name info) (to_chars <$> trigger_names !! Z.to_nat (i_trigger info))
       (i_rotation info) (mk_res (i_width info) (i_height info))
       (mk_net (i_wifi_mac info) (i_wifi_ipv4 info) (i_wifi_ssid info)))
    [to_chars "snapshot"] 1
    (mk_device (i_type info) (i_firmware_version info) (i_hardware_version info)
       (i_manufacturer info) (i_model info)) in
  let cfg := take 3 config_descr in
  let cfg := if negb (i_width info =? 0) then cfg ++ [resolution_descr] else cfg in
  let net := pick_strings net_descr (c_network_info (v_config v)) in
  let cfg := match net with [] => cfg | _ => cfg ++ [network_info_descr net] end in
  let dev := pick_strings device_descr (v_device v) in
  json_obj_encode_buf _ (info_descr cfg dev) v len.

Inductive next := PRUSA_CAMERA_NEXT_OK | PRUSA_CAMERA_NEXT_RETRY | PRUSA_CAMERA_NEXT_WAIT
                | PRUSA_CAMERA_NEXT_STOP.
#[export] Instance next_eq_dec : EqDecision next.
Proof. solve_decision. Defined.

Definition prusa_camera_next (result : Z) : next :=
  if (200 <=? result) && (result <? 300) then PRUSA_CAMERA_NEXT_OK
  else if (result =? 429) || (result =? 503) then PRUSA_CAMERA_NEXT_WAIT
  else if (result =? - EINVAL) || (result =? - EMSGSIZE) then PRUSA_CAMERA_NEXT_STOP
  else if (result <? 0) || (500 <=? result) then PRUSA_CAMERA_NEXT_RETRY
  else PRUSA_CAMERA_NEXT_STOP.

Definition prusa_camera_describe (result : Z) : string :=
  if result =? - EINVAL then "token must be 20 letters/digits (or bad camera info)"
  else if (result =? - EMSGSIZE) || (result =? 413) then "image over 1 MB"
  else if result =? 400 then "bad request"
  else if result =? 401 then "token or fingerprint missing"
  else if result =? 403 then
    "unknown token, fingerprint mismatch, or first call later than 15 min after creating the camera"
  else if result =? 411 then "Content-Length missing"
  else if result =? 415 then "not a JPEG"
  else if result =? 422 then "rejected (token must be 20 characters)"
  else if (result =? 429) || (result =? 503) then "rate limited"
  else if (200 <=? result) && (result <? 300) then "ok"
  else if 500 <=? result then "server error"
  else if result <? 0 then "network or TLS error" else "unexpected status".

(** [isalnum] of the C locale. *)
Definition isalnum (c : ascii) : bool :=
  let n := char_code c in
  ((48 <=? n) && (n <=? 57)) || ((65 <=? n) && (n <=? 90)) || ((97 <=? n) && (n <=? 122)).
Definition prusa_camera_token_valid (token : cstr) : bool :=
  (length token =? PRUSA_CAMERA_TOKEN_LEN)%nat && forallb isalnum token.

Definition prusa_camera_trigger_seconds (t : Z) : Z :=
  if t <? Z.of_nat (length trigger_secs)
  then default 0 (trigger_secs !! Z.to_nat t)
  else default 0 (trigger_secs !! Z.to_nat PRUSA_CAMERA_THIRTY_SEC).
Fixpoint trigger_from (secs : list Z) (i : Z) (seconds : Z) : Z :=
  match secs with
  | [] => - EINVAL
  | s :: secs => if s =? seconds then i else trigger_from secs (i + 1) seconds
  end.
Definition prusa_camera_trigger_from_seconds (seconds : Z) : Z := trigger_from trigger_secs 0 seconds.

(** * prusa_camera.c *)

Definition crlf : string := String (ascii_of_nat 13) (String (ascii_of_nat 10) EmptyString).

Inductive http_method := HTTP_GET | HTTP_PUT.
Record http_request := mk_http_request {
  rq_method : http_method;
  rq_url : string;
  rq_content_type : option string;
  rq_headers : list string;
  rq_payload : list Z;
}.
Record prusa_camera_auth := mk_auth { a_token : cstr; a_fingerprint : cstr }.

(** What the transport calls.  A call that fails is negative and leaves its error
    number; [http_client_req]'s second result is what it hands to the response
    callback, in order: whether the data is final, and the status. *)
Class Https `{Os} := {
  zsock_getaddrinfo : string -> string -> os -> Z * os;
  tls_socket : os -> Z * os;                    (* zsock_socket, IPPROTO_TLS_1_2 *)
  set_sec_tag_list : Z -> list Z -> os -> Z * os;
  set_tls_hostname : Z -> string -> os -> Z * os;
  tls_zsock_connect : Z -> os -> Z * os;
  tls_zsock_close : Z -> os -> os;
  zsock_freeaddrinfo : os -> os;
  tls_errno : os -> Z;
  http_client_req : Z -> http_request -> Z -> os -> (Z * list (bool * Z)) * os;
  tls_credential_add : Z -> list Z -> os -> Z * os;
}.

(** Logged calls. *)
Inductive net_call := Resolved | Freed | Opened (sock : Z) | Closed (sock : Z)
                    | Requested (sock : Z) (req : http_request).

(** The statics: [ua_hdr], [info_json], and [request]'s two header buffers. *)
Record prusa_camera := mk_camera {
  ua_hdr : string; info_json_buf : cstr; token_hdr : string; fp_hdr : string;
}.
#[export] Instance eta_camera : Eta prusa_camera := fun p =>
  mk_camera (ua_hdr p) (info_json_buf p) (token_hdr p) (fp_hdr p).
Definition camera_boot : prusa_camera := mk_camera "" [] "" "".

(** The build: the host, the first credential tag, the certificates, the timeout. *)
Record camera_config := mk_camera_config {
  HOST : string; CA_TAG0 : Z; cas : list (list Z); TIMEOUT_MS : Z;
}.

Section Transport.
Context `{Https} `{!JsonEncoder}.
Variable config : camera_config.

Record network := mk_network { n_os : os; n_calls : list net_call }.
#[export] Instance eta_network : Eta network := fun w => mk_network (n_os w) (n_calls w).
Definition net_log (c : net_call) (w : network) : network := w <| n_calls ::= fun l => l ++ [c] |>.

Definition CA_TAG (i : nat) : Z := CA_TAG0 config + Z.of_nat i.

(** [on_response], over the calls of one request; [http_status] is its user data. *)
Definition on_response (http_status : Z) (rsp : bool * Z) : Z :=
  let '(final, status) := rsp in if final then status else http_status.

Definition free_addr (w : network) : network := net_log Freed (w <| n_os ::= zsock_freeaddrinfo |>).
Definition close_sock (sock : Z) (w : network) : network :=
  net_log (Closed sock) (w <| n_os ::= tls_zsock_close sock |>).

(** The three calls of the condition, the later ones only if the earlier pass. *)
Definition tls_setup (sock : Z) (o : os) : bool * os :=
  let '(r, o) := set_sec_tag_list sock [CA_TAG 0; CA_TAG 1; CA_TAG 2] o in
  if r <? 0 then (false, o) else
  let '(r, o) := set_tls_hostname sock (HOST config) o in
  if r <? 0 then (false, o) else
  let '(r, o) := tls_zsock_connect sock o in
  if r <? 0 then (false, o) else (true, o).

Definition tls_connect (w : network) : Z * network :=
  let '(ret, o) := zsock_getaddrinfo (HOST config) "443" (n_os w) in
  let w := w <| n_os := o |> in
  if negb (ret =? 0) then (- EHOSTUNREACH, w) else
  let w := net_log Resolved w in
  let '(sock, o) := tls_socket (n_os w) in
  let w := w <| n_os := o |> in
  if sock <? 0 then (- tls_errno o, free_addr w) else
  let w := net_log (Opened sock) w in
  let '(ok, o) := tls_setup sock (n_os w) in
  let w := w <| n_os := o |> in
  if negb ok then (- tls_errno o, free_addr (close_sock sock w)) else
  (sock, free_addr w).

Definition token_hdr_size : nat := String.length ("Token: " +:+ crlf) + 1 + PRUSA_CAMERA_TOKEN_LEN.
Definition fp_hdr_size : nat :=
  String.length ("Fingerprint: " +:+ crlf) + 1 + PRUSA_CAMERA_FINGERPRINT_MAX.

Definition request (auth : prusa_camera_auth) (method : http_method) (path : string)
    (type : option string) (body : list Z) (s : prusa_camera) (w : network)
  : Z * prusa_camera * network :=
  if bool_decide (ua_hdr s = "") || negb (prusa_camera_token_valid (a_token auth)) ||
     (length (a_fingerprint auth) <? PRUSA_CAMERA_FINGERPRINT_MIN)%nat ||
     (PRUSA_CAMERA_FINGERPRINT_MAX <? length (a_fingerprint auth))%nat
  then (- EINVAL, s, w)
  else
    let s := s <| token_hdr :=
      snd (snprintf token_hdr_size ("Token: %s" +:+ crlf) [PStr (of_chars (a_token auth))]) |> in
    let s := s <| fp_hdr :=
      snd (snprintf fp_hdr_size ("Fingerprint: %s" +:+ crlf) [PStr (of_chars (a_fingerprint auth))]) |> in
    let '(sock, w) := tls_connect w in
    let '(ret, w) :=
      if sock <? 0 then (sock, w)
      else
        let req := mk_http_request method path type [token_hdr s; fp_hdr s; ua_hdr s] body in
        let '((ret, rsps), o) := http_client_req sock req (TIMEOUT_MS config) (n_os w) in
        let w := close_sock sock (net_log (Requested sock req) (w <| n_os := o |>)) in
        (if 0 <=? ret then foldl on_response (- EIO) rsps else ret, w) in
    (ret, s <| token_hdr := "" |>, w).

Definition prusa_camera_get_info (auth : prusa_camera_auth) :=
  request auth HTTP_GET "/v1/camera-info" None [].

Definition put_info_size : nat := 512.
Definition prusa_camera_put_info (auth : prusa_camera_auth) (info : prusa_camera_info)
    (s : prusa_camera) (w : network) : Z * prusa_camera * network :=
  let '(ret, text) := prusa_camera_info_encode info put_info_size in
  if ret <? 0 then (ret, s, w) else
  let s := s <| info_json_buf := text |> in
  request auth HTTP_PUT "/v1/camera-info" (Some "application/json"%string)
    (map char_code (info_json_buf s)) s w.

Definition prusa_camera_put_snapshot (auth : prusa_camera_auth) (jpeg : list Z)
    (s : prusa_camera) (w : network) : Z * prusa_camera * network :=
  if (length jpeg =? 0)%nat || (PRUSA_CAMERA_SNAPSHOT_MAX <? Z.of_nat (length jpeg))
  then (- EMSGSIZE, s, w)
  else request auth HTTP_PUT "/v1/snapshot" (Some "image/jpeg"%string) jpeg s w.

Fixpoint add_cas (i : nat) (ders : list (list Z)) (w : network) : Z * network :=
  match ders with
  | [] => (0, w)
  | der :: ders =>
      let '(ret, o) := tls_credential_add (CA_TAG i) der (n_os w) in
      let w := w <| n_os := o |> in
      if ret <? 0 then (ret, w) else add_cas (S i) ders w
  end.
Definition ua_hdr_size : nat := 64.
Definition prusa_camera_init (user_agent : string) (s : prusa_camera) (w : network)
  : Z * prusa_camera * network :=
  let '(n, text) := snprintf ua_hdr_size ("User-Agent: %s" +:+ crlf) [PStr user_agent] in
  let s := s <| ua_hdr := text |> in
  if (ua_hdr_size <=? n)%nat then (- EINVAL, s, w) else
  let '(ret, w) := add_cas 0 (cas config) w in
  (ret, s, w).
End Transport.
#[global] Arguments network {_}.

(** A call that fails leaves its error number. *)
Class HttpsLaws `{Https} : Prop := {
  tls_errno_positive : forall o, 0 < tls_errno o;
}.

(** * Specification *)

(** The strings that are set, as members of an object. *)
Definition optional (ms : list (string * option cstr)) : list (string * jval) :=
  omap (fun '(n, s) => if set s then Some (n, JStr (default [] s)) else None) ms.

(** The network_info member, or nothing when no string of it is set. *)
Definition network_member (ms : list (string * jval)) : list (string * jval) :=
  match ms with [] => [] | _ => [("network_info"%string, JObj ms)] end.
(** The document the service's API asks for. *)
Definition info_object (i : prusa_camera_info) : list (string * jval) :=
  [("config", JObj
      ([("name", JStr (default [] (i_name i)));
        ("trigger_scheme", JStr (to_chars (default "" (trigger_names !! Z.to_nat (i_trigger i)))));
        ("rotation", JNum (i_rotation i))] ++
       (if (i_width i =? 0)%Z then []
        else [("resolution", JObj [("width", JNum (i_width i)); ("height", JNum (i_height i))])]) ++
       network_member (optional [("wifi_mac", i_wifi_mac i); ("wifi_ipv4", i_wifi_ipv4 i);
                                 ("wifi_ssid", i_wifi_ssid i)])));
   ("features", JArr [JStr (to_chars "snapshot")]);
   ("device", JObj (optional
      [("type", i_type i); ("firmware_version", i_firmware_version i);
       ("hardware_version", i_hardware_version i); ("manufacturer", i_manufacturer i);
       ("model", i_model i)]))]%string.

(** A string of [lo] to [hi] characters. *)
Definition between (lo hi : nat) (s : option cstr) : Prop :=
  exists t, s = Some t /\ (lo <= length t <= hi)%nat.
Definition info_acceptable (i : prusa_camera_info) : Prop :=
  between 1 32 (i_name i) /\ (exists t, i_type i = Some t /\ t <> []) /\
  between 1 16 (i_firmware_version i) /\ between 1 32 (i_hardware_version i) /\
  i_trigger i < 4 /\ (i_width i = 0 <-> i_height i = 0).

(** What one request does on the network: nothing; or a lookup; or a socket that
    did not connect; or the one request, on a socket closed after it. *)
Inductive transaction (req : http_request) : list net_call -> Prop :=
| TxRefused : transaction req []
| TxUnresolved : transaction req [Resolved; Freed]
| TxUnconnected sock : transaction req [Resolved; Opened sock; Closed sock; Freed]
| TxDone sock : transaction req [Resolved; Opened sock; Freed; Requested sock req; Closed sock].

(** * Properties *)

Lemma pick_strings_net v :
  denote_all (pick_strings net_descr v) v =
  Some (optional [("wifi_mac", wifi_mac v); ("wifi_ipv4", wifi_ipv4 v); ("wifi_ssid", wifi_ssid v)]%string).
Proof. destruct v as [[[|? ?]|] [[|? ?]|] [[|? ?]|]]; reflexivity. Qed.

Lemma pick_strings_dev v :
  denote_all (pick_strings device_descr v) v =
  Some (optional [("type", d_type v); ("firmware_version", d_firmware_version v);
                  ("hardware_version", d_hardware_version v); ("manufacturer", d_manufacturer v);
                  ("model", d_model v)]%string).
Proof.
  destruct v as [[[|? ?]|] [[|? ?]|] [[|? ?]|] [[|? ?]|] [[|? ?]|]]; reflexivity.
Qed.

Lemma denote_all_app {S} (ds es : list (json_obj_descr S)) v :
  denote_all (ds ++ es) v =
  match denote_all ds v, denote_all es v with Some a, Some b => Some (a ++ b) | _, _ => None end.
Proof.
  induction ds as [|d ds IH]; cbn; [by destruct (denote_all es v)|].
  destruct (denote d v); [|done]. rewrite IH. by destruct (denote_all ds v), (denote_all es v).
Qed.

(** An object denotes its members'. *)
Lemma denote_object {S T} n (f : S -> T) sub v :
  denote (JSON_OBJ_DESCR_OBJECT n f sub) v =
  match denote_all sub (f v) with Some ms => Some (n, JObj ms) | None => None end.
Proof.
  cbn. match goal with |- match ?a with _ => _ end = _ => assert (a = denote_all sub (f v)) as ->; [|done] end.
  induction sub as [|d sub IH]; [done|]. cbn. by rewrite IH.
Qed.

Lemma set_between s n : set s = true -> (n <? strlen s)%nat = false -> between 1 n s.
Proof.
  intros Hs Hl. apply Nat.ltb_ge in Hl. destruct s as [[|c t]|]; try done.
  exists (c :: t). split; [done|]. cbn in *. lia.
Qed.
Lemma between_set s n : between 1 n s -> set s = true /\ (n <? strlen s)%nat = false.
Proof.
  intros (t & -> & Hl). destruct t; [cbn in *; lia|]. split; [done|]. apply Nat.ltb_ge. cbn in *. lia.
Qed.

Lemma info_refused_spec i : info_refused i = false <-> info_acceptable i.
Proof.
  unfold info_refused, info_acceptable, PRUSA_CAMERA_NAME_MAX. split.
  - intros Hr. to_prop.
    repeat match goal with H : _ /\ _ |- _ => destruct H end. to_prop.
    split; [by apply set_between|]. split.
    { destruct (i_type i) as [[|c t]|]; [done| |done]. by eexists. }
    split; [by apply set_between|]. split; [by apply set_between|].
    split; [cbn in *; lia|].
    match goal with H : Bool.eqb _ _ = true |- _ => apply eqb_prop in H; revert H end.
    destruct (Z.eqb_spec (i_width i) 0), (Z.eqb_spec (i_height i) 0); try done.
  - intros (Hn & (t & Ht & Hne) & Hf & Hh & Htr & Hw).
    apply between_set in Hn as [-> ->], Hf as [-> ->], Hh as [-> ->].
    rewrite Ht. destruct t; [done|]. cbn. change (Z.of_nat 4) with 4.
    destruct (Z.leb_spec 4 (i_trigger i)); [lia|].
    destruct (Z.eqb_spec (i_width i) 0), (Z.eqb_spec (i_height i) 0); try done; exfalso; tauto.
Qed.

Lemma denote_network c :
  denote_all match pick_strings net_descr (c_network_info c) with
             | [] => [] | _ => [network_info_descr (pick_strings net_descr (c_network_info c))] end c =
  Some (network_member (optional
    [("wifi_mac", wifi_mac (c_network_info c)); ("wifi_ipv4", wifi_ipv4 (c_network_info c));
     ("wifi_ssid", wifi_ssid (c_network_info c))]%string)).
Proof.
  pose proof (pick_strings_net (c_network_info c)) as Hn. revert Hn.
  generalize (optional [("wifi_mac", wifi_mac (c_network_info c));
    ("wifi_ipv4", wifi_ipv4 (c_network_info c)); ("wifi_ssid", wifi_ssid (c_network_info c))]%string).
  intros o Hn. destruct (pick_strings _ _) as [|d ds] eqn:E.
  - cbn in Hn. by injection Hn as <-.
  - cbn [denote_all]. unfold network_info_descr. rewrite denote_object, Hn.
    cbn [denote_all] in Hn. destruct (denote d (c_network_info c)), (denote_all ds (c_network_info c)); try done.
    by injection Hn as <-.
Qed.

(** The camera-info document: what the camera cannot say properly is refused, and
    otherwise the encoder is given descriptors that denote exactly the service's
    document, with no null string and no member that is not set. *)
Theorem camera_info_exact `{JsonEncoder} i len :
  0 <= i_trigger i ->
  (~ info_acceptable i -> prusa_camera_info_encode i len = (- EINVAL, [])) /\
  (info_acceptable i -> exists ds v,
    prusa_camera_info_encode i len = json_obj_encode_buf info_json ds v len /\
    denote_all ds v = Some (info_object i)).
Proof.
  intros Ht. rewrite <- info_refused_spec. unfold prusa_camera_info_encode.
  destruct (info_refused i) eqn:E; [by split|]. split; [done|]. intros _.
  eexists _, _. split; [reflexivity|].
  apply info_refused_spec in E as ((n & En & _) & _ & _ & _ & Htr & _).
  destruct (lookup_lt_is_Some_2 trigger_names (Z.to_nat (i_trigger i))) as [s Es]; [cbn; lia|].
  unfold info_descr. cbn [denote_all]. rewrite !denote_object.
  cbn [v_config v_device]. rewrite pick_strings_dev, Es, En. cbn [fmap option_fmap option_map c_network_info].
  match goal with |- context [denote_all ?cfg ?c] =>
    assert (denote_all cfg c = Some ([("name", JStr n); ("trigger_scheme", JStr (to_chars s));
       ("rotation", JNum (i_rotation i))]%string ++
       (if i_width i =? 0 then [] else [("resolution"%string, JObj [("width"%string, JNum (i_width i)); ("height"%string, JNum (i_height i))])]) ++
       network_member (optional
    [("wifi_mac", i_wifi_mac i); ("wifi_ipv4", i_wifi_ipv4 i); ("wifi_ssid", i_wifi_ssid i)]%string))) as ->
  end.
  - match goal with |- context [network_member ?m] => pose proof (denote_network
      (mk_config_json (Some n) (Some (to_chars s)) (i_rotation i) (mk_res (i_width i) (i_height i))
        (mk_net (i_wifi_mac i) (i_wifi_ipv4 i) (i_wifi_ssid i)))) as Hnet end.
    cbn [c_network_info wifi_mac wifi_ipv4 wifi_ssid] in *. revert Hnet.
    generalize (optional [("wifi_mac", i_wifi_mac i); ("wifi_ipv4", i_wifi_ipv4 i);
      ("wifi_ssid", i_wifi_ssid i)]%string) as o. intros o.
    generalize (pick_strings net_descr (mk_net (i_wifi_mac i) (i_wifi_ipv4 i) (i_wifi_ssid i))) as ds.
    intros [|d ds] Hnet; cbn match in Hnet.
    + change (Some [] = Some (network_member o)) in Hnet. injection Hnet as <-.
      destruct (i_width i =? 0); reflexivity.
    + destruct (i_width i =? 0); rewrite !denote_all_app, Hnet; reflexivity.
  - unfold info_object. rewrite Es, En. reflexivity.
Qed.

(** The seconds of a trigger scheme, and back. *)
Lemma trigger_from_seconds_spec n t :
  prusa_camera_trigger_from_seconds n = t -> 0 <= t ->
  t < 4 /\ prusa_camera_trigger_seconds t = n /\ (n = 10 \/ n = 30 \/ n = 60 \/ n = 600).
Proof.
  unfold prusa_camera_trigger_from_seconds, trigger_from, trigger_secs.
  repeat match goal with |- context [if ?a =? ?b then _ else _] => destruct (Z.eqb_spec a b) end;
    intros <- Ht; try (unfold EINVAL in *; lia); subst; (split; [lia|split; [reflexivity|tauto]]).
Qed.

(** The three buffers hold what is printed into them. *)
Lemma header_whole cap name v :
  (String.length (name +:+ crlf) + 1 + length v <= cap)%nat ->
  (forall a, print_tokens (tokens (q (name +:+ "%s" +:+ crlf))) [PStr a] = name +:+ a +:+ crlf) ->
  snd (snprintf cap (name +:+ "%s" +:+ crlf) [PStr (of_chars v)]) = name +:+ of_chars v +:+ crlf.
Proof.
  intros Hl Hf. unfold snprintf, format. cbn [snd]. rewrite Hf.
  apply substring_all. rewrite !string_length_app in *.
  pose proof (to_chars_length (of_chars v)) as Hv. rewrite to_of_chars in Hv. lia.
Qed.

Lemma token_header t : length t = PRUSA_CAMERA_TOKEN_LEN ->
  snd (snprintf token_hdr_size ("Token: %s" +:+ crlf) [PStr (of_chars t)]) =
  "Token: " +:+ of_chars t +:+ crlf.
Proof.
  intros Hl. apply (header_whole _ "Token: "); [|reflexivity].
  rewrite Hl. apply Nat.leb_le. reflexivity.
Qed.
Lemma fingerprint_header t : (length t <= PRUSA_CAMERA_FINGERPRINT_MAX)%nat ->
  snd (snprintf fp_hdr_size ("Fingerprint: %s" +:+ crlf) [PStr (of_chars t)]) =
  "Fingerprint: " +:+ of_chars t +:+ crlf.
Proof.
  intros Hl. apply (header_whole _ "Fingerprint: "); [|reflexivity].
  unfold fp_hdr_size. apply Nat.add_le_mono; [apply Nat.leb_le; reflexivity|done].
Qed.

Section TransportProperties.
Context `{HttpsLaws} `{!JsonEncoder}.
Variable config : camera_config.
Implicit Types (w : network) (s : prusa_camera).

Lemma tls_connect_spec w sock w' : tls_connect config w = (sock, w') ->
  exists calls, n_calls w' = n_calls w ++ calls /\
  (if sock <? 0 then calls = [] \/ calls = [Resolved; Freed] \/
                     exists k, calls = [Resolved; Opened k; Closed k; Freed]
   else calls = [Resolved; Opened sock; Freed]).
Proof.
  unfold tls_connect, free_addr, close_sock, net_log. intros Hc.
  destruct (zsock_getaddrinfo _ _ _) as [ret o]. destruct (ret =? 0); cbn in Hc.
  2:{ injection Hc as <- <-. exists []. rewrite app_nil_r. split; [done|by left]. }
  destruct (tls_socket _) as [k o1]. destruct (k <? 0) eqn:Ek.
  { simplify_eq. eexists. cbn. rewrite <- app_assoc. split; [done|].
    pose proof (tls_errno_positive o1). destruct (Z.ltb_spec (- tls_errno o1) 0); [by auto|lia]. }
  cbn in Hc. destruct (tls_setup config k o1) as [ok o2]. destruct ok; cbn in Hc; simplify_eq;
    eexists; cbn; rewrite <- !app_assoc; (split; [done|]).
  - by rewrite Ek.
  - pose proof (tls_errno_positive o2). destruct (Z.ltb_spec (- tls_errno o2) 0); [|lia].
    right; right. by exists k.
Qed.

(** One request: nothing leaves without a valid token and fingerprint; what leaves
    carries both whole; a request reported answered was sent; every lookup is freed
    and every socket closed; and the token does not stay in its buffer. *)
Theorem requests_bound auth m path ty body s w ret s' w' :
  request config auth m path ty body s w = (ret, s', w') ->
  let req := mk_http_request m path ty
    ["Token: " +:+ of_chars (a_token auth) +:+ crlf;
     "Fingerprint: " +:+ of_chars (a_fingerprint auth) +:+ crlf; ua_hdr s]%string body in
  exists calls, n_calls w' = n_calls w ++ calls /\ transaction req calls /\
    (calls <> [] -> prusa_camera_token_valid (a_token auth) = true /\
       (16 <= length (a_fingerprint auth) <= 64)%nat /\ ua_hdr s <> ""%string) /\
    (0 <= ret -> exists sock, Requested sock req ∈ calls) /\
    (token_hdr s = ""%string -> token_hdr s' = ""%string).
Proof.
  unfold request. destruct (_ || _) eqn:Eg.
  { intros [= <- <- <-]. cbn. exists []. rewrite app_nil_r.
    repeat split; try done; try constructor. }
  to_prop. repeat match goal with H : _ /\ _ |- _ => destruct H end. to_prop.
  repeat match goal with H : (_ <? _)%nat = false |- _ => apply Nat.ltb_ge in H end.
  match goal with H : prusa_camera_token_valid _ = true |- _ => pose proof H as Hv end.
  unfold prusa_camera_token_valid in Hv. to_prop.
  match goal with H : (_ =? _)%nat = true |- _ => apply Nat.eqb_eq in H; rename H into Hl end.
  rewrite token_header, fingerprint_header by done.
  destruct (tls_connect config w) as [sock w1] eqn:Ec.
  apply tls_connect_spec in Ec as (calls & Hc & Hs).
  destruct (sock <? 0) eqn:Es.
  - intros [= <- <- <-]. exists calls. split; [done|]. to_prop.
    split; [destruct Hs as [-> | [-> | [k ->]]]; constructor|].
    split; [auto|]. split; [lia|done].
  - destruct (http_client_req _ _ _ _) as [[r rsps] o] eqn:Er.
    intros [= <- <- <-]. cbn. rewrite Hc, <- !app_assoc. eexists. split; [reflexivity|]. subst calls.
    split; [constructor|]. split; [auto|]. split; [|done].
    intros _. exists sock. set_solver.
Qed.
End TransportProperties.

(** * Instances for the witnesses *)

(** The encoder's output for the values used here. *)
Definition jescape (s : cstr) : string :=
  String.concat "" (map (fun c => if Ascii.eqb c dquote then String "\" (String c "") else String c "") s).
Definition jquote (s : string) : string := String dquote (s +:+ String dquote "").
Fixpoint jtext (v : jval) : string :=
  match v with
  | JStr s => jquote (jescape s)
  | JNum z => signed_decimal z
  | JBool b => if b then "true" else "false"
  | JArr l => "[" +:+ String.concat "," (map jtext l) +:+ "]"
  | JObj l => "{" +:+ String.concat "," (map (fun '(n, v) => jquote n +:+ ":" +:+ jtext v) l) +:+ "}"
  end%string.
#[export] Instance sim_encoder : JsonEncoder := {|
  json_obj_encode_buf S ds v len :=
    match denote_all ds v with
    | Some ms => let t := jtext (JObj ms) in
                 if (len <=? String.length t)%nat then (- ENOMEM, []) else (0, to_chars t)
    | None => (- EINVAL, [])
    end;
|}.

(** The machine's service answers 204, after a part that is not final. *)
#[export] Instance sim_https : Https (H := Instances.sim_os) := {|
  zsock_getaddrinfo _ _ o := (0, o);
  tls_socket o := (5, o);
  set_sec_tag_list _ _ o := (0, o);
  set_tls_hostname _ _ o := (0, o);
  tls_zsock_connect _ o := (0, o);
  tls_zsock_close _ o := o;
  zsock_freeaddrinfo o := o;
  tls_errno _ := EIO;
  http_client_req _ _ _ o := ((1, [(false, 204); (true, 204)]), o);
  tls_credential_add _ _ o := (0, o);
|}.
#[export] Instance sim_https_laws : HttpsLaws (H := Instances.sim_os).
Proof. split. intros o. reflexivity. Qed.

(** The tests' smallest document and its text. *)
Definition base_info : prusa_camera_info :=
  mk_info (Some (to_chars "cam")) PRUSA_CAMERA_THIRTY_SEC 0 0 0 None None None
    (Some (to_chars "ESP32")) (Some (to_chars "0.1.0")) (Some (to_chars "hw1")) None None.
Example base_text : of_chars (snd (prusa_camera_info_encode base_info put_info_size)) =
  q "{'config':{'name':'cam','trigger_scheme':'THIRTY_SEC','rotation':0},'features':['snapshot'],'device':{'type':'ESP32','firmware_version':'0.1.0','hardware_version':'hw1'}}".
Proof. vm_compute. reflexivity. Qed.

Lemma camera_info_exact_witness : 0 <= i_trigger base_info /\ exists ds v,
  prusa_camera_info_encode base_info put_info_size = json_obj_encode_buf info_json ds v put_info_size /\
  denote_all ds v = Some (info_object base_info).
Proof.
  split; [apply Z.leb_le; reflexivity|].
  apply (camera_info_exact base_info put_info_size); [apply Z.leb_le; reflexivity|].
  apply info_refused_spec. reflexivity.
Defined.

Definition sample_auth : prusa_camera_auth :=
  mk_auth (to_chars "abcdefghij0123456789") (to_chars "zephyrcam0123456789ab").
Definition sample_config : camera_config := mk_camera_config "camera-service.prusa3d.com" 1 [] 10000.
Definition sample_net : network (H := Instances.sim_os) := mk_network Instances.sim_boot [].
Definition sample_camera : prusa_camera := snd (fst (prusa_camera_init sample_config "cam/1" camera_boot sample_net)).
Lemma sample_request : exists s' w',
  request sample_config sample_auth HTTP_GET "/v1/camera-info" None [] sample_camera sample_net = (204, s', w').
Proof. eexists _, _. vm_compute. reflexivity. Qed.

Lemma requests_bound_witness : exists s' w' sock,
  request sample_config sample_auth HTTP_GET "/v1/camera-info" None [] sample_camera sample_net = (204, s', w') /\
  Requested sock (mk_http_request HTTP_GET "/v1/camera-info" None
    ["Token: " +:+ of_chars (a_token sample_auth) +:+ crlf;
     "Fingerprint: " +:+ of_chars (a_fingerprint sample_auth) +:+ crlf; ua_hdr sample_camera]%string [])
    ∈ n_calls w'.
Proof.
  destruct sample_request as (s' & w' & E).
  destruct (requests_bound _ _ _ _ _ _ _ _ _ _ _ E) as (calls & Hc & _ & _ & Hr & _).
  destruct (Hr ltac:(lia)) as [sock Hs].
  exists s', w', sock. split; [exact E|]. rewrite Hc. apply elem_of_app. right. exact Hs.
Defined.
