(* ===== verification/PrusaCfg.v ===== *)
(** prusa_cam's configuration: [prusa_cam/src/cfg.c].

    One struct, kept in RAM and stored whole under one settings key.  [cfg_bytes] is
    the struct's image in memory, padding written as zeros; a char array is its
    characters, whatever follows the string's NUL included. *)

From Stdlib Require Import Ascii.
From S2P Require Import Prelude Printf Platform Instances HttpUtil PrusaProto.
#[local] Open Scope Z_scope.

(** * Char arrays *)
Definition NUL : ascii := Ascii.zero.
(** The string in an array: its characters before the first NUL; its length is
    [strnlen] of the whole array. *)
Fixpoint cstring (a : list ascii) : cstr :=
  match a with
  | [] => []
  | c :: a => if Ascii.eqb c NUL then [] else c :: cstring a
  end.
(** [strcpy] into an array that is large enough. *)
Definition strcpy (dst : list ascii) (src : cstr) : list ascii :=
  src ++ [NUL] ++ drop (length src + 1) dst.
Definition char_array (n : nat) (s : cstr) : list ascii := strcpy (repeat NUL n) s.

Definition CFG_TOKEN_MAX : nat := 64.
Definition CFG_PASSWORD_MAX : nat := 32.
Definition CFG_NAME_MAX : nat := 32.

Record cfg_resolution := mk_resolution { r_name : string; r_width : Z; r_height : Z }.
Definition cfg_resolutions : list cfg_resolution :=
  [mk_resolution "QVGA" 320 240; mk_resolution "VGA" 640 480; mk_resolution "SVGA" 800 600;
   mk_resolution "XGA" 1024 768; mk_resolution "SXGA" 1280 1024; mk_resolution "UXGA" 1600 1200].
Definition cfg_resolution_count : Z := Z.of_nat (length cfg_resolutions).

Record cfg := mk_cfg {
  token : list ascii;
  password : list ascii;
  name : list ascii;
  interval_s : Z;
  resolution : Z;
  quality : Z;
  hflip : bool;
  vflip : bool;
  flash : bool;
  rotation : Z;
  ip : Z;
  netmask : Z;
  gateway : Z;
  dns : Z;
  brightness : Z;
  contrast : Z;
  saturation : Z;
  auto_exposure : bool;
  auto_wb : bool;
  auto_gain : bool;
}.
#[export] Instance eta_cfg : Eta cfg := fun c =>
  mk_cfg (token c) (password c) (name c) (interval_s c) (resolution c) (quality c) (hflip c)
    (vflip c) (flash c) (rotation c) (ip c) (netmask c) (gateway c) (dns c) (brightness c)
    (contrast c) (saturation c) (auto_exposure c) (auto_wb c) (auto_gain c).

(** The static initialiser; [hostname] is CONFIG_NET_HOSTNAME. *)
Definition cfg_default (hostname : cstr) : cfg :=
  mk_cfg (repeat NUL (CFG_TOKEN_MAX + 1)) (repeat NUL (CFG_PASSWORD_MAX + 1))
    (char_array (CFG_NAME_MAX + 1) hostname) 30 5 80 false false false 0 0 0 0 0 0 0 0
    true true true.

(** * The struct in memory *)
Definition byte_of_bool (b : bool) : Z := if b then 1 else 0.
Definition s8 (z : Z) : Z := let v := u8 z in if v <? 128 then v else v - 256.
Definition cfg_sizeof : nat := 164.
Definition cfg_bytes (c : cfg) : list Z :=
  map char_code (token c) ++ map char_code (password c) ++ map char_code (name c) ++ [0] ++
  le_bytes 2 (interval_s c) ++
  [u8 (resolution c); u8 (quality c); byte_of_bool (hflip c); byte_of_bool (vflip c);
   byte_of_bool (flash c); u8 (rotation c)] ++
  le_bytes 4 (ip c) ++ le_bytes 4 (netmask c) ++ le_bytes 4 (gateway c) ++ le_bytes 4 (dns c) ++
  [u8 (brightness c); u8 (contrast c); u8 (saturation c); byte_of_bool (auto_exposure c);
   byte_of_bool (auto_wb c); byte_of_bool (auto_gain c)] ++ [0; 0].

Definition byte_at (b : list Z) (i : nat) : Z := default 0 (b !! i).
Definition chars_at (b : list Z) (i n : nat) : list ascii :=
  map (fun z => ascii_of_nat (Z.to_nat z)) (take n (drop i b)).
Definition word_at (b : list Z) (i n : nat) : Z := le_val (take n (drop i b)).
Definition bool_at (b : list Z) (i : nat) : bool := negb (byte_at b i =? 0).
Definition cfg_of_bytes (b : list Z) : cfg :=
  mk_cfg (chars_at b 0 65) (chars_at b 65 33) (chars_at b 98 33) (word_at b 132 2)
    (byte_at b 134) (byte_at b 135) (bool_at b 136) (bool_at b 137) (bool_at b 138) (byte_at b 139)
    (word_at b 140 4) (word_at b 144 4) (word_at b 148 4) (word_at b 152 4)
    (s8 (byte_at b 156)) (s8 (byte_at b 157)) (s8 (byte_at b 158))
    (bool_at b 159) (bool_at b 160) (bool_at b 161).

(** Zephyr's [bin2hex]: the text of [buf] if it and its NUL fit [hexlen]. *)
Class Bin2hex := { bin2hex : list Z -> nat -> option cstr }.
Class Bin2hexLaws `{Bin2hex} : Prop := {
  bin2hex_length : forall b n, (2 * length b + 1 <= n)%nat ->
    exists s, bin2hex b n = Some s /\ length s = (2 * length b)%nat;
}.

Definition FP_PREFIX : cstr := to_chars "zephyrcam".
Definition FP_ID_MAX : nat := (40 - 9) / 2.
Definition fingerprint_size : nat := length FP_PREFIX + 1 + 2 * FP_ID_MAX.

(** The statics. *)
Record cfg_state := mk_cfg_state { the_cfg : cfg; fingerprint : cstr }.
#[export] Instance eta_cfg_state : Eta cfg_state := fun s => mk_cfg_state (the_cfg s) (fingerprint s).
Definition cfg_boot (hostname : cstr) : cfg_state := mk_cfg_state (cfg_default hostname) [].

(** [IN_RANGE]. *)
Definition IN_RANGE (v lo hi : Z) : bool := (lo <=? v) && (v <=? hi).
(** The guard of [cfg_set]. *)
Definition cfg_refused (c : cfg) : bool :=
  (prusa_camera_trigger_from_seconds (interval_s c) <? 0) ||
  (negb (bool_decide (cstring (token c) = [])) && negb (prusa_camera_token_valid (cstring (token c)))) ||
  bool_decide (cstring (name c) = []) ||
  (CFG_NAME_MAX <? length (cstring (name c)))%nat ||
  negb (IN_RANGE (brightness c) (-2) 2) || negb (IN_RANGE (contrast c) (-2) 2) ||
  negb (IN_RANGE (saturation c) (-2) 2) || (cfg_resolution_count <=? resolution c) ||
  (100 <? quality c) || (3 <? rotation c) ||
  (negb (ip c =? 0) && ((netmask c =? 0) || (gateway c =? 0))) ||
  (CFG_TOKEN_MAX <? length (cstring (token c)))%nat ||
  (CFG_PASSWORD_MAX <? length (cstring (password c)))%nat.

Fixpoint resolution_find (rs : list cfg_resolution) (i : Z) (n : cstr) : Z :=
  match rs with
  | [] => -1
  | r :: rs => if strcaseeq n (to_chars (r_name r)) then i else resolution_find rs (i + 1) n
  end.
Definition cfg_resolution_find (n : cstr) : Z := resolution_find cfg_resolutions 0 n.

Section Cfg.
Context `{Settings} `{!Hwinfo} `{!Bin2hex}.

Definition cfg_load (key : string) (v : setting_value) (s : cfg_state) : cfg_state :=
  if negb (bool_decide (key = "v1")) then s else
  match sv_read v cfg_sizeof with
  | None => s
  | Some b =>
      if negb (length b =? cfg_sizeof)%nat then s
      else
        let tmp := cfg_of_bytes b in
        let tmp := tmp <| token ::= <[CFG_TOKEN_MAX := NUL]> |>
                       <| password ::= <[CFG_PASSWORD_MAX := NUL]> |>
                       <| name ::= <[CFG_NAME_MAX := NUL]> |> in
        s <| the_cfg := tmp |>
  end.

Definition cfg_init (s : cfg_state) (w : os) : Z * cfg_state * os :=
  let '((n, id), w) := hwinfo_get_device_id FP_ID_MAX w in
  if n <=? 0 then ((if n <? 0 then n else - EIO), s, w) else
  let s := s <| fingerprint := FP_PREFIX ++
    default [] (bin2hex (take (Z.to_nat n) id) (fingerprint_size - length FP_PREFIX)) |> in
  let '(ret, w) := settings_subsys_init w in
  if ret <? 0 then (ret, s, w) else
  let '((ret, entries), w) := settings_load_subtree "prusa" w in
  (ret, foldl (fun s '(key, v) => cfg_load key v s) s entries, w).

(** The caller runs [cfg_changed] exactly when the result is zero. *)
Definition cfg_set (c : cfg) (s : cfg_state) (w : os) : Z * cfg_state * os :=
  if cfg_refused c then (- EINVAL, s, w) else
  let '(ret, w) := settings_save_one "prusa/v1" (cfg_bytes c) w in
  (ret, if ret =? 0 then s <| the_cfg := c |> else s, w).
End Cfg.

(** * Specification *)

(** What the C types bound. *)
Definition cfg_typed (c : cfg) : Prop :=
  length (token c) = 65%nat /\ length (password c) = 33%nat /\ length (name c) = 33%nat /\
  0 <= interval_s c < 65536 /\ 0 <= resolution c < 256 /\ 0 <= quality c < 256 /\
  0 <= rotation c < 256 /\ 0 <= ip c < 2 ^ 32 /\ 0 <= netmask c < 2 ^ 32 /\
  0 <= gateway c < 2 ^ 32 /\ 0 <= dns c < 2 ^ 32 /\
  -128 <= brightness c < 128 /\ -128 <= contrast c < 128 /\ -128 <= saturation c < 128.

(** What a configuration says: its strings, whatever follows them. *)
Definition view (c : cfg) : cfg :=
  c <| token ::= cstring |> <| password ::= cstring |> <| name ::= cstring |>.

(** What a stored configuration must satisfy. *)
Definition cfg_valid (c : cfg) : Prop :=
  interval_s c ∈ [10; 30; 60; 600] /\
  (cstring (token c) = [] \/ prusa_camera_token_valid (cstring (token c)) = true) /\
  (1 <= length (cstring (name c)) <= 32)%nat /\
  (length (cstring (password c)) <= 32)%nat /\
  (-2 <= brightness c <= 2) /\ (-2 <= contrast c <= 2) /\ (-2 <= saturation c <= 2) /\
  resolution c < 6 /\ quality c <= 100 /\ rotation c <= 3 /\
  (ip c <> 0 -> netmask c <> 0 /\ gateway c <> 0).

(** * Lemmas *)

Lemma cstring_length a : (length (cstring a) <= length a)%nat.
Proof. induction a as [|c a IH]; cbn; [lia|]. destruct (Ascii.eqb c NUL); cbn; lia. Qed.

Lemma cstring_insert a n : (n < length a)%nat -> cstring (<[n := NUL]> a) = take n (cstring a).
Proof.
  revert n. induction a as [|c a IH]; intros n Hn; cbn in Hn; [lia|].
  destruct n; cbn; [done|]. destruct (Ascii.eqb c NUL); [done|]. cbn. by rewrite IH by lia.
Qed.

(** Strings without NULs, as C has them. *)
Definition no_nul (s : cstr) : Prop := Forall (fun c => c <> NUL) s.
Lemma cstring_app s l : no_nul s -> cstring (s ++ NUL :: l) = s.
Proof.
  induction 1 as [|c s Hc _ IH]; [done|]. cbn. destruct (Ascii.eqb_spec c NUL); [done|]. by rewrite IH.
Qed.
Lemma cstring_strcpy d s : no_nul s -> cstring (strcpy d s) = s.
Proof. intros Hs. by apply cstring_app. Qed.
Lemma strcpy_length d s : (length s < length d)%nat -> length (strcpy d s) = length d.
Proof. intros Hs. unfold strcpy. rewrite !length_app, length_drop. cbn. lia. Qed.
Lemma cstring_no_nul a : no_nul (cstring a).
Proof.
  induction a as [|c a IH]; cbn; [constructor|].
  destruct (Ascii.eqb_spec c NUL); constructor; auto.
Qed.

Lemma chars_back a : map (fun z => ascii_of_nat (Z.to_nat z)) (map char_code a) = a.
Proof. induction a as [|c a IH]; [done|]. cbn. by rewrite char_code_back, IH. Qed.

Lemma byte_at_app h t k : byte_at (h ++ t) (length h + k) = byte_at t k.
Proof. unfold byte_at. by rewrite lookup_app_r, Nat.add_comm, Nat.add_sub by lia. Qed.
Lemma bool_at_app h t k : bool_at (h ++ t) (length h + k) = bool_at t k.
Proof. unfold bool_at. by rewrite byte_at_app. Qed.
Lemma word_at_app h t k n : word_at (h ++ t) (length h + k) n = word_at t k n.
Proof. unfold word_at. by rewrite drop_app_add. Qed.
Lemma chars_at_app h a t : chars_at (h ++ map char_code a ++ t) (length h) (length a) = a.
Proof.
  unfold chars_at. rewrite drop_app_length. rewrite take_app_le by (by rewrite length_map).
  rewrite firstn_all2 by (by rewrite length_map). apply chars_back.
Qed.

Lemma s8_u8 z : -128 <= z < 128 -> s8 (u8 z) = z.
Proof.
  intros Hz. unfold s8, u8. rewrite Zmod_mod. change (2 ^ 8) with 256.
  destruct (Z_lt_dec z 0).
  - replace (z mod 256) with (z + 256) by (apply (Z.mod_unique z 256 (-1)); lia).
    cbv zeta. destruct (Z.ltb_spec (z + 256) 128); lia.
  - rewrite Z.mod_small by lia. cbv zeta. destruct (Z.ltb_spec z 128); lia.
Qed.
Lemma bool_byte_back b : negb (byte_of_bool b =? 0) = b.
Proof. by destruct b. Qed.

(** The image of the fields after the char arrays. *)
Definition tail_bytes (c : cfg) : list Z :=
  le_bytes 2 (interval_s c) ++
  [u8 (resolution c); u8 (quality c); byte_of_bool (hflip c); byte_of_bool (vflip c);
   byte_of_bool (flash c); u8 (rotation c)] ++
  le_bytes 4 (ip c) ++ le_bytes 4 (netmask c) ++ le_bytes 4 (gateway c) ++ le_bytes 4 (dns c) ++
  [u8 (brightness c); u8 (contrast c); u8 (saturation c); byte_of_bool (auto_exposure c);
   byte_of_bool (auto_wb c); byte_of_bool (auto_gain c)] ++ [0; 0].
Definition head_bytes (c : cfg) : list Z :=
  map char_code (token c) ++ map char_code (password c) ++ map char_code (name c) ++ [0].
Lemma cfg_bytes_split c : cfg_bytes c = head_bytes c ++ tail_bytes c.
Proof. unfold cfg_bytes, head_bytes, tail_bytes. by rewrite <- !app_assoc. Qed.
Lemma head_length c : cfg_typed c -> length (head_bytes c) = 132%nat.
Proof.
  intros (Ht & Hp & Hn & _). unfold head_bytes. rewrite !length_app, !length_map, Ht, Hp, Hn. done.
Qed.
Lemma cfg_bytes_length c : cfg_typed c -> length (cfg_bytes c) = cfg_sizeof.
Proof. intros Hc. rewrite cfg_bytes_split, length_app, head_length by done. done. Qed.

Lemma cfg_bytes_back c : cfg_typed c -> cfg_of_bytes (cfg_bytes c) = c.
Proof.
  intros Hc. pose proof (head_length c Hc) as Hh.
  destruct Hc as (Ht & Hp & Hn & Hiv & Hre & Hq & Hro & Hip & Hnm & Hgw & Hdn & Hb & Hco & Hs).
  assert (chars_at (cfg_bytes c) 0 65 = token c) as E1.
  { rewrite <- Ht at 1. apply (chars_at_app [] (token c)). }
  assert (chars_at (cfg_bytes c) 65 33 = password c) as E2.
  { pose proof (chars_at_app (map char_code (token c)) (password c)) as Hx.
    rewrite length_map, Ht, Hp in Hx. apply Hx. }
  assert (chars_at (cfg_bytes c) 98 33 = name c) as E3.
  { pose proof (chars_at_app (map char_code (token c) ++ map char_code (password c)) (name c)) as Hx.
    rewrite length_app, !length_map, Ht, Hp, Hn in Hx. unfold cfg_bytes. rewrite app_assoc. apply Hx. }
  unfold cfg_of_bytes. rewrite E1, E2, E3. rewrite cfg_bytes_split.
  pose proof (byte_at_app (head_bytes c) (tail_bytes c)) as Hby.
  pose proof (bool_at_app (head_bytes c) (tail_bytes c)) as Hbo.
  pose proof (word_at_app (head_bytes c) (tail_bytes c)) as Hwo.
  rewrite Hh in Hby, Hbo, Hwo. cbn [Nat.add] in Hby, Hbo, Hwo.
  rewrite (Hwo 0%nat), (Hby 2%nat), (Hby 3%nat), (Hbo 4%nat), (Hbo 5%nat), (Hbo 6%nat), (Hby 7%nat),
    (Hwo 8%nat), (Hwo 12%nat), (Hwo 16%nat), (Hwo 20%nat), (Hby 24%nat), (Hby 25%nat), (Hby 26%nat),
    (Hbo 27%nat), (Hbo 28%nat), (Hbo 29%nat).
  change (word_at (tail_bytes c) 0 2) with (le_val (le_bytes 2 (interval_s c))).
  change (word_at (tail_bytes c) 8 4) with (le_val (le_bytes 4 (ip c))).
  change (word_at (tail_bytes c) 12 4) with (le_val (le_bytes 4 (netmask c))).
  change (word_at (tail_bytes c) 16 4) with (le_val (le_bytes 4 (gateway c))).
  change (word_at (tail_bytes c) 20 4) with (le_val (le_bytes 4 (dns c))).
  rewrite !le_val_bytes_small by lia. unfold bool_at.
  change (byte_at (tail_bytes c)) with (fun i => default 0 (tail_bytes c !! i)).
  cbn -[u8 s8 byte_of_bool Z.eqb].
  rewrite !bool_byte_back, !s8_u8, !u8_small by lia. by destruct c.
Qed.

Lemma token_valid_length t : prusa_camera_token_valid t = true -> length t = 20%nat.
Proof. unfold prusa_camera_token_valid. intros Ht. to_prop. by apply Nat.eqb_eq in H. Qed.

Lemma trigger_valid n : (prusa_camera_trigger_from_seconds n <? 0) = false <-> n ∈ [10; 30; 60; 600].
Proof.
  split.
  - intros Hn. to_prop.
    destruct (trigger_from_seconds_spec n _ eq_refl Hn) as (_ & _ & Hc).
    rewrite !elem_of_cons. tauto.
  - rewrite !elem_of_cons. intros [-> | [-> | [-> | [-> | Hn]]]]; [reflexivity..|].
    by apply elem_of_nil in Hn.
Qed.

Lemma IN_RANGE_spec v lo hi : IN_RANGE v lo hi = true <-> lo <= v <= hi.
Proof. unfold IN_RANGE. rewrite andb_true_iff, !Z.leb_le. done. Qed.

(** The guard accepts exactly the valid configurations. *)
Lemma cfg_refused_spec c : cfg_refused c = false <-> cfg_valid c.
Proof.
  unfold cfg_refused, cfg_valid.
  rewrite !orb_false_iff, trigger_valid, !negb_false_iff, !IN_RANGE_spec, !Z.leb_gt, !Z.ltb_ge, !Nat.ltb_ge.
  rewrite !andb_false_iff, !negb_false_iff, !orb_false_iff, !bool_decide_eq_true, !bool_decide_eq_false,
    Z.eqb_eq, !Z.eqb_neq.
  change cfg_resolution_count with 6. unfold CFG_NAME_MAX, CFG_PASSWORD_MAX, CFG_TOKEN_MAX.
  split.
  - intros H. decompose [and] H. repeat split; try done; try tauto; try lia.
    destruct (cstring (name c)); [done|cbn; lia].
  - intros H. decompose [and] H. repeat split; try done; try tauto; try lia.
    + intros E. rewrite E in *. cbn in *. lia.
    + destruct H2 as [E | E]; [rewrite E; cbn; lia|apply token_valid_length in E; lia].
Qed.

(** Validity reads only what a configuration says. *)
Lemma cstring_idem a : cstring (cstring a) = cstring a.
Proof. induction a as [|c a IH]; cbn; [done|]. destruct (Ascii.eqb c NUL) eqn:E; [done|]. cbn. by rewrite E, IH. Qed.
Lemma valid_view c : cfg_valid (view c) <-> cfg_valid c.
Proof. unfold cfg_valid, view. cbn. by rewrite !cstring_idem. Qed.
Lemma valid_same_view c d : view c = view d -> cfg_valid c -> cfg_valid d.
Proof. intros E. rewrite <- (valid_view c), E. by rewrite valid_view. Qed.

(** What [cfg_load] makes of a stored configuration. *)
Definition terminate (c : cfg) : cfg :=
  c <| token ::= <[CFG_TOKEN_MAX := NUL]> |> <| password ::= <[CFG_PASSWORD_MAX := NUL]> |>
    <| name ::= <[CFG_NAME_MAX := NUL]> |>.
Lemma view_terminate c : cfg_typed c -> cfg_valid c -> view (terminate c) = view c.
Proof.
  intros (Ht & Hp & Hn & _) (_ & Htok & Hname & Hpw & _).
  unfold view, terminate. cbn.
  rewrite !cstring_insert by (unfold CFG_TOKEN_MAX, CFG_PASSWORD_MAX, CFG_NAME_MAX; lia).
  rewrite !firstn_all2; [done|..]; unfold CFG_TOKEN_MAX, CFG_PASSWORD_MAX, CFG_NAME_MAX; try lia.
  destruct Htok as [E | E]; [rewrite E; cbn; lia|apply token_valid_length in E; lia].
Qed.
Lemma typed_terminate c : cfg_typed c -> cfg_typed (terminate c).
Proof. unfold cfg_typed, terminate. cbn. by rewrite !length_insert. Qed.

Lemma cfg_load_stored key c s : cfg_typed c ->
  cfg_load key (stored_value (cfg_bytes c)) s =
  if decide (key = "v1"%string) then s <| the_cfg := terminate c |> else s.
Proof.
  intros Hc. unfold cfg_load. case_bool_decide; case_decide; try done. cbn [negb stored_value sv_read].
  rewrite firstn_all2, cfg_bytes_length by (rewrite ?cfg_bytes_length; done).
  by rewrite Nat.eqb_refl, cfg_bytes_back.
Qed.

(** * Properties *)
Section CfgProperties.
Context `{SettingsLaws} `{!Hwinfo} `{!Bin2hex}.
(** Reading the chip's id leaves the flash alone. *)
Context (hwinfo_keeps : forall n w k, stored (snd (hwinfo_get_device_id n w)) k = stored w k).
Variable hostname : cstr.

Definition KEY : string := "prusa/v1".

(** How the configuration can evolve: a first boot, settings from the shell and the
    web page (accepted or not, saved or not), reboots, and whatever else goes on. *)
Inductive runs : cfg_state -> os -> Prop :=
| first_boot w s' w' :
    stored w KEY = None -> cfg_init (cfg_boot hostname) w = (0, s', w') -> runs s' w'
| setting c s w r s' w' :
    runs s w -> cfg_typed c -> cfg_set c s w = (r, s', w') -> runs s' w'
| reboot s w s' w' : runs s w -> cfg_init (cfg_boot hostname) w = (0, s', w') -> runs s' w'
| elsewhere s w w' : runs s w -> (forall k, stored w' k = stored w k) -> runs s w'.

(** The RAM copy is what the store holds, or the defaults when it holds nothing. *)
Definition persisted (c : cfg) (w : os) : Prop :=
  cfg_typed c /\ cfg_valid c /\
  match stored w KEY with
  | None => view c = view (cfg_default hostname)
  | Some b => exists d, cfg_typed d /\ cfg_valid d /\ b = cfg_bytes d /\ view d = view c
  end.

Lemma load_other es s : (forall v, ("v1"%string, v) ∉ es) ->
  foldl (fun s '(key, v) => cfg_load key v s) s es = s.
Proof.
  revert s. induction es as [|[key v] es IH]; intros s Hn; [done|]. cbn.
  unfold cfg_load at 2. case_bool_decide as E; cbn.
  - subst. by destruct (Hn v); left.
  - apply IH. intros v' Hv. apply (Hn v'). by right.
Qed.
Lemma load_stored c es s : cfg_typed c ->
  (forall v, ("v1"%string, v) ∈ es -> v = stored_value (cfg_bytes c)) ->
  (the_cfg s = terminate c \/ exists v, ("v1"%string, v) ∈ es) ->
  the_cfg (foldl (fun s '(key, v) => cfg_load key v s) s es) = terminate c.
Proof.
  intros Hc. revert s. induction es as [|[key v] es IH]; intros s Hv Hs; cbn.
  - destruct Hs as [|[v Hs]]; [done|]. by apply elem_of_nil in Hs.
  - destruct (decide (key = "v1"%string)) as [->|Hne].
    + rewrite (Hv v), cfg_load_stored by (done || by left). case_decide; [|done].
      apply IH; [|by left]. intros v' Hin. apply Hv. by right.
    + unfold cfg_load at 2. case_bool_decide; [done|]. cbn. apply IH.
      * intros v' Hin. apply Hv. by right.
      * destruct Hs as [|[v' Hin]]; [by left|]. right. exists v'.
        apply elem_of_cons in Hin as [|]; [by simplify_eq|done].
Qed.

Lemma cfg_init_spec w s w' : cfg_init (cfg_boot hostname) w = (0, s, w') ->
  (forall k, stored w' k = stored w k) /\
  (stored w KEY = None -> the_cfg s = cfg_default hostname) /\
  (forall c, cfg_typed c -> stored w KEY = Some (cfg_bytes c) -> the_cfg s = terminate c).
Proof.
  unfold cfg_init. intros Hi. pose proof (hwinfo_keeps FP_ID_MAX w) as Hk.
  destruct (hwinfo_get_device_id FP_ID_MAX w) as [[n id] w1]. cbn [snd] in Hk.
  destruct (n <=? 0) eqn:En.
  { destruct (n <? 0) eqn:En2; simplify_eq; to_prop; unfold EIO in *; lia. }
  destruct (settings_subsys_init w1) as [r w2] eqn:E2.
  destruct (r <? 0) eqn:Er; [simplify_eq; to_prop; lia|].
  destruct (settings_load_subtree "prusa" w2) as [[r3 es] w3] eqn:E3. injection Hi as -> <- <-.
  assert (forall k, stored w2 k = stored w k) as Hk2.
  { intros k. rewrite (init_keeps _ _ _ E2 k). apply Hk. }
  split; [intros k; by rewrite (load_keeps _ _ _ _ E3 k), Hk2|]. split.
  - intros Hn. rewrite load_other; [done|]. intros v Hin.
    destruct (load_sound _ _ _ _ _ _ E3 Hin) as (b & Hb & _).
    rewrite Hk2 in Hb. change ("prusa" +:+ "/" +:+ "v1") with KEY in Hb. congruence.
  - intros c Hc Hs. apply load_stored; [done| |].
    + intros v Hin. destruct (load_sound _ _ _ _ _ _ E3 Hin) as (b & Hb & ->).
      rewrite Hk2 in Hb. change ("prusa" +:+ "/" +:+ "v1") with KEY in Hb. congruence.
    + right. eexists. eapply load_complete; [exact E3|]. by rewrite Hk2.
Qed.

Lemma default_ok : no_nul hostname -> (1 <= length hostname <= 32)%nat ->
  cfg_typed (cfg_default hostname) /\ cfg_valid (cfg_default hostname).
Proof.
  intros Hn Hl. split.
  - unfold cfg_typed, cfg_default. cbn -[repeat Z.pow]. rewrite !repeat_length.
    unfold char_array. rewrite strcpy_length by (rewrite repeat_length; unfold CFG_NAME_MAX; lia).
    rewrite repeat_length. repeat split; lia || done.
  - unfold cfg_valid, cfg_default. cbn [interval_s token name password brightness contrast saturation
      resolution quality rotation ip]. unfold char_array. rewrite cstring_strcpy by done.
    split; [set_solver|]. split; [by left|]. split; [done|]. repeat split; lia || (cbn; lia).
Qed.

Hypothesis hostname_ok : no_nul hostname /\ (1 <= length hostname <= 32)%nat.

(** A boot leaves RAM saying what the store says. *)
Lemma boot_persisted c w s w' : persisted c w -> cfg_init (cfg_boot hostname) w = (0, s, w') ->
  persisted (the_cfg s) w' /\ view (the_cfg s) = view c.
Proof.
  intros (Hc & Hv & Hp) Hi. destruct (cfg_init_spec _ _ _ Hi) as (Hk & Hnone & Hsome).
  unfold persisted. rewrite Hk. destruct (stored w KEY) as [b|].
  - destruct Hp as (d & Hd & Hvd & -> & Hview). rewrite (Hsome d Hd eq_refl).
    rewrite view_terminate, Hview by done. split; [|done].
    split; [by apply typed_terminate|]. split.
    { apply (valid_same_view d); [by rewrite view_terminate|done]. }
    exists d. by rewrite Hview.
  - rewrite (Hnone eq_refl). split; [|done]. destruct (default_ok (proj1 hostname_ok) (proj2 hostname_ok)).
    done.
Qed.

Lemma runs_persisted s w : runs s w -> persisted (the_cfg s) w.
Proof.
  induction 1 as [w s w' Hn Hi|c s w r s' w' _ IH Hc Hs|s w s' w' _ IH Hi|s w w' _ IH Hk].
  - destruct (cfg_init_spec _ _ _ Hi) as (Hk & Hnone & _). unfold persisted.
    rewrite Hk, Hn, (Hnone Hn). destruct (default_ok (proj1 hostname_ok) (proj2 hostname_ok)). done.
  - unfold cfg_set in Hs. destruct (cfg_refused c) eqn:Er; [by simplify_eq|].
    apply cfg_refused_spec in Er.
    destruct (settings_save_one "prusa/v1" (cfg_bytes c) w) as [r1 w1] eqn:E1. injection Hs as <- <- <-.
    destruct (r1 =? 0) eqn:E0; to_prop.
    + subst. unfold persisted. rewrite (save_ok _ _ _ _ E1 KEY). rewrite decide_True by done.
      split; [done|]. split; [done|]. by exists c.
    + unfold persisted. by rewrite (save_failed _ _ _ _ _ E1 E0).
  - by destruct (boot_persisted _ _ _ _ IH Hi).
  - unfold persisted in *. by rewrite Hk.
Qed.

(** C17: In any history the configuration in use is valid, and a reboot at any moment
    brings back what it says. *)
Theorem config_survives_reboot s w : runs s w ->
  cfg_valid (the_cfg s) /\
  (forall s' w', cfg_init (cfg_boot hostname) w = (0, s', w') ->
    view (the_cfg s') = view (the_cfg s)).
Proof.
  intros Hr. apply runs_persisted in Hr. split; [apply Hr|].
  intros s' w' Hi. by destruct (boot_persisted _ _ _ _ Hr Hi).
Qed.
End CfgProperties.

(** * Instances for the witnesses *)
Definition hex_char (z : Z) : ascii :=
  ascii_of_nat (Z.to_nat (if z <? 10 then 48 + z else 87 + z)).
#[export] Instance sim_bin2hex : Bin2hex := {|
  bin2hex b n := if (n <? 2 * length b + 1)%nat then None
                 else Some (List.concat (map (fun z => [hex_char (z / 16); hex_char (z mod 16)]) b));
|}.
#[export] Instance sim_bin2hex_laws : Bin2hexLaws.
Proof.
  split. intros b n Hn. unfold bin2hex, sim_bin2hex. destruct (Nat.ltb_spec n (2 * length b + 1)); [lia|].
  eexists. split; [reflexivity|]. clear. induction b as [|z b IH]; [done|].
  cbn [map List.concat app length] in *. rewrite IH. lia.
Qed.

Definition sample_hostname : cstr := to_chars "prusa-cam".
Definition sample_cfg : cfg :=
  (cfg_default sample_hostname) <| token := char_array 65 (to_chars "abcdefghij0123456789") |>
    <| interval_s := 60 |> <| brightness := -2 |>.
Lemma sample_typed : cfg_typed sample_cfg.
Proof. repeat split; (reflexivity || (cbn; lia)). Qed.

Definition cam_first_boot : Z * cfg_state * sim := cfg_init (cfg_boot sample_hostname) sim_boot.
Definition cam_set : Z * cfg_state * sim :=
  cfg_set sample_cfg (snd (fst cam_first_boot)) (snd cam_first_boot).
Definition cam_reboot : Z * cfg_state * sim :=
  cfg_init (cfg_boot sample_hostname) (snd cam_set).
Lemma cam_runs : fst (fst cam_first_boot) = 0 /\ fst (fst cam_set) = 0 /\ fst (fst cam_reboot) = 0.
Proof. vm_compute. done. Qed.
Lemma pair3 {A B C} (x : A * B * C) a : fst (fst x) = a -> x = (a, snd (fst x), snd x).
Proof. intros <-. by destruct x as [[? ?] ?]. Qed.

Lemma sample_hostname_ok : no_nul sample_hostname /\ (1 <= length sample_hostname <= 32)%nat.
Proof. split; [|cbn; lia]. repeat constructor; discriminate. Qed.
Lemma cam_set_runs : runs sample_hostname (snd (fst cam_set)) (snd cam_set).
Proof.
  destruct cam_runs as (E1 & E2 & E3). apply pair3 in E1, E2.
  eapply setting; [|exact sample_typed|exact E2]. eapply first_boot; [|exact E1]. reflexivity.
Qed.

Lemma config_survives_reboot_witness :
  cfg_valid (the_cfg (snd (fst cam_set))) /\
  view (the_cfg (snd (fst cam_reboot))) = view (the_cfg (snd (fst cam_set))).
Proof.
  destruct (@config_survives_reboot sim_os sim_settings sim_settings_laws sim_hwinfo sim_bin2hex
    (fun _ _ _ => eq_refl) sample_hostname sample_hostname_ok _ _ cam_set_runs) as [H1 H2].
  split; [exact H1|]. destruct cam_runs as (_ & _ & E3). apply pair3 in E3. exact (H2 _ _ E3).
Defined.
