(* ===== verification/PrusaConnect.v ===== *)
(** prusa_cam's upload thread: [prusa_cam/src/connect.c].

    The thread, the threads that kick it and the network move in interleaved atomic
    steps: [event] is one, [do_event] runs it if it can run now.  A request is the
    whole of [PrusaProto.v]'s; other threads run before it and before its answer is
    looked at. *)

From Stdlib Require Import Ascii.
From S2P Require Import Prelude Printf Platform Instances HttpUtil PrusaProto PrusaCfg.
#[local] Open Scope Z_scope.

Definition BACKOFF_MAX_S : Z := 600.
Definition WIFI_SSID_MAX_LEN : nat := 32.

(** The camera's frames ([cam_snapshot], [cam_frame], [cam_release] of cam.c), and the WiFi
    station interface: whether there is one, its link address, its preferred global
    address as [net_addr_ntop] writes it, and the result, state and SSID of the
    status request. *)
Class CamStation `{Os} := {
  cam_snapshot : os -> (Z * list Z) * os;
  cam_frame : os -> (Z * list Z) * os;
  cam_release : os -> os;
  sta_present : os -> bool;
  sta_link_addr : os -> option (list Z);
  sta_ipv4 : os -> option cstr;
  sta_status : os -> Z * (Z * cstr * nat);
  WIFI_STATE_ASSOCIATED : Z;
}.

Record connect_status := mk_status {
  last_ms : Z; last_result : Z; uploads : Z; st_stopped : bool;
}.
#[export] Instance eta_status : Eta connect_status := fun s =>
  mk_status (last_ms s) (last_result s) (uploads s) (st_stopped s).

Inductive kind := TEST | INFO | SNAPSHOT.
#[export] Instance kind_eq_dec : EqDecision kind.
Proof. solve_decision. Defined.

(** Where the thread is: at the head of its loop; waiting on the semaphore, for so
    many seconds; woken by a kick; about to read the configuration; in [step] with
    what it read; about to make a request; with its result. *)
Inductive pc := PHead | PBlocked (wait : Z) | PKicked | PCheck | PStep (c : cfg)
              | PCalling (k : kind) (c : cfg) | PAnswered (k : kind) (c : cfg) (ret : Z).

(** [wait], in seconds. *)
Definition backoff (interval fails : Z) : Z :=
  let wait := Z.min (u32 (Z.shiftl interval (Z.min fails 6))) BACKOFF_MAX_S in
  Z.max wait interval.

Definition hex_digit_char (z : Z) : ascii := ascii_of_nat (Z.to_nat (if z <? 10 then 48 + z else 87 + z)).
Definition hex2 (z : Z) : cstr := [hex_digit_char (u8 z / 16); hex_digit_char (u8 z mod 16)].
Definition mac_text (addr : list Z) : cstr :=
  match map hex2 addr with
  | [] => []
  | a :: l => a ++ List.concat (map (fun h => chr ":" :: h) l)
  end.

Section Connect.
Context `{Https} `{!JsonEncoder} `{!Settings} `{!CamStation}.
Variable config : camera_config.
Variable app_version : cstr.

(** [net]: mac, ipv4 and ssid. *)
Record net_info := mk_net_info { net_mac : cstr; net_ipv4 : cstr; net_ssid : cstr }.
Definition net_info_update (o : os) : net_info :=
  if negb (sta_present o) then mk_net_info [] [] [] else
  mk_net_info
    (match sta_link_addr o with
     | Some addr => if (length addr =? 6)%nat then mac_text addr else []
     | None => []
     end)
    (default [] (sta_ipv4 o))
    (let '(ret, (state, ssid, ssid_len)) := sta_status o in
     if (ret =? 0) && (WIFI_STATE_ASSOCIATED <=? state)
     then cstring (take (Nat.min ssid_len WIFI_SSID_MAX_LEN) ssid) else []).

Definition info_of (n : net_info) (c : cfg) : prusa_camera_info :=
  let r := cfg_resolutions !! Z.to_nat (resolution c) in
  mk_info (Some (cstring (name c))) (u32 (prusa_camera_trigger_from_seconds (interval_s c)))
    (u16 (rotation c * 90)) (from_option r_width 0 r) (from_option r_height 0 r)
    (Some (net_mac n)) (Some (net_ipv4 n)) (Some (net_ssid n))
    (Some (to_chars "ESP32")) (Some app_version) (Some (to_chars "AI-Thinker ESP32-CAM"))
    (Some (to_chars "AI-Thinker")) (Some (to_chars "ESP32-CAM")).

Definition send_info (auth : prusa_camera_auth) (c : cfg) (s : prusa_camera) (w : network)
  : Z * prusa_camera * network :=
  prusa_camera_put_info config auth (info_of (net_info_update (n_os w)) c) s w.

Definition send_snapshot (auth : prusa_camera_auth) (s : prusa_camera) (w : network)
  : Z * prusa_camera * network :=
  let '((ret, jpeg), o) := cam_snapshot (n_os w) in
  let w := w <| n_os := o |> in
  if ret <? 0 then (ret, s, w) else
  let '(ret, s, w) := prusa_camera_put_snapshot config auth jpeg s w in
  (ret, s, w <| n_os ::= cam_release |>).

(** The statics of connect.c, the thread's locals, and what the parts it calls
    keep.  [attempts] is the history of its requests. *)
Record connect := mk_connect {
  kick : bool;                       (* the semaphore, of limit 1 *)
  info_stale : bool;
  test_requested : bool;
  status : connect_status;
  fails : Z;
  stopped : bool;
  at_ : pc;
  cfgs : cfg_state;
  client : prusa_camera;
  net : network;
  attempts : list (kind * cfg * Z);
}.
#[export] Instance eta_connect : Eta connect := fun a =>
  mk_connect (kick a) (info_stale a) (test_requested a) (status a) (fails a) (stopped a) (at_ a)
    (cfgs a) (client a) (net a) (attempts a).
Definition connect_start (s : cfg_state) (cl : prusa_camera) (w : network) : connect :=
  mk_connect false true false (mk_status 0 0 0 false) 0 false PHead s cl w [].

(** A thread's atomic step: the upload thread's next one ([Step]); its wait ending
    by the semaphore or by the time-out; and, in other threads, the halves of
    [connect_kick], [addr_event] and [connect_test], and a configuration stored. *)
Inductive event := Step | Take | Timeout | SetStale | SetTest | Give | SetCfg (c : cfg).

Definition connect_kick : list event := [SetStale; Give].
Definition connect_test : list event := [SetTest; Give].

Definition record_attempt (ret : Z) (uploaded stop : bool) (a : connect) : connect :=
  let '(ms, o) := k_uptime_get (n_os (net a)) in
  a <| net := (net a) <| n_os := o |> |>
    <| status := mk_status ms ret (if uploaded then u32 (uploads (status a) + 1) else uploads (status a)) stop |>.

(** [step] up to its request: none when it is stopped. *)
Definition step_kind (c : cfg) (a : connect) : connect :=
  if test_requested a then a <| test_requested := false |> <| at_ := PCalling TEST c |>
  else if stopped a then a <| at_ := PHead |>
  else if info_stale a then a <| at_ := PCalling INFO c |>
  else a <| at_ := PCalling SNAPSHOT c |>.

Definition step_call (k : kind) (c : cfg) (a : connect) : connect :=
  let auth := mk_auth (cstring (token c)) (fingerprint (cfgs a)) in
  let '(ret, cl, w) :=
    match k with
    | TEST => prusa_camera_get_info config auth (client a) (net a)
    | INFO => send_info auth c (client a) (net a)
    | SNAPSHOT => send_snapshot auth (client a) (net a)
    end in
  a <| client := cl |> <| net := w |> <| at_ := PAnswered k c ret |>
    <| attempts ::= fun l => l ++ [(k, c, ret)] |>.

(** The rest of [step], and the thread's switch on what it returns. *)
Definition step_answer (k : kind) (ret : Z) (a : connect) : connect :=
  let next := prusa_camera_next ret in
  let ok := bool_decide (next = PRUSA_CAMERA_NEXT_OK) in
  let a := if bool_decide (k = INFO) && ok then a <| info_stale := false |> else a in
  let a := a <| stopped := bool_decide (next = PRUSA_CAMERA_NEXT_STOP) |> in
  let a := record_attempt ret (bool_decide (k = SNAPSHOT) && ok) (stopped a) a in
  a <| fails ::= fun f => match next with
                          | PRUSA_CAMERA_NEXT_RETRY => u32 (f + 1)
                          | PRUSA_CAMERA_NEXT_OK => 0
                          | _ => f
                          end |>
    <| at_ := PHead |>.

Definition thread_step (a : connect) : option connect :=
  match at_ a with
  | PHead => Some (a <| at_ := PBlocked (backoff (interval_s (the_cfg (cfgs a))) (fails a)) |>)
  | PBlocked _ => None
  | PKicked => Some (a <| stopped := if test_requested a then stopped a else false |> <| at_ := PCheck |>)
  | PCheck =>
      let c := the_cfg (cfgs a) in
      Some (a <| at_ := if bool_decide (cstring (token c) = []) then PHead else PStep c |>)
  | PStep c => Some (step_kind c a)
  | PCalling k c => Some (step_call k c a)
  | PAnswered k c ret => Some (step_answer k ret a)
  end.

Definition do_event (e : event) (a : connect) : option connect :=
  match e with
  | Step => thread_step a
  | Take => match at_ a with
            | PBlocked _ => if kick a then Some (a <| kick := false |> <| at_ := PKicked |>) else None
            | _ => None
            end
  | Timeout => match at_ a with
               | PBlocked _ => if kick a then None else Some (a <| at_ := PCheck |>)
               | _ => None
               end
  | SetStale => Some (a <| info_stale := true |>)
  | SetTest => Some (a <| test_requested := true |>)
  | Give => Some (a <| kick := true |>)
  | SetCfg c =>
      let '(_, s, o) := cfg_set c (cfgs a) (n_os (net a)) in
      Some (a <| cfgs := s |> <| net := (net a) <| n_os := o |> |>)
  end.

Fixpoint run (es : list event) (a : connect) : option connect :=
  match es with
  | [] => Some a
  | e :: es => match do_event e a with Some a => run es a | None => None end
  end.
End Connect.
#[global] Arguments connect {_}.

(** * Specification *)

(** What a wake asks of the service: nothing without a token; a test if one was
    asked for; nothing while stopped, unless the wake is a kick; camera-info while
    it is stale, else a snapshot. *)
Definition next_request `{Os} (kicked : bool) (a : connect) : option kind :=
  if bool_decide (cstring (token (the_cfg (cfgs a))) = []) then None
  else if test_requested a then Some TEST
  else if stopped a && negb kicked then None
  else Some (if info_stale a then INFO else SNAPSHOT).

(** Requests in a row that failed for the moment: those since the last one the
    service accepted.  An answer that says to wait, or to stop, is neither. *)
Definition failures (l : list (kind * cfg * Z)) : Z :=
  foldl (fun n x => match prusa_camera_next x.2 with
                    | PRUSA_CAMERA_NEXT_OK => 0
                    | PRUSA_CAMERA_NEXT_RETRY => n + 1
                    | _ => n
                    end) 0 l.

(** * Properties *)
Section ConnectProperties.
Context `{Https} `{!JsonEncoder} `{!Settings} `{!CamStation}.
Variable config : camera_config.
Variable app_version : cstr.
Notation run := (run config app_version).
Notation do_event := (do_event config app_version).
Implicit Types a : connect.

Lemma connect_run_app es es' a :
  run (es ++ es') a = match run es a with Some a' => run es' a' | None => None end.
Proof.
  revert a. induction es as [|e es IH]; intros a; cbn; [done|]. by destruct (do_event e a).
Qed.

(** ** The wait *)
Lemma backoff_spec i f : i ∈ [10; 30; 60; 600] -> 0 <= f ->
  backoff i f = Z.min (i * 2 ^ Z.min f 6) 600.
Proof.
  intros Hi Hf. unfold backoff, BACKOFF_MAX_S.
  assert (exists n, Z.min f 6 = n /\
    (n = 0 \/ n = 1 \/ n = 2 \/ n = 3 \/ n = 4 \/ n = 5 \/ n = 6)) as (n & -> & Hn).
  { eexists. split; [reflexivity|]. lia. }
  rewrite !elem_of_cons in Hi.
  destruct Hi as [-> | [-> | [-> | [-> | Hi]]]]; [..|by apply elem_of_nil in Hi];
    repeat (destruct Hn as [-> | Hn]; [reflexivity|]); subst n; reflexivity.
Qed.

(** What a run keeps: a valid configuration, and in [fails] the failures of the
    requests whose answers the thread has taken. *)
Definition paced a : Prop :=
  cfg_valid (the_cfg (cfgs a)) /\
  match at_ a with
  | PAnswered k c ret => exists l, attempts a = l ++ [(k, c, ret)] /\ fails a = u32 (failures l)
  | _ => fails a = u32 (failures (attempts a))
  end.

Lemma cfg_set_valid c s o r s' o' : cfg_valid (the_cfg s) -> cfg_set c s o = (r, s', o') ->
  cfg_valid (the_cfg s').
Proof.
  unfold cfg_set. intros Hv Hs. destruct (cfg_refused c) eqn:E; [by simplify_eq|].
  destruct (settings_save_one _ _ _) as [r1 o1]. injection Hs as <- <- <-.
  destruct (r1 =? 0); [|done]. by apply cfg_refused_spec.
Qed.

Lemma failures_snoc l k c ret : u32 (failures (l ++ [(k, c, ret)])) =
  match prusa_camera_next ret with
  | PRUSA_CAMERA_NEXT_OK => 0
  | PRUSA_CAMERA_NEXT_RETRY => u32 (u32 (failures l) + 1)
  | _ => u32 (failures l)
  end.
Proof.
  unfold failures. rewrite foldl_app. cbn. destruct (prusa_camera_next ret); try done.
  unfold u32. by rewrite Z.add_mod_idemp_l.
Qed.

Lemma thread_step_paced a a' : paced a -> do_event Step a = Some a' -> paced a'.
Proof.
  intros [Hv Hf] He. cbn in He. unfold thread_step in He. unfold paced.
  destruct (at_ a) eqn:Ea; simplify_eq; cbn; try done.
  - by case_bool_decide.
  - unfold step_kind. by repeat bool_case.
  - unfold step_call. repeat pair_case. cbn. split; [done|]. by eexists.
  - destruct Hf as (l & El & Hf). unfold step_answer, record_attempt. repeat pair_case. cbn.
    assert (fails (if bool_decide (k = INFO) && bool_decide (prusa_camera_next ret = PRUSA_CAMERA_NEXT_OK)
                   then a <| info_stale := false |> else a) = fails a) as E1 by by destruct (_ && _).
    destruct (bool_decide (k = INFO) && _); cbn; rewrite El, failures_snoc, Hf;
      (split; [done|]); by destruct (prusa_camera_next ret).
Qed.
Lemma do_event_paced e a a' : paced a -> do_event e a = Some a' -> paced a'.
Proof.
  intros Hp He. destruct e; [by eapply thread_step_paced|..]; destruct Hp as [Hv Hf];
    cbn in He; unfold paced.
  - destruct (at_ a); try done. destruct (kick a); by simplify_eq.
  - destruct (at_ a); try done. destruct (kick a); by simplify_eq.
  - by simplify_eq.
  - by simplify_eq.
  - by simplify_eq.
  - destruct (cfg_set c (cfgs a) (n_os (net a))) as [[r s'] o'] eqn:Es. simplify_eq. cbn.
    split; [|done]. by eapply cfg_set_valid.
Qed.
Lemma run_paced es a a' : paced a -> run es a = Some a' -> paced a'.
Proof.
  revert a. induction es as [|e es IH]; intros a Hp Hr; cbn in Hr; [by simplify_eq|].
  destruct (do_event e a) as [a1|] eqn:E; [|done]. eapply IH; [|done]. by eapply do_event_paced.
Qed.

(** An event that leaves the thread waiting either began the wait, at the loop's
    head, or leaves the wait and the history of requests as they were. *)
Lemma waits_on e a a' wait : do_event e a = Some a' -> at_ a' = PBlocked wait ->
  (e = Step /\ at_ a = PHead /\ wait = backoff (interval_s (the_cfg (cfgs a))) (fails a) /\
     attempts a' = attempts a) \/
  (at_ a = PBlocked wait /\ attempts a' = attempts a).
Proof.
  intros He Ha. destruct e; cbn in He.
  - left. unfold thread_step in He. destruct (at_ a) eqn:Ea; simplify_eq; cbn in Ha; try done.
    + by injection Ha as <-.
    + by case_bool_decide.
    + exfalso. revert Ha. unfold step_kind. by repeat bool_case.
    + exfalso. revert Ha. unfold step_call. by repeat pair_case.
  - destruct (at_ a); try done. destruct (kick a); by simplify_eq.
  - destruct (at_ a); try done. destruct (kick a); by simplify_eq.
  - right. by simplify_eq.
  - right. by simplify_eq.
  - right. by simplify_eq.
  - right. destruct (cfg_set c (cfgs a) (n_os (net a))) as [[r s'] o']. by simplify_eq.
Qed.
Lemma wait_began es a0 a wait : run es a0 = Some a -> at_ a0 = PHead -> at_ a = PBlocked wait ->
  exists es1 es2 a1, es = es1 ++ Step :: es2 /\ run es1 a0 = Some a1 /\ at_ a1 = PHead /\
    wait = backoff (interval_s (the_cfg (cfgs a1))) (fails a1) /\ attempts a = attempts a1.
Proof.
  intros Hr H0'. revert a Hr. induction es as [|e es IH] using rev_ind; intros a Hr Ha.
  { cbn in Hr. simplify_eq. congruence. }
  rewrite connect_run_app in Hr. destruct (run es a0) as [a'|] eqn:Er; [|done]. cbn in Hr.
  destruct (do_event e a') as [a2|] eqn:He; [|done]. simplify_eq.
  destruct (waits_on _ _ _ _ He Ha) as [(-> & Hh & -> & Hl)|[Hb Hl]].
  - by exists es, [], a'.
  - destruct (IH _ eq_refl Hb) as (es1 & es2 & a1 & -> & ? & ? & ? & ?).
    exists es1, (es2 ++ [e]), a1. rewrite <- app_assoc. by rewrite Hl.
Qed.

(** C16: The thread's pace, from its history: in any interleaving, when the thread
    waits, the wait began at the head of its loop, with nothing asked of the service
    since, and lasts the interval configured at that moment - ten seconds, thirty, one
    minute or ten - doubled for each request in a row that has failed since the last one
    the service accepted, at most six times, and at most ten minutes.  So after an
    accepted request it is exactly the interval, and from the sixth failure on ten
    minutes.  (The count is of 32 bits.) *)
Theorem retries_paced es s cl w a wait :
  cfg_valid (the_cfg s) -> run es (connect_start s cl w) = Some a -> at_ a = PBlocked wait ->
  exists es1 es2 a1, es = es1 ++ Step :: es2 /\ run es1 (connect_start s cl w) = Some a1 /\
    at_ a1 = PHead /\ attempts a = attempts a1 /\
    let i := interval_s (the_cfg (cfgs a1)) in
    i ∈ [10; 30; 60; 600] /\
    wait = Z.min (i * 2 ^ Z.min (u32 (failures (attempts a))) 6) 600.
Proof.
  intros Hv Hr Ha. destruct (wait_began _ _ _ _ Hr eq_refl Ha) as (es1 & es2 & a1 & -> & Hr1 & Hh & -> & Hl).
  exists es1, es2, a1. rewrite Hl. repeat (split; [done|]).
  apply run_paced in Hr1 as [Hc Hf]; [|done]. rewrite Hh in Hf. cbv zeta. split; [apply Hc|].
  rewrite <- Hf. apply backoff_spec; [apply Hc|]. rewrite Hf. apply u32_range.
Qed.

(** ** One wake *)

(** The steps from a request to the next wait. *)
Lemma request_done k c a : at_ a = PCalling k c ->
  exists a' ret wait, run [Step; Step; Step] a = Some a' /\ at_ a' = PBlocked wait /\
    attempts a' = attempts a ++ [(k, c, ret)] /\ cfgs a' = cfgs a /\
    info_stale a' = (if bool_decide (k = INFO) && bool_decide (prusa_camera_next ret = PRUSA_CAMERA_NEXT_OK)
                     then false else info_stale a) /\
    stopped a' = bool_decide (prusa_camera_next ret = PRUSA_CAMERA_NEXT_STOP).
Proof.
  intros Ha. cbn. unfold thread_step at 1. rewrite Ha. unfold step_call.
  match goal with |- context [let '(_, _) := ?e in _] => destruct e as [[ret cl] w] end.
  cbn. unfold step_answer, record_attempt. destruct (k_uptime_get _) as [ms o].
  eexists _, ret, _. split; [reflexivity|]. cbn.
  destruct (bool_decide (k = INFO) && _); cbn; done.
Qed.

(** From the check of the token to the next wait. *)
Lemma check_done a : at_ a = PCheck ->
  exists n a' wait made, run (repeat Step n) a = Some a' /\ at_ a' = PBlocked wait /\
    attempts a' = attempts a ++ made /\ made.*1.*1 = option_list (next_request false a) /\
    Forall (fun r => r.1.2 = the_cfg (cfgs a)) made.
Proof.
  intros Ha. unfold next_request. case_bool_decide as Et.
  { exists 2%nat. cbn. unfold thread_step at 1. rewrite Ha, bool_decide_true by done. cbn.
    eexists _, _, []. rewrite app_nil_r. by repeat split. }
  assert (thread_step config app_version a = Some (a <| at_ := PStep (the_cfg (cfgs a)) |>)) as E1.
  { unfold thread_step. by rewrite Ha, bool_decide_false. }
  set (c := the_cfg (cfgs a)) in *.
  assert (forall b, step_kind c (a <| at_ := PStep c |>) = b -> forall k, at_ b = PCalling k c ->
    attempts b = attempts a ->
    exists n a' wait made, run (repeat Step n) a = Some a' /\ at_ a' = PBlocked wait /\
    attempts a' = attempts a ++ made /\ made.*1.*1 = [k] /\
    Forall (fun r => r.1.2 = c) made) as Hreq.
  { intros b Eb k Hk Hb. destruct (request_done _ _ _ Hk) as (a' & ret & wait & Hr & Hat & Hatt & _).
    exists 5%nat, a', wait, [(k, c, ret)]. rewrite Hatt, Hb.
    change (repeat Step 5) with ([Step; Step] ++ [Step; Step; Step]). rewrite connect_run_app.
    cbn [PrusaConnect.run do_event]. rewrite E1.
    change (thread_step config app_version (a <| at_ := PStep c |>))
      with (Some (step_kind c (a <| at_ := PStep c |>))). rewrite Eb.
    repeat split; [exact Hr|done|]. by constructor. }
  unfold step_kind in Hreq. cbn in Hreq. destruct (test_requested a) eqn:Et1.
  { by eapply Hreq. }
  destruct (stopped a) eqn:Es.
  { exists 3%nat. cbn. rewrite E1. cbn. unfold step_kind. cbn. rewrite Et1, Es. cbn.
    eexists _, _, []. rewrite app_nil_r. by repeat split. }
  cbn [andb]. destruct (info_stale a); by eapply Hreq.
Qed.

(** A wake makes the one request it asks for, or none, and waits again. *)
Theorem wake_makes_request (kicked : bool) a wait :
  at_ a = PBlocked wait -> kick a = kicked ->
  exists n a' wait' made,
    run ((if kicked then Take else Timeout) :: repeat Step n) a = Some a' /\
    at_ a' = PBlocked wait' /\ attempts a' = attempts a ++ made /\
    made.*1.*1 = option_list (next_request kicked a) /\
    Forall (fun r => r.1.2 = the_cfg (cfgs a)) made.
Proof.
  intros Ha Hk. destruct kicked; cbn; rewrite Ha, Hk.
  - set (b := a <| kick := false |> <| at_ := PCheck |>
                <| stopped := if test_requested a then stopped a else false |>).
    destruct (check_done b eq_refl) as (n & a' & w & made & Hr & Hat & Hatt & Hm & Hf).
    exists (S n), a', w, made. split; [exact Hr|]. split; [done|]. split; [done|]. split; [|done].
    rewrite Hm. unfold next_request, b. cbn.
    destruct (bool_decide _), (test_requested a); try done. by rewrite andb_false_r.
  - set (b := a <| kick := false |> <| at_ := PCheck |>).
    destruct (check_done b eq_refl) as (n & a' & w & made & Hr & Hat & Hatt & Hm & Hf).
    exists n, a', w, made. exact (conj Hr (conj Hat (conj Hatt (conj Hm Hf)))).
Qed.

(** ** A refusal *)

(** Refused by the service: stopped, with no test asked for and no kick pending. *)
Definition refused a : Prop :=
  stopped a = true /\ test_requested a = false /\ kick a = false /\
  match at_ a with PKicked | PCalling _ _ | PAnswered _ _ _ => False | _ => True end.

Lemma do_event_refused e a a' : e <> Give -> e <> SetTest -> refused a -> do_event e a = Some a' ->
  refused a' /\ attempts a' = attempts a /\ n_calls (net a') = n_calls (net a).
Proof.
  intros Hg Ht (Hs & Hte & Hk & Hp) He. unfold refused. destruct e; cbn in He; try done.
  - unfold thread_step in He. destruct (at_ a) eqn:Ea; try done; simplify_eq; cbn; try done.
    + by case_bool_decide.
    + unfold step_kind. rewrite Hte, Hs. done.
  - destruct (at_ a); try done. by rewrite Hk in He.
  - destruct (at_ a); try done. rewrite Hk in He. by simplify_eq.
  - by simplify_eq.
  - destruct (cfg_set c (cfgs a) (n_os (net a))) as [[r s'] o']. by simplify_eq.
Qed.

(** Once the service has refused, nothing more is sent, whatever time passes and
    whatever is stored, until someone kicks the thread. *)
Theorem refusal_silences es a a' :
  Forall (fun e => e <> Give /\ e <> SetTest) es -> refused a -> run es a = Some a' ->
  attempts a' = attempts a /\ n_calls (net a') = n_calls (net a) /\ stopped a' = true.
Proof.
  intros Hes. revert a. induction Hes as [|e es [Hg Ht] _ IH]; intros a Hr Hrun; cbn in Hrun.
  - simplify_eq. split; [done|]. split; [done|]. apply Hr.
  - destruct (do_event e a) as [a1|] eqn:E; [|done].
    destruct (do_event_refused _ _ _ Hg Ht Hr E) as (Hr1 & Ha & Hn).
    destruct (IH _ Hr1 Hrun) as (H1' & H2' & H3'). by rewrite H1', H2', Ha, Hn.
Qed.

(** ** Camera-info before snapshots *)

Definition accepted (r : kind * cfg * Z) : Prop :=
  r.1.1 = INFO /\ prusa_camera_next r.2 = PRUSA_CAMERA_NEXT_OK.
(** Every snapshot in a history has an accepted camera-info before it. *)
Definition introduced (l : list (kind * cfg * Z)) : Prop :=
  forall pre c r post, l = pre ++ (SNAPSHOT, c, r) :: post -> Exists accepted pre.
Definition info_first a : Prop :=
  introduced (attempts a) /\
  (info_stale a = false -> Exists accepted (attempts a)) /\
  match at_ a with
  | PCalling SNAPSHOT _ => Exists accepted (attempts a)
  | PAnswered INFO c ret => exists pre, attempts a = pre ++ [(INFO, c, ret)]
  | _ => True
  end.

Lemma introduced_snoc l x : introduced l -> (x.1.1 = SNAPSHOT -> Exists accepted l) ->
  introduced (l ++ [x]).
Proof.
  intros Hl Hx pre c r post E.
  destruct post as [|y post _] using rev_ind.
  - apply app_inj_tail in E as [-> ->]. by apply Hx.
  - rewrite app_comm_cons, app_assoc in E. apply app_inj_tail in E as [E _]. by eapply Hl.
Qed.

Lemma do_event_info_first e a a' : info_first a -> do_event e a = Some a' -> info_first a'.
Proof.
  intros (Hi & Hs & Hp) He. unfold info_first. destruct e; cbn in He.
  - unfold thread_step in He. destruct (at_ a) eqn:Ea; simplify_eq; cbn; try done.
    + by case_bool_decide.
    + unfold step_kind. destruct (test_requested a), (stopped a), (info_stale a) eqn:Est; cbn;
        rewrite ?Est; done || (repeat split; auto).
    + unfold step_call. repeat pair_case. cbn. split.
      { apply introduced_snoc; [done|]. cbn. intros ->. done. }
      split; [intros E; apply Exists_app; by left; apply Hs|]. destruct k; try done. by eexists.
    + unfold step_answer, record_attempt. repeat pair_case. cbn.
      destruct (bool_decide (k = INFO)) eqn:Ek, (bool_decide (prusa_camera_next ret = _)) eqn:Eo; cbn;
        try (by repeat split).
      to_prop. subst. split; [done|]. split; [|done]. intros _.
      destruct Hp as [pre ->]. apply Exists_app. right. by constructor.
  - destruct (at_ a); try done. destruct (kick a); by simplify_eq.
  - destruct (at_ a); try done. destruct (kick a); by simplify_eq.
  - simplify_eq. cbn. by repeat split.
  - by simplify_eq.
  - by simplify_eq.
  - destruct (cfg_set c (cfgs a) (n_os (net a))) as [[r s'] o']. by simplify_eq.
Qed.

(** No snapshot goes out before a camera-info was accepted. *)
Theorem info_before_snapshot es s cl w a pre c r post :
  run es (connect_start s cl w) = Some a -> attempts a = pre ++ (SNAPSHOT, c, r) :: post ->
  Exists accepted pre.
Proof.
  intros Hr. assert (info_first a) as (Hi & _).
  { revert Hr. assert (info_first (connect_start s cl w)) as Hst.
    { split; [|done]. intros [|? ?]; done. }
    revert Hst. generalize (connect_start s cl w).
    induction es as [|e es IH]; intros b Hb Hr; cbn in Hr; [by simplify_eq|].
    destruct (do_event e b) as [b1|] eqn:E; [|done]. eapply IH; [|done]. by eapply do_event_info_first. }
  apply Hi.
Qed.
(** ** What a kick can miss *)

(** The steps from the answer of a request to the next wait. *)
Lemma answer_done k c ret a : at_ a = PAnswered k c ret ->
  exists a' wait, run [Step; Step] a = Some a' /\ at_ a' = PBlocked wait /\
    attempts a' = attempts a /\ cfgs a' = cfgs a /\ kick a' = kick a /\
    test_requested a' = test_requested a /\
    info_stale a' = (if bool_decide (k = INFO) && bool_decide (prusa_camera_next ret = PRUSA_CAMERA_NEXT_OK)
                     then false else info_stale a) /\
    stopped a' = bool_decide (prusa_camera_next ret = PRUSA_CAMERA_NEXT_STOP).
Proof.
  intros Ha. cbn. unfold thread_step at 1. rewrite Ha. unfold step_answer, record_attempt.
  destruct (k_uptime_get _) as [ms o]. eexists _, _. split; [reflexivity|]. cbn.
  by destruct (bool_decide (k = INFO) && _).
Qed.

(** A change that lands while the camera-info before it is being sent is lost: its
    flag is cleared with the answer to the old one, the wake it asked for sends a
    snapshot, and no camera-info is due any more. *)
Theorem change_during_send_lost a c ret :
  at_ a = PAnswered INFO c ret -> prusa_camera_next ret = PRUSA_CAMERA_NEXT_OK ->
  test_requested a = false -> cstring (token (the_cfg (cfgs a))) <> [] ->
  exists n a' r,
    run (connect_kick ++ [Step; Step; Take] ++ repeat Step n) a = Some a' /\
    attempts a' = attempts a ++ [(SNAPSHOT, the_cfg (cfgs a), r)] /\ info_stale a' = false.
Proof.
  intros Ha Hok Hte Htok. cbn [connect_kick app PrusaConnect.run do_event].
  set (b := a <| info_stale := true |> <| kick := true |>).
  destruct (answer_done INFO c ret b Ha) as (b1 & wait & Hr & Hat & Hatt & Hcf & Hki & Ht & Hst & Hsp).
  rewrite Hok, !bool_decide_true in Hst by done. cbn in Hst.
  set (c1 := the_cfg (cfgs b1)).
  set (b2 := b1 <| kick := false |> <| at_ := PCalling SNAPSHOT c1 |> <| stopped := false |>
                <| info_stale := false |> <| test_requested := false |>).
  destruct (request_done SNAPSHOT c1 b2 eq_refl) as (b3 & r & w & Hr3 & Hat3 & Hatt3 & _ & Hst3 & _).
  exists 6%nat, b3, r. split; [|split].
  - change ([Step; Step; Take] ++ repeat Step 6) with ([Step; Step] ++ Take :: [Step; Step; Step] ++ [Step; Step; Step]).
    change (run ([Step; Step] ++ Take :: [Step; Step; Step] ++ [Step; Step; Step]) b = Some b3).
    rewrite connect_run_app, Hr.
    assert (run (Take :: [Step; Step; Step]) b1 = Some b2) as E.
    { cbn. rewrite Hat, Hki. cbn. rewrite Ht. cbn. rewrite Hte.
      rewrite bool_decide_false by (by rewrite Hcf). cbn. unfold step_kind. cbn.
      rewrite ?Ht, ?Hte, Hst. reflexivity. }
    change (Take :: [Step; Step; Step] ++ [Step; Step; Step]) with ((Take :: [Step; Step; Step]) ++ [Step; Step; Step]).
    by rewrite connect_run_app, E.
  - rewrite Hatt3. unfold b2. cbn. rewrite Hatt. unfold c1. by rewrite Hcf.
  - by rewrite Hst3.
Qed.

(** A connection test that fails on the network, and not only one that passes, ends
    a stop: the uploads resume. *)
Theorem failed_test_resumes a c ret :
  at_ a = PAnswered TEST c ret -> prusa_camera_next ret = PRUSA_CAMERA_NEXT_RETRY ->
  kick a = false -> test_requested a = false -> cstring (token (the_cfg (cfgs a))) <> [] ->
  exists n a' k r,
    run ([Step; Step; Timeout] ++ repeat Step n) a = Some a' /\
    attempts a' = attempts a ++ [(k, the_cfg (cfgs a), r)] /\ (k = INFO \/ k = SNAPSHOT).
Proof.
  intros Ha Hok Hki Hte Htok.
  destruct (answer_done TEST c ret a Ha) as (b1 & wait & Hr & Hat & Hatt & Hcf & Hk1 & Ht & Hst & Hsp).
  rewrite Hok in Hsp. set (b2 := b1 <| kick := false |> <| at_ := PCheck |>).
  destruct (check_done b2 eq_refl) as (n & a' & w & made & Hrn & _ & Ha' & Hm & Hf).
  assert (next_request false b2 = Some (if info_stale b1 then INFO else SNAPSHOT)) as En.
  { unfold next_request, b2. cbn. rewrite Hcf, Ht, Hte, Hsp.
    rewrite (bool_decide_false (cstring (token (the_cfg (cfgs a))) = [])) by done. reflexivity. }
  rewrite En in Hm. destruct made as [|[[k c1] r] [|? ?]]; try done. cbn in Hm.
  exists n, a', k, r. change ([Step; Step; Timeout] ++ repeat Step n) with ([Step; Step] ++ Timeout :: repeat Step n).
  rewrite connect_run_app, Hr. split; [cbn; rewrite Hat, Hk1, Hki; exact Hrn|].
  pose proof (Forall_inv Hf) as Hc. change (c1 = the_cfg (cfgs b1)) in Hc. rewrite Hcf in Hc. subst c1.
  split; [rewrite Ha'; cbn; by rewrite Hatt|].
  injection Hm as ->. destruct (info_stale b1); auto.
Qed.
End ConnectProperties.

(** * Instances for the witnesses *)

#[export] Instance sim_station : CamStation (H := sim_os) := {|
  cam_snapshot o := ((0, [255; 216; 1; 2; 3; 255; 217]), o);
  cam_frame o := ((0, [255; 216; 9; 255; 217]), o);
  cam_release o := o;
  sta_present _ := true;
  sta_link_addr _ := Some [2; 0; 0; 18; 52; 86];
  sta_ipv4 _ := Some (to_chars "10.0.0.2");
  sta_status _ := (0, (9, to_chars "workshop", 8%nat));
  WIFI_STATE_ASSOCIATED := 7;
|}.
Definition cam_start : connect := connect_start (snd (fst cam_set)) sample_camera (mk_network (snd cam_set) []).
#[local] Notation cam_run := (run sample_config (to_chars "0.1.0")).
Definition cam_state (es : list event) : connect := default cam_start (cam_run es cam_start).
Lemma cam_state_run es a : cam_run es cam_start = Some a -> cam_run es cam_start = Some (cam_state es).
Proof. unfold cam_state. by intros ->. Qed.

(** From the first wait to the next, with a request in between. *)
Definition cycle : list event := [Timeout; Step; Step; Step; Step; Step].
Lemma cam_cycles : exists a, cam_run (Step :: cycle ++ cycle) cam_start = Some a.
Proof. eexists. vm_compute. reflexivity. Qed.

Lemma cam_valid : cfg_valid (the_cfg (snd (fst cam_set))).
Proof. apply cfg_refused_spec. vm_compute. reflexivity. Qed.

Lemma cam_cycles_wait : exists a wait,
  run sample_config (to_chars "0.1.0") (Step :: cycle ++ cycle)
    (connect_start (snd (fst cam_set)) sample_camera (mk_network (snd cam_set) [])) = Some a /\
  at_ a = PBlocked wait.
Proof. eexists _, _. vm_compute. split; reflexivity. Qed.
Lemma retries_paced_witness : exists a wait,
  run sample_config (to_chars "0.1.0") (Step :: cycle ++ cycle)
    (connect_start (snd (fst cam_set)) sample_camera (mk_network (snd cam_set) [])) = Some a /\
  at_ a = PBlocked wait /\
  exists i, i ∈ [10; 30; 60; 600] /\ wait = Z.min (i * 2 ^ Z.min (u32 (failures (attempts a))) 6) 600.
Proof.
  destruct cam_cycles_wait as (a & wait & E & Ew). exists a, wait.
  split; [exact E|]. split; [exact Ew|].
  destruct (retries_paced _ _ _ _ _ _ _ _ cam_valid E Ew) as (es1 & es2 & a1 & _ & _ & _ & _ & Hi & Hw).
  eexists. split; [exact Hi|exact Hw].
Defined.

Lemma cam_waits : exists wait, at_ (cam_state [Step]) = PBlocked wait /\ kick (cam_state [Step]) = false.
Proof. eexists. vm_compute. split; reflexivity. Qed.
Lemma wake_makes_request_witness : exists n a' made,
  cam_run (Timeout :: repeat Step n) (cam_state [Step]) = Some a' /\
  attempts a' = attempts (cam_state [Step]) ++ made /\ made.*1.*1 = [INFO].
Proof.
  destruct cam_waits as (wait & Ew & Ek).
  destruct (wake_makes_request sample_config (to_chars "0.1.0") false _ _ Ew Ek)
    as (n & a' & w & made & Hr & _ & Ha & Hm & _).
  exists n, a', made. split; [exact Hr|]. split; [exact Ha|]. rewrite Hm. vm_compute. reflexivity.
Defined.

Lemma quiet_events : Forall (fun e => e <> Give /\ e <> SetTest)
  [Step; Timeout; Step; Step; Step; SetCfg sample_cfg; Timeout; Step; Step].
Proof. repeat constructor; discriminate. Qed.
Lemma refusal_silences_witness : exists a',
  cam_run [Step; Timeout; Step; Step; Step; SetCfg sample_cfg; Timeout; Step; Step]
    (cam_start <| stopped := true |>) = Some a' /\ attempts a' = [].
Proof.
  assert (exists a', cam_run [Step; Timeout; Step; Step; Step; SetCfg sample_cfg; Timeout; Step; Step]
    (cam_start <| stopped := true |>) = Some a') as [a' E].
  { eexists. vm_compute. reflexivity. }
  exists a'. split; [exact E|].
  assert (refused (cam_start <| stopped := true |>)) as Hr by (by repeat split).
  rewrite (proj1 (refusal_silences _ _ _ _ _ quiet_events Hr E)). reflexivity.
Defined.

Lemma cam_snapshot_sent : exists a c r,
  cam_run (Step :: cycle ++ cycle) cam_start = Some a /\
  exists x, attempts a = [x] ++ (SNAPSHOT, c, r) :: [].
Proof. eexists _, _, _. vm_compute. split; [reflexivity|]. eexists. reflexivity. Qed.
Lemma info_before_snapshot_witness : exists a x,
  cam_run (Step :: cycle ++ cycle) cam_start = Some a /\ Exists accepted [x].
Proof.
  destruct cam_snapshot_sent as (a & c & r & E & x & Ex). exists a, x. split; [exact E|].
  exact (info_before_snapshot _ _ _ _ _ _ a [x] c r [] E Ex).
Defined.

(** The camera is renamed while its old name is being sent. *)
Definition renamed : cfg := sample_cfg <| name := char_array 33 (to_chars "workshop cam") |>.
Definition sending : connect := cam_state ([Step; Timeout; Step; Step; Step] ++ [SetCfg renamed]).
Lemma cam_sending : exists ret,
  at_ sending = PAnswered INFO sample_cfg ret /\ prusa_camera_next ret = PRUSA_CAMERA_NEXT_OK /\
  test_requested sending = false /\ the_cfg (cfgs sending) = renamed.
Proof. eexists. vm_compute. repeat split; reflexivity. Qed.
Lemma change_during_send_lost_witness : exists n a' r,
  cam_run (connect_kick ++ [Step; Step; Take] ++ repeat Step n) sending = Some a' /\
  attempts a' = attempts sending ++ [(SNAPSHOT, renamed, r)] /\ info_stale a' = false.
Proof.
  destruct cam_sending as (ret & Ea & Eok & Et & Ec).
  assert (cstring (token (the_cfg (cfgs sending))) <> []) as Etok by (rewrite Ec; vm_compute; discriminate).
  destruct (change_during_send_lost sample_config (to_chars "0.1.0") _ _ _ Ea Eok Et Etok)
    as (n & a' & r & H1 & H2 & H3).
  exists n, a', r. split; [exact H1|]. split; [|exact H3]. rewrite <- Ec. exact H2.
Defined.
