(* ===== verification/PrusaCam.v ===== *)
(** prusa_cam's camera: [prusa_cam/src/cam.c].

    The two frame buffers, the mutex and the flash LED over Zephyr's video driver.
    Three threads use it; each call is atomic but for the mutex, which a thread that
    was given a frame keeps until it releases it. *)

From Stdlib Require Import Ascii.
From S2P Require Import Prelude Printf Platform HttpUtil PrusaProto PrusaCfg PrusaConnect.
#[local] Open Scope Z_scope.

Definition NBUF : nat := 2.
Definition FLASH_PERCENT : Z := 80.
Definition FLASH_SETTLE : Z := 150.

(** The controls [cam_apply] sets. *)
Inductive video_cid :=
| JPEG_COMPRESSION_QUALITY | HFLIP | VFLIP | BRIGHTNESS | CONTRAST | SATURATION
| EXPOSURE | WHITE_BALANCE_TEMPERATURE | GAIN.

(** The driver.  A [vbuf] names one allocation; [video_dequeue], which waits or does
    not, gives a buffer or an error; [video_set_format] its result and the size of a
    frame. *)
Class Video `{Os} := {
  vbuf : Type;
  vbuf_size : vbuf -> Z;
  vbuf_bytes : vbuf -> os -> list Z;
  video_is_ready : os -> bool;
  video_set_ctrl : video_cid -> Z -> os -> Z * os;
  video_stream_stop : os -> os;
  video_stream_start : os -> Z * os;
  video_set_format : Z -> Z -> os -> (Z * Z) * os;
  video_enqueue : vbuf -> os -> os;
  video_dequeue : bool -> os -> (Z + vbuf) * os;
  video_buffer_aligned_alloc : Z -> os -> option vbuf * os;
  video_buffer_release : vbuf -> os -> os;
  led_is_ready_dt : os -> bool;
  led_set_brightness_dt : Z -> os -> os;
  led_off_dt : os -> os;
  k_msleep : Z -> os -> os;
}.

Section Cam.
Context `{Video}.

(** The statics, the mutex (its owner and how often it has it), and the machine. *)
Record cam := mk_cam {
  bufs : list (option vbuf); held : option vbuf; use_flash : bool; cam_lock : option (nat * nat); cam_os : os;
}.
#[export] Instance eta_cam : Eta cam := fun s =>
  mk_cam (bufs s) (held s) (use_flash s) (cam_lock s) (cam_os s).

(** Zephyr's mutex: [None] when the thread has to wait. *)
Definition k_mutex_lock (t : nat) (l : option (nat * nat)) : option (option (nat * nat)) :=
  match l with
  | None => Some (Some (t, 1%nat))
  | Some (u, n) => if (u =? t)%nat then Some (Some (u, S n)) else None
  end.
Definition k_mutex_unlock (t : nat) (l : option (nat * nat)) : option (nat * nat) :=
  match l with
  | Some (u, S n) => if (u =? t)%nat then match n with O => None | _ => Some (u, n) end else l
  | _ => l
  end.

Definition set_ctrl (id : video_cid) (val : Z) (o : os) : os := snd (video_set_ctrl id val o).
Fixpoint set_ctrls (l : list (video_cid * Z)) (o : os) : os :=
  match l with [] => o | (id, val) :: l => set_ctrls l (set_ctrl id val o) end.

(** The loops of [requeue_all] and of [cam_apply]'s drain; [fuel] is enough for the
    buffers there are. *)
Fixpoint requeue (fuel : nat) (o : os) : os :=
  match fuel with
  | O => o
  | S fuel =>
      match video_dequeue false o with
      | (inr vb, o) => requeue fuel (video_enqueue vb o)
      | (inl _, o) => o
      end
  end.
Definition requeue_all (o : os) : os := requeue (S NBUF) o.
Fixpoint drain (fuel : nat) (o : os) : os :=
  match fuel with
  | O => o
  | S fuel => match video_dequeue false o with (inr _, o) => drain fuel o | (inl _, o) => o end
  end.

(** [cam_apply]'s loop over the buffers: whether all are there, and what they are now. *)
Fixpoint ready_bufs (size : Z) (bs : list (option vbuf)) (o : os) : bool * list (option vbuf) * os :=
  match bs with
  | [] => (true, [], o)
  | b :: bs =>
      let '(b, o) := match b with
                     | Some v => if vbuf_size v <? size then (None, video_buffer_release v o) else (b, o)
                     | None => (None, o)
                     end in
      let '(b, o) := match b with Some v => (Some v, o) | None => video_buffer_aligned_alloc size o end in
      match b with
      | None => (false, None :: bs, o)
      | Some v =>
          let '(ok, bs, o) := ready_bufs size bs (video_enqueue v o) in
          (ok, Some v :: bs, o)
      end
  end.

Definition bool_z (b : bool) : Z := if b then 1 else 0.
Definition ctrls_of (c : cfg) : list (video_cid * Z) :=
  [(JPEG_COMPRESSION_QUALITY, quality c); (HFLIP, bool_z (hflip c)); (VFLIP, bool_z (vflip c));
   (BRIGHTNESS, brightness c); (CONTRAST, contrast c); (SATURATION, saturation c);
   (EXPOSURE, bool_z (auto_exposure c)); (WHITE_BALANCE_TEMPERATURE, bool_z (auto_wb c));
   (GAIN, bool_z (auto_gain c))].

(** [cam_apply] with the mutex held. *)
Definition apply_locked (c : cfg) (s : cam) : Z * cam :=
  let r := cfg_resolutions !! Z.to_nat (resolution c) in
  let o := drain (S NBUF) (video_stream_stop (cam_os s)) in
  let '((ret, size), o) := video_set_format (from_option r_width 0 r) (from_option r_height 0 r) o in
  if ret <? 0 then (ret, s <| cam_os := o |>) else
  let '(ok, bs, o) := ready_bufs size (bufs s) o in
  let s := s <| bufs := bs |> <| cam_os := o |> in
  if negb ok then (- ENOMEM, s) else
  let '(ret, o) := video_stream_start (set_ctrls (ctrls_of c) (cam_os s)) in
  (ret, s <| use_flash := flash c |> <| cam_os := o |>).

(** [cam_apply] by thread [t]; [None] while it waits for the mutex. *)
Definition cam_apply (t : nat) (c : cfg) (s : cam) : option (Z * cam) :=
  if negb (video_is_ready (cam_os s)) then Some (- ENODEV, s) else
  l ← k_mutex_lock t (cam_lock s);
  let '(ret, s) := apply_locked c (s <| cam_lock := l |>) in
  Some (ret, s <| cam_lock ::= k_mutex_unlock t |>).

Definition cam_init (t : nat) (c : cfg) (s : cam) : option (Z * cam) :=
  if negb (video_is_ready (cam_os s)) then Some (- ENODEV, s) else
  if negb (led_is_ready_dt (cam_os s)) then Some (- ENODEV, s) else cam_apply t c s.

(** [grab] with the mutex held: an error, or the frame, and the buffer is [held]. *)
Definition grab_locked (fl : bool) (s : cam) : (Z + list Z) * cam :=
  let o := if fl then k_msleep FLASH_SETTLE (led_set_brightness_dt FLASH_PERCENT (cam_os s)) else cam_os s in
  let '(r, o) := video_dequeue true (requeue_all o) in
  let o := if fl then led_off_dt o else o in
  match r with
  | inl ret => (inl ret, s <| cam_os := o |>)
  | inr vb => (inr (vbuf_bytes vb o), s <| held := Some vb |> <| cam_os := o |>)
  end.
Definition grab (t : nat) (fl : bool) (s : cam) : option ((Z + list Z) * cam) :=
  if negb (video_is_ready (cam_os s)) then Some (inl (- ENODEV), s) else
  l ← k_mutex_lock t (cam_lock s);
  match grab_locked fl (s <| cam_lock := l |>) with
  | (inl ret, s) => Some (inl ret, s <| cam_lock ::= k_mutex_unlock t |>)
  | (inr jpeg, s) => Some (inr jpeg, s)
  end.
Definition cam_snapshot (t : nat) (s : cam) : option ((Z + list Z) * cam) := grab t (use_flash s) s.
Definition cam_frame (t : nat) (s : cam) : option ((Z + list Z) * cam) := grab t false s.

Definition cam_release (t : nat) (s : cam) : cam :=
  let o := match held s with Some vb => video_enqueue vb (cam_os s) | None => cam_os s end in
  s <| cam_os := o |> <| held := None |> <| cam_lock ::= k_mutex_unlock t |>.
End Cam.

(** What the driver documents.  [queued] is what it has, waiting to be filled or
    done; [ready] the part that is done; [live] what is allocated.  Nothing becomes
    done between the calls of one operation, which take microseconds. *)
Class VideoLaws `{Video} : Type := {
  queued : os -> list vbuf;
  done_bufs : os -> list vbuf;
  live : os -> list vbuf;
  keeps (o o' : os) : Prop := queued o' ≡ₚ queued o /\ live o' ≡ₚ live o;
  done_queued : forall o, done_bufs o ⊆+ queued o;
  stop_flushes : forall o, keeps o (video_stream_stop o) /\ done_bufs (video_stream_stop o) ≡ₚ queued o;
  start_keeps : forall o, keeps o (snd (video_stream_start o));
  format_keeps : forall w h o, keeps o (snd (video_set_format w h o)) /\
    done_bufs (snd (video_set_format w h o)) = done_bufs o;
  ctrl_keeps : forall id v o, keeps o (snd (video_set_ctrl id v o));
  led_keeps : forall p o, keeps o (led_set_brightness_dt p o);
  led_off_keeps : forall o, keeps o (led_off_dt o);
  sleep_keeps : forall ms o, keeps o (k_msleep ms o);
  enqueue_adds : forall v o, queued (video_enqueue v o) ≡ₚ v :: queued o /\
    done_bufs (video_enqueue v o) = done_bufs o /\ live (video_enqueue v o) = live o;
  dequeue_takes : forall wait o v o', video_dequeue wait o = (inr v, o') ->
    queued o ≡ₚ v :: queued o' /\ live o' = live o /\
    (wait = false -> done_bufs o ≡ₚ v :: done_bufs o');
  dequeue_fails : forall wait o r o', video_dequeue wait o = (inl r, o') ->
    r < 0 /\ keeps o o' /\ (wait = false -> done_bufs o = [] /\ done_bufs o' = []);
  alloc_fresh : forall n o v o', video_buffer_aligned_alloc n o = (Some v, o') ->
    v ∉ live o /\ live o' ≡ₚ v :: live o /\ queued o' = queued o /\ n <= vbuf_size v;
  alloc_fails : forall n o o', video_buffer_aligned_alloc n o = (None, o') -> keeps o o';
  release_frees : forall v o, v ∈ live o -> v ∉ queued o ->
    live o ≡ₚ v :: live (video_buffer_release v o) /\ queued (video_buffer_release v o) = queued o;
}.

Section CamProperties.
Context `{VideoLaws}.

Lemma keeps_refl o : keeps o o.
Proof. done. Qed.
Lemma keeps_trans a b c : keeps a b -> keeps b c -> keeps a c.
Proof. intros [Q1 L1] [Q2 L2]. split; etrans; eauto. Qed.

Lemma set_ctrls_keeps l o : keeps o (set_ctrls l o).
Proof.
  revert o. induction l as [|[id v] l IH]; intros o; cbn; [done|].
  eapply keeps_trans; [apply ctrl_keeps|apply IH].
Qed.

(** The drain leaves the driver nothing that was done, and frees nothing. *)
Lemma drain_empties fuel o : (length (done_bufs o) < fuel)%nat -> done_bufs o ≡ₚ queued o ->
  queued (drain fuel o) = [] /\ live (drain fuel o) ≡ₚ live o /\ done_bufs (drain fuel o) = [].
Proof.
  revert o. induction fuel as [|fuel IH]; intros o Hf Hq; [lia|]. cbn.
  destruct (video_dequeue false o) as [[r|v] o'] eqn:E.
  - apply dequeue_fails in E as (_ & [Hq' Hl] & Hd). destruct (Hd eq_refl) as [Hd1 Hd2].
    rewrite Hd1 in Hq. split; [|by split]. apply Permutation_nil. by rewrite Hq', <- Hq.
  - apply dequeue_takes in E as (Hq' & Hl & Hd). specialize (Hd eq_refl).
    destruct (IH o') as (Ha & Hb & Hc).
    + apply Permutation_length in Hd. cbn in Hd. lia.
    + apply (Permutation_cons_inv (a := v)). by rewrite <- Hd, <- Hq'.
    + by rewrite Hb, Hl.
Qed.

(** Handing the stale frames back changes what the driver has in no way but order. *)
Lemma requeue_keeps fuel o : keeps o (requeue fuel o).
Proof.
  revert o. induction fuel as [|fuel IH]; intros o; cbn; [done|].
  destruct (video_dequeue false o) as [[r|v] o'] eqn:E.
  - by apply dequeue_fails in E as (_ & Hk & _).
  - apply dequeue_takes in E as (Hq' & Hl & _). eapply keeps_trans; [|apply IH].
    destruct (enqueue_adds v o') as (Ha & _ & Hb). split; [by rewrite Ha, Hq'|by rewrite Hb, Hl].
Qed.

(** It hands back every one that was done: the frame waited for next is a new one. *)
Lemma requeue_empties fuel o : (length (done_bufs o) < fuel)%nat -> done_bufs (requeue fuel o) = [].
Proof.
  revert o. induction fuel as [|fuel IH]; intros o Hf; [lia|]. cbn.
  destruct (video_dequeue false o) as [[r|v] o'] eqn:E.
  - apply dequeue_fails in E as (_ & _ & Hd). by apply Hd.
  - apply dequeue_takes in E as (_ & _ & Hd). specialize (Hd eq_refl). apply Permutation_length in Hd.
    cbn in Hd. apply IH. destruct (enqueue_adds v o') as (_ & -> & _). lia.
Qed.

(** The buffers the statics name. *)
Definition owned (bs : list (option vbuf)) : list vbuf := omap id bs.

(** The buffer loop from a drained driver: what it has already put in the queue and
    the rest stay apart; every buffer it made or kept is live and nothing else is. *)
Lemma ready_bufs_spec size bs o ok bs' o' :
  ready_bufs size bs o = (ok, bs', o') ->
  NoDup (live o) -> live o ≡ₚ queued o ++ owned bs ->
  length bs' = length bs /\ NoDup (live o') /\
  exists added, queued o' ≡ₚ added ++ queued o /\ Forall (fun v => size <= vbuf_size v) added /\
    added ⊆ owned bs' /\ live o' ≡ₚ queued o ++ owned bs' /\ NoDup added /\
    (ok = true -> owned bs' = added /\ length added = length bs).
Proof.
  revert o ok bs' o'. induction bs as [|b bs IH]; intros o ok bs' o' E Hn Hl; cbn in E.
  { injection E as <- <- <-. split; [done|]. split; [done|]. exists [].
    repeat split; try done. constructor. }
  (* after the release of a buffer that is too small *)
  destruct (match b with
            | Some v => if vbuf_size v <? size then (None, video_buffer_release v o) else (b, o)
            | None => (None, o)
            end) as [b1 o1] eqn:E1.
  assert (NoDup (live o1) /\ live o1 ≡ₚ queued o1 ++ owned (b1 :: bs) /\ queued o1 = queued o /\
          (forall v, b1 = Some v -> size <= vbuf_size v)) as (Hn1 & Hl1 & Hq1 & Hs1).
  { destruct b as [v|]; [|injection E1 as <- <-; by repeat split].
    destruct (Z.ltb_spec (vbuf_size v) size); injection E1 as <- <-; [|repeat split; try done; intros ? [= <-]; lia].
    cbn in Hl. rewrite Hl in Hn.
    destruct (release_frees v o) as [Hr Hq].
    { rewrite Hl. apply elem_of_app. right. by left. }
    { apply NoDup_app in Hn as (_ & Hd & _). intros Hv. apply (Hd v Hv). by left. }
    assert (live (video_buffer_release v o) ≡ₚ queued o ++ owned bs) as Hl'.
    { apply (Permutation_cons_inv (a := v)). rewrite <- Hr, Hl. unfold owned. cbn. by rewrite Permutation_middle. }
    rewrite Hq. split; [|done]. rewrite Hl'. rewrite <- Permutation_middle in Hn. by apply NoDup_cons in Hn as [_ Hn]. }
  clear E1. destruct (match b1 with Some v => (Some v, o1) | None => video_buffer_aligned_alloc size o1 end)
    as [b2 o2] eqn:E2.
  destruct b2 as [v|].
  - assert (NoDup (live o2) /\ live o2 ≡ₚ v :: queued o ++ owned bs /\ queued o2 = queued o /\ size <= vbuf_size v)
      as (Hn2 & Hl2 & Hq2 & Hs2).
    { destruct b1 as [v1|]; [injection E2 as -> ->|].
      - rewrite Hl1, Hq1. cbn. rewrite <- Permutation_middle. split; [|naive_solver].
        rewrite Hl1, Hq1 in Hn1. cbn in Hn1. by rewrite <- Permutation_middle in Hn1.
      - apply alloc_fresh in E2 as (Hf & Hl2 & Hq2 & Hs). rewrite Hl2, Hq2, Hl1, Hq1.
        split; [|naive_solver]. constructor; [|by rewrite <- Hq1, <- Hl1].
        by rewrite <- Hq1, <- Hl1. }
    destruct (ready_bufs size bs (video_enqueue v o2)) as [[ok' bs2] o3] eqn:E3. injection E as <- <- <-.
    destruct (enqueue_adds v o2) as (Ha & _ & Hb). apply IH in E3 as (Hlen & Hn3 & added & Hq3 & Hf3 & Hi3 & Hl3 & Hd3 & Hok).
    + split; [cbn; lia|]. split; [done|]. exists (v :: added).
      assert (queued o3 ≡ₚ (v :: added) ++ queued o) as Hq4.
      { rewrite Hq3, Ha, Hq2. cbn. by rewrite <- Permutation_middle. }
      assert (live o3 ≡ₚ queued o ++ owned (Some v :: bs2)) as Hl4.
      { rewrite Hl3, Ha, Hq2. unfold owned. cbn. by rewrite <- Permutation_middle. }
      split; [done|]. split; [by constructor|]. split; [set_solver|]. split; [done|]. split.
      * constructor; [|done]. intros Hv. rewrite Hl4 in Hn3. cbn in Hn3.
        apply NoDup_app in Hn3 as (_ & _ & Hn3). apply NoDup_cons in Hn3 as [Hv' _]. by apply Hv', Hi3.
      * intros ->. destruct (Hok eq_refl) as [<- Hlen']. split; [done|cbn; lia].
    + by rewrite Hb.
    + rewrite Hb, Ha, Hq2, Hl2. done.
  - destruct b1 as [v1|]; [done|]. injection E as <- <- <-. apply alloc_fails in E2 as [Hq2 Hl2].
    split; [done|]. split; [by rewrite Hl2|]. exists []. cbn.
    rewrite Hq2, Hq1, Hl2, Hl1, Hq1. split; [done|]. split; [done|]. split; [set_solver|]. split; [done|].
    split; [constructor|done].
Qed.

(** ** Runs *)

(** A thread's call.  A thread that was given a frame releases it before it calls
    again, and only it does. *)
Inductive cam_call := Apply (c : cfg) | Snapshot | Frame | Release.
Definition cam_step (t : nat) (k : cam_call) (s : cam) : option cam :=
  match k with
  | Apply c => snd <$> cam_apply t c s
  | Snapshot => snd <$> cam_snapshot t s
  | Frame => snd <$> cam_frame t s
  | Release => Some (cam_release t s)
  end.
Definition holding (t : nat) (s : cam) : Prop := exists n, cam_lock s = Some (t, n).
Definition orderly (t : nat) (k : cam_call) (s : cam) : Prop :=
  match k with Release => holding t s | _ => ~ holding t s end.

Inductive cam_runs : cam -> Prop :=
| cam_boot o : queued o = [] -> live o = [] -> cam_runs (mk_cam (repeat None NBUF) None false None o)
| cam_called t k s s' : cam_runs s -> orderly t k s -> cam_step t k s = Some s' -> cam_runs s'
| cam_driver s o : cam_runs s -> keeps (cam_os s) o -> cam_runs (s <| cam_os := o |>).

(** Every buffer allocated is one of the statics', and each is at one place: with the
    driver once, with the thread that has the mutex, or with neither. *)
Definition accounted (s : cam) : Prop :=
  length (bufs s) = NBUF /\ NoDup (live (cam_os s)) /\ live (cam_os s) ≡ₚ owned (bufs s) /\
  NoDup (queued (cam_os s) ++ option_list (held s)) /\
  queued (cam_os s) ++ option_list (held s) ⊆ owned (bufs s).
Definition mutex_ok (s : cam) : Prop :=
  match cam_lock s with None => held s = None | Some (_, n) => n = 1%nat /\ held s <> None end.

Lemma accounted_keeps s o : accounted s -> keeps (cam_os s) o -> accounted (s <| cam_os := o |>).
Proof.
  intros (Hb & Hn & Hl & Hd & Hi) [Hq Hl']. unfold accounted. cbn. by rewrite Hq, Hl'.
Qed.

Lemma free_lock t l l' : ~ (exists n, l = Some (t, n)) -> k_mutex_lock t l = Some l' -> l = None /\ l' = Some (t, 1%nat).
Proof.
  intros Hn. destruct l as [[u n]|]; cbn; [|by intros [= <-]].
  destruct (Nat.eqb_spec u t) as [->|]; [|done]. destruct Hn. by eexists.
Qed.
Lemma unlock_once t : k_mutex_unlock t (Some (t, 1%nat)) = None.
Proof. cbn. by rewrite Nat.eqb_refl. Qed.

(** The driver has every buffer once, none smaller than the format's frames. *)
Definition all_queued (c : cfg) (s : cam) : Prop :=
  exists r size o o', let res := cfg_resolutions !! Z.to_nat (resolution c) in
    video_set_format (from_option r_width 0 res) (from_option r_height 0 res) o = ((r, size), o') /\ 0 <= r /\
    NoDup (queued (cam_os s)) /\ length (queued (cam_os s)) = NBUF /\ queued (cam_os s) ≡ₚ owned (bufs s) /\
    Forall (fun v => size <= vbuf_size v) (queued (cam_os s)).

Lemma owned_length (bs : list (option vbuf)) : (length (owned bs) <= length bs)%nat.
Proof. unfold owned. induction bs as [|[v|] bs IH]; cbn; lia. Qed.
Lemma few_queued (l : list vbuf) (bs : list (option vbuf)) :
  NoDup l -> l ⊆ owned bs -> length bs = NBUF -> (length l < S NBUF)%nat.
Proof.
  intros Hd Hi Hb. pose proof (submseteq_length _ _ (NoDup_submseteq _ _ Hd Hi)). pose proof (owned_length bs). lia.
Qed.

Lemma apply_locked_spec c s ret s' : accounted s -> held s = None -> apply_locked c s = (ret, s') ->
  accounted s' /\ held s' = None /\ cam_lock s' = cam_lock s /\ (ret = 0 -> all_queued c s').
Proof.
  intros (Hb & Hn & Hl & Hd & Hi) Hh. unfold apply_locked. rewrite Hh in Hd, Hi. cbn in Hd, Hi.
  rewrite app_nil_r in Hd, Hi. destruct (stop_flushes (cam_os s)) as [[Hq0 Hl0] Hd0].
  destruct (drain_empties (S NBUF) (video_stream_stop (cam_os s))) as (Hq1 & Hl1 & _).
  { rewrite Hd0. by eapply few_queued. } { by rewrite Hd0, Hq0. }
  set (o1 := drain _ _) in *.
  destruct (video_set_format _ _ o1) as [[r size] o2] eqn:Ef.
  destruct (format_keeps (from_option r_width 0 (cfg_resolutions !! Z.to_nat (resolution c)))
              (from_option r_height 0 (cfg_resolutions !! Z.to_nat (resolution c))) o1) as [[Hq2 Hl2] _].
  rewrite Ef in Hq2, Hl2. cbn [snd] in Hq2, Hl2. rewrite Hq1 in Hq2. apply Permutation_nil_r in Hq2.
  assert (live o2 ≡ₚ owned (bufs s)) as Hl3 by (by rewrite Hl2, Hl1, Hl0).
  destruct (Z.ltb_spec r 0).
  { intros [= <- <-]. split; [|split; [done|split; [done|lia]]]. unfold accounted. cbn.
    rewrite Hh, Hq2, Hl3, <- Hl. split; [done|]. split; [done|]. split; [done|].
    split; [constructor|set_solver]. }
  destruct (ready_bufs size (bufs s) o2) as [[ok bs] o3] eqn:Er.
  apply ready_bufs_spec in Er as (Hlen & Hn3 & added & Hq3 & Hf & Hia & Hl4 & Hda & Hok);
    [|by rewrite Hl3, <- Hl|by rewrite Hq2, Hl3].
  rewrite Hq2 in Hq3, Hl4. rewrite app_nil_r in Hq3. cbn in Hl4.
  assert (forall fl o, keeps o3 o ->
    accounted (s <| bufs := bs |> <| use_flash := fl |> <| cam_os := o |>)) as Hacc.
  { intros fl o [Hqo Hlo]. unfold accounted. cbn. rewrite Hh, Hqo, Hq3, Hlo, Hl4. cbn. rewrite app_nil_r.
    split; [congruence|]. rewrite Hl4 in Hn3. done. }
  destruct ok; cbn [negb].
  - destruct (video_stream_start _) as [ret' o4] eqn:Es. intros [= <- <-].
    assert (keeps o3 o4) as Hk.
    { eapply keeps_trans; [apply (set_ctrls_keeps (ctrls_of c) o3)|].
      pose proof (start_keeps (set_ctrls (ctrls_of c) o3)) as Hs.
      change (video_stream_start (set_ctrls (ctrls_of c) o3) = (ret', o4)) in Es. by rewrite Es in Hs. }
    split; [by apply Hacc|]. split; [done|]. split; [done|]. intros _. destruct (Hok eq_refl) as [Ho Hc]. destruct Hk as [Hqo Hlo].
    exists r, size, o1, o2. cbn -[owned]. rewrite Ho. split; [done|]. split; [done|].
    rewrite Hqo, Hq3. split; [done|]. split; [congruence|done].
  - intros [= <- <-]. split; [by apply (Hacc (use_flash s) o3)|]. by repeat split.
Qed.

Lemma grab_locked_spec fl s r s' : accounted s -> held s = None -> grab_locked fl s = (r, s') ->
  accounted s' /\ cam_lock s' = cam_lock s /\
  match r with
  | inl _ => held s' = None
  | inr jpeg => exists vb, held s' = Some vb /\ jpeg = vbuf_bytes vb (cam_os s')
  end.
Proof.
  intros (Hb & Hn & Hl & Hd & Hi) Hh. unfold grab_locked. rewrite Hh in Hd, Hi. cbn in Hd, Hi.
  rewrite app_nil_r in Hd, Hi.
  set (o1 := if fl then _ else _). assert (keeps (cam_os s) (requeue_all o1)) as Hk1.
  { eapply keeps_trans; [|apply requeue_keeps]. unfold o1.
    destruct fl; [|done]. eapply keeps_trans; [apply led_keeps|apply sleep_keeps]. }
  assert (forall o2, keeps o2 (if fl then led_off_dt o2 else o2)) as Hoff.
  { intros o2. destruct fl; [apply led_off_keeps|done]. }
  destruct (video_dequeue true (requeue_all o1)) as [[ret|vb] o2] eqn:E.
  - apply dequeue_fails in E as (_ & Hk2 & _). intros [= <- <-]. split; [|by split].
    destruct (keeps_trans _ _ _ Hk1 (keeps_trans _ _ _ Hk2 (Hoff o2))) as [Hq Hl'].
    unfold accounted. cbn. rewrite Hh, Hq, Hl'. cbn. by rewrite app_nil_r.
  - apply dequeue_takes in E as (Hq2 & Hl2 & _). intros [= <- <-]. split; [|by eauto].
    destruct Hk1 as [Hq Hl'], (Hoff o2) as [Hq3 Hl3].
    unfold accounted. cbn. rewrite Hq3, Hl3, Hl2, Hl', <- Permutation_cons_append. by rewrite <- Hq2, Hq.
Qed.

Lemma cam_release_accounted t s : accounted s -> holding t s -> mutex_ok s ->
  accounted (cam_release t s) /\ mutex_ok (cam_release t s).
Proof.
  intros (Hb & Hn & Hl & Hd & Hi) [n Hlk] Hm. unfold mutex_ok in Hm. rewrite Hlk in Hm. destruct Hm as [-> Hh].
  destruct (held s) as [vb|] eqn:Ev; [|done]. destruct (enqueue_adds vb (cam_os s)) as (Hq & _ & Hl').
  split; [|unfold mutex_ok, cam_release; cbn; by rewrite Hlk; cbn; rewrite Nat.eqb_refl].
  unfold accounted, cam_release. cbn. rewrite Ev, Hl'. cbn [option_list] in Hd, Hi |- *.
  rewrite app_nil_r, Hq, Permutation_cons_append. done.
Qed.

Lemma requeue_all_empties s : accounted s -> held s = None -> done_bufs (requeue_all (cam_os s)) = [].
Proof.
  intros (Hb & _ & _ & Hd & Hi) Hh. rewrite Hh in Hd, Hi. cbn in Hd, Hi. rewrite app_nil_r in Hd, Hi.
  apply requeue_empties. eapply Nat.le_lt_trans; [apply submseteq_length, done_queued|]. by eapply few_queued.
Qed.

(** A call that is not blocked, by a thread that holds nothing. *)
Lemma apply_accounted t c s ret s' : accounted s -> mutex_ok s -> ~ holding t s -> cam_apply t c s = Some (ret, s') ->
  accounted s' /\ mutex_ok s' /\ (ret = 0 -> all_queued c s' /\ cam_lock s' = None).
Proof.
  intros Ha Hm Hh. unfold cam_apply. destruct (video_is_ready _); cbn [negb]; [|by intros [= <- <-]].
  destruct (k_mutex_lock t (cam_lock s)) as [l|] eqn:El; [|done]. cbn.
  destruct (free_lock _ _ _ Hh El) as [Hfree ->]. unfold mutex_ok in Hm. rewrite Hfree in Hm.
  destruct (apply_locked c _) as [r s1] eqn:E1. intros [= <- <-].
  apply apply_locked_spec in E1 as (Ha2 & Hh2 & Hl2 & Hq2); [|exact Ha|exact Hm].
  unfold mutex_ok. cbn. rewrite Hl2, unlock_once. split; [exact Ha2|]. split; [done|]. intros Hr. split; [|done].
  exact (Hq2 Hr).
Qed.

Lemma grab_accounted t fl s r s' : accounted s -> mutex_ok s -> ~ holding t s -> grab t fl s = Some (r, s') ->
  accounted s' /\ mutex_ok s' /\
  match r with
  | inl _ => True
  | inr jpeg => holding t s' /\ exists vb, held s' = Some vb /\ jpeg = vbuf_bytes vb (cam_os s')
  end.
Proof.
  intros Ha Hm Hh. unfold grab. destruct (video_is_ready _); cbn [negb]; [|by intros [= <- <-]].
  destruct (k_mutex_lock t (cam_lock s)) as [l|] eqn:El; [|done]. cbn.
  destruct (free_lock _ _ _ Hh El) as [Hfree ->]. unfold mutex_ok in Hm. rewrite Hfree in Hm.
  destruct (grab_locked fl _) as [r1 s1] eqn:E1.
  apply grab_locked_spec in E1 as (Ha2 & Hl2 & Hr); [|exact Ha|exact Hm].
  cbn in Hl2. destruct r1 as [ret|jpeg]; intros [= <- <-].
  - unfold mutex_ok. cbn. rewrite Hl2, unlock_once. split; [exact Ha2|]. by split.
  - split; [done|]. unfold mutex_ok, holding. rewrite Hl2. destruct Hr as (vb & Hv & Hj). rewrite Hv.
    split; [done|]. split; eauto.
Qed.

Lemma cam_runs_accounted s : cam_runs s -> accounted s /\ mutex_ok s.
Proof.
  induction 1 as [o Hq Hl|t k s s' _ [IH IHm] Ho Hs|s o _ [IH IHm] Hk].
  - unfold accounted. cbn. rewrite Hq, Hl. repeat split; try done; constructor.
  - destruct k as [c| | |]; cbn in Ho, Hs.
    + destruct (cam_apply t c s) as [[r s1]|] eqn:E; [|done]. injection Hs as <-.
      by destruct (apply_accounted _ _ _ _ _ IH IHm Ho E) as (? & ? & _).
    + destruct (cam_snapshot t s) as [[r s1]|] eqn:E; [|done]. injection Hs as <-.
      by destruct (grab_accounted _ _ _ _ _ IH IHm Ho E) as (? & ? & _).
    + destruct (cam_frame t s) as [[r s1]|] eqn:E; [|done]. injection Hs as <-.
      by destruct (grab_accounted _ _ _ _ _ IH IHm Ho E) as (? & ? & _).
    + injection Hs as <-. by apply cam_release_accounted.
  - split; [by apply accounted_keeps|exact IHm].
Qed.

(** C19: The camera's buffers over any run of the threads that use it, failed
    formats, exhausted memory and missing frames included: exactly the buffers the
    statics name are allocated, none is with the driver twice, and a frame handed
    out is not with the driver, and so not overwritten, until it is released; a
    configuration that takes effect leaves the driver every buffer once, none too
    small for the new format; and while a thread has a frame every other waits. *)
Theorem frames_accounted s : cam_runs s ->
  NoDup (queued (cam_os s)) /\ live (cam_os s) ≡ₚ owned (bufs s) /\
  (forall vb, held s = Some vb -> vb ∈ owned (bufs s) /\ vb ∉ queued (cam_os s)) /\
  (forall t c s', ~ holding t s -> cam_apply t c s = Some (0, s') -> all_queued c s' /\ cam_lock s' = None) /\
  (forall t fl jpeg s', ~ holding t s -> grab t fl s = Some (inr jpeg, s') ->
     exists vb, held s' = Some vb /\ jpeg = vbuf_bytes vb (cam_os s') /\ vb ∉ queued (cam_os s') /\
     (forall u c, u <> t -> video_is_ready (cam_os s') = true ->
        cam_apply u c s' = None /\ cam_snapshot u s' = None /\ cam_frame u s' = None)).
Proof.
  intros Hr. destruct (cam_runs_accounted s Hr) as [Ha Hm].
  assert (forall s vb, accounted s -> held s = Some vb -> vb ∈ owned (bufs s) /\ vb ∉ queued (cam_os s)) as Hheld.
  { intros s1 vb (_ & _ & _ & Hd & Hi) Hv. rewrite Hv in Hd, Hi. cbn in Hd, Hi. split; [apply Hi; set_solver|].
    apply NoDup_app in Hd as (_ & Hd & _). intros Hq. apply (Hd vb Hq). by left. }
  pose proof Ha as (_ & _ & Hl & Hd & _).
  split; [by apply NoDup_app in Hd as [? _]|]. split; [done|]. split; [intros vb Hv; by apply (Hheld s)|]. split.
  - intros t c s' Hh E. by destruct (apply_accounted _ _ _ _ _ Ha Hm Hh E) as (_ & _ & Hq); apply Hq.
  - intros t fl jpeg s' Hh E. destruct (grab_accounted _ _ _ _ _ Ha Hm Hh E) as (Ha' & Hm' & [n Hlk] & vb & Hv & Hj).
    exists vb. split; [done|]. split; [done|]. split; [by apply (Hheld s')|]. intros u c Hu Hrd.
    assert (k_mutex_lock u (cam_lock s') = None) as Hno.
    { rewrite Hlk. cbn. by destruct (Nat.eqb_spec t u). }
    unfold cam_apply, cam_snapshot, cam_frame, grab. by rewrite Hrd, Hno.
Qed.
End CamProperties.

(** * A concrete camera *)
Module Sensor.
(** The buffers waiting to be filled, those done, what is allocated, the next name,
    and the memory left. *)
Record sensor := mk_sensor {
  waiting : list (Z * Z); finished : list (Z * Z); taken : list (Z * Z); next : Z; memory : Z;
}.
#[local] Instance sensor_os : Os := {| os := sensor; k_uptime_get s := (0, s) |}.
Fixpoint without (v : Z * Z) (l : list (Z * Z)) : list (Z * Z) :=
  match l with [] => [] | w :: l => if bool_decide (w = v) then l else w :: without v l end.
#[local] Instance sensor_video : Video := {|
  vbuf := Z * Z;
  vbuf_size := snd;
  vbuf_bytes v _ := [255; 216; fst v];
  video_is_ready _ := true;
  video_set_ctrl _ _ s := (0, s);
  video_stream_stop s := mk_sensor [] (waiting s ++ finished s) (taken s) (next s) (memory s);
  video_stream_start s := (0, s);
  video_set_format w h s := ((0, w * h / 5), s);
  video_enqueue v s := mk_sensor (waiting s ++ [v]) (finished s) (taken s) (next s) (memory s);
  video_dequeue wait s :=
    match finished s, waiting s with
    | v :: l, _ => (inr v, mk_sensor (waiting s) l (taken s) (next s) (memory s))
    | [], v :: l => if wait then (inr v, mk_sensor l [] (taken s) (next s) (memory s)) else (inl (- EIO), s)
    | [], [] => (inl (- EIO), s)
    end;
  video_buffer_aligned_alloc n s :=
    if existsb (fun v => fst v =? next s) (taken s) || (memory s <? n) then (None, s)
    else (Some (next s, n), mk_sensor (waiting s) (finished s) ((next s, n) :: taken s) (next s + 1) (memory s - n));
  video_buffer_release v s :=
    mk_sensor (waiting s) (finished s) (without v (taken s)) (next s) (memory s);
  led_is_ready_dt _ := true;
  led_set_brightness_dt _ s := s;
  led_off_dt s := s;
  k_msleep _ s := s;
|}.

Lemma without_split v l : v ∈ l -> l ≡ₚ v :: without v l.
Proof.
  induction l as [|w l IH]; [by intros ?%elem_of_nil|]. cbn. rewrite elem_of_cons. intros Hv.
  case_bool_decide as Hw; [by subst|]. destruct Hv as [->|Hv]; [done|]. rewrite (IH Hv) at 1. apply Permutation_swap.
Qed.
#[local] Instance sensor_laws : VideoLaws.
Proof.
  unshelve refine {| queued s := waiting s ++ finished s; done_bufs := finished; live := taken |}; try done.
  - intros o. apply submseteq_inserts_l. done.
  - intros v [w f t n m]. cbn. split; [|done].
    change ((w ++ [v]) ++ f ≡ₚ v :: w ++ f). rewrite <- app_assoc. symmetry. apply Permutation_middle.
  - intros b [[|x w] [|y f] t n m] v o' E; cbn in E; try done; cbn.
    + injection E as <- <-. done.
    + destruct b; [|done]. injection E as <- <-. done.
    + injection E as <- <-. split; [|done]. change (x :: w ++ y :: f ≡ₚ y :: x :: w ++ f).
      rewrite <- (Permutation_middle w f y). apply Permutation_swap.
  - intros b [[|x w] [|y f] t n m] r o' E; cbn in E; try done.
    + injection E as <- <-. done.
    + destruct b; [done|]. injection E as <- <-. done.
  - intros sz [w f t n m] v o' E. cbn in E. destruct (existsb _ _) eqn:Ex in E; [done|].
    destruct (m <? sz); [done|]. injection E as <- <-. cbn. split; [|done].
    intros Hin. apply not_true_iff_false in Ex. apply Ex. apply existsb_exists. exists (n, sz). split; [|by apply Z.eqb_refl].
    by apply list_elem_of_In.
  - intros sz [w f t n m] o' E. cbn in E. destruct (_ || _) in E; [|done]. by injection E as <-.
  - intros v [w f t n m] Hv _. cbn in *. split; [by apply without_split|done].
Defined.

(** The camera comes up in UXGA, one thread takes a frame and gives it back, and the
    configuration changes to QVGA and back. *)
Notation at_size k := ((cfg_default []) <| resolution := k |>).
Definition cold : cam := mk_cam (repeat None NBUF) None false None (mk_sensor [] [] [] 0 1000000).
Definition does (t : nat) (k : cam_call) (s : cam) : cam := default s (cam_step t k s).
Definition streaming : cam := does 0 (Apply (at_size 5)) cold.
Definition viewed : cam := does 2 Release (does 2 Frame streaming).
Definition small : cam := does 0 (Apply (at_size 0)) viewed.

Lemma small_runs : cam_runs small.
Proof.
  assert (cam_runs cold) as H0 by (by apply cam_boot).
  assert (cam_runs streaming) as H1.
  { apply (cam_called 0 (Apply (at_size 5)) cold); [done| |by vm_compute]. intros [n Hn]. by vm_compute in Hn. }
  assert (cam_runs (does 2 Frame streaming)) as H2.
  { apply (cam_called 2 Frame streaming); [done| |by vm_compute]. intros [n Hn]. by vm_compute in Hn. }
  assert (cam_runs viewed) as H3.
  { apply (cam_called 2 Release (does 2 Frame streaming)); [done| |by vm_compute]. exists 1%nat. by vm_compute. }
  apply (cam_called 0 (Apply (at_size 0)) viewed); [done| |by vm_compute]. intros [n Hn]. by vm_compute in Hn.
Qed.
Lemma small_applies : exists s', cam_apply 1 (at_size 5) small = Some (0, s') /\ ~ holding 1 small.
Proof. eexists. split; [by vm_compute|]. intros [n Hn]. by vm_compute in Hn. Qed.
Lemma small_frame : exists jpeg s', grab 2 false small = Some (inr jpeg, s') /\ ~ holding 2 small.
Proof. do 2 eexists. split; [by vm_compute|]. intros [n Hn]. by vm_compute in Hn. Qed.

Lemma frames_accounted_witness :
  live (cam_os small) ≡ₚ owned (bufs small) /\
  (exists s', cam_apply 1 (at_size 5) small = Some (0, s') /\ all_queued (at_size 5) s') /\
  (exists jpeg vb s', grab 2 false small = Some (inr jpeg, s') /\ held s' = Some vb /\ cam_frame 1 s' = None).
Proof.
  destruct (frames_accounted small small_runs) as (_ & Hl & _ & Ha & Hg). split; [exact Hl|]. split.
  - destruct small_applies as (s' & E & Hh). exists s'. split; [exact E|]. by apply (Ha 1%nat _ s' Hh E).
  - destruct small_frame as (jpeg & s' & E & Hh). destruct (Hg 2%nat false jpeg s' Hh E) as (vb & Hv & _ & _ & Hw).
    exists jpeg, vb, s'. split; [exact E|]. split; [exact Hv|]. by apply (Hw 1%nat (at_size 5)).
Defined.
End Sensor.
