(* ===== verification/PrusaWeb.v ===== *)
(** prusa_cam's config page and API: [prusa_cam/src/web.c], with [exif.h].

    Each resource's callback moves its own static [route] and the device: the
    configuration, the upload thread's flags and the camera, as [PrusaConnect.v]
    has them.  Zephyr's server serves a resource to one client at a time, so a
    resource's callbacks form one sequence. *)

From Stdlib Require Import Ascii.
From S2P Require Import Prelude Printf Platform Instances HttpUtil HttpRequests PrusaProto PrusaCfg PrusaConnect.
#[local] Open Scope Z_scope.

Definition USER : cstr := to_chars "admin".
Definition BODY_MAX : nat := 512.
Definition out_size : nat := 640.

(** * exif.h *)
Definition EXIF_HDR_LEN : nat := 38.
Definition exif_orientation (rotation : Z) : Z :=
  if rotation <? 4 then default 1 ([1; 6; 3; 8] !! Z.to_nat rotation) else 1.
Definition exif_tmpl : list Z :=
  [255; 216; 255; 225; 0; 34; 69; 120; 105; 102; 0; 0; 77; 77; 0; 42; 0; 0; 0; 8;
   0; 1; 1; 18; 0; 3; 0; 0; 0; 1; 0; 0; 0; 0; 0; 0; 0; 0].
Definition exif_header (orientation : Z) : list Z :=
  <[31%nat := Z.land orientation 255]> (<[30%nat := u8 (Z.shiftr orientation 8)]> exif_tmpl).
Definition exif_wanted (jpeg : list Z) (rotation : Z) : bool :=
  negb (rotation =? 0) && (rotation <? 4) && (2 <=? length jpeg)%nat &&
  (byte_at jpeg 0 =? 255) && (byte_at jpeg 1 =? 216).

(** * web.c *)

(** The statics of one resource; [wr_body] is [body] up to [len]. *)
Record route := mk_route {
  wr_auth : cstr;
  wr_body : list ascii;
  wr_overflow : bool;
  cam_held : bool;
  exif_sent : bool;
  wr_exif : list Z;
  wr_jpeg : list Z;
}.
#[export] Instance eta_route : Eta route := fun r =>
  mk_route (wr_auth r) (wr_body r) (wr_overflow r) (cam_held r) (exif_sent r) (wr_exif r) (wr_jpeg r).
Definition zero_route : route := mk_route [] [] false false false [] [].

Inductive web_body := WText (s : string) | WJson (s : cstr) | WPage | WBytes (b : list Z).
Inductive web_headers := NoHdr | GzipHdr | AuthHdr.
(** What a callback leaves in the response context; status 0 is the server's
    default, 200. *)
Record response := mk_response {
  ws_status : Z; ws_headers : web_headers; ws_body : option web_body; ws_final : bool;
}.
#[export] Instance eta_response : Eta response := fun r =>
  mk_response (ws_status r) (ws_headers r) (ws_body r) (ws_final r).
Definition no_response : response := mk_response 0 NoHdr None false.

Definition reply (st : Z) (body : web_body) : response := mk_response st NoHdr (Some body) true.

(** The arguments of a callback that it reads. *)
Record call := mk_call {
  wc_status : http_transaction_status;
  wc_post : bool;
  wc_headers : option (list (cstr * cstr));
  wc_data : list ascii;
}.

(** [asz] is sizeof(r->auth); a later header overwrites an earlier. *)
Definition capture (asz : nat) (req : call) (r : route) : route :=
  let r := foldl (fun r '(n, v) =>
                    if strcaseeq n (to_chars "Authorization") then r <| wr_auth := take (asz - 1) v |> else r)
             r (default [] (wc_headers req)) in
  if (0 <? length (wc_data req))%nat then
    if (BODY_MAX <? length (wr_body r) + length (wc_data req))%nat then r <| wr_overflow := true |>
    else r <| wr_body ::= fun b => b ++ wc_data req |>
  else r.

(** [None] if authorised, and otherwise the response. *)
Definition authorised `{Base64} (r : route) (c : cfg) : option response :=
  if bool_decide (cstring (password c) = []) then
    Some (reply 403 (WText (q "{'error':'set a password: prusa set password'}")))
  else if http_basic_auth_ok (Some (wr_auth r)) (Some USER) (Some (cstring (password c))) then None
  else Some ((reply 401 (WText (q "{'error':'unauthorised'}"))) <| ws_headers := AuthHdr |>).

Definition ip_str (ip : Z) : cstr :=
  if ip =? 0 then [] else
  to_chars (snd (snprintf 16 "%u.%u.%u.%u"
    [PInt (Z.shiftr ip 24); PInt (Z.land (Z.shiftr ip 16) 255); PInt (Z.land (Z.shiftr ip 8) 255);
     PInt (Z.land ip 255)])).

Record config_out := mk_config_out {
  o_name : cstr; o_token_set : bool; o_fingerprint : cstr; o_interval : Z; o_resolution : cstr;
  o_quality : Z; o_hflip : bool; o_vflip : bool; o_flash : bool; o_rotation : Z;
  o_ip : cstr; o_netmask : cstr; o_gateway : cstr; o_dns : cstr;
  o_brightness : Z; o_contrast : Z; o_saturation : Z;
  o_auto_exposure : bool; o_auto_wb : bool; o_auto_gain : bool;
}.
Definition config_out_descr : list (json_obj_descr config_out) :=
  [JSON_TOK_STRING "name" (fun o => Some (o_name o)); JSON_TOK_TRUE "token_set" o_token_set;
   JSON_TOK_STRING "fingerprint" (fun o => Some (o_fingerprint o)); JSON_TOK_UINT "interval" o_interval;
   JSON_TOK_STRING "resolution" (fun o => Some (o_resolution o)); JSON_TOK_UINT "quality" o_quality;
   JSON_TOK_TRUE "hflip" o_hflip; JSON_TOK_TRUE "vflip" o_vflip; JSON_TOK_TRUE "flash" o_flash;
   JSON_TOK_UINT "rotation" o_rotation; JSON_TOK_STRING "ip" (fun o => Some (o_ip o));
   JSON_TOK_STRING "netmask" (fun o => Some (o_netmask o)); JSON_TOK_STRING "gateway" (fun o => Some (o_gateway o));
   JSON_TOK_STRING "dns" (fun o => Some (o_dns o)); JSON_TOK_NUMBER "brightness" o_brightness;
   JSON_TOK_NUMBER "contrast" o_contrast; JSON_TOK_NUMBER "saturation" o_saturation;
   JSON_TOK_TRUE "auto_exposure" o_auto_exposure; JSON_TOK_TRUE "auto_wb" o_auto_wb;
   JSON_TOK_TRUE "auto_gain" o_auto_gain].

Record status_out := mk_status_out {
  so_uptime_s : Z; so_last_upload_s : Z; so_last_result : Z; so_result : cstr; so_uploads : Z;
  so_stopped : bool;
}.
Definition status_out_descr : list (json_obj_descr status_out) :=
  [JSON_TOK_INT64 "uptime_s" so_uptime_s; JSON_TOK_INT64 "last_upload_s" so_last_upload_s;
   JSON_TOK_NUMBER "last_result" so_last_result; JSON_TOK_STRING "result" (fun o => Some (so_result o));
   JSON_TOK_UINT "uploads" so_uploads; JSON_TOK_TRUE "stopped" so_stopped].

Definition reply_json `{JsonEncoder} {S} (ds : list (json_obj_descr S)) (v : S) : response :=
  let '(ret, text) := json_obj_encode_buf S ds v out_size in
  if ret <? 0 then reply 500 (WText (q "{'error':'encode'}")) else reply 200 (WJson text).

(** The struct [reply_config] fills in. *)
Definition config_out_of (s : cfg_state) : config_out :=
  let c := the_cfg s in
  mk_config_out (cstring (name c)) (negb (bool_decide (cstring (token c) = []))) (fingerprint s)
    (interval_s c) (to_chars (from_option r_name "" (cfg_resolutions !! Z.to_nat (resolution c))))
    (quality c) (hflip c) (vflip c) (flash c) (rotation c * 90)
    (ip_str (ip c)) (ip_str (netmask c)) (ip_str (gateway c)) (ip_str (dns c))
    (brightness c) (contrast c) (saturation c) (auto_exposure c) (auto_wb c) (auto_gain c).
Definition reply_config `{JsonEncoder} (s : cfg_state) : response :=
  reply_json config_out_descr (config_out_of s).

Record cfg_post := mk_cfg_post {
  p_token : cstr; p_password : cstr; p_interval : Z; p_resolution : cstr; p_quality : Z;
  p_hflip : bool; p_vflip : bool; p_flash : bool; p_rotation : Z;
  p_ip : cstr; p_netmask : cstr; p_gateway : cstr; p_dns : cstr; p_name : cstr;
  p_brightness : Z; p_contrast : Z; p_saturation : Z;
  p_auto_exposure : bool; p_auto_wb : bool; p_auto_gain : bool;
}.

#[export] Instance eta_cfg_post : Eta cfg_post := fun p =>
  mk_cfg_post (p_token p) (p_password p) (p_interval p) (p_resolution p) (p_quality p)
    (p_hflip p) (p_vflip p) (p_flash p) (p_rotation p)
    (p_ip p) (p_netmask p) (p_gateway p) (p_dns p) (p_name p)
    (p_brightness p) (p_contrast p) (p_saturation p)
    (p_auto_exposure p) (p_auto_wb p) (p_auto_gain p).
Definition zero_post : cfg_post :=
  mk_cfg_post [] [] 0 [] 0 false false false 0 [] [] [] [] [] 0 0 0 false false false.

(** A descriptor of a member that is read: its name, its type and the field of the
    struct [S] it is stored in. *)
Inductive json_parse_descr (S : Type) :=
| PARSE_STRING (name : string) (set : cstr -> S -> S)
| PARSE_NUMBER (name : string) (set : Z -> S -> S)
| PARSE_TRUE (name : string) (set : bool -> S -> S).
#[global] Arguments PARSE_STRING {S}. #[global] Arguments PARSE_NUMBER {S}. #[global] Arguments PARSE_TRUE {S}.
(** Zephyr's [json_obj_parse]: negative, or the set of the descriptors found, by
    their place; and the struct with their values stored. *)
Class JsonParser := {
  json_obj_parse : forall S, list ascii -> list (json_parse_descr S) -> S -> Z * S;
}.

Definition cfg_post_descr : list (json_parse_descr cfg_post) :=
  [PARSE_STRING "token" (fun v p => p <| p_token := v |>);
   PARSE_STRING "password" (fun v p => p <| p_password := v |>);
   PARSE_NUMBER "interval" (fun v p => p <| p_interval := v |>);
   PARSE_STRING "resolution" (fun v p => p <| p_resolution := v |>);
   PARSE_NUMBER "quality" (fun v p => p <| p_quality := v |>);
   PARSE_TRUE "hflip" (fun v p => p <| p_hflip := v |>);
   PARSE_TRUE "vflip" (fun v p => p <| p_vflip := v |>);
   PARSE_TRUE "flash" (fun v p => p <| p_flash := v |>);
   PARSE_NUMBER "rotation" (fun v p => p <| p_rotation := v |>);
   PARSE_STRING "ip" (fun v p => p <| p_ip := v |>);
   PARSE_STRING "netmask" (fun v p => p <| p_netmask := v |>);
   PARSE_STRING "gateway" (fun v p => p <| p_gateway := v |>);
   PARSE_STRING "dns" (fun v p => p <| p_dns := v |>);
   PARSE_STRING "name" (fun v p => p <| p_name := v |>);
   PARSE_NUMBER "brightness" (fun v p => p <| p_brightness := v |>);
   PARSE_NUMBER "contrast" (fun v p => p <| p_contrast := v |>);
   PARSE_NUMBER "saturation" (fun v p => p <| p_saturation := v |>);
   PARSE_TRUE "auto_exposure" (fun v p => p <| p_auto_exposure := v |>);
   PARSE_TRUE "auto_wb" (fun v p => p <| p_auto_wb := v |>);
   PARSE_TRUE "auto_gain" (fun v p => p <| p_auto_gain := v |>)].
Definition parse_cfg_post `{JsonParser} (body : list ascii) : Z * cfg_post :=
  json_obj_parse cfg_post body cfg_post_descr zero_post.

Definition parse_ip (s : cstr) : option Z :=
  match s with [] => Some 0 | _ => snd (http_parse_ipv4 (Some s)) end.
Definition CLAMP (v lo hi : Z) : Z := if v <=? lo then lo else if hi <=? v then hi else v.

(** [f c] if field [n] was posted; [None] is -EINVAL. *)
Definition posted (got : Z) (n : nat) (f : cfg -> option cfg) (c : cfg) : option cfg :=
  if has_bit got n then f c else Some c.
(** [apply_post]'s edits of its copy of the configuration. *)
Definition post_fields (got : Z) (p : cfg_post) (c : cfg) : option cfg :=
  c ← posted got 0 (fun c => if (CFG_TOKEN_MAX <? length (p_token p))%nat then None
                             else Some (c <| token ::= fun a => strcpy a (p_token p) |>)) c;
  c ← posted got 1 (fun c => if (CFG_PASSWORD_MAX <? length (p_password p))%nat then None
                             else Some (c <| password ::= fun a => strcpy a (p_password p) |>)) c;
  c ← posted got 2 (fun c => Some (c <| interval_s := CLAMP (p_interval p) 0 65535 |>)) c;
  c ← posted got 3 (fun c => let i := cfg_resolution_find (p_resolution p) in
                             if i <? 0 then None else Some (c <| resolution := u8 i |>)) c;
  c ← posted got 4 (fun c => Some (c <| quality := CLAMP (p_quality p) 0 255 |>)) c;
  c ← posted got 5 (fun c => Some (c <| hflip := p_hflip p |>)) c;
  c ← posted got 6 (fun c => Some (c <| vflip := p_vflip p |>)) c;
  c ← posted got 7 (fun c => Some (c <| flash := p_flash p |>)) c;
  c ← posted got 8 (fun c => if negb (Z.rem (p_rotation p) 90 =? 0) || (p_rotation p <? 0) || (270 <? p_rotation p)
                             then None else Some (c <| rotation := u8 (Z.quot (p_rotation p) 90) |>)) c;
  c ← posted got 9 (fun c => v ← parse_ip (p_ip p); Some (c <| ip := v |>)) c;
  c ← posted got 10 (fun c => v ← parse_ip (p_netmask p); Some (c <| netmask := v |>)) c;
  c ← posted got 11 (fun c => v ← parse_ip (p_gateway p); Some (c <| gateway := v |>)) c;
  c ← posted got 12 (fun c => v ← parse_ip (p_dns p); Some (c <| dns := v |>)) c;
  c ← posted got 13 (fun c => if (CFG_NAME_MAX <? length (p_name p))%nat then None
                              else Some (c <| name ::= fun a => strcpy a (p_name p) |>)) c;
  c ← posted got 14 (fun c => Some (c <| brightness := CLAMP (p_brightness p) (-128) 127 |>)) c;
  c ← posted got 15 (fun c => Some (c <| contrast := CLAMP (p_contrast p) (-128) 127 |>)) c;
  c ← posted got 16 (fun c => Some (c <| saturation := CLAMP (p_saturation p) (-128) 127 |>)) c;
  c ← posted got 17 (fun c => Some (c <| auto_exposure := p_auto_exposure p |>)) c;
  c ← posted got 18 (fun c => Some (c <| auto_wb := p_auto_wb p |>)) c;
  posted got 19 (fun c => Some (c <| auto_gain := p_auto_gain p |>)) c.

Inductive web_resource := INDEX | CONFIG | STATUS | TEST_RES | SNAPSHOT_RES.

Section Web.
Context `{Settings} `{!JsonEncoder} `{!CamStation} `{!Base64} `{!JsonParser}.
(** cam.c's [cam_apply]. *)
Context (cam_apply : cfg -> os -> Z * os).
(** CONFIG_HTTP_SERVER_CAPTURE_HEADER_BUFFER_SIZE *)
Variable auth_size : nat.

(** main.c's [cfg_changed]. *)
Definition cfg_changed (d : connect) : connect :=
  let '(_, o) := cam_apply (the_cfg (cfgs d)) (n_os (net d)) in
  d <| net := (net d) <| n_os := o |> |> <| info_stale := true |> <| kick := true |>.

(** [cfg_set] with the callback it makes. *)
Definition set_config (c : cfg) (d : connect) : Z * connect :=
  let '(ret, s, o) := cfg_set c (cfgs d) (n_os (net d)) in
  let d := d <| cfgs := s |> <| net := (net d) <| n_os := o |> |> in
  (ret, if ret =? 0 then cfg_changed d else d).

Definition apply_post (body : list ascii) (d : connect) : Z * connect :=
  let '(got, p) := parse_cfg_post body in
  if got <? 0 then (- EINVAL, d) else
  match post_fields got p (the_cfg (cfgs d)) with
  | None => (- EINVAL, d)
  | Some c => set_config c d
  end.

Definition index_cb (req : call) : response :=
  match wc_status req with
  | HTTP_SERVER_REQUEST_DATA_FINAL => mk_response 0 GzipHdr (Some WPage) true
  | _ => no_response
  end.

(** What the callbacks but [index_cb]'s share: the end of a transaction zeroes the
    route, and a request is answered once it is whole and authorised. *)
Definition guarded (req : call) (r : route) (d : connect)
    (answer : route -> response * route * connect) : response * route * connect :=
  match wc_status req with
  | HTTP_SERVER_TRANSACTION_ABORTED | HTTP_SERVER_TRANSACTION_COMPLETE => (no_response, zero_route, d)
  | st =>
      let r := capture auth_size req r in
      match st with
      | HTTP_SERVER_REQUEST_DATA_FINAL =>
          match authorised r (the_cfg (cfgs d)) with
          | Some rsp => (rsp, r, d)
          | None => answer r
          end
      | _ => (no_response, r, d)
      end
  end.

Definition config_cb (req : call) (r : route) (d : connect) : response * route * connect :=
  guarded req r d (fun r =>
    let '(ret, d) :=
      if wc_post req then
        if wr_overflow r then (- E2BIG, d) else apply_post (wr_body r) d
      else (0, d) in
    if ret <? 0 then (reply 400 (WText (q "{'error':'invalid config'}")), r, d)
    else (reply_config (cfgs d), r, d)).

Definition status_cb (req : call) (r : route) (d : connect) : response * route * connect :=
  guarded req r d (fun r =>
    let st := status d in
    let '(ms, o) := k_uptime_get (n_os (net d)) in
    let d := d <| net := (net d) <| n_os := o |> |> in
    let so := mk_status_out (Z.quot ms 1000) (Z.quot (last_ms st) 1000) (last_result st)
      (to_chars (if last_ms st =? 0 then "" else prusa_camera_describe (last_result st)))
      (uploads st) (st_stopped st) in
    (reply_json status_out_descr so, r, d)).

Definition test_cb (req : call) (r : route) (d : connect) : response * route * connect :=
  guarded req r d (fun r =>
    (reply 202 (WText (q "{'queued':true}")), r, d <| test_requested := true |> <| kick := true |>)).

Definition snapshot_cb (req : call) (r : route) (d : connect) : response * route * connect :=
  match wc_status req with
  | HTTP_SERVER_TRANSACTION_ABORTED | HTTP_SERVER_TRANSACTION_COMPLETE =>
      (no_response, zero_route,
       if cam_held r then d <| net := (net d) <| n_os ::= cam_release |> |> else d)
  | _ =>
      if exif_sent r then
        (mk_response 0 NoHdr (Some (WBytes (drop 2 (wr_jpeg r)))) true, r, d)
      else
        guarded req r d (fun r =>
          let '((ret, jpeg), o) := cam_snapshot (n_os (net d)) in
          let d := d <| net := (net d) <| n_os := o |> |> in
          if ret <? 0 then (reply 503 (WText "no frame"), r, d) else
          let r := r <| wr_jpeg := jpeg |> <| cam_held := true |> in
          let c := the_cfg (cfgs d) in
          if exif_wanted jpeg (rotation c) then
            let h := exif_header (exif_orientation (rotation c)) in
            (mk_response 0 NoHdr (Some (WBytes h)) false, r <| wr_exif := h |> <| exif_sent := true |>, d)
          else (mk_response 0 NoHdr (Some (WBytes jpeg)) true, r, d))
  end.

(** The whole server: the four routes' statics and the device. *)
Record web := mk_web {
  config_route : route; status_route : route; test_route : route; snapshot_route : route;
  dev : connect;
}.
#[export] Instance eta_web : Eta web := fun w =>
  mk_web (config_route w) (status_route w) (test_route w) (snapshot_route w) (dev w).

Definition web_cb (res : web_resource) (req : call) (w : web) : response * web :=
  match res with
  | INDEX => (index_cb req, w)
  | CONFIG => let '(rsp, r, d) := config_cb req (config_route w) (dev w) in
              (rsp, w <| config_route := r |> <| dev := d |>)
  | STATUS => let '(rsp, r, d) := status_cb req (status_route w) (dev w) in
              (rsp, w <| status_route := r |> <| dev := d |>)
  | TEST_RES => let '(rsp, r, d) := test_cb req (test_route w) (dev w) in
                (rsp, w <| test_route := r |> <| dev := d |>)
  | SNAPSHOT_RES => let '(rsp, r, d) := snapshot_cb req (snapshot_route w) (dev w) in
                    (rsp, w <| snapshot_route := r |> <| dev := d |>)
  end.
End Web.
#[global] Arguments web {_}.

(** * Specification *)

(** What a posted configuration asks for, field by field: the value posted, or the
    one there was. *)
Definition field {A} (got : Z) (n : nat) (new old : A) : A := if has_bit got n then new else old.
Definition address (s : cstr) : option Z := match s with [] => Some 0 | _ => snd (http_parse_ipv4 (Some s)) end.
Definition post_result (got : Z) (p : cfg_post) (c c' : cfg) : Prop :=
  cstring (token c') = field got 0 (p_token p) (cstring (token c)) /\
  cstring (password c') = field got 1 (p_password p) (cstring (password c)) /\
  interval_s c' = field got 2 (p_interval p) (interval_s c) /\
  (if has_bit got 3
   then exists r, cfg_resolutions !! Z.to_nat (resolution c') = Some r /\ 0 <= resolution c' /\
                  strcaseeq (p_resolution p) (to_chars (r_name r)) = true
   else resolution c' = resolution c) /\
  quality c' = field got 4 (Z.max 0 (p_quality p)) (quality c) /\
  hflip c' = field got 5 (p_hflip p) (hflip c) /\
  vflip c' = field got 6 (p_vflip p) (vflip c) /\
  flash c' = field got 7 (p_flash p) (flash c) /\
  rotation c' * 90 = field got 8 (p_rotation p) (rotation c * 90) /\
  Some (ip c') = field got 9 (address (p_ip p)) (Some (ip c)) /\
  Some (netmask c') = field got 10 (address (p_netmask p)) (Some (netmask c)) /\
  Some (gateway c') = field got 11 (address (p_gateway p)) (Some (gateway c)) /\
  Some (dns c') = field got 12 (address (p_dns p)) (Some (dns c)) /\
  cstring (name c') = field got 13 (p_name p) (cstring (name c)) /\
  brightness c' = field got 14 (p_brightness p) (brightness c) /\
  contrast c' = field got 15 (p_contrast p) (contrast c) /\
  saturation c' = field got 16 (p_saturation p) (saturation c) /\
  auto_exposure c' = field got 17 (p_auto_exposure p) (auto_exposure c) /\
  auto_wb c' = field got 18 (p_auto_wb p) (auto_wb c) /\
  auto_gain c' = field got 19 (p_auto_gain p) (auto_gain c).

(** * Lemmas *)

Lemma CLAMP_mid v lo hi : lo < hi -> lo < CLAMP v lo hi < hi -> CLAMP v lo hi = v.
Proof. unfold CLAMP. repeat case_match; lia. Qed.
Lemma CLAMP_low v hi : 0 < hi -> CLAMP v 0 hi < hi -> CLAMP v 0 hi = Z.max 0 v.
Proof. unfold CLAMP. repeat case_match; to_prop; lia. Qed.

(** A posted field that an edit puts, or the one there was. *)
Lemma posted_put {A} (proj : cfg -> A) (put : A -> cfg -> cfg) (P : A -> Prop) got n f c c' :
  put (proj c) c = c ->
  (forall c1, f c = Some c1 -> exists v, c1 = put v c /\ P v) ->
  posted got n f c = Some c' ->
  exists v, c' = put v c /\ (if has_bit got n then P v else v = proj c).
Proof.
  intros Hput Hf. unfold posted. destruct (has_bit got n); [by apply Hf|].
  intros [= <-]. by exists (proj c).
Qed.
Lemma posted_value {A} (proj : cfg -> A) (put : A -> cfg -> cfg) got n f c c' v :
  put (proj c) c = c -> f c = Some (put v c) -> posted got n f c = Some c' ->
  c' = put (field got n v (proj c)) c.
Proof.
  intros Hput Hf. unfold posted, field. destruct (has_bit got n); congruence.
Qed.

Lemma resolution_find_spec rs i n : 0 <= i ->
  0 <= resolution_find rs i n ->
  exists r, rs !! Z.to_nat (resolution_find rs i n - i) = Some r /\
    i <= resolution_find rs i n < i + Z.of_nat (length rs) /\
    strcaseeq n (to_chars (r_name r)) = true.
Proof.
  revert i. induction rs as [|r rs IH]; intros i Hi Hr; cbn in *; [lia|].
  destruct (strcaseeq n (to_chars (r_name r))) eqn:E.
  - rewrite Z.sub_diag. exists r. split; [done|]. split; [lia|done].
  - destruct (IH (i + 1) ltac:(lia) Hr) as (r' & Hl & Hb & Hs). exists r'.
    split; [|split; [lia|done]].
    replace (Z.to_nat (resolution_find rs (i + 1) n - i))
      with (S (Z.to_nat (resolution_find rs (i + 1) n - (i + 1)))) by lia. done.
Qed.

(** One stage of [post_fields]: the edit of one field, whose value is determined by
    what was posted ([value_stage]), or satisfies a predicate ([put_stage]). *)
Ltac put_stage E proj put P :=
  apply bind_Some in E;
  let c := fresh "c" in let Hs := fresh "Hs" in destruct E as (c & Hs & E);
  apply (posted_put proj put P) in Hs;
  [ let v := fresh "v" in destruct Hs as (v & -> & Hs); cbn in Hs, E
  | done
  | let c1 := fresh in intros c1 Hc; cbn in Hc;
    first [ apply bind_Some in Hc as (? & ? & [= <-])
          | case_match; [done|]; injection Hc as <- ];
    to_prop; eexists; (split; [reflexivity|]); try done; intuition (to_prop; auto) ].
Ltac value_stage E proj put :=
  apply bind_Some in E;
  let c := fresh "c" in let Hs := fresh "Hs" in destruct E as (c & Hs & E);
  eapply (posted_value proj put) in Hs; [|reflexivity|reflexivity]; subst c; cbn in E.

Section PostFields.
Variable (got : Z) (p : cfg_post).

(** The fields an accepted set of edits leaves. *)
Lemma post_fields_inv c c' : post_fields got p c = Some c' ->
  exists tk pw re ro a m g d nm, c' =
    mk_cfg tk pw nm (field got 2 (CLAMP (p_interval p) 0 65535) (interval_s c)) re
      (field got 4 (CLAMP (p_quality p) 0 255) (quality c)) (field got 5 (p_hflip p) (hflip c))
      (field got 6 (p_vflip p) (vflip c)) (field got 7 (p_flash p) (flash c)) ro a m g d
      (field got 14 (CLAMP (p_brightness p) (-128) 127) (brightness c))
      (field got 15 (CLAMP (p_contrast p) (-128) 127) (contrast c))
      (field got 16 (CLAMP (p_saturation p) (-128) 127) (saturation c))
      (field got 17 (p_auto_exposure p) (auto_exposure c)) (field got 18 (p_auto_wb p) (auto_wb c))
      (field got 19 (p_auto_gain p) (auto_gain c)) /\
    (if has_bit got 0 then tk = strcpy (token c) (p_token p) else tk = token c) /\
    (if has_bit got 1 then pw = strcpy (password c) (p_password p) else pw = password c) /\
    (if has_bit got 3 then 0 <= cfg_resolution_find (p_resolution p) /\ re = u8 (cfg_resolution_find (p_resolution p))
     else re = resolution c) /\
    (if has_bit got 8 then Z.rem (p_rotation p) 90 = 0 /\ 0 <= p_rotation p <= 270 /\ ro = u8 (Z.quot (p_rotation p) 90)
     else ro = rotation c) /\
    (if has_bit got 9 then parse_ip (p_ip p) = Some a else a = ip c) /\
    (if has_bit got 10 then parse_ip (p_netmask p) = Some m else m = netmask c) /\
    (if has_bit got 11 then parse_ip (p_gateway p) = Some g else g = gateway c) /\
    (if has_bit got 12 then parse_ip (p_dns p) = Some d else d = dns c) /\
    (if has_bit got 13 then nm = strcpy (name c) (p_name p) else nm = name c).
Proof.
  destruct c as [tk pw nm iv re qu hf vf fl ro a m g d br co sa ae aw ag]. unfold post_fields. intros E.
  put_stage E token (fun v c => c <| token := v |>) (fun v => v = strcpy tk (p_token p)).
  put_stage E password (fun v c => c <| password := v |>) (fun v => v = strcpy pw (p_password p)).
  value_stage E interval_s (fun v c => c <| interval_s := v |>).
  put_stage E resolution (fun v c => c <| resolution := v |>)
    (fun v => 0 <= cfg_resolution_find (p_resolution p) /\ v = u8 (cfg_resolution_find (p_resolution p))).
  value_stage E quality (fun v c => c <| quality := v |>).
  value_stage E hflip (fun v c => c <| hflip := v |>).
  value_stage E vflip (fun v c => c <| vflip := v |>).
  value_stage E flash (fun v c => c <| flash := v |>).
  put_stage E rotation (fun v c => c <| rotation := v |>)
    (fun v => Z.rem (p_rotation p) 90 = 0 /\ 0 <= p_rotation p <= 270 /\ v = u8 (Z.quot (p_rotation p) 90)).
  put_stage E ip (fun v c => c <| ip := v |>) (fun v => parse_ip (p_ip p) = Some v).
  put_stage E netmask (fun v c => c <| netmask := v |>) (fun v => parse_ip (p_netmask p) = Some v).
  put_stage E gateway (fun v c => c <| gateway := v |>) (fun v => parse_ip (p_gateway p) = Some v).
  put_stage E dns (fun v c => c <| dns := v |>) (fun v => parse_ip (p_dns p) = Some v).
  put_stage E name (fun v c => c <| name := v |>) (fun v => v = strcpy nm (p_name p)).
  value_stage E brightness (fun v c => c <| brightness := v |>).
  value_stage E contrast (fun v c => c <| contrast := v |>).
  value_stage E saturation (fun v c => c <| saturation := v |>).
  value_stage E auto_exposure (fun v c => c <| auto_exposure := v |>).
  value_stage E auto_wb (fun v c => c <| auto_wb := v |>).
  apply (posted_value auto_gain (fun v c => c <| auto_gain := v |>) _ _ _ _ _ (p_auto_gain p)) in E; [|done..].
  cbn in E. subst c'. do 9 eexists. split; [reflexivity|]. cbn. repeat split; eassumption.
Qed.

(** Posted strings are C strings. *)
Definition post_strings : Prop :=
  no_nul (p_token p) /\ no_nul (p_password p) /\ no_nul (p_name p).

Lemma field_string n a (s : cstr) b : no_nul s -> (if has_bit got n then a = strcpy b s else a = b) ->
  cstring a = field got n s (cstring b).
Proof. unfold field. intros Hs. destruct (has_bit got n); intros ->; [by apply cstring_strcpy|done]. Qed.
Lemma field_address n a (s : cstr) b : (if has_bit got n then parse_ip s = Some a else a = b) ->
  Some a = field got n (address s) (Some b).
Proof. unfold field. by destruct (has_bit got n); intros <-. Qed.
Lemma field_level n v old : -2 <= field got n (CLAMP v (-128) 127) old <= 2 ->
  field got n (CLAMP v (-128) 127) old = field got n v old.
Proof. unfold field. destruct (has_bit got n); [|done]. intros. apply CLAMP_mid; lia. Qed.

(** What passes validation is what was posted: no clamp shows. *)
Lemma post_fields_result c c' : post_strings -> post_fields got p c = Some c' -> cfg_valid c' ->
  post_result got p c c'.
Proof.
  intros (Hst & Hsp & Hsn) Hf (Hiv & _ & _ & _ & Hbr & Hco & Hsa & Hre & Hqu & Hro & _).
  destruct (post_fields_inv _ _ Hf) as (tk & pw & re & ro & a & m & g & d & nm & -> &
    Ht & Hp & Hr & Hrot & Ha & Hm & Hg & Hd & Hn).
  cbn in Hiv, Hbr, Hco, Hsa, Hre, Hqu, Hro. unfold post_result. cbn.
  split; [by apply field_string|]. split; [by apply field_string|]. split.
  { unfold field in *. destruct (has_bit got 2); [|done]. apply CLAMP_mid; [lia|].
    rewrite !elem_of_cons in Hiv. destruct Hiv as [-> | [-> | [-> | [-> | Hiv]]]]; try lia.
    by apply elem_of_nil in Hiv. }
  split.
  { destruct (has_bit got 3); [|done]. destruct Hr as [Hpos ->].
    destruct (resolution_find_spec cfg_resolutions 0 (p_resolution p)) as (r & Hl & Hb & Hs); [lia|done|].
    exists r. fold (cfg_resolution_find (p_resolution p)) in *. cbn [length cfg_resolutions] in Hb.
    rewrite Z.sub_0_r in Hl. rewrite u8_small by lia. done. }
  split.
  { unfold field in *. destruct (has_bit got 4); [|done]. apply CLAMP_low; lia. }
  do 3 (split; [done|]). split.
  { unfold field. destruct (has_bit got 8); [|by subst]. destruct Hrot as (Hrem & Hrng & ->).
    pose proof (Z.quot_rem' (p_rotation p) 90). rewrite u8_small by lia. lia. }
  do 4 (split; [by apply field_address|]). split; [by apply field_string|].
  do 3 (split; [by apply field_level|]). done.
Qed.
End PostFields.

(** What storing the value found for a descriptor does. *)
Definition json_store {S} (ds : list (json_parse_descr S)) (s : S) (x : nat * jval) : S :=
  match ds !! x.1, x.2 with
  | Some (PARSE_STRING _ set), JStr v => set v s
  | Some (PARSE_NUMBER _ set), JNum v => set v s
  | Some (PARSE_TRUE _ set), JBool v => set v s
  | _, _ => s
  end.
Definition c_value (v : jval) : Prop := match v with JStr s => no_nul s | _ => True end.
(** A parse stores values found in the body, its strings C strings, and nothing else;
    what it says it found is what it stored. *)
Class JsonParserLaws `{JsonParser} : Prop := {
  json_stores : forall S b (ds : list (json_parse_descr S)) s, exists vs,
    snd (json_obj_parse S b ds s) = foldl (json_store ds) s vs /\
    Forall (fun x => c_value x.2) vs /\
    (0 <= fst (json_obj_parse S b ds s) ->
       forall n, has_bit (fst (json_obj_parse S b ds s)) n = true <-> n ∈ vs.*1);
}.

(** The strings a parse yields are C strings. *)
Lemma store_strings p x : c_value x.2 -> post_strings p -> post_strings (json_store cfg_post_descr p x).
Proof.
  destruct x as [n v]. unfold json_store, post_strings. cbn [fst snd]. intros Hv (Ht & Hp & Hn).
  do 20 (destruct n as [|n]; [destruct v; by cbn|]). done.
Qed.
Lemma parsed_strings `{JsonParserLaws} b : post_strings (snd (parse_cfg_post b)).
Proof.
  destruct (json_stores cfg_post b cfg_post_descr zero_post) as (vs & E & Hvs & _).
  unfold parse_cfg_post. rewrite E. assert (post_strings zero_post) as Hz by repeat constructor.
  revert Hz. generalize zero_post. clear E. induction Hvs as [|x vs Hx _ IH]; intros p Hp; cbn [foldl]; [done|].
  by apply IH, store_strings.
Qed.

(** ** A configuration read and posted back *)

Lemma print_octet v : 0 <= v < 256 -> to_chars (print_arg ConvU (PInt v)) = show_octet v.
Proof.
  intros Hv.
  assert (forallb (fun n => bool_decide (to_chars (print_arg ConvU (PInt (Z.of_nat n))) = show_octet (Z.of_nat n)))
            (seq 0 256) = true) as Hall by (vm_compute; reflexivity).
  rewrite forallb_forall in Hall. specialize (Hall (Z.to_nat v)). rewrite Z2Nat.id in Hall by lia.
  apply bool_decide_eq_true in Hall; [done|]. apply in_seq. lia.
Qed.
Lemma show_octet_length v : (length (show_octet v) <= 3)%nat.
Proof. unfold show_octet. repeat case_match; cbn; lia. Qed.

Lemma octets ip : 0 <= ip < 2 ^ 32 ->
  Z.shiftr ip 24 = octet_of ip 3 /\ Z.land (Z.shiftr ip 16) 255 = octet_of ip 2 /\
  Z.land (Z.shiftr ip 8) 255 = octet_of ip 1 /\ Z.land ip 255 = octet_of ip 0.
Proof.
  intros Hip. unfold octet_of. change 255 with (Z.ones 8). rewrite !Z.land_ones by lia.
  change (2 ^ 8) with 256. cbn [Z.mul]. rewrite Z.shiftr_0_r. split; [|done].
  rewrite Z.mod_small; [done|]. rewrite Z.shiftr_div_pow2 by lia. change (8 * 3) with 24.
  split; [apply Z.div_pos; lia|]. apply Z.div_lt_upper_bound; lia.
Qed.

Lemma ip_str_show ip : 0 < ip < 2 ^ 32 -> ip_str ip = show_ipv4 ip.
Proof.
  intros Hip. unfold ip_str. destruct (Z.eqb_spec ip 0); [lia|].
  destruct (octets ip) as (-> & -> & -> & ->); [lia|].
  assert (forall i, 0 <= octet_of ip i < 256) as Ho.
  { intros i. apply Z.mod_pos_bound. lia. }
  assert (to_chars (format "%u.%u.%u.%u" [PInt (octet_of ip 3); PInt (octet_of ip 2); PInt (octet_of ip 1);
    PInt (octet_of ip 0)]) = show_ipv4 ip) as E.
  { assert (forall x y z t, print_tokens (tokens (q "%u.%u.%u.%u")) [x; y; z; t] =
        print_arg ConvU x +:+ "." +:+ print_arg ConvU y +:+ "." +:+ print_arg ConvU z +:+ "." +:+
        print_arg ConvU t) as Hf.
    { intros x y z t. rewrite <- (string_app_nil_r (print_arg ConvU t)). reflexivity. }
    unfold format. rewrite Hf, !to_chars_app. unfold show_ipv4.
    rewrite <- !print_octet by apply Ho. reflexivity. }
  unfold snprintf. cbn [snd]. rewrite substring_all; [done|].
  rewrite <- to_chars_length, E. unfold show_ipv4. rewrite !length_app.
  pose proof (show_octet_length (octet_of ip 3)). pose proof (show_octet_length (octet_of ip 2)).
  pose proof (show_octet_length (octet_of ip 1)). pose proof (show_octet_length (octet_of ip 0)).
  cbn [length]. lia.
Qed.

Lemma ip_str_parse ip : 0 <= ip < 2 ^ 32 -> parse_ip (ip_str ip) = Some ip.
Proof.
  intros Hip. destruct (Z.eq_dec ip 0) as [->|Hne]; [done|].
  rewrite ip_str_show by lia. unfold parse_ip.
  rewrite parse_show_ipv4 by done. unfold show_ipv4, show_octet. by repeat case_match.
Qed.

(** What a client posts to restore what it read: every field but the token and the
    password, which are never said. *)
Definition RESTORE : Z := 2 ^ 20 - 4.
Definition post_of (o : config_out) : cfg_post :=
  mk_cfg_post [] [] (o_interval o) (o_resolution o) (o_quality o) (o_hflip o) (o_vflip o) (o_flash o)
    (o_rotation o) (o_ip o) (o_netmask o) (o_gateway o) (o_dns o) (o_name o) (o_brightness o)
    (o_contrast o) (o_saturation o) (o_auto_exposure o) (o_auto_wb o) (o_auto_gain o).

Lemma posted_yes got n f c : has_bit got n = true -> posted got n f c = f c.
Proof. unfold posted. by intros ->. Qed.
Lemma posted_no got n f c : has_bit got n = false -> posted got n f c = Some c.
Proof. unfold posted. by intros ->. Qed.
Lemma CLAMP_id v lo hi : lo <= v <= hi -> CLAMP v lo hi = v.
Proof. unfold CLAMP. repeat case_match; to_prop; lia. Qed.
Lemma resolution_name r : 0 <= r < 6 ->
  cfg_resolution_find (to_chars (from_option r_name "" (cfg_resolutions !! Z.to_nat r))) = r.
Proof.
  intros Hr. assert (r = 0 \/ r = 1 \/ r = 2 \/ r = 3 \/ r = 4 \/ r = 5) as Hc by lia.
  destruct Hc as [-> | [-> | [-> | [-> | [-> | ->]]]]]; reflexivity.
Qed.

Lemma restore_fields s base : cfg_typed (the_cfg s) -> cfg_valid (the_cfg s) ->
  let c := the_cfg s in
  post_fields RESTORE (post_of (config_out_of s)) base =
  Some (c <| token := token base |> <| password := password base |>
          <| name := strcpy (name base) (cstring (name c)) |>).
Proof.
  intros (_ & _ & _ & Hiv & Hre & Hqu & Hro & Hip & Hnm & Hgw & Hdn & Hb & Hc & Hs)
    (_ & _ & Hname & _ & _ & _ & _ & Hre6 & Hq & Hr3 & _).
  destruct s as [[tk pw nm iv re qu hf vf fl ro a m g d br co sa ae aw ag] fp]. cbn in *.
  assert (resolution_ok : (cfg_resolution_find (to_chars (from_option r_name "" (cfg_resolutions !! Z.to_nat re)))) = re)
    by (apply resolution_name; lia).
  assert (rotation_ok : negb (Z.rem (ro * 90) 90 =? 0) || (ro * 90 <? 0) || (270 <? ro * 90) = false).
  { rewrite Z.rem_mul by lia. destruct (Z.ltb_spec (ro * 90) 0), (Z.ltb_spec 270 (ro * 90)); lia. }
  assert (re_ok : (re <? 0) = false) by (apply Z.ltb_ge; lia).
  assert (name_ok : (CFG_NAME_MAX <? length (cstring nm))%nat = false).
  { apply Nat.ltb_ge. unfold CFG_NAME_MAX. lia. }
  unfold post_fields. set (k := RESTORE). destruct base.
  repeat (first [rewrite posted_no by reflexivity | rewrite posted_yes by reflexivity];
    cbn -[k CLAMP cfg_resolution_find cfg_resolutions Z.rem Z.quot Z.mul parse_ip ip_str strcpy cstring u8
          Z.ltb Nat.ltb lookup Z.to_nat];
    rewrite ?resolution_ok, ?rotation_ok, ?re_ok, ?name_ok, ?ip_str_parse by done).
  rewrite !CLAMP_id, Z.quot_mul, !u8_small by lia. reflexivity.
Qed.

Section WebProperties.
Context `{Settings} `{!JsonEncoder} `{!CamStation} `{!Base64} `{!JsonParser} `{!JsonParserLaws}.
Context (cam_apply : cfg -> os -> Z * os).
Variable auth_size : nat.
Implicit Types (d : connect) (w : web).

(** Storing a configuration: refused or not saved, it changes nothing; stored, it is
    valid and the upload thread is told. *)
Lemma set_config_spec c d ret d' : set_config cam_apply c d = (ret, d') ->
  (ret <> 0 -> cfgs d' = cfgs d /\ kick d' = kick d /\ info_stale d' = info_stale d) /\
  (ret = 0 -> the_cfg (cfgs d') = c /\ cfg_valid c /\ kick d' = true /\ info_stale d' = true).
Proof.
  unfold set_config, cfg_set. assert (- EINVAL <> 0) as Hei by done.
  destruct (cfg_refused c) eqn:Er; [intros [= <- <-]; by split|].
  destruct (settings_save_one _ _ _) as [r o]. destruct (Z.eqb_spec r 0) as [->|Hne].
  - unfold cfg_changed. cbn. destruct (cam_apply c o) as [r1 o1]. intros [= <- <-]. cbn.
    split; [done|]. intros _. by apply cfg_refused_spec in Er.
  - intros [= <- <-]. by split.
Qed.

(** C31: Posting a configuration is all or nothing: on an error the configuration and
    the upload thread's flags are as they were; otherwise the new configuration is
    valid; every field but the quality is the one posted, or as before if it was not
    posted; a posted quality is taken as it is, or as 0 if it is negative; and the
    thread is kicked to tell the service.  What was posted is what [json_obj_parse]
    stores by [cfg_post_descr], a member's name deciding its field. *)
Theorem config_post_exact body d ret d' :
  apply_post cam_apply body d = (ret, d') ->
  (ret <> 0 -> the_cfg (cfgs d') = the_cfg (cfgs d) /\ kick d' = kick d /\ info_stale d' = info_stale d) /\
  (ret = 0 -> let '(got, p) := parse_cfg_post body in
     cfg_valid (the_cfg (cfgs d')) /\ post_result got p (the_cfg (cfgs d)) (the_cfg (cfgs d')) /\
     kick d' = true /\ info_stale d' = true).
Proof.
  pose proof (parsed_strings body) as Hst. unfold apply_post.
  destruct (parse_cfg_post body) as [got p]. cbn [snd] in Hst.
  destruct (got <? 0); [intros [= <- <-]; by split|].
  destruct (post_fields got p (the_cfg (cfgs d))) as [c|] eqn:Ef; [|intros [= <- <-]; by split].
  intros E. apply set_config_spec in E as [Hno Hyes]. split; [by intros Hr; destruct (Hno Hr) as (-> & -> & ->)|].
  intros Hr. destruct (Hyes Hr) as (-> & Hv & Hk & Hi). split; [done|]. split; [by apply post_fields_result|done].
Qed.

(** A configuration read from one camera and posted to another is accepted there,
    and gives it the same configuration, its own token and password kept: the
    printed addresses, the resolution's name and the rotation in degrees are all
    read back. *)
Theorem config_read_posts_back s body d ret d' :
  cfg_typed (the_cfg s) -> cfg_valid (the_cfg s) -> cfg_valid (the_cfg (cfgs d)) ->
  parse_cfg_post body = (RESTORE, post_of (config_out_of s)) ->
  apply_post cam_apply body d = (ret, d') ->
  let c := the_cfg (cfgs d) in
  let want := (the_cfg s) <| token := token c |> <| password := password c |> in
  exists c', view c' = view want /\
    ret = fst (settings_save_one "prusa/v1" (cfg_bytes c') (n_os (net d))) /\
    (ret = 0 -> the_cfg (cfgs d') = c').
Proof.
  intros Ht Hv Hd Hp Ha c want. unfold apply_post in Ha. rewrite Hp in Ha.
  rewrite restore_fields in Ha by done. cbn [Z.ltb] in Ha.
  change (RESTORE <? 0) with false in Ha. cbv iota in Ha. fold c in Ha.
  set (c' := _ <| name := _ |>) in Ha.
  assert (view c' = view want) as Hw.
  { unfold view, c', want. cbn. by rewrite cstring_strcpy by apply cstring_no_nul. }
  assert (cfg_valid want) as Hvw.
  { destruct Hv as (? & ? & ? & ? & ? & ? & ? & ? & ? & ? & ?), Hd as (? & ? & ? & ? & _).
    unfold cfg_valid, want. cbn. repeat (split; [assumption|]). assumption. }
  exists c'. split; [done|]. unfold set_config, cfg_set in Ha.
  rewrite (proj2 (cfg_refused_spec c') (valid_same_view _ _ (eq_sym Hw) Hvw)) in Ha.
  destruct (settings_save_one _ _ _) as [r o]. destruct (Z.eqb_spec r 0).
  - unfold cfg_changed in Ha. destruct (cam_apply _ _) as [r1 o1]. by injection Ha as <- <-.
  - by injection Ha as <- <-.
Qed.

(** ** Credentials *)

(** No header of the calls carries the admin's credentials. *)
Definition no_credentials (pw : cstr) (calls : list call) : Prop :=
  forall req hs n v, req ∈ calls -> wc_headers req = Some hs -> (n, v) ∈ hs ->
    strcaseeq n (to_chars "Authorization") = true ->
    pw <> [] -> http_basic_auth_ok (Some (take (auth_size - 1) v)) (Some USER) (Some pw) = false.

Definition route_of (res : web_resource) w : route :=
  match res with
  | INDEX => zero_route | CONFIG => config_route w | STATUS => status_route w
  | TEST_RES => test_route w | SNAPSHOT_RES => snapshot_route w
  end.
Fixpoint web_calls (res : web_resource) (calls : list call) w : list response * web :=
  match calls with
  | [] => ([], w)
  | req :: calls =>
      let '(rsp, w) := web_cb cam_apply auth_size res req w in
      let '(rsps, w) := web_calls res calls w in (rsp :: rsps, w)
  end.
(** A response that says only why it refuses. *)
Definition refusal (r : response) : Prop :=
  r = no_response \/ (ws_status r = 403 \/ ws_status r = 401) /\ exists s, ws_body r = Some (WText s).

(** A route that has seen no good credentials and is sending nothing. *)
Definition outside (pw : cstr) (r : route) : Prop :=
  (pw <> [] -> http_basic_auth_ok (Some (wr_auth r)) (Some USER) (Some pw) = false) /\
  cam_held r = false /\ exif_sent r = false.

Lemma capture_outside pw req r :
  (forall hs n v, wc_headers req = Some hs -> (n, v) ∈ hs -> strcaseeq n (to_chars "Authorization") = true ->
     pw <> [] -> http_basic_auth_ok (Some (take (auth_size - 1) v)) (Some USER) (Some pw) = false) ->
  outside pw r -> outside pw (capture auth_size req r).
Proof.
  intros Hh Hr. unfold capture.
  set (f := fun r '(n, v) => if strcaseeq n (to_chars "Authorization") then r <| wr_auth := take (auth_size - 1) v |> else r).
  assert (outside pw (foldl f r (default [] (wc_headers req)))) as Ho.
  { destruct (wc_headers req) as [hs|]; cbn; [|done]. specialize (Hh hs). revert r Hr.
    assert (forall n v, (n, v) ∈ hs -> strcaseeq n (to_chars "Authorization") = true -> pw <> [] ->
      http_basic_auth_ok (Some (take (auth_size - 1) v)) (Some USER) (Some pw) = false) as Hn by eauto.
    clear Hh. induction hs as [|[n v] hs IH]; intros r Hr; cbn; [done|].
    apply IH; [intros ? ? ?; apply Hn; by right|]. destruct (strcaseeq n _) eqn:E; [|done].
    destruct Hr as (_ & Hc & He). split; [|done]. cbn. intros Hpw. eapply Hn; [by left|done..]. }
  repeat case_match; exact Ho.
Qed.

Lemma zero_outside pw : outside pw zero_route.
Proof.
  split; [|done]. intros _. unfold http_basic_auth_ok. by destruct (length pw =? 0)%nat.
Qed.

Lemma guarded_outside req r d answer rsp r' d' :
  (forall hs n v, wc_headers req = Some hs -> (n, v) ∈ hs -> strcaseeq n (to_chars "Authorization") = true ->
     cstring (password (the_cfg (cfgs d))) <> [] ->
     http_basic_auth_ok (Some (take (auth_size - 1) v)) (Some USER) (Some (cstring (password (the_cfg (cfgs d))))) = false) ->
  outside (cstring (password (the_cfg (cfgs d)))) r ->
  guarded auth_size req r d answer = (rsp, r', d') ->
  outside (cstring (password (the_cfg (cfgs d)))) r' /\ d' = d /\ refusal rsp.
Proof.
  intros Hh Hr. pose proof (capture_outside _ _ _ Hh Hr) as Hc. unfold guarded.
  destruct (wc_status req); try (intros [= <- <- <-]; split; [done || apply zero_outside|split; [done|by left]]).
  unfold authorised. case_bool_decide as Ep.
  { intros [= <- <- <-]. split; [done|]. split; [done|]. right. split; [by left|]. by eexists. }
  rewrite (proj1 Hc) by done. intros [= <- <- <-]. split; [done|]. split; [done|]. right.
  split; [by right|]. by eexists.
Qed.

(** The page itself, the same for everyone. *)
Definition the_page : response := mk_response 0 GzipHdr (Some WPage) true.

Lemma index_public calls w rsps w' : web_calls INDEX calls w = (rsps, w') ->
  w' = w /\ Forall (fun r => r = no_response \/ r = the_page) rsps.
Proof.
  revert rsps. induction calls as [|req calls IH]; intros rsps Hc; cbn in Hc.
  { by injection Hc as <- <-. }
  destruct (web_calls INDEX calls w) as [rsps1 w2]. injection Hc as <- <-.
  destruct (IH _ eq_refl) as [-> Hf]. split; [done|]. constructor; [|done].
  unfold index_cb. destruct (wc_status req); (by left) || by right.
Qed.

(** C18: Without the password nothing but the page itself is served and nothing changes:
    in any sequence of callbacks of a resource, from a fresh transaction on, that
    brings no good credentials, the device stays as it is and every response is
    empty or a refusal - except that the index, which is public, answers with its one
    constant page, and touches no resource's state. *)
Theorem web_needs_password res calls w rsps w' :
  route_of res w = zero_route ->
  no_credentials (cstring (password (the_cfg (cfgs (dev w))))) calls ->
  web_calls res calls w = (rsps, w') ->
  dev w' = dev w /\
  (res <> INDEX -> Forall refusal rsps) /\
  (res = INDEX -> w' = w /\ Forall (fun r => r = no_response \/ r = the_page) rsps).
Proof.
  intros Hz Hno. assert (res = INDEX \/ res <> INDEX) as [->|Hres] by (destruct res; by (left + right)).
  { intros Hc. apply index_public in Hc as [-> ?]. done. }
  intros Hc. enough (dev w' = dev w /\ Forall refusal rsps) as [-> ?] by done. revert Hc.
  assert (outside (cstring (password (the_cfg (cfgs (dev w))))) (route_of res w)) as Ho.
  { rewrite Hz. apply zero_outside. }
  clear Hz. revert w rsps Hno Ho. induction calls as [|req calls IH]; intros w rsps Hno Ho Hc; cbn in Hc.
  { by injection Hc as <- <-. }
  destruct (web_cb cam_apply auth_size res req w) as [rsp w1] eqn:E1.
  destruct (web_calls res calls w1) as [rsps1 w2] eqn:E2. injection Hc as <- <-.
  assert (outside (cstring (password (the_cfg (cfgs (dev w))))) (route_of res w1) /\ dev w1 = dev w /\ refusal rsp)
    as (Ho1 & Hd1 & Hr).
  { assert (forall hs n v, wc_headers req = Some hs -> (n, v) ∈ hs -> strcaseeq n (to_chars "Authorization") = true ->
      cstring (password (the_cfg (cfgs (dev w)))) <> [] ->
      http_basic_auth_ok (Some (take (auth_size - 1) v)) (Some USER) (Some (cstring (password (the_cfg (cfgs (dev w)))))) = false) as Hh.
    { intros hs n v. apply Hno. by left. }
    destruct res; [done|..]; cbn [web_cb route_of] in E1, Ho |- *;
      [destruct (config_cb _ _ _ _ _) as [[r rt] d] eqn:Eg|destruct (status_cb _ _ _ _) as [[r rt] d] eqn:Eg
      |destruct (test_cb _ _ _ _) as [[r rt] d] eqn:Eg|destruct (snapshot_cb _ _ _ _) as [[r rt] d] eqn:Eg];
      injection E1 as <- <-; cbn [config_route status_route test_route snapshot_route dev update].
    1-3: by apply (guarded_outside _ _ _ _ _ _ _ Hh Ho Eg).
    unfold snapshot_cb in Eg. destruct (Ho) as (_ & Ho2 & Ho3). rewrite Ho2, Ho3 in Eg.
    destruct (wc_status req) eqn:Es; try exact (guarded_outside _ _ _ _ _ _ _ Hh Ho Eg);
      injection Eg as <- <- <-; (split; [apply zero_outside|split; [done|by left]]). }
  destruct (IH w1 rsps1) as [Hd2 Hf]; [..|done|].
  - rewrite Hd1. intros r hs n v Hr'. apply Hno. by right.
  - by rewrite Hd1.
  - split; [congruence|by constructor].
Qed.

(** ** A snapshot *)

(** The image as a viewer should show it: a rotated JPEG gets an Exif segment in
    place of its own start marker. *)
Definition upright (rotation : Z) (jpeg : list Z) : list Z :=
  if bool_decide (take 2 jpeg = [255; 216]) && (1 <=? rotation) && (rotation <=? 3)
  then exif_header (exif_orientation rotation) ++ drop 2 jpeg else jpeg.
Definition body_bytes (r : response) : list Z :=
  match ws_body r with Some (WBytes b) => b | _ => [] end.

(** The server's loop over a whole request: its parts, the last of them until a
    response is final, and the end of the transaction. *)
Definition snapshot_transaction (mores : list call) (fin again last : call) w : list response * web :=
  let '(_, w) := web_calls SNAPSHOT_RES mores w in
  let '(r1, w) := web_cb cam_apply auth_size SNAPSHOT_RES fin w in
  let '(rs, w) := if ws_final r1 then ([r1], w)
                  else let '(r2, w) := web_cb cam_apply auth_size SNAPSHOT_RES again w in ([r1; r2], w) in
  let '(_, w) := web_cb cam_apply auth_size SNAPSHOT_RES last w in
  (rs, w).

Lemma capture_plain req r :
  cam_held r = false -> exif_sent r = false ->
  cam_held (capture auth_size req r) = false /\ exif_sent (capture auth_size req r) = false.
Proof.
  intros Hc He.
  assert (no_held : forall hs r, cam_held r = false -> exif_sent r = false ->
    let r' := foldl (fun r '(n, v) => if strcaseeq n (to_chars "Authorization")
      then r <| wr_auth := take (auth_size - 1) v |> else r) r hs in
    cam_held r' = false /\ exif_sent r' = false).
  { induction hs as [|[n v] hs IH]; intros r0 H1' H2'; cbn; [done|].
    apply IH; by destruct (strcaseeq n _). }
  unfold capture. destruct (no_held (default [] (wc_headers req)) r Hc He) as [H1' H2'].
  by repeat case_match.
Qed.

(** What the parts of a request leave in its route, when none is the last. *)
Lemma mores_gather mores w :
  Forall (fun req => wc_status req = HTTP_SERVER_REQUEST_DATA_MORE) mores ->
  cam_held (snapshot_route w) = false -> exif_sent (snapshot_route w) = false ->
  snd (web_calls SNAPSHOT_RES mores w) =
    w <| snapshot_route := foldl (fun r req => capture auth_size req r) (snapshot_route w) mores |> /\
  exif_sent (foldl (fun r req => capture auth_size req r) (snapshot_route w) mores) = false.
Proof.
  intros Hm. revert w. induction Hm as [|req mores Hs _ IH]; intros w Hc He; cbn [web_calls foldl].
  - destruct w. by split.
  - unfold web_cb at 1, snapshot_cb. rewrite Hs, He. unfold guarded. rewrite Hs.
    destruct (capture_plain req _ Hc He) as [Hc1 He1].
    set (w1 := w <| snapshot_route := capture auth_size req (snapshot_route w) |> <| dev := dev w |>).
    destruct (IH w1 Hc1 He1) as [IH1 IH2].
    destruct (web_calls SNAPSHOT_RES mores w1) as [rs w2]. cbn in IH1 |- *. rewrite IH1. by destruct w.
Qed.

Lemma exif_wanted_upright jpeg rot : 0 <= rot ->
  upright rot jpeg = if exif_wanted jpeg rot then exif_header (exif_orientation rot) ++ drop 2 jpeg else jpeg.
Proof.
  intros Hr. unfold upright. replace (exif_wanted jpeg rot) with
    (bool_decide (take 2 jpeg = [255; 216]) && (1 <=? rot) && (rot <=? 3)); [done|].
  unfold exif_wanted, byte_at.
  destruct (Z.eqb_spec rot 0), (Z.ltb_spec rot 4), (Z.leb_spec 1 rot), (Z.leb_spec rot 3); try lia;
    rewrite ?andb_false_r; try done; cbn [negb andb]; rewrite !andb_true_r.
  destruct jpeg as [|b0 [|b1 rest]]; [by case_bool_decide..|].
  cbn -[Z.eqb bool_decide].
  destruct (Z.eqb_spec b0 255), (Z.eqb_spec b1 216); cbn [andb]; case_bool_decide; try congruence; by simplify_eq.
Qed.

(** A snapshot is served whole: whatever parts the request came in, the bytes sent
    are one frame of the camera, made upright for the configured rotation; the
    frame is handed back exactly once, and nothing of the request stays. *)
Theorem snapshot_served_whole mores fin again last w ret jpeg o :
  snapshot_route w = zero_route ->
  Forall (fun req => wc_status req = HTTP_SERVER_REQUEST_DATA_MORE) mores ->
  wc_status fin = HTTP_SERVER_REQUEST_DATA_FINAL -> wc_status again = HTTP_SERVER_REQUEST_DATA_FINAL ->
  (wc_status last = HTTP_SERVER_TRANSACTION_COMPLETE \/ wc_status last = HTTP_SERVER_TRANSACTION_ABORTED) ->
  authorised (foldl (fun r req => capture auth_size req r) zero_route (mores ++ [fin]))
    (the_cfg (cfgs (dev w))) = None ->
  cam_snapshot (n_os (net (dev w))) = ((ret, jpeg), o) -> 0 <= ret ->
  0 <= rotation (the_cfg (cfgs (dev w))) ->
  exists rs, snapshot_transaction mores fin again last w =
    (rs, w <| dev := (dev w) <| net := (net (dev w)) <| n_os := cam_release o |> |> |>) /\
  List.concat (map body_bytes rs) = upright (rotation (the_cfg (cfgs (dev w)))) jpeg.
Proof.
  intros Hz Hm Hf Ha Hl Hau Hs Hret Hrot. unfold snapshot_transaction.
  destruct (mores_gather mores w Hm) as [Hg He]; [by rewrite Hz..|]. rewrite Hz in Hg, He.
  rewrite foldl_app in Hau. cbn [foldl] in Hau.
  set (r0 := foldl (fun r req => capture auth_size req r) zero_route mores) in *.
  destruct (web_calls SNAPSHOT_RES mores w) as [rs0 w1]. cbn [snd] in Hg. subst w1.
  rewrite exif_wanted_upright by done.
  unfold web_cb at 1, snapshot_cb. rewrite Hf. cbn [snapshot_route dev update]. rewrite He.
  unfold guarded. rewrite Hf, Hau, Hs. destruct (Z.ltb_spec ret 0); [lia|]. cbn [cfgs update].
  destruct w as [cr sr tr nr d]. cbn in Hz |- *. subst nr.
  destruct (exif_wanted jpeg (rotation (the_cfg (cfgs d)))); cbn -[exif_header exif_orientation drop].
  - unfold snapshot_cb at 1. rewrite Ha. cbn -[exif_header exif_orientation drop].
    unfold snapshot_cb. destruct Hl as [-> | ->]; cbn -[exif_header exif_orientation drop];
      (eexists; split; [reflexivity|]); cbn -[exif_header exif_orientation drop]; by rewrite app_nil_r.
  - unfold snapshot_cb. destruct Hl as [-> | ->]; cbn;
      (eexists; split; [reflexivity|]); cbn; by rewrite app_nil_r.
Qed.
End WebProperties.

(** * Instances for the witnesses *)

(** Two bodies: one that restores what [cam_set] left, and one that asks for a new
    interval and rotation, a negative quality and a static address. *)
Definition sample_members : list (nat * jval) :=
  [(2%nat, JNum 600); (4%nat, JNum (-5)); (8%nat, JNum 90); (9%nat, JStr (to_chars "10.0.0.7"));
   (10%nat, JStr (to_chars "255.255.255.0")); (11%nat, JStr (to_chars "10.0.0.1"))].
Definition restore_body : list ascii := to_chars "restore".
Definition restore_members (o : config_out) : list (nat * jval) :=
  [(2%nat, JNum (o_interval o)); (3%nat, JStr (o_resolution o)); (4%nat, JNum (o_quality o)); (5%nat, JBool (o_hflip o));
   (6%nat, JBool (o_vflip o)); (7%nat, JBool (o_flash o)); (8%nat, JNum (o_rotation o)); (9%nat, JStr (o_ip o));
   (10%nat, JStr (o_netmask o)); (11%nat, JStr (o_gateway o)); (12%nat, JStr (o_dns o)); (13%nat, JStr (o_name o));
   (14%nat, JNum (o_brightness o)); (15%nat, JNum (o_contrast o)); (16%nat, JNum (o_saturation o)); (17%nat, JBool (o_auto_exposure o));
   (18%nat, JBool (o_auto_wb o)); (19%nat, JBool (o_auto_gain o))].
Definition sim_members (b : list ascii) : list (nat * jval) :=
  if bool_decide (b = restore_body) then restore_members (config_out_of (snd (fst cam_set)))
  else sample_members.
Definition places (vs : list (nat * jval)) : Z := foldl (fun m x => Z.lor m (BIT x.1)) 0 vs.
#[export] Instance sim_post : JsonParser := {|
  json_obj_parse S b ds s := (places (sim_members b), foldl (json_store ds) s (sim_members b));
|}.
Lemma places_bits vs m n :
  has_bit (foldl (fun m x => Z.lor m (BIT (@fst nat jval x))) m vs) n = true <->
  has_bit m n = true \/ n ∈ vs.*1.
Proof.
  revert m. induction vs as [|x vs IH]; intros m; cbn [foldl fmap list_fmap].
  { split; [by left|]. intros [|Hn]; [done|]. by apply elem_of_nil in Hn. }
  rewrite IH, has_bit_lor, orb_true_iff, bool_decide_eq_true, elem_of_cons. intuition congruence.
Qed.
#[export] Instance sim_post_laws : JsonParserLaws.
Proof.
  split. intros S b ds s. exists (sim_members b). split; [done|]. split.
  - unfold sim_members. case_bool_decide.
    + unfold restore_members, config_out_of. cbn [o_resolution o_ip o_netmask o_gateway o_dns o_name].
      repeat (apply List.Forall_cons; [vm_compute; repeat constructor; discriminate|]). apply List.Forall_nil.
    + unfold sample_members. repeat (apply List.Forall_cons; [vm_compute; repeat constructor; discriminate|]).
      apply List.Forall_nil.
  - intros _ n. cbn [fst json_obj_parse sim_post]. unfold places. rewrite places_bits.
    unfold has_bit. rewrite Z.land_0_l. intuition discriminate.
Qed.
Definition sim_apply (c : cfg) (o : sim) : Z * sim := (0, o).

Lemma sample_posted : exists d', apply_post (H := sim_os) sim_apply [] cam_start = (0, d').
Proof. eexists. vm_compute. reflexivity. Qed.
Lemma config_post_exact_witness : exists d',
  apply_post (H := sim_os) sim_apply [] cam_start = (0, d') /\
  quality (the_cfg (cfgs d')) = 0 /\ kick d' = true.
Proof.
  destruct sample_posted as [d' E]. exists d'. split; [exact E|].
  destruct (config_post_exact _ _ _ _ _ E) as [_ H]. destruct (H eq_refl) as (_ & Hp & Hk & _).
  split; [|exact Hk]. destruct Hp as (_ & _ & _ & _ & Hq & _). rewrite Hq. vm_compute. reflexivity.
Defined.

(** The camera after its first boot takes the configuration of [cam_set]. *)
Definition fresh_cam : connect :=
  connect_start (snd (fst cam_first_boot)) sample_camera (mk_network (snd cam_first_boot) []).
Lemma fresh_facts : cfg_typed (the_cfg (snd (fst cam_set))) /\ cfg_valid (the_cfg (snd (fst cam_set))) /\
  cfg_valid (the_cfg (cfgs fresh_cam)) /\
  parse_cfg_post restore_body = (RESTORE, post_of (config_out_of (snd (fst cam_set)))) /\
  exists d', apply_post (H := sim_os) sim_apply restore_body fresh_cam = (0, d').
Proof.
  split. { repeat split; vm_compute; (reflexivity || discriminate). }
  split; [apply cfg_refused_spec; vm_compute; reflexivity|].
  split; [apply cfg_refused_spec; vm_compute; reflexivity|].
  split; [reflexivity|]. eexists. vm_compute. reflexivity.
Qed.
Lemma config_read_posts_back_witness : exists d' c',
  apply_post (H := sim_os) sim_apply restore_body fresh_cam = (0, d') /\ the_cfg (cfgs d') = c' /\
  view c' = view ((the_cfg (snd (fst cam_set))) <| token := token (the_cfg (cfgs fresh_cam)) |>
                    <| password := password (the_cfg (cfgs fresh_cam)) |>).
Proof.
  destruct fresh_facts as (Ht & Hv & Hd & Hp & d' & E).
  destruct (config_read_posts_back _ _ _ _ _ _ Ht Hv Hd Hp E) as (c' & Hw & _ & Hc).
  exists d', c'. split; [exact E|]. split; [exact (Hc eq_refl)|exact Hw].
Defined.

(** The sample camera with a password, and callbacks with and without it. *)
Definition protected_cam : connect :=
  cam_start <| cfgs ::= fun s => s <| the_cfg ::= fun c =>
    c <| password := char_array 33 (to_chars "hunter22") |> <| rotation := 1 |> |> |>.
Definition sample_web : web (H := sim_os) := mk_web zero_route zero_route zero_route zero_route protected_cam.
Definition get_call (st : http_transaction_status) (auth : option string) : call :=
  mk_call st false ((fun a => [(to_chars "authorization", to_chars a)]) <$> auth) [].
Definition guesses : list call :=
  [get_call HTTP_SERVER_REQUEST_DATA_MORE (Some "Basic YWRtaW46Z3Vlc3M="); get_call HTTP_SERVER_REQUEST_DATA_FINAL None;
   get_call HTTP_SERVER_TRANSACTION_COMPLETE None]%string.
Lemma guesses_fail : no_credentials 128 (cstring (password (the_cfg (cfgs (dev sample_web))))) guesses.
Proof.
  intros req hs n v Hin Hh Hn _ _. unfold guesses in Hin. rewrite !elem_of_cons in Hin.
  destruct Hin as [-> | [-> | [-> | Hin]]]; [|discriminate Hh|discriminate Hh|by apply elem_of_nil in Hin].
  injection Hh as <-. apply list_elem_of_singleton in Hn. injection Hn as -> ->. vm_compute. reflexivity.
Qed.
Lemma web_needs_password_witness : exists rsps w',
  web_calls (H := sim_os) sim_apply 128 SNAPSHOT_RES guesses sample_web = (rsps, w') /\ dev w' = dev sample_web.
Proof.
  destruct (web_calls (H := sim_os) sim_apply 128 SNAPSHOT_RES guesses sample_web) as [rsps w'] eqn:E.
  exists rsps, w'. split; [reflexivity|].
  assert (route_of SNAPSHOT_RES sample_web = zero_route) as Hz by reflexivity.
  exact (proj1 (web_needs_password _ _ _ _ _ _ _ Hz guesses_fail E)).
Defined.

Definition admin_call (st : http_transaction_status) : call :=
  get_call st (Some "Basic YWRtaW46aHVudGVyMjI="%string).
Lemma admin_facts :
  authorised (foldl (fun r req => capture 128 req r) zero_route ([] ++ [admin_call HTTP_SERVER_REQUEST_DATA_FINAL]))
    (the_cfg (cfgs (dev sample_web))) = None /\
  rotation (the_cfg (cfgs (dev sample_web))) = 1.
Proof. vm_compute. split; reflexivity. Qed.
Lemma snapshot_served_whole_witness : exists rs w',
  snapshot_transaction (H := sim_os) sim_apply 128 [] (admin_call HTTP_SERVER_REQUEST_DATA_FINAL)
    (get_call HTTP_SERVER_REQUEST_DATA_FINAL None) (get_call HTTP_SERVER_TRANSACTION_COMPLETE None) sample_web = (rs, w') /\
  List.concat (map body_bytes rs) = upright 1 [255; 216; 1; 2; 3; 255; 217].
Proof.
  destruct admin_facts as [Ha Hr].
  destruct (@snapshot_served_whole sim_os sim_settings sim_encoder sim_station sim_base64 sim_post sim_apply 128 []
    (admin_call HTTP_SERVER_REQUEST_DATA_FINAL) (get_call HTTP_SERVER_REQUEST_DATA_FINAL None)
    (get_call HTTP_SERVER_TRANSACTION_COMPLETE None) sample_web 0 [255; 216; 1; 2; 3; 255; 217]
    (n_os (net (dev sample_web))) eq_refl (List.Forall_nil _) eq_refl eq_refl (or_introl eq_refl) Ha eq_refl
    ltac:(lia) ltac:(rewrite Hr; lia)) as (rs & E & Hb).
  rewrite Hr in Hb. eexists rs, _. split; [exact E|exact Hb].
Defined.
