(* ===== verification/Services.v ===== *)
(** The services the applications share: [common/watchdog], [common/img_confirm],
    [common/reset_reason] and [common/build_id].

    Each has its Module.  Zephyr's task watchdog, MCUboot's image flags, the retained
    memory and the reset cause are classes, with the laws that state what their
    documentation promises. *)

From Stdlib Require Import Ascii.
From S2P Require Import Prelude Printf Platform Instances HttpUtil PrusaProto PrusaCfg.
#[local] Open Scope Z_scope.

(** * app_watchdog.c *)
Module Watchdog.

(** The task watchdog; [armed] is whether a channel is being watched. *)
Class TaskWdt `{Os} := {
  hw_device : os -> option bool;     (* the watchdog0 alias, and whether it is ready *)
  task_wdt_init : bool -> os -> Z * os;
  task_wdt_add : Z -> string -> os -> Z * os;
  task_wdt_delete : Z -> os -> os;
  task_wdt_feed : Z -> os -> os;
  armed : os -> Z -> bool;
}.
Class TaskWdtLaws `{TaskWdt} : Prop := {
  add_arms : forall ms n o ch o', task_wdt_add ms n o = (ch, o') -> 0 <= ch -> armed o' ch = true;
  delete_disarms : forall ch o k, armed (task_wdt_delete ch o) k = if k =? ch then false else armed o k;
}.

Section Watchdog.
Context `{TaskWdt}.

(** The result, [wdt_ready], and whether the hardware backs it. *)
Definition app_watchdog_init (wdt_ready : bool) (o : os) : Z * bool * os :=
  let hw := match hw_device o with Some true => true | _ => false end in
  let '(ret, o) := task_wdt_init hw o in
  let '(ret, o) := if negb (ret =? 0) && hw then task_wdt_init false o else (ret, o) in
  if negb (ret =? 0) then (ret, wdt_ready, o) else (0, true, o).

Definition app_watchdog_register (wdt_ready : bool) (name : string) (timeout_ms : Z) (o : os) : Z * os :=
  if negb wdt_ready then (- EBUSY, o) else task_wdt_add timeout_ms name o.
Definition app_watchdog_unregister (wdt_ready : bool) (channel : Z) (o : os) : os :=
  if wdt_ready && (0 <=? channel) then task_wdt_delete channel o else o.
Definition app_watchdog_feed (wdt_ready : bool) (channel : Z) (o : os) : os :=
  if wdt_ready && (0 <=? channel) then task_wdt_feed channel o else o.
End Watchdog.
End Watchdog.

(** * app_img_confirm.c *)
Module ImgConfirm.
Import Watchdog.

(** MCUboot's flag of the running image, which a successful write sets for good. *)
Class Mcuboot `{Os} := {
  boot_is_img_confirmed : os -> bool;
  boot_write_img_confirmed : os -> Z * os;
}.
Class McubootLaws `{TaskWdt} `{!Mcuboot} : Prop := {
  write_confirms : forall o o', boot_write_img_confirmed o = (0, o') -> boot_is_img_confirmed o' = true;
  write_keeps_armed : forall o r o' k, boot_write_img_confirmed o = (r, o') -> armed o' k = armed o k;
  write_keeps_confirmed : forall o r o', boot_write_img_confirmed o = (r, o') ->
    boot_is_img_confirmed o = true -> boot_is_img_confirmed o' = true;
  add_keeps_confirmed : forall ms n o, boot_is_img_confirmed (snd (task_wdt_add ms n o)) = boot_is_img_confirmed o;
  delete_keeps_confirmed : forall ch o, boot_is_img_confirmed (task_wdt_delete ch o) = boot_is_img_confirmed o;
}.

(** A thread in [app_img_confirm]: outside; past the compare-and-swap; with the
    result of the write. *)
Inductive caller := Outside | Writing | Wrote (ret : Z).

Section ImgConfirm.
Context `{TaskWdt} `{!Mcuboot}.
(** CONFIG_APP_IMG_CONFIRM_TIMEOUT_MS *)
Variable timeout_ms : Z.

(** The statics, the watchdog's readiness, and every thread that calls. *)
Record img := mk_img {
  confirmed : bool; wdt_channel : Z; wdt_ready : bool; callers : list caller; i_os : os;
}.
#[export] Instance eta_img : Eta img := fun s =>
  mk_img (confirmed s) (wdt_channel s) (wdt_ready s) (callers s) (i_os s).

Definition app_img_confirm_arm (s : img) : img :=
  if boot_is_img_confirmed (i_os s) then s <| confirmed := true |>
  else
    let '(ch, o) := app_watchdog_register (wdt_ready s) "img_confirm" timeout_ms (i_os s) in
    s <| wdt_channel := ch |> <| i_os := o |>.

(** Thread [i]'s next step in [app_img_confirm]. *)
Definition confirm_step (i : nat) (s : img) : img :=
  match callers s !! i with
  | None => s
  | Some Outside => if confirmed s then s else s <| confirmed := true |> <| callers ::= <[i := Writing]> |>
  | Some Writing =>
      let '(ret, o) := boot_write_img_confirmed (i_os s) in
      s <| i_os := o |> <| callers ::= <[i := Wrote ret]> |>
  | Some (Wrote ret) =>
      let s := s <| callers ::= <[i := Outside]> |> in
      if negb (ret =? 0) then s <| confirmed := false |>
      else s <| i_os ::= app_watchdog_unregister (wdt_ready s) (wdt_channel s) |>
  end.
Definition confirm_run (steps : list nat) (s : img) : img := foldl (fun s i => confirm_step i s) s steps.
End ImgConfirm.

Section ImgConfirmProperties.
Context `{TaskWdtLaws} `{!Mcuboot} `{!McubootLaws}.
Variable timeout_ms : Z.

Definition busy (c : caller) : Prop := c <> Outside.
(** One thread at most is past the compare-and-swap, and only with the flag set; a
    set flag with nobody there means the image is confirmed; and until it is, the
    deadline stands. *)
Definition guarded_trial (s : img) : Prop :=
  (forall i j a b, callers s !! i = Some a -> callers s !! j = Some b -> busy a -> busy b -> i = j) /\
  (confirmed s = false -> Forall (fun c => c = Outside) (callers s)) /\
  (confirmed s = true -> Forall (fun c => c = Outside) (callers s) -> boot_is_img_confirmed (i_os s) = true) /\
  (forall i, callers s !! i = Some (Wrote 0) -> boot_is_img_confirmed (i_os s) = true) /\
  (armed (i_os s) (wdt_channel s) = true \/ boot_is_img_confirmed (i_os s) = true).

Lemma outside_all (l : list caller) : Forall (fun c => c = Outside) l -> forall i c, l !! i = Some c -> c = Outside.
Proof. intros Hf i c Hc. by eapply Forall_lookup_1 in Hf. Qed.

Lemma others_outside (l : list caller) i c : l !! i = Some c -> busy c ->
  (forall j k a b, l !! j = Some a -> l !! k = Some b -> busy a -> busy b -> j = k) ->
  forall j, j <> i -> forall b, l !! j = Some b -> b = Outside.
Proof.
  intros Hi Hb Hu j Hj b Hl. destruct b; [done| |]; exfalso; apply Hj; eapply Hu; eauto; done.
Qed.

Lemma busy_one (l : list caller) i c : (forall j, j <> i -> forall b, l !! j = Some b -> b = Outside) ->
  forall j k a b, <[i := c]> l !! j = Some a -> <[i := c]> l !! k = Some b -> busy a -> busy b -> j = k.
Proof.
  intros Ho j k a b Hj Hk Ha Hb.
  destruct (decide (j = i)) as [->|Hji], (decide (k = i)) as [->|Hki]; try done.
  - rewrite list_lookup_insert_ne in Hk by done. by apply Ho in Hk.
  - rewrite list_lookup_insert_ne in Hj by done. by apply Ho in Hj.
  - rewrite list_lookup_insert_ne in Hj by done. by apply Ho in Hj.
Qed.

Lemma insert_outside (l : list caller) i : (forall j, j <> i -> forall b, l !! j = Some b -> b = Outside) ->
  Forall (fun c => c = Outside) (<[i := Outside]> l).
Proof.
  intros Ho. apply Forall_lookup_2. intros j b Hj. destruct (decide (j = i)) as [->|Hne].
  - apply list_lookup_insert_Some in Hj. naive_solver.
  - rewrite list_lookup_insert_ne in Hj by done. by eapply Ho.
Qed.

Lemma confirm_step_guarded i s : 0 <= wdt_channel s -> guarded_trial s -> guarded_trial (confirm_step i s).
Proof.
  intros Hch (Hu & Hf & Ht & Hw & Ha). unfold confirm_step.
  destruct (callers s !! i) as [c|] eqn:Ei; [|by repeat split].
  pose proof (lookup_lt_Some _ _ _ Ei) as Hlt. destruct c as [| |ret].
  - destruct (confirmed s) eqn:Ec; [by repeat split; rewrite ?Ec|].
    pose proof (outside_all _ (Hf eq_refl)) as Hall. unfold guarded_trial. cbn.
    split; [apply busy_one; eauto|]. split; [done|]. split.
    { intros _ Hnone. apply outside_all with (i := i) (c := Writing) in Hnone; [done|].
      by apply list_lookup_insert_eq. }
    split; [|done]. intros j Hj. destruct (decide (j = i)) as [->|Hne].
    + by rewrite list_lookup_insert_eq in Hj.
    + rewrite list_lookup_insert_ne in Hj by done. by apply Hall in Hj.
  - pose proof (others_outside _ _ _ Ei (fun e => ltac:(discriminate e)) Hu) as Hoth.
    assert (confirmed s = true) as Ec.
    { destruct (confirmed s); [done|]. by pose proof (outside_all _ (Hf eq_refl) _ _ Ei). }
    destruct (boot_write_img_confirmed (i_os s)) as [ret o] eqn:Eo. unfold guarded_trial. cbn. rewrite Ec.
    split; [by apply busy_one|]. split; [done|]. split.
    { intros _ Hnone. apply outside_all with (i := i) (c := Wrote ret) in Hnone; [done|].
      by apply list_lookup_insert_eq. }
    split.
    + intros j Hj. destruct (decide (j = i)) as [->|Hne].
      * rewrite list_lookup_insert_eq in Hj by done. injection Hj as ->. by eapply write_confirms.
      * rewrite list_lookup_insert_ne in Hj by done. by apply Hoth in Hj.
    + rewrite (write_keeps_armed _ _ _ _ Eo). destruct Ha as [|Hc]; [by left|].
      right. by eapply write_keeps_confirmed.
  - pose proof (others_outside _ _ _ Ei (fun e => ltac:(discriminate e)) Hu) as Hoth.
    pose proof (insert_outside _ _ Hoth) as Hout.
    assert (forall j, <[i := Outside]> (callers s) !! j <> Some (Wrote 0)) as Hno.
    { intros j Hj. by pose proof (outside_all _ Hout _ _ Hj). }
    assert (forall j k a b, <[i:=Outside]> (callers s) !! j = Some a -> <[i:=Outside]> (callers s) !! k = Some b ->
      busy a -> busy b -> j = k) as Hu' by (by apply busy_one).
    destruct (Z.eqb_spec ret 0) as [->|Hne]; unfold guarded_trial; cbn.
    + assert (boot_is_img_confirmed (app_watchdog_unregister (wdt_ready s) (wdt_channel s) (i_os s)) = true) as Hc.
      { unfold app_watchdog_unregister. destruct (_ && _); rewrite ?delete_keeps_confirmed; by eapply Hw. }
      split; [done|]. split; [done|]. split; [done|]. split; [|by right]. done.
    + split; [done|]. split; [done|]. split; [done|]. split; [|done].
      intros j Hj. by destruct (Hno j).
Qed.

(** C20: A new image's trial: whatever threads report it healthy, in any interleaving,
    the deadline that reverts it stands until MCUboot has recorded the
    confirmation; one thread at a time writes it; and a failed write leaves the
    next report free to try again. *)
Theorem trial_guarded steps s0 :
  boot_is_img_confirmed (i_os s0) = false -> confirmed s0 = false ->
  Forall (fun c => c = Outside) (callers s0) ->
  let s := app_img_confirm_arm timeout_ms s0 in
  0 <= wdt_channel s ->
  let s' := confirm_run steps s in
  (armed (i_os s') (wdt_channel s') = true \/ boot_is_img_confirmed (i_os s') = true) /\
  (confirmed s' = true -> Forall (fun c => c = Outside) (callers s') -> boot_is_img_confirmed (i_os s') = true).
Proof.
  intros Hb Hc Ho s Hch.
  assert (guarded_trial s) as Hg.
  { unfold s, app_img_confirm_arm in *. rewrite Hb in *.
    destruct (app_watchdog_register (wdt_ready s0) "img_confirm" timeout_ms (i_os s0)) as [ch o] eqn:Er.
    cbn in Hch. unfold guarded_trial. cbn. rewrite Hc.
    split. { intros i j a b Hi _ Ha. by pose proof (outside_all _ Ho _ _ Hi). }
    split; [done|]. split; [done|]. split.
    { intros i Hi. by pose proof (outside_all _ Ho _ _ Hi). }
    left. unfold app_watchdog_register in Er. destruct (wdt_ready s0); cbn in Er; [|simplify_eq; by unfold EBUSY in Hch].
    by eapply add_arms. }
  assert (0 <= wdt_channel (confirm_run steps s) /\ guarded_trial (confirm_run steps s)) as [_ Hg'].
  { unfold confirm_run. clear Hb Hc Ho. clearbody s. revert s Hch Hg. induction steps as [|i steps IH]; intros s Hch Hg; [done|].
    apply IH; [|by apply confirm_step_guarded]. unfold confirm_step.
    destruct (callers s !! i) as [[| |ret]|]; [..|done].
    - by destruct (confirmed s).
    - by destruct (boot_write_img_confirmed _).
    - by destruct (ret =? 0). }
  destruct Hg' as (_ & _ & Ht & _ & Ha). done.
Qed.
End ImgConfirmProperties.
End ImgConfirm.

(** * app_reset_reason.c *)
Module ResetReason.

Definition RR_VERSION : Z := 1.
Definition RR_NONE : Z := 0.
Definition RR_WATCHDOG : Z := 1.
Definition RR_FATAL : Z := 2.
Definition NAME_SIZE : nat := 16.

Record rr_record := mk_rr {
  version : Z; mark : Z; rr_channel : Z; rec_crashes : Z; fatal_reason : Z; wdt_name : list Z;
}.
Definition rr_sizeof : nat := 24.
Definition rr_bytes (r : rr_record) : list Z :=
  [u8 (version r); u8 (mark r); u8 (rr_channel r); 0] ++ le_bytes 2 (rec_crashes r) ++
  le_bytes 2 (fatal_reason r) ++ wdt_name r.
Definition rr_of_bytes (b : list Z) : rr_record :=
  mk_rr (byte_at b 0) (byte_at b 1) (byte_at b 2) (word_at b 4 2) (word_at b 6 2) (take NAME_SIZE (drop 8 b)).

(** hwinfo's causes the sources name, the retained area, and a stored coredump. *)
Class ResetHw `{Os} := {
  RESET_POR : Z; RESET_PIN : Z; RESET_SOFTWARE : Z; RESET_LOW_POWER_WAKE : Z;
  hwinfo_get_reset_cause : os -> (Z * Z) * os;
  hwinfo_clear_reset_cause : os -> os;
  area_ready : os -> bool;
  retention_is_valid : os -> Z;
  retention_read : nat -> os -> Z * list Z;
  retention_write : list Z -> os -> os;
  stored_dump : os -> bool;
}.

(** What the boot logs about the last reset. *)
Inductive rr_report :=
| TaskWatchdog (name : cstr) (channel : Z) | FatalError (reason : Z) (dumped : bool)
| CauseUnknown | PowerOn | NotRequested (cause : Z) | RequestedReset (cause : Z).

Section ResetReason.
Context `{ResetHw}.

Definition RR_EXPECTED_CAUSES : Z :=
  Z.lor (Z.lor (Z.lor RESET_POR RESET_PIN) RESET_SOFTWARE) RESET_LOW_POWER_WAKE.

(** [crash_count] is the static. *)
Definition rr_write (crash_count mark channel reason : Z) (name : option cstr) (o : os) : os :=
  let n := match name with
           | Some s => let s := map char_code (take (NAME_SIZE - 1) s) in s ++ repeat 0 (NAME_SIZE - length s)
           | None => repeat 0 NAME_SIZE
           end in
  let rec := mk_rr RR_VERSION mark channel crash_count reason n in
  if area_ready o then retention_write (rr_bytes rec) o else o.

Definition app_reset_reason_watchdog (crash_count channel : Z) (name : cstr) (o : os) : os :=
  rr_write crash_count RR_WATCHDOG (u8 channel) 0 (Some name) o.
(** The fatal-error handler up to the reset or the halt. *)
Definition k_sys_fatal_error_handler (crash_count reason : Z) (o : os) : os :=
  rr_write crash_count RR_FATAL 0 (u16 reason) None o.

(** The stalled channel's expiry up to the reset: the record comes first. *)
Definition wdt_timeout_cb (crash_count channel : Z) (user_data : cstr) (o : os) : os :=
  app_reset_reason_watchdog crash_count channel user_data o.

Definition c_name (b : list Z) : cstr :=
  cstring (map (fun z => ascii_of_nat (Z.to_nat z)) (take (NAME_SIZE - 1) b)).

(** The report, [crash_count] as this boot knows it, and the machine; [None] when
    the area is not ready. *)
Definition app_reset_reason_boot (o : os) : option rr_report * Z * os :=
  if negb (area_ready o) then (None, 0, o) else
  let '((ret, cause), o) := hwinfo_get_reset_cause o in
  let o := hwinfo_clear_reset_cause o in
  let '(rret, bytes) := retention_read rr_sizeof o in
  let rec := rr_of_bytes bytes in
  let kept := (Z.land cause RESET_POR =? 0) && (retention_is_valid o =? 1) && (rret =? 0) &&
              (version rec =? RR_VERSION) in
  let crash_count := if kept then rec_crashes rec else 0 in
  let mark := if kept then mark rec else RR_NONE in
  let '(report, crash_count) :=
    if mark =? RR_WATCHDOG then (TaskWatchdog (c_name (wdt_name rec)) (rr_channel rec), u16 (crash_count + 1))
    else if mark =? RR_FATAL then (FatalError (fatal_reason rec) (stored_dump o), u16 (crash_count + 1))
    else if (ret <? 0) || (cause =? 0) then (CauseUnknown, crash_count)
    else if negb (Z.land cause RESET_POR =? 0) then (PowerOn, crash_count)
    else if negb (Z.ldiff cause RR_EXPECTED_CAUSES =? 0) then (NotRequested cause, u16 (crash_count + 1))
    else (RequestedReset cause, crash_count) in
  (Some report, crash_count, rr_write crash_count RR_NONE 0 0 None o).
End ResetReason.

(** The area keeps what was last written to it until the power goes; reading the
    cause leaves it alone. *)
Class ResetHwLaws `{ResetHw} : Type := {
  retained : os -> option (list Z);
  write_retained : forall b o, retained (retention_write b o) = Some b;
  write_ready : forall b o, area_ready (retention_write b o) = area_ready o;
  valid_retained : forall o, retention_is_valid o = 1 <-> retained o <> None;
  read_retained : forall n o b, retained o = Some b -> retention_read n o = (0, take n b);
  cause_keeps : forall o, retained (hwinfo_clear_reset_cause (snd (hwinfo_get_reset_cause o))) = retained o;
  cause_ready : forall o, area_ready (hwinfo_clear_reset_cause (snd (hwinfo_get_reset_cause o))) = area_ready o;
}.

(** * Specification *)

(** How a boot can end: a stalled channel, a fault, a requested reset, one nobody
    asked for, and the power going; the last three leave no mark. *)
Inductive ending := Stall (channel : Z) (name : cstr) | Fault (reason : Z) | Asked | Sudden | PowerLoss.
#[export] Instance ending_eq_dec : EqDecision ending.
Proof. solve_decision. Defined.
Definition crash (e : ending) : bool :=
  match e with Stall _ _ | Fault _ | Sudden => true | Asked | PowerLoss => false end.
(** The endings since the power last went that were failures. *)
Fixpoint crashes (es : list ending) : Z :=
  match es with
  | [] => 0
  | PowerLoss :: _ => 0
  | e :: es => (if crash e then 1 else 0) + crashes es
  end.

Section ResetProperties.
Context `{ResetHwLaws}.

(** What an ending does to the machine before the reset. *)
Definition last_words (crash_count : Z) (e : ending) (o : os) : os :=
  match e with
  | Stall ch n => wdt_timeout_cb crash_count ch n o
  | Fault r => k_sys_fatal_error_handler crash_count r o
  | _ => o
  end.
(** What the hardware then reports: power-on for a loss of power, a cause that is
    expected for a requested reset, one that is not for a sudden one; a marked
    reset may report anything but power-on. *)
Definition cause_fits (e : ending) (ret cause : Z) : Prop :=
  match e with
  | PowerLoss => 0 <= ret /\ Z.land cause RESET_POR <> 0
  | Asked => 0 <= ret /\ cause <> 0 /\ Z.land cause RESET_POR = 0 /\ Z.ldiff cause RR_EXPECTED_CAUSES = 0
  | Sudden => 0 <= ret /\ cause <> 0 /\ Z.land cause RESET_POR = 0 /\ Z.ldiff cause RR_EXPECTED_CAUSES <> 0
  | Stall _ _ | Fault _ => Z.land cause RESET_POR = 0
  end.

(** Boots, the latest ending first: what each ended in, the report the boot after it
    made, and the count it now has. *)
Inductive boots : list ending -> option rr_report -> Z -> os -> Prop :=
| powered_on o ret cause o1 rep n o2 :
    area_ready o = true -> hwinfo_get_reset_cause o = ((ret, cause), o1) -> cause_fits PowerLoss ret cause ->
    app_reset_reason_boot o = (rep, n, o2) -> boots [PowerLoss] rep n o2
| came_back e es rep n o o1 ret cause o2 rep' n' o3 :
    boots es rep n o ->
    area_ready o1 = true ->
    (e <> PowerLoss -> retained o1 = retained (last_words n e o)) ->
    hwinfo_get_reset_cause o1 = ((ret, cause), o2) -> cause_fits e ret cause ->
    app_reset_reason_boot o1 = (rep', n', o3) -> boots (e :: es) rep' n' o3.

(** What a boot should say of the ending before it. *)
Definition report_fits (e : ending) (rep : option rr_report) : Prop :=
  match e with
  | Stall ch name => rep = Some (TaskWatchdog (take 15 name) (u8 ch))
  | Fault r => exists dumped, rep = Some (FatalError (u16 r) dumped)
  | Asked => exists cause, rep = Some (RequestedReset cause)
  | Sudden => exists cause, rep = Some (NotRequested cause)
  | PowerLoss => rep = Some PowerOn
  end.
Definition c_named (e : ending) : Prop := match e with Stall _ name => no_nul name | _ => True end.

Lemma rr_back r : 0 <= version r < 256 -> 0 <= mark r < 256 -> 0 <= rr_channel r < 256 ->
  0 <= rec_crashes r < 65536 -> 0 <= fatal_reason r < 65536 -> length (wdt_name r) = NAME_SIZE ->
  rr_of_bytes (take rr_sizeof (rr_bytes r)) = r.
Proof.
  intros Hv Hm Hc Hn Hf Hl. unfold rr_of_bytes.
  assert (take rr_sizeof (rr_bytes r) = rr_bytes r) as ->.
  { apply firstn_all2. unfold rr_bytes. rewrite !length_app, !length_le_bytes, Hl. reflexivity. }
  destruct r as [v m c n f nm]. cbn [version mark rr_channel rec_crashes fatal_reason wdt_name] in *.
  unfold rr_bytes. cbn [version mark rr_channel rec_crashes fatal_reason wdt_name].
  change (byte_at _ 0) with (u8 v). change (byte_at _ 1) with (u8 m). change (byte_at _ 2) with (u8 c).
  change (word_at _ 4 2) with (le_val (le_bytes 2 n)). change (word_at _ 6 2) with (le_val (le_bytes 2 f)).
  change (drop 8 _) with nm. rewrite firstn_all2 by (rewrite Hl; done).
  by rewrite !u8_small, !le_val_bytes_small by lia.
Qed.

(** What [rr_write] leaves. *)
Definition name_bytes (name : option cstr) : list Z :=
  match name with
  | Some s => let s := map char_code (take (NAME_SIZE - 1) s) in s ++ repeat 0 (NAME_SIZE - length s)
  | None => repeat 0 NAME_SIZE
  end.
Lemma name_bytes_length name : length (name_bytes name) = NAME_SIZE.
Proof.
  destruct name as [s|]; [|reflexivity]. unfold name_bytes.
  rewrite length_app, repeat_length, length_map, length_take. unfold NAME_SIZE. lia.
Qed.
Lemma rr_write_retained n m ch r name o : area_ready o = true ->
  retained (rr_write n m ch r name o) = Some (rr_bytes (mk_rr RR_VERSION m ch n r (name_bytes name))) /\
  area_ready (rr_write n m ch r name o) = true.
Proof.
  intros Ho. unfold rr_write. rewrite Ho. split; [apply write_retained|by rewrite write_ready].
Qed.

Lemma c_name_bytes name : no_nul name -> c_name (name_bytes (Some name)) = take 15 name.
Proof.
  intros Hn. unfold c_name, name_bytes. change (NAME_SIZE - 1)%nat with 15%nat.
  set (t := take 15 name). assert (length t <= 15)%nat as Ht by (unfold t; rewrite length_take; lia).
  assert (no_nul t) as Hnt by (by apply Forall_take).
  rewrite take_app_ge by (by rewrite length_map). rewrite length_map, map_app, chars_back.
  destruct (15 - length t)%nat eqn:E; cbn [take map].
  - assert (forall l, l = [] -> cstring (t ++ l) = t) as Hnil.
    { intros l ->. rewrite app_nil_r. clear -Hnt. induction Hnt as [|c s Hc _ IH]; [done|]. cbn.
      destruct (Ascii.eqb_spec c NUL); [done|]. by rewrite IH. }
    by apply Hnil.
  - change NAME_SIZE with 16%nat. replace (16 - length t)%nat with (S (S n)) by lia.
    cbn [repeat take map]. by apply cstring_app.
Qed.

(** A boot that finds a record: what it reports, counts and leaves. *)
Lemma boot_kept o m ch n r nm ret cause o1 :
  area_ready o = true -> retained o = Some (rr_bytes (mk_rr RR_VERSION m ch n r nm)) ->
  0 <= m < 256 -> 0 <= ch < 256 -> 0 <= n < 65536 -> 0 <= r < 65536 -> length nm = NAME_SIZE ->
  hwinfo_get_reset_cause o = ((ret, cause), o1) -> Z.land cause RESET_POR = 0 ->
  exists o2, retained o2 = retained o /\ area_ready o2 = true /\
  app_reset_reason_boot o =
    (let '(rep, n) :=
       if m =? RR_WATCHDOG then (TaskWatchdog (c_name nm) ch, u16 (n + 1))
       else if m =? RR_FATAL then (FatalError r (stored_dump o2), u16 (n + 1))
       else if (ret <? 0) || (cause =? 0) then (CauseUnknown, n)
       else if negb (Z.ldiff cause RR_EXPECTED_CAUSES =? 0) then (NotRequested cause, u16 (n + 1))
       else (RequestedReset cause, n) in
     (Some rep, n, rr_write n RR_NONE 0 0 None o2)).
Proof.
  intros Ho Hr Hm Hch Hn Hre Hnm Hc Hpor. unfold app_reset_reason_boot. rewrite Ho, Hc. cbn [negb].
  pose proof (cause_keeps o) as Hk. pose proof (cause_ready o) as Hrd. rewrite Hc in Hk, Hrd. cbn [snd] in Hk, Hrd.
  set (o2 := hwinfo_clear_reset_cause o1) in *. exists o2. split; [done|]. split; [congruence|].
  rewrite Hr in Hk. rewrite (read_retained _ _ _ Hk), rr_back by (cbn; (lia || done || (split; [done|]; lia))).
  assert (retention_is_valid o2 = 1) as Hv by (apply valid_retained; congruence).
  rewrite Hv, Hpor. cbn [version mark rr_channel rec_crashes fatal_reason wdt_name Z.eqb andb negb].
  reflexivity.
Qed.

(** Every boot leaves the count, and no mark, behind. *)
Definition left_behind (n : Z) (o : os) : Prop :=
  area_ready o = true /\ retained o = Some (rr_bytes (mk_rr RR_VERSION RR_NONE 0 n 0 (name_bytes None))).

Lemma boot_power o ret cause o1 rep n o2 :
  area_ready o = true -> hwinfo_get_reset_cause o = ((ret, cause), o1) -> cause_fits PowerLoss ret cause ->
  app_reset_reason_boot o = (rep, n, o2) -> rep = Some PowerOn /\ n = 0 /\ left_behind 0 o2.
Proof.
  intros Ho Hc [Hret Hpor]. unfold app_reset_reason_boot. rewrite Ho, Hc. cbn [negb].
  pose proof (cause_ready o) as Hrd. rewrite Hc in Hrd. cbn [snd] in Hrd.
  destruct (retention_read _ _) as [rret bytes].
  destruct (Z.eqb_spec (Z.land cause RESET_POR) 0); [done|]. cbn [andb].
  destruct (Z.ltb_spec ret 0); [lia|].
  destruct (Z.eqb_spec cause 0) as [->|]; [by rewrite Z.land_0_l in Hpor|]. cbn.
  intros [= <- <- <-]. split; [done|]. split; [done|].
  destruct (rr_write_retained 0 RR_NONE 0 0 None (hwinfo_clear_reset_cause o1)); [congruence|]. by split.
Qed.

Lemma boots_count es rep n o : boots es rep n o -> Forall c_named es ->
  n = u16 (crashes es) /\ left_behind n o /\ (forall e es', es = e :: es' -> report_fits e rep).
Proof.
  induction 1 as [o ret cause o1 rep n o2 Ho Hc Hf Hb|e es rep n o o1 ret cause o2 rep' n' o3 Hbs IH Ho1 Hkeep Hc Hf Hb];
    intros Hn.
  { destruct (boot_power _ _ _ _ _ _ _ Ho Hc Hf Hb) as (-> & -> & Hl).
    split; [done|]. split; [done|]. by intros e es' [= <- <-]. }
  apply Forall_cons_1 in Hn as [Hne Hns]. destruct (IH Hns) as (-> & [Ho Hleft] & _). clear IH.
  set (k := u16 (crashes es)) in *. assert (0 <= k < 65536) as Hk by apply u16_range.
  assert (forall a, u16 (k + a) = u16 (a + crashes es)) as Hadd.
  { intros a. unfold k, u16. rewrite Zplus_mod_idemp_l. f_equal. lia. }
  assert (forall e1 es1, e :: es = e1 :: es1 -> e1 = e) as Hhd by congruence.
  destruct (decide (e = PowerLoss)) as [->|Hnp].
  { destruct (boot_power _ _ _ _ _ _ _ Ho1 Hc Hf Hb) as (-> & -> & Hl).
    split; [done|]. split; [done|]. intros e' es' He. by rewrite (Hhd _ _ He). }
  specialize (Hkeep Hnp).
  assert (forall m ch r name, retained o1 = Some (rr_bytes (mk_rr RR_VERSION m ch k r (name_bytes name))) ->
    0 <= m < 256 -> 0 <= ch < 256 -> 0 <= r < 65536 -> Z.land cause RESET_POR = 0 -> exists o4, area_ready o4 = true /\
    app_reset_reason_boot o1 = (let '(rep, n) :=
       if m =? RR_WATCHDOG then (TaskWatchdog (c_name (name_bytes name)) ch, u16 (k + 1))
       else if m =? RR_FATAL then (FatalError r (stored_dump o4), u16 (k + 1))
       else if (ret <? 0) || (cause =? 0) then (CauseUnknown, k)
       else if negb (Z.ldiff cause RR_EXPECTED_CAUSES =? 0) then (NotRequested cause, u16 (k + 1))
       else (RequestedReset cause, k) in (Some rep, n, rr_write n RR_NONE 0 0 None o4))) as Hboot.
  { intros m ch r name Hret Hm Hch Hr Hpor.
    destruct (boot_kept o1 m ch k r (name_bytes name) ret cause o2 Ho1 Hret Hm Hch Hk Hr (name_bytes_length name) Hc Hpor)
      as (o4 & _ & Ho4 & E). by exists o4. }
  rewrite Hb in Hboot.
  assert (forall o4, area_ready o4 = true -> left_behind n' (rr_write n' RR_NONE 0 0 None o4)) as Hleave.
  { intros o4 Ho4. destruct (rr_write_retained n' RR_NONE 0 0 None o4 Ho4). by split. }
  destruct e as [ch name|r| | |]; [..|done]; cbn [last_words crashes crash report_fits cause_fits c_named] in *.
  - unfold wdt_timeout_cb, app_reset_reason_watchdog in Hkeep. rewrite (proj1 (rr_write_retained _ _ _ _ _ _ Ho)) in Hkeep.
    destruct (Hboot RR_WATCHDOG (u8 ch) 0 (Some name) Hkeep) as (o4 & Ho4 & E); [done|apply u8_range|lia|done|].
    rewrite Z.eqb_refl, c_name_bytes in E by done. injection E as -> -> ->.
    split; [apply Hadd|]. split; [by apply Hleave|]. intros e' es' He. by rewrite (Hhd _ _ He).
  - unfold k_sys_fatal_error_handler in Hkeep. rewrite (proj1 (rr_write_retained _ _ _ _ _ _ Ho)) in Hkeep.
    destruct (Hboot RR_FATAL 0 (u16 r) None Hkeep) as (o4 & Ho4 & E); [done|done|apply u16_range|done|].
    rewrite Z.eqb_refl in E. change (RR_FATAL =? RR_WATCHDOG) with false in E. cbn iota in E. injection E as -> -> ->. split; [apply Hadd|]. split; [by apply Hleave|].
    intros e' es' He. rewrite (Hhd _ _ He). by eexists.
  - rewrite Hleft in Hkeep. destruct Hf as (Hret & Hc0 & Hpor & Hexp).
    destruct (Hboot RR_NONE 0 0 None Hkeep) as (o4 & Ho4 & E); [done|done|lia|done|].
    rewrite Hexp in E. destruct (Z.ltb_spec ret 0); [lia|]. destruct (Z.eqb_spec cause 0); [done|].
    cbn in E. injection E as -> -> ->. split; [by rewrite <- (Hadd 0), Z.add_0_r, u16_small|].
    split; [by apply Hleave|]. intros e' es' He. rewrite (Hhd _ _ He). by eexists.
  - rewrite Hleft in Hkeep. destruct Hf as (Hret & Hc0 & Hpor & Hexp).
    destruct (Hboot RR_NONE 0 0 None Hkeep) as (o4 & Ho4 & E); [done|done|lia|done|].
    destruct (Z.ltb_spec ret 0); [lia|]. destruct (Z.eqb_spec cause 0); [done|].
    destruct (Z.eqb_spec (Z.ldiff cause RR_EXPECTED_CAUSES) 0); [done|].
    cbn in E. injection E as -> -> ->. split; [apply Hadd|]. split; [by apply Hleave|].
    intros e' es' He. rewrite (Hhd _ _ He). by eexists.
Qed.

(** C21: The count of a board's failures survives them: over any history of boots it is
    the number of stalls, faults and resets nobody asked for since the power last
    went, modulo 2^16, and each boot reports the ending before it once, by name. *)
Theorem failures_counted e es rep n o : Forall c_named (e :: es) -> boots (e :: es) rep n o ->
  n = u16 (crashes (e :: es)) /\ report_fits e rep.
Proof.
  intros Hn Hb. destruct (boots_count _ _ _ _ Hb Hn) as (Hc & _ & Hr). split; [done|]. by eapply Hr.
Qed.
End ResetProperties.
End ResetReason.

(** * app_build_id.c *)
Module BuildId.

Definition NT_GNU_BUILD_ID : Z := 3.
Definition BUILD_ID_MAX : nat := 20.

(** The note the linker leaves; [desc] is what follows the name. *)
Record gnu_note := mk_note { namesz : Z; descsz : Z; type : Z; note_name : cstr; desc : list Z }.

Definition app_build_id_get (n : gnu_note) : option (list Z) :=
  if negb (type n =? NT_GNU_BUILD_ID) || negb (namesz n =? 4) ||
     negb (bool_decide (take 4 (note_name n) = to_chars "GNU" ++ [NUL])) ||
     (descsz n =? 0) || (Z.of_nat BUILD_ID_MAX <? descsz n) then None
  else Some (take (Z.to_nat (descsz n)) (desc n)).

Definition id_hex_size : nat := 2 * BUILD_ID_MAX + 1.
(** The static [id_hex]. *)
Definition app_build_id_boot `{Bin2hex} (n : gnu_note) : cstr :=
  match app_build_id_get n with None => [] | Some id => default [] (bin2hex id id_hex_size) end.

(** MCUmgr's os info: the checked format, and the reply being appended to. *)
Record os_mgmt_info_check := mk_check { format_value : cstr; check_bitmask : Z; valid_formats : Z }.
#[export] Instance eta_check : Eta os_mgmt_info_check := fun c =>
  mk_check (format_value c) (check_bitmask c) (valid_formats c).
Record os_mgmt_info_append := mk_append {
  output : cstr; output_length : Z; prior_output : bool; format_bitmask : Z; all_format_specified : bool;
}.
#[export] Instance eta_append : Eta os_mgmt_info_append := fun a =>
  mk_append (output a) (output_length a) (prior_output a) (format_bitmask a) (all_format_specified a).

Inductive mgmt_cb_return := MGMT_CB_OK | MGMT_CB_ERROR_RC.

(** [snprintf] into the last [room] bytes of [buf], from [off]. *)
Definition print_at (off : nat) (text buf : cstr) : cstr :=
  let room := (length buf - off)%nat in
  match room with
  | O => buf
  | S r => let t := take r text ++ [NUL] in take off buf ++ t ++ drop (off + length t) buf
  end.

Section BuildId.
(** OS_MGMT_INFO_FORMAT_USER_CUSTOM_START *)
Variable OS_INFO_BUILD_ID : Z.

Definition info_check (c : os_mgmt_info_check) : os_mgmt_info_check :=
  foldl (fun c ch => if Ascii.eqb ch (chr "g")
                     then c <| check_bitmask := Z.lor (check_bitmask c) OS_INFO_BUILD_ID |>
                            <| valid_formats ::= fun n => n + 1 |>
                     else c) c (format_value c).

(** The return, [rc] and [abort_more] when it sets them, and the reply. *)
Definition info_append (id_hex : cstr) (a : os_mgmt_info_append)
  : mgmt_cb_return * option (Z * bool) * os_mgmt_info_append :=
  if negb (all_format_specified a) && (Z.land (format_bitmask a) OS_INFO_BUILD_ID =? 0) then (MGMT_CB_OK, None, a)
  else
    let room := Z.of_nat (length (output a)) - output_length a in
    let text := (if prior_output a then [chr " "] else []) ++ id_hex in
    let n := Z.of_nat (length text) in
    let a := a <| output ::= print_at (Z.to_nat (output_length a)) text |> in
    if room <=? n then (MGMT_CB_ERROR_RC, Some (-1, true), a)
    else (MGMT_CB_OK, None,
          a <| output_length ::= fun l => l + u16 n |> <| prior_output := true |>
            <| format_bitmask := Z.ldiff (format_bitmask a) OS_INFO_BUILD_ID |>).
End BuildId.

Lemma print_at_length off text buf : length (print_at off text buf) = length buf.
Proof.
  unfold print_at. destruct (length buf - off)%nat as [|r] eqn:E; [done|]. cbv zeta.
  repeat rewrite ?length_app, ?length_take, ?length_drop. cbn. lia.
Qed.
Lemma print_at_before off text buf : take off (print_at off text buf) = take off buf.
Proof.
  unfold print_at. destruct (length buf - off)%nat as [|r] eqn:E; [done|]. cbv zeta.
  rewrite take_app_le by (rewrite length_take; lia). by rewrite take_take, Nat.min_id.
Qed.
Lemma print_at_text off text buf : (off + length text < length buf)%nat ->
  take (off + length text + 1) (print_at off text buf) = take off buf ++ text ++ [NUL].
Proof.
  intros H. unfold print_at. destruct (length buf - off)%nat as [|r] eqn:E; [lia|]. cbv zeta.
  rewrite (firstn_all2 (n:=r) text) by lia. rewrite app_assoc, take_app_le.
  - apply firstn_all2. rewrite !length_app, length_take. cbn. lia.
  - rewrite !length_app, length_take. cbn. lia.
Qed.

(** The identifier in an image-information reply: the text of a note's 1 to 20 bytes,
    two characters each, is appended whole, after what is there and a space, and
    terminated, or refused; nothing already in the reply changes and nothing outside
    it is written. *)
Theorem build_id_reported `{Bin2hexLaws} flag note id a :
  app_build_id_get note = Some id -> length (desc note) = Z.to_nat (descsz note) -> 0 <= descsz note ->
  0 <= output_length a <= Z.of_nat (length (output a)) -> Z.land (format_bitmask a) flag <> 0 ->
  let hex := app_build_id_boot note in
  let text := (if prior_output a then [chr " "] else []) ++ hex in
  let '(ret, err, a') := info_append flag hex a in
  let at_ := Z.to_nat (output_length a) in
  bin2hex id id_hex_size = Some hex /\ (1 <= length id <= BUILD_ID_MAX)%nat /\ length hex = (2 * length id)%nat /\
  length (output a') = length (output a) /\ take at_ (output a') = take at_ (output a) /\
  (if decide (at_ + length text < length (output a))%nat
   then ret = MGMT_CB_OK /\ err = None /\ output_length a' = output_length a + Z.of_nat (length text) /\
        take (at_ + length text + 1) (output a') = take at_ (output a) ++ text ++ [NUL] /\
        prior_output a' = true /\ Z.land (format_bitmask a') flag = 0
   else ret = MGMT_CB_ERROR_RC /\ err = Some (-1, true) /\ output_length a' = output_length a).
Proof.
  intros Hid Hd Hd0 Ho Hf hex text. unfold info_append.
  rewrite (proj2 (Z.eqb_neq _ _) Hf), andb_false_r. fold text.
  assert ((1 <= length id <= BUILD_ID_MAX)%nat) as Hlen.
  { unfold app_build_id_get in Hid. destruct (_ || _) eqn:E in Hid; [done|]. injection Hid as <-.
    apply orb_false_iff in E as [E1 E2]. apply orb_false_iff in E1 as [_ E1]. to_prop.
    rewrite length_take, Hd. unfold BUILD_ID_MAX in *. lia. }
  destruct (bin2hex_length id id_hex_size) as (h & Hh & Hl); [unfold id_hex_size; lia|].
  assert (hex = h) as Hhex by (unfold hex, app_build_id_boot; by rewrite Hid, Hh).
  assert (length text <= 41)%nat as Ht.
  { unfold text. rewrite length_app, Hhex, Hl. unfold BUILD_ID_MAX in Hlen.
    destruct (prior_output a); cbn [length]; lia. }
  destruct (Z.leb_spec (Z.of_nat (length (output a)) - output_length a) (Z.of_nat (length text))) as [Hr|Hr];
    cbn [output output_length prior_output format_bitmask set]; rewrite Hhex at 1 2;
    (split; [done|]); (split; [done|]); (split; [done|]); (split; [apply print_at_length|]); (split; [apply print_at_before|]);
    destruct (decide _); try lia; [done|].
  split; [done|]. split; [done|]. split; [by rewrite u16_small by lia|].
  split; [by apply print_at_text|]. split; [done|].
  change (Z.land (Z.ldiff (format_bitmask a) flag) flag = 0). apply Z.bits_inj'. intros k _.
  rewrite Z.land_spec, Z.ldiff_spec, Z.bits_0. by destruct (Z.testbit flag k); rewrite ?andb_false_r.
Qed.
End BuildId.

(** * A concrete board *)
Module Board.
Import Watchdog ImgConfirm ResetReason.

(** The channels watched, the image's flag, how many writes of it fail, the
    retained area, and the cause of the last reset. *)
Record board := mk_board {
  watched : list Z; image_ok : bool; bad_writes : nat; area : option (list Z); cause : Z;
}.
#[local] Instance board_os : Os := {| os := board; k_uptime_get b := (0, b) |}.
#[local] Instance board_wdt : TaskWdt := {|
  hw_device _ := Some true;
  task_wdt_init _ b := (0, b);
  task_wdt_add _ _ b := (7, mk_board (7 :: watched b) (image_ok b) (bad_writes b) (area b) (cause b));
  task_wdt_delete ch b := mk_board (List.filter (fun k => negb (k =? ch)) (watched b)) (image_ok b) (bad_writes b) (area b) (cause b);
  task_wdt_feed _ b := b;
  armed b k := existsb (Z.eqb k) (watched b);
|}.
#[local] Instance board_wdt_laws : TaskWdtLaws.
Proof.
  split.
  - intros ms n o ch o' [= <- <-] _. reflexivity.
  - intros ch [w f n a c] k. cbn. induction w as [|x w IH]; cbn; [by destruct (k =? ch)|].
    destruct (Z.eqb_spec x ch) as [->|Hx]; cbn; rewrite IH; destruct (Z.eqb_spec k ch); try done.
    destruct (Z.eqb_spec k x); [congruence|done].
Qed.
#[local] Instance board_mcuboot : Mcuboot := {|
  boot_is_img_confirmed := image_ok;
  boot_write_img_confirmed b :=
    match bad_writes b with
    | S n => (- EIO, mk_board (watched b) (image_ok b) n (area b) (cause b))
    | O => (0, mk_board (watched b) true 0 (area b) (cause b))
    end;
|}.
#[local] Instance board_mcuboot_laws : McubootLaws.
Proof.
  split.
  - intros [w f [|n] a c] o' E; cbn in E; injection E; intros; by subst.
  - intros [w f [|n] a c] r o' k E; cbn in E; injection E; intros; by subst.
  - intros [w f [|n] a c] r o' E; cbn in E; injection E; intros; by subst.
  - done.
  - done.
Qed.

(** Two threads report health while the first write of the flag fails: the deadline
    stands, and the next report confirms the image. *)
Notation trial n := (@mk_img board_os false (-1) true [Outside; Outside] (mk_board [] false n None 0)).
Lemma trial_guarded_witness :
  let s := app_img_confirm_arm 60000 (trial 1%nat) in
  let s' := confirm_run [0; 1; 0; 0; 1; 1; 1]%nat s in
  (armed (i_os s') (wdt_channel s') = true \/ boot_is_img_confirmed (i_os s') = true) /\
  confirmed s' = true /\ image_ok (i_os s' : board) = true /\ watched (i_os s' : board) = [] /\
  watched (i_os (confirm_run [0; 1; 0; 0]%nat s) : board) = [7].
Proof.
  intros s s'. split; [|by vm_compute].
  apply (trial_guarded 60000 [0; 1; 0; 0; 1; 1; 1]%nat (trial 1%nat)); [done|done| |done].
  by repeat constructor.
Defined.

#[local] Instance board_reset : ResetHw := {|
  RESET_PIN := 1; RESET_SOFTWARE := 2; RESET_POR := 8; RESET_LOW_POWER_WAKE := 128;
  hwinfo_get_reset_cause b := ((0, cause b), b);
  hwinfo_clear_reset_cause b := mk_board (watched b) (image_ok b) (bad_writes b) (area b) 0;
  area_ready _ := true;
  retention_is_valid b := if area b then 1 else 0;
  retention_read n b := match area b with Some l => (0, take n l) | None => (- EIO, []) end;
  retention_write l b := mk_board (watched b) (image_ok b) (bad_writes b) (Some l) (cause b);
  stored_dump _ := true;
|}.
#[local] Instance board_reset_laws : ResetHwLaws.
Proof.
  refine {| retained := area |}; try done.
  - intros o. cbn. by destruct (area o).
  - intros n o b E. cbn. by rewrite E.
Defined.

Definition reset_with (c : Z) (b : @os board_os) : @os board_os := mk_board (watched b) (image_ok b) (bad_writes b) (area b) c.
Definition unpowered : @os board_os := mk_board [] false 0 None 8.
Notation next n e c b := (app_reset_reason_boot (reset_with c (last_words n e b))).
Notation stall := (Stall 3 (to_chars "uplink")).

Notation b0 := (snd (app_reset_reason_boot unpowered)).
Notation b1 := (snd (next 0 stall 16 b0)).
Notation b2 := (snd (next 1 (Fault 4) 16 b1)).
Notation b3 := (snd (next 2 Asked 2 b2)).
Notation b4 := (next 2 Sudden 4 b3).
Notation history := [Sudden; Asked; Fault 4; stall; PowerLoss].
Lemma board_history : boots history (fst (fst b4)) (snd (fst b4)) (snd b4).
Proof.
  assert (boots [PowerLoss] (Some PowerOn) 0 b0) as H0.
  { eapply (powered_on unpowered); [done|reflexivity|by vm_compute|reflexivity]. }
  assert (boots [stall; PowerLoss] (Some (TaskWatchdog (to_chars "uplink") 3)) 1 b1) as H1.
  { eapply (came_back stall _ _ _ _ (reset_with 16 (last_words 0 stall b0))); [exact H0|done|done|reflexivity|by vm_compute|].
    by vm_compute. }
  assert (boots [Fault 4; stall; PowerLoss] (Some (FatalError 4 true)) 2 b2) as H2.
  { eapply (came_back (Fault 4) _ _ _ _ (reset_with 16 (last_words 1 (Fault 4) b1))); [exact H1|done|done|reflexivity|by vm_compute|].
    by vm_compute. }
  assert (boots [Asked; Fault 4; stall; PowerLoss] (Some (RequestedReset 2)) 2 b3) as H3.
  { eapply (came_back Asked _ _ _ _ (reset_with 2 (last_words 2 Asked b2))); [exact H2|done|done|reflexivity|by vm_compute|].
    by vm_compute. }
  eapply (came_back Sudden _ _ _ _ (reset_with 4 (last_words 2 Sudden b3))); [exact H3|done|done|reflexivity|by vm_compute|].
  by vm_compute.
Qed.

(** A stall, a fault, a requested reset and a brown-out after power came up: three
    failures, and the last report names the brown-out's cause. *)
Lemma failures_counted_witness :
  snd (fst b4) = 3 /\ crashes history = 3 /\ fst (fst b4) = Some (NotRequested 4) /\
  (snd (fst b4) = u16 (crashes history) /\ report_fits Sudden (fst (fst b4))).
Proof.
  split; [by vm_compute|]. split; [by vm_compute|]. split; [by vm_compute|].
  apply (failures_counted Sudden [Asked; Fault 4; stall; PowerLoss] _ _ (snd b4)); [|exact board_history].
  by repeat constructor.
Defined.

(** A reply that already holds an entry, with room for the identifier. *)
Notation note := (BuildId.mk_note 4 3 3 (to_chars "GNU" ++ [NUL]) [222; 173; 1]).
Notation reply := (BuildId.mk_append (to_chars "Zephyr" ++ repeat NUL 10) 6 true 64 false).
Lemma build_id_reported_witness :
  let r := BuildId.info_append 64 (BuildId.app_build_id_boot note) reply in
  BuildId.app_build_id_get note = Some [222; 173; 1] /\
  fst (fst r) = BuildId.MGMT_CB_OK /\ take 14 (BuildId.output (snd r)) = to_chars "Zephyr dead01" ++ [NUL] /\
  length (BuildId.output (snd r)) = 16%nat.
Proof.
  split; [by vm_compute|].
  pose proof (BuildId.build_id_reported 64 note [222; 173; 1] reply ltac:(by vm_compute) ltac:(by vm_compute)
    ltac:(by vm_compute) ltac:(by vm_compute) ltac:(by vm_compute)) as H.
  vm_compute in H |- *. destruct H as (_ & _ & _ & Hl & _ & Hr & _ & _ & Ht & _).
  split; [exact Hr|]. split; [exact Ht|exact Hl].
Defined.
End Board.
