(* ===== verification/PrusaMain.v ===== *)
(** prusa_cam's shell and start-up: [prusa_cam/src/main.c].

    The shell commands act on the configuration and the upload thread as the web
    page's handlers do; [main] brings the parts up in order and says when a new
    image is healthy.  An uncaught key or value changes nothing. *)

From Stdlib Require Import Ascii.
From S2P Require Import Prelude Printf Platform Instances HttpUtil HttpRequests PrusaProto PrusaCfg PrusaConnect PrusaWeb Services.
#[local] Open Scope Z_scope.

(** * The C library's [strtol], base 10, on the board's 32-bit long. *)
Definition LONG_MIN_32 : Z := - 2 ^ 31.
Definition LONG_MAX_32 : Z := 2 ^ 31 - 1.
Fixpoint skip_blank (s : cstr) : cstr :=
  match s with c :: s' => if isspace c then skip_blank s' else s | [] => [] end.
Fixpoint strtol_digits (s : cstr) (v : Z) : Z :=
  match s with
  | c :: s => match dec_digit c with Some d => strtol_digits s (v * 10 + d) | None => v end
  | [] => v
  end.
Definition strtol (s : cstr) : Z :=
  let s := skip_blank s in
  let v := match s with
           | c :: s' => if Ascii.eqb c (chr "-") then - strtol_digits s' 0
                        else if Ascii.eqb c (chr "+") then strtol_digits s' 0
                        else strtol_digits s 0
           | [] => 0
           end in
  Z.max LONG_MIN_32 (Z.min LONG_MAX_32 v).

(** * The shell *)

Definition str_is (key : cstr) (name : string) : bool := bool_decide (key = to_chars name).

(** main.c's [parse_ip]. *)
Definition shell_parse_ip (val : cstr) : option Z :=
  if str_is val "dhcp" || str_is val "0" then Some 0 else snd (http_parse_ipv4 (Some val)).

(** The edit of [cmd_set], key by key in the source's order; [None] is a bad key or
    value. *)
Definition shell_edit (key val : cstr) (c : cfg) : option cfg :=
  if str_is key "name" && (length val <=? CFG_NAME_MAX)%nat then
    Some (c <| name ::= fun a => strcpy a val |>)
  else if str_is key "token" && (length val <=? CFG_TOKEN_MAX)%nat then
    Some (c <| token ::= fun a => strcpy a val |>)
  else if str_is key "password" && (length val <=? CFG_PASSWORD_MAX)%nat then
    Some (c <| password ::= fun a => strcpy a val |>)
  else if str_is key "interval" then Some (c <| interval_s := CLAMP (strtol val) 0 65535 |>)
  else if str_is key "resolution" && (0 <=? cfg_resolution_find val) then
    Some (c <| resolution := u8 (cfg_resolution_find val) |>)
  else if str_is key "quality" then Some (c <| quality := CLAMP (strtol val) 0 255 |>)
  else if str_is key "hflip" then Some (c <| hflip := negb (strtol val =? 0) |>)
  else if str_is key "vflip" then Some (c <| vflip := negb (strtol val =? 0) |>)
  else if str_is key "flash" then Some (c <| flash := negb (strtol val =? 0) |>)
  else if str_is key "rotation" && (Z.rem (strtol val) 90 =? 0) then
    Some (c <| rotation := CLAMP (Z.quot (strtol val) 90) 0 255 |>)
  else if str_is key "brightness" then Some (c <| brightness := CLAMP (strtol val) (-128) 127 |>)
  else if str_is key "contrast" then Some (c <| contrast := CLAMP (strtol val) (-128) 127 |>)
  else if str_is key "saturation" then Some (c <| saturation := CLAMP (strtol val) (-128) 127 |>)
  else if str_is key "auto_exposure" then Some (c <| auto_exposure := negb (strtol val =? 0) |>)
  else if str_is key "auto_wb" then Some (c <| auto_wb := negb (strtol val =? 0) |>)
  else if str_is key "auto_gain" then Some (c <| auto_gain := negb (strtol val =? 0) |>)
  else if str_is key "ip" then a ← shell_parse_ip val; Some (c <| ip := a |>)
  else if str_is key "netmask" then a ← shell_parse_ip val; Some (c <| netmask := a |>)
  else if str_is key "gateway" then a ← shell_parse_ip val; Some (c <| gateway := a |>)
  else if str_is key "dns" then a ← shell_parse_ip val; Some (c <| dns := a |>)
  else None.

Definition IP4 (a : Z) : list arg :=
  [PInt (Z.shiftr a 24); PInt (Z.land (Z.shiftr a 16) 255); PInt (Z.land (Z.shiftr a 8) 255); PInt (Z.land a 255)].
Definition pbool (b : bool) : arg := PInt (if b then 1 else 0).

(** The lines [cmd_show] prints. *)
Definition cmd_show (s : cfg_state) (st : connect_status) : list string :=
  let c := the_cfg s in
  let is_set a := PStr (if bool_decide (cstring a = []) then "not set" else "set") in
  [format "name:        %s" [PStr (of_chars (cstring (name c)))];
   format "token:       %s" [is_set (token c)];
   format "password:    %s" [is_set (password c)];
   format "fingerprint: %s" [PStr (of_chars (fingerprint s))];
   format "interval:    %u s" [PInt (interval_s c)];
   format "resolution:  %s" [PStr (from_option r_name ""%string (cfg_resolutions !! Z.to_nat (resolution c)))];
   format "quality:     %u" [PInt (quality c)];
   format "hflip/vflip: %d/%d, flash: %d" [pbool (hflip c); pbool (vflip c); pbool (flash c)];
   format "rotation:    %u" [PInt (rotation c * 90)];
   format "brightness/contrast/saturation: %d/%d/%d" [PInt (brightness c); PInt (contrast c); PInt (saturation c)];
   format "auto exposure/wb/gain: %d/%d/%d" [pbool (auto_exposure c); pbool (auto_wb c); pbool (auto_gain c)];
   (if ip c =? 0 then "address:     DHCP"%string
    else format "address:     %u.%u.%u.%u/%u.%u.%u.%u gw %u.%u.%u.%u dns %u.%u.%u.%u"
           (IP4 (ip c) ++ IP4 (netmask c) ++ IP4 (gateway c) ++ IP4 (dns c)));
   format "uploads:     %u, last result %d (%s)%s"
     [PInt (uploads st); PInt (last_result st);
      PStr (if last_ms st =? 0 then "none yet"%string else prusa_camera_describe (last_result st));
      PStr (if st_stopped st then ", stopped until the config changes"%string else ""%string)]].

Section Shell.
Context `{Settings} `{!CamStation}.
Context (cam_apply : cfg -> os -> Z * os).

Definition cmd_set (key val : cstr) (d : connect) : Z * connect :=
  match shell_edit key val (the_cfg (cfgs d)) with
  | None => (- EINVAL, d)
  | Some c => set_config cam_apply c d
  end.
Definition cmd_test (d : connect) : connect := d <| test_requested := true |> <| kick := true |>.
Definition cmd_snap (d : connect) : connect := d <| info_stale := true |> <| kick := true |>.
End Shell.

(** * Specification of the shell *)

(** [c] with the field [key] names blanked. *)
Definition erase (key : cstr) (c : cfg) : cfg :=
  if str_is key "name" then c <| name := [] |> else if str_is key "token" then c <| token := [] |>
  else if str_is key "password" then c <| password := [] |> else if str_is key "interval" then c <| interval_s := 0 |>
  else if str_is key "resolution" then c <| resolution := 0 |> else if str_is key "quality" then c <| quality := 0 |>
  else if str_is key "hflip" then c <| hflip := false |> else if str_is key "vflip" then c <| vflip := false |>
  else if str_is key "flash" then c <| flash := false |> else if str_is key "rotation" then c <| rotation := 0 |>
  else if str_is key "brightness" then c <| brightness := 0 |> else if str_is key "contrast" then c <| contrast := 0 |>
  else if str_is key "saturation" then c <| saturation := 0 |>
  else if str_is key "auto_exposure" then c <| auto_exposure := false |>
  else if str_is key "auto_wb" then c <| auto_wb := false |> else if str_is key "auto_gain" then c <| auto_gain := false |>
  else if str_is key "ip" then c <| ip := 0 |> else if str_is key "netmask" then c <| netmask := 0 |>
  else if str_is key "gateway" then c <| gateway := 0 |> else if str_is key "dns" then c <| dns := 0 |>
  else c.

Definition shell_keys : list string :=
  ["name"; "token"; "password"; "interval"; "resolution"; "quality"; "hflip"; "vflip"; "flash"; "rotation";
   "brightness"; "contrast"; "saturation"; "auto_exposure"; "auto_wb"; "auto_gain"; "ip"; "netmask"; "gateway"; "dns"]%string.

(** Computes the comparisons of a known key. *)
Ltac keys := repeat match goal with
  | |- context [str_is ?k ?n] => let b := eval vm_compute in (str_is k n) in rewrite (eq_refl b <: str_is k n = b); cbn [andb]
  end.

(** [tac] for each element of a literal list. *)
Ltac each tac := lazymatch goal with
  | |- Forall _ [] => apply List.Forall_nil
  | |- Forall _ (_ :: _) => apply List.Forall_cons; [tac|each tac]
  end.

Lemma shell_edit_known key val c c' : shell_edit key val c = Some c' -> exists n, n ∈ shell_keys /\ key = to_chars n.
Proof.
  intros E. destruct (decide (Exists (fun n => str_is key n = true) shell_keys)) as [Hex|Hno].
  - apply Exists_exists in Hex as (n & Hn & Hk). exists n. split; [done|]. by apply bool_decide_eq_true in Hk.
  - assert (forall n, n ∈ shell_keys -> str_is key n = false) as Hf.
    { intros n Hn. apply not_true_iff_false. intros Ht. apply Hno, Exists_exists. eauto. }
    exfalso. unfold shell_edit in E. by rewrite !Hf in E by (match goal with |- ?P => apply (bool_decide_eq_true_1 P) end; vm_compute; reflexivity).
Qed.
Lemma shell_edit_erase key val c c' : shell_edit key val c = Some c' -> erase key c' = erase key c.
Proof.
  assert (Forall (fun n => shell_edit (to_chars n) val c = Some c' -> erase (to_chars n) c' = erase (to_chars n) c)
            shell_keys) as Hall.
  { unfold shell_edit, erase, shell_keys. each ltac:(keys; intros E;
      try (destruct (_ : bool) in E; [|discriminate]); try (apply bind_Some in E as (a & _ & E));
      injection E as <-; reflexivity). }
  intros E. destruct (shell_edit_known _ _ _ _ E) as (n & Hn & ->).
  rewrite Forall_forall in Hall. exact (Hall n Hn E).
Qed.

(** What the shell and the page show of a configuration: the token and the password
    only as set or not. *)
Definition same_shown (c c' : cfg) : Prop :=
  c <| token := [] |> <| password := [] |> = c' <| token := [] |> <| password := [] |> /\
  (cstring (token c) = [] <-> cstring (token c') = []) /\
  (cstring (password c) = [] <-> cstring (password c') = []).

(** Neither [prusa show] nor the page's configuration depends on a stored token
    or password beyond whether there is one. *)
Theorem camera_secrets_hidden `{JsonEncoder} s c' st :
  same_shown (the_cfg s) c' ->
  cmd_show (s <| the_cfg := c' |>) st = cmd_show s st /\ reply_config (s <| the_cfg := c' |>) = reply_config s.
Proof.
  destruct s as [c fp]. destruct c, c'. intros (E & Ht & Hp). cbn in E, Ht, Hp. injection E. intros. subst.
  unfold cmd_show, reply_config, config_out_of. cbn.
  by rewrite (bool_decide_ext _ _ Ht), (bool_decide_ext _ _ Hp).
Qed.

Section ShellProperties.
Context `{Settings} `{!CamStation}.
Context (cam_apply : cfg -> os -> Z * os).

(** [prusa set]: an unknown key, a value that does not fit or a configuration
    that cannot be stored leaves everything as it was; otherwise the new
    configuration is valid, differs from the old in the named field alone, and the
    upload thread is kicked. *)
Theorem shell_sets_one_field key val d ret d' :
  cmd_set cam_apply key val d = (ret, d') ->
  (ret <> 0 -> cfgs d' = cfgs d /\ kick d' = kick d /\ info_stale d' = info_stale d) /\
  (ret = 0 -> exists n, n ∈ shell_keys /\ key = to_chars n /\
     shell_edit key val (the_cfg (cfgs d)) = Some (the_cfg (cfgs d')) /\ cfg_valid (the_cfg (cfgs d')) /\
     erase key (the_cfg (cfgs d')) = erase key (the_cfg (cfgs d)) /\ kick d' = true /\ info_stale d' = true).
Proof.
  unfold cmd_set. destruct (shell_edit key val (the_cfg (cfgs d))) as [c|] eqn:E; [|intros [= <- <-]; by split].
  intros Hs. apply set_config_spec in Hs as [Hno Hyes]. split; [done|].
  intros Hr. destruct (Hyes Hr) as (-> & Hv & Hk & Hi). destruct (shell_edit_known _ _ _ _ E) as (n & Hn & ->).
  exists n. do 4 (split; [done|]). split; [by eapply shell_edit_erase|done].
Qed.
End ShellProperties.

(** * Start-up *)
Import Watchdog ImgConfirm.

(** The parts of Zephyr that [main] starts. *)
Class StartUp `{Os} := {
  http_server_start : os -> Z * os;
  hawkbit_init : os -> Z * os;
  hawkbit_autohandler : os -> os;
  k_work_reschedule : os -> os;      (* wifi.c's connect_work, without delay *)
}.

Section Start.
Context `{Settings} `{!Hwinfo} `{!Bin2hex} `{!Https} `{!CamStation} `{!TaskWdt} `{!Mcuboot} `{!StartUp}.
(** cam.c's [cam_init], which reads the configuration. *)
Context (cam_init : cfg -> os -> Z * os).
(** CONFIG_APP_IMG_CONFIRM_TIMEOUT_MS, CONFIG_HAWKBIT and the user agent. *)
Variables (timeout_ms : Z) (CONFIG_HAWKBIT : bool) (config : camera_config) (user_agent : string).

(** The statics, with the parts they belong to; [registered] and [pending] are the
    address callback and the work item; the one thread that reports the image
    healthy is caller 0; [first_frame] records what the camera answered [cam_check]. *)
Record station := mk_station {
  b_img : img; b_cfg : cfg_state; b_client : prusa_camera; cam_ok : bool; hb_started : bool;
  uploading : bool; registered : bool; pending : bool;
  first_frame : option Z;
}.
#[export] Instance eta_station : Eta station := fun s =>
  mk_station (b_img s) (b_cfg s) (b_client s) (cam_ok s) (hb_started s) (uploading s) (registered s) (pending s) (first_frame s).
Definition set_os (o : os) (s : station) : station := s <| b_img := (b_img s) <| i_os := o |> |>.

(** app_img_confirm.c's [app_img_confirm], undisturbed. *)
Definition app_img_confirm (s : station) : station := s <| b_img ::= confirm_run [0; 0; 0]%nat |>.

Definition hawkbit_start_fn (s : station) : station :=
  if negb CONFIG_HAWKBIT || hb_started s || negb (boot_is_img_confirmed (i_os (b_img s))) then s
  else
    let '(ret, o) := hawkbit_init (i_os (b_img s)) in
    if ret <? 0 then set_os o s
    else set_os (hawkbit_autohandler o) (s <| hb_started := true |>).

Definition ipv4_added (s : station) : station :=
  (if cam_ok s then app_img_confirm s else s) <| pending := true |>.

Definition cam_check (o : os) : bool * os :=
  let '((ret, _), o) := cam_frame o in
  if ret <? 0 then (false, o) else (true, cam_release o).

Definition main (s : station) : Z * station :=
  let '(_, ready, o) := app_watchdog_init (wdt_ready (b_img s)) (i_os (b_img s)) in
  let s := s <| b_img := app_img_confirm_arm timeout_ms ((b_img s) <| wdt_ready := ready |> <| i_os := o |>) |> in
  let '(ret, c, o) := cfg_init (b_cfg s) (i_os (b_img s)) in
  let s := set_os o (s <| b_cfg := c |>) in
  if ret <? 0 then (ret, s) else
  let '(ret, o1) := cam_init (the_cfg c) o in
  let '(ok, o) := if ret <? 0 then (cam_ok s, o1) else cam_check o1 in
  let s := s <| cam_ok := ok |> <| first_frame := if ret <? 0 then None else Some (fst (fst (cam_frame o1))) |> in
  let '(ret, cl, w) := prusa_camera_init config user_agent (b_client s) (mk_network o []) in
  let s := set_os (n_os w) (s <| b_client := cl |>) in
  if ret <? 0 then (ret, s) else
  let s := s <| uploading := true |> in
  let '(_, o) := http_server_start (n_os w) in
  let s := set_os (k_work_reschedule o) (s <| registered := true |> <| pending := true |>) in
  (0, s).

(** What happens afterwards: an address arrives, or the work item runs. *)
Inductive start_event := Ipv4Added | WorkRuns.
Definition start_event_step (s : station) (e : start_event) : station :=
  match e with
  | Ipv4Added => if registered s then ipv4_added s else s
  | WorkRuns => if pending s then hawkbit_start_fn (s <| pending := false |>) else s
  end.
Definition start_run (es : list start_event) (s : station) : station := foldl start_event_step s es.

(** ** The image is confirmed by a working camera on the network, and by that alone *)

(** The statics before [main]. *)
Definition at_reset (s : station) : Prop :=
  confirmed (b_img s) = false /\ callers (b_img s) = [Outside] /\ cam_ok s = false /\ hb_started s = false /\
  registered s = false /\ pending s = false /\ first_frame s = None.
Definition on_trial (s : station) : Prop :=
  let '(_, _, o) := app_watchdog_init (wdt_ready (b_img s)) (i_os (b_img s)) in boot_is_img_confirmed o = false.

Lemma confirm_call s : callers s = [Outside] ->
  let s' := confirm_run [0; 0; 0]%nat s in
  callers s' = [Outside] /\
  confirmed s' = (confirmed s || (fst (boot_write_img_confirmed (i_os s)) =? 0)).
Proof.
  destruct s as [cf ch rd cl o]. cbn. intros ->. unfold confirm_run. cbn -[confirm_step].
  destruct cf; [done|]. unfold confirm_step at 3. cbn. unfold confirm_step at 2. cbn.
  destruct (boot_write_img_confirmed o) as [r o']. unfold confirm_step. cbn. by destruct (r =? 0).
Qed.

Lemma main_statics s r s1 : at_reset s -> on_trial s -> main s = (r, s1) ->
  confirmed (b_img s1) = false /\ callers (b_img s1) = [Outside] /\ hb_started s1 = false /\
  (cam_ok s1 = true <-> exists ret, first_frame s1 = Some ret /\ 0 <= ret) /\
  (registered s1 = true <-> r = 0).
Proof.
  intros (Hc & Ho & Hk & Hs & Hr & Hp & Hff) Ht. unfold main, on_trial in *.
  destruct (app_watchdog_init _ _) as [[r0 ready] o].
  set (i := app_img_confirm_arm _ _). assert (confirmed i = false /\ callers i = [Outside]) as [Hci Hoi].
  { unfold i, app_img_confirm_arm. cbn. rewrite Ht. by destruct (app_watchdog_register _ _ _ _). }
  clearbody i. cbn -[prusa_camera_init cfg_init cam_check].
  destruct (cfg_init _ _) as [[r1 c] o1]. destruct (Z.ltb_spec r1 0).
  { intros [= <- <-]. cbn. rewrite Hk, Hff, Hr. do 3 (split; [done|]).
    split; (split; [done|]); [by intros (? & ? & _)|lia]. }
  destruct (cam_init _ _) as [r2 o2]. destruct (if r2 <? 0 then _ else _) as [ok o3] eqn:Ek.
  assert (ok = true <-> exists ret, (if r2 <? 0 then None else Some (fst (fst (cam_frame o2)))) = Some ret /\ 0 <= ret) as Hok.
  { destruct (r2 <? 0).
    { injection Ek as <- _. rewrite Hk. split; [done|]. by intros (? & ? & _). }
    unfold cam_check in Ek. destruct (cam_frame o2) as [[ret jpeg] o4]. cbn [fst].
    destruct (Z.ltb_spec ret 0); injection Ek as <- _; split; try done; [|by exists ret].
    intros (? & [= <-] & ?). lia. }
  destruct (prusa_camera_init _ _ _ _) as [[r3 cl] w]. destruct (Z.ltb_spec r3 0).
  { intros [= <- <-]. cbn. rewrite Hr. do 3 (split; [done|]). split; [done|]. split; [done|lia]. }
  destruct (http_server_start _) as [r4 o5]. by intros [= <- <-].
Qed.

Lemma start_run_inv es s : callers (b_img s) = [Outside] ->
  let s' := start_run es s in
  callers (b_img s') = [Outside] /\ cam_ok s' = cam_ok s /\ registered s' = registered s /\
  (confirmed (b_img s) = true -> confirmed (b_img s') = true) /\
  (confirmed (b_img s') = true -> confirmed (b_img s) = true \/ (cam_ok s = true /\ registered s = true /\ Ipv4Added ∈ es)).
Proof.
  unfold start_run. revert s. induction es as [|e es IH]; intros s Hc; cbn; [by repeat split; auto|].
  assert (callers (b_img (start_event_step s e)) = [Outside] /\ cam_ok (start_event_step s e) = cam_ok s /\
    registered (start_event_step s e) = registered s /\
    (confirmed (b_img s) = true -> confirmed (b_img (start_event_step s e)) = true) /\
    (confirmed (b_img (start_event_step s e)) = true ->
       confirmed (b_img s) = true \/ (e = Ipv4Added /\ cam_ok s = true /\ registered s = true)))
    as (Hc' & Hk & Hr & Hm & Hw).
  { destruct e; cbn.
    - destruct (registered s) eqn:Er; [|by repeat split; auto]. unfold ipv4_added. destruct (cam_ok s) eqn:Ek; cbn -[confirm_run]; [|by repeat split; auto].
      destruct (confirm_call (b_img s) Hc) as [Hc1 Hc2]. rewrite Hc2. repeat split; auto; by intros ->.
    - destruct (pending s); [|by repeat split; auto]. unfold hawkbit_start_fn. cbn.
      destruct (_ || _); [by repeat split; auto|]. destruct (hawkbit_init _) as [r o]. destruct (r <? 0); by repeat split; auto. }
  destruct (IH _ Hc') as (Ha & Hb & Hd & He & Hf). split; [done|]. split; [congruence|]. split; [congruence|].
  split; [auto|]. intros Hg. destruct (Hf Hg) as [Hx|(Hx & Hy & Hz)].
  - destruct (Hw Hx) as [|(-> & ? & ?)]; [by left|]. right. split; [done|]. split; [done|]. by left.
  - right. split; [congruence|]. split; [congruence|]. by right.
Qed.
Lemma start_run_app es es' s : start_run (es ++ es') s = start_run es' (start_run es s).
Proof. apply foldl_app. Qed.

Lemma hawkbit_needs_confirmed es s : hb_started s = false -> hb_started (start_run es s) = true ->
  exists pre post, es = pre ++ WorkRuns :: post /\ boot_is_img_confirmed (i_os (b_img (start_run pre s))) = true.
Proof.
  induction es as [|e es IH] using rev_ind; intros Hs; [by cbn; rewrite Hs|].
  rewrite start_run_app. cbn. intros Hn. destruct (hb_started (start_run es s)) eqn:Eh.
  { destruct (IH Hs eq_refl) as (pre & post & -> & Hb). exists pre, (post ++ [e]). by rewrite <- app_assoc. }
  destruct e; cbn in Hn.
  - exfalso. destruct (registered _); [|congruence]. unfold ipv4_added in Hn. destruct (cam_ok _); cbn in Hn; congruence.
  - exists es, []. split; [done|]. destruct (pending _); [|congruence]. unfold hawkbit_start_fn in Hn. cbn in Hn.
    destruct (boot_is_img_confirmed _); [done|]. rewrite orb_true_r in Hn. cbn in Hn. congruence.
Qed.

Lemma healthy_confirms es s : callers (b_img s) = [Outside] -> cam_ok s = true -> registered s = true ->
  (forall o, fst (boot_write_img_confirmed o) = 0) -> Ipv4Added ∈ es -> confirmed (b_img (start_run es s)) = true.
Proof.
  intros Hc Hk Hr Hw Hin. apply list_elem_of_split in Hin as (pre & post & ->). rewrite start_run_app.
  destruct (start_run_inv pre s Hc) as (Hc1 & Hk1 & Hr1 & _). cbn. set (s1 := start_run pre s) in *.
  assert (callers (b_img (start_event_step s1 Ipv4Added)) = [Outside] /\ confirmed (b_img (start_event_step s1 Ipv4Added)) = true)
    as [Hc2 Hf].
  { cbn. rewrite Hr1, Hr. unfold ipv4_added. rewrite Hk1, Hk. cbn -[confirm_run]. destruct (confirm_call (b_img s1) Hc1) as [Ha Hb].
    rewrite Hb, Hw, orb_true_r. by split. }
  by destruct (start_run_inv post _ Hc2) as (_ & _ & _ & Hm & _); apply Hm.
Qed.

(** C22: A new image's start-up: it is confirmed only if [main] ran to its end - the
    configuration was read and the service's client came up; a web server that does
    not start is only logged - the camera gave [main] a frame, and an address has
    arrived since; and if all three hold and MCUboot's write works, it is confirmed.
    The update service starts only on an image MCUboot has confirmed.  So an image
    whose camera gives no frame is left to its deadline. *)
Theorem confirmed_means_healthy s r s1 es :
  at_reset s -> on_trial s -> main s = (r, s1) ->
  let s2 := start_run es s1 in
  let healthy := r = 0 /\ (exists ret, first_frame s1 = Some ret /\ 0 <= ret) /\ Ipv4Added ∈ es in
  (confirmed (b_img s2) = true -> healthy) /\
  ((forall o, fst (boot_write_img_confirmed o) = 0) -> healthy -> confirmed (b_img s2) = true) /\
  (hb_started s2 = true -> exists pre post, es = pre ++ WorkRuns :: post /\
     boot_is_img_confirmed (i_os (b_img (start_run pre s1))) = true).
Proof.
  intros Ha Ht Hm s2 healthy. destruct (main_statics _ _ _ Ha Ht Hm) as (Hc & Ho & Hs & Hk & Hr).
  unfold s2, healthy. split; [|split].
  - intros Hf. destruct (start_run_inv es s1 Ho) as (_ & _ & _ & _ & Hw).
    destruct (Hw Hf) as [|(Hk1 & Hg & Hi)]; [congruence|]. split; [by apply Hr|]. split; [by apply Hk|done].
  - intros Hw (Hz & Hframe & Hi). apply healthy_confirms; [done|by apply Hk|by apply Hr|done..].
  - by apply hawkbit_needs_confirmed.
Qed.
End Start.

(** * Instances for the witnesses *)

(** [prusa set interval 60], and a value and a key that are refused. *)
Notation shell_set k v := (cmd_set (H := sim_os) sim_apply (to_chars k) (to_chars v) fresh_cam).
Lemma shell_sets_one_field_witness :
  let d := snd (shell_set "interval" "60") in
  interval_s (the_cfg (cfgs d)) = 60 /\ cfg_valid (the_cfg (cfgs d)) /\ kick d = true /\
  erase (to_chars "interval") (the_cfg (cfgs d)) = erase (to_chars "interval") (the_cfg (cfgs fresh_cam)) /\
  fst (shell_set "interval" "61") = - EINVAL /\ fst (shell_set "colour" "1") = - EINVAL.
Proof.
  intros d. assert (shell_set "interval" "60" = (0, d)) as E by (vm_compute; reflexivity).
  destruct (shell_sets_one_field _ _ _ _ _ _ E) as [_ Hyes].
  destruct (Hyes eq_refl) as (n & _ & _ & _ & Hv & He & Hk & _).
  split; [by vm_compute|]. split; [exact Hv|]. split; [exact Hk|]. split; [exact He|]. by split; vm_compute.
Defined.

(** Two configurations with different tokens and passwords. *)
Notation secret t p := (sample_cfg <| token := char_array 65 (to_chars t) |> <| password := char_array 33 (to_chars p) |>).
Lemma camera_secrets_hidden_witness :
  let a := mk_cfg_state (secret "abcdefghij0123456789" "hunter22") (to_chars "zephyrcam00") in
  let b := secret "ABCDEFGHIJ9876543210" "swordfish" in
  the_cfg a <> b /\ cmd_show (mk_cfg_state b (to_chars "zephyrcam00")) (mk_status 0 0 0 false) = cmd_show a (mk_status 0 0 0 false).
Proof.
  intros a b. split; [intros E; vm_compute in E; discriminate|].
  refine (proj1 (camera_secrets_hidden a b (mk_status 0 0 0 false) _)).
  split; [reflexivity|]. split; split; intros E; vm_compute in E; discriminate.
Defined.

(** A machine on which the image's flag is a setting; the first frame is good. *)
#[local] Instance sim_wdt : TaskWdt (H := sim_os) := {|
  hw_device _ := None; task_wdt_init _ w := (0, w); task_wdt_add _ _ w := (0, w); task_wdt_delete _ w := w;
  task_wdt_feed _ w := w; armed _ _ := true;
|}.
#[local] Instance sim_mcuboot : Mcuboot (H := sim_os) := {|
  boot_is_img_confirmed w := bool_decide (sim_store w !! "mcuboot"%string <> None);
  boot_write_img_confirmed w := (0, w <| sim_store ::= <["mcuboot"%string := [1]]> |>);
|}.
#[local] Instance sim_start : StartUp (H := sim_os) := {|
  http_server_start w := (0, w); hawkbit_init w := (0, w); hawkbit_autohandler w := w; k_work_reschedule w := w;
|}.
Definition reset_station : station (H := sim_os) :=
  mk_station (@mk_img sim_os false (-1) false [Outside] sim_boot) (cfg_boot sample_hostname) camera_boot false false false false false None.
Notation started := (main (H := sim_os) sim_apply 60000 sample_config "prusa_cam/1" reset_station).

Lemma started_facts : at_reset reset_station /\ on_trial reset_station /\ fst started = 0 /\
  exists ret, first_frame (snd started) = Some ret /\ 0 <= ret.
Proof.
  split; [repeat split; by vm_compute|]. split; [by vm_compute|]. split; [by vm_compute|].
  eexists. split; [vm_compute; reflexivity|by vm_compute].
Qed.
Lemma confirmed_means_healthy_witness :
  let s := start_run (H := sim_os) true [WorkRuns; Ipv4Added; WorkRuns] (snd started) in
  confirmed (b_img s) = true /\ hb_started s = true /\
  (exists ret, first_frame (snd started) = Some ret /\ 0 <= ret) /\
  hb_started (start_run (H := sim_os) true [WorkRuns] (snd started)) = false.
Proof.
  destruct started_facts as (Ha & Ht & Hr & Hf).
  assert (started = (0, snd started)) as E by (rewrite <- Hr; apply surjective_pairing).
  destruct (confirmed_means_healthy (H := sim_os) sim_apply 60000 true sample_config "prusa_cam/1" _ _ _
              [WorkRuns; Ipv4Added; WorkRuns] Ha Ht E) as (_ & Hl & _).
  assert (Ipv4Added ∈ [WorkRuns; Ipv4Added; WorkRuns]) as Hin by (right; left).
  split; [exact (Hl ltac:(done) (conj eq_refl (conj Hf Hin)))|]. split; [by vm_compute|].
  split; [exact Hf|by vm_compute].
Defined.
