(* ===== verification/PrusaWifi.v ===== *)
(** prusa_cam's station mode: [prusa_cam/src/wifi.c].

    The work item that joins a stored network, the events of the connection and the
    addressing.  The driver answers a request it took with one result. *)

From Stdlib Require Import Ascii.
From S2P Require Import Prelude Printf Platform Instances HttpUtil PrusaProto PrusaCfg PrusaWeb.
#[local] Open Scope Z_scope.

(** RETRY, in milliseconds. *)
Definition RETRY : Z := 10000.

(** The station interface and the stored networks; addresses in host order. *)
Class StaNet `{Os} := {
  sta_iface : os -> bool;
  wifi_credentials_is_empty : os -> bool;
  wifi_connect_stored : os -> Z * os;
  net_dhcpv4_start : os -> os;
  net_dhcpv4_stop : os -> os;
  net_if_ipv4_addr_add : Z -> os -> bool * os;
  net_if_ipv4_set_netmask_by_addr : Z -> Z -> os -> os;
  net_if_ipv4_set_gw : Z -> os -> os;
  dns_resolve_reconfigure : cstr -> os -> Z * os;
}.

Section CamWifi.
Context `{StaNet}.

(** The work item's delay while it is scheduled; whether a request is with the
    driver, and whether it is connected. *)
Record wifi := mk_wifi { connect_work : option Z; requested : bool; associated : bool; wf_os : os }.
#[export] Instance eta_wifi : Eta wifi := fun s =>
  mk_wifi (connect_work s) (requested s) (associated s) (wf_os s).

Definition connect_work_fn (s : wifi) : wifi :=
  if negb (sta_iface (wf_os s)) || wifi_credentials_is_empty (wf_os s) then s
  else
    let '(ret, o) := wifi_connect_stored (wf_os s) in
    if ret <? 0 then s <| wf_os := o |> <| connect_work := Some RETRY |>
    else s <| wf_os := o |> <| requested := true |>.

Definition ipv4_up (c : cfg) (o : os) : os :=
  if ip c =? 0 then net_dhcpv4_start o else
  let dns := if negb (dns c =? 0) then dns c else gateway c in
  let '(ok, o) := net_if_ipv4_addr_add (ip c) o in
  if negb ok then o else
  let o := net_if_ipv4_set_netmask_by_addr (ip c) (netmask c) o in
  let o := net_if_ipv4_set_gw (gateway c) o in
  snd (dns_resolve_reconfigure (show_ipv4 dns) o).

(** The two events, with the configuration [cfg_get] then gives. *)
Inductive wifi_evt := ConnectResult (status : Z) | DisconnectResult.
Definition wifi_event (e : wifi_evt) (c : cfg) (s : wifi) : wifi :=
  match e with
  | ConnectResult 0 => s <| wf_os ::= ipv4_up c |>
  | _ => s <| wf_os ::= net_dhcpv4_stop |> <| connect_work := Some RETRY |>
  end.

Definition app_wifi_init (s : wifi) : wifi := s <| connect_work := Some 0 |>.
Definition app_wifi_reconnect (s : wifi) : wifi := s <| connect_work := Some 0 |>.

(** What else happens: the driver answers, or drops the link; [app_wifi_reconnect] is
    called; the rest of the machine moves. *)
Inductive wifi_step (c : cfg) : wifi -> wifi -> Prop :=
| answered s st : requested s = true ->
    wifi_step c s (wifi_event (ConnectResult st) c (s <| requested := false |> <| associated := (st =? 0) |>))
| dropped s : associated s = true -> wifi_step c s (wifi_event DisconnectResult c (s <| associated := false |>))
| reconnect s : wifi_step c s (app_wifi_reconnect s)
| elsewhere s o : wifi_step c s (s <| wf_os := o |>).

Definition nothing_stored (s : wifi) : bool := negb (sta_iface (wf_os s)) || wifi_credentials_is_empty (wf_os s).
(** The states reached, and whether the last attempt found no network to join. *)
Inductive wifi_reach : wifi -> bool -> Prop :=
| wifi_boot o : wifi_reach (app_wifi_init (mk_wifi None false false o)) false
| work_runs s d g : wifi_reach s g -> connect_work s = Some d ->
    wifi_reach (connect_work_fn (s <| connect_work := None |>)) (nothing_stored s)
| wifi_next c s s' g : wifi_reach s g -> wifi_step c s s' -> wifi_reach s' g.

(** In any order of requests, results, lost links and configuration changes, unless
    its last attempt found no stored network the camera is connected, waits for the
    driver's answer, or has the next attempt scheduled. *)
Theorem camera_keeps_joining s : wifi_reach s false ->
  connect_work s <> None \/ requested s = true \/ associated s = true.
Proof.
  cut (forall g, wifi_reach s g -> g = false -> connect_work s <> None \/ requested s = true \/ associated s = true); [eauto|].
  induction 1 as [o|s d g _ IH Hd|c s s' g _ IH Hs]; intros Hg.
  - by left.
  - unfold nothing_stored in Hg. unfold connect_work_fn. cbn. rewrite Hg.
    destruct (wifi_connect_stored _) as [r o]. destruct (r <? 0); cbn; auto.
  - specialize (IH Hg). destruct Hs as [s st Hq|s Ha|s|s o]; [..|exact IH].
    + destruct st; cbn; auto.
    + by left.
    + by left.
Qed.
End CamWifi.

(** A machine that joins on the second attempt. *)
#[local] Instance sim_sta : StaNet (H := sim_os) := {|
  sta_iface _ := true; wifi_credentials_is_empty _ := false;
  wifi_connect_stored w := (if sim_link_up w then 0 else - EIO, w <| sim_link_up := true |>);
  net_dhcpv4_start w := w; net_dhcpv4_stop w := w; net_if_ipv4_addr_add _ w := (true, w);
  net_if_ipv4_set_netmask_by_addr _ _ w := w; net_if_ipv4_set_gw _ w := w;
  dns_resolve_reconfigure _ w := (0, w);
|}.
Definition down : @os sim_os := sim_boot <| sim_link_up := false |>.
Notation tried := (connect_work_fn (H := sim_os) ((app_wifi_init (mk_wifi None false false down)) <| connect_work := None |>)).
Notation joined := (wifi_event (H := sim_os) (ConnectResult 0) sample_cfg
  ((connect_work_fn (H := sim_os) (tried <| connect_work := None |>)) <| requested := false |> <| associated := true |>)).
Lemma camera_keeps_joining_witness :
  connect_work tried = Some 10000 /\
  (connect_work joined <> None \/ requested joined = true \/ associated joined = true) /\ connect_work joined = None.
Proof.
  split; [by vm_compute|]. split; [|by vm_compute]. apply camera_keeps_joining.
  pose proof (work_runs (H := sim_os) (app_wifi_init (mk_wifi None false false down)) 0 false (wifi_boot _) eq_refl) as Ht.
  vm_compute nothing_stored in Ht. pose proof (work_runs (H := sim_os) tried 10000 false Ht eq_refl) as Hr.
  vm_compute nothing_stored in Hr. eapply (wifi_next (H := sim_os) sample_cfg); [exact Hr|].
  apply (answered (H := sim_os) sample_cfg _ 0). by vm_compute.
Defined.
