(* ===== verification/CodexJson.v ===== *)
(** codex_keys/src/codex_json.c: the scanner that dispatches JSON-RPC requests.

    A [const char *] into a text is the suffix it points at, and the empty
    suffix is its NUL.  The scanner works on raw text: [codex_json_member]
    returns the suffix at the member's value and the value's length.  The
    specification is the JSON grammar with arbitrary white space ([prints]);
    [codex_json_member_exact] says that on every object the grammar derives the
    scanner finds the first member with the key, and its whole value. *)

From Stdlib Require Import Ascii String.
From S2P Require Import Prelude Printf HttpUtil.

Definition backslash : ascii := ascii_of_nat 92.
Definition tab : ascii := ascii_of_nat 9.
Definition newline : ascii := ascii_of_nat 10.
Definition return_ : ascii := ascii_of_nat 13.

(** Membership of a character in a set written as a C string. *)
Definition one_of (cs : list ascii) (c : ascii) : bool := existsb (Ascii.eqb c) cs.
Definition is_ws : ascii -> bool := one_of [" "%char; tab; newline; return_].
Definition opens : ascii -> bool := one_of ["{"; "["]%char.
Definition closes : ascii -> bool := one_of ["}"; "]"]%char.
(** The set skip_value's scalar branch stops at. *)
Definition ends_scalar : ascii -> bool :=
  one_of [","; "}"; "]"; " "; tab; newline; return_]%char.

Fixpoint skip_ws (p : cstr) : cstr :=
  match p with
  | c :: p' => if is_ws c then skip_ws p' else p
  | [] => []
  end.

(** [skip_string], from the character after the opening quote. *)
Fixpoint skip_string (p : cstr) : option cstr :=
  match p with
  | [] => None
  | c :: p' =>
      if Ascii.eqb c dquote then Some p'
      else if Ascii.eqb c backslash then
        match p' with
        | [] => None
        | _ :: p'' => skip_string p''
        end
      else skip_string p'
  end.

(** [skip_value]'s do-while, one turn per unit of fuel; [None] for NULL.
    [value_loop_fuel] shows that fuel beyond the text's length is never used. *)
Fixpoint value_loop (fuel : nat) (p : cstr) (depth : Z) : option cstr :=
  match fuel with
  | O => None
  | S fuel =>
      let again (p : cstr) (depth : Z) :=
        if (0 <? depth)%Z then value_loop fuel p depth else Some p in
      match p with
      | [] => None
      | c :: p' =>
          if Ascii.eqb c dquote then
            match skip_string p' with None => None | Some p'' => again p'' depth end
          else if opens c then again p' (depth + 1)%Z
          else if closes c then again p' (depth - 1)%Z
          else again p' depth
      end
  end.

Fixpoint skip_scalar (p : cstr) : cstr :=
  match p with
  | c :: p' => if ends_scalar c then p else skip_scalar p'
  | [] => []
  end.

Definition skip_value (p : cstr) : option cstr :=
  match p with
  | c :: p' =>
      if Ascii.eqb c dquote then skip_string p'
      else if opens c then value_loop (S (length p)) p 0
      else Some (skip_scalar p)
  | [] => Some []
  end.

(** [codex_json_member]'s loop over the members, from after the brace or a
    comma: the value's suffix and length. *)
Fixpoint member_loop (fuel : nat) (p key : cstr) : option (cstr * nat) :=
  match fuel with
  | O => None
  | S fuel =>
      match skip_ws p with
      | c :: name =>
          if negb (Ascii.eqb c dquote) then None else
          match skip_string name with
          | None => None
          | Some name_end =>
              match skip_ws name_end with
              | c :: p =>
                  if negb (Ascii.eqb c ":") then None else
                  let value := skip_ws p in
                  match skip_value value with
                  | None => None
                  | Some value_end =>
                      let name_len := (length name - length name_end - 1)%nat in
                      if (name_len =? length key)%nat && bool_decide (take name_len name = key)
                      then Some (value, (length value - length value_end)%nat)
                      else
                        match skip_ws value_end with
                        | c :: p => if negb (Ascii.eqb c ",") then None else member_loop fuel p key
                        | [] => None
                        end
                  end
              | [] => None
              end
          end
      | [] => None
      end
  end.

Definition codex_json_member (json key : cstr) : option (cstr * nat) :=
  match skip_ws json with
  | c :: p => if negb (Ascii.eqb c "{") then None else member_loop (S (length p)) p key
  | [] => None
  end.

(** [val] NULL is [None]. *)
Definition codex_json_str_eq (val : option cstr) (len : nat) (expect : cstr) : bool :=
  match val with
  | Some (c :: v) =>
      if negb (len =? length expect + 2)%nat || negb (Ascii.eqb c dquote) then false
      else bool_decide (take (length expect) v = expect)
  | _ => false
  end.

(** * Specification: JSON texts *)

(** A string's raw contents: no bare quote, and no backslash but before a
    character it escapes. *)
Inductive str_body : cstr -> Prop :=
| body_nil : str_body []
| body_char c b : c <> dquote -> c <> backslash -> str_body b -> str_body (c :: b)
| body_escape c b : str_body b -> str_body (backslash :: c :: b).

(** The characters of numbers and of true, false and null. *)
Definition structural : list ascii :=
  ["{"; "}"; "["; "]"; ","; ":"; " "; tab; newline; return_; dquote]%char.
Definition scalar_char (c : ascii) : Prop := ~ In c structural.
Definition white (w : cstr) : Prop := Forall (fun c => is_ws c = true) w.

(** A JSON value; names, strings and scalars are raw text. *)
Inductive json :=
| JScalar (s : cstr)
| JString (b : cstr)
| JArray (items : list json)
| JObject (members : list (cstr * json)).

Definition quoted (b : cstr) : cstr := dquote :: b ++ [dquote].

(** [prints j t]: the text [t] derives the value [j], white space anywhere the
    grammar allows it. *)
Inductive prints : json -> cstr -> Prop :=
| p_scalar s : s <> [] -> Forall scalar_char s -> prints (JScalar s) s
| p_string b : str_body b -> prints (JString b) (quoted b)
| p_array js t : prints_items js t -> prints (JArray js) ("["%char :: t ++ ["]"%char])
| p_object ms t : prints_members ms t -> prints (JObject ms) ("{"%char :: t ++ ["}"%char])
with prints_items : list json -> cstr -> Prop :=
| i_nil w : white w -> prints_items [] w
| i_last w1 j t w2 : white w1 -> prints j t -> white w2 -> prints_items [j] (w1 ++ t ++ w2)
| i_cons w1 j t w2 js ts : white w1 -> prints j t -> white w2 -> js <> [] ->
    prints_items js ts -> prints_items (j :: js) (w1 ++ t ++ w2 ++ ","%char :: ts)
with prints_members : list (cstr * json) -> cstr -> Prop :=
| m_nil w : white w -> prints_members [] w
| m_last m t : prints_member m t -> prints_members [m] t
| m_cons m t ms ts : prints_member m t -> ms <> [] -> prints_members ms ts ->
    prints_members (m :: ms) (t ++ ","%char :: ts)
with prints_member : cstr * json -> cstr -> Prop :=
| m_member w1 name w2 w3 j t w4 : white w1 -> str_body name -> white w2 -> white w3 ->
    prints j t -> white w4 ->
    prints_member (name, j) (w1 ++ quoted name ++ w2 ++ ":"%char :: w3 ++ t ++ w4).

Scheme prints_mut := Induction for prints Sort Prop
  with prints_items_mut := Induction for prints_items Sort Prop
  with prints_members_mut := Induction for prints_members Sort Prop
  with prints_member_mut := Induction for prints_member Sort Prop.
Combined Scheme prints_ind' from prints_mut, prints_items_mut, prints_members_mut, prints_member_mut.

(** The first member of that name. *)
Definition member_of (key : cstr) (ms : list (cstr * json)) : option json :=
  snd <$> List.find (fun m => bool_decide (fst m = key)) ms.

(** * Lemmas *)

(** Every step of the scanner moves to a suffix. *)
Lemma skip_ws_suffix p : skip_ws p `suffix_of` p.
Proof.
  induction p as [|c p IH]; cbn [skip_ws]; [done|].
  destruct (is_ws c); [by apply suffix_cons_r|done].
Qed.

Lemma skip_string_suffix p q : skip_string p = Some q ->
  q `suffix_of` p /\ (length q < length p)%nat.
Proof.
  revert q. assert (forall n p, (length p <= n)%nat -> forall q, skip_string p = Some q ->
    q `suffix_of` p /\ (length q < length p)%nat) as Hn; [|by apply (Hn (length p) p)].
  clear p. induction n as [|n IH]; intros [|c p] Hl q E; cbn [length] in Hl; try done; [lia|].
  cbn [skip_string] in E. destruct (Ascii.eqb c dquote).
  { simplify_eq. split; [by apply suffix_cons_r|cbn; lia]. }
  destruct (Ascii.eqb c backslash).
  - destruct p as [|c' p]; [done|]. cbn [length] in *.
    destruct (IH p ltac:(lia) q E) as [Hs Hq]. split; [by do 2 apply suffix_cons_r|lia].
  - destruct (IH p ltac:(lia) q E) as [Hs Hq]. split; [by apply suffix_cons_r|cbn; lia].
Qed.

Lemma skip_scalar_suffix p : skip_scalar p `suffix_of` p.
Proof.
  induction p as [|c p IH]; cbn [skip_scalar]; [done|].
  destruct (ends_scalar c); [done|by apply suffix_cons_r].
Qed.

(** Fuel past the text's length is never used. *)
Lemma value_loop_fuel f1 f2 p d : (length p < f1)%nat -> (length p < f2)%nat ->
  value_loop f1 p d = value_loop f2 p d.
Proof.
  revert f2 p d. induction f1 as [|f1 IH]; intros [|f2] p d H1 H2; try lia.
  cbn [value_loop]. destruct p as [|c p]; [done|]. cbn [length] in *.
  assert (forall q e, (length q <= length p)%nat ->
    (if (0 <? e)%Z then value_loop f1 q e else Some q) =
    (if (0 <? e)%Z then value_loop f2 q e else Some q)) as Ha.
  { intros q e Hq. destruct (0 <? e)%Z; [|done]. apply IH; lia. }
  destruct (Ascii.eqb c dquote); [|destruct (opens c); [|destruct (closes c)]; by apply Ha].
  destruct (skip_string p) as [q|] eqn:E; [|done].
  apply skip_string_suffix in E as [_ Hq]. apply Ha. lia.
Qed.

Lemma value_loop_suffix f p d q : value_loop f p d = Some q -> q `suffix_of` p.
Proof.
  revert p d. induction f as [|f IH]; intros p d E; [done|]. cbn [value_loop] in E.
  destruct p as [|c p]; [done|].
  assert (forall q' e, q' `suffix_of` p ->
    (if (0 <? e)%Z then value_loop f q' e else Some q') = Some q -> q `suffix_of` c :: p) as Ha.
  { intros q' e Hq' Eq. apply suffix_cons_r. destruct (0 <? e)%Z; [|by simplify_eq].
    apply IH in Eq. by etrans. }
  destruct (Ascii.eqb c dquote).
  - destruct (skip_string p) as [q'|] eqn:Es; [|done].
    by apply (Ha _ _ (proj1 (skip_string_suffix _ _ Es)) E).
  - destruct (opens c); [|destruct (closes c)]; by eapply Ha.
Qed.

Lemma skip_value_suffix p q : skip_value p = Some q -> q `suffix_of` p.
Proof.
  unfold skip_value. destruct p as [|c p]; [by intros [= <-]|].
  destruct (Ascii.eqb c dquote).
  { intros [Hs _]%skip_string_suffix. by apply suffix_cons_r. }
  destruct (opens c); [apply value_loop_suffix|].
  intros [= <-]. apply skip_scalar_suffix.
Qed.

(** The loop with enough fuel, by its equations. *)
Definition nested (p : cstr) (depth : Z) : option cstr := value_loop (S (length p)) p depth.
Lemma nested_step c p d :
  nested (c :: p) d =
  let again p d := if (0 <? d)%Z then nested p d else Some p in
  if Ascii.eqb c dquote then
    match skip_string p with None => None | Some q => again q d end
  else if opens c then again p (d + 1)%Z
  else if closes c then again p (d - 1)%Z
  else again p d.
Proof.
  transitivity (if Ascii.eqb c dquote then
      match skip_string p with
      | None => None
      | Some q => if (0 <? d)%Z then value_loop (S (length p)) q d else Some q
      end
    else if opens c then if (0 <? d + 1)%Z then value_loop (S (length p)) p (d + 1) else Some p
    else if closes c then if (0 <? d - 1)%Z then value_loop (S (length p)) p (d - 1) else Some p
    else if (0 <? d)%Z then value_loop (S (length p)) p d else Some p); [reflexivity|].
  cbv zeta. unfold nested. destruct (Ascii.eqb c dquote); [|reflexivity].
  destruct (skip_string p) as [q|] eqn:E; [|reflexivity].
  apply skip_string_suffix in E as [_ Hq].
  rewrite (value_loop_fuel (S (length p)) (S (length q)) q d); [reflexivity|lia..].
Qed.

Lemma skip_ws_white w t : white w -> skip_ws (w ++ t) = skip_ws t.
Proof. induction 1 as [|c w Hc _ IH]; [done|]. cbn [skip_ws app]. by rewrite Hc. Qed.

Lemma skip_string_body b r : str_body b -> skip_string (b ++ dquote :: r) = Some r.
Proof.
  induction 1 as [|c b Hq Hb _ IH|c b _ IH]; cbn [skip_string app].
  - by rewrite Ascii.eqb_refl.
  - apply Ascii.eqb_neq in Hq as ->. by apply Ascii.eqb_neq in Hb as ->.
  - by rewrite IH.
Qed.

(** What the classes of characters say of each other. *)
Lemma one_of_spec cs c : one_of cs c = true <-> In c cs.
Proof.
  unfold one_of. rewrite existsb_exists. split.
  - intros (x & Hx & E). apply Ascii.eqb_eq in E as ->. done.
  - intros Hc. exists c. split; [done|apply Ascii.eqb_refl].
Qed.
Lemma one_of_false cs c : ~ In c cs -> one_of cs c = false.
Proof. rewrite <- one_of_spec. by destruct (one_of cs c). Qed.

Lemma scalar_char_other c : scalar_char c ->
  Ascii.eqb c dquote = false /\ opens c = false /\ closes c = false /\ is_ws c = false /\
  ends_scalar c = false.
Proof.
  unfold scalar_char. intros Hc. split_and!; [apply Ascii.eqb_neq; intros ->; apply Hc|apply one_of_false..];
    try (intros Hi; apply Hc); cbn in *; tauto.
Qed.
Lemma white_char c : is_ws c = true ->
  Ascii.eqb c dquote = false /\ opens c = false /\ closes c = false /\ ends_scalar c = true.
Proof.
  intros Hc%one_of_spec. cbn in Hc.
  repeat (destruct Hc as [<-|Hc]; [done|]). done.
Qed.

(** Inside brackets, the scanner passes over whatever the grammar derives. *)
Lemma nested_plain c p e : (0 < e)%Z ->
  Ascii.eqb c dquote = false -> opens c = false -> closes c = false ->
  nested (c :: p) e = nested p e.
Proof.
  intros He H1 H2 H3. rewrite nested_step, H1, H2, H3. cbv beta zeta iota.
  by apply Z.ltb_lt in He as ->.
Qed.

Lemma nested_white w p e : (0 < e)%Z -> white w -> nested (w ++ p) e = nested p e.
Proof.
  intros He. induction 1 as [|c w Hc _ IH]; [done|]. cbn [app].
  destruct (white_char c Hc) as (? & ? & ? & _). by rewrite nested_plain.
Qed.
Lemma nested_scalar s p e : (0 < e)%Z -> Forall scalar_char s -> nested (s ++ p) e = nested p e.
Proof.
  intros He. induction 1 as [|c w Hc _ IH]; [done|]. cbn [app].
  destruct (scalar_char_other c Hc) as (? & ? & ? & _). by rewrite nested_plain.
Qed.
Lemma nested_quoted b p e : (0 < e)%Z -> str_body b -> nested (quoted b ++ p) e = nested p e.
Proof.
  intros He Hb. unfold quoted. cbn [app]. rewrite nested_step, Ascii.eqb_refl, <- app_assoc.
  cbn [app]. rewrite skip_string_body by done. cbv zeta. by apply Z.ltb_lt in He as ->.
Qed.
(** A bracketed run from any depth. *)
Lemma nested_bracketed o c t p e : (0 <= e)%Z -> opens o = true -> closes c = true ->
  (forall p, nested (t ++ p) (e + 1) = nested p (e + 1)) ->
  nested (o :: (t ++ [c]) ++ p) e = if (0 <? e)%Z then nested p e else Some p.
Proof.
  intros He Ho Hc Ht.
  assert (Ascii.eqb o dquote = false /\ Ascii.eqb c dquote = false /\ opens c = false) as (E1 & E2 & E3).
  { apply one_of_spec in Ho, Hc. cbn in Ho, Hc.
    destruct Ho as [<-|[<-|[]]], Hc as [<-|[<-|[]]]; done. }
  rewrite nested_step, E1, Ho. cbv beta zeta iota. destruct (Z.ltb_spec 0 (e + 1)); [|lia].
  rewrite <- app_assoc, Ht. cbn [app]. rewrite nested_step, E2, E3, Hc. cbv beta zeta iota.
  by rewrite Z.add_simpl_r.
Qed.

Lemma nested_prints :
  (forall j t, prints j t -> forall p e, (0 < e)%Z -> nested (t ++ p) e = nested p e) /\
  (forall js t, prints_items js t -> forall p e, (0 < e)%Z -> nested (t ++ p) e = nested p e) /\
  (forall ms t, prints_members ms t -> forall p e, (0 < e)%Z -> nested (t ++ p) e = nested p e) /\
  (forall m t, prints_member m t -> forall p e, (0 < e)%Z -> nested (t ++ p) e = nested p e).
Proof.
  apply prints_ind'.
  - intros s _ Hs p e He. by apply nested_scalar.
  - intros b Hb p e He. by apply nested_quoted.
  - intros js t _ IH p e He. cbn [app].
    rewrite nested_bracketed by (done || lia || (intros; apply IH; lia)).
    by apply Z.ltb_lt in He as ->.
  - intros ms t _ IH p e He. cbn [app].
    rewrite nested_bracketed by (done || lia || (intros; apply IH; lia)).
    by apply Z.ltb_lt in He as ->.
  - intros w Hw p e He. by apply nested_white.
  - intros w1 j t w2 H1 _ IH H2 p e He. rewrite <- !app_assoc.
    rewrite nested_white by done. rewrite IH by done. by rewrite nested_white.
  - intros w1 j t w2 js ts H1 _ IH H2 _ _ IHs p e He. rewrite <- !app_assoc. cbn [app].
    rewrite nested_white by done. rewrite IH by done. rewrite nested_white by done.
    rewrite nested_plain by done. by apply IHs.
  - intros w Hw p e He. by apply nested_white.
  - intros m t _ IH p e He. by apply IH.
  - intros m t ms ts _ IH _ _ IHs p e He. rewrite <- !app_assoc. cbn [app].
    rewrite IH by done. rewrite nested_plain by done. by apply IHs.
  - intros w1 name w2 w3 j t w4 H1 Hn H2 H3 _ IH H4 p e He. rewrite <- !app_assoc. cbn [app].
    rewrite nested_white by done. rewrite nested_quoted by done. rewrite nested_white by done.
    rewrite nested_plain by done. rewrite <- !app_assoc. rewrite nested_white by done.
    rewrite IH by done. by rewrite nested_white.
Qed.

Lemma skip_scalar_spec s p : Forall scalar_char s ->
  (forall c q, p = c :: q -> ends_scalar c = true) -> skip_scalar (s ++ p) = p.
Proof.
  intros Hs Hp. induction Hs as [|c s Hc _ IH]; cbn [app skip_scalar].
  - destruct p as [|c q]; [done|]. cbn [skip_scalar]. by rewrite (Hp c q).
  - by destruct (scalar_char_other c Hc) as (_ & _ & _ & _ & ->).
Qed.

(** A value is skipped whole, whatever follows that can follow a value. *)
Lemma skip_value_prints j t p : prints j t ->
  (forall c q, p = c :: q -> ends_scalar c = true) -> skip_value (t ++ p) = Some p.
Proof.
  intros Hj Hp. destruct Hj as [s Hne Hs|b Hb|js t Hjs|ms t Hms].
  - destruct s as [|c s]; [done|]. unfold skip_value. cbn [app].
    pose proof Hs as Hs'. apply Forall_cons in Hs' as [Hc _].
    destruct (scalar_char_other c Hc) as (-> & -> & _). f_equal.
    by apply (skip_scalar_spec (c :: s)).
  - unfold quoted, skip_value. cbn [app]. rewrite Ascii.eqb_refl, <- app_assoc. by apply skip_string_body.
  - unfold skip_value. cbn [app Ascii.eqb]. change (opens "[") with true. cbv iota.
    change (nested ("["%char :: (t ++ ["]"%char]) ++ p) 0 = Some p).
    rewrite nested_bracketed; try done. intros q. apply nested_prints with (js := js); [done|lia].
  - unfold skip_value. cbn [app Ascii.eqb]. change (opens "{") with true. cbv iota.
    change (nested ("{"%char :: (t ++ ["}"%char]) ++ p) 0 = Some p).
    rewrite nested_bracketed; try done. intros q.
    destruct nested_prints as (_ & _ & Hm & _). apply (Hm ms); [done|lia].
Qed.

(** The first character of a value is neither white space nor a quote's end. *)
Lemma prints_head j t : prints j t -> exists c t', t = c :: t' /\ is_ws c = false.
Proof.
  intros [s Hne Hs|b _|js t' _|ms t' _]; try by eexists _, _.
  destruct Hs as [|c s Hc]; [done|]. exists c, s. split; [done|]. apply (scalar_char_other c Hc).
Qed.
Lemma skip_ws_prints w j t p : white w -> prints j t -> skip_ws (w ++ t ++ p) = t ++ p.
Proof.
  intros Hw Hj. rewrite skip_ws_white by done.
  destruct (prints_head j t Hj) as (c & t' & -> & Hc). cbn [app skip_ws]. by rewrite Hc.
Qed.

(** One member and what follows it. *)
Lemma member_loop_step fuel name j t key c q :
  prints_member (name, j) t -> In c ["}"; ","]%char ->
  exists v w, prints j v /\
    member_loop (S fuel) (t ++ c :: q) key =
    if bool_decide (name = key) then Some (v ++ w ++ c :: q, length v)
    else if Ascii.eqb c "," then member_loop fuel q key else None.
Proof.
  intros Hm Hc. remember (name, j) as m eqn:Em.
  destruct Hm as [w1 name' w2 w3 j' v w4 H1 Hn H2 H3 Hv H4]. injection Em as -> ->.
  exists v, w4. split; [done|].
  assert (forall c' q', w4 ++ c :: q = c' :: q' -> ends_scalar c' = true) as Hend.
  { intros c' q' E. destruct H4 as [|x w4 Hx _]; cbn [app] in E; injection E as <- <-.
    - destruct Hc as [<-|[<-|[]]]; done.
    - apply (white_char x Hx). }
  assert (is_ws c = false) as Hcw by (destruct Hc as [<-|[<-|[]]]; done).
  rewrite <- !app_assoc. cbn [app]. unfold quoted at 1. cbn [member_loop].
  rewrite skip_ws_white by done. cbn [app skip_ws].
  change (is_ws dquote) with false. cbv iota. rewrite Ascii.eqb_refl. cbn [negb].
  rewrite <- (app_assoc name). cbn [app]. rewrite skip_string_body by done.
  rewrite skip_ws_white by done. cbn [skip_ws]. change (is_ws ":") with false. cbv iota.
  rewrite Ascii.eqb_refl. cbn [negb]. rewrite <- !app_assoc. rewrite (skip_ws_prints w3 j) by done.
  rewrite (skip_value_prints j v (w4 ++ c :: q) Hv Hend).
  match goal with |- context [take ?n _] => assert (n = length name) as ->
    by (repeat (rewrite length_app || cbn [length]); lia) end.
  rewrite take_app_length, (length_app v), Nat.add_sub.
  destruct (decide (name = key)) as [->|Hne].
  - by rewrite Nat.eqb_refl, !bool_decide_eq_true_2.
  - rewrite !bool_decide_eq_false_2, andb_false_r by done.
    rewrite skip_ws_white by done. cbn [skip_ws]. rewrite Hcw.
    destruct Hc as [<-|[<-|[]]]; done.
Qed.

Lemma member_loop_prints ms t key q fuel : prints_members ms t ->
  (length t < fuel)%nat ->
  match member_of key ms with
  | Some j => exists v w, prints j v /\
      member_loop fuel (t ++ "}"%char :: q) key = Some (v ++ w, length v)
  | None => member_loop fuel (t ++ "}"%char :: q) key = None
  end.
Proof.
  revert t fuel. induction ms as [|[name j] ms IH]; intros t fuel Hm Hf;
    (destruct fuel as [|fuel]; [lia|]).
  - inversion Hm as [w Hw| |]; subst. unfold member_of. cbn [List.find member_loop fmap option_fmap option_map].
    by rewrite skip_ws_white.
  - unfold member_of. cbn [List.find fst].
    inversion Hm as [|m t' Hmem|m t' ms' ts Hmem Hne Hms]; subst.
    + destruct (member_loop_step fuel name j t key "}" q Hmem ltac:(by left)) as (v & w & Hv & ->).
      case_bool_decide; [|done]. cbn. exists v, (w ++ "}"%char :: q). split; done.
    + rewrite length_app in Hf. cbn [length] in Hf. rewrite <- app_assoc. cbn [app].
      destruct (member_loop_step fuel name j t' key "," (ts ++ "}"%char :: q) Hmem
        ltac:(by right; left)) as (v & w & Hv & ->).
      case_bool_decide; [|apply IH; [done|lia]].
      cbn. exists v, (w ++ ","%char :: ts ++ "}"%char :: q). split; done.
Qed.

Lemma member_loop_slice fuel p key v n : member_loop fuel p key = Some (v, n) ->
  v `suffix_of` p /\ (n <= length v)%nat.
Proof.
  revert p. induction fuel as [|fuel IH]; intros p E; [done|]. cbn [member_loop] in E.
  pose proof (skip_ws_suffix p) as H1. destruct (skip_ws p) as [|c name]; [done|].
  destruct (negb _); [done|].
  destruct (skip_string name) as [name_end|] eqn:E2; [|done].
  apply skip_string_suffix in E2 as [H2 _].
  pose proof (skip_ws_suffix name_end) as H3. destruct (skip_ws name_end) as [|c' p']; [done|].
  destruct (negb _); [done|]. pose proof (skip_ws_suffix p') as H4.
  assert (skip_ws p' `suffix_of` p) as Hv.
  { etrans; [exact H4|]. etrans; [by apply suffix_cons_r|]. etrans; [exact H3|].
    etrans; [exact H2|]. etrans; [by apply suffix_cons_r|exact H1]. }
  destruct (skip_value (skip_ws p')) as [value_end|] eqn:E5; [|done].
  apply skip_value_suffix in E5.
  destruct (_ && _).
  { injection E as <- <-. split; [done|lia]. }
  pose proof (skip_ws_suffix value_end) as H6.
  destruct (skip_ws value_end) as [|c6 p6]; [done|]. destruct (negb _); [done|].
  apply IH in E as [Hs Hn]. split; [|done].
  etrans; [exact Hs|]. etrans; [by apply suffix_cons_r|]. etrans; [exact H6|]. by etrans.
Qed.

(** [codex_json_member] on an object's text. *)
Lemma member_prints ms t w q key : prints (JObject ms) t -> white w ->
  match member_of key ms with
  | Some j => exists v r, prints j v /\ codex_json_member (w ++ t ++ q) key = Some (v ++ r, length v)
  | None => codex_json_member (w ++ t ++ q) key = None
  end.
Proof.
  intros Hp Hw. unfold codex_json_member. rewrite (skip_ws_prints w _ _ _ Hw Hp).
  remember (JObject ms) as j eqn:Ej. destruct Hp as [| | |ms' t Hms]; try done. injection Ej as ->.
  cbn [app Ascii.eqb negb]. rewrite <- app_assoc. cbn [app].
  apply member_loop_prints; [done|]. rewrite length_app. cbn. lia.
Qed.

(** * Properties *)

(** C37: The scanner agrees with the JSON grammar.  On the text of any object,
    with white space anywhere the grammar allows and anything after the
    closing brace, the value returned for a key is, in full and with nothing
    else, the raw text of the first top-level member of that name, and there is
    none exactly when the object has no such member: nested members, strings
    with escapes and brackets in strings never mislead it. *)
Theorem codex_json_member_exact ms t w q key :
  prints (JObject ms) t -> white w ->
  match member_of key ms with
  | Some j => exists v r, prints j v /\
      codex_json_member (w ++ t ++ q) key = Some (v ++ r, length v)
  | None => codex_json_member (w ++ t ++ q) key = None
  end.
Proof. apply member_prints. Qed.

(** On any text at all, malformed or cut short, the scanner stays inside
    it: what it returns is a suffix of the text it was given, and the length
    no longer than that suffix. *)
Theorem codex_json_member_in_bounds json key v n :
  codex_json_member json key = Some (v, n) -> v `suffix_of` json /\ (n <= length v)%nat.
Proof.
  unfold codex_json_member. pose proof (skip_ws_suffix json) as Hs.
  destruct (skip_ws json) as [|c p]; [done|]. destruct (negb _); [done|].
  intros E%member_loop_slice. destruct E as [Hv Hn]. split; [|done].
  etrans; [exact Hv|]. etrans; [by apply suffix_cons_r|exact Hs].
Qed.

(** * Witnesses

    The id inside the params does not shadow the request's. *)
Definition text (s : string) : cstr := to_chars (q s).
Definition demo_members : list (cstr * json) :=
  [(text "p", JObject [(text "id", JScalar (text "9"))]); (text "id", JScalar (text "7"))].
Definition demo_object : cstr := text "{'p':{'id':9},'id': 7}".

Lemma scalar_chars s : forallb (fun c => negb (existsb (Ascii.eqb c) structural)) s = true ->
  Forall scalar_char s.
Proof.
  intros Hs. apply Forall_forall. intros c Hc%list_elem_of_In.
  apply (proj1 (forallb_forall _ _) Hs) in Hc. intros Hi. apply negb_true_iff in Hc.
  apply (proj2 (one_of_spec structural c)) in Hi. unfold one_of in Hi. congruence.
Qed.
Lemma plain_body b :
  forallb (fun c => negb (Ascii.eqb c dquote || Ascii.eqb c backslash)) b = true -> str_body b.
Proof.
  induction b as [|c b IH]; cbn [forallb]; intros Hb; [constructor|]. to_prop.
  constructor; [by apply Ascii.eqb_neq..|by apply IH].
Qed.
Lemma compact_member name j t : str_body name -> prints j t ->
  prints_member (name, j) (quoted name ++ ":"%char :: t).
Proof.
  intros Hn Hj. pose proof (m_member [] name [] [] j t [] ltac:(constructor) Hn ltac:(constructor)
    ltac:(constructor) Hj ltac:(constructor)) as Hm. cbn [app] in Hm. by rewrite app_nil_r in Hm.
Qed.

Lemma demo_object_prints : prints (JObject demo_members) demo_object.
Proof.
  assert (prints (JObject [(text "id", JScalar (text "9"))]) (text "{'id':9}")) as Hin.
  { refine (p_object _ (text "'id':9") (m_last _ _ _)).
    apply (compact_member (text "id")); [by apply plain_body|].
    constructor; [done|by apply scalar_chars]. }
  refine (p_object _ (text "'p':{'id':9},'id': 7") _).
  refine (m_cons (text "p", _) (text "'p':{'id':9}") _ (text "'id': 7") _ _ (m_last _ _ _)).
  - apply (compact_member (text "p")); [by apply plain_body|exact Hin].
  - done.
  - assert (white [" "%char]) by (constructor; [done|constructor]).
    apply (m_member [] (text "id") [] [" "%char] (JScalar (text "7")) (text "7") []);
      try done; try constructor; try done; [by apply plain_body|by apply scalar_chars].
Qed.

Example codex_json_member_exact_witness : exists v r, prints (JScalar (text "7")) v /\
  codex_json_member (demo_object ++ text " ") (text "id") = Some (v ++ r, length v).
Proof.
  exact (codex_json_member_exact demo_members demo_object [] (text " ") (text "id")
           demo_object_prints ltac:(constructor)).
Defined.

Example codex_json_member_in_bounds_witness :
  text "7}" `suffix_of` demo_object /\ (1 <= length (text "7}"))%nat.
Proof.
  apply (codex_json_member_in_bounds demo_object (text "id")). vm_compute. reflexivity.
Defined.
