(* ===== verification/CodexHid.v ===== *)
(** codex_keys/src/codex_hid.c: JSON messages over 63-byte HID reports.

    A message is sent as its text and a newline, in fragments of at most 61
    bytes, each a report [type 2][length][bytes] padded with zeros; the other
    side appends the fragments' bytes to [rx_buf] until they hold a complete
    object.  [rx_buf]'s [rx_len] valid bytes are a list.  Bytes are [ascii].
    The Bluetooth HID service is the class [BtHids]; what it is asked to send
    is logged. *)

From Stdlib Require Import Ascii String.
From S2P Require Import Prelude Printf Platform HttpUtil CodexJson.

Definition CODEX_JSON_MAX : nat := 512.
Definition REPORT_ID : ascii := ascii_of_nat 6.
Definition REPORT_BODY_LEN : nat := 63.
Definition PAYLOAD_MAX : nat := REPORT_BODY_LEN - 2.
Definition MSG_TYPE_JSON : ascii := ascii_of_nat 2.

(** ** Receiving *)

(** [rx_object_complete]'s loop, its index the list's head. *)
Fixpoint object_complete (s : list ascii) (depth : Z) (in_string : bool) : bool :=
  match s with
  | [] => false
  | c :: s' =>
      if in_string then
        if Ascii.eqb c backslash then
          match s' with [] => false | _ :: s'' => object_complete s'' depth true end
        else if Ascii.eqb c dquote then object_complete s' depth false
        else object_complete s' depth true
      else if Ascii.eqb c dquote then object_complete s' depth true
      else if Ascii.eqb c "{" then object_complete s' (depth + 1) false
      else if Ascii.eqb c "}" then
        (depth - 1 =? 0)%Z || object_complete s' (depth - 1) false
      else object_complete s' depth false
  end.
Definition rx_object_complete (rx_buf : list ascii) : bool := object_complete rx_buf 0 false.

Fixpoint skip_to_brace (payload : list ascii) : list ascii :=
  match payload with
  | c :: p => if Ascii.eqb c "{" then payload else skip_to_brace p
  | [] => []
  end.

(** The string a buffer holds for its callee: the bytes before the first NUL. *)
Fixpoint c_string (b : list ascii) : cstr :=
  match b with
  | c :: b' => if Ascii.eqb c zero then [] else c :: c_string b'
  | [] => []
  end.

(** A fragment that looks like a new request. *)
Definition method_prefix : list ascii := text "{'method'".
Definition looks_fresh (payload : list ascii) : bool :=
  (9 <=? length payload)%nat && bool_decide (take 9 payload = method_prefix).

(** The new buffer, and the call of [codex_rpc_handle] if there is one. *)
Definition rx_append (payload rx_buf : list ascii) : list ascii * option cstr :=
  let rx_buf := if (0 <? length rx_buf)%nat && looks_fresh payload then [] else rx_buf in
  let payload := if (length rx_buf =? 0)%nat then skip_to_brace payload else payload in
  if (length payload =? 0)%nat then (rx_buf, None)
  else if (CODEX_JSON_MAX <=? length rx_buf + length payload)%nat then ([], None)
  else
    let rx_buf := rx_buf ++ payload in
    if rx_object_complete rx_buf then ([], Some (c_string rx_buf)) else (rx_buf, None).

Inductive bt_hids_report_type :=
  BT_HIDS_REPORT_TYPE_INPUT | BT_HIDS_REPORT_TYPE_OUTPUT | BT_HIDS_REPORT_TYPE_FEATURE.

Definition set_report (type : bt_hids_report_type) (id : ascii) (data rx_buf : list ascii)
  : list ascii * option cstr :=
  match type with
  | BT_HIDS_REPORT_TYPE_OUTPUT =>
      if negb (Ascii.eqb id REPORT_ID) then (rx_buf, None) else
      let len := length data in
      let body := if (3 <=? len)%nat && Ascii.eqb (nth 0 data zero) REPORT_ID then 1%nat else 0%nat in
      if (len <? body + 2)%nat || negb (Ascii.eqb (nth body data zero) MSG_TYPE_JSON)
      then (rx_buf, None)
      else
        let payload_len := Nat.min (nat_of_ascii (nth (body + 1) data zero)) PAYLOAD_MAX in
        if (len <? body + 2 + payload_len)%nat then (rx_buf, None)
        else rx_append (take payload_len (drop (body + 2) data)) rx_buf
  | _ => (rx_buf, None)
  end.

(** ** Sending *)

(** [framed] in pieces of at most PAYLOAD_MAX, one turn of the send loop each. *)
Fixpoint fragments (fuel : nat) (framed : list ascii) : list (list ascii) :=
  match fuel, framed with
  | S fuel, _ :: _ => take PAYLOAD_MAX framed :: fragments fuel (drop PAYLOAD_MAX framed)
  | _, _ => []
  end.
Definition report (chunk : list ascii) : list ascii :=
  MSG_TYPE_JSON :: ascii_of_nat (length chunk) ::
  chunk ++ replicate (PAYLOAD_MAX - length chunk) zero.
Definition framed (json : cstr) : list ascii := json ++ [newline].
Definition reports_of (json : cstr) : list (list ascii) :=
  map report (fragments (length (framed json)) (framed json)).

Class BtHids `{Os} := {
  bt_hids_send_report : ascii -> list ascii -> os -> Z * os;
}.

Section Send.
Context `{BtHids}.

Record hid_tx := mk_hid_tx { tx_machine : os; tx_log : list (list ascii) }.

Fixpoint send_reports (rs : list (list ascii)) (w : hid_tx) : Z * hid_tx :=
  match rs with
  | [] => (0%Z, w)
  | r :: rs =>
      let '(ret, o) := bt_hids_send_report REPORT_ID r (tx_machine w) in
      let w := mk_hid_tx o (tx_log w ++ [r]) in
      if negb (ret =? 0)%Z then (ret, w) else send_reports rs w
  end.

Definition codex_hid_send (json : cstr) (w : hid_tx) : Z * hid_tx :=
  if (CODEX_JSON_MAX <=? length (framed json))%nat then ((- EMSGSIZE)%Z, w)
  else send_reports (reports_of json) w.
End Send.

(** * Specification *)

(** A host's output reports, in order: the buffer after them and the requests
    handed on. *)
Fixpoint deliver (rs : list (list ascii)) (rx_buf : list ascii) : list ascii * list cstr :=
  match rs with
  | [] => (rx_buf, [])
  | r :: rs =>
      let '(rx_buf, call) := set_report BT_HIDS_REPORT_TYPE_OUTPUT REPORT_ID r rx_buf in
      let '(rx_buf, calls) := deliver rs rx_buf in
      (rx_buf, option_list call ++ calls)
  end.

(** No fragment but the first looks like a new request. *)
Definition no_fresh_fragment (json : cstr) : bool :=
  forallb (fun c => negb (looks_fresh c)) (tl (fragments (length (framed json)) (framed json))).

(** * Lemmas *)

(** [t], read inside an object, neither closes it nor leaves a string open;
    nor does any prefix of it close it. *)
Definition stays_inside (t : list ascii) : Prop :=
  forall d, (0 < d)%Z ->
    (forall r, object_complete (t ++ r) d false = object_complete r d false) /\
    (forall p, p `prefix_of` t -> object_complete p d false = false).

Lemma prefix_app_cases {A} (p a b : list A) : p `prefix_of` a ++ b ->
  p `prefix_of` a \/ exists p', p = a ++ p' /\ p' `prefix_of` b.
Proof.
  intros [k E]. destruct (app_eq_inv _ _ _ _ E) as [(k' & -> & ->)|(k' & -> & ->)].
  - left. by exists k'.
  - right. exists k'. split; [done|]. by exists k.
Qed.
Lemma prefix_cons_cases {A} (p : list A) c b : p `prefix_of` c :: b ->
  p = [] \/ exists p', p = c :: p' /\ p' `prefix_of` b.
Proof.
  intros [k E]. destruct p as [|x p]; [by left|]. injection E as -> ->. right.
  exists p. split; [done|]. by exists k.
Qed.

Lemma inside_nil : stays_inside [].
Proof. intros d _. split; [done|]. intros p Hp. apply prefix_nil_inv in Hp as ->. done. Qed.
Lemma inside_app t1 t2 : stays_inside t1 -> stays_inside t2 -> stays_inside (t1 ++ t2).
Proof.
  intros H1 H2 d Hd. destruct (H1 d Hd) as [A1 B1], (H2 d Hd) as [A2 B2]. split.
  - intros r. by rewrite <- app_assoc, A1.
  - intros p [Hp|(p' & -> & Hp)]%prefix_app_cases; [by apply B1|].
    rewrite A1. by apply B2.
Qed.
(** A character the scanner passes over. *)
Definition passes (c : ascii) : Prop :=
  Ascii.eqb c dquote = false /\ Ascii.eqb c "{" = false /\ Ascii.eqb c "}" = false.
Lemma inside_char c t : passes c -> stays_inside t -> stays_inside (c :: t).
Proof.
  intros (E1 & E2 & E3) Ht d Hd. destruct (Ht d Hd) as [A B]. split.
  - intros r. cbn [app object_complete]. by rewrite E1, E2, E3, A.
  - intros p [->|(p' & -> & Hp)]%prefix_cons_cases; [done|].
    cbn [object_complete]. rewrite E1, E2, E3. by apply B.
Qed.
Lemma inside_chars t : Forall passes t -> stays_inside t.
Proof. induction 1; [apply inside_nil|by apply inside_char]. Qed.

(** In a string, up to its closing quote. *)
Lemma in_string_body b d : str_body b ->
  (forall r, object_complete (b ++ dquote :: r) d true = object_complete r d false) /\
  (forall p, p `prefix_of` b -> object_complete p d true = false).
Proof.
  induction 1 as [|c b Hq Hb _ [A B]|c b _ [A B]].
  - split; [done|]. intros p Hp. apply prefix_nil_inv in Hp as ->. done.
  - apply Ascii.eqb_neq in Hq, Hb. split.
    + intros r. cbn [app object_complete]. by rewrite Hb, Hq, A.
    + intros p [->|(p' & -> & Hp)]%prefix_cons_cases; [done|].
      cbn [object_complete]. rewrite Hb, Hq. by apply B.
  - split.
    + intros r. cbn [app object_complete]. by rewrite Ascii.eqb_refl, A.
    + intros p [->|(p' & -> & Hp)]%prefix_cons_cases; [done|].
      cbn [object_complete]. rewrite Ascii.eqb_refl.
      apply prefix_cons_cases in Hp as [->|(p'' & -> & Hp)]; [done|]. by apply B.
Qed.
Lemma inside_quoted b : str_body b -> stays_inside (quoted b).
Proof.
  intros Hb d Hd. destruct (in_string_body b d Hb) as [A B]. unfold quoted. split.
  - intros r. cbn [app object_complete]. change (Ascii.eqb dquote dquote) with true. cbv iota.
    rewrite <- app_assoc. cbn [app]. by rewrite A.
  - intros p [->|(p' & -> & Hp)]%prefix_cons_cases; [done|].
    cbn [object_complete]. change (Ascii.eqb dquote dquote) with true. cbv iota.
    apply prefix_app_cases in Hp as [Hp|(p'' & -> & Hp)]; [by apply B|].
    apply prefix_cons_cases in Hp as [->|(p3 & -> & Hp)].
    + rewrite app_nil_r. by apply B.
    + rewrite A. apply prefix_nil_inv in Hp as ->. done.
Qed.

Lemma scalar_passes c : scalar_char c -> passes c.
Proof.
  unfold scalar_char. intros Hc. split_and!; apply Ascii.eqb_neq; intros ->; apply Hc; cbn; tauto.
Qed.
Lemma white_passes c : is_ws c = true -> passes c.
Proof.
  intros Hc%one_of_spec. cbn in Hc. repeat (destruct Hc as [<-|Hc]; [done|]). done.
Qed.
Lemma inside_white w : white w -> stays_inside w.
Proof. intros Hw. apply inside_chars. eapply Forall_impl; [exact Hw|]. apply white_passes. Qed.

(** An object one level down. *)
Lemma inside_braces t : stays_inside t -> stays_inside ("{"%char :: t ++ ["}"%char]).
Proof.
  intros Ht d Hd. destruct (Ht (d + 1)%Z ltac:(lia)) as [A B].
  assert (forall r, object_complete ("}"%char :: r) (d + 1) false = object_complete r d false) as Hc.
  { intros r. cbn [object_complete]. change (Ascii.eqb "}" dquote) with false.
    change (Ascii.eqb "}" "{") with false. change (Ascii.eqb "}" "}") with true. cbv iota.
    rewrite Z.add_simpl_r. destruct (Z.eqb_spec d 0); [lia|done]. }
  split.
  - intros r. change (object_complete ((t ++ ["}"%char]) ++ r) (d + 1) false = object_complete r d false).
    rewrite <- app_assoc, A. cbn [app]. by rewrite Hc.
  - intros p [->|(p' & -> & Hp)]%prefix_cons_cases; [done|].
    change (object_complete p' (d + 1) false = false).
    apply prefix_app_cases in Hp as [Hp|(p2 & -> & Hp)]; [by apply B|]. rewrite A.
    apply prefix_cons_cases in Hp as [->|(p3 & -> & Hp)]; [done|].
    rewrite Hc. apply prefix_nil_inv in Hp as ->. done.
Qed.

Lemma prints_inside :
  (forall j t, prints j t -> stays_inside t) /\ (forall js t, prints_items js t -> stays_inside t) /\
  (forall ms t, prints_members ms t -> stays_inside t) /\
  (forall m t, prints_member m t -> stays_inside t).
Proof.
  apply prints_ind'; intros;
    repeat first [done | by apply inside_white | by apply inside_quoted | by apply inside_braces
                 | apply inside_app | (apply inside_char; [by split|])].
  - apply inside_chars. eapply Forall_impl; [eassumption|]. apply scalar_passes.
  - apply inside_nil.
Qed.

(** The scanner sees the end of an object exactly at its end. *)
Lemma object_complete_exact ms t : prints (JObject ms) t ->
  (forall r, rx_object_complete (t ++ r) = true) /\
  (forall p, p `prefix_of` t -> p <> t -> rx_object_complete p = false).
Proof.
  intros Hp. remember (JObject ms) as j eqn:Ej. destruct Hp as [| | |ms' t Hms]; try done.
  destruct prints_inside as (_ & _ & Hm & _). destruct (Hm ms' t Hms 1%Z ltac:(lia)) as [A B].
  unfold rx_object_complete. split.
  - intros r. change (object_complete ((t ++ ["}"%char]) ++ r) 1 false = true).
    by rewrite <- app_assoc, A.
  - intros p [->|(p' & -> & Hp)]%prefix_cons_cases Hne; [done|].
    change (object_complete p' 1 false = false).
    apply prefix_app_cases in Hp as [Hp|(p2 & -> & Hp)]; [by apply B|].
    apply prefix_cons_cases in Hp as [->|(p3 & -> & Hp)].
    + rewrite app_nil_r. by apply B.
    + apply prefix_nil_inv in Hp as ->. done.
Qed.

(** Fragments cut the message up and lose nothing. *)
Definition fragment_size (c : list ascii) : Prop := (1 <= length c <= PAYLOAD_MAX)%nat.
Lemma fragments_concat fuel s : (length s <= fuel)%nat -> concat (fragments fuel s) = s.
Proof.
  revert s. induction fuel as [|fuel IH]; intros [|c s] Hl; cbn [length] in Hl; try done; [lia|].
  cbn [fragments concat]. rewrite IH, take_drop; [done|]. rewrite length_drop. cbn [length].
  unfold PAYLOAD_MAX, REPORT_BODY_LEN. lia.
Qed.
Lemma fragments_size fuel s : Forall fragment_size (fragments fuel s).
Proof.
  revert s. induction fuel as [|fuel IH]; intros [|c s]; cbn [fragments]; constructor; [|apply IH].
  unfold fragment_size. rewrite length_take. cbn [length]. unfold PAYLOAD_MAX, REPORT_BODY_LEN. lia.
Qed.

(** A report hands on the bytes it was made from. *)
Lemma set_report_report c rx : fragment_size c ->
  set_report BT_HIDS_REPORT_TYPE_OUTPUT REPORT_ID (report c) rx = rx_append c rx.
Proof.
  intros [Hc1 Hc2]. unfold set_report. rewrite Ascii.eqb_refl. cbn [negb].
  assert (length (report c) = REPORT_BODY_LEN) as Hl.
  { unfold report. cbn [length]. rewrite length_app, length_replicate.
    unfold PAYLOAD_MAX, REPORT_BODY_LEN in *. lia. }
  rewrite Hl. change (3 <=? REPORT_BODY_LEN)%nat with true.
  change (Ascii.eqb (nth 0 (report c) zero) REPORT_ID) with false. cbn [andb].
  change (nth 0 (report c) zero) with MSG_TYPE_JSON. rewrite Ascii.eqb_refl.
  change (REPORT_BODY_LEN <? 0 + 2)%nat with false. cbn [negb orb].
  change (nth (0 + 1) (report c) zero) with (ascii_of_nat (length c)).
  rewrite nat_ascii_embedding by (unfold PAYLOAD_MAX, REPORT_BODY_LEN in *; lia).
  rewrite Nat.min_l by done.
  destruct (Nat.ltb_spec REPORT_BODY_LEN (0 + 2 + length c)) as [Hlt|_].
  { unfold PAYLOAD_MAX, REPORT_BODY_LEN in *. lia. }
  f_equal. exact (take_app_length c _).
Qed.

Lemma c_string_plain b : Forall (fun c => c <> zero) b -> c_string b = b.
Proof.
  induction 1 as [|c b Hc _ IH]; [done|]. cbn [c_string]. apply Ascii.eqb_neq in Hc as ->.
  by rewrite IH.
Qed.

(** [rx_append] on the fragments of one message, what came before being [rx]. *)
Section Reassembly.
Variables (ms : list (cstr * json)) (json : cstr).
Hypothesis Hjson : prints (JObject ms) json.
Hypothesis Hnul : Forall (fun c => c <> zero) json.
Hypothesis Hmax : (length (framed json) < CODEX_JSON_MAX)%nat.

Lemma append_fragment c rx cs : rx ++ c ++ cs = framed json -> fragment_size c ->
  (length rx < length json)%nat -> (rx <> [] -> looks_fresh c = false) ->
  rx_append c rx =
    if (length (rx ++ c) <? length json)%nat then (rx ++ c, None) else ([], Some (rx ++ c)).
Proof.
  intros E [Hc _] Hrx Hfresh. destruct (object_complete_exact ms json Hjson) as [Hdone Hopen].
  unfold rx_append.
  assert ((0 <? length rx)%nat && looks_fresh c = false) as ->.
  { destruct rx as [|x rx]; [done|]. by rewrite Hfresh. }
  assert ((if (length rx =? 0)%nat then skip_to_brace c else c) = c) as ->.
  { destruct rx as [|x rx]; [|done]. cbn [length Nat.eqb]. cbn [app] in E.
    remember (JObject ms) as j eqn:Ej. destruct Hjson as [| | |ms' t _]; try done.
    destruct c as [|x c]; [cbn in Hc; lia|]. injection E as -> _. done. }
  assert (length rx + length c + length cs = length (framed json))%nat as Hlen
    by (rewrite <- E, !length_app; lia).
  destruct (Nat.eqb_spec (length c) 0) as [|_]; [lia|].
  destruct (Nat.leb_spec CODEX_JSON_MAX (length rx + length c)) as [|_]; [lia|].
  unfold framed in E. rewrite app_assoc in E.
  destruct (Nat.ltb_spec (length (rx ++ c)) (length json)) as [Hlt|Hge].
  - rewrite Hopen; [done| |intros Heq; rewrite Heq in Hlt; lia].
    destruct (app_eq_inv _ _ _ _ E) as [(k & Hk & _)|(k & Hk & _)]; [|by exists k].
    rewrite Hk, length_app in Hlt. lia.
  - destruct (app_eq_inv _ _ _ _ E) as [(k & Hk & Hk2)|(k & Hk & Hk2)].
    + rewrite Hk, Hdone. do 2 f_equal. apply c_string_plain. rewrite <- Hk.
      apply (Forall_app_2 _ _ [newline]) in Hnul; [|by repeat constructor].
      change (Forall (fun c => c <> zero) (framed json)) in Hnul. unfold framed in Hnul.
      rewrite <- E in Hnul. by apply Forall_app in Hnul as [Hnul _].
    + assert (k = []) as -> by (destruct k; [done|]; rewrite Hk, length_app in Hge; cbn in Hge; lia).
      rewrite app_nil_r in Hk. rewrite <- Hk. rewrite <- (app_nil_r json) at 1. rewrite Hdone.
      do 2 f_equal. by apply c_string_plain.
Qed.

(** What is left once the object is complete is at most the newline. *)
Lemma deliver_newline cs : Forall fragment_size cs -> concat cs `suffix_of` [newline] ->
  deliver (map report cs) [] = ([], []).
Proof.
  intros Hcs Hs. destruct Hcs as [|c cs [Hc Hc2] Hcs]; [done|].
  apply suffix_length in Hs as Hlen. cbn [concat length] in *. rewrite length_app in Hlen.
  destruct Hcs as [|c' cs [Hc' _] _]; [|cbn [concat length] in *; rewrite length_app in Hlen; lia].
  cbn [concat] in Hs. rewrite app_nil_r in Hs. destruct Hs as [k Hk].
  assert (k = []) as -> by (apply (f_equal length) in Hk; rewrite length_app in Hk; cbn in Hk;
    destruct k; [done|cbn in Hk; lia]).
  cbn [app] in Hk. subst c. done.
Qed.

Lemma deliver_fragments cs rx : rx ++ concat cs = framed json -> Forall fragment_size cs ->
  (length rx < length json)%nat ->
  Forall (fun c => looks_fresh c = false) (if decide (rx = []) then tl cs else cs) ->
  exists m, (m = json \/ m = framed json) /\ deliver (map report cs) rx = ([], [m]).
Proof.
  revert rx. induction cs as [|c cs IH]; intros rx E Hcs Hrx Hf.
  { cbn [concat] in E. rewrite app_nil_r in E. subst rx. unfold framed in Hrx.
    rewrite length_app in Hrx. lia. }
  apply Forall_cons in Hcs as [Hc Hcs]. cbn [map deliver concat] in *.
  rewrite set_report_report by done.
  rewrite (append_fragment c rx (concat cs)); try done.
  2: { intros Hne. rewrite decide_False in Hf by done. by apply Forall_cons in Hf as [? _]. }
  rewrite app_assoc in E. destruct (Nat.ltb_spec (length (rx ++ c)) (length json)) as [Hlt|Hge].
  - destruct (IH (rx ++ c) E Hcs Hlt) as (m & Hm & ->).
    + destruct (decide (rx ++ c = [])) as [E0|_].
      { apply (f_equal length) in E0. rewrite length_app in E0. destruct Hc. cbn in E0. lia. }
      destruct (decide (rx = [])); [done|by apply Forall_cons in Hf as [_ ?]].
    + by exists m.
  - assert (concat cs `suffix_of` [newline]) as Hs.
    { unfold framed in E. destruct (app_eq_inv _ _ _ _ E) as [(k & _ & Hk)|(k & Hk & Hk2)].
      - by exists k.
      - rewrite Hk, length_app in Hge. destruct k; [by exists []|cbn in Hge; lia]. }
    rewrite deliver_newline by done. exists (rx ++ c). split; [|done].
    unfold framed in E. destruct Hs as [k Hk].
    destruct (concat cs) as [|x xs] eqn:Ex.
    + right. by rewrite app_nil_r in E.
    + left. destruct k as [|y k]; [|apply (f_equal length) in Hk; rewrite length_app in Hk; cbn in Hk; lia].
      cbn [app] in Hk. injection Hk as <- <-. by apply app_inj_tail in E as [-> _].
Qed.
End Reassembly.

(** Whatever the reports, the buffer never fills: its NUL has room. *)
Lemma rx_append_bounded payload rx : (length rx < CODEX_JSON_MAX)%nat ->
  let '(rx', call) := rx_append payload rx in
  (length rx' < CODEX_JSON_MAX)%nat /\
  forall m, call = Some m -> (length m < CODEX_JSON_MAX)%nat.
Proof.
  intros Hrx. unfold rx_append.
  set (rx1 := if (0 <? length rx)%nat && looks_fresh payload then [] else rx).
  assert (length rx1 < CODEX_JSON_MAX)%nat as H1 by (unfold rx1, CODEX_JSON_MAX in *; bool_case; cbn; lia).
  set (p := if (length rx1 =? 0)%nat then _ else _). clearbody rx1 p.
  destruct (length p =? 0)%nat; [done|].
  destruct (Nat.leb_spec CODEX_JSON_MAX (length rx1 + length p)).
  { unfold CODEX_JSON_MAX. cbn. split; [lia|done]. }
  assert (forall b, (length (c_string b) <= length b)%nat) as Hcs.
  { induction b as [|x b IH]; cbn [c_string length]; [lia|]. bool_case; cbn; lia. }
  destruct (rx_object_complete (rx1 ++ p)); (split; [|intros m Hm; simplify_eq]).
  - unfold CODEX_JSON_MAX. cbn. lia.
  - specialize (Hcs (rx1 ++ p)). rewrite length_app in Hcs. lia.
  - rewrite length_app. lia.
Qed.

Lemma set_report_cases type id data rx :
  set_report type id data rx = (rx, None) \/ exists p, set_report type id data rx = rx_append p rx.
Proof.
  unfold set_report. destruct type; try by left. cbv zeta.
  destruct (negb (Ascii.eqb id REPORT_ID)); [by left|].
  destruct (_ || _); [by left|]. destruct (_ <? _)%nat; [by left|right; by eexists].
Qed.

Section SendLemmas.
Context `{BtHids}.

(** A send that succeeds has sent every report, and a send that fails a prefix. *)
Lemma send_reports_spec rs w ret w' : send_reports rs w = (ret, w') ->
  exists sent, tx_log w' = tx_log w ++ sent /\ sent `prefix_of` rs /\ (ret = 0%Z -> sent = rs).
Proof.
  revert w. induction rs as [|r rs IH]; intros w E; cbn [send_reports] in E.
  { injection E as <- <-. exists []. by rewrite app_nil_r. }
  destruct (bt_hids_send_report _ _ _) as [ret1 o]. cbv beta iota zeta in E.
  destruct (Z.eqb_spec ret1 0) as [->|Hne]; cbn [negb] in E.
  - apply IH in E as (sent & El & Hp & Hr). exists (r :: sent). cbn [tx_log] in El.
    rewrite El, <- app_assoc. split; [done|]. split; [by apply prefix_cons|].
    intros Hz. by rewrite Hr.
  - injection E as <- <-. exists [r]. split; [done|]. split; [by exists rs|done].
Qed.

Lemma reports_of_size json : Forall (fun r => length r = REPORT_BODY_LEN) (reports_of json).
Proof.
  unfold reports_of. apply Forall_map. eapply Forall_impl; [apply fragments_size|].
  intros c [_ Hc]. cbn. unfold report. cbn [length]. rewrite length_app, length_replicate.
  unfold PAYLOAD_MAX, REPORT_BODY_LEN in *. lia.
Qed.
End SendLemmas.

Lemma deliver_message ms json : prints (JObject ms) json ->
  Forall (fun c => c <> zero) json -> (length (framed json) < CODEX_JSON_MAX)%nat ->
  no_fresh_fragment json = true ->
  exists m, (m = json \/ m = framed json) /\ deliver (reports_of json) [] = ([], [m]).
Proof.
  intros Hj Hn Hl Hf. unfold reports_of.
  apply (deliver_fragments ms json Hj Hn Hl); try done.
  - cbn [app]. by apply fragments_concat.
  - apply fragments_size.
  - destruct (prints_head _ _ Hj) as (c & t & -> & _). cbn. lia.
  - rewrite decide_True by done. unfold no_fresh_fragment in Hf. apply Forall_forall. intros c Hc.
    apply list_elem_of_In in Hc. apply (proj1 (forallb_forall _ _) Hf) in Hc. by apply negb_true_iff.
Qed.

(** * Properties *)

Section Properties.
Context `{BtHids}.

(** C36: The framing loses nothing.  When [codex_hid_send] succeeds on an
    object's text, it has sent 63-byte reports that, delivered in order to an
    empty receiver of the same framing, hand on exactly one request, the text
    sent (with or without the closing newline), and leave the receiver empty
    for the next; provided no fragment after the first begins with the nine
    characters the receiver takes for a new request.  An oversized message is
    refused with nothing sent. *)
Theorem codex_message_reassembled ms json w ret w' :
  prints (JObject ms) json -> Forall (fun c => c <> zero) json ->
  codex_hid_send json w = (ret, w') ->
  ((CODEX_JSON_MAX <= length json + 1)%nat -> ret = (- EMSGSIZE)%Z /\ w' = w) /\
  exists sent, tx_log w' = tx_log w ++ sent /\
    Forall (fun r => length r = REPORT_BODY_LEN) sent /\
    (ret = 0%Z -> no_fresh_fragment json = true ->
     exists m, (m = json \/ m = framed json) /\ deliver sent [] = ([], [m])).
Proof.
  intros Hj Hn E. unfold codex_hid_send in E.
  assert (length (framed json) = length json + 1)%nat as Hl
    by (unfold framed; by rewrite length_app).
  destruct (Nat.leb_spec CODEX_JSON_MAX (length (framed json))) as [Hge|Hlt].
  - injection E as <- <-. split; [done|]. exists []. rewrite app_nil_r.
    split; [done|]. split; [constructor|done].
  - split; [lia|]. apply send_reports_spec in E as (sent & El & [k Hk] & Hr). exists sent.
    split; [done|]. split.
    { pose proof (reports_of_size json) as Hs. rewrite Hk in Hs. by apply Forall_app in Hs as [Hs _]. }
    intros Hz Hf. rewrite (Hr Hz). by apply (deliver_message ms).
Qed.
End Properties.

(** No report can overflow the receiver.  After any sequence of reports of
    any type, id, length and bytes, from power-on, [rx_buf] holds fewer than
    CODEX_JSON_MAX bytes, so its terminating NUL is inside it, and so does
    every request handed on, which therefore fits [pending] whole. *)
Theorem codex_rx_bounded (rs : list (bt_hids_report_type * ascii * list ascii)) :
  let receive '(rx, calls) '(type, id, data) :=
    let '(rx, call) := set_report type id data rx in (rx, calls ++ option_list call) in
  let '(rx, calls) := foldl receive ([], []) rs in
  (length rx < CODEX_JSON_MAX)%nat /\
  Forall (fun m => (length m < CODEX_JSON_MAX)%nat) calls.
Proof.
  intros receive.
  assert (forall st, (length (fst st) < CODEX_JSON_MAX)%nat /\
    Forall (fun m => (length m < CODEX_JSON_MAX)%nat) (snd st) ->
    let '(rx, calls) := foldl receive st rs in (length rx < CODEX_JSON_MAX)%nat /\
    Forall (fun m => (length m < CODEX_JSON_MAX)%nat) calls) as Hr.
  { induction rs as [|[[type id] data] rs' IH]; intros [rx calls] [Hrx Hcalls]; [done|].
    cbn [foldl]. apply IH. cbn [receive]. destruct (set_report type id data rx) as [rx' call] eqn:E.
    cbn [fst snd] in *.
    assert ((length rx' < CODEX_JSON_MAX)%nat /\
            forall m, call = Some m -> (length m < CODEX_JSON_MAX)%nat) as [H1 H2].
    { destruct (set_report_cases type id data rx) as [Ec|[p Ec]]; rewrite Ec in E.
      - injection E as <- <-. split; [done|by intros].
      - pose proof (rx_append_bounded p rx Hrx) as Hb. by rewrite E in Hb. }
    split; [done|]. apply Forall_app. split; [done|].
    destruct call; [constructor; [by apply H2|constructor]|constructor]. }
  apply (Hr ([], [])). split; [unfold CODEX_JSON_MAX; cbn; lia|constructor].
Qed.

(** * The condition on fragments, and witnesses *)

(** A message whose nested object starts a fragment. *)
Definition nested_request : cstr := text "{'method':'sys.version','id':1}".
Definition padding : cstr := replicate 53 "x"%char.
Definition split_members : list (cstr * json) :=
  [(padding, JObject [(text "method", JString (text "sys.version")); (text "id", JScalar (text "1"))])].
Definition split_message : cstr :=
  text "{ " ++ quoted padding ++ text " :  " ++ nested_request ++ text "}".

Lemma no_nul_bytes b : forallb (fun c => negb (Ascii.eqb c zero)) b = true ->
  Forall (fun c => c <> zero) b.
Proof.
  intros Hb. apply Forall_forall. intros c Hc%list_elem_of_In.
  apply (proj1 (forallb_forall _ _) Hb), negb_true_iff in Hc. by apply Ascii.eqb_neq.
Qed.
Lemma nested_request_prints :
  prints (JObject [(text "method", JString (text "sys.version")); (text "id", JScalar (text "1"))])
    nested_request.
Proof.
  refine (p_object _ (text "'method':'sys.version','id':1") _).
  refine (m_cons (text "method", _) (text "'method':'sys.version'") _ (text "'id':1") _ _ (m_last _ _ _)).
  - apply (compact_member (text "method")); [by apply plain_body|].
    apply (p_string (text "sys.version")). by apply plain_body.
  - done.
  - apply (compact_member (text "id")); [by apply plain_body|].
    constructor; [done|by apply scalar_chars].
Qed.
Lemma split_message_prints : prints (JObject split_members) split_message.
Proof.
  refine (p_object _ (text " " ++ quoted padding ++ text " :  " ++ nested_request) (m_last _ _ _)).
  assert (white (text " ") /\ white (text "  ")) as [H1 H2] by (split; repeat constructor).
  pose proof (m_member (text " ") padding (text " ") (text "  ") _ nested_request []
    H1 ltac:(by apply plain_body) H1 H2 nested_request_prints ltac:(constructor)) as H.
  rewrite app_nil_r in H. exact H.
Qed.

(** The condition on fragments is needed: a well-formed message with a
    nested object that happens to start a fragment is not received; what the
    receiver hands on instead is the nested object as a request of its own,
    although the message has no method at all. *)
Theorem nested_object_dispatched :
  prints (JObject split_members) split_message /\ Forall (fun c => c <> zero) split_message /\
  (length (framed split_message) < CODEX_JSON_MAX)%nat /\
  codex_json_member split_message (text "method") = None /\
  deliver (reports_of split_message) [] = ([], [nested_request ++ text "}" ++ [newline]]) /\
  codex_json_member (nested_request ++ text "}" ++ [newline]) (text "method") <> None.
Proof.
  split; [exact split_message_prints|]. split; [by apply no_nul_bytes|].
  split; [vm_compute; lia|]. do 2 (split; [vm_compute; reflexivity|]). vm_compute. discriminate.
Qed.

From S2P Require Import Instances.
#[export] Instance sim_hids : @BtHids sim_os := {| bt_hids_send_report _ _ w := (0%Z, w) |}.

Example codex_message_reassembled_witness :
  exists m, (m = nested_request \/ m = framed nested_request) /\
    deliver (reports_of nested_request) [] = ([], [m]).
Proof.
  destruct (codex_message_reassembled _ nested_request (@mk_hid_tx sim_os sim_boot []) 0%Z
    (@mk_hid_tx sim_os sim_boot (reports_of nested_request)) nested_request_prints ltac:(by apply no_nul_bytes)
    ltac:(vm_compute; reflexivity)) as (_ & sent & Es & _ & Hd).
  cbn [tx_log app] in Es. subst sent. apply Hd; vm_compute; reflexivity.
Defined.
