(* ===== verification/CodexRpc.v ===== *)
(** codex_keys/src/codex_rpc.c: requests answered from the work queue.

    [codex_rpc_handle] runs where reports arrive and only fills [pending];
    [pending_work_handler] answers it later.  A response is the text handed to
    [codex_hid_send]. *)

From Stdlib Require Import Ascii String.
From S2P Require Import Prelude Printf Platform HttpUtil CodexJson CodexHid.

Definition FIRMWARE_VERSION : string := "0.1.0-qtpy".
Definition BATTERY_PERCENT : Z := 100.
Definition ID_MAX : nat := 24.

(** The response, unless it is too long to send. *)
Definition send_result (id : cstr) (result : string) : option cstr :=
  let '(n, response) := snprintf 256 "{'id':%s,'result':%s}" [PStr (of_chars id); PStr result] in
  if (256 <=? n)%nat then None else Some (to_chars response).

(** The id to echo: the raw text of the request's, if it is short enough. *)
Definition echoed_id (json : cstr) : cstr :=
  match codex_json_member json (text "id") with
  | Some (raw_id, id_len) => if (id_len <? ID_MAX)%nat then take id_len raw_id else text "null"
  | None => text "null"
  end.

(** The version's string literal is pasted into both results. *)
Definition version_result : string := q "{'version':'0.1.0-qtpy'}".
Definition status_result : string :=
  snd (snprintf 128
    "{'version':'0.1.0-qtpy','profile_index':0,'layer_index':1,'battery':%d,'is_charging':false}"
    [PInt BATTERY_PERCENT]).

Definition handle_request (json : cstr) : option cstr :=
  let method := codex_json_member json (text "method") in
  let id := echoed_id json in
  match method with
  | None => None
  | Some (method, len) =>
      let is_ (name : string) := codex_json_str_eq (Some method) len (text name) in
      if is_ "sys.version" then send_result id version_result
      else if is_ "device.status" then send_result id status_result
      else if is_ "v.oai.thstatus" || is_ "v.oai.rgbcfg" || is_ "lights.preview" ||
              is_ "host.focused_app"
      then send_result id (q "{'ok':true}")
      else
        Some (to_chars (snd (snprintf 128
          "{'id':%s,'error':{'code':-32601,'message':'Method not found'}}" [PStr (of_chars id)])))
  end.

(** [pending], and where its work item is. *)
Inductive work := Idle | Queued | Running.
Record rpc := mk_rpc { pending : cstr; pending_work : work }.
#[export] Instance eta_rpc : Eta rpc := fun r => mk_rpc (pending r) (pending_work r).
Definition rpc_boot : rpc := mk_rpc [] Idle.

Definition codex_rpc_handle (json : cstr) (r : rpc) : rpc :=
  match pending r with
  | _ :: _ => r
  | [] => r <| pending := take (CODEX_JSON_MAX - 1) json |>
            <| pending_work := Queued |>
  end.
(** [pending_work_handler] up to its call of [handle_request], and after it:
    the call sleeps between fragments, so reports arrive in between. *)
Definition work_begin (r : rpc) : rpc * option cstr :=
  match pending_work r with
  | Queued => (r <| pending_work := Running |>, Some (pending r))
  | _ => (r, None)
  end.
Definition work_end (r : rpc) : rpc :=
  match pending_work r with
  | Running => r <| pending := [] |> <| pending_work := Idle |>
  | _ => r
  end.

Definition codex_rpc_send_key (key : string) (action agent : Z) : cstr :=
  to_chars (snd (
    if (0 <=? agent)%Z
    then snprintf 128 "{'method':'v.oai.hid','params':{'k':'%s','act':%u,'ag':%d}}"
           [PStr key; PInt (u8 action); PInt agent]
    else snprintf 128 "{'method':'v.oai.hid','params':{'k':'%s','act':%u}}"
           [PStr key; PInt (u8 action)])).

(** * Specification *)

(** A value's compact text. *)
Fixpoint join (ts : list cstr) : cstr :=
  match ts with
  | [] => []
  | [t] => t
  | t :: ts => t ++ ","%char :: join ts
  end.
Fixpoint show (j : json) : cstr :=
  match j with
  | JScalar s => s
  | JString b => quoted b
  | JArray js => "["%char :: join (map show js) ++ ["]"%char]
  | JObject ms =>
      "{"%char :: join (map (fun m => quoted (fst m) ++ ":"%char :: show (snd m)) ms) ++ ["}"%char]
  end.
(** Scalars of scalar characters, and plain strings. *)
Definition plain (b : cstr) : bool :=
  forallb (fun c => negb (Ascii.eqb c dquote || Ascii.eqb c backslash)) b.
Fixpoint showable (j : json) : bool :=
  match j with
  | JScalar s => (0 <? length s)%nat && forallb (fun c => negb (one_of structural c)) s
  | JString b => plain b
  | JArray js => forallb showable js
  | JObject ms => forallb (fun m => plain (fst m) && showable (snd m)) ms
  end.

Definition known_methods : list string :=
  ["sys.version"; "device.status"; "v.oai.thstatus"; "v.oai.rgbcfg"; "lights.preview";
   "host.focused_app"].
Definition known (method : json) : bool :=
  existsb (fun name => match method with
                       | JString b => bool_decide (b = text name)
                       | _ => false
                       end) known_methods.

(** What each method is answered with. *)
Definition lit (s : string) : json := JScalar (text s).
Definition answer_to (method : json) : string * json :=
  match method with
  | JString b =>
      if bool_decide (b = text "sys.version")
      then ("result"%string, JObject [(text "version", JString (text "0.1.0-qtpy"))])
      else if bool_decide (b = text "device.status")
      then ("result"%string, JObject
             [(text "version", JString (text "0.1.0-qtpy")); (text "profile_index", lit "0");
              (text "layer_index", lit "1"); (text "battery", lit "100");
              (text "is_charging", lit "false")])
      else if known method then ("result"%string, JObject [(text "ok", lit "true")])
      else ("error"%string, JObject [(text "code", lit "-32601");
                                     (text "message", JString (text "Method not found"))])
  | _ => ("error"%string, JObject [(text "code", lit "-32601");
                                   (text "message", JString (text "Method not found"))])
  end.
(** The id of the response: the request's, unless it has none or its text is
    too long to echo. *)
Definition id_of (ms : list (cstr * json)) (id_len : nat) : json :=
  match member_of (text "id") ms with
  | Some j => if (id_len <? ID_MAX)%nat then j else lit "null"
  | None => lit "null"
  end.

(** A host's requests and the work queue, in any order. *)
Inductive rpc_event := Request (m : cstr) | Begin | End_.
(** What was accepted and what was handled so far, with the state. *)
Definition rpc_step (st : rpc * list cstr * list cstr) (e : rpc_event) : rpc * list cstr * list cstr :=
  let '(r, accepted, handled) := st in
  match e with
  | Request m =>
      (codex_rpc_handle m r,
       accepted ++ (match pending r with [] => [m] | _ => [] end), handled)
  | Begin => let '(r, call) := work_begin r in (r, accepted, handled ++ option_list call)
  | End_ => (work_end r, accepted, handled)
  end.

(** * Lemmas *)

Section JsonInd.
Variable P : json -> Prop.
Hypothesis Hscalar : forall s, P (JScalar s).
Hypothesis Hstring : forall b, P (JString b).
Hypothesis Harray : forall js, Forall P js -> P (JArray js).
Hypothesis Hobject : forall ms, Forall (fun m => P (snd m)) ms -> P (JObject ms).
Fixpoint json_nested_ind (j : json) : P j :=
  match j with
  | JScalar s => Hscalar s
  | JString b => Hstring b
  | JArray js => Harray js
      ((fix go js := match js return Forall P js with
        | [] => Forall_nil_2 _
        | j :: js => Forall_cons_2 _ _ _ (json_nested_ind j) (go js)
        end) js)
  | JObject ms => Hobject ms
      ((fix go ms := match ms return Forall (fun m => P (snd m)) ms with
        | [] => Forall_nil_2 _
        | m :: ms => Forall_cons_2 _ _ _ (json_nested_ind (snd m)) (go ms)
        end) ms)
  end.
End JsonInd.

Lemma items_compact j t : prints j t -> prints_items [j] t.
Proof.
  intros Hj. pose proof (i_last [] j t [] ltac:(constructor) Hj ltac:(constructor)) as H.
  cbn [app] in H. by rewrite app_nil_r in H.
Qed.

(** The compact text derives the value. *)
Lemma show_prints j : showable j = true -> prints j (show j).
Proof.
  induction j as [s|b|js IH|ms IH] using json_nested_ind; cbn [showable show]; intros Hs.
  - apply andb_true_iff in Hs as [Hn Hs]. constructor; [by destruct s|]. by apply scalar_chars.
  - constructor. by apply plain_body.
  - constructor. induction IH as [|j js Hj Hjs IH']; [by constructor; constructor|].
    cbn [forallb] in Hs. apply andb_true_iff in Hs as [Hs1 Hs2]. specialize (IH' Hs2).
    destruct js as [|j2 js]; [by apply items_compact, Hj|].
    apply (i_cons [] j (show j) [] (j2 :: js)); [constructor|by apply Hj|constructor|done|exact IH'].
  - constructor. induction IH as [|[n j] ms Hj Hms IH']; [by constructor; constructor|].
    cbn [forallb fst snd] in *. apply andb_true_iff in Hs as [Hs1 Hs2]. specialize (IH' Hs2).
    apply andb_true_iff in Hs1 as [Hn Hs1].
    assert (prints_member (n, j) (quoted n ++ ":"%char :: show j)) as Hm
      by (apply compact_member; [by apply plain_body|by apply Hj]).
    destruct ms as [|m2 ms]; [by apply m_last|].
    by apply (m_cons (n, j) (quoted n ++ ":"%char :: show j)).
Qed.

(** Names among methods. *)
Definition named (name : string) (method : json) : bool :=
  match method with JString b => bool_decide (b = text name) | _ => false end.

Lemma str_eq_named j v r name : prints j v ->
  codex_json_str_eq (Some (v ++ r)) (length v) (text name) = named name j.
Proof.
  intros Hv. unfold codex_json_str_eq, named. destruct Hv as [s Hne Hs|b _|js t _|ms t _].
  - destruct Hs as [|c s Hc]; [done|]. cbn [app].
    destruct (scalar_char_other c Hc) as (-> & _). cbn [negb]. by rewrite orb_true_r.
  - unfold quoted. cbn [app length]. rewrite Ascii.eqb_refl, length_app, orb_false_r, <- app_assoc.
    cbn [app length]. destruct (Nat.eqb_spec (S (length b + 1)) (length (text name) + 2)) as [El|Hl]; cbn [negb].
    + apply bool_decide_ext. assert (length (text name) = length b) as -> by lia.
      by rewrite take_app_length.
    + symmetry. apply bool_decide_eq_false_2. intros ->. lia.
  - cbn [app]. change (Ascii.eqb "[" dquote) with false. cbn [negb]. by rewrite orb_true_r.
  - cbn [app]. change (Ascii.eqb "{" dquote) with false. cbn [negb]. by rewrite orb_true_r.
Qed.

(** The response as text around the id and the body. *)
Definition response (id : cstr) (kind : string) (body : json) : cstr :=
  text "{'id':" ++ id ++ ","%char :: quoted (text kind) ++ ":"%char :: show body ++ ["}"%char].

Lemma send_result_response id result body : (length id < ID_MAX)%nat ->
  (String.length result <= 128)%nat -> to_chars result = show body ->
  send_result id result = Some (response id "result" body).
Proof.
  intros Hid Hr Eb. unfold send_result, snprintf.
  set (f := format "{'id':%s,'result':%s}" [PStr (of_chars id); PStr result]).
  assert (to_chars f = response id "result" body) as Ef.
  { transitivity (text "{'id':" ++ to_chars (of_chars id ++ (q ",'result':" ++ (result ++ "}"))));
      [reflexivity|].
    by rewrite !to_chars_app, to_of_chars, Eb. }
  assert (String.length f < 256)%nat as Hf.
  { rewrite <- to_chars_length, Ef. unfold response. rewrite <- Eb.
    repeat (rewrite length_app || rewrite to_chars_length || cbn [length]).
    change (length (text "{'id':")) with 6%nat.
    change (length (quoted (text "result"))) with 8%nat. unfold ID_MAX in Hid. lia. }
  destruct (Nat.leb_spec 256 (String.length f)) as [Hge|_]; [lia|].
  by rewrite substring_all, Ef by lia.
Qed.

Lemma error_response id : (length id < ID_MAX)%nat ->
  to_chars (snd (snprintf 128
    "{'id':%s,'error':{'code':-32601,'message':'Method not found'}}" [PStr (of_chars id)])) =
  response id "error" (JObject [(text "code", lit "-32601");
                                (text "message", JString (text "Method not found"))]).
Proof.
  intros Hid. unfold snprintf. cbn [snd].
  set (f := format _ _).
  set (r := response _ _ _).
  assert (to_chars f = r) as Ef.
  { transitivity (text "{'id':" ++ to_chars (of_chars id ++
      q ",'error':{'code':-32601,'message':'Method not found'}}")); [reflexivity|].
    by rewrite to_chars_app, to_of_chars. }
  rewrite substring_all, Ef; [done|]. rewrite <- to_chars_length, Ef. subst r. unfold response.
  repeat (rewrite length_app || cbn [length]). unfold ID_MAX in Hid.
  change (length (text "{'id':")) with 6%nat. change (length (quoted (text "error"))) with 7%nat.
  match goal with |- context [length (show ?b)] =>
    let n := eval vm_compute in (length (show b)) in change (length (show b)) with n end. lia.
Qed.

(** The response derives the object with the id and the body. *)
Lemma response_prints id idj kind body : prints idj id -> plain (text kind) = true ->
  showable body = true ->
  prints (JObject [(text "id", idj); (text kind, body)]) (response id kind body).
Proof.
  intros Hid Hk Hb. unfold response.
  pose proof (p_object _ _ (m_cons (text "id", idj) (quoted (text "id") ++ ":"%char :: id)
    [(text kind, body)] (quoted (text kind) ++ ":"%char :: show body)
    (compact_member (text "id") idj id ltac:(by apply plain_body) Hid) ltac:(done)
    (m_last _ _ (compact_member (text kind) body (show body) ltac:(by apply plain_body)
                   (show_prints body Hb))))) as H.
  rewrite <- !app_assoc in H. cbn [app] in H. rewrite <- !app_assoc in H. exact H.
Qed.

Lemma answer_fits method : let '(kind, body) := answer_to method in
  plain (text kind) = true /\ showable body = true /\
  (length (text kind) + length (show body) <= 150)%nat.
Proof.
  unfold answer_to. destruct method; try (vm_compute; repeat split; lia).
  repeat (case_bool_decide || destruct (known _)); (vm_compute; repeat split; lia).
Qed.
Lemma response_fits id kind body : (length id < ID_MAX)%nat ->
  (length (text kind) + length (show body) <= 150)%nat -> (length (response id kind body) < 256)%nat.
Proof.
  intros Hid Hb. unfold response, quoted. change (text "{'id':") with (text "{'id':" ++ []).
  repeat (rewrite length_app || cbn [length]). change (length (text "{'id':")) with 6%nat.
  unfold ID_MAX in Hid. lia.
Qed.

(** The length of the id's text, and the id that is echoed. *)
Definition id_len (json : cstr) : nat :=
  match codex_json_member json (text "id") with Some (_, n) => n | None => 0%nat end.

Lemma echoed_id_spec ms json q : prints (JObject ms) json ->
  prints (id_of ms (id_len (json ++ q))) (echoed_id (json ++ q)) /\
  (length (echoed_id (json ++ q)) < ID_MAX)%nat.
Proof.
  intros Hj. assert (prints (lit "null") (text "null") /\ (length (text "null") < ID_MAX)%nat) as Hnull.
  { split; [|vm_compute; lia]. constructor; [done|by apply scalar_chars]. }
  pose proof (member_prints ms json [] q (text "id") Hj ltac:(constructor)) as Hm. cbn [app] in Hm.
  unfold id_of, id_len, echoed_id. destruct (member_of (text "id") ms) as [j|]; [|by rewrite Hm].
  destruct Hm as (v & r & Hv & ->).
  destruct (Nat.ltb_spec (length v) ID_MAX) as [Hl|_]; [|done]. by rewrite take_app_length.
Qed.

Lemma handle_request_spec ms json q : prints (JObject ms) json ->
  handle_request (json ++ q) =
  match member_of (text "method") ms with
  | None => None
  | Some method =>
      let '(kind, body) := answer_to method in Some (response (echoed_id (json ++ q)) kind body)
  end.
Proof.
  intros Hj. destruct (echoed_id_spec ms json q Hj) as [_ Hid].
  pose proof (member_prints ms json [] q (text "method") Hj ltac:(constructor)) as Hm.
  cbn [app] in Hm. unfold handle_request. set (id := echoed_id (json ++ q)) in *.
  destruct (member_of (text "method") ms) as [method|]; [|by rewrite Hm].
  destruct Hm as (v & r & Hv & ->). cbv zeta. rewrite !(str_eq_named method v r) by done.
  unfold answer_to, known. destruct method as [s|b|js|os]; cbn [named orb];
    try by rewrite error_response. cbn [existsb known_methods].
  case_bool_decide; [apply send_result_response; [done|vm_compute; lia|reflexivity]|].
  case_bool_decide; [apply send_result_response; [done|vm_compute; lia|reflexivity]|].
  cbn [orb]. rewrite orb_false_r, !orb_assoc. destruct (_ || _).
  - apply send_result_response; [done|vm_compute; lia|reflexivity].
  - by rewrite error_response.
Qed.

(** The work queue: what is stored and what still has to be handled. *)
Definition queue_ok (st : rpc * list cstr * list cstr) : Prop :=
  let '(r, accepted, handled) := st in
  match pending_work r with
  | Idle => pending r = [] /\ handled = map (take (CODEX_JSON_MAX - 1)) accepted
  | Queued => pending r <> [] /\ handled ++ [pending r] = map (take (CODEX_JSON_MAX - 1)) accepted
  | Running => pending r <> [] /\ handled = map (take (CODEX_JSON_MAX - 1)) accepted
  end.
Lemma rpc_step_queue st e : (forall m, e = Request m -> m <> []) -> queue_ok st -> queue_ok (rpc_step st e).
Proof.
  destruct st as [[[p w] accepted] handled]. intros Hm Hq.
  destruct e as [m| |]; unfold rpc_step, codex_rpc_handle, work_begin, work_end in *;
    cbn [pending pending_work] in *; destruct w, p as [|c p]; cbn -[CODEX_JSON_MAX] in Hq;
    try (destruct Hq as [Hq E]; congruence); destruct Hq as [Hq E]; cbn [option_list];
    try (cbn -[CODEX_JSON_MAX]; by rewrite ?app_nil_r).
  destruct m as [|c m]; [by destruct (Hm [])|]. unfold queue_ok. cbn [pending pending_work].
  subst handled. split; [done|]. symmetry. exact (map_app (take (CODEX_JSON_MAX - 1)) accepted [c :: m]).
Qed.

(** * Properties *)

(** Every request is answered, once, in JSON.  For any object a host
    sends, in any white space and with anything after it: without a method
    nothing is sent; otherwise exactly one response, of fewer than 256
    characters and so never too long to send, which derives the object with the
    request's id (null, if it has none or its text is 24 characters or more)
    and the result of that method, or, of any other, the error -32601. *)
Theorem codex_rpc_answers ms json q :
  prints (JObject ms) json ->
  match member_of (text "method") ms with
  | None => handle_request (json ++ q) = None
  | Some method =>
      let '(kind, body) := answer_to method in
      exists resp, handle_request (json ++ q) = Some resp /\ (length resp < 256)%nat /\
        resp = response (echoed_id (json ++ q)) kind body /\
        prints (JObject [(text "id", id_of ms (id_len (json ++ q))); (text kind, body)]) resp
  end.
Proof.
  intros Hj. rewrite (handle_request_spec ms) by done.
  destruct (echoed_id_spec ms json q Hj) as [Hid Hl].
  destruct (member_of (text "method") ms) as [method|]; [|done].
  pose proof (answer_fits method) as Ha. destruct (answer_to method) as [kind body].
  destruct Ha as (Hk & Hb & Hn). eexists. split; [done|].
  split; [by apply response_fits|]. split; [done|]. by apply response_prints.
Qed.

(** No request is handled twice, out of order or in part.  After any
    sequence of requests, each from the receiver and so shorter than the
    buffer, and of turns of the work queue, what [handle_request] was called
    with is, in order, what was accepted, up to one request still pending; and
    a request is refused only while another is pending. *)
Theorem requests_handled_in_order es :
  Forall (fun e => match e with Request m => (0 < length m < CODEX_JSON_MAX)%nat | _ => True end) es ->
  let '(r, accepted, handled) := foldl rpc_step (rpc_boot, [], []) es in
  exists in_flight, accepted = handled ++ in_flight /\ (length in_flight <= 1)%nat /\
    (pending r = [] -> in_flight = []) /\
    forall m, snd (fst (rpc_step (r, accepted, handled) (Request m))) =
              if bool_decide (pending r = []) then accepted ++ [m] else accepted.
Proof.
  intros Hes.
  assert (forall st, queue_ok st ->
    Forall (fun m => (length m < CODEX_JSON_MAX)%nat) (snd (fst st)) ->
    queue_ok (foldl rpc_step st es) /\
    Forall (fun m => (length m < CODEX_JSON_MAX)%nat) (snd (fst (foldl rpc_step st es)))) as Hr.
  { induction Hes as [|e es He _ IH]; intros st Hq Hf; [done|]. cbn [foldl]. apply IH.
    - apply rpc_step_queue; [|done]. intros m -> ->. cbn in He. lia.
    - destruct st as [[r accepted] handled]. destruct e as [m| |]; cbn in *.
      + apply Forall_app. split; [done|]. destruct (pending r); [|constructor].
        constructor; [lia|constructor].
      + by destruct (work_begin r).
      + done. }
  destruct (Hr (rpc_boot, [], [])) as [Hq Hf]; [done|constructor|].
  destruct (foldl _ _ _) as [[r accepted] handled]. cbn [fst snd] in Hf.
  assert (map (take (CODEX_JSON_MAX - 1)) accepted = accepted) as Em.
  { clear -Hf. induction Hf as [|m ms Hm _ IH]; [done|]. cbn [map]. rewrite IH, take_ge; [done|].
    unfold CODEX_JSON_MAX in *. lia. }
  unfold queue_ok in Hq. rewrite Em in Hq.
  assert (forall m, snd (fst (rpc_step (r, accepted, handled) (Request m))) =
    if bool_decide (pending r = []) then accepted ++ [m] else accepted) as Hd.
  { intros m. cbn [rpc_step fst snd]. destruct (pending r); [done|]. cbn. by rewrite app_nil_r. }
  destruct (pending_work r), Hq as [Hp E].
  - exists []. rewrite app_nil_r. repeat split; [done|cbn; lia|exact Hd].
  - exists [pending r]. repeat split; [done|cbn; lia|done|exact Hd].
  - exists []. rewrite app_nil_r. repeat split; [done|cbn; lia|exact Hd].
Qed.

(** * Witnesses *)
Example codex_rpc_answers_witness :
  exists resp, handle_request (nested_request ++ [newline]) = Some resp /\ (length resp < 256)%nat /\
    resp = text "{'id':1,'result':{'version':'0.1.0-qtpy'}}" /\
    prints (JObject [(text "id", lit "1");
                     (text "result", JObject [(text "version", JString (text "0.1.0-qtpy"))])]) resp.
Proof. exact (codex_rpc_answers _ _ [newline] nested_request_prints). Defined.

(** The second request comes while the first is pending. *)
Definition demo_events : list rpc_event :=
  [Request (text "{1}"); Request (text "{2}"); Begin; End_; Request (text "{3}"); Begin].
Example requests_handled_in_order_witness :
  let '(r, accepted, handled) := foldl rpc_step (rpc_boot, [], []) demo_events in
  accepted = [text "{1}"; text "{3}"] /\
  exists in_flight, accepted = handled ++ in_flight /\ (length in_flight <= 1)%nat /\
    (pending r = [] -> in_flight = []) /\
    forall m, snd (fst (rpc_step (r, accepted, handled) (Request m))) =
              if bool_decide (pending r = []) then accepted ++ [m] else accepted.
Proof.
  split; [reflexivity|]. apply (requests_handled_in_order demo_events).
  repeat constructor; cbn; unfold CODEX_JSON_MAX; lia.
Defined.
