(* ===== verification/CodexKeys.v ===== *)
(** codex_keys/src/main.c: the scan loop, from keys and dial to key events.

    [scan_pass] is one pass of main's loop.  The seesaw drivers are the class
    [KeyHw]; events leave through [codex_hid_send].  Next to the state runs a log
    of the events sent with their results, the strips' updates and the dial's
    readings. *)

From Stdlib Require Import Ascii String.
From S2P Require Import Prelude Printf Platform HttpUtil CodexJson CodexHid CodexRpc.
#[local] Open Scope Z_scope.

Definition CODEX_ACT_RELEASE : Z := 0.
Definition CODEX_ACT_PRESS : Z := 1.
Definition CODEX_ACT_STEP : Z := 2.
Definition KEYS_PER_PAD : nat := 4.
Definition NUM_PADS : nat := 3.
Definition NUM_KEYS : nat := NUM_PADS * KEYS_PER_PAD.
Definition key_pin : list nat := [4; 5; 6; 7]%nat.
Definition ENCODER_CW_IS_NEGATIVE : bool := true.
Definition ENCODER_COUNTS_PER_STEP : Z := 1.
Definition ENCODER_STEPS_PER_POLL : Z := 8.

Definition key_map : list (string * Z) :=
  [("AG00", 0); ("AG01", 1); ("AG02", 2); ("AG03", 3); ("AG04", 4); ("AG05", 5);
   ("ACT06", -1); ("ACT07", -1); ("ACT08", -1); ("ACT09", -1); ("ACT10", -1); ("ACT12", -1)]%string.
Definition key_of (i : nat) : string * Z := nth i key_map (""%string, 0).

Record led_rgb := mk_rgb { led_r : Z; led_g : Z; led_b : Z }.
Definition key_lit : led_rgb := mk_rgb 0 24 24.
Definition key_off : led_rgb := mk_rgb 0 0 0.

Class KeyHw `{Os} := {
  pad_ready : nat -> os -> bool;
  pad_configure : nat -> nat -> os -> Z * os;
  encoder_ready : os -> bool;
  encoder_configure : os -> Z * os;
  gpio_port_get_raw : nat -> os -> (Z * Z) * os;
  led_strip_update_rgb : nat -> list led_rgb -> os -> Z * os;
  sensor_sample_fetch : os -> Z * os;
  sensor_channel_get : os -> (Z * Z) * os;   (* result and val1 *)
  gpio_pin_get_raw : os -> Z * os;           (* the encoder's switch *)
  k_sleep_scan : os -> os;
  bt_enable : os -> Z * os;
}.

Inductive key_event :=
  | KeySent (key : string) (action ret : Z)
  | Leds (pad : nat) (buf : list led_rgb) (err : Z)
  | Dial (val1 : Z).

Section Keys.
Context `{KeyHw} `{!BtHids}.

(** The statics, main's [prev_mask], the machine with its reports, the log. *)
Record keys := mk_keys {
  encoder_last : Z; encoder_synced : bool; was_pressed : bool; prev_mask : Z;
  hid : hid_tx; k_log : list key_event;
}.
#[export] Instance eta_keys : Eta keys := fun k =>
  mk_keys (encoder_last k) (encoder_synced k) (was_pressed k) (prev_mask k) (hid k) (k_log k).
Definition k_os (k : keys) : os := tx_machine (hid k).
Definition with_os (o : os) (k : keys) : keys := k <| hid := mk_hid_tx o (tx_log (hid k)) |>.
Definition k_note (e : key_event) (k : keys) : keys := k <| k_log ::= fun l => l ++ [e] |>.

Definition send_key (key : string) (action agent : Z) (k : keys) : keys :=
  let '(ret, h) := codex_hid_send (codex_rpc_send_key key action agent) (hid k) in
  k_note (KeySent key action ret) (k <| hid := h |>).

(** [keypads_init]: each pad's devices, then its pins, the first error returned. *)
Fixpoint configure_pins (pad : nat) (pins : list nat) (o : os) : Z * os :=
  match pins with
  | [] => (0, o)
  | pin :: pins =>
      let '(err, o) := pad_configure pad pin o in
      if negb (err =? 0) then (err, o) else configure_pins pad pins o
  end.
Fixpoint init_pads (pads : list nat) (o : os) : Z * os :=
  match pads with
  | [] => (0, o)
  | pad :: pads =>
      if negb (pad_ready pad o) then (- ENODEV, o) else
      let '(err, o) := configure_pins pad key_pin o in
      if negb (err =? 0) then (err, o) else init_pads pads o
  end.
Definition keypads_init (o : os) : Z * os := init_pads (seq 0 NUM_PADS) o.
Definition encoder_init (o : os) : Z * os :=
  if negb (encoder_ready o) then (- ENODEV, o) else encoder_configure o.

(** One pad's bits of the mask. *)
Definition pad_bits (pad : nat) (raw pressed : Z) : Z :=
  foldl (fun m i => if has_bit raw (nth i key_pin O) then m else Z.lor m (BIT (pad * KEYS_PER_PAD + i)))
        pressed (seq 0 KEYS_PER_PAD).
Fixpoint scan_pads (pads : list nat) (pressed : Z) (o : os) : Z * os :=
  match pads with
  | [] => (pressed, o)
  | pad :: pads =>
      let '((err, raw), o) := gpio_port_get_raw pad o in
      if negb (err =? 0) then (err, o) else scan_pads pads (pad_bits pad raw pressed) o
  end.
Definition keypads_scan (k : keys) : Z * keys :=
  let '(r, o) := scan_pads (seq 0 NUM_PADS) 0 (k_os k) in (r, with_os o k).

Definition pad_leds (pressed_mask : Z) (pad : nat) : list led_rgb :=
  map (fun i => if has_bit pressed_mask (pad * KEYS_PER_PAD + i) then key_lit else key_off)
      (seq 0 KEYS_PER_PAD).
Definition leds_update_pad (pressed_mask prev : Z) (k : keys) (pad : nat) : keys :=
  let mask := Z.shiftl (BIT KEYS_PER_PAD - 1) (Z.of_nat (pad * KEYS_PER_PAD)) in
  if Z.land pressed_mask mask =? Z.land prev mask then k else
  let buf := pad_leds pressed_mask pad in
  let '(err, o) := led_strip_update_rgb pad buf (k_os k) in
  k_note (Leds pad buf err) (with_os o k).
Definition leds_update (pressed_mask prev : Z) (k : keys) : keys :=
  foldl (leds_update_pad pressed_mask prev) k (seq 0 NUM_PADS).

Definition report_key (pressed_mask prev : Z) (k : keys) (i : nat) : keys :=
  let now := has_bit pressed_mask i in
  if eqb now (has_bit prev i) then k
  else send_key (fst (key_of i)) (if now then CODEX_ACT_PRESS else CODEX_ACT_RELEASE) (snd (key_of i)) k.
Definition report_keys (pressed_mask prev : Z) (k : keys) : keys :=
  foldl (report_key pressed_mask prev) k (seq 0 NUM_KEYS).

(** [while (count--)], one send per turn; the count is an int. *)
Definition send_steps (clockwise : bool) (count : Z) (k : keys) : keys :=
  Nat.iter (Z.to_nat (u32 count))
    (send_key (if clockwise then "ENC_CW" else "ENC_CC")%string CODEX_ACT_STEP (-1)) k.
Definition encoder_poll (k : keys) : keys :=
  let '(err, o) := sensor_sample_fetch (k_os k) in
  let k := with_os o k in
  if err <? 0 then k else
  let '((err, val1), o) := sensor_channel_get (k_os k) in
  let k := with_os o k in
  if err <? 0 then k else
  let k := k_note (Dial val1) k in
  if negb (encoder_synced k) then k <| encoder_last := val1 |> <| encoder_synced := true |> else
  let delta := s32 (val1 - encoder_last k) in
  let steps := Z.quot delta ENCODER_COUNTS_PER_STEP in
  if steps =? 0 then k else
  let k := k <| encoder_last ::= fun l => s32 (l + s32 (steps * ENCODER_COUNTS_PER_STEP)) |> in
  let clockwise := if ENCODER_CW_IS_NEGATIVE then steps <? 0 else 0 <? steps in
  let count := if steps <? 0 then s32 (- steps) else steps in
  send_steps clockwise (if ENCODER_STEPS_PER_POLL <? count then ENCODER_STEPS_PER_POLL else count) k.

Definition encoder_switch_poll (k : keys) : keys :=
  let '(val, o) := gpio_pin_get_raw (k_os k) in
  let k := with_os o k in
  if val <? 0 then k else
  let pressed := val =? 0 in
  if negb (eqb pressed (was_pressed k))
  then send_key "ENC" (if pressed then CODEX_ACT_PRESS else CODEX_ACT_RELEASE) (-1)
         (k <| was_pressed := pressed |>)
  else k.

(** main: up to the loop ([None] when it returns), and one pass of the loop. *)
Definition keys_start (o : os) : option keys :=
  let '(err, o) := keypads_init o in
  let '(err, o) := if err =? 0 then encoder_init o else (err, o) in
  if negb (err =? 0) then None else
  let k := leds_update 0 (BIT NUM_KEYS - 1) (mk_keys 0 false false 0 (mk_hid_tx o []) []) in
  let '(err, o) := bt_enable (k_os k) in
  if negb (err =? 0) then None else Some (with_os o k).
Definition scan_pass (k : keys) : keys :=
  let '(mask, k) := keypads_scan k in
  let k :=
    if mask <? 0 then k
    else if negb (mask =? prev_mask k) then
      (report_keys mask (prev_mask k) (leds_update mask (prev_mask k) k)) <| prev_mask := mask |>
    else k in
  let k := encoder_switch_poll (encoder_poll k) in
  with_os (k_sleep_scan (k_os k)) k.

(** * Specification *)
Definition passes_from (n : nat) (k : keys) : keys := Nat.iter n scan_pass k.

(** What the events say of a key: pressed or not, by the last one. *)
Definition says (key : string) (es : list key_event) : bool :=
  foldl (fun b e => match e with
                    | KeySent key' action _ => if String.eqb key' key then action =? CODEX_ACT_PRESS else b
                    | _ => b
                    end) false es.
(** The steps sent clockwise, less those anticlockwise. *)
Definition step_of (e : key_event) : Z :=
  match e with
  | KeySent key _ _ => if String.eqb key "ENC_CW" then 1 else if String.eqb key "ENC_CC" then -1 else 0
  | _ => 0
  end.
Definition net_steps (es : list key_event) : Z := foldr (fun e n => step_of e + n) 0 es.
(** The readings of the dial, oldest first. *)
Definition readings (es : list key_event) : list Z :=
  omap (fun e => match e with Dial v => Some v | _ => None end) es.
(** 32-bit readings, each within a poll's steps of the one before. *)
Definition steady_dial (vs : list Z) : Prop :=
  Forall (fun v => s32 v = v) vs /\
  forall pre v v' post, vs = pre ++ v :: v' :: post -> Z.abs (s32 (v' - v)) <= ENCODER_STEPS_PER_POLL.

(** * Lemmas *)

Lemma net_steps_app es es' : net_steps (es ++ es') = net_steps es + net_steps es'.
Proof.
  unfold net_steps. induction es as [|e es IH]; cbn [foldr app]; [done|]. rewrite IH. lia.
Qed.
Lemma readings_app es es' : readings (es ++ es') = readings es ++ readings es'.
Proof. apply omap_app. Qed.

(** The log grew by events [P] holds of; the rest of the statics is the same. *)
Record ext (P : key_event -> Prop) (k k' : keys) : Prop := {
  ext_log : exists es, k_log k' = k_log k ++ es /\ Forall P es;
  ext_mask : prev_mask k' = prev_mask k;
  ext_last : encoder_last k' = encoder_last k;
  ext_synced : encoder_synced k' = encoder_synced k;
}.
Lemma ext_refl P k : ext P k k.
Proof. split; try done. exists []. by rewrite app_nil_r. Qed.
Lemma ext_trans P k1 k2 k3 : ext P k1 k2 -> ext P k2 k3 -> ext P k1 k3.
Proof.
  intros [(es & E & F) M L S] [(es' & E' & F') M' L' S']. split; try congruence.
  exists (es ++ es'). rewrite E', E, <- app_assoc. split; [done|]. apply Forall_app. by split.
Qed.
Lemma ext_os P o k : ext P k (with_os o k).
Proof. split; try done. exists []. by rewrite app_nil_r. Qed.
Lemma ext_foldl {A} P (f : keys -> A -> keys) xs k : (forall k x, ext P k (f k x)) ->
  ext P k (foldl f k xs).
Proof.
  intros Hf. revert k. induction xs as [|x xs IH]; intros k; [apply ext_refl|].
  cbn [foldl]. eapply ext_trans; [apply Hf|apply IH].
Qed.
Lemma send_key_ext key action agent k :
  exists ret, k_log (send_key key action agent k) = k_log k ++ [KeySent key action ret] /\
  forall P : key_event -> Prop, P (KeySent key action ret) -> ext P k (send_key key action agent k).
Proof.
  unfold send_key. destruct (codex_hid_send _ _) as [ret h]. exists ret. split; [done|].
  intros P HP. split; try done. exists [KeySent key action ret]. split; [done|by constructor].
Qed.

Definition is_leds (e : key_event) : Prop := match e with Leds _ _ _ => True | _ => False end.
Definition sends_any (names : list string) (e : key_event) : Prop :=
  match e with KeySent key _ _ => In key names | _ => False end.

Lemma leds_ext pressed prev k : ext is_leds k (leds_update pressed prev k).
Proof.
  apply ext_foldl. clear k. intros k pad. unfold leds_update_pad.
  destruct (_ =? _); [apply ext_refl|]. destruct (led_strip_update_rgb _ _ _) as [err o].
  split; try done. eexists. split; [done|by repeat constructor].
Qed.
Lemma switch_ext k : ext (sends_any ["ENC"%string]) k (encoder_switch_poll k).
Proof.
  unfold encoder_switch_poll. destruct (gpio_pin_get_raw _) as [val o].
  destruct (val <? 0); [apply ext_os|]. destruct (negb _); [|apply ext_os].
  eapply ext_trans; [apply (ext_os _ o)|].
  set (k1 := (with_os o k) <| was_pressed := (val =? 0) |>).
  destruct (send_key_ext "ENC" (if val =? 0 then CODEX_ACT_PRESS else CODEX_ACT_RELEASE) (-1) k1) as (ret & _ & Hx).
  specialize (Hx (sends_any ["ENC"%string]) ltac:(by left)). by destruct Hx.
Qed.

(** What the log says of a key. *)
Definition other (key : string) (e : key_event) : Prop :=
  match e with KeySent key' _ _ => key' <> key | _ => True end.
Lemma says_other key es es' : Forall (other key) es' -> says key (es ++ es') = says key es.
Proof.
  intros Ho. unfold says. rewrite foldl_app. generalize (foldl (fun b e => match e with
    | KeySent key' action _ => if String.eqb key' key then action =? CODEX_ACT_PRESS else b
    | _ => b end) false es).
  induction Ho as [|e es' He _ IH]; intros b; [done|]. cbn [foldl]. rewrite IH.
  destruct e as [key' action ret| |]; try done. cbn in He. by apply String.eqb_neq in He as ->.
Qed.
Lemma says_sent key es action ret :
  says key (es ++ [KeySent key action ret]) = (action =? CODEX_ACT_PRESS).
Proof. unfold says. rewrite foldl_app. cbn [foldl]. by rewrite String.eqb_refl. Qed.
Lemma says_ext P key k k' : ext P k k' -> (forall e, P e -> other key e) ->
  says key (k_log k') = says key (k_log k).
Proof.
  intros [(es & -> & F) _ _ _] HP. apply says_other. eapply Forall_impl; [exact F|]. exact HP.
Qed.

(** The keys have names of their own, and none of the dial's. *)
Lemma key_names i j : (i < NUM_KEYS)%nat -> (j < NUM_KEYS)%nat ->
  (fst (key_of i) = fst (key_of j) -> i = j) /\
  ~ In (fst (key_of i)) ["ENC"; "ENC_CW"; "ENC_CC"]%string.
Proof.
  assert (forallb (fun i => forallb (fun j => (i =? j)%nat || negb (String.eqb (fst (key_of i)) (fst (key_of j))))
    (seq 0 NUM_KEYS) && negb (existsb (String.eqb (fst (key_of i))) ["ENC"; "ENC_CW"; "ENC_CC"]%string))
    (seq 0 NUM_KEYS) = true) as Hc by (vm_compute; reflexivity).
  intros Hi Hj. rewrite forallb_forall in Hc. specialize (Hc i ltac:(apply in_seq; lia)).
  apply andb_true_iff in Hc as [Hn He]. rewrite forallb_forall in Hn.
  specialize (Hn j ltac:(apply in_seq; lia)). split.
  - intros E. rewrite E, String.eqb_refl in Hn. cbn [negb] in Hn. rewrite orb_false_r in Hn.
    by apply Nat.eqb_eq.
  - intros Hin. apply negb_true_iff in He. apply not_true_iff_false in He. apply He.
    apply existsb_exists. eexists. split; [exact Hin|apply String.eqb_refl].
Qed.

(** Reporting brings what the log says from the old mask to the new. *)
Lemma report_key_says mask prev k j i : (i < NUM_KEYS)%nat -> (j < NUM_KEYS)%nat ->
  says (fst (key_of j)) (k_log (report_key mask prev k i)) =
  if bool_decide (i = j) && negb (eqb (has_bit mask i) (has_bit prev i)) then has_bit mask i
  else says (fst (key_of j)) (k_log k).
Proof.
  intros Hi Hj. unfold report_key. destruct (eqb (has_bit mask i) (has_bit prev i)); cbn [negb].
  { by rewrite andb_false_r. }
  rewrite andb_true_r. set (action := if has_bit mask i then _ else _).
  destruct (send_key_ext (fst (key_of i)) action (snd (key_of i)) k) as (ret & -> & _).
  destruct (bool_decide_reflect (i = j)) as [->|Hne].
  - rewrite says_sent. subst action. by destruct (has_bit mask j).
  - apply says_other. constructor; [|constructor]. cbn. intros E. by apply Hne, key_names.
Qed.
Lemma report_says mask prev k is_ j : NoDup is_ -> Forall (fun i => (i < NUM_KEYS)%nat) is_ ->
  (j < NUM_KEYS)%nat -> says (fst (key_of j)) (k_log k) = has_bit prev j ->
  says (fst (key_of j)) (k_log (foldl (report_key mask prev) k is_)) =
  if bool_decide (j ∈ is_) then has_bit mask j else has_bit prev j.
Proof.
  intros Hd Hi Hj. revert k. induction is_ as [|i is_ IH]; intros k E; [done|].
  apply NoDup_cons in Hd as [Hni Hd]. apply Forall_cons in Hi as [Hi His]. cbn [foldl].
  pose proof (report_key_says mask prev k j i Hi Hj) as Hr.
  destruct (decide (i = j)) as [->|Hne].
  - rewrite bool_decide_eq_true_2 in Hr by done. cbn [andb] in Hr.
    assert (says (fst (key_of j)) (k_log (report_key mask prev k j)) = has_bit mask j) as Hm.
    { rewrite Hr. destruct (eqb (has_bit mask j) (has_bit prev j)) eqn:Eb; [|done].
      apply eqb_prop in Eb. by rewrite Eb. }
    rewrite bool_decide_eq_true_2 by by left.
    clear IH Hr. revert Hm. generalize (report_key mask prev k j).
    clear -Hni His Hj. induction is_ as [|i is_ IH]; intros k Hm; [done|].
    apply not_elem_of_cons in Hni as [Hne Hni]. apply Forall_cons in His as [Hi His]. cbn [foldl].
    apply IH; [done..|]. rewrite report_key_says by done. by rewrite bool_decide_eq_false_2.
  - rewrite bool_decide_eq_false_2 in Hr by done. cbn [andb] in Hr. rewrite IH by (done || congruence).
    rewrite (bool_decide_ext (j ∈ i :: is_) (j ∈ is_)); [done|]. rewrite elem_of_cons. naive_solver.
Qed.
Lemma report_ext mask prev k : ext (sends_any (map fst key_map)) k (report_keys mask prev k).
Proof.
  assert (forall is_ k, Forall (fun i => (i < NUM_KEYS)%nat) is_ ->
    ext (sends_any (map fst key_map)) k (foldl (report_key mask prev) k is_)) as Hf.
  { clear k. intros is_ k Hi. revert k. induction Hi as [|i is_ Hi _ IH]; intros k; [apply ext_refl|].
    cbn [foldl]. eapply ext_trans; [|apply IH]. unfold report_key. destruct (eqb _ _); [apply ext_refl|].
    set (action := if has_bit mask i then _ else _).
    destruct (send_key_ext (fst (key_of i)) action (snd (key_of i)) k) as (ret & _ & Hx). apply Hx.
    change (In (fst (key_of i)) (map fst key_map)). apply in_map, nth_In. exact Hi. }
  apply Hf. apply Forall_forall. intros i Hin%list_elem_of_In%in_seq. lia.
Qed.

(** The dial. *)
Lemma s32_shift z : exists n, s32 z = z + n * 2 ^ 32.
Proof.
  unfold s32, u32. pose proof (Z.div_mod z (2 ^ 32)) as Hz. specialize (Hz ltac:(lia)).
  destruct (_ <? _); [exists (- (z / 2 ^ 32))|exists (- (z / 2 ^ 32) - 1)]; lia.
Qed.
Lemma u32_s32 z : u32 (s32 z) = u32 z.
Proof.
  destruct (s32_shift z) as [n ->]. unfold u32. by rewrite Z.mod_add by lia.
Qed.
(** Adding the wrapped difference comes back to the reading. *)
Lemma s32_catch_up last v : s32 v = v -> s32 (last + s32 (s32 (v - last) * 1)) = v.
Proof.
  intros Hv. rewrite Z.mul_1_r. rewrite <- Hv at 2. unfold s32 at 1 4.
  replace (u32 (last + s32 (s32 (v - last)))) with (u32 v); [done|].
  unfold u32. rewrite Zplus_mod. change (s32 (s32 (v - last)) mod 2 ^ 32) with (u32 (s32 (s32 (v - last)))).
  rewrite !u32_s32. unfold u32. rewrite <- Zplus_mod. f_equal. lia.
Qed.

Definition is_step (clockwise : bool) (e : key_event) : Prop :=
  sends_any [if clockwise then "ENC_CW" else "ENC_CC"]%string e.
Lemma step_names clockwise key action ret : is_step clockwise (KeySent key action ret) ->
  In key ["ENC_CW"; "ENC_CC"]%string.
Proof. intros [<-|[]]. destruct clockwise; [by left|by right; left]. Qed.
Lemma steps_ext (clockwise : bool) (n : nat) (k : keys) :
  let k' := Nat.iter n (send_key (if clockwise then "ENC_CW" else "ENC_CC")%string CODEX_ACT_STEP (-1)) k in
  ext (fun _ => True) k k' /\
  exists es, k_log k' = k_log k ++ es /\ Forall (is_step clockwise) es /\ readings es = [] /\
             net_steps es = (if clockwise then 1 else -1) * Z.of_nat n.
Proof.
  induction n as [|n IH]; cbv zeta in *.
  { split; [apply ext_refl|]. exists []. rewrite app_nil_r. split_and!; try done. by destruct clockwise. }
  rewrite Nat.iter_succ. set (k1 := Nat.iter n _ k) in *. clearbody k1.
  destruct IH as (Hx & es & E & F & R & N).
  destruct (send_key_ext (if clockwise then "ENC_CW" else "ENC_CC")%string CODEX_ACT_STEP (-1) k1) as (ret & E1 & Hx1).
  split; [eapply ext_trans; [exact Hx|by apply Hx1]|].
  exists (es ++ [KeySent (if clockwise then "ENC_CW" else "ENC_CC")%string CODEX_ACT_STEP ret]).
  rewrite E1, E, <- app_assoc. split; [done|]. split.
  { apply Forall_app. split; [done|]. constructor; [by left|constructor]. }
  rewrite readings_app, net_steps_app, R, N. split; [done|]. destruct clockwise; cbn; lia.
Qed.

(** A poll of the dial: nothing, the first reading, or a reading and its steps. *)
Lemma poll_spec k : exists es,
  k_log (encoder_poll k) = k_log k ++ es /\ prev_mask (encoder_poll k) = prev_mask k /\
  Forall (fun e => forall key action ret, e = KeySent key action ret ->
                   In key ["ENC_CW"; "ENC_CC"]%string) es /\
  ((readings es = [] /\ net_steps es = 0 /\ encoder_last (encoder_poll k) = encoder_last k /\
    encoder_synced (encoder_poll k) = encoder_synced k) \/
   exists v, readings es = [v] /\ encoder_synced (encoder_poll k) = true /\
     (encoder_synced k = false -> encoder_last (encoder_poll k) = v /\ net_steps es = 0) /\
     (encoder_synced k = true -> s32 v = v -> encoder_last k = s32 (encoder_last k) ->
        encoder_last (encoder_poll k) = v /\
        (Z.abs (s32 (v - encoder_last k)) <= ENCODER_STEPS_PER_POLL ->
         net_steps es = - s32 (v - encoder_last k)))).
Proof.
  unfold encoder_poll. destruct (sensor_sample_fetch (k_os k)) as [err1 o1].
  destruct (err1 <? 0).
  { exists []. rewrite app_nil_r. split_and!; try done. by left. }
  destruct (sensor_channel_get _) as [[err2 v] o2]. destruct (err2 <? 0).
  { exists []. rewrite app_nil_r. split_and!; try done. by left. }
  set (k1 := k_note (Dial v) _). 
  assert (k_log k1 = k_log k ++ [Dial v] /\ prev_mask k1 = prev_mask k /\
    encoder_last k1 = encoder_last k /\ encoder_synced k1 = encoder_synced k) as (E1 & M1 & L1 & S1) by done.
  clearbody k1. destruct (encoder_synced k1) eqn:Es; cbn [negb].
  2: { exists [Dial v]. cbn [k_log prev_mask encoder_last encoder_synced update]. rewrite <- S1.
       split_and!; try done; [by constructor|]. right. by exists v. }
  unfold ENCODER_COUNTS_PER_STEP. rewrite Z.quot_1_r, L1. set (d := s32 (v - encoder_last k)).
  destruct (Z.eqb_spec d 0) as [Ed|Hd].
  { exists [Dial v]. rewrite <- S1. split_and!; try done; [by constructor|]. right. exists v.
    rewrite Es, L1. split_and!; try done. intros _ Hv Hl.
    assert (s32 (encoder_last k + s32 (d * 1)) = v) as Hc by by apply s32_catch_up.
    rewrite Ed in Hc. change (s32 (0 * 1)) with 0 in Hc. rewrite Z.add_0_r, <- Hl in Hc.
    split; [exact Hc|]. intros _. fold d. by rewrite Ed. }
  set (k2 := k1 <| encoder_last ::= _ |>). set (cw := if ENCODER_CW_IS_NEGATIVE then d <? 0 else 0 <? d).
  set (count := if ENCODER_STEPS_PER_POLL <? _ then _ else _).
  destruct (steps_ext cw (Z.to_nat (u32 count)) k2) as (Hx & es & E2 & F & R & N).
  unfold send_steps. set (k3 := Nat.iter _ _ k2) in *. destruct Hx as [_ M3 L3 S3].
  exists (Dial v :: es). rewrite E2, M3, L3, S3. unfold k2.
  cbn [k_log prev_mask encoder_last encoder_synced update]. rewrite E1, M1, <- app_assoc, <- S1, Es, L1.
  split; [done|]. split; [done|]. split.
  { constructor; [done|]. eapply Forall_impl; [exact F|]. intros e He key action ret ->.
    by eapply step_names. }
  right. exists v. cbn [readings]. split; [change (v :: readings es = [v]); by rewrite R|].
  split; [done|]. split; [done|]. intros _ Hv Hl. split; [by apply s32_catch_up|].
  intros Hle. change (net_steps (Dial v :: es)) with (0 + net_steps es). rewrite N.
  unfold cw, ENCODER_CW_IS_NEGATIVE, count, ENCODER_STEPS_PER_POLL in *. fold d in Hle |- *.
  assert (forall z, 0 <= z <= 8 -> s32 z = z /\ u32 z = z) as Hs.
  { intros z Hz. unfold s32. rewrite u32_small by lia. split; [|done].
    destruct (Z.ltb_spec z (2 ^ 31)); lia. }
  destruct (Z.ltb_spec d 0).
  - destruct (Hs (- d)) as [-> Hu]; [lia|]. destruct (Z.ltb_spec 8 (- d)); [lia|]. rewrite Hu. lia.
  - destruct (Hs d) as [_ Hu]; [lia|]. destruct (Z.ltb_spec 8 d); [lia|]. rewrite Hu. lia.
Qed.

(** A pass, in three parts: the keys, the dial, the rest. *)
Definition key_part (k : keys) : keys :=
  let '(mask, k) := keypads_scan k in
  if mask <? 0 then k
  else if negb (mask =? prev_mask k) then
    (report_keys mask (prev_mask k) (leds_update mask (prev_mask k) k)) <| prev_mask := mask |>
  else k.
Definition rest_part (k : keys) : keys :=
  let k := encoder_switch_poll k in with_os (k_sleep_scan (k_os k)) k.
Lemma scan_pass_parts k : scan_pass k = rest_part (encoder_poll (key_part k)).
Proof. unfold scan_pass, key_part, rest_part. by destruct (keypads_scan k). Qed.
Lemma rest_ext k : ext (sends_any ["ENC"%string]) k (rest_part k).
Proof. eapply ext_trans; [apply switch_ext|apply ext_os]. Qed.

(** Events of the keys, their lights and the switch leave the dial's account alone. *)
Definition off_dial (e : key_event) : Prop := step_of e = 0 /\ readings [e] = [].
Lemma off_dial_log es es' : Forall off_dial es' ->
  readings (es ++ es') = readings es /\ net_steps (es ++ es') = net_steps es.
Proof.
  intros F. rewrite readings_app, net_steps_app.
  assert (readings es' = [] /\ net_steps es' = 0) as [-> ->]; [|split; [by rewrite app_nil_r|lia]].
  induction F as [|e es' [He1 He2] _ [IH1 IH2]]; [done|].
  change (e :: es') with ([e] ++ es'). rewrite readings_app, net_steps_app, He2, IH1, IH2.
  unfold net_steps. cbn [foldr]. by rewrite He1.
Qed.
Lemma sends_off_dial names e : ~ In "ENC_CW"%string names -> ~ In "ENC_CC"%string names ->
  sends_any names e -> off_dial e.
Proof.
  intros N1 N2 He. destruct e as [key action ret| |]; try done. cbn in He. split; [|done].
  cbn. destruct (String.eqb_spec key "ENC_CW") as [->|_]; [done|].
  destruct (String.eqb_spec key "ENC_CC") as [->|_]; [done|done].
Qed.

(** The keys' part: what it sends, and what the log says of the keys after it. *)
Lemma key_part_ext k : encoder_last (key_part k) = encoder_last k /\
  encoder_synced (key_part k) = encoder_synced k /\
  exists es, k_log (key_part k) = k_log k ++ es /\ Forall off_dial es.
Proof.
  unfold key_part, keypads_scan. destruct (scan_pads _ _ _) as [mask o].
  assert (exists es, k_log k = k_log k ++ es /\ Forall off_dial es) as Hn
    by (exists []; rewrite app_nil_r; by split).
  destruct (mask <? 0); [done|]. destruct (negb _); [|done].
  set (k1 := with_os o k). change (k_log k) with (k_log k1).
  destruct (leds_ext mask (prev_mask k1) k1) as [(es & E & F) M L S].
  set (k2 := leds_update _ _ k1) in *. clearbody k2.
  destruct (report_ext mask (prev_mask k1) k2) as [(es' & E' & F') M' L' S'].
  set (k3 := report_keys _ _ k2) in *. clearbody k3. cbn [encoder_last encoder_synced k_log update].
  rewrite L', S', L, S, E', E, <- app_assoc. split; [done|]. split; [done|]. exists (es ++ es'). split; [done|].
  apply Forall_app. split.
  - eapply Forall_impl; [exact F|]. by intros [| |].
  - eapply Forall_impl; [exact F'|]. intros e. apply sends_off_dial; vm_compute; intuition discriminate.
Qed.

Definition mirrors (k : keys) : Prop :=
  forall j, (j < NUM_KEYS)%nat -> says (fst (key_of j)) (k_log k) = has_bit (prev_mask k) j.
Lemma key_part_mirrors k : mirrors k -> mirrors (key_part k) /\
  prev_mask (key_part k) =
    (let mask := fst (keypads_scan k) in if mask <? 0 then prev_mask k else mask).
Proof.
  intros Hm. unfold key_part, keypads_scan. destruct (scan_pads _ _ _) as [mask o]. cbn [fst].
  destruct (mask <? 0); [done|]. change (prev_mask (with_os o k)) with (prev_mask k).
  destruct (Z.eqb_spec mask (prev_mask k)) as [->|_]; cbn [negb]; [done|]. split; [|done].
  intros j Hj. set (k1 := leds_update _ _ _).
  assert (says (fst (key_of j)) (k_log k1) = has_bit (prev_mask k) j) as Hs1.
  { unfold k1. rewrite (says_ext is_leds _ (with_os o k)); [by apply Hm|apply leds_ext|by intros [| |]]. }
  cbn [k_log prev_mask update]. clearbody k1. unfold report_keys. rewrite report_says; try done.
  - rewrite bool_decide_eq_true_2; [done|]. apply elem_of_seq. lia.
  - apply NoDup_seq.
  - apply Forall_forall. intros i Hi%elem_of_seq. lia.
Qed.

(** The other parts say nothing of the keys. *)
Lemma rest_mirrors k : mirrors k -> mirrors (rest_part (encoder_poll k)) /\
  prev_mask (rest_part (encoder_poll k)) = prev_mask k.
Proof.
  intros Hm. pose proof (rest_ext (encoder_poll k)) as Hx. pose proof (ext_mask _ _ _ Hx) as M.
  destruct (poll_spec k) as (es & E & M2 & F & _). rewrite M, M2. split; [|done].
  intros j Hj. rewrite M, M2. destruct (key_names j j Hj Hj) as [_ Hn].
  rewrite (says_ext _ _ _ _ Hx).
  - rewrite E, says_other; [by apply Hm|]. eapply Forall_impl; [exact F|].
    intros e He. destruct e as [key action ret| |]; [|done..]. cbn. intros ->. apply Hn. right. by eapply He.
  - intros e He. destruct e as [key action ret| |]; [|done..]. cbn in He |- *. intros ->. apply Hn.
    destruct He as [->|[]]. by left.
Qed.

(** The dial's account. *)
Definition dial_ok (k : keys) : Prop :=
  steady_dial (readings (k_log k)) ->
  match readings (k_log k) with
  | [] => encoder_synced k = false /\ net_steps (k_log k) = 0
  | v :: vs => encoder_synced k = true /\ encoder_last k = List.last vs v /\
               u32 (net_steps (k_log k) + List.last vs v) = u32 v
  end.
Lemma steady_prefix vs vs' : steady_dial (vs ++ vs') -> steady_dial vs.
Proof.
  intros [F S]. apply Forall_app in F as [F _]. split; [done|].
  intros pre v v' post ->. apply (S pre v v' (post ++ vs')). by rewrite <- app_assoc.
Qed.
Lemma dial_same k k' : encoder_last k' = encoder_last k -> encoder_synced k' = encoder_synced k ->
  (exists es, k_log k' = k_log k ++ es /\ Forall off_dial es) -> dial_ok k -> dial_ok k'.
Proof.
  intros L S (es & E & F) Hd. unfold dial_ok. rewrite E, L, S.
  destruct (off_dial_log (k_log k) es F) as [-> ->]. exact Hd.
Qed.
Lemma poll_dial k : dial_ok k -> dial_ok (encoder_poll k).
Proof.
  intros Hd Hs. destruct (poll_spec k) as (es & E & _ & _ & Hc). rewrite E in *.
  rewrite readings_app, net_steps_app in *. specialize (Hd (steady_prefix _ _ Hs)).
  destruct Hc as [(-> & -> & -> & ->)|(v & Re & -> & Hf & Ht)]; [|rewrite Re in *].
  { rewrite app_nil_r. by rewrite Z.add_0_r. }
  destruct Hs as [F S]. destruct (readings (k_log k)) as [|v0 vs] eqn:Er.
  - destruct Hd as [Hsy Hn]. destruct (Hf Hsy) as [-> ->]. cbn [app List.last]. split; [done|].
    split; [done|]. by rewrite Hn.
  - destruct Hd as (Hsy & Hl & Hn). cbn [app]. rewrite List.last_last. split; [done|].
    assert (s32 v = v /\ s32 (List.last vs v0) = List.last vs v0) as [Hv Hlast].
    { apply Forall_app in F as [F Fv]. apply Forall_cons in Fv as [Hv _]. split; [done|].
      destruct vs as [|v1 vs _] using rev_ind; [by apply Forall_cons in F as [F _]|].
      rewrite List.last_last. rewrite app_comm_cons in F. apply Forall_app in F as [_ F].
      by apply Forall_cons in F as [F _]. }
    rewrite <- Hl in Hlast. destruct (Ht Hsy Hv (eq_sym Hlast)) as [-> Hnet]. split; [done|].
    rewrite Hnet, Hl.
    + destruct (s32_shift (v - List.last vs v0)) as [n ->]. rewrite <- Hn. unfold u32.
      replace (net_steps (k_log k) + - (v - List.last vs v0 + n * 2 ^ 32) + v)
        with (net_steps (k_log k) + List.last vs v0 + - n * 2 ^ 32) by lia.
      by rewrite Z.mod_add by lia.
    + rewrite Hl. destruct vs as [|v1 vs _] using rev_ind.
      * apply (S [] v0 v []). done.
      * rewrite List.last_last. apply (S (v0 :: vs) v1 v []). cbn. by rewrite <- app_assoc.
Qed.

Lemma pass_inv k : mirrors k /\ dial_ok k -> mirrors (scan_pass k) /\ dial_ok (scan_pass k).
Proof.
  intros [Hm Hd]. rewrite scan_pass_parts. split.
  - apply rest_mirrors, key_part_mirrors, Hm.
  - destruct (key_part_ext k) as (L & S & Ex).
    pose proof (poll_dial _ (dial_same _ _ L S Ex Hd)) as Hp.
    destruct (rest_ext (encoder_poll (key_part k))) as [(es & E & F) _ L2 S2].
    apply (dial_same (encoder_poll (key_part k))); [done..| |done]. exists es. split; [done|].
    eapply Forall_impl; [exact F|]. intros e. apply sends_off_dial; vm_compute; intuition discriminate.
Qed.
Lemma start_ok o k : keys_start o = Some k -> mirrors k /\ dial_ok k.
Proof.
  unfold keys_start. destruct (keypads_init o) as [e1 o1].
  destruct (if e1 =? 0 then _ else _) as [e2 o2]. destruct (negb _); [done|].
  set (k0 := mk_keys 0 false false 0 (mk_hid_tx o2 []) []).
  destruct (leds_ext 0 (BIT NUM_KEYS - 1) k0) as [(es & E & F) M L S].
  set (k1 := leds_update _ _ k0) in *. clearbody k1.
  destruct (bt_enable (k_os k1)) as [e3 o3]. destruct (negb _); [done|]. intros [= <-].
  assert (mirrors k0) as Hm by (intros j Hj; cbn [k_log prev_mask k0]; by rewrite has_bit_0).
  split.
  - intros j Hj. cbn [k_log prev_mask with_os update]. rewrite E, M, says_other; [by apply Hm|].
    eapply Forall_impl; [exact F|]. by intros [| |].
  - apply (dial_same k0); cbn [encoder_last encoder_synced k_log with_os update]; try done.
    exists es. split; [done|]. eapply Forall_impl; [exact F|]. by intros [| |].
Qed.
Lemma passes_ok o k n : keys_start o = Some k -> mirrors (passes_from n k) /\ dial_ok (passes_from n k).
Proof.
  intros Hk. induction n as [|n IH]; [by eapply start_ok|]. unfold passes_from in *.
  rewrite Nat.iter_succ. by apply pass_inv.
Qed.

(** * Properties *)

(** The events say what the keys do.  In any run of main, after any pass the
    last event sent for each of the twelve keys says pressed exactly if the
    pass's scan found the key's bit, and a failed scan changes nothing. *)
Theorem keys_mirror_pads o k0 n i : keys_start o = Some k0 -> (i < NUM_KEYS)%nat ->
  let k := passes_from n k0 in let mask := fst (keypads_scan k) in
  says (fst (key_of i)) (k_log (scan_pass k)) =
    if mask <? 0 then says (fst (key_of i)) (k_log k) else has_bit mask i.
Proof.
  intros Hk Hi. cbv zeta. destruct (passes_ok o k0 n Hk) as [Hm _]. set (k := passes_from n k0) in *.
  rewrite scan_pass_parts. destruct (key_part_mirrors k Hm) as [Hm1 Hp1].
  destruct (rest_mirrors (key_part k) Hm1) as [Hm2 Hp2]. rewrite (Hm2 i Hi), Hp2, Hp1.
  cbv zeta. destruct (_ <? 0); [|done]. by rewrite (Hm i Hi).
Qed.

(** The dial does not drift.  In any run of main whose readings are 32-bit and
    at most eight counts apart, wrapping included, the clockwise steps sent less
    the anticlockwise ones are the counts turned from the first reading to the
    last, modulo 2^32: no step is lost and none is sent twice. *)
Theorem dial_conserves o k0 n : keys_start o = Some k0 ->
  let es := k_log (passes_from n k0) in
  steady_dial (readings es) ->
  match readings es with
  | [] => net_steps es = 0
  | v :: vs => u32 (net_steps es + List.last vs v) = u32 v
  end.
Proof.
  intros Hk. cbv zeta. intros Hs. destruct (passes_ok o k0 n Hk) as [_ Hd]. specialize (Hd Hs).
  destruct (readings _); [by destruct Hd|]. by destruct Hd as (_ & _ & Hd).
Qed.
End Keys.

(** * An instance and witnesses *)
From S2P Require Import Instances.

(** The clock counts the passes; the first pad and the dial follow it. *)
#[export] Instance sim_keys : @KeyHw sim_os := {|
  pad_ready _ _ := true;
  pad_configure _ _ w := (0, w);
  encoder_ready _ := true;
  encoder_configure w := (0, w);
  gpio_port_get_raw pad w :=
    ((0, if (pad =? 0)%nat && (sim_clock w =? 1) then 240 - 32 else 240), w);
  led_strip_update_rgb _ _ w := (0, w);
  sensor_sample_fetch w := (0, w);
  sensor_channel_get w := ((0, s32 (2147483646 + sim_clock w)), w);
  gpio_pin_get_raw w := (1, w);
  k_sleep_scan w := w <| sim_clock ::= Z.add 1 |>;
  bt_enable w := (0, w);
|}.
Definition keys_booted : keys :=
  @mk_keys sim_os 0 false false 0 (@mk_hid_tx sim_os sim_boot [])
    [Leds 0 (replicate 4 key_off) 0; Leds 1 (replicate 4 key_off) 0; Leds 2 (replicate 4 key_off) 0].

Example keys_mirror_pads_witness :
  has_bit (fst (@keypads_scan sim_os sim_keys (@passes_from sim_os sim_keys sim_hids 1 keys_booted))) 1 = true /\
  says "AG01" (k_log (@scan_pass sim_os sim_keys sim_hids (@passes_from sim_os sim_keys sim_hids 1 keys_booted))) = true.
Proof.
  assert (fst (@keypads_scan sim_os sim_keys (@passes_from sim_os sim_keys sim_hids 1 keys_booted)) = 2) as Hm
    by (vm_compute; reflexivity).
  rewrite Hm. split; [reflexivity|].
  pose proof (@keys_mirror_pads sim_os sim_keys sim_hids sim_boot keys_booted 1 1
    ltac:(vm_compute; reflexivity) ltac:(vm_compute; lia)) as Hk.
  cbv zeta in Hk. rewrite Hm in Hk. exact Hk.
Defined.

Lemma demo_steady : steady_dial [2147483646; 2147483647; -2147483648].
Proof.
  split; [repeat (constructor; [by vm_compute|]); constructor|].
  intros pre v v' post E. destruct pre as [|a pre]; cbn [app] in E.
  { injection E as <- <- _. by vm_compute. }
  injection E as _ E. destruct pre as [|b pre]; cbn [app] in E.
  { injection E as <- <- _. by vm_compute. }
  injection E as _ E. destruct pre as [|c pre]; cbn [app] in E; injection E as _ E; [done|].
  by destruct pre.
Qed.
(** The dial wraps from 2^31 - 1 to -2^31 on the third pass. *)
Example dial_conserves_witness :
  let es := k_log (@passes_from sim_os sim_keys sim_hids 3 keys_booted) in
  readings es = [2147483646; 2147483647; -2147483648] /\
  u32 (net_steps es + -2147483648) = u32 2147483646.
Proof.
  cbv zeta. assert (readings (k_log (@passes_from sim_os sim_keys sim_hids 3 keys_booted)) =
    [2147483646; 2147483647; -2147483648]) as Hr by (vm_compute; reflexivity).
  split; [exact Hr|].
  pose proof (@dial_conserves sim_os sim_keys sim_hids sim_boot keys_booted 3
    ltac:(vm_compute; reflexivity)) as Hd.
  cbv zeta in Hd. rewrite Hr in Hd. exact (Hd demo_steady).
Defined.
