(* ===== verification/AppTime.v ===== *)
(** common/time/app_time.c: the wall clock, kept by SNTP.

    Callbacks of Zephyr's work queue, network manager, resolver and socket
    service move one module state; [time_event] is one of them running.  The
    resolver, the SNTP client and the realtime clock are the class [Sntp]; the
    calls that open and close a query are logged next to the machine. *)

From S2P Require Import Prelude Platform.
#[local] Open Scope Z_scope.

Definition SNTP_SERVER_PORT : Z := 123.
Definition NSEC_PER_SEC : Z := 1000000000.
(** On the boards' 32-bit processors. *)
Definition LONG_MAX : Z := 2 ^ 31 - 1.

Inductive family := AF_UNSPEC | AF_INET | AF_INET6.
Record net_sockaddr := mk_addr { ss_family : family; sa_data : list Z; sa_port : Z }.
Definition zero_addr : net_sockaddr := mk_addr AF_UNSPEC [] 0.
#[export] Instance family_eq_dec : EqDecision family.
Proof. solve_decision. Defined.

Inductive dns_resolve_status :=
  DNS_EAI_INPROGRESS | DNS_EAI_ALLDONE | DNS_EAI_CANCELED | DNS_EAI_FAIL | DNS_EAI_OTHER (n : Z).
(** What the sources read of a [dns_addrinfo]. *)
Record dns_addrinfo := mk_info { ai_family : family; ai_addr : list Z; ai_addrlen : Z }.

(** The build's configuration. *)
Record time_config := mk_config {
  SNTP_SERVER : string;
  SNTP_TIMEOUT_MS : Z;
  SNTP_RETRY_SEC : Z;
  SNTP_RESYNC_SEC : Z;
  NET_IPV4 : bool;
  NET_IPV6 : bool;
}.

Class Sntp `{Os} := {
  sizeof_sockaddr_in : Z;
  sizeof_sockaddr_in6 : Z;
  net_ipaddr_parse : string -> option net_sockaddr;
  net_port_set_default : net_sockaddr -> Z -> Z * net_sockaddr;
  sntp_init_async : net_sockaddr -> Z -> os -> Z * os;
  sntp_send_async : os -> Z * os;
  sntp_close_async : os -> os;
  (* the result, and the seconds and fraction read *)
  sntp_read_async : os -> (Z * (Z * Z)) * os;
  dns_get_addr_info : string -> Z -> os -> Z * os;
  sys_clock_settime : Z -> Z -> os -> Z * os;
  (* the result, and seconds and nanoseconds *)
  sys_clock_gettime : os -> (Z * (Z * Z)) * os;
}.

(** The statics.  A delayable work item is the delay it was scheduled with, in
    milliseconds, while it is scheduled. *)
Record app_time := mk_time {
  started : bool;
  synced : bool;
  ipv4_up : bool;
  listening : bool;   (* l4_cb added *)
  sync_work : option Z;
  sntp_timeout_work : option Z;
  sntp_addr : net_sockaddr;
  sntp_addrlen : Z;
}.
#[export] Instance eta_app_time : Eta app_time := fun t =>
  mk_time (started t) (synced t) (ipv4_up t) (listening t) (sync_work t) (sntp_timeout_work t)
          (sntp_addr t) (sntp_addrlen t).
Definition time_boot : app_time := mk_time false false false false None None zero_addr 0.

(** Logged calls: [sntp_init_async] with its result, and [sntp_close_async]. *)
Inductive sntp_call := InitAsync (ret : Z) | CloseAsync.

Section AppTime.
Context `{Sntp}.
Variable config : time_config.

Record clockwork := mk_clockwork { t_os : os; calls : list sntp_call; resolving : bool }.
#[export] Instance eta_clockwork : Eta clockwork := fun w =>
  mk_clockwork (t_os w) (calls w) (resolving w).

Definition init_async (addr : net_sockaddr) (addrlen : Z) (w : clockwork) : Z * clockwork :=
  let '(ret, o) := sntp_init_async addr addrlen (t_os w) in
  (ret, w <| t_os := o |> <| calls ::= fun l => l ++ [InitAsync ret] |>).
Definition close_async (w : clockwork) : clockwork :=
  w <| t_os ::= sntp_close_async |> <| calls ::= fun l => l ++ [CloseAsync] |>.

(** [k_work_schedule] leaves an item that is already scheduled alone. *)
Definition l4_handler (connected : bool) (t : app_time) : app_time :=
  let t := t <| ipv4_up := connected |> in
  if connected then
    match sync_work t with
    | None => t <| sync_work := Some 0 |>
    | Some _ => t
    end
  else t.

Definition sntp_fraction_to_nsec (fraction : Z) : Z :=
  u32 (Z.shiftr (u64 (fraction * NSEC_PER_SEC)) 32).

Definition schedule_next (success : bool) (t : app_time) : app_time :=
  t <| sync_work := Some (1000 * (if success then SNTP_RESYNC_SEC config else SNTP_RETRY_SEC config)) |>.

Definition set_clock_from_sntp (seconds fraction : Z) (t : app_time) (w : clockwork)
  : bool * app_time * clockwork :=
  if LONG_MAX <? seconds then (false, t, w) else
  let '(ret, o) := sys_clock_settime seconds (sntp_fraction_to_nsec fraction) (t_os w) in
  let w := w <| t_os := o |> in
  if ret <? 0 then (false, t, w) else (true, t <| synced := true |>, w).

Definition start_sntp_query (addr : net_sockaddr) (addrlen : Z) (t : app_time) (w : clockwork)
  : Z * app_time * clockwork :=
  let '(ret, w) := init_async addr addrlen w in
  if ret <? 0 then (ret, t, w) else
  let '(ret, o) := sntp_send_async (t_os w) in
  let w := w <| t_os := o |> in
  if ret <? 0 then (ret, t, close_async w) else
  (0, t <| sntp_timeout_work := Some (SNTP_TIMEOUT_MS config) |>, w).

Definition parse_sntp_server_addr (t : app_time) : bool * app_time :=
  let t := t <| sntp_addr := zero_addr |> <| sntp_addrlen := 0 |> in
  match net_ipaddr_parse (SNTP_SERVER config) with
  | None => (false, t)
  | Some addr =>
      let t := t <| sntp_addr := addr |> in
      let with_len (n : Z) :=
        let '(ret, addr) := net_port_set_default addr SNTP_SERVER_PORT in
        (ret =? 0, t <| sntp_addrlen := n |> <| sntp_addr := addr |>) in
      if NET_IPV4 config && bool_decide (ss_family addr = AF_INET) then with_len sizeof_sockaddr_in
      else if NET_IPV6 config && bool_decide (ss_family addr = AF_INET6) then with_len sizeof_sockaddr_in6
      else (false, t)
  end.

(** [if (start_sntp_query(...) < 0) schedule_next(false)]. *)
Definition query_or_retry (t : app_time) (w : clockwork) : app_time * clockwork :=
  let '(ret, t, w) := start_sntp_query (sntp_addr t) (sntp_addrlen t) t w in
  if ret <? 0 then (schedule_next false t, w) else (t, w).

Definition dns_result_cb (status : dns_resolve_status) (info : option dns_addrinfo) (t : app_time)
  (w : clockwork) : app_time * clockwork :=
  match status with
  | DNS_EAI_CANCELED | DNS_EAI_FAIL => (schedule_next false t, w)
  | DNS_EAI_ALLDONE =>
      if sntp_addrlen t =? 0 then (schedule_next false t, w) else query_or_retry t w
  | DNS_EAI_INPROGRESS =>
      match info with
      | None => (t, w)
      | Some i =>
          if negb (sntp_addrlen t =? 0) then (t, w)
          else if NET_IPV4 config && bool_decide (ai_family i = AF_INET) then
            let '(_, addr) := net_port_set_default (mk_addr AF_INET (ai_addr i) 0) SNTP_SERVER_PORT in
            (t <| sntp_addrlen := ai_addrlen i |> <| sntp_addr := addr |>, w)
          else (t, w)
      end
  | DNS_EAI_OTHER _ => (t, w)
  end.

Definition sync_work_handler (t : app_time) (w : clockwork) : app_time * clockwork :=
  if negb (ipv4_up t) then (schedule_next false t, w) else
  let '(parsed, t) := parse_sntp_server_addr t in
  if parsed then query_or_retry t w else
  let t := t <| sntp_addr := zero_addr |> <| sntp_addrlen := 0 |> in
  let '(ret, o) := dns_get_addr_info (SNTP_SERVER config) (SNTP_TIMEOUT_MS config) (t_os w) in
  let w := w <| t_os := o |> in
  if ret <? 0 then (schedule_next false t, w) else (t, w <| resolving := true |>).

Definition sntp_timeout_handler (t : app_time) (w : clockwork) : app_time * clockwork :=
  (schedule_next false t, close_async w).

Definition sntp_service_handler (t : app_time) (w : clockwork) : app_time * clockwork :=
  let '((ret, (seconds, fraction)), o) := sntp_read_async (t_os w) in
  let w := w <| t_os := o |> in
  let '(success, t, w) :=
    if ret <? 0 then (false, t, w) else set_clock_from_sntp seconds fraction t w in
  let w := close_async w in
  (schedule_next success (t <| sntp_timeout_work := None |>), w).

Definition app_time_start (t : app_time) : app_time :=
  if started t then t else t <| started := true |> <| listening := true |>.

Definition app_time_synced (t : app_time) : bool := synced t.

Definition app_time_now (t : app_time) (o : os) : (Z * Z) * os :=
  if negb (app_time_synced t) then ((0, 0), o) else
  let '((ret, (sec, nsec)), o) := sys_clock_gettime o in
  if (ret <? 0) || (sec <? 0) || (UINT32_MAX <? sec) || (nsec <? 0) || (NSEC_PER_SEC <=? nsec)
  then ((0, 0), o) else ((u32 sec, u32 nsec), o).

(** * Specification: callbacks in any order

    A work item runs only while it is scheduled, the socket service only with a
    query open, the resolver's callback only while it is resolving (any status
    but INPROGRESS is its last), and the link's once it was registered. *)
Inductive time_ev :=
  | EvStart | EvL4 (connected : bool) | EvSync | EvTimeout | EvService
  | EvDns (status : dns_resolve_status) (info : option dns_addrinfo).

(** Queries opened and not closed. *)
Definition count_call (n : nat) (c : sntp_call) : nat :=
  match c with InitAsync ret => if ret <? 0 then n else S n | CloseAsync => pred n end.
Definition open_queries (w : clockwork) : nat := foldl count_call O (calls w).

Definition time_event (st : app_time * clockwork) (e : time_ev) : app_time * clockwork :=
  let '(t, w) := st in
  match e with
  | EvStart => (app_time_start t, w)
  | EvL4 connected => if listening t then (l4_handler connected t, w) else (t, w)
  | EvSync =>
      match sync_work t with
      | Some _ => sync_work_handler (t <| sync_work := None |>) w
      | None => (t, w)
      end
  | EvTimeout =>
      match sntp_timeout_work t with
      | Some _ => sntp_timeout_handler (t <| sntp_timeout_work := None |>) w
      | None => (t, w)
      end
  | EvService => if (0 <? open_queries w)%nat then sntp_service_handler t w else (t, w)
  | EvDns status info =>
      if resolving w then
        dns_result_cb status info t
          (match status with DNS_EAI_INPROGRESS => w | _ => w <| resolving := false |> end)
      else (t, w)
  end.
Definition time_run (o : os) (es : list time_ev) : app_time * clockwork :=
  foldl time_event (time_boot, mk_clockwork o [] false) es.

(** Something will run again. *)
Definition pending (st : app_time * clockwork) : Prop :=
  sync_work (fst st) <> None \/ sntp_timeout_work (fst st) <> None \/ resolving (snd st) = true.
(** A lookup or a query is under way. *)
Definition in_flight (st : app_time * clockwork) : bool :=
  resolving (snd st) || (0 <? open_queries (snd st))%nat.

(** * Lemmas *)

(** Count the calls a handler appended. *)
Ltac count_calls :=
  unfold open_queries, close_async; cbn [t_os calls resolving update];
  rewrite ?foldl_app; cbn [foldl count_call].

(** What starting a query comes to: a timeout and one more open query, or a
    retry and none. *)
Lemma query_or_retry_spec t w :
  let '(t', w') := query_or_retry t w in
  resolving w' = resolving w /\ listening t' = listening t /\
  ((sync_work t' <> None /\ sntp_timeout_work t' = sntp_timeout_work t /\
    open_queries w' = open_queries w) \/
   (sync_work t' = sync_work t /\ sntp_timeout_work t' <> None /\
    open_queries w' = S (open_queries w))).
Proof.
  destruct w as [o l r]. unfold query_or_retry, start_sntp_query, init_async. cbn [t_os].
  destruct (sntp_init_async _ _ _) as [ret o1]. cbn [t_os calls resolving update].
  destruct (ret <? 0) eqn:E1; cbv iota zeta; rewrite ?E1.
  { split; [done|]. split; [done|]. left. count_calls. by rewrite E1. }
  destruct (sntp_send_async o1) as [ret2 o2]. destruct (ret2 <? 0) eqn:E2; cbv iota zeta; rewrite ?E2.
  - split; [done|]. split; [done|]. left. split; [done|]. split; [done|]. count_calls.
    by rewrite E1.
  - split; [done|]. split; [done|]. right. split; [done|]. split; [done|]. count_calls.
    by rewrite E1.
Qed.

Lemma parse_keeps t : let '(_, t') := parse_sntp_server_addr t in
  listening t' = listening t /\ sync_work t' = sync_work t /\
  sntp_timeout_work t' = sntp_timeout_work t.
Proof.
  unfold parse_sntp_server_addr. destruct (net_ipaddr_parse _); [|done]. cbv zeta.
  destruct (_ && _); [by destruct (net_port_set_default _ _)|].
  destruct (_ && _); [by destruct (net_port_set_default _ _)|done].
Qed.

(** Every handler leaves something scheduled, and what it does to the counts. *)
Lemma sync_spec t w :
  let '(t', w') := sync_work_handler t w in
  listening t' = listening t /\
  ((sync_work t' <> None /\ sntp_timeout_work t' = sntp_timeout_work t /\
    resolving w' = resolving w /\ open_queries w' = open_queries w) \/
   (sync_work t' = sync_work t /\ sntp_timeout_work t' <> None /\
    resolving w' = resolving w /\ open_queries w' = S (open_queries w)) \/
   (sync_work t' = sync_work t /\ sntp_timeout_work t' = sntp_timeout_work t /\
    resolving w' = true /\ open_queries w' = open_queries w)).
Proof.
  unfold sync_work_handler. destruct (ipv4_up t); cbn [negb]; [|split; [done|by left]].
  pose proof (parse_keeps t) as Hp. destruct (parse_sntp_server_addr t) as [parsed t1].
  destruct Hp as (Hl & Hs1 & Ht1). destruct parsed.
  - pose proof (query_or_retry_spec t1 w) as Hq. destruct (query_or_retry t1 w) as [t2 w2].
    destruct Hq as (Hr & Hl2 & [(A & B & C)|(A & B & C)]); rewrite Hl2, Hl; split; try done.
    + left. by rewrite B, Ht1.
    + right. left. by rewrite A, Hs1.
  - destruct (dns_get_addr_info _ _ _) as [ret o]. destruct (ret <? 0); cbn.
    + split; [done|]. by left.
    + split; [done|]. right. right. by rewrite Hs1, Ht1.
Qed.

Lemma service_spec t w : let '(t', w') := sntp_service_handler t w in
  listening t' = listening t /\ sync_work t' <> None /\ sntp_timeout_work t' = None /\
  resolving w' = resolving w /\ open_queries w' = pred (open_queries w).
Proof.
  destruct w as [o l r]. unfold sntp_service_handler. cbn [t_os].
  destruct (sntp_read_async o) as [[ret [seconds fraction]] o1].
  cbn [t_os calls resolving update].
  assert (forall b t1 o2, listening t1 = listening t ->
    let '(t', w') := (schedule_next b (t1 <| sntp_timeout_work := None |>),
                      close_async (mk_clockwork o2 l r)) in
    listening t' = listening t /\ sync_work t' <> None /\ sntp_timeout_work t' = None /\
    resolving w' = r /\ open_queries w' = pred (open_queries (mk_clockwork o l r))) as Hc.
  { intros b t1 o2 Hl. split; [done|]. do 3 (split; [done|]). by count_calls. }
  destruct (ret <? 0); [by apply Hc|]. unfold set_clock_from_sntp.
  destruct (LONG_MAX <? seconds); [by apply Hc|]. cbn [t_os].
  destruct (sys_clock_settime _ _ _) as [ret2 o2]. cbn [update t_os calls resolving].
  destruct (ret2 <? 0); by apply Hc.
Qed.

Lemma dns_spec status info t w :
  let '(t', w') := dns_result_cb status info t w in
  listening t' = listening t /\ resolving w' = resolving w /\
  ((status <> DNS_EAI_INPROGRESS /\
    ((sync_work t' <> None /\ sntp_timeout_work t' = sntp_timeout_work t /\
      open_queries w' = open_queries w) \/
     (sync_work t' = sync_work t /\ sntp_timeout_work t' <> None /\
      open_queries w' = S (open_queries w)))) \/
   (sync_work t' = sync_work t /\ sntp_timeout_work t' = sntp_timeout_work t /\
    open_queries w' = open_queries w /\
    (status = DNS_EAI_INPROGRESS \/ exists n, status = DNS_EAI_OTHER n))).
Proof.
  unfold dns_result_cb. destruct status; try (split; [done|]; split; [done|by left; split; [|left]]).
  - assert (forall x, listening x = listening t /\ sync_work x = sync_work t /\
      sntp_timeout_work x = sntp_timeout_work t ->
      listening x = listening t /\ resolving w = resolving w /\
      ((DNS_EAI_INPROGRESS <> DNS_EAI_INPROGRESS /\
        ((sync_work x <> None /\ sntp_timeout_work x = sntp_timeout_work t /\
          open_queries w = open_queries w) \/
         (sync_work x = sync_work t /\ sntp_timeout_work x <> None /\
          open_queries w = S (open_queries w)))) \/
       (sync_work x = sync_work t /\ sntp_timeout_work x = sntp_timeout_work t /\
        open_queries w = open_queries w /\
        (DNS_EAI_INPROGRESS = DNS_EAI_INPROGRESS \/ exists n, DNS_EAI_INPROGRESS = DNS_EAI_OTHER n)))) as Hx
      by tauto.
    destruct info as [i|]; [|by apply Hx]. destruct (negb _); [by apply Hx|].
    destruct (_ && _); [|by apply Hx]. destruct (net_port_set_default _ _). by apply Hx.
  - destruct (sntp_addrlen t =? 0); [split; [done|]; split; [done|by left; split; [|left]]|].
    pose proof (query_or_retry_spec t w) as Hq. destruct (query_or_retry t w) as [t2 w2].
    destruct Hq as (Hr & Hl & Hq). split; [done|]. split; [done|]. left. by split.
  - split; [done|]. split; [done|]. right. split_and!; try done. right. by exists n.
Qed.

(** The link's events, one at a time. *)
Lemma l4_spec b t : let t' := l4_handler b t in
  listening t' = listening t /\ sntp_timeout_work t' = sntp_timeout_work t /\
  (b = true -> sync_work t' <> None) /\ (sync_work t <> None -> sync_work t' <> None) /\
  (b = false -> sync_work t' = sync_work t).
Proof.
  unfold l4_handler. cbn [update sync_work]. destruct b; [destruct (sync_work t) eqn:E|]; cbn;
    rewrite ?E; split_and!; done || tauto.
Qed.

Lemma start_spec t : let t' := app_time_start t in
  (listening t = true -> listening t' = true) /\
  sync_work t' = sync_work t /\ sntp_timeout_work t' = sntp_timeout_work t.
Proof. unfold app_time_start. by destruct (started t). Qed.

(** Once something is scheduled, something stays scheduled. *)
Definition ends (e : time_ev) : Prop := match e with EvDns (DNS_EAI_OTHER _) _ => False | _ => True end.
Lemma pending_event st e : pending st -> ends e -> pending (time_event st e).
Proof.
  destruct st as [t w]. unfold pending. intros Hp He.
  destruct e as [|b| | | |status info]; cbn [time_event].
  - destruct (start_spec t) as (_ & Hs & Ht). cbn [fst snd]. by rewrite Hs, Ht.
  - destruct (listening t); [|exact Hp]. destruct (l4_spec b t) as (_ & Ht & _ & Hk & _). cbn [fst snd].
    rewrite Ht. cbn in Hp. tauto.
  - destruct (sync_work t) eqn:E; [|exact Hp].
    pose proof (sync_spec (t <| sync_work := None |>) w) as Hs.
    destruct (sync_work_handler _ w) as [t' w']. cbn [fst snd]. tauto.
  - destruct (sntp_timeout_work t) eqn:E; [left; discriminate|exact Hp].
  - destruct (0 <? open_queries w)%nat; [|exact Hp].
    pose proof (service_spec t w) as Hs. destruct (sntp_service_handler t w). cbn [fst snd]. tauto.
  - destruct (resolving w) eqn:Er; [|exact Hp].
    set (w1 := match status with DNS_EAI_INPROGRESS => w | _ => _ end).
    pose proof (dns_spec status info t w1) as Hd. destruct (dns_result_cb _ _ t w1) as [t' w'].
    cbn [fst snd]. destruct Hd as (_ & Hr & [(_ & [(A & _)|(_ & A & _)])|(_ & _ & _ & [->|[n ->]])]); try tauto.
    right. right. by rewrite Hr.
Qed.
(** The link coming up schedules a sync, whatever was lost before. *)
Lemma pending_up st : listening (fst st) = true -> pending (time_event st (EvL4 true)).
Proof.
  destruct st as [t w]. cbn [fst]. intros Hl. cbn [time_event]. rewrite Hl.
  left. cbn [fst]. destruct (l4_spec true t) as (_ & _ & Hs & _). by apply Hs.
Qed.
(** Has no lookup been lost since the link last came up? *)
Definition lookups_end (es : list time_ev) : Prop :=
  forall n info es1 es2, es = es1 ++ EvDns (DNS_EAI_OTHER n) info :: es2 -> EvL4 true ∈ es2.
Lemma lookups_end_prefix es e : e <> EvL4 true -> lookups_end (es ++ [e]) -> lookups_end es /\ ends e.
Proof.
  intros Hne Hl. split.
  - intros n info es1 es2 ->. specialize (Hl n info es1 (es2 ++ [e])).
    rewrite <- app_assoc in Hl. specialize (Hl eq_refl). apply elem_of_app in Hl as [|Hi]; [done|].
    apply list_elem_of_singleton in Hi. congruence.
  - destruct e as [| | | | |[| | | |n] info]; try exact I.
    specialize (Hl n info es [] eq_refl). by apply elem_of_nil in Hl.
Qed.

Lemma listening_event st e : listening (fst st) = true -> listening (fst (time_event st e)) = true.
Proof.
  destruct st as [t w]. intros Hl. cbn [fst] in Hl.
  destruct e as [|b| | | |status info]; cbn [time_event].
  - by apply start_spec.
  - rewrite Hl. destruct (l4_spec b t) as (Hs & _). cbn [fst]. by rewrite Hs.
  - destruct (sync_work t); [|done].
    pose proof (sync_spec (t <| sync_work := None |>) w) as Hs.
    destruct (sync_work_handler _ w). destruct Hs as [Hs _]. cbn [fst]. by rewrite Hs.
  - by destruct (sntp_timeout_work t).
  - destruct (_ <? _)%nat; [|done].
    pose proof (service_spec t w) as Hs. destruct (sntp_service_handler t w). destruct Hs as [Hs _]. cbn [fst]. by rewrite Hs.
  - destruct (resolving w); [|done]. set (w1 := match status with DNS_EAI_INPROGRESS => w | _ => _ end).
    pose proof (dns_spec status info t w1) as Hd. destruct (dns_result_cb _ _ t w1).
    destruct Hd as [Hd _]. cbn [fst]. by rewrite Hd.
Qed.

(** One thing under way at a time, and a timeout exactly while a query is. *)
Definition b2n (b : bool) : nat := if b then 1%nat else 0%nat.
Definition scheduled (o : option Z) : bool := match o with Some _ => true | None => false end.
Definition one_at_a_time (st : app_time * clockwork) : Prop :=
  let '(t, w) := st in
  (b2n (scheduled (sync_work t)) + b2n (resolving w) + open_queries w <= 1)%nat /\
  (sntp_timeout_work t = None <-> open_queries w = 0%nat).
Lemma scheduled_none o : scheduled o = false <-> o = None.
Proof. by destruct o. Qed.
Lemma one_event st e : one_at_a_time st -> (e = EvL4 true -> in_flight st = false) ->
  one_at_a_time (time_event st e).
Proof.
  destruct st as [t w]. unfold in_flight. cbn [fst snd]. intros [H1 H2] He.
  destruct e as [|b| | | |status info]; cbn [time_event]; unfold one_at_a_time in *.
  - destruct (start_spec t) as (_ & -> & ->). done.
  - destruct (listening t); [|done]. destruct (l4_spec b t) as (_ & -> & _ & _ & Hf).
    destruct b; [|by rewrite Hf]. specialize (He eq_refl). split; [|done].
    destruct (resolving w), (open_queries w) as [|n]; try done.
    destruct (sync_work (l4_handler true t)); cbn; lia.
  - destruct (sync_work t) eqn:E; [|by rewrite E]. cbn in H1.
    pose proof (sync_spec (t <| sync_work := None |>) w) as Hs.
    destruct (sync_work_handler _ w) as [t' w']. cbn [update sync_work sntp_timeout_work] in Hs.
    destruct (resolving w), (open_queries w) as [|n]; try (cbn in H1; lia).
    destruct Hs as [_ [(_ & -> & -> & ->)|[(-> & Ht & -> & ->)|(-> & -> & -> & ->)]]]; cbn.
    + split; [destruct (sync_work t'); cbn; lia|done].
    + split; [lia|done].
    + done.
  - destruct (sntp_timeout_work t) eqn:E; [|by rewrite E]. unfold sntp_timeout_handler. cbn -[pred].
    assert (open_queries w = 1%nat) as Ho.
    { destruct (open_queries w) as [|n]; [by pose proof (proj2 H2 eq_refl)|lia]. }
    count_calls. fold (open_queries w). rewrite Ho in *. cbn. 
    destruct (resolving w), (scheduled (sync_work t)); try (cbn in H1; lia). done.
  - destruct (Nat.ltb_spec 0 (open_queries w)) as [Ho|]; [|done].
    pose proof (service_spec t w) as Hs. destruct (sntp_service_handler t w) as [t' w'].
    destruct Hs as (_ & Hs & -> & -> & ->).
    assert (open_queries w = 1%nat) as -> by lia.
    destruct (resolving w), (scheduled (sync_work t)); try (cbn in H1; lia).
    cbn. destruct (sync_work t'); cbn; split; done || lia.
  - destruct (resolving w) eqn:Er; [|by rewrite Er].
    destruct (scheduled (sync_work t)) eqn:Es, (open_queries w) as [|n] eqn:Eo; try (cbn in H1; lia).
    apply scheduled_none in Es.
    set (w1 := match status with DNS_EAI_INPROGRESS => w | _ => _ end).
    assert (open_queries w1 = 0%nat) as Eo1 by (unfold w1; by destruct status).
    assert (resolving w1 = match status with DNS_EAI_INPROGRESS => true | _ => false end) as Er1
      by (unfold w1; by destruct status).
    pose proof (dns_spec status info t w1) as Hd. destruct (dns_result_cb _ _ t w1) as [t' w'].
    destruct Hd as (_ & -> & [(Hn & [(A & -> & ->)|(-> & A & ->)])|(-> & -> & -> & _)]);
      rewrite ?Eo1, ?Es, ?Er1; cbn.
    + destruct (sync_work t'), status; cbn; split; done || lia.
    + destruct status; cbn; split; done || lia.
    + split; [destruct status; cbn; lia|done].
Qed.

Lemma time_run_app o es es' : time_run o (es ++ es') = foldl time_event (time_run o es) es'.
Proof. unfold time_run. by rewrite foldl_app. Qed.
Lemma listening_run st es : listening (fst st) = true -> listening (fst (foldl time_event st es)) = true.
Proof.
  revert st. induction es as [|e es IH]; intros st Hl; [done|]. by apply IH, listening_event.
Qed.

(** * Properties *)

(** C34: The clock is never given up on.  Once started, and once IPv4 has come up,
    after any callbacks whatever - failed lookups, failed sends, timeouts,
    unreadable replies, link drops - a sync is scheduled, a query is timed or a
    lookup is under way, unless, since the link last came up, a lookup has ended
    with a status that [dns_result_cb] does not know as an end (none of all done,
    cancelled and failed). *)
Theorem time_never_stalls o mid post : lookups_end post ->
  pending (time_run o (EvStart :: mid ++ EvL4 true :: post)).
Proof.
  change (EvStart :: mid ++ EvL4 true :: post) with ((EvStart :: mid) ++ EvL4 true :: post).
  assert (listening (fst (time_run o (EvStart :: mid))) = true) as Hl
    by by apply (listening_run (time_event (time_boot, mk_clockwork o [] false) EvStart) mid).
  induction post as [|e post IH] using rev_ind; intros Hp.
  { rewrite time_run_app. by apply pending_up. }
  rewrite app_comm_cons, app_assoc, time_run_app. cbn [foldl].
  assert (e = EvL4 true \/ e <> EvL4 true) as [->|Hne].
  { destruct e as [|[]| | | |]; ((by left) || by right). }
  - apply pending_up. rewrite time_run_app. by apply listening_run.
  - destruct (lookups_end_prefix _ _ Hne Hp) as [Hp' He]. apply pending_event; [by apply IH|done].
Qed.

(** One query at a time.  If the link never comes up while a lookup or a
    query is under way, at most one query is ever open. *)
Theorem one_query_at_a_time o es :
  (forall pre post, es = pre ++ EvL4 true :: post -> in_flight (time_run o pre) = false) ->
  (open_queries (snd (time_run o es)) <= 1)%nat.
Proof.
  intros Hq. assert (one_at_a_time (time_run o es)) as Ho.
  { induction es as [|e es IH] using rev_ind; [by split; [cbn; lia|]|].
    rewrite time_run_app. apply one_event.
    - apply IH. intros pre post ->. apply (Hq pre (post ++ [e])). by rewrite <- app_assoc.
    - intros ->. by apply (Hq es []). }
  destruct (time_run o es) as [t w]. destruct Ho as [Ho _]. cbn [snd]. lia.
Qed.

(** Every time stamp is a valid one.  What [app_time_now] returns fits its
    unsigned fields and has less than a second of nanoseconds, and is zero
    before the first sync; and a reply's fraction sets less than a second of
    nanoseconds. *)
Theorem stamps_valid t o fraction :
  let '((sec, nanosec), _) := app_time_now t o in
  0 <= sec < 2 ^ 32 /\ 0 <= nanosec < NSEC_PER_SEC /\
  (synced t = false -> sec = 0 /\ nanosec = 0) /\
  0 <= sntp_fraction_to_nsec (u32 fraction) < NSEC_PER_SEC.
Proof.
  assert (0 <= sntp_fraction_to_nsec (u32 fraction) < NSEC_PER_SEC) as Hf.
  { pose proof (u32_range fraction) as Hr. unfold sntp_fraction_to_nsec, NSEC_PER_SEC.
    rewrite u64_small, Z.shiftr_div_pow2 by lia.
    assert (0 <= u32 fraction * 1000000000 / 2 ^ 32 < 1000000000) as Hd.
    { split; [apply Z.div_pos; lia|apply Z.div_lt_upper_bound; lia]. }
    rewrite u32_small; lia. }
  unfold app_time_now, app_time_synced, NSEC_PER_SEC in *.
  destruct (synced t); cbn [negb]; [|split_and!; done || lia].
  destruct (sys_clock_gettime o) as [[ret [sec nsec]] o'].
  destruct (_ || _) eqn:E; [split_and!; done || lia|]. to_prop. unfold UINT32_MAX in *.
  rewrite !u32_small by lia. split_and!; done || lia.
Qed.
End AppTime.

(** * An instance, witnesses and the condition *)
From S2P Require Import Instances.

(** A resolver that takes numeric addresses, and a server that never answers. *)
#[export] Instance sim_sntp : @Sntp sim_os := {|
  sizeof_sockaddr_in := 8;
  sizeof_sockaddr_in6 := 24;
  net_ipaddr_parse _ := Some (mk_addr AF_INET [192; 168; 1; 10] 0);
  net_port_set_default a p := (0, mk_addr (ss_family a) (sa_data a) p);
  sntp_init_async _ _ w := (0, w);
  sntp_send_async w := (0, w);
  sntp_close_async w := w;
  sntp_read_async w := ((- EIO, (0, 0)), w);
  dns_get_addr_info _ _ w := (0, w);
  sys_clock_settime _ _ w := (0, w);
  sys_clock_gettime w := ((0, (1700000000, 5)), w);
|}.
Definition demo_config : time_config := mk_config "192.168.1.10" 3000 15 60 true false.

Definition demo_run : list time_ev -> app_time * clockwork := @time_run sim_os sim_sntp demo_config sim_boot.

Example time_never_stalls_witness :
  pending (demo_run ([EvStart] ++ EvL4 true :: [EvSync; EvTimeout; EvL4 false])).
Proof.
  apply (@time_never_stalls sim_os sim_sntp demo_config sim_boot []). intros n info es1 es2 E.
  destruct es1 as [|e1 [|e2 [|e3 [|e4 es1]]]]; cbn in E; discriminate E.
Defined.

(** The exception is real: a server given by name, whose lookup ends with another
    status (there are more of them: no data, no such name), leaves nothing that would
    ever run again; only the link coming up anew starts over. *)
Definition named_sntp : @Sntp sim_os := {|
  sizeof_sockaddr_in := 8; sizeof_sockaddr_in6 := 24;
  net_ipaddr_parse _ := None;
  net_port_set_default a p := (0, mk_addr (ss_family a) (sa_data a) p);
  sntp_init_async _ _ w := (0, w); sntp_send_async w := (0, w); sntp_close_async w := w;
  sntp_read_async w := ((- EIO, (0, 0)), w);
  dns_get_addr_info _ _ w := (0, w);
  sys_clock_settime _ _ w := (0, w); sys_clock_gettime w := ((0, (1700000000, 5)), w);
|}.
Theorem lost_lookup_stalls status :
  let run := @time_run sim_os named_sntp demo_config sim_boot in
  let es := [EvStart; EvL4 true; EvSync; EvDns (DNS_EAI_OTHER status) None] in
  ~ pending (run es) /\ ~ pending (run (es ++ [EvSync; EvTimeout; EvService; EvL4 false])) /\
  pending (run (es ++ [EvL4 true])).
Proof.
  unfold pending. split; [|split]; vm_compute; [intros [|[|]]; congruence..|left; discriminate].
Qed.

Example one_query_at_a_time_witness :
  (open_queries (snd (demo_run [EvStart; EvL4 true; EvSync])) <= 1)%nat.
Proof.
  apply (@one_query_at_a_time sim_os sim_sntp demo_config sim_boot). intros pre post E.
  destruct pre as [|e1 [|e2 [|e3 [|e4 pre]]]]; cbn in E; try done; injection E; intros; subst; done.
Defined.

(** The condition is needed, whatever the comment in [l4_handler] says: no
    sync is scheduled while a query is in flight, so a link that drops and
    comes back then does start a second query on top of the first. *)
Theorem reconnect_starts_second_query :
  open_queries (snd (demo_run
    [EvStart; EvL4 true; EvSync; EvL4 false; EvL4 true; EvSync])) = 2%nat.
Proof. vm_compute. reflexivity. Qed.
