(* ===== verification/Teleop.v ===== *)
(** joystick_controller/src/teleop.c: from a stick to what the robot is told.

    [teleop_step] is called once a tick and publishes at most one twist: motion
    while an armed stick is deflected, then one zero twist, then nothing.  The
    speeds are C doubles, the Standard Library's binary64 [spec_float]. *)

From Stdlib Require Import SpecFloat.
From S2P Require Import Prelude.
#[local] Open Scope Z_scope.

(** ** Doubles and 16-bit integers *)
Definition double : Type := spec_float.
Definition double_of_int (z : Z) : double := binary_normalize 53 1024 z 0 false.
Definition dmul : double -> double -> double := SFmul 53 1024.
Definition ddiv : double -> double -> double := SFdiv 53 1024.
Definition d0 : double := double_of_int 0.
Definition int16 (z : Z) : Prop := - 2 ^ 15 <= z < 2 ^ 15.
Definition s16 (z : Z) : Z := let v := u16 z in if v <? 2 ^ 15 then v else v - 2 ^ 16.

(** ** teleop.h *)
Definition TELEOP_AXIS_MAX : Z := 1000.
Record teleop_limits := mk_limits { max_linear : double; max_angular : double }.
Record teleop_input := mk_input {
  in_enable : bool; in_mod : bool; in_grasp : bool; in_x : Z; in_y : Z; in_rz : Z;
}.
Record teleop_twist := mk_twist {
  linear_x : double; linear_y : double; linear_z : double;
  angular_x : double; angular_y : double; angular_z : double;
}.
Record teleop_state := mk_state {
  active : bool; blocked : bool; armed : bool; st_mod : bool; st_grasp : bool;
}.
#[export] Instance eta_teleop_twist : Eta teleop_twist := fun t =>
  mk_twist (linear_x t) (linear_y t) (linear_z t) (angular_x t) (angular_y t) (angular_z t).
#[export] Instance eta_teleop_state : Eta teleop_state := fun s =>
  mk_state (active s) (blocked s) (armed s) (st_mod s) (st_grasp s).
Definition zero_twist : teleop_twist := mk_twist d0 d0 d0 d0 d0 d0.

(** ** teleop.c *)
Definition scale (v : Z) (max : double) : double :=
  ddiv (dmul (double_of_int (Z.max (- TELEOP_AXIS_MAX) (Z.min v TELEOP_AXIS_MAX))) max)
       (double_of_int TELEOP_AXIS_MAX).

Definition centred (i : teleop_input) : bool := (in_x i =? 0) && (in_y i =? 0) && (in_rz i =? 0).

(** [Some out] where the C returns true with [*out] written. *)
Definition stop (s : teleop_state) : teleop_state * option teleop_twist :=
  if negb (active s) then (s, None) else (s <| active := false |>, Some zero_twist).

(** The last part of [teleop_step]: the stick drives. *)
Definition motion (i : teleop_input) (lim : teleop_limits) : teleop_twist :=
  if in_mod i
  then zero_twist <| linear_z := scale (in_y i) (max_linear lim) |>
         <| angular_y := scale (in_x i) (max_angular lim) |>
         <| angular_x := scale (in_rz i) (max_angular lim) |>
  else zero_twist <| linear_x := scale (in_y i) (max_linear lim) |>
         <| linear_y := scale (in_x i) (max_linear lim) |>
         <| angular_z := scale (in_rz i) (max_angular lim) |>.

(** From [if (!s->armed)] on. *)
Definition drive (s : teleop_state) (i : teleop_input) (lim : teleop_limits)
  : teleop_state * option teleop_twist :=
  if negb (armed s) then (s <| armed := centred i |>, None)
  else if centred i then stop s
  else (s <| active := true |>, Some (motion i lim)).

Definition teleop_step (s : teleop_state) (i : teleop_input) (lim : teleop_limits)
  : teleop_state * option teleop_twist :=
  if blocked s then (s <| blocked := in_enable i |>, None)
  else if negb (in_enable i) || xorb (in_mod i) (st_mod s) then
    let s := s <| armed := false |> <| st_mod := in_mod i |> in
    match stop s with
    | (s, Some out) => (s, Some out)
    | (s, None) => if negb (in_enable i) then (s, None) else drive s i lim
    end
  else drive s i lim.

Definition teleop_grasp_step (s : teleop_state) (i : teleop_input) : teleop_state * option bool :=
  if blocked s || negb (in_enable i) || eqb (in_grasp i) (st_grasp s) then (s, None)
  else (s <| st_grasp := in_grasp i |>, Some (in_grasp i)).

Definition teleop_reset : teleop_state := mk_state false true false false false.

(** [Some (in_min, in_max)], or [None] with the outputs untouched. *)
Definition teleop_cal_symmetric (rest seen_min seen_max min_span : Z) : option (Z * Z) :=
  let span := s16 (Z.min (rest - seen_min) (seen_max - rest)) in
  if span <? min_span then None else Some (s16 (rest - span), s16 (rest + span)).

(** * Specification

    The ticks since a reset, oldest first, and what each published. *)
Section Runs.
Variable lim : teleop_limits.

Definition after_tick (s : teleop_state) (i : teleop_input) : teleop_state := fst (teleop_step s i lim).
Definition after (h : list teleop_input) : teleop_state := foldl after_tick teleop_reset h.
Definition published (h : list teleop_input) (i : teleop_input) : option teleop_twist :=
  snd (teleop_step (after h) i lim).
(** The robot's last command after the tick is a motion. *)
Definition moving (h : list teleop_input) (i : teleop_input) : bool := active (after_tick (after h) i).

(** Enable on throughout, at one level of mod. *)
Definition holds (m : bool) (i : teleop_input) : Prop := in_enable i = true /\ in_mod i = m.
Definition seen_off (h : list teleop_input) : Prop := Exists (fun i => in_enable i = false) h.
Definition was_centred (h : list teleop_input) : Prop := Exists (fun i => centred i = true) h.
(** The stick was let go of since enable, or since mod last changed. *)
Definition released (m : bool) (h : list teleop_input) : Prop :=
  exists pre session, h = pre ++ session /\ seen_off pre /\ Forall (holds m) session /\
                      was_centred session.

(** What the state knows of the ticks. *)
Record knows (h : list teleop_input) (s : teleop_state) : Prop := {
  knows_blocked : blocked s = false <-> seen_off h;
  knows_active : active s = true -> armed s = true;
  knows_unblocked : armed s = true -> blocked s = false;
  knows_armed : armed s = true -> released (st_mod s) h;
}.

(** * Lemmas *)

Lemma released_holds m h i : released m h -> holds m i -> released m (h ++ [i]).
Proof.
  intros (pre & ses & -> & Ho & Hs & Hc) Hi. exists pre, (ses ++ [i]).
  rewrite <- app_assoc. split; [done|]. split; [done|]. split.
  - apply Forall_app. split; [done|by constructor].
  - apply Exists_app. by left.
Qed.
Lemma released_now h i : seen_off h -> in_enable i = true -> centred i = true ->
  released (in_mod i) (h ++ [i]).
Proof.
  intros Ho He Hc. exists h, [i]. split; [done|]. split; [done|].
  split; [by repeat constructor|by constructor].
Qed.
Lemma seen_off_snoc h i : seen_off (h ++ [i]) <-> seen_off h \/ in_enable i = false.
Proof.
  unfold seen_off. rewrite Exists_app, Exists_cons, Exists_nil. tauto.
Qed.

(** The three ends of a step: the stick's part, on the state it sees. *)
Lemma drive_knows h s i : blocked s = false -> seen_off h -> st_mod s = in_mod i ->
  in_enable i = true -> (active s = true -> armed s = true) ->
  (armed s = true -> released (st_mod s) h) -> knows (h ++ [i]) (fst (drive s i lim)).
Proof.
  intros Hb Ho Hm He Ha Hr. assert (seen_off (h ++ [i])) as Ho' by (apply seen_off_snoc; by left).
  assert (armed s = true -> released (st_mod s) (h ++ [i])) as Hr'
    by (intros A; apply released_holds; [by apply Hr|done]).
  unfold drive, stop. destruct (armed s) eqn:A; cbn [negb].
  - destruct (centred i); [destruct (active s) eqn:Ac|];
      (split; cbn; rewrite ?A, ?Ac, ?Hb; [by split|auto..]).
  - split; cbn; [by split| |done|].
    + intros Ac. specialize (Ha Ac). congruence.
    + intros Hc. rewrite Hm. by apply released_now.
Qed.

Lemma step_knows h s i : knows h s -> knows (h ++ [i]) (fst (teleop_step s i lim)).
Proof.
  intros [Hb Ha Hu Hr]. destruct s as [ac bl ar mo gr]. unfold teleop_step, stop.
  cbn [active blocked armed st_mod update negb] in *. destruct bl.
  { destruct ar; [by discriminate Hu|]. destruct ac; [by discriminate Ha|].
    split; try done. cbn. rewrite seen_off_snoc, <- Hb. intuition congruence. }
  assert (seen_off h) as Ho by by apply Hb.
  assert (seen_off (h ++ [i])) as Ho' by (apply seen_off_snoc; by left).
  destruct (in_enable i) eqn:E; cbn [negb orb].
  - destruct (xorb (in_mod i) mo) eqn:M.
    + destruct ac; cbn -[drive]; [by split|]. by apply drive_knows.
    + apply drive_knows; try done. cbn. by destruct (in_mod i), mo.
  - by destruct ac; split.
Qed.

Lemma reset_knows : knows [] teleop_reset.
Proof. split; cbn; try done. split; [done|]. intros Ho. by apply Exists_nil in Ho. Qed.

Lemma after_snoc h i : after (h ++ [i]) = after_tick (after h) i.
Proof. unfold after. by rewrite foldl_app. Qed.
Lemma after_knows h : knows h (after h).
Proof.
  induction h as [|i h IH] using rev_ind; [apply reset_knows|]. rewrite after_snoc.
  by apply step_knows.
Qed.

(** What a step publishes, by the states before and after. *)
Lemma step_published s i : (active s = true -> armed s = true) -> (armed s = true -> blocked s = false) ->
  snd (teleop_step s i lim) =
  if active (fst (teleop_step s i lim)) then Some (motion i lim)
  else if active s then Some zero_twist else None.
Proof.
  destruct s as [ac bl ar mo gr]. intros Ha Hu. cbn in Ha, Hu. unfold teleop_step, drive, stop.
  cbn [active blocked armed st_mod update].
  destruct ac; [specialize (Ha eq_refl) as ->; by rewrite Hu; repeat (case_match; simplify_eq; cbn in *; try done)|].
  by repeat (case_match; simplify_eq; cbn in *; try done).
Qed.

(** What motion takes. *)
Lemma step_moves s i : active (fst (teleop_step s i lim)) = true -> 
  (active s = true -> armed s = true) -> (armed s = true -> blocked s = false) ->
  in_enable i = true /\ centred i = false /\ armed s = true /\ st_mod s = in_mod i.
Proof.
  destruct s as [ac bl ar mo gr]. intros Hm Ha Hu. cbn in Ha, Hu. cbn [armed st_mod].
  unfold teleop_step, drive, stop in Hm. cbn [active blocked armed st_mod update] in Hm.
  destruct ac, bl, ar; try (by discriminate Ha); try (by discriminate Hu);
    destruct (in_enable i) eqn:E, (centred i) eqn:C, (xorb (in_mod i) mo) eqn:M; cbn in Hm; rewrite ?C in Hm;
    try done; split_and!; try done; by destruct (in_mod i), mo.
Qed.

Lemma holds_step m s i : blocked s = false -> st_mod s = m -> (active s = true -> armed s = true) ->
  holds m i ->
  blocked (after_tick s i) = false /\ st_mod (after_tick s i) = m /\
  armed (after_tick s i) = armed s || centred i /\
  active (after_tick s i) = armed s && negb (centred i).
Proof.
  destruct s as [ac bl ar mo gr]. cbn. intros -> -> Ha [He <-].
  unfold after_tick, teleop_step, drive, stop. cbn [active blocked armed st_mod update].
  rewrite He, xorb_nilpotent. cbn [negb orb].
  destruct ac; [rewrite Ha by done|destruct ar]; destruct (centred i) eqn:C; cbn; by rewrite ?C.
Qed.

Lemma first_hold m s i : blocked s = false -> holds m i ->
  blocked (after_tick s i) = false /\ st_mod (after_tick s i) = m.
Proof.
  destruct s as [ac bl ar mo gr]. cbn. intros -> [He <-].
  unfold after_tick, teleop_step, drive, stop. cbn [active blocked armed st_mod update]. rewrite He.
  cbn [negb orb]. destruct (xorb (in_mod i) mo) eqn:M, ac, ar, (centred i) eqn:C; cbn; rewrite ?C; cbn;
    split; try done; by destruct (in_mod i), mo.
Qed.

Lemma session_arms m h session : blocked (after h) = false -> st_mod (after h) = m ->
  Forall (holds m) session ->
  blocked (after (h ++ session)) = false /\ st_mod (after (h ++ session)) = m /\
  (was_centred session -> armed (after (h ++ session)) = true).
Proof.
  intros Hb Hm. induction session as [|i session IH] using rev_ind; intros Hs.
  { rewrite app_nil_r. repeat split; try done. intros Hc. by apply Exists_nil in Hc. }
  apply Forall_app in Hs as [Hs Hi]. apply Forall_cons in Hi as [Hi _].
  destruct (IH Hs) as (Hb' & Hm' & Ha'). rewrite app_assoc, after_snoc.
  destruct (holds_step m (after (h ++ session)) i Hb' Hm' (knows_active _ _ (after_knows _)) Hi)
    as (-> & -> & -> & _).
  repeat split. intros [Hc|Hc]%Exists_app; [by rewrite Ha'|].
  apply Exists_cons in Hc as [->|Hc]; [apply orb_true_r|by apply Exists_nil in Hc].
Qed.

(** * Properties *)

(** The robot moves only for a hand on the stick.  After any ticks since a
    reset, a tick leaves the robot with a motion only if enable is on, the
    stick is deflected, enable has been seen off since the reset, and since
    enable came on and mod last changed the stick has been seen centred. *)
Theorem stick_must_be_released h i : moving h i = true ->
  in_enable i = true /\ centred i = false /\ released (in_mod i) h.
Proof.
  intros Hm. destruct (after_knows h) as [_ Ha Hu Hr].
  destruct (step_moves (after h) i Hm Ha Hu) as (He & Hc & Har & <-). eauto.
Qed.

(** Exactly one stop, and then silence.  What a tick publishes is the
    stick's twist if the tick leaves the robot moving; a zero twist if not but
    the tick before did; and otherwise nothing, so no other source of commands
    is talked over.  The first tick after a reset publishes nothing. *)
Theorem one_stop_then_silence h i j :
  published [] j = None /\
  published (h ++ [i]) j =
    if moving (h ++ [i]) j then Some (motion j lim)
    else if moving h i then Some zero_twist else None.
Proof.
  split; [done|]. unfold published, moving. rewrite <- (after_snoc h i).
  destruct (after_knows (h ++ [i])) as [_ Ha Hu _]. by apply step_published.
Qed.

(** A stick that was let go drives.  Once enable has been off, holding it on
    at one level of mod with the stick centred at some tick after the first
    makes every later deflection, as long as enable and mod hold, a motion. *)
Theorem released_stick_drives m pre c session i :
  seen_off pre -> holds m c -> Forall (holds m) session -> was_centred session ->
  holds m i -> centred i = false ->
  moving (pre ++ c :: session) i = true.
Proof.
  intros Ho Hc Hs Hw Hi Hci. pose proof (after_knows pre) as [Hb _ _ _].
  destruct (first_hold m (after pre) c (proj2 Hb Ho) Hc) as [Hb1 Hm1].
  rewrite <- after_snoc in Hb1, Hm1.
  destruct (session_arms m (pre ++ [c]) session Hb1 Hm1 Hs) as (Hb2 & Hm2 & Ha2).
  rewrite <- app_assoc in *. cbn [app] in *. unfold moving.
  destruct (holds_step m _ i Hb2 Hm2 (knows_active _ _ (after_knows _)) Hi) as (_ & _ & _ & ->).
  by rewrite Ha2, Hci.
Qed.
End Runs.

(** ** Speeds *)

(** main's limits, CONFIG_APP_TELEOP_MAX_LINEAR_MM_S and _MAX_ANGULAR_MRAD_S
    over 1000.0. *)
Definition limits_of (linear_mm_s angular_mrad_s : Z) : teleop_limits :=
  mk_limits (ddiv (double_of_int linear_mm_s) (double_of_int 1000))
            (ddiv (double_of_int angular_mrad_s) (double_of_int 1000)).
Definition default_limits : teleop_limits := limits_of 500 1000.

(** What is asked of every clamped axis value. *)
Definition dle (a b : double) : bool := SFleb a b.
Definition deq (a b : double) : bool := SFeqb a b.
Definition speed_ok (max : double) (v : Z) : bool :=
  let speed := scale v max in
  dle (SFabs speed) max && eqb (deq speed d0) (v =? 0) && eqb (dle d0 speed) (0 <=? v).
Definition axis_values : list Z := map (fun k => Z.of_nat k - TELEOP_AXIS_MAX) (seq 0 2001).

Lemma speeds_ok : forallb (fun v => speed_ok (max_linear default_limits) v &&
                                    speed_ok (max_angular default_limits) v) axis_values = true.
Proof. vm_compute. reflexivity. Qed.

Lemma clamped v : let c := Z.max (- TELEOP_AXIS_MAX) (Z.min v TELEOP_AXIS_MAX) in
  In c axis_values /\ scale v = scale c /\ (v =? 0) = (c =? 0) /\ (0 <=? v) = (0 <=? c).
Proof.
  intros c. assert (- 1000 <= c <= 1000) as Hc by (unfold c, TELEOP_AXIS_MAX; lia).
  split.
  { apply in_map_iff. exists (Z.to_nat (c + 1000)). split; [unfold TELEOP_AXIS_MAX; lia|].
    apply in_seq. lia. }
  split; [unfold scale, TELEOP_AXIS_MAX in *; by replace (Z.max _ (Z.min c _)) with c by lia|].
  unfold c, TELEOP_AXIS_MAX in *. lia.
Qed.

(** No axis value exceeds the build's speed limits.  With the default
    limits, whatever value the axis reports, the speed is at most the
    limit in magnitude, has the value's sign, and is zero only at zero. *)
Theorem speed_within_limits v max :
  In max [max_linear default_limits; max_angular default_limits] ->
  dle (SFabs (scale v max)) max = true /\
  (deq (scale v max) d0 = true <-> v = 0) /\ (dle d0 (scale v max) = true <-> 0 <= v).
Proof.
  intros Hmax. destruct (clamped v) as (Hin & -> & E1 & E2). cbv zeta in *.
  set (c := Z.max _ _) in *. clearbody c.
  pose proof (proj1 (forallb_forall _ _) speeds_ok c Hin) as Hs. apply andb_true_iff in Hs as [H1 H2].
  assert (speed_ok max c = true) as Hs by (destruct Hmax as [<-|[<-|[]]]; done).
  unfold speed_ok in Hs. rewrite <- E1, <- E2 in Hs. to_prop.
  apply eqb_prop in H3, H0. rewrite H3, H0, Z.eqb_eq, Z.leb_le. done.
Qed.

(** ** Calibration *)

Lemma s16_small z : int16 z -> s16 z = z.
Proof.
  unfold int16, s16, u16. intros Hz. destruct (Z.ltb_spec z 0) as [Hn|Hp].
  - replace (z mod 2 ^ 16) with (z + 2 ^ 16)
      by (rewrite <- (Z.mod_add z 1) by lia; rewrite Z.mod_small; lia).
    destruct (Z.ltb_spec (z + 2 ^ 16) (2 ^ 15)); lia.
  - rewrite Z.mod_small by lia. destruct (Z.ltb_spec z (2 ^ 15)); lia.
Qed.

(** A calibration is the largest range symmetric about rest inside what was
    seen, in 16 bits without wrapping; and there is one exactly when both sides
    of rest moved at least [min_span]. *)
Lemma cal_symmetric_spec rest lo hi min_span :
  int16 lo -> int16 hi -> lo <= rest <= hi -> 
  match teleop_cal_symmetric rest lo hi min_span with
  | Some (a, b) => min_span <= rest - lo /\ min_span <= hi - rest /\
      rest - a = b - rest /\ lo <= a <= rest /\ rest <= b <= hi /\ (a = lo \/ b = hi)
  | None => rest - lo < min_span \/ hi - rest < min_span
  end.
Proof.
  unfold teleop_cal_symmetric. intros Hlo Hhi Hr. unfold int16 in *.
  assert (int16 (Z.min (rest - lo) (hi - rest))) as Hs by (unfold int16; lia).
  rewrite s16_small by done. set (span := Z.min _ _) in *.
  destruct (Z.ltb_spec span min_span); [subst span; lia|].
  rewrite !s16_small by (unfold int16; subst span; lia). subst span. lia.
Qed.

(** * Witnesses: enable off, then on and centred, then deflected *)
Definition demo_off : teleop_input := mk_input false false false 0 0 0.
Definition demo_centred : teleop_input := mk_input true false false 0 0 0.
Definition demo_pushed : teleop_input := mk_input true false false 0 700 0.

Example stick_must_be_released_witness :
  in_enable demo_pushed = true /\ centred demo_pushed = false /\
  released (in_mod demo_pushed) [demo_off; demo_centred].
Proof. apply (stick_must_be_released default_limits). reflexivity. Defined.

Example released_stick_drives_witness :
  moving default_limits ([demo_off] ++ demo_pushed :: [demo_centred]) demo_pushed = true.
Proof.
  apply (released_stick_drives default_limits false [demo_off] demo_pushed [demo_centred] demo_pushed);
    repeat constructor.
Defined.

Example speed_within_limits_witness :
  dle (SFabs (scale (-30000) (max_linear default_limits))) (max_linear default_limits) = true /\
  (deq (scale (-30000) (max_linear default_limits)) d0 = true <-> -30000 = 0) /\
  (dle d0 (scale (-30000) (max_linear default_limits)) = true <-> 0 <= -30000).
Proof. apply speed_within_limits. by left. Defined.
