(* ===== verification/Joystick.v ===== *)
(** joystick_controller/src/main.c: the teleop loop and its link to the robot.

    [turn] is one pass of main's loop.  The axes and the link's level are atomics
    that callbacks set between any two reads, so a turn takes the callbacks that
    ran before each read.  Switches, Pico-ROS and its serializer are the class
    [JoyHw].  Next to the state runs a record of what Pico-ROS holds for the
    program, with a flag for a call out of turn, and a log of the ticks taken and
    the messages delivered. *)

From S2P Require Import Prelude Printf Platform AppTime Teleop.
#[local] Open Scope Z_scope.

Inductive publisher := pub_twist | pub_grasp.
Inductive switch := enable_sw | mod_sw | grasp_sw.
#[export] Instance publisher_eq_dec : EqDecision publisher.
Proof. solve_decision. Defined.

(** The messages: a twist, a stamped twist in a frame, a bool. *)
Inductive ros_msg :=
  | ros_Twist (t : teleop_twist)
  | ros_TwistStamped (sec nanosec : Z) (frame_id : string) (t : teleop_twist)
  | ros_Bool (b : bool).

(** gpio_is_ready_dt, gpio_pin_configure_dt and gpio_pin_get_dt on a switch;
    [start_services] is main's calls of settings, network manager and DHCP. *)
Class JoyHw `{Os} := {
  sw_port : switch -> bool;
  sw_is_ready : switch -> os -> bool;
  sw_configure : switch -> os -> Z * os;
  sw_get : switch -> os -> Z * os;
  picoros_interface_init : os -> bool * os;
  picoros_interface_is_up : os -> bool * os;
  picoros_interface_close : os -> os;
  picoros_node_init : os -> bool * os;
  picoros_node_drop : os -> os;
  picoros_publisher_declare : publisher -> os -> bool * os;
  picoros_publisher_drop : publisher -> os -> os;
  picoros_publish : publisher -> list Z -> os -> bool * os;
  ps_serialize : ros_msg -> nat -> list Z;
  k_msleep : Z -> os -> os;
  start_services : os -> os;
}.

Record joy_config := mk_joy_config {
  ARM : bool;
  SERVO_FRAME_ID : string;
  PUBLISH_HZ : Z;
  MAX_LINEAR_MM_S : Z;
  MAX_ANGULAR_MRAD_S : Z;
}.

(** What Pico-ROS holds, and whether a call ever came out of turn. *)
Record link := mk_link { iface : bool; has_node : bool; declared : list publisher; misused : bool }.
#[export] Instance eta_link : Eta link := fun l =>
  mk_link (iface l) (has_node l) (declared l) (misused l).
Definition no_link : link := mk_link false false [] false.

Inductive joy_event :=
  | Reset | Tick (i : teleop_input) | Told (t : teleop_twist) | Grasp (b : bool).

(** The callbacks' writes. *)
Inductive abs_code := INPUT_ABS_X | INPUT_ABS_Y | INPUT_ABS_RZ | INPUT_OTHER.
Inductive joy_callback :=
  | InputEvent (code : abs_code) (value : Z) | L4Event (connected : bool)
  | TimeEvent (t : app_time).  (* app_time.c's own callbacks, leaving [t] *)

Section Joystick.
Context `{JoyHw} `{!Sntp}.
Variable config : joy_config.

Definition PERIOD_MS : Z := 1000 / PUBLISH_HZ config.
Definition RETRY_DELAY : Z := 2000.
Definition MSG_BUF_SIZE : nat :=
  if ARM config then (72 + S (String.length (SERVO_FRAME_ID config)))%nat else 64%nat.
Definition lim : teleop_limits := limits_of (MAX_LINEAR_MM_S config) (MAX_ANGULAR_MRAD_S config).
Definition pubs : list publisher := if ARM config then [pub_twist; pub_grasp] else [pub_twist].

Record joy := mk_joy {
  axis_x : Z; axis_y : Z; axis_rz : Z; l4_up : bool;
  state : teleop_state; is_connected : bool;
  clock : app_time;
  j_link : link; j_os : os; j_log : list joy_event;
}.
#[export] Instance eta_joy : Eta joy := fun j =>
  mk_joy (axis_x j) (axis_y j) (axis_rz j) (l4_up j) (state j) (is_connected j) (clock j)
         (j_link j) (j_os j) (j_log j).
Definition log (e : joy_event) (j : joy) : joy := j <| j_log ::= fun l => l ++ [e] |>.

(** ** Callbacks *)
Definition input_cb (code : abs_code) (value : Z) (j : joy) : joy :=
  match code with
  | INPUT_ABS_X => j <| axis_x := value |>
  | INPUT_ABS_Y => j <| axis_y := value |>
  | INPUT_ABS_RZ => j <| axis_rz := value |>
  | INPUT_OTHER => j
  end.
Definition joy_l4_handler (connected : bool) (j : joy) : joy := j <| l4_up := connected |>.
Definition run_callback (j : joy) (c : joy_callback) : joy :=
  match c with
  | InputEvent code value => input_cb code value j
  | L4Event up => joy_l4_handler up j
  | TimeEvent t => j <| clock := t |>
  end.
Definition run_callbacks (cs : list joy_callback) (j : joy) : joy := foldl run_callback j cs.

(** ** Pico-ROS, with the record of what is held *)
Definition held (l : link -> link) (o : os) (j : joy) : joy := j <| j_link ::= l |> <| j_os := o |>.
Definition misuse (b : bool) (l : link) : link := l <| misused ::= orb b |>.

Definition interface_init (j : joy) : bool * joy :=
  let '(ok, o) := picoros_interface_init (j_os j) in
  (ok, held (fun l => misuse (iface l) l <| iface ::= orb ok |>) o j).
Definition interface_close (j : joy) : joy :=
  held (fun l => misuse (negb (iface l) || has_node l) l <| iface := false |>)
       (picoros_interface_close (j_os j)) j.
Definition node_init (j : joy) : bool * joy :=
  let '(ok, o) := picoros_node_init (j_os j) in
  (ok, held (fun l => misuse (negb (iface l) || has_node l) l <| has_node ::= orb ok |>) o j).
Definition node_drop (j : joy) : joy :=
  held (fun l => misuse (negb (has_node l) || negb (bool_decide (declared l = []))) l <| has_node := false |>)
       (picoros_node_drop (j_os j)) j.
Definition publisher_declare (p : publisher) (j : joy) : bool * joy :=
  let '(ok, o) := picoros_publisher_declare p (j_os j) in
  (ok, held (fun l => misuse (negb (has_node l) || bool_decide (p ∈ declared l)) l
                        <| declared ::= fun ps => if ok then ps ++ [p] else ps |>) o j).
Definition publisher_drop (j : joy) (p : publisher) : joy :=
  held (fun l => misuse (negb (bool_decide (p ∈ declared l))) l
                   <| declared ::= filter (fun p' => p' <> p) |>)
       (picoros_publisher_drop p (j_os j)) j.

(** The declare loop: those declared so far, the latest first, are dropped when
    one fails. *)
Fixpoint declare_loop (todo done_ : list publisher) (j : joy) : bool * joy :=
  match todo with
  | [] => (true, j)
  | p :: todo =>
      let '(ok, j) := publisher_declare p j in
      if ok then declare_loop todo (p :: done_) j
      else (false, foldl publisher_drop j done_)
  end.

Definition ros_connect (j : joy) : bool * joy :=
  let '(ok, j) := interface_init j in
  if negb ok then (false, j) else
  let '(ok, j) := node_init j in
  if negb ok then (false, interface_close j) else
  let '(ok, j) := declare_loop pubs [] j in
  if negb ok then (false, interface_close (node_drop j)) else (true, j).

Definition ros_disconnect (j : joy) : joy :=
  interface_close (node_drop (foldl publisher_drop j pubs)).

(** [publish_buf] of a serialized message; what is delivered is logged. *)
Definition publish_buf (p : publisher) (m : ros_msg) (e : joy_event) (j : joy) : bool * joy :=
  let buf := ps_serialize m MSG_BUF_SIZE in
  if (0 <? length buf)%nat then
    let '(ok, o) := picoros_publish p buf (j_os j) in
    let j := held (fun l => misuse (negb (bool_decide (p ∈ declared l))) l) o j in
    (ok, if ok then log e j else j)
  else (false, j).

Definition publish_twist (t : teleop_twist) (j : joy) : bool * joy :=
  if ARM config then
    let '((sec, nanosec), o) := app_time_now (clock j) (j_os j) in
    publish_buf pub_twist (ros_TwistStamped (s32 sec) nanosec (SERVO_FRAME_ID config) t) (Told t)
      (j <| j_os := o |>)
  else publish_buf pub_twist (ros_Twist t) (Told t) j.
Definition publish_grasp (grasp : bool) (j : joy) : bool * joy :=
  publish_buf pub_grasp (ros_Bool grasp) (Grasp grasp) j.

(** ** Switches *)
Definition switch_init (sw : switch) (o : os) : Z * os :=
  if negb (sw_port sw) then (0, o)
  else if negb (sw_is_ready sw o) then (- ENODEV, o)
  else sw_configure sw o.
Definition switch_on (sw : switch) (j : joy) : bool * joy :=
  if sw_port sw then let '(v, o) := sw_get sw (j_os j) in (0 <? v, j <| j_os := o |>)
  else (false, j).
(** [cond && switch_on(...)]. *)
Definition switch_on_if (cond : bool) (sw : switch) (j : joy) : bool * joy :=
  if cond then switch_on sw j else (false, j).

(** ** main *)
Definition reset (j : joy) : joy := log Reset (j <| state := teleop_reset |>).

(** Up to the loop; [None] when main returns -ENODEV. *)
Definition main_start (o : os) : option joy :=
  let '(r1, o) := switch_init enable_sw o in
  let '(r2, o) := if r1 =? 0 then switch_init mod_sw o else (r1, o) in
  let '(r3, o) := if r2 =? 0 then switch_init grasp_sw o else (r2, o) in
  if negb (r3 =? 0) then None else
  Some (mk_joy 0 0 0 false teleop_reset false (app_time_start time_boot) no_link
          (start_services o) [Reset]).

(** The callbacks that run before a turn's reads of the atomics, in order. *)
Record callbacks := mk_callbacks {
  before_x : list joy_callback; before_y : list joy_callback; before_rz : list joy_callback;
  before_l4 : list joy_callback;
}.

(** The input of a tick. *)
Definition read_input (cs : callbacks) (j : joy) : teleop_input * joy :=
  let '(enable, j) := switch_on enable_sw j in
  let '(mod_, j) := switch_on_if (ARM config) mod_sw j in
  let '(grasp, j) := switch_on_if (ARM config) grasp_sw j in
  let j := run_callbacks (before_x cs) j in let x := s16 (axis_x j) in
  let j := run_callbacks (before_y cs) j in let y := s16 (axis_y j) in
  let j := run_callbacks (before_rz cs) j in let rz := s16 (axis_rz j) in
  (mk_input enable mod_ grasp x y rz, j).

Definition step_twist (i : teleop_input) (j : joy) : bool * joy :=
  let '(s, out) := teleop_step (state j) i lim in
  let j := log (Tick i) (j <| state := s |>) in
  match out with Some t => publish_twist t j | None => (true, j) end.
Definition step_grasp (i : teleop_input) (j : joy) : bool * joy :=
  let '(s, out) := teleop_grasp_step (state j) i in
  let j := j <| state := s |> in
  match out with Some b => publish_grasp b j | None => (true, j) end.

Definition turn (cs : callbacks) (j : joy) : joy :=
  if negb (is_connected j) then
    let j := run_callbacks (before_l4 cs) (reset j) in
    let '(ok, j) := if l4_up j then ros_connect j else (false, j) in
    if ok then j <| is_connected := true |> else j <| j_os ::= k_msleep RETRY_DELAY |>
  else
    let '(i, j) := read_input cs j in
    let j := run_callbacks (before_l4 cs) j in
    let '(ok, j) :=
      if l4_up j then let '(up, o) := picoros_interface_is_up (j_os j) in (up, j <| j_os := o |>)
      else (false, j) in
    let '(ok, j) := if ok then step_twist i j else (false, j) in
    let '(ok, j) := if ARM config && ok then step_grasp i j else (ok, j) in
    if negb ok then (ros_disconnect j) <| is_connected := false |>
    else j <| j_os ::= k_msleep PERIOD_MS |>.

(** * Specification *)
Definition turns (css : list callbacks) (j : joy) : joy := foldl (fun j cs => turn cs j) j css.

(** The ticks since the last reset. *)
Definition since_reset (es : list joy_event) : list teleop_input :=
  foldl (fun h e => match e with Reset => [] | Tick i => h ++ [i] | _ => h end) [] es.

(** A twist delivered: the stop, or the stick's motion at the tick just taken,
    from a stick that was let go. *)
Definition told_ok (es : list joy_event) (t : teleop_twist) : Prop :=
  exists pre i, es = pre ++ [Tick i] /\
    (t = zero_twist \/
     (t = motion i lim /\ in_enable i = true /\ centred i = false /\
      released (in_mod i) (since_reset pre))).

(** * Lemmas *)

(** What reading inputs and callbacks leave alone. *)
Definition same (j j' : joy) : Prop :=
  state j' = state j /\ is_connected j' = is_connected j /\ j_link j' = j_link j /\ j_log j' = j_log j.
Lemma same_refl j : same j j.
Proof. by split_and!. Qed.
Lemma same_trans j1 j2 j3 : same j1 j2 -> same j2 j3 -> same j1 j3.
Proof. unfold same. intros (-> & -> & -> & ->) (-> & -> & -> & ->). by split_and!. Qed.
Lemma same_callbacks cs j : same j (run_callbacks cs j).
Proof.
  revert j. induction cs as [|c cs IH]; intros j; [apply same_refl|].
  eapply same_trans; [|apply IH]. by destruct c as [[]| |].
Qed.
Lemma same_switch b sw j : same j (snd (switch_on_if b sw j)).
Proof.
  unfold switch_on_if, switch_on. destruct b; [|apply same_refl].
  destruct (sw_port sw); [|apply same_refl]. by destruct (sw_get sw (j_os j)).
Qed.
Lemma same_read cs j : same j (snd (read_input cs j)).
Proof.
  unfold read_input. change (switch_on enable_sw j) with (switch_on_if true enable_sw j).
  pose proof (same_switch true enable_sw j) as S1. destruct (switch_on_if true _ j) as [e j1].
  pose proof (same_switch (ARM config) mod_sw j1) as S2. destruct (switch_on_if _ mod_sw j1) as [m j2].
  pose proof (same_switch (ARM config) grasp_sw j2) as S3. destruct (switch_on_if _ grasp_sw j2) as [g j3].
  cbn [snd] in *. eapply same_trans; [exact S1|]. eapply same_trans; [exact S2|].
  eapply same_trans; [exact S3|]. do 2 (eapply same_trans; [apply same_callbacks|]). apply same_callbacks.
Qed.

(** Pico-ROS is called in turn, and holds all or nothing. *)
Definition full_link : link := mk_link true true pubs false.
Lemma connect_spec j : j_link j = no_link ->
  let '(ok, j') := ros_connect j in
  j_link j' = (if ok then full_link else no_link) /\ is_connected j' = is_connected j /\
  state j' = state j /\ j_log j' = j_log j.
Proof.
  destruct j as [x y rz l4 st co cl li o lg]. cbn. intros ->.
  unfold ros_connect, interface_init, node_init, pubs, full_link, pubs. cbn [j_os].
  destruct (picoros_interface_init o) as [[] o1]; [|done]. cbn [negb j_os held update].
  destruct (picoros_node_init o1) as [[] o2]; [|done].
  destruct (ARM config); cbn [declare_loop negb]; unfold publisher_declare; cbn [j_os held update];
    (destruct (picoros_publisher_declare pub_twist o2) as [[] o3]; [|done]); [|done].
  cbn [j_os held update]. by destruct (picoros_publisher_declare pub_grasp o3) as [[] o4].
Qed.
Lemma disconnect_spec j : j_link j = full_link ->
  let j' := ros_disconnect j in j_link j' = no_link /\ state j' = state j /\ j_log j' = j_log j.
Proof.
  destruct j as [x y rz l4 st co cl li o lg]. cbn [j_link]. intros ->.
  unfold ros_disconnect, full_link, pubs. by destruct (ARM config).
Qed.

(** The log: every twist delivered is accounted for. *)
Definition log_ok (es : list joy_event) : Prop :=
  forall pre t post, es = pre ++ Told t :: post -> told_ok pre t.
Lemma log_ok_snoc es e : log_ok es -> (forall t, e = Told t -> told_ok es t) -> log_ok (es ++ [e]).
Proof.
  intros Hl He pre t post E. destruct post as [|e' post _] using rev_ind.
  - apply app_inj_tail in E as [-> ->]. by apply He.
  - rewrite app_comm_cons, app_assoc in E. apply app_inj_tail in E as [-> ->]. by eapply Hl.
Qed.
Lemma since_snoc es e : since_reset (es ++ [e]) =
  match e with Reset => [] | Tick i => since_reset es ++ [i] | _ => since_reset es end.
Proof. unfold since_reset. by rewrite foldl_app. Qed.

(** A message delivered or not: the record and the state stay. *)
Lemma deliver_spec p m e j : j_link j = full_link -> p ∈ pubs ->
  let '(ok, j') := publish_buf p m e j in
  j_link j' = full_link /\ state j' = state j /\ is_connected j' = is_connected j /\
  (j_log j' = j_log j \/ j_log j' = j_log j ++ [e]).
Proof.
  intros Hl Hp. unfold publish_buf. destruct (_ <? _)%nat; [|by split_and!; try left].
  destruct (picoros_publish _ _ _) as [ok o].
  assert (misuse (negb (bool_decide (p ∈ declared full_link))) full_link = full_link) as Hm
    by (by rewrite bool_decide_eq_true_2).
  destruct ok; unfold log, held; cbn [j_link state j_log update]; rewrite Hl, Hm; (split; [done|]);
    do 2 (split; [done|]); [by right|by left].
Qed.

(** The state and the log between turns. *)
Definition steady (j : joy) : Prop := knows (since_reset (j_log j)) (state j) /\ log_ok (j_log j).
Lemma steady_same j j' : state j' = state j -> j_log j' = j_log j -> steady j -> steady j'.
Proof. unfold steady. by intros -> ->. Qed.
Lemma steady_quiet j j' e : steady j -> state j' = state j -> j_log j' = j_log j ++ [e] ->
  match e with Grasp _ => True | Told t => told_ok (j_log j) t | _ => False end -> steady j'.
Proof.
  intros [Hk Hl] Es El He. unfold steady. rewrite Es, El, since_snoc. split.
  - by destruct e.
  - apply log_ok_snoc; [done|]. by intros t ->.
Qed.

Lemma knows_grasp h s b : knows h s -> knows h (s <| st_grasp := b |>).
Proof. intros [A B C D]. by split. Qed.

Lemma twist_spec i j : j_link j = full_link -> steady j ->
  let '(_, j') := step_twist i j in
  j_link j' = full_link /\ is_connected j' = is_connected j /\ steady j'.
Proof.
  intros Hl [Hk Hlog]. unfold step_twist.
  pose proof (step_knows lim _ (state j) i Hk) as Hk'.
  pose proof (step_published lim (state j) i) as Hp. pose proof (step_moves lim (state j) i) as Hm.
  destruct Hk as [_ Ha Hu Hr]. specialize (Hp Ha Hu).
  destruct (teleop_step (state j) i lim) as [s out]. cbn [fst snd] in *.
  set (j1 := log (Tick i) (j <| state := s |>)).
  assert (steady j1) as Hs1.
  { split; cbn; [by rewrite since_snoc|]. by apply log_ok_snoc. }
  assert (j_link j1 = full_link) as Hl1 by done.
  destruct out as [t|]; [|done].
  assert (told_ok (j_log j1) t) as Ht.
  { exists (j_log j), i. split; [done|]. destruct (active s) eqn:Ac.
    - injection Hp as ->. right. destruct (Hm eq_refl Ha Hu) as (He & Hc & Har & <-). split_and!; auto.
    - destruct (active (state j)); [|done]. injection Hp as ->. by left. }
  assert (pub_twist ∈ pubs) as Hin by (unfold pubs; destruct (ARM config); left).
  assert (forall j2 m, j_link j2 = j_link j1 -> state j2 = state j1 -> j_log j2 = j_log j1 ->
    is_connected j2 = is_connected j1 ->
    let '(_, j') := publish_buf pub_twist m (Told t) j2 in
    j_link j' = full_link /\ is_connected j' = is_connected j /\ steady j') as Hpub.
  { intros j2 m E1 E2 E3 E4. pose proof (deliver_spec pub_twist m (Told t) j2) as Hs. rewrite E1 in Hs.
    specialize (Hs Hl1 Hin). destruct (publish_buf _ _ _ j2) as [ok j'].
    destruct Hs as (-> & Es & Ec & El). rewrite Ec, E4. split; [done|]. split; [done|].
    rewrite E2 in Es. rewrite E3 in El.
    destruct El as [El|El]; [by apply (steady_same j1)|by apply (steady_quiet j1 j' (Told t))]. }
  unfold publish_twist. destruct (ARM config); [|by apply Hpub].
  destruct (app_time_now _ _) as [[sec nanosec] o]. by apply Hpub.
Qed.

Lemma grasp_spec i j : ARM config = true -> j_link j = full_link -> steady j ->
  let '(_, j') := step_grasp i j in
  j_link j' = full_link /\ is_connected j' = is_connected j /\ steady j'.
Proof.
  intros HA Hl [Hk Hlog]. unfold step_grasp, teleop_grasp_step.
  destruct (_ || _); [by destruct j|]. set (j1 := j <| state := _ |>).
  assert (steady j1) as Hs1 by (split; [by apply knows_grasp|done]).
  assert (j_link j1 = full_link) as Hl1 by done.
  assert (pub_grasp ∈ pubs) as Hin by (unfold pubs; rewrite HA; right; left).
  unfold publish_grasp. pose proof (deliver_spec pub_grasp (ros_Bool (in_grasp i)) (Grasp (in_grasp i)) j1 Hl1 Hin) as Hs.
  destruct (publish_buf _ _ _ j1) as [ok j']. destruct Hs as (-> & Es & Ec & El). rewrite Ec.
  split; [done|]. split; [done|].
  destruct El as [El|El]; [by apply (steady_same j1)|by apply (steady_quiet j1 j' (Grasp (in_grasp i)))].
Qed.

(** Between turns: all or nothing is held, and the log and the state agree. *)
Definition inv (j : joy) : Prop :=
  j_link j = (if is_connected j then full_link else no_link) /\ steady j.
Lemma turn_inv cs j : inv j -> inv (turn cs j).
Proof.
  intros [Hl Hs]. unfold turn. destruct (is_connected j) eqn:Ec; cbn [negb].
  - pose proof (same_read cs j) as Hr. destruct (read_input cs j) as [i j1]. cbn [snd] in Hr.
    pose proof (same_callbacks (before_l4 cs) j1) as Hb. set (j2 := run_callbacks _ j1) in *.
    assert (same j j2) as (Es & Ec2 & El & Eg) by by eapply same_trans. clearbody j2.
    assert (j_link j2 = full_link /\ is_connected j2 = true /\ steady j2) as Hj2.
    { rewrite El, Ec2, Hl, Ec. split; [done|]. split; [done|]. by apply (steady_same j). }
    clear -Hj2.
    set (r1 := if l4_up j2 then _ else _).
    assert (j_link (snd r1) = full_link /\ is_connected (snd r1) = true /\ steady (snd r1)) as Hr1.
    { subst r1. destruct (l4_up j2); [|done]. by destruct (picoros_interface_is_up _). }
    destruct r1 as [ok1 j3]. cbn [snd] in Hr1. clear Hj2.
    set (r2 := if ok1 then _ else _).
    assert (j_link (snd r2) = full_link /\ is_connected (snd r2) = true /\ steady (snd r2)) as Hr2.
    { subst r2. destruct ok1; [|done]. destruct Hr1 as (Hl & Hc & Hs).
      pose proof (twist_spec i j3 Hl Hs) as Ht. destruct (step_twist i j3) as [ok j4].
      rewrite Hc in Ht. done. }
    destruct r2 as [ok2 j4]. cbn [snd] in Hr2. clear Hr1.
    set (r3 := if ARM config && ok2 then _ else _).
    assert (j_link (snd r3) = full_link /\ is_connected (snd r3) = true /\ steady (snd r3)) as Hr3.
    { subst r3. destruct (ARM config) eqn:HA; [|done]. destruct ok2; [|done]. destruct Hr2 as (Hl & Hc & Hs).
      pose proof (grasp_spec i j4 HA Hl Hs) as Ht. cbn [andb]. destruct (step_grasp i j4) as [ok j5].
      rewrite Hc in Ht. done. }
    destruct r3 as [ok3 j5]. cbn [snd] in Hr3. destruct Hr3 as (Hl & Hc & Hs).
    destruct ok3; cbn [negb].
    + split; [|done]. cbn. by rewrite Hc.
    + destruct (disconnect_spec j5 Hl) as (El & Es & Eg). split; [exact El|]. exact (steady_same j5 _ Es Eg Hs).
  - assert (steady (reset j)) as Hr.
    { split; cbn [reset log j_log state update]; [rewrite since_snoc; apply reset_knows|].
      by apply log_ok_snoc; [apply Hs|]. }
    pose proof (same_callbacks (before_l4 cs) (reset j)) as (Es & Ec2 & El & Eg).
    set (j2 := run_callbacks _ _) in *. clearbody j2.
    change (is_connected (reset j)) with (is_connected j) in Ec2. rewrite Ec in Ec2.
    change (j_link (reset j)) with (j_link j) in El. rewrite Hl in El.
    assert (steady j2) as Hs2 by by apply (steady_same (reset j)).
    destruct (l4_up j2).
    + pose proof (connect_spec j2 El) as Hc. destruct (ros_connect j2) as [ok j3].
      destruct Hc as (El3 & Ec3 & Es3 & Eg3). rewrite Ec2 in Ec3. assert (steady j3) as Hs3 by by apply (steady_same j2).
      destruct ok; [by split|]. split; [|done]. cbn. by rewrite Ec3.
    + split; [cbn; by rewrite Ec2|done].
Qed.
Lemma start_inv o j : main_start o = Some j -> inv j.
Proof.
  unfold main_start. destruct (switch_init enable_sw o) as [r1 o1].
  destruct (if r1 =? 0 then _ else _) as [r2 o2]. destruct (if r2 =? 0 then _ else _) as [r3 o3].
  destruct (negb _); [done|]. intros [= <-]. split; [done|]. split; [apply reset_knows|].
  intros pre t post E. destruct pre as [|e [|e' pre]]; done.
Qed.
Lemma turns_inv css j : inv j -> inv (turns css j).
Proof.
  revert j. induction css as [|cs css IH]; intros j Hj; [done|]. by apply IH, turn_inv.
Qed.

(** * Properties *)

(** C33: The whole program tells the robot nothing else.  In any run of main from
    power-on, with any link failures, switch read errors and callbacks between
    any two reads, every twist delivered is either the zero twist or the scaled
    stick of the tick just taken, with enable on and the stick deflected, and
    since the program last reset itself - at boot and whenever the link was lost
    - enable had been seen off and then the stick centred. *)
Theorem robot_told_to_move o j css pre t post :
  main_start o = Some j -> j_log (turns css j) = pre ++ Told t :: post -> told_ok pre t.
Proof.
  intros Hj E. destruct (turns_inv css j (start_inv o j Hj)) as [_ [_ Hl]]. by eapply Hl.
Qed.

(** The link is held whole or not at all.  In any run of main, whatever fails
    and wherever, no call of Pico-ROS is made out of turn (nothing is opened
    twice, used or closed when not held, or closed under what depends on it);
    while connected the interface, the node and all publishers are held, and
    otherwise none of them, so a failed connection leaks nothing. *)
Theorem link_all_or_nothing o j css : main_start o = Some j ->
  let j := turns css j in
  misused (j_link j) = false /\
  iface (j_link j) = is_connected j /\ has_node (j_link j) = is_connected j /\
  declared (j_link j) = (if is_connected j then pubs else []).
Proof.
  intros Hj. cbv zeta. destruct (turns_inv css j (start_inv o j Hj)) as [-> _].
  by destruct (is_connected _).
Qed.
End Joystick.

(** * An instance, witnesses and the grasp level *)
From S2P Require Import Instances.

(** Everything works; the clock counts the sleeps in periods, and the switches
    follow a script of enable and grasp levels. *)
Definition scripted (script : list (bool * bool)) : @JoyHw sim_os := {|
  sw_port _ := true;
  sw_is_ready _ _ := true;
  sw_configure _ w := (0, w);
  sw_get sw w :=
    let '(enable, grasp) := nth (Z.to_nat (sim_clock w)) script (true, false) in
    (match sw with enable_sw => Z.b2z enable | mod_sw => 0 | grasp_sw => Z.b2z grasp end, w);
  picoros_interface_init w := (true, w);
  picoros_interface_is_up w := (true, w);
  picoros_interface_close w := w;
  picoros_node_init w := (true, w);
  picoros_node_drop w := w;
  picoros_publisher_declare _ w := (true, w);
  picoros_publisher_drop _ w := w;
  picoros_publish _ _ w := (true, w);
  ps_serialize _ n := [0];
  k_msleep _ w := w <| sim_clock ::= Z.add 1 |>;
  start_services w := w;
|}.
Definition demo_joy : joy_config := mk_joy_config true "base_link" 20 500 1000.
Definition calm : callbacks := mk_callbacks [] [] [] [].
Definition link_up : callbacks := mk_callbacks [] [] [] [L4Event true].
Definition link_down : callbacks := mk_callbacks [] [] [] [L4Event false].
Definition pushed : callbacks := mk_callbacks [] [InputEvent INPUT_ABS_Y 700] [] [].

Definition demo_script : list (bool * bool) := [(false, false); (true, false); (true, false); (false, false)].
Definition demo_turns : list callbacks := [link_up; calm; calm; pushed; calm].
Definition demo_input : teleop_input := mk_input true false false 0 700 0.

(** The demonstration's start and its log. *)
Definition booted : joy :=
  mk_joy 0 0 0 false teleop_reset false (app_time_start time_boot) no_link
    (sim_boot : @os sim_os) [Reset].
Definition driven : teleop_twist := motion demo_input (lim demo_joy).

Definition demo_before : list joy_event :=
  [Reset; Reset; Tick (mk_input false false false 0 0 0); Tick (mk_input true false false 0 0 0);
   Tick demo_input].

Example robot_told_to_move_witness :
  j_log (@turns sim_os (scripted demo_script) sim_sntp demo_joy demo_turns booted) =
    demo_before ++ Told driven :: [Tick (mk_input false false false 0 700 0); Told zero_twist] /\
  told_ok demo_joy demo_before driven.
Proof.
  assert (j_log (@turns sim_os (scripted demo_script) sim_sntp demo_joy demo_turns booted) =
    demo_before ++ Told driven :: [Tick (mk_input false false false 0 700 0); Told zero_twist])
    as E by (vm_compute; reflexivity).
  split; [exact E|]. eapply robot_told_to_move; [|exact E]. reflexivity.
Defined.

Example link_all_or_nothing_witness :
  let j := @turns sim_os (scripted demo_script) sim_sntp demo_joy demo_turns booted in
  misused (j_link j) = false /\
  iface (j_link j) = is_connected j /\ has_node (j_link j) = is_connected j /\
  declared (j_link j) = (if is_connected j then pubs demo_joy else []).
Proof. eapply link_all_or_nothing. reflexivity. Defined.

(** The grasp button is let go while the link is down; enable goes off and on
    again, and stays on. *)
Definition grasp_script : list (bool * bool) := [(false, false); (true, true); (false, false)].
Definition grasp_turns : list callbacks := [link_up; calm; calm; link_down; link_up; calm; calm].
Definition grasps (j : joy) : list bool :=
  omap (fun e => match e with Grasp b => Some b | _ => None end) (j_log j).

Section Released.
#[local] Existing Instance sim_os.
#[local] Instance released_hw : @JoyHw sim_os := scripted grasp_script.

(** Enable on, stick centred, grasp released: a turn changes the clock and logs
    its tick. *)
Definition idle (w : sim) (es : list joy_event) : joy :=
  mk_joy 0 0 0 true (mk_state false false true false false) true
    (app_time_start time_boot) (full_link demo_joy) w es.
Lemma idle_switch w es sw : 3 <= sim_clock w ->
  switch_on_if true sw (idle w es) = (match sw with enable_sw => true | _ => false end, idle w es).
Proof.
  intros Hw. assert (nth (Z.to_nat (sim_clock w)) grasp_script (true, false) = (true, false)) as E
    by (apply nth_overflow; cbn; lia).
  unfold switch_on_if, switch_on. cbn [sw_port released_hw scripted sw_get j_os idle]. rewrite E.
  by destruct sw.
Qed.
Lemma idle_turn w es : 3 <= sim_clock w ->
  turn demo_joy calm (idle w es) =
  idle (w <| sim_clock ::= Z.add 1 |>) (es ++ [Tick (mk_input true false false 0 0 0)]).
Proof.
  intros Hw. unfold turn, read_input. change (ARM demo_joy) with true.
  change (switch_on enable_sw (idle w es)) with (switch_on_if true enable_sw (idle w es)).
  rewrite !idle_switch by done. reflexivity.
Qed.
Lemma idle_turns n w es : 3 <= sim_clock w ->
  let j := turns demo_joy (replicate n calm) (idle w es) in
  is_connected j = true /\ state j = mk_state false false true false false /\
  grasps j = grasps (idle w es).
Proof.
  revert w es. induction n as [|n IH]; intros w es Hw; [done|].
  change (turns demo_joy (replicate (S n) calm) (idle w es))
    with (turns demo_joy (replicate n calm) (turn demo_joy calm (idle w es))).
  rewrite idle_turn by done. destruct (IH (w <| sim_clock ::= Z.add 1 |>)
    (es ++ [Tick (mk_input true false false 0 0 0)])) as (Hc & Hst & Hg); [cbn; lia|].
  split; [done|]. split; [done|]. rewrite Hg. unfold grasps. cbn [idle j_log].
  by rewrite omap_app, app_nil_r.
Qed.

Definition grasp_sim : sim := sim_boot <| sim_clock := 4 |>.
Definition grasp_log : list joy_event := Eval vm_compute in j_log (turns demo_joy grasp_turns booted).

(** A grasp let go while the link is down is never taken back.  The header
    calls [grasp] the last grasp level published, but a reset clears it: once the
    link is back, with the button released and enable on, the state says
    released, the last level the robot was told is held, and no number of
    further turns tells it otherwise. *)
Theorem grasp_not_taken_back (n : nat) :
  let j := turns demo_joy (grasp_turns ++ replicate n calm) booted in
  is_connected j = true /\ st_grasp (state j) = false /\ blocked (state j) = false /\
  grasps j = [true].
Proof.
  unfold turns. rewrite foldl_app.
  assert (foldl (fun j cs => turn demo_joy cs j) booted grasp_turns = idle grasp_sim grasp_log) as ->
    by (vm_compute; reflexivity).
  destruct (idle_turns n grasp_sim grasp_log ltac:(by vm_compute)) as (Hc & Hst & Hg).
  unfold turns in *. cbv zeta. by rewrite Hst, Hg.
Qed.
End Released.
