(* ===== verification/Calibrate.v ===== *)
(** joystick_controller/src/calibrate.c: calibrating the sticks from the shell.

    The raw callback records each axis between [cmd_start] and [cmd_stop]; the
    latter checks every axis before it writes any.  The analog-axis driver is
    the class [AnalogAxis]; a device is its index in [sticks].  What is written
    to the driver is logged. *)

From S2P Require Import Prelude Platform Teleop.
#[local] Open Scope Z_scope.

Definition MAX_AXES_PER_DEV : nat := 3.
Definition MIN_SPAN : Z := 100.

(** What the sources use of [analog_axis_calibration]. *)
Record calibration := mk_calibration { in_min : Z; in_max : Z; in_deadzone : Z }.

Class AnalogAxis `{Os} := {
  analog_axis_num_axes : nat -> nat;
  analog_axis_calibration_get : nat -> nat -> os -> calibration * os;
  analog_axis_calibration_set : nat -> nat -> calibration -> os -> os;
  analog_axis_calibration_save : nat -> os -> Z * os;
  analog_axis_set_raw_data_cb : nat -> bool -> os -> os;
}.

Record axis_cal := mk_axis_cal { seen : bool; rest : Z; seen_min : Z; seen_max : Z }.
#[export] Instance eta_axis_cal : Eta axis_cal := fun c =>
  mk_axis_cal (seen c) (rest c) (seen_min c) (seen_max c).
Definition zero_cal : axis_cal := mk_axis_cal false 0 0 0.

Inductive driver_write := Set_ (d i : nat) (c : calibration) | Save (d : nat) (ret : Z).

Section Calibrate.
Context `{AnalogAxis}.
(** ARRAY_SIZE(sticks). *)
Variable sticks : nat.

(** The statics [cal] and [running], the machine and the driver's writes. *)
Record calib := mk_calib {
  cal : list (list axis_cal); running : bool; c_os : os; writes : list driver_write;
}.
#[export] Instance eta_calib : Eta calib := fun s =>
  mk_calib (cal s) (running s) (c_os s) (writes s).
Definition zero_cals : list (list axis_cal) := replicate sticks (replicate MAX_AXES_PER_DEV zero_cal).
Definition calib_boot (o : os) : calib := mk_calib zero_cals false o [].
Definition cal_at (d i : nat) (s : calib) : axis_cal := default zero_cal (cal s !! d ≫= (.!! i)).

Definition record_raw (raw : Z) (c : axis_cal) : axis_cal :=
  if negb (seen c) then mk_axis_cal true raw raw raw
  else c <| seen_min := Z.min (seen_min c) raw |> <| seen_max := Z.max (seen_max c) raw |>.
Definition raw_cb (dev : nat) (channel raw : Z) (s : calib) : calib :=
  if (dev <? sticks)%nat && negb ((channel <? 0) || (Z.of_nat MAX_AXES_PER_DEV <=? channel))
  then s <| cal ::= alter (alter (record_raw raw) (Z.to_nat channel)) dev |>
  else s.

Definition num_axes (d : nat) : nat := Nat.min (analog_axis_num_axes d) MAX_AXES_PER_DEV.

Definition set_cbs (on : bool) (o : os) : os :=
  foldl (fun o d => analog_axis_set_raw_data_cb d on o) o (seq 0 sticks).

Definition cmd_start (s : calib) : Z * calib :=
  (0, s <| cal := zero_cals |> <| running := true |> <| c_os ::= set_cbs true |>).

(** One axis' check: what will be written, or [None]. *)
Definition check_axis (d i : nat) (s : calib) : option calibration * calib :=
  let '(c, o) := analog_axis_calibration_get d i (c_os s) in
  let s := s <| c_os := o |> in
  let a := cal_at d i s in
  if negb (seen a) then (None, s) else
  match teleop_cal_symmetric (rest a) (seen_min a) (seen_max a) (s16 (in_deadzone c + MIN_SPAN)) with
  | Some (lo, hi) => (Some (mk_calibration lo hi (in_deadzone c)), s)
  | None => (None, s)
  end.
(** The axes of every stick, in the order of both loops. *)
Definition all_axes : list (nat * nat) :=
  concat (map (fun d => map (pair d) (seq 0 (num_axes d))) (seq 0 sticks)).
Fixpoint check_axes (axes : list (nat * nat)) (s : calib)
  : option (list (nat * nat * calibration)) * calib :=
  match axes with
  | [] => (Some [], s)
  | (d, i) :: axes =>
      let '(c, s) := check_axis d i s in
      match c with
      | None => (None, s)
      | Some c =>
          let '(cs, s) := check_axes axes s in
          (match cs with Some cs => Some ((d, i, c) :: cs) | None => None end, s)
      end
  end.

Definition set_axis (s : calib) (e : nat * nat * calibration) : calib :=
  let '(d, i, c) := e in
  s <| c_os ::= analog_axis_calibration_set d i c |> <| writes ::= fun l => l ++ [Set_ d i c] |>.
Fixpoint write_sticks (ds : list nat) (cs : list (nat * nat * calibration)) (s : calib) : Z * calib :=
  match ds with
  | [] => (0, s)
  | d :: ds =>
      let s := foldl set_axis s (filter (fun e => fst (fst e) = d) cs) in
      let '(err, o) := analog_axis_calibration_save d (c_os s) in
      let s := s <| c_os := o |> <| writes ::= fun l => l ++ [Save d err] |> in
      if negb (err =? 0) then (err, s) else write_sticks ds cs s
  end.

Definition cmd_stop (s : calib) : Z * calib :=
  if negb (running s) then (- EINVAL, s) else
  let s := s <| c_os ::= set_cbs false |> <| running := false |> in
  let '(cs, s) := check_axes all_axes s in
  match cs with
  | None => (- EINVAL, s)
  | Some cs => write_sticks (seq 0 sticks) cs s
  end.

(** * Specification *)
Definition sample : Type := nat * Z * Z.
Definition feed (s : calib) (x : sample) : calib := let '(d, ch, raw) := x in raw_cb d ch raw s.
Definition of_axis (d i : nat) (xs : list sample) : list Z :=
  omap (fun x => let '(d', ch, raw) := x in
                 if bool_decide (d' = d) && (ch =? Z.of_nat i) then Some raw else None) xs.

(** A range for an axis with these samples: symmetric about the first of them,
    inside what was seen, at least [span] to either side. *)
Definition good_range (xs : list Z) (span : Z) (c : calibration) : Prop :=
  match xs with
  | [] => False
  | r :: xs =>
      let lo := foldl Z.min r xs in let hi := foldl Z.max r xs in
      span <= r - lo /\ span <= hi - r /\
      r - in_min c = in_max c - r /\ lo <= in_min c <= r /\ r <= in_max c <= hi
  end.

(** * Lemmas *)

(** What the callback keeps of an axis' samples. *)
Definition summary (xs : list Z) : axis_cal :=
  match xs with
  | [] => zero_cal
  | r :: xs => mk_axis_cal true r (foldl Z.min r xs) (foldl Z.max r xs)
  end.
Lemma summary_snoc xs x : summary (xs ++ [x]) = record_raw x (summary xs).
Proof. destruct xs as [|r xs]; [done|]. cbn [summary app]. by rewrite !foldl_app. Qed.

Lemma cal_at_start s d i : (d < sticks)%nat -> (i < MAX_AXES_PER_DEV)%nat ->
  cal_at d i (snd (cmd_start s)) = zero_cal.
Proof.
  intros Hd Hi. unfold cal_at, cmd_start, zero_cals. cbn [snd cal update].
  rewrite lookup_replicate_2 by done. cbn [mbind option_bind]. by rewrite lookup_replicate_2.
Qed.

(** Both dimensions stay as they were declared. *)
Definition shape (s : calib) : Prop :=
  length (cal s) = sticks /\ Forall (fun l => length l = MAX_AXES_PER_DEV) (cal s).
Lemma cal_at_raw d i dev ch raw s : shape s -> (d < sticks)%nat -> (i < MAX_AXES_PER_DEV)%nat ->
  cal_at d i (raw_cb dev ch raw s) =
  if bool_decide (dev = d) && (ch =? Z.of_nat i) then record_raw raw (cal_at d i s) else cal_at d i s.
Proof.
  intros [Hl Hr] Hd Hi. unfold raw_cb.
  destruct (bool_decide_reflect (dev = d)) as [->|Hne]; cbn [andb].
  - destruct (Nat.ltb_spec d sticks); [|lia]. cbn [andb].
    destruct (Z.eqb_spec ch (Z.of_nat i)) as [->|Hci].
    + destruct (Z.ltb_spec (Z.of_nat i) 0); [lia|].
      destruct (Z.leb_spec (Z.of_nat MAX_AXES_PER_DEV) (Z.of_nat i)); [lia|]. cbn [negb orb].
      unfold cal_at. cbn [cal update]. rewrite Nat2Z.id, list_lookup_alter_eq.
      destruct (lookup_lt_is_Some_2 (cal s) d) as [l El]; [by rewrite Hl|]. rewrite El. cbn [fmap option_fmap option_map mbind option_bind].
      rewrite list_lookup_alter_eq. apply (Forall_lookup_1 _ _ _ _ Hr) in El.
      destruct (lookup_lt_is_Some_2 l i) as [a Ea]; [by rewrite El|]. by rewrite Ea.
    + destruct (negb _) eqn:E; [|done]. unfold cal_at. cbn [cal update].
      rewrite list_lookup_alter_eq. destruct (cal s !! d) as [l|]; [|done].
      cbn [fmap option_fmap option_map mbind option_bind].
      to_prop. rewrite list_lookup_alter_ne by lia. done.
  - destruct (_ && _); [|done]. unfold cal_at. cbn [cal update]. by rewrite list_lookup_alter_ne.
Qed.
Lemma shape_raw dev ch raw s : shape s -> shape (raw_cb dev ch raw s).
Proof.
  intros [Hl Hr]. unfold raw_cb. destruct (_ && _); [|done]. split; cbn [cal update].
  - by rewrite length_alter.
  - apply Forall_alter; [done|]. intros l _ Hlen. by rewrite length_alter.
Qed.

(** Feeding samples records exactly their summaries. *)
Lemma feed_spec s xs : let s1 := foldl feed (snd (cmd_start s)) xs in
  shape s1 /\ running s1 = true /\ writes s1 = writes s /\
  forall d i, (d < sticks)%nat -> (i < MAX_AXES_PER_DEV)%nat ->
    cal_at d i s1 = summary (of_axis d i xs).
Proof.
  induction xs as [|[[dev ch] raw] xs IH] using rev_ind; cbv zeta in *.
  - split; [|split; [done|split; [done|]]].
    + split; cbn; unfold zero_cals; [by rewrite length_replicate|].
      apply Forall_replicate. by rewrite length_replicate.
    + intros d i Hd Hi. by apply cal_at_start.
  - rewrite foldl_app. cbn [foldl feed]. set (s1 := foldl _ _ xs) in *. clearbody s1.
    destruct IH as (Hs & Hr & Hw & Hc). split; [by apply shape_raw|].
    split; [unfold raw_cb; by destruct (_ && _)|]. split; [unfold raw_cb; by destruct (_ && _)|].
    intros d i Hd Hi. rewrite cal_at_raw, Hc by done. unfold of_axis. rewrite omap_app. cbn [omap list_omap].
    destruct (bool_decide _ && _); [by rewrite summary_snoc|by rewrite app_nil_r].
Qed.

Lemma fold_min_le x xs : foldl Z.min x xs <= x.
Proof.
  revert x. induction xs as [|y xs IH]; intros x; cbn [foldl]; [lia|].
  specialize (IH (Z.min x y)). lia.
Qed.
Lemma fold_max_ge x xs : x <= foldl Z.max x xs.
Proof.
  revert x. induction xs as [|y xs IH]; intros x; cbn [foldl]; [lia|].
  specialize (IH (Z.max x y)). lia.
Qed.
Lemma fold_int16 x xs : int16 x -> Forall int16 xs ->
  int16 (foldl Z.min x xs) /\ int16 (foldl Z.max x xs).
Proof.
  intros Hx Hxs. revert x Hx. assert (forall x y, int16 x -> int16 y -> int16 (Z.min x y) /\ int16 (Z.max x y)) as Hm
    by (unfold int16; lia).
  assert ((forall x, int16 x -> int16 (foldl Z.min x xs)) /\ (forall x, int16 x -> int16 (foldl Z.max x xs)))
    as [A B]; [|by split; [apply A|apply B]].
  induction Hxs as [|y xs Hy _ [A B]]; [done|].
  split; intros x Hx; cbn [foldl]; [apply A|apply B]; by apply Hm.
Qed.
Lemma of_axis_int16 d i xs : Forall (fun x => int16 (snd x)) xs -> Forall int16 (of_axis d i xs).
Proof.
  induction 1 as [|[[d' ch] raw] xs Hx _ IH]; [constructor|]. unfold of_axis. cbn [omap list_omap].
  destruct (bool_decide _ && _); [by constructor|done].
Qed.

(** A check that passes makes a good range. *)
Lemma check_axis_spec d i s xs : cal_at d i s = summary xs -> Forall int16 xs ->
  let '(c, s') := check_axis d i s in
  cal s' = cal s /\ writes s' = writes s /\
  forall c', c = Some c' -> good_range xs (s16 (in_deadzone c' + MIN_SPAN)) c'.
Proof.
  intros Hc Hxs. unfold check_axis. destruct (analog_axis_calibration_get _ _ _) as [c o].
  change (cal_at d i (s <| c_os := o |>)) with (cal_at d i s). rewrite Hc.
  destruct Hxs as [|r xs Hr Hxs]; [by split_and!|]. cbn [summary seen negb rest seen_min seen_max].
  pose proof (fold_min_le r xs) as Hlo. pose proof (fold_max_ge r xs) as Hhi.
  destruct (fold_int16 r xs Hr Hxs) as [Ilo Ihi].
  pose proof (cal_symmetric_spec r (foldl Z.min r xs) (foldl Z.max r xs) (s16 (in_deadzone c + MIN_SPAN))
    Ilo Ihi (conj Hlo Hhi)) as Hsym.
  destruct (teleop_cal_symmetric _ _ _ _) as [[lo hi]|]; [|by split_and!].
  split; [done|]. split; [done|]. intros c' [= <-]. cbn [good_range in_min in_max in_deadzone]. lia.
Qed.

Lemma in_all_axes d i : In (d, i) all_axes <-> (d < sticks)%nat /\ (i < num_axes d)%nat.
Proof.
  unfold all_axes. rewrite in_concat. split.
  - intros (l & Hl & Hi). apply in_map_iff in Hl as (d' & <- & Hd). apply in_seq in Hd.
    apply in_map_iff in Hi as (i' & [= -> ->] & Hi). apply in_seq in Hi. lia.
  - intros [Hd Hi]. exists (map (pair d) (seq 0 (num_axes d))). split.
    + apply in_map_iff. exists d. split; [done|]. apply in_seq. lia.
    + apply in_map_iff. exists i. split; [done|]. apply in_seq. lia.
Qed.

Lemma check_axes_spec axes s (samples : nat -> nat -> list Z) :
  (forall d i, In (d, i) axes -> cal_at d i s = summary (samples d i)) ->
  (forall d i, Forall int16 (samples d i)) ->
  let '(cs, s') := check_axes axes s in
  writes s' = writes s /\
  forall cs', cs = Some cs' -> map fst cs' = axes /\
    forall d i c, In (d, i, c) cs' -> good_range (samples d i) (s16 (in_deadzone c + MIN_SPAN)) c.
Proof.
  intros Hc Hs. revert s Hc. induction axes as [|[d i] axes IH]; intros s Hc; cbn [check_axes].
  { split; [done|]. by intros cs' [= <-]. }
  pose proof (check_axis_spec d i s (samples d i) (Hc d i ltac:(by left)) (Hs d i)) as Ha.
  destruct (check_axis d i s) as [[c|] s1]; destruct Ha as (E1 & E2 & Hg); [|by split].
  specialize (IH s1). destruct (check_axes axes s1) as [cs s2].
  destruct IH as [E3 Hcs].
  { intros d' i' Hi. unfold cal_at. rewrite E1. apply Hc. by right. }
  rewrite E3. split; [done|]. intros cs' E. destruct cs as [cs|]; [|done]. injection E as <-.
  destruct (Hcs cs eq_refl) as [Hm Hall]. split; [cbn; by rewrite Hm|].
  intros d' i' c' [[= -> -> ->]|Hin]; [by apply Hg|by apply Hall].
Qed.

Lemma set_axes_writes cs s :
  writes (foldl set_axis s cs) = writes s ++ map (fun e => Set_ (fst (fst e)) (snd (fst e)) (snd e)) cs.
Proof.
  revert s. induction cs as [|[[d i] c] cs IH]; intros s; cbn [foldl map]; [by rewrite app_nil_r|].
  rewrite IH. cbn [set_axis writes update fst snd]. by rewrite <- app_assoc.
Qed.
Lemma write_sticks_spec ds cs s :
  let '(ret, s') := write_sticks ds cs s in
  exists ws, writes s' = writes s ++ ws /\
    (forall d i c, In (Set_ d i c) ws -> In (d, i, c) cs) /\
    (ret = 0 -> forall d, In d ds -> In (Save d 0) ws /\
       forall i c, In (d, i, c) cs -> In (Set_ d i c) ws).
Proof.
  revert s. induction ds as [|d ds IH]; intros s; cbn [write_sticks].
  { exists []. rewrite app_nil_r. split_and!; done. }
  set (mine := filter _ cs). pose proof (set_axes_writes mine s) as Hw.
  set (s1 := foldl set_axis s mine) in *. clearbody s1.
  destruct (analog_axis_calibration_save d (c_os s1)) as [err o].
  set (sets := map _ mine) in Hw.
  assert (forall d' i c, In (Set_ d' i c) sets -> In (d', i, c) cs) as Hsets.
  { intros d' i c Hin. apply in_map_iff in Hin as ([[d2 i2] c2] & [= -> -> ->] & Hin).
    apply list_elem_of_In, list_elem_of_filter in Hin as [_ Hin]. by apply list_elem_of_In. }
  assert (forall i c, In (d, i, c) cs -> In (Set_ d i c) sets) as Hsets2.
  { intros i c Hin. apply in_map_iff. exists (d, i, c). split; [done|].
    apply list_elem_of_In, list_elem_of_filter. split; [done|by apply list_elem_of_In]. }
  destruct (Z.eqb_spec err 0) as [->|Hne]; cbn [negb].
  - set (s2 := s1 <| c_os := o |> <| writes ::= fun l => l ++ [Save d 0] |>).
    specialize (IH s2). destruct (write_sticks ds cs s2) as [ret s3].
    destruct IH as (ws & E & H1 & H2). exists (sets ++ Save d 0 :: ws). split.
    { rewrite E. cbn. by rewrite Hw, <- !app_assoc. }
    split.
    { intros d' i c [Hin|[[=]|Hin]]%in_app_or; [by apply Hsets|by apply H1]. }
    intros Hr d' [<-|Hd].
    + split; [apply in_or_app; by right; left|]. intros i c Hin. apply in_or_app. left. by apply Hsets2.
    + destruct (H2 Hr d' Hd) as [Hsv Hset]. split.
      * apply in_or_app. by right; right.
      * intros i c Hin. apply in_or_app. right. right. by apply Hset.
  - exists (sets ++ [Save d err]). split; [cbn; by rewrite Hw, <- app_assoc|]. split; [|done].
    intros d' i c [Hin|[[=]|[]]]%in_app_or. by apply Hsets.
Qed.

(** * Property *)

(** A calibration is stored whole and sound, or not at all.  After [cmd_start]
    and any samples of any axes, [cmd_stop] writes to the driver only ranges
    symmetric about the axis' first sample, inside what was seen, and reaching
    at least the deadzone and MIN_SPAN to either side; if an axis' samples allow
    no such range it writes nothing and fails; and if it succeeds it has written
    every axis and saved every stick.  Without [cmd_start] it fails. *)
Theorem calibration_all_or_nothing s xs : Forall (fun x => int16 (snd x)) xs ->
  (running s = false -> cmd_stop s = (- EINVAL, s)) /\
  let '(ret, s') := cmd_stop (foldl feed (snd (cmd_start s)) xs) in
  exists ws, writes s' = writes s ++ ws /\
    (forall d i c, In (Set_ d i c) ws ->
       In (d, i) all_axes /\ good_range (of_axis d i xs) (s16 (in_deadzone c + MIN_SPAN)) c) /\
    ((exists d i, In (d, i) all_axes /\
        forall c, ~ good_range (of_axis d i xs) (s16 (in_deadzone c + MIN_SPAN)) c) ->
     ret = - EINVAL /\ ws = []) /\
    (ret = 0 -> (forall d, (d < sticks)%nat -> In (Save d 0) ws) /\
                forall d i, In (d, i) all_axes -> exists c, In (Set_ d i c) ws).
Proof.
  intros Hxs. split; [unfold cmd_stop; by intros ->|].
  destruct (feed_spec s xs) as (_ & Hr & Hw & Hc). set (s1 := foldl feed (snd (cmd_start s)) xs) in *. clearbody s1.
  unfold cmd_stop. rewrite Hr. cbn [negb]. set (s2 := s1 <| c_os ::= set_cbs false |> <| running := false |>).
  pose proof (check_axes_spec all_axes s2 (fun d i => of_axis d i xs)) as Hck.
  destruct (check_axes all_axes s2) as [cs s3]. destruct Hck as [E3 Hcs].
  { intros d i Hi%in_all_axes. destruct Hi as [Hd Hi]. apply (Hc d i Hd). unfold num_axes in Hi. lia. }
  { intros d i. by apply of_axis_int16. }
  change (writes s2) with (writes s1) in E3. rewrite Hw in E3. destruct cs as [cs|].
  2: { exists []. rewrite app_nil_r. split_and!; done. }
  destruct (Hcs cs eq_refl) as [Hm Hg]. pose proof (write_sticks_spec (seq 0 sticks) cs s3) as Hws.
  destruct (write_sticks (seq 0 sticks) cs s3) as [ret s4]. destruct Hws as (ws & E & H1 & H2).
  exists ws. rewrite E, E3. split; [done|].
  assert (forall d i, In (d, i) all_axes -> exists c, In (d, i, c) cs) as Hall.
  { intros d i Hi. rewrite <- Hm in Hi. apply in_map_iff in Hi as ([[d' i'] c] & [= -> ->] & Hin). eauto. }
  split.
  { intros d i c Hin%H1. split; [rewrite <- Hm; apply in_map_iff; by exists (d, i, c)|by apply Hg]. }
  split.
  { intros (d & i & Hi & Hno). destruct (Hall d i Hi) as [c Hin]. exfalso. by apply (Hno c), Hg. }
  intros Hz. split; [intros d Hd; apply H2; [done|apply in_seq; lia]|].
  intros d i Hi. destruct (Hall d i Hi) as [c Hin]. exists c. apply in_all_axes in Hi as [Hd _].
  apply H2; [done|apply in_seq; lia|done].
Qed.
End Calibrate.

(** * Instance and witness: two sticks of two axes and one, the second never moved *)
From S2P Require Import Instances.
#[export] Instance sim_axes : @AnalogAxis sim_os := {|
  analog_axis_num_axes d := match d with O => 2%nat | _ => 1%nat end;
  analog_axis_calibration_get _ _ w := (mk_calibration (-512) 512 20, w);
  analog_axis_calibration_set _ _ _ w := w;
  analog_axis_calibration_save _ w := (0, w);
  analog_axis_set_raw_data_cb _ _ w := w;
|}.
Definition demo_samples : list sample :=
  [(0%nat, 0, 10); (0%nat, 1, 0); (0%nat, 0, 900); (0%nat, 1, 500); (0%nat, 0, -300); (0%nat, 1, -510);
   (1%nat, 0, 5); (1%nat, 0, 205); (1%nat, 0, -295)].

Example calibration_all_or_nothing_witness :
  let '(ret, s') := cmd_stop 2 (foldl (feed 2) (snd (cmd_start 2 (@calib_boot sim_os 2 sim_boot))) demo_samples) in
  ret = 0 /\ exists ws, writes s' = [] ++ ws /\
    (forall d i c, In (Set_ d i c) ws ->
       In (d, i) (all_axes 2) /\ good_range (of_axis d i demo_samples) (s16 (in_deadzone c + MIN_SPAN)) c).
Proof.
  assert (Forall (fun x => int16 (snd x)) demo_samples) as Hs
    by (repeat constructor; unfold int16; cbn; lia).
  destruct (calibration_all_or_nothing 2 (@calib_boot sim_os 2 sim_boot) demo_samples Hs) as [_ Hw].
  assert (fst (cmd_stop 2 (foldl (feed 2) (snd (cmd_start 2 (@calib_boot sim_os 2 sim_boot))) demo_samples)) = 0)
    as Hr by (vm_compute; reflexivity).
  destruct (cmd_stop 2 _) as [ret s']. split; [exact Hr|].
  destruct Hw as (ws & E & Hg & _). exists ws. split; [exact E|exact Hg].
Defined.
