(* ===== verification/BtKeys.v ===== *)
(** bt_keys: a four-key pad as a Bluetooth and USB keyboard ([bt_keys/src]).

    keys.c's bindings with their settings entry and shell command, main.c's scan and
    the two reports, and hog.c's and usb_hid.c's sends.  Next to the state runs a log
    of the reports handed to each transport. *)

From Stdlib Require Import Ascii.
From S2P Require Import Prelude Printf Platform Instances HttpUtil.
#[local] Open Scope Z_scope.

Definition BT_KEYS_NUM_KEYS : nat := 4.
Definition HID_KEYBOARD_KEYS : nat := 6.
Definition REPORT_ID_KEYBOARD : Z := 1.
Definition REPORT_ID_CONSUMER : Z := 2.
Definition BT_KEYS_TYPE_KEYBOARD : Z := 0.
Definition BT_KEYS_TYPE_CONSUMER : Z := 1.

Record bt_keys_binding := mk_binding { type : Z; usage : Z }.
#[export] Instance binding_eq_dec : EqDecision bt_keys_binding.
Proof. solve_decision. Defined.

(** keys.c's defaults: a media pad. *)
Definition bt_keys_default : list bt_keys_binding :=
  [mk_binding BT_KEYS_TYPE_CONSUMER 182; mk_binding BT_KEYS_TYPE_CONSUMER 205;
   mk_binding BT_KEYS_TYPE_CONSUMER 181; mk_binding BT_KEYS_TYPE_CONSUMER 226].

(** The array as bytes: four bytes a binding, the second padding. *)
Definition binding_bytes (b : bt_keys_binding) : list Z := [u8 (type b); 0] ++ le_bytes 2 (usage b).
Definition map_bytes (m : list bt_keys_binding) : list Z := flat_map binding_bytes m.
Definition map_sizeof : nat := 16.
Definition binding_at (b : list Z) (i : nat) : bt_keys_binding :=
  mk_binding (default 0 (b !! (4 * i)%nat)) (le_val (take 2 (drop (4 * i + 2) b))).
Definition map_of_bytes (b : list Z) : list bt_keys_binding := map (binding_at b) (seq 0 BT_KEYS_NUM_KEYS).

(** * The C library's [strtoul], base 0, on a 32-bit long. *)
Definition ULONG_MAX : Z := 2 ^ 32 - 1.
Definition blank (c : ascii) : bool := let n := char_code c in (n =? 32) || ((9 <=? n) && (n <=? 13)).
Fixpoint skip_blanks (s : cstr) : cstr :=
  match s with c :: s' => if blank c then skip_blanks s' else s | [] => [] end.
Fixpoint strtoul_digits (base v : Z) (s : cstr) : Z :=
  match s with
  | c :: s' => let d := hex_digit c in
               if (0 <=? d) && (d <? base) then strtoul_digits base (v * base + d) s' else v
  | [] => v
  end.
Definition strtoul_value (s : cstr) : Z :=
  match s with
  | a :: x :: d :: s' =>
      if Ascii.eqb a (chr "0") && (Ascii.eqb x (chr "x") || Ascii.eqb x (chr "X")) && (0 <=? hex_digit d)
      then strtoul_digits 16 0 (d :: s')
      else if Ascii.eqb a (chr "0") then strtoul_digits 8 0 s else strtoul_digits 10 0 s
  | a :: _ => if Ascii.eqb a (chr "0") then strtoul_digits 8 0 s else strtoul_digits 10 0 s
  | [] => 0
  end.
Definition strtoul (s : cstr) : Z :=
  let s := skip_blanks s in
  let '(neg, s) := match s with
                   | c :: s' => if Ascii.eqb c (chr "-") then (true, s')
                                else if Ascii.eqb c (chr "+") then (false, s') else (false, s)
                   | [] => (false, s)
                   end in
  let v := strtoul_value s in
  if ULONG_MAX <? v then ULONG_MAX else if neg then u32 (- v) else v.

(** * keys.c *)
Section Keymap.
Context `{Settings}.

(** The handler, on the live array. *)
Definition keys_settings_set (name : string) (v : setting_value) (m : list bt_keys_binding) : Z * list bt_keys_binding :=
  match settings_name_steq name "map" with
  | Some _ =>
      if negb (sv_len v =? map_sizeof)%nat then (- EINVAL, m) else
      match sv_read v map_sizeof with
      | None => (- EIO, m)
      | Some b => (0, map_of_bytes (b ++ drop (length b) (map_bytes m)))
      end
  | None => (- ENOENT, m)
  end.

(** [bt_ready]'s registration and load, on the defaults. *)
Definition bt_keys_load (w : os) : Z * list bt_keys_binding * os :=
  let '((ret, entries), w) := settings_load_subtree "btkeys" w in
  (ret, foldl (fun m '(name, v) => snd (keys_settings_set name v m)) bt_keys_default entries, w).

Definition bt_keys_set (index ty us : Z) (m : list bt_keys_binding) (w : os) : Z * list bt_keys_binding * os :=
  if Z.of_nat BT_KEYS_NUM_KEYS <=? index then (- EINVAL, m, w) else
  let m := <[Z.to_nat index := mk_binding (u8 ty) us]> m in
  let '(ret, w) := settings_save_one "btkeys/map" (map_bytes m) w in
  (ret, m, w).

Definition arg_is (s : cstr) (name : string) : bool := bool_decide (s = to_chars name).
Definition cmd_keys_set (a1 a2 a3 : cstr) (m : list bt_keys_binding) (w : os) : Z * list bt_keys_binding * os :=
  let index := strtoul a1 in
  match (if arg_is a2 "keyboard" || arg_is a2 "kbd" then Some BT_KEYS_TYPE_KEYBOARD
         else if arg_is a2 "consumer" || arg_is a2 "cons" then Some BT_KEYS_TYPE_CONSUMER else None) with
  | None => (- EINVAL, m, w)
  | Some ty =>
      let us := strtoul a3 in
      if (Z.of_nat BT_KEYS_NUM_KEYS <=? index) || (65535 <? us) then (- EINVAL, m, w)
      else bt_keys_set (u8 index) ty (u16 us) m w
  end.
End Keymap.

(** * main.c, hog.c and usb_hid.c *)

Definition key_pins : list nat := [4; 5; 6; 7]%nat.
Record rgb := mk_rgb { red : Z; green : Z; blue : Z }.
Definition key_lit : rgb := mk_rgb 0 24 24.
Definition key_off : rgb := mk_rgb 0 0 0.

(** The key pad's port and strip, and the two transports. *)
Class KeyPad `{Os} := {
  port_get_raw : os -> (Z * Z) * os;                     (* result and levels *)
  strip_update : list rgb -> os -> Z * os;
  bt_hids_send_report : Z -> list Z -> os -> Z * os;
  hid_device_submit_report : list Z -> os -> Z * os;
}.

(** A report handed to a transport, with its result. *)
Inductive sent_report := Ble (id : Z) (data : list Z) (err : Z) | Usb (data : list Z) (err : Z).

Section Pad.
Context `{KeyPad}.
(** CONFIG_USB_DEVICE_STACK_NEXT *)
Variable has_usb : bool.

(** The bindings, usb_hid.c's and [report_keys]'s statics, and [main]'s mask. *)
Record pad := mk_pad {
  bt_keys_map : list bt_keys_binding;
  hid_ready : bool;
  prev_kbd : list Z; prev_consumer : Z; rk_mask : Z; active : option nat;
  scanned : Z;
  reports : list sent_report;
  p_os : os;
}.
#[export] Instance eta_pad : Eta pad := fun p =>
  mk_pad (bt_keys_map p) (hid_ready p) (prev_kbd p) (prev_consumer p) (rk_mask p) (active p) (scanned p) (reports p) (p_os p).
Definition pad_boot (m : list bt_keys_binding) (o : os) : pad :=
  mk_pad m false (repeat 0 HID_KEYBOARD_KEYS) 0 0 None 0 [] o.

Definition hog_send (id : Z) (data : list Z) (p : pad) : pad :=
  let '(err, o) := bt_hids_send_report id data (p_os p) in
  p <| p_os := o |> <| reports ::= fun l => l ++ [Ble id data err] |>.
Definition usb_send (data : list Z) (p : pad) : pad :=
  if negb (hid_ready p) then p else
  let '(err, o) := hid_device_submit_report data (p_os p) in
  p <| p_os := o |> <| reports ::= fun l => l ++ [Usb data err] |>.
Definition notify_keyboard (kbd : list Z) (p : pad) : pad :=
  let p := hog_send REPORT_ID_KEYBOARD ([0; 0] ++ kbd) p in
  if has_usb then usb_send ([REPORT_ID_KEYBOARD; 0; 0] ++ kbd) p else p.
Definition notify_consumer (us : Z) (p : pad) : pad :=
  let p := hog_send REPORT_ID_CONSUMER (le_bytes 2 us) p in
  if has_usb then usb_send (REPORT_ID_CONSUMER :: le_bytes 2 us) p else p.

(** A scan: the error, or the mask of the keys held (a low level is a press). *)
Definition scan_bits (raw : Z) : Z :=
  foldl (fun m i => if has_bit raw (nth i key_pins O) then m else Z.lor m (BIT i)) 0 (seq 0 BT_KEYS_NUM_KEYS).
Definition keypad_scan (o : os) : Z * os :=
  let '((err, raw), o) := port_get_raw o in
  if negb (err =? 0) then (err, o) else (scan_bits raw, o).

Definition binding_of (m : list bt_keys_binding) (i : nat) : bt_keys_binding := nth i m (mk_binding 0 0).
Definition is_consumer (m : list bt_keys_binding) (i : nat) : bool := type (binding_of m i) =? BT_KEYS_TYPE_CONSUMER.
Definition is_keyboard (m : list bt_keys_binding) (i : nat) : bool := type (binding_of m i) =? BT_KEYS_TYPE_KEYBOARD.

(** [active_consumer_key] after the three steps of [report_keys]: dropped if
    released; taken over by a newly pressed key; and else the first held one. *)
Definition next_active (m : list bt_keys_binding) (mask prev : Z) (a : option nat) : option nat :=
  let a := match a with Some i => if has_bit mask i then Some i else None | None => None end in
  let a := foldl (fun a i => if has_bit mask i && negb (has_bit prev i) && is_consumer m i then Some i else a)
             a (seq 0 BT_KEYS_NUM_KEYS) in
  match a with
  | Some i => Some i
  | None => List.find (fun i => has_bit mask i && is_consumer m i) (seq 0 BT_KEYS_NUM_KEYS)
  end.
Definition consumer_usage (m : list bt_keys_binding) (a : option nat) : Z :=
  match a with Some i => usage (binding_of m i) | None => 0 end.

(** The key codes of a report: the held keyboard keys', in order. *)
Definition kbd_codes (m : list bt_keys_binding) (mask : Z) : list Z :=
  let held := List.filter (fun i => has_bit mask i && is_keyboard m i) (seq 0 BT_KEYS_NUM_KEYS) in
  let codes := take HID_KEYBOARD_KEYS (map (fun i => u8 (usage (binding_of m i))) held) in
  codes ++ repeat 0 (HID_KEYBOARD_KEYS - length codes).

Definition report_keys (mask : Z) (p : pad) : pad :=
  let m := bt_keys_map p in
  let a := next_active m mask (rk_mask p) (active p) in
  let consumer := consumer_usage m a in
  let kbd := kbd_codes m mask in
  let p := p <| active := a |> <| rk_mask := mask |> in
  let p := if bool_decide (kbd = prev_kbd p) then p else notify_keyboard kbd (p <| prev_kbd := kbd |>) in
  if consumer =? prev_consumer p then p else notify_consumer consumer (p <| prev_consumer := consumer |>).

Definition leds_update (mask : Z) (p : pad) : pad :=
  let buf := map (fun i => if has_bit mask i then key_lit else key_off) (seq 0 BT_KEYS_NUM_KEYS) in
  p <| p_os := snd (strip_update buf (p_os p)) |>.

(** One pass of [main]'s loop. *)
Definition main_pass (p : pad) : pad :=
  let '(mask, o) := keypad_scan (p_os p) in
  let p := p <| p_os := o |> in
  if (mask <? 0) || (mask =? scanned p) then p
  else (leds_update mask (report_keys mask p)) <| scanned := mask |>.
End Pad.

(** * The bring-up *)

(** The calls [main] and [bt_ready] make once, each with its result. *)
Inductive bringup :=
| keypad_ready | pin_configure (pin : nat) | strip_ready
| hid_device_register | usbd_add_descriptor (which : nat) | usbd_add_configuration
| usbd_register_all_classes | usbd_init | usbd_enable | bt_enable
| bt_hids_register | bt_le_adv_start.
#[export] Instance bringup_eq_dec : EqDecision bringup.
Proof. solve_decision. Defined.

Section Start.
Context `{KeyPad} `{!Settings}.
(** CONFIG_USB_DEVICE_STACK_NEXT and CONFIG_SETTINGS; a call's result, 0 or the error
    (for a device's readiness, -ENODEV). *)
Variables has_usb has_settings : bool.
Variable call : bringup -> os -> Z * os.

(** A run of calls up to the first error. *)
Fixpoint calls (l : list bringup) (o : os) : Z * os :=
  match l with
  | [] => (0, o)
  | b :: l => let '(err, o) := call b o in if negb (err =? 0) then (err, o) else calls l o
  end.
Definition keypad_init (o : os) : Z * os := calls (keypad_ready :: map pin_configure key_pins) o.
Definition hog_init (o : os) : Z * os := call bt_hids_register o.
(** [err |= ...], over the string descriptors. *)
Definition add_descriptors (o : os) : Z * os :=
  foldl (fun '(err, o) i => let '(e, o) := call (usbd_add_descriptor i) o in (Z.lor err e, o)) (0, o) (seq 0 4).
Definition bt_keys_usb_hid_init (o : os) : Z * os :=
  let '(err, o) := call hid_device_register o in
  if negb (err =? 0) then (err, o) else
  let '(err, o) := add_descriptors o in
  if negb (err =? 0) then (err, o) else
  calls [usbd_add_configuration; usbd_register_all_classes; usbd_init; usbd_enable] o.

(** [bt_ready]: the bindings after it, and whether it advertises. *)
Definition bt_ready (err : Z) (m : list bt_keys_binding) (o : os) : list bt_keys_binding * bool * os :=
  if negb (err =? 0) then (m, false, o) else
  let '(err, o) := hog_init o in
  if negb (err =? 0) then (m, false, o) else
  let '(m, o) := if has_settings then let '(_, m, o) := bt_keys_load o in (m, o) else (m, o) in
  let '(err, o) := call bt_le_adv_start o in
  (m, err =? 0, o).

(** [main] up to its loop: the pad the loop starts with, or a return. *)
Definition pad_start (o : os) : option pad * os :=
  let '(err, o) := keypad_init o in
  if negb (err =? 0) then (None, o) else
  let '(err, o) := call strip_ready o in
  if negb (err =? 0) then (None, o) else
  let p := leds_update 0 (pad_boot bt_keys_default o) in
  let '(err, o) := if has_usb then bt_keys_usb_hid_init (p_os p) else (0, p_os p) in
  if negb (err =? 0) then (None, o) else
  let '(err, o) := call bt_enable o in
  if negb (err =? 0) then (None, o) else (Some (p <| p_os := o |>), o).

Section Results.
(** Where each call's result does not depend on the machine. *)
Variable result : bringup -> Z.
Hypothesis call_result : forall b o, fst (call b o) = result b.

Lemma calls_ok l o : fst (calls l o) = 0 <-> Forall (fun b => result b = 0) l.
Proof.
  revert o. induction l as [|b l IH]; intros o; cbn; [by rewrite Forall_nil|].
  pose proof (call_result b o) as Hb. destruct (call b o) as [err o1]. cbn in Hb. rewrite Forall_cons, <- Hb.
  destruct (Z.eqb_spec err 0) as [->|Hne]; cbn [negb]; [rewrite IH; tauto|cbn; tauto].
Qed.
Lemma add_descriptors_ok o : fst (add_descriptors o) = 0 <-> Forall (fun i => result (usbd_add_descriptor i) = 0) (seq 0 4).
Proof.
  unfold add_descriptors. generalize (seq 0 4). intros l.
  assert (forall e o, fst (foldl (fun '(err, o) i => let '(e, o) := call (usbd_add_descriptor i) o in (Z.lor err e, o)) (e, o) l) = 0 <->
            e = 0 /\ Forall (fun i => result (usbd_add_descriptor i) = 0) l) as Hl; [|rewrite Hl; tauto].
  induction l as [|i l IH]; intros e o1; cbn [foldl]; [rewrite Forall_nil; cbn; tauto|].
  pose proof (call_result (usbd_add_descriptor i) o1) as Hb. destruct (call _ o1) as [e1 o2]. cbn in Hb.
  rewrite IH, Forall_cons, <- Hb, Z.lor_eq_0_iff. tauto.
Qed.

Definition usb_calls : list bringup :=
  [hid_device_register] ++ map usbd_add_descriptor (seq 0 4) ++ [usbd_add_configuration; usbd_register_all_classes; usbd_init; usbd_enable].
Definition needed : list bringup :=
  keypad_ready :: map pin_configure key_pins ++ strip_ready :: (if has_usb then usb_calls else []) ++ [bt_enable].

Lemma usb_init_ok o : fst (bt_keys_usb_hid_init o) = 0 <-> Forall (fun b => result b = 0) usb_calls.
Proof.
  unfold bt_keys_usb_hid_init, usb_calls. rewrite !Forall_app, Forall_map, Forall_singleton.
  pose proof (call_result hid_device_register o) as Hb. destruct (call _ o) as [err o1]. cbn in Hb. rewrite <- Hb.
  destruct (Z.eqb_spec err 0) as [->|Hne]; cbn [negb]; [|cbn; tauto].
  pose proof (add_descriptors_ok o1) as Hd. destruct (add_descriptors o1) as [e o2]. cbn [fst] in Hd.
  unfold compose. rewrite <- Hd. destruct (Z.eqb_spec e 0) as [->|Hne]; cbn [negb]; [|cbn; tauto].
  rewrite calls_ok. tauto.
Qed.

(** [main] reaches its loop exactly when every call of the bring-up returned 0 - the
    or-ed descriptor results included, so no error is masked by a later one - and then
    with the default bindings, nothing held and nothing sent. *)
Theorem keypad_starts o :
  (fst (pad_start o) <> None <-> Forall (fun b => result b = 0) needed) /\
  (forall p, fst (pad_start o) = Some p -> p = pad_boot bt_keys_default (p_os p)).
Proof.
  unfold pad_start, needed. pose proof (calls_ok (keypad_ready :: map pin_configure key_pins) o) as Hk.
  rewrite (app_comm_cons (map pin_configure key_pins)), Forall_app, <- Hk, Forall_cons, Forall_app, Forall_singleton.
  unfold keypad_init. destruct (calls _ o) as [err o1]. cbn [fst].
  destruct (Z.eqb_spec err 0) as [->|Hne]; cbn [negb]; [|cbn; naive_solver].
  pose proof (call_result strip_ready o1) as Hs. destruct (call strip_ready o1) as [e o2]. cbn in Hs. rewrite <- Hs.
  destruct (Z.eqb_spec e 0) as [->|Hne]; cbn [negb]; [|cbn; naive_solver].
  set (p := leds_update 0 _).
  assert (forall o', p <| p_os := o' |> = pad_boot bt_keys_default o') as Hp by done.
  assert (fst (if has_usb then bt_keys_usb_hid_init (p_os p) else (0, p_os p)) = 0 <->
          Forall (fun b => result b = 0) (if has_usb then usb_calls else [])) as Hu.
  { destruct has_usb; [apply usb_init_ok|by rewrite Forall_nil]. }
  rewrite <- Hu. destruct (if has_usb then _ else _) as [e o3]. cbn [fst].
  destruct (Z.eqb_spec e 0) as [->|Hne]; cbn [negb]; [|cbn; naive_solver].
  pose proof (call_result bt_enable o3) as Hb. destruct (call bt_enable o3) as [e o4]. cbn in Hb. rewrite <- Hb.
  destruct (Z.eqb_spec e 0) as [->|Hne]; cbn [negb]; [|cbn; naive_solver].
  cbn [fst]. split; [naive_solver|]. intros q [= <-]. exact (Hp o4).
Qed.
End Results.
End Start.

(** * The bindings survive a reboot *)

Definition map_ok (m : list bt_keys_binding) : Prop :=
  length m = BT_KEYS_NUM_KEYS /\ Forall (fun b => 0 <= type b < 256 /\ 0 <= usage b < 65536) m.

Lemma map_bytes_length m : length (map_bytes m) = (4 * length m)%nat.
Proof. unfold map_bytes. induction m as [|b m IH]; cbn; [done|]. rewrite IH. lia. Qed.
Lemma map_back m : map_ok m -> map_of_bytes (map_bytes m) = m.
Proof.
  intros [Hl Hf]. destruct m as [|a [|b [|c [|d [|e m]]]]]; try done.
  repeat match goal with H : Forall _ (_ :: _) |- _ => apply Forall_cons_1 in H as [? H] end.
  assert (forall k, 0 <= type k < 256 /\ 0 <= usage k < 65536 -> mk_binding (u8 (type k)) (le_val (le_bytes 2 (usage k))) = k) as Hk.
  { intros [t us] [Ht Hu]. cbn [type usage] in *. by rewrite u8_small, le_val_bytes_small by lia. }
  transitivity [mk_binding (u8 (type a)) (le_val (le_bytes 2 (usage a))); mk_binding (u8 (type b)) (le_val (le_bytes 2 (usage b)));
    mk_binding (u8 (type c)) (le_val (le_bytes 2 (usage c))); mk_binding (u8 (type d)) (le_val (le_bytes 2 (usage d)))]; [reflexivity|].
  by rewrite !Hk.
Qed.

Section KeymapProperties.
Context `{SettingsLaws}.

Definition MAP_KEY : string := "btkeys/map".

(** How the bindings evolve: a boot from an empty store, a key remapped, reboots, and
    whatever else goes on; and the bindings last saved. *)
Inductive key_runs : list bt_keys_binding -> list bt_keys_binding -> os -> Prop :=
| first_load w m w' : (forall rest, stored w (MAP_KEY +:+ "/" +:+ rest) = None) -> stored w MAP_KEY = None -> bt_keys_load w = (0, m, w') -> key_runs m bt_keys_default w'
| remap m saved w index ty us r m' w' : key_runs m saved w -> 0 <= index -> 0 <= us < 65536 ->
    bt_keys_set index ty us m w = (r, m', w') -> key_runs m' (if r =? 0 then m' else saved) w'
| reload m saved w m' w' : key_runs m saved w -> bt_keys_load w = (0, m', w') -> key_runs m' saved w'
| meanwhile m saved w w' : key_runs m saved w -> (forall k, stored w' k = stored w k) -> key_runs m saved w'.

Lemma steq_map name next : settings_name_steq name "map" = Some next ->
  name = "map"%string \/ exists rest, name = ("map/" +:+ rest).
Proof. intros E. apply steq_other in E. destruct next as [rest|]; [right; by exists rest|by left]. Qed.

Lemma set_other name v m : settings_name_steq name "map" = None -> snd (keys_settings_set name v m) = m.
Proof. intros E. unfold keys_settings_set. by rewrite E. Qed.
Lemma set_stored b m : length b = map_sizeof -> length m = BT_KEYS_NUM_KEYS ->
  snd (keys_settings_set "map" (stored_value b) m) = map_of_bytes b.
Proof.
  intros Hb Hm. unfold keys_settings_set. rewrite steq_leaf. unfold stored_value. cbn [sv_len sv_read].
  rewrite Hb, Nat.eqb_refl. cbn [negb]. rewrite firstn_all2 by lia. cbn [snd].
  by rewrite skipn_all2, app_nil_r by (rewrite map_bytes_length, Hm, Hb; done).
Qed.

(** The load's fold: with no entry for the bindings it changes nothing; with the one
    entry there can be, it gives that. *)
Lemma load_none es m : (forall name v, (name, v) ∈ es -> settings_name_steq name "map" = None) ->
  foldl (fun m '(name, v) => snd (keys_settings_set name v m)) m es = m.
Proof.
  revert m. induction es as [|[n v] es IH]; intros m Hn; [done|]. cbn.
  rewrite (set_other n v) by (eapply Hn; by left). apply IH. intros ? ? Hin. eapply Hn. by right.
Qed.
Lemma load_some es m b : length b = map_sizeof -> length m = BT_KEYS_NUM_KEYS ->
  (forall name v, (name, v) ∈ es ->
     (name = "map"%string /\ v = stored_value b) \/ settings_name_steq name "map" = None) ->
  m = map_of_bytes b \/ ("map"%string, stored_value b) ∈ es ->
  foldl (fun m '(name, v) => snd (keys_settings_set name v m)) m es = map_of_bytes b.
Proof.
  intros Hb. revert m. induction es as [|[n v] es IH]; intros m Hm He Hin; cbn.
  - destruct Hin as [|Hin]; [done|]. by apply elem_of_nil in Hin.
  - destruct (He n v ltac:(by left)) as [[-> ->]|Hn].
    + rewrite set_stored by done. apply IH; [done| |by left]. intros ? ? Hx. apply He. by right.
    + rewrite set_other by done. apply IH; [done| |].
      * intros ? ? Hx. apply He. by right.
      * destruct Hin as [|Hin]; [by left|]. right. apply elem_of_cons in Hin as [Hx|]; [|done].
        injection Hx as <- <-. by rewrite steq_leaf in Hn.
Qed.

(** What the store holds of the bindings: what was last saved, if anything was. *)
Definition kept (m saved : list bt_keys_binding) (w : os) : Prop :=
  map_ok m /\ map_ok saved /\ (forall rest, stored w (MAP_KEY +:+ "/" +:+ rest) = None) /\
  match stored w MAP_KEY with None => saved = bt_keys_default | Some b => b = map_bytes saved end.

Lemma default_map_ok : map_ok bt_keys_default.
Proof.
  split; [done|]. unfold bt_keys_default. do 4 (apply List.Forall_cons; [unfold BT_KEYS_TYPE_CONSUMER; cbn; lia|]).
  apply List.Forall_nil.
Qed.

Lemma load_kept m saved w m' w' : kept m saved w -> bt_keys_load w = (0, m', w') ->
  m' = saved /\ kept m' saved w'.
Proof.
  intros (Hm & Hs & Hrest & Hk). unfold bt_keys_load.
  destruct (settings_load_subtree "btkeys" w) as [[ret es] w1] eqn:E. intros [= -> <- <-].
  assert (forall rest v, ("map/" +:+ rest, v) ∉ es) as Hno.
  { intros rest v Hin. destruct (load_sound _ _ _ _ _ _ E Hin) as (b & Hb & _).
    change ("btkeys" +:+ "/" +:+ "map/" +:+ rest) with (MAP_KEY +:+ "/" +:+ rest) in Hb. by rewrite Hrest in Hb. }
  assert (foldl (fun m '(name, v) => snd (keys_settings_set name v m)) bt_keys_default es = saved) as Hr.
  { destruct (stored w MAP_KEY) as [b|] eqn:Eb.
    - subst b. rewrite <- (map_back saved) by done. apply load_some; [by rewrite map_bytes_length, (proj1 Hs)|done| |].
      + intros name v Hin. destruct (settings_name_steq name "map") eqn:En; [|by right]. left.
        destruct (steq_map _ _ En) as [->|[rest ->]]; [|by destruct (Hno rest v)]. split; [done|].
        destruct (load_sound _ _ _ _ _ _ E Hin) as (b & Hb & ->).
        change ("btkeys" +:+ "/" +:+ "map") with MAP_KEY in Hb. congruence.
      + right. by eapply load_complete.
    - subst saved. apply load_none. intros name v Hin. destruct (settings_name_steq name "map") eqn:En; [|done].
      destruct (steq_map _ _ En) as [->|[rest ->]]; [|by destruct (Hno rest v)].
      destruct (load_sound _ _ _ _ _ _ E Hin) as (b & Hb & _).
      change ("btkeys" +:+ "/" +:+ "map") with MAP_KEY in Hb. congruence. }
  split; [done|]. rewrite Hr. split; [done|]. split; [done|]. split.
  - intros rest. by rewrite (load_keeps _ _ _ _ E).
  - by rewrite (load_keeps _ _ _ _ E).
Qed.

Lemma key_runs_kept m saved w : key_runs m saved w -> kept m saved w.
Proof.
  induction 1 as [w m w' Hr Hn Hl|m saved w index ty us r m' w' _ IH Hi Hu Hs|m saved w m' w' _ IH Hl|m saved w w' _ IH Hk].
  - assert (kept bt_keys_default bt_keys_default w) as Hd.
    { pose proof default_map_ok. split; [done|]. split; [done|]. split; [done|]. by rewrite Hn. }
    by destruct (load_kept _ _ _ _ _ Hd Hl).
  - destruct IH as (Hm & Hsv & Hrest & Hst). unfold bt_keys_set in Hs.
    destruct (Z.leb_spec (Z.of_nat BT_KEYS_NUM_KEYS) index); [injection Hs as <- <- <-; exact (conj Hm (conj Hsv (conj Hrest Hst)))|].
    destruct (settings_save_one _ _ _) as [ret w1] eqn:E. injection Hs as <- <- <-.
    set (m1 := <[Z.to_nat index := _]> m) in *.
    assert (map_ok m1) as Hm1.
    { destruct Hm as [Hl Hf]. split; [unfold m1; by rewrite length_insert|]. apply Forall_insert; [done|].
      cbn. split; [apply u8_range|done]. }
    destruct (Z.eqb_spec ret 0) as [->|Hne].
    + split; [done|]. split; [done|]. split.
      * intros rest. rewrite (save_ok _ _ _ _ E), decide_False by done. apply Hrest.
      * by rewrite (save_ok _ _ _ _ E MAP_KEY), decide_True.
    + split; [done|]. split; [done|]. split.
      * intros rest. by rewrite (save_failed _ _ _ _ _ E Hne).
      * by rewrite (save_failed _ _ _ _ _ E Hne).
  - by destruct (load_kept _ _ _ _ _ IH Hl) as [-> ?].
  - destruct IH as (Hm & Hsv & Hrest & Hst). split; [done|]. split; [done|]. split; [intros rest|]; by rewrite Hk.
Qed.

(** The bindings over any history of remapped keys and reboots: a binding whose save
    was reported good is there after every reboot; one whose save failed is in use
    until the next and then gone; and no key is ever bound to anything but a type and
    a usage of their widths. *)
Theorem keymap_survives_reboot m saved w : key_runs m saved w ->
  map_ok m /\ (forall m' w', bt_keys_load w = (0, m', w') -> m' = saved) /\
  (forall index ty us m' w' m2 w2, 0 <= index < 4 -> 0 <= us < 65536 -> bt_keys_set index ty us m w = (0, m', w') ->
     bt_keys_load w' = (0, m2, w2) -> m2 = m' /\ m2 !! Z.to_nat index = Some (mk_binding (u8 ty) us)).
Proof.
  intros Hr. pose proof (key_runs_kept _ _ _ Hr) as Hk. split; [by destruct Hk|]. split.
  - intros m' w' Hl. by destruct (load_kept _ _ _ _ _ Hk Hl).
  - intros index ty us m' w' m2 w2 Hi Hu Hs Hl.
    assert (key_runs m' (if 0 =? 0 then m' else saved) w') as Hr' by (eapply remap; eauto; lia).
    destruct (load_kept _ _ _ _ _ (key_runs_kept _ _ _ Hr') Hl) as [-> _]. split; [done|].
    unfold bt_keys_set in Hs. destruct (Z.leb_spec (Z.of_nat BT_KEYS_NUM_KEYS) index); [unfold BT_KEYS_NUM_KEYS in *; lia|].
    destruct (settings_save_one _ _ _) as [ret w1]. injection Hs as _ <- _.
    apply list_lookup_insert_eq. destruct Hk as ([Hl' _] & _). rewrite Hl'. unfold BT_KEYS_NUM_KEYS. lia.
Qed.
End KeymapProperties.

(** * What the host last heard *)

(** The last report of an identifier handed to Bluetooth, before which a host assumes
    nothing is held. *)
Definition heard (id : Z) (size : nat) (l : list sent_report) : list Z :=
  foldl (fun last r => match r with Ble i data _ => if i =? id then data else last | Usb _ _ => last end) (repeat 0 size) l.
Lemma heard_snoc id size l r : heard id size (l ++ [r]) =
  match r with Ble i data _ => if i =? id then data else heard id size l | Usb _ _ => heard id size l end.
Proof. unfold heard. by rewrite foldl_app. Qed.

Section PadProperties.
Context `{KeyPad}.
Variable has_usb : bool.

(** What happens to the pad: a pass of the loop, a key remapped, the USB interface
    coming and going, and the rest of the machine. *)
Inductive pad_event := Pass | Remap (m : list bt_keys_binding) | IfaceReady (b : bool) | Machine (o : os).
Definition pad_step (p : pad) (e : pad_event) : pad :=
  match e with
  | Pass => main_pass has_usb p
  | Remap m => p <| bt_keys_map := m |>
  | IfaceReady b => p <| hid_ready := b |>
  | Machine o => p <| p_os := o |>
  end.
Definition pad_run (es : list pad_event) (p : pad) : pad := foldl pad_step p es.

Lemma pad_run_app es es' p : pad_run (es ++ es') p = pad_run es' (pad_run es p).
Proof. apply foldl_app. Qed.

(** The loops of [next_active]. *)
Lemma last_such (P : nat -> bool) l a :
  let r := foldl (fun a i => if P i then Some i else a) a l in
  (r = a /\ Forall (fun i => P i = false) l) \/ exists i, r = Some i /\ i ∈ l /\ P i = true.
Proof.
  revert a. induction l as [|x l IH]; intros a; cbn; [by left|].
  destruct (P x) eqn:Ex; destruct (IH (if P x then Some x else a)) as [[Hr Hf]|(i & Hr & Hi & Hp)]; rewrite Ex in *.
  - right. exists x. split; [done|]. split; [by left|done].
  - right. exists i. split; [done|]. split; [by right|done].
  - left. split; [done|]. by constructor.
  - right. exists i. split; [done|]. split; [by right|done].
Qed.

(** The key [report_keys] picks: one just pressed if there is one; else the one it
    spoke for while that is held; else a held one; and none if none is held. *)
Lemma next_active_spec m mask prev a :
  (forall i, a = Some i -> (i < BT_KEYS_NUM_KEYS)%nat) ->
  let fresh i := has_bit mask i && negb (has_bit prev i) && is_consumer m i in
  match next_active m mask prev a with
  | None => forall i, (i < BT_KEYS_NUM_KEYS)%nat -> has_bit mask i = true -> is_consumer m i = false
  | Some i => (i < BT_KEYS_NUM_KEYS)%nat /\ has_bit mask i = true /\
      (fresh i = true \/
       (forall j, (j < BT_KEYS_NUM_KEYS)%nat -> fresh j = false) /\ (a = Some i \/ is_consumer m i = true) /\
         (forall k, a = Some k -> has_bit mask k = true -> i = k))
  end.
Proof.
  intros Ha fresh. unfold next_active.
  set (a1 := match a with Some i => if has_bit mask i then Some i else None | None => None end).
  assert (forall i, a1 = Some i -> a = Some i /\ has_bit mask i = true) as Ha1.
  { unfold a1. intros i. destruct a as [k|]; [|done]. destruct (has_bit mask k) eqn:E; [|done]. by intros [= ->]. }
  pose proof (last_such fresh (seq 0 BT_KEYS_NUM_KEYS) a1) as Hl. cbv zeta in Hl.
  change (foldl _ a1 (seq 0 BT_KEYS_NUM_KEYS)) with (foldl (fun a i => if fresh i then Some i else a) a1 (seq 0 BT_KEYS_NUM_KEYS)).
  set (a2 := foldl _ a1 _) in *. cbv zeta. destruct Hl as [[-> Hf]|(i & -> & Hi & Hp)].
  - assert (forall j, (j < BT_KEYS_NUM_KEYS)%nat -> fresh j = false) as Hno.
    { intros j Hj. rewrite Forall_forall in Hf. apply Hf, elem_of_seq. lia. }
    destruct a1 as [i|] eqn:E1.
    + destruct (Ha1 i eq_refl) as [-> Hb]. split; [by apply Ha|]. split; [done|]. right. split; [done|].
      split; [by left|]. by intros k [= ->].
    + destruct (List.find _ _) as [i|] eqn:Ef.
      * apply List.find_some in Ef as [Hi Hb]. apply andb_true_iff in Hb as [Hb Hc]. apply List.in_seq in Hi.
        split; [lia|]. split; [done|]. right. split; [done|]. split; [by right|].
        intros k -> Hk. unfold a1 in E1. by rewrite Hk in E1.
      * intros i Hi Hb. pose proof (List.find_none _ _ Ef i ltac:(apply List.in_seq; lia)) as Hn. cbn in Hn. by rewrite Hb in Hn.
  - unfold fresh in Hp. rewrite !andb_true_iff in Hp. destruct Hp as [[Hb Hn] Hc]. apply elem_of_seq in Hi.
    split; [lia|]. split; [done|]. left. unfold fresh. by rewrite Hb, Hn, Hc.
Qed.

(** The host's picture is that of the last scan. *)
Definition speaks_for (m : list bt_keys_binding) (mask : Z) (a : option nat) : Prop :=
  match a with
  | Some i => (i < BT_KEYS_NUM_KEYS)%nat /\ has_bit mask i = true /\ is_consumer m i = true
  | None => forall i, (i < BT_KEYS_NUM_KEYS)%nat -> has_bit mask i = true -> is_consumer m i = false
  end.
Definition in_step (m : list bt_keys_binding) (p : pad) : Prop :=
  bt_keys_map p = m /\ rk_mask p = scanned p /\ speaks_for m (scanned p) (active p) /\
  prev_kbd p = kbd_codes m (scanned p) /\ prev_consumer p = consumer_usage m (active p) /\
  heard REPORT_ID_KEYBOARD 8 (reports p) = [0; 0] ++ prev_kbd p /\
  heard REPORT_ID_CONSUMER 2 (reports p) = le_bytes 2 (prev_consumer p).

Lemma usb_send_heard id size data p :
  let p' := usb_send data p in
  heard id size (reports p') = heard id size (reports p) /\ bt_keys_map p' = bt_keys_map p /\ prev_kbd p' = prev_kbd p /\
  prev_consumer p' = prev_consumer p /\ rk_mask p' = rk_mask p /\ active p' = active p /\ scanned p' = scanned p.
Proof.
  unfold usb_send. destruct (hid_ready p); cbn [negb]; [|done].
  destruct (hid_device_submit_report _ _) as [err o]. cbn -[heard]. by rewrite heard_snoc.
Qed.
Lemma notify_heard id size data usb p :
  let p1 := hog_send id data p in
  let p' := if has_usb then usb_send usb p1 else p1 in
  heard id size (reports p') = data /\ (forall id' size', id' <> id -> heard id' size' (reports p') = heard id' size' (reports p)) /\
  bt_keys_map p' = bt_keys_map p /\ prev_kbd p' = prev_kbd p /\
  prev_consumer p' = prev_consumer p /\ rk_mask p' = rk_mask p /\ active p' = active p /\ scanned p' = scanned p.
Proof.
  intros p1. assert (heard id size (reports p1) = data /\
    (forall id' size', id' <> id -> heard id' size' (reports p1) = heard id' size' (reports p)) /\
    bt_keys_map p1 = bt_keys_map p /\ prev_kbd p1 = prev_kbd p /\
    prev_consumer p1 = prev_consumer p /\ rk_mask p1 = rk_mask p /\ active p1 = active p /\ scanned p1 = scanned p) as Hp.
  { unfold p1, hog_send. destruct (bt_hids_send_report _ _ _) as [err o]. cbn -[heard]. rewrite heard_snoc, Z.eqb_refl.
    split; [done|]. split; [|done]. intros id' size' Hne. rewrite heard_snoc. by destruct (Z.eqb_spec id id'). }
  destruct has_usb; [|exact Hp]. destruct (usb_send_heard id size usb p1) as (Hh & Hm & Hk & Hc & Hr & Ha & Hs).
  destruct Hp as (Hh1 & Ho1 & Hm1 & Hk1 & Hc1 & Hr1 & Ha1 & Hs1).
  split; [congruence|]. split; [|repeat split; congruence].
  intros id' size' Hne. destruct (usb_send_heard id' size' usb p1) as [-> _]. by apply Ho1.
Qed.

Lemma report_keys_in_step m mask p : in_step m p ->
  let p' := report_keys has_usb mask p in
  in_step m (p' <| scanned := mask |>) /\ active p' = next_active m mask (scanned p) (active p).
Proof.
  intros (Hm & Hr & Hs & Hk & Hc & Hh1 & Hh2). unfold report_keys. rewrite Hm, Hr.
  set (a := next_active _ _ _ _).
  assert (speaks_for m mask a) as Ha.
  { pose proof (next_active_spec m mask (scanned p) (active p)) as Hn. cbv zeta in Hn. fold a in Hn.
    assert (forall i, active p = Some i -> (i < BT_KEYS_NUM_KEYS)%nat) as Hact.
    { intros i E. rewrite E in Hs. by destruct Hs. }
    specialize (Hn Hact). unfold speaks_for. destruct a as [i|] eqn:Ea; [|done].
    destruct Hn as (Hi & Hb & [Hf|(_ & [E|Hc'] & _)]); split; try done; split; try done.
    - by apply andb_true_iff in Hf as [_ ?].
    - rewrite E in Hs. by destruct Hs as (_ & _ & ?). }
  set (p1 := p <| active := a |> <| rk_mask := mask |>).
  set (p2 := if bool_decide (kbd_codes m mask = prev_kbd p1) then p1
             else notify_keyboard has_usb (kbd_codes m mask) (p1 <| prev_kbd := kbd_codes m mask |>)).
  assert (bt_keys_map p2 = m /\ rk_mask p2 = mask /\ active p2 = a /\ prev_kbd p2 = kbd_codes m mask /\
          prev_consumer p2 = prev_consumer p /\ heard REPORT_ID_KEYBOARD 8 (reports p2) = [0; 0] ++ kbd_codes m mask /\
          heard REPORT_ID_CONSUMER 2 (reports p2) = le_bytes 2 (prev_consumer p)) as (Hm2 & Hr2 & Ha2 & Hk2 & Hc2 & Hh & Hh').
  { unfold p2. case_bool_decide as E.
    - change (prev_kbd p1) with (prev_kbd p) in E. rewrite E. exact (conj Hm (conj eq_refl (conj eq_refl (conj eq_refl (conj eq_refl (conj Hh1 Hh2)))))).
    - destruct (notify_heard REPORT_ID_KEYBOARD 8 ([0; 0] ++ kbd_codes m mask) ([REPORT_ID_KEYBOARD; 0; 0] ++ kbd_codes m mask)
                  (p1 <| prev_kbd := kbd_codes m mask |>)) as (A & B & C & D & F & G & I & _).
      unfold notify_keyboard. rewrite A, (B REPORT_ID_CONSUMER 2%nat), C, D, F, G, I by done.
      exact (conj Hm (conj eq_refl (conj eq_refl (conj eq_refl (conj eq_refl (conj eq_refl Hh2)))))). }
  clearbody p2. cbv zeta. destruct (Z.eqb_spec (consumer_usage m a) (prev_consumer p2)) as [E|E].
  - split; [|done]. split; [done|]. split; [done|]. change (active (p2 <| scanned := mask |>)) with (active p2). rewrite Ha2.
    cbn -[speaks_for heard kbd_codes consumer_usage le_bytes]. rewrite Hh, Hh', E, Hc2, Hk2. done.
  - destruct (notify_heard REPORT_ID_CONSUMER 2 (le_bytes 2 (consumer_usage m a)) (REPORT_ID_CONSUMER :: le_bytes 2 (consumer_usage m a))
                (p2 <| prev_consumer := consumer_usage m a |>)) as (A & B & C & D & F & G & I & _).
    unfold notify_consumer. set (p3 := if has_usb then _ else _) in *. split; [|by rewrite I].
    unfold in_step. cbn -[speaks_for heard kbd_codes consumer_usage le_bytes].
    rewrite A, (B REPORT_ID_KEYBOARD 8%nat), C, D, F, G, I by done.
    cbn -[speaks_for heard kbd_codes consumer_usage le_bytes]. rewrite Hm2, Ha2, Hk2, Hh, Hr2. repeat (split; [done|]). done.
Qed.

Lemma in_step_os m o p : in_step m p -> in_step m (p <| p_os := o |>).
Proof. by destruct p. Qed.
Lemma in_step_ready m b p : in_step m p -> in_step m (p <| hid_ready := b |>).
Proof. by destruct p. Qed.
Lemma scan_pass_in_step m p : in_step m p -> in_step m (main_pass has_usb p).
Proof.
  intros Hi. unfold main_pass. destruct (keypad_scan (p_os p)) as [mask o]. change (scanned (p <| p_os := o |>)) with (scanned p).
  pose proof (in_step_os m o p Hi) as Ho. destruct (mask <? 0); [exact Ho|]. destruct (mask =? scanned p); [exact Ho|].
  cbn [orb]. destruct (report_keys_in_step m mask (p <| p_os := o |>) Ho) as [Hr _].
  revert Hr. cbv zeta. generalize (report_keys has_usb mask (p <| p_os := o |>)). intros q Hq. by destruct q.
Qed.

Definition keeps_map (e : pad_event) : bool := match e with Remap _ => false | _ => true end.
Lemma run_in_step m es p : forallb keeps_map es -> in_step m p -> in_step m (pad_run es p).
Proof.
  revert p. induction es as [|e es IH]; intros p Hf Hi; [done|]. cbn in Hf. apply andb_prop_elim in Hf as [He Hf].
  apply (IH _ Hf). destruct e; [by apply scan_pass_in_step|done|by apply in_step_ready|by apply in_step_os].
Qed.
Lemma boot_in_step m o : in_step m (pad_boot m o).
Proof.
  assert (forall i : nat, has_bit 0 i = false) as Hz by done.
  split; [done|]. split; [done|]. split; [intros i _; by rewrite Hz|]. split; [|done].
  unfold kbd_codes. cbn. by rewrite !Hz.
Qed.

Lemma scan_bits_spec raw i : (i < BT_KEYS_NUM_KEYS)%nat ->
  has_bit (scan_bits raw) i = negb (has_bit raw (nth i key_pins O)).
Proof.
  intros Hi. unfold scan_bits. do 4 (destruct i as [|i]; [cbn; by repeat destruct (has_bit raw _)|]).
  unfold BT_KEYS_NUM_KEYS in Hi. lia.
Qed.
Lemma scan_bits_range raw : 0 <= scan_bits raw.
Proof. unfold scan_bits. cbn. by repeat destruct (has_bit raw _). Qed.

Lemma pass_in_step m p raw o' : in_step m p -> port_get_raw (p_os p) = ((0, raw), o') ->
  let p' := main_pass has_usb p in
  in_step m p' /\ scanned p' = scan_bits raw /\
  (active p' = next_active m (scan_bits raw) (scanned p) (active p) \/
   (scan_bits raw = scanned p /\ active p' = active p)).
Proof.
  intros Hp Hraw p'. pose proof (scan_pass_in_step m p Hp) as Hi. fold p' in Hi. split; [done|]. clear Hi. unfold p', main_pass, keypad_scan.
  rewrite Hraw. cbn [fst snd negb Z.eqb]. pose proof (scan_bits_range raw) as Hr.
  destruct (Z.ltb_spec (scan_bits raw) 0); [lia|]. cbn [orb]. change (scanned (p <| p_os := o' |>)) with (scanned p).
  destruct (Z.eqb_spec (scan_bits raw) (scanned p)) as [E|E]; [split; [done|]; by right|].
  destruct (report_keys_in_step m (scan_bits raw) (p <| p_os := o' |>) (in_step_os _ _ _ Hp)) as [_ Hact].
  split; [done|]. left. exact Hact.
Qed.

(** C30: The host's picture after any history with one set of bindings, once the port was
    read: the keyboard report holds the codes of the keyboard keys whose pin is low, in
    the keys' order; the consumer report is empty when no consumer key is down, and else
    speaks for one that is - one just pressed if there is one, else the one it spoke for
    while that is still down.  Whatever came between - failed reads, failed sends, the
    USB interface going away - no key is dropped from or left in what was last sent. *)
Theorem reports_follow_keys m o es raw o' :
  forallb keeps_map es ->
  let p := pad_run es (pad_boot m o) in
  port_get_raw (p_os p) = ((0, raw), o') ->
  let p' := main_pass has_usb p in
  let down i := negb (has_bit raw (nth i key_pins O)) in
  let fresh i := down i && negb (has_bit (scanned p) i) && is_consumer m i in
  let codes := take 6 (map (fun i => u8 (usage (binding_of m i)))
                        (List.filter (fun i => down i && is_keyboard m i) (seq 0 BT_KEYS_NUM_KEYS))) in
  heard REPORT_ID_KEYBOARD 8 (reports p') = [0; 0] ++ codes ++ repeat 0 (6 - length codes) /\
  ((heard REPORT_ID_CONSUMER 2 (reports p') = [0; 0] /\ Forall (fun i => down i && is_consumer m i = false) (seq 0 BT_KEYS_NUM_KEYS)) \/
   exists i, i ∈ seq 0 BT_KEYS_NUM_KEYS /\ down i = true /\ is_consumer m i = true /\
     heard REPORT_ID_CONSUMER 2 (reports p') = le_bytes 2 (usage (binding_of m i)) /\
     (existsb fresh (seq 0 BT_KEYS_NUM_KEYS) = true -> fresh i = true) /\
     (forall k, existsb fresh (seq 0 BT_KEYS_NUM_KEYS) = false -> active p = Some k -> down k = true -> i = k)).
Proof.
  intros Hf p Hraw p' down fresh codes.
  assert (in_step m p) as Hp by (apply run_in_step; [done|apply boot_in_step]).
  destruct (pass_in_step m p raw o' Hp Hraw) as (Hp' & Hs & Ha). fold p' in Hp', Hs, Ha.
  clearbody p'. destruct Hp' as (_ & _ & Hsp & Hk & Hc & Hh1 & Hh2). rewrite Hs in *.
  assert (forall i, (i < BT_KEYS_NUM_KEYS)%nat -> has_bit (scan_bits raw) i = down i) as Hd by (intros; by apply scan_bits_spec).
  split.
  - rewrite Hh1, Hk. unfold kbd_codes, codes.
    rewrite (List.filter_ext_in _ (fun i => down i && is_keyboard m i)); [done|]. intros i Hi%List.in_seq. by rewrite Hd by lia.
  - rewrite Hh2, Hc. unfold speaks_for in Hsp. destruct (active p') as [i|] eqn:Ei.
    + right. destruct Hsp as (Hi & Hb & Hcons). rewrite Hd in Hb by done. exists i. split; [by apply elem_of_seq; lia|].
      split; [done|]. split; [done|]. split; [done|].
      destruct Hp as (_ & _ & Hsp & _).
      assert (forall k, active p = Some k -> (k < BT_KEYS_NUM_KEYS)%nat) as Hlt by (intros k E; rewrite E in Hsp; by destruct Hsp).
      assert (forall k, (k < BT_KEYS_NUM_KEYS)%nat ->
                has_bit (scan_bits raw) k && negb (has_bit (scanned p) k) && is_consumer m k = fresh k) as Hfr
        by (intros; unfold fresh; by rewrite Hd).
      assert ((forall j, (j < BT_KEYS_NUM_KEYS)%nat -> fresh j = false) -> existsb fresh (seq 0 BT_KEYS_NUM_KEYS) = false) as Hnone.
      { intros Hno. destruct (existsb _ _) eqn:E; [|done]. apply existsb_exists in E as (j & Hj%List.in_seq & Hj').
        rewrite Hno in Hj' by lia. done. }
      destruct Ha as [Ha|[E Ha]].
      * pose proof (next_active_spec m (scan_bits raw) (scanned p) (active p) Hlt) as Hn. rewrite <- Ha in Hn. cbv zeta in Hn.
        destruct Hn as (_ & _ & [Hn|(Hno & _ & Hkeep)]).
        -- rewrite Hfr in Hn by done. split; [done|]. intros k He. exfalso. apply not_true_iff_false in He. apply He, existsb_exists.
           exists i. split; [apply List.in_seq; lia|done].
        -- rewrite Hnone by (intros; rewrite <- Hfr by done; by apply Hno). split; [done|]. intros k _ Ek Hdk.
           apply Hkeep; [done|]. by rewrite Hd by by apply Hlt.
      * rewrite Hnone; [split; [done|]; intros k _ Ek _; congruence|]. intros j Hj. unfold fresh.
        rewrite <- Hd, E by done. by destruct (has_bit _ _).
    + left. split; [done|]. apply Forall_forall. intros i Hi%elem_of_seq. destruct (down i) eqn:Ed; [|done].
      apply Hsp; [lia|]. by rewrite Hd by lia.
Qed.
End PadProperties.

(** * On a simulated pad *)

(** The machine is the port's levels; every report is taken. *)
Definition level_os : Os := {| os := Z; k_uptime_get w := (0, w) |}.
Definition level_pad : @KeyPad level_os := {|
  port_get_raw := fun w : @os level_os => ((0, w), w);
  strip_update := fun _ (w : @os level_os) => (0, w);
  bt_hids_send_report := fun _ _ (w : @os level_os) => (0, w);
  hid_device_submit_report := fun _ (w : @os level_os) => (0, w);
|}.
(** The port's levels with these keys down. *)
Definition levels (down : list nat) : @os level_os := foldl (fun v i => Z.lor v (if existsb (Nat.eqb i) down then 0 else BIT (nth i key_pins O))) 0 (seq 0 4).

(** Two media keys and two letters. *)
Definition mixed_map : list bt_keys_binding := [mk_binding 1 182; mk_binding 0 4; mk_binding 1 205; mk_binding 0 5].
Definition down_keys (l : list nat) : list (@pad_event level_os) := [@Machine level_os (levels l); @Pass level_os].

Lemma reports_follow_keys_witness :
  let p := @pad_run _ level_pad true (down_keys [0%nat; 1%nat] ++ [@Machine level_os (levels [0%nat; 1%nat; 2%nat; 3%nat])]) (pad_boot (H := level_os) mixed_map (levels [])) in
  heard REPORT_ID_KEYBOARD 8 (reports (main_pass (H0 := level_pad) true p)) = [0; 0; 4; 5; 0; 0; 0; 0].
Proof.
  intros p.
  exact (proj1 (@reports_follow_keys _ level_pad true mixed_map (levels []) (down_keys [0%nat; 1%nat] ++ [@Machine level_os (levels [0%nat; 1%nat; 2%nat; 3%nat])])
    (levels [0%nat; 1%nat; 2%nat; 3%nat]) (levels [0%nat; 1%nat; 2%nat; 3%nat]) I eq_refl)).
Defined.

(** Rebinding a held media key to a letter: the key keeps the consumer report, and at the
    next change of the keys its new usage - a letter of the keyboard page - goes out
    there as a media command, and in the keyboard report as well. *)
Theorem remapped_key_misreported :
  let p := @pad_run _ level_pad true
             (down_keys [0%nat] ++ [@Remap level_os (<[0%nat := mk_binding BT_KEYS_TYPE_KEYBOARD 4]> mixed_map)] ++ down_keys [0%nat; 3%nat])
             (pad_boot (H := level_os) mixed_map (levels [])) in
  heard REPORT_ID_CONSUMER 2 (reports p) = [4; 0] /\ heard REPORT_ID_KEYBOARD 8 (reports p) = [0; 0; 4; 5; 0; 0; 0; 0] /\
  Forall (fun i => is_consumer (bt_keys_map p) i && has_bit (scanned p) i = false) (seq 0 4).
Proof. split; [reflexivity|]. split; [reflexivity|]. repeat (apply List.Forall_cons; [reflexivity|]). apply List.Forall_nil. Qed.

(** From an empty store, key 2 made the letter b, then a reboot. *)
Definition keys_remapped : list bt_keys_binding * @os sim_os :=
  let '(_, m, w) := @cmd_keys_set sim_os sim_settings (to_chars "2") (to_chars "kbd") (to_chars "0x05") bt_keys_default (sim_boot : @os sim_os) in (m, w).
Lemma keys_runs : @key_runs _ _ sim_settings_laws (fst keys_remapped) (fst keys_remapped) (snd keys_remapped).
Proof.
  refine (@remap _ _ sim_settings_laws bt_keys_default bt_keys_default (sim_boot : @os sim_os) 2 0 5 0 (fst keys_remapped) (snd keys_remapped) _ _ _ _);
    [|lia|lia|reflexivity].
  apply (@first_load _ _ sim_settings_laws (sim_boot : @os sim_os) bt_keys_default (sim_boot : @os sim_os)); [|reflexivity|reflexivity].
  intros rest. apply lookup_empty.
Qed.

Lemma keymap_survives_reboot_witness :
  snd (fst (@bt_keys_load sim_os sim_settings (snd keys_remapped))) = fst keys_remapped /\
  fst keys_remapped !! 2%nat = Some (mk_binding 0 5).
Proof.
  destruct (@keymap_survives_reboot sim_os sim_settings sim_settings_laws _ _ _ keys_runs) as (_ & Hl & _).
  split; [|reflexivity]. exact (Hl _ _ eq_refl).
Defined.

(** A board whose last descriptor alone is refused does not start. *)
Lemma keypad_starts_witness :
  let result b := if bool_decide (b = usbd_add_descriptor 3) then - EINVAL else 0 in
  ~ fst (@pad_start level_os level_pad true (fun b w => (result b, w)) (levels [])) <> None.
Proof.
  intros result H. apply (@keypad_starts level_os level_pad true (fun b w => (result b, w)) result (fun _ _ => eq_refl)) in H.
  repeat (apply Forall_cons_1 in H as [? H]). done.
Defined.
