(* ===== verification/CamMgmt.v ===== *)
(** data_collection: the camera's SMP group and the boot ([data_collection/src]).

    cam_mgmt.c keeps one captured frame checked out of the video buffer pool and serves
    it in place to a client that pages through it; main.c takes the first frame and
    confirms the image.  [frame_lock] makes each stretch of code that holds it one
    step; what other threads do between two such stretches is an argument. *)

From Stdlib Require Import Ascii.
From stdpp Require Import gmap sets.
From S2P Require Import Prelude Platform Services.
Import Watchdog ImgConfirm.
#[local] Open Scope Z_scope.

Definition CAM_MGMT_GROUP_VERSION : Z := 1.
Definition CAM_MGMT_READ_MAX : Z := 1024.
Definition CAPTURE_NBUFS : nat := 2.
Definition CAPTURE_WDT_TIMEOUT_MS : Z := 10000.
Definition CAPTURE_MAX_WIDTH : Z := 1640.
Definition CAPTURE_MAX_HEIGHT : Z := 1232.
Definition BOOT_WDT_TIMEOUT_MS : Z := 60000.

(** * Zephyr's video API and zcbor *)

Record video_format := mk_fmt { pixelformat : Z; width : Z; height : Z; pitch : Z }.
Record video_format_cap := mk_cap { cap_pixelformat : Z; width_max : Z; height_max : Z }.
#[export] Instance eta_fmt : Eta video_format := fun f =>
  mk_fmt (pixelformat f) (width f) (height f) (pitch f).

(** The driver and the buffer pool; a buffer is named by its index in the pool, and
    [frame_bytes] is its memory up to [bytesused].  [video_dequeue] takes its timeout in
    milliseconds, 0 not to wait. *)
Class Camera `{Os} := {
  cam_ready : os -> bool;
  video_get_caps : os -> (Z * list video_format_cap) * os;
  video_bits_per_pixel : Z -> Z;
  video_set_format : video_format -> os -> (Z * video_format) * os;
  video_get_format : video_format -> os -> (Z * video_format) * os;
  video_buffer_aligned_alloc : Z -> os -> option nat * os;
  video_buffer_release : nat -> os -> os;
  video_enqueue : nat -> os -> Z * os;
  video_stream_start : os -> Z * os;
  video_stream_stop : os -> os;
  video_dequeue : Z -> os -> (Z * nat) * os;
  frame_bytes : nat -> os -> list Z;
}.

(** An item of a CBOR map, and what the encoder's buffer still takes. *)
Inductive cbor := Tstr (s : string) | Uint (n : Z) | Bstr (b : list Z) | Bool (b : bool).
Class Zcbor := {
  payload : Type;
  zcbor_map_decode_bulk : list string -> payload -> option (list (option Z));
  room : list cbor -> cbor -> bool;
}.

Inductive mgmt_err := MGMT_ERR_EOK | MGMT_ERR_EUNKNOWN | MGMT_ERR_EINVAL | MGMT_ERR_ENOENT | MGMT_ERR_EMSGSIZE.

Section CamMgmt.
Context `{Camera} `{!TaskWdt} `{!Zcbor}.
(** app_watchdog.c's [wdt_ready]; the devicetree's camera; CONFIG_DCACHE_LINE_SIZE *)
Variable wdt_ready : bool.
Variable cam_name : string.
Variable line_size : Z.

(** cam_mgmt.c's statics. *)
Record cam_mgmt := mk_cam { frame_fmt : video_format; frame_vbuf : option nat; frame_seq : Z; c_os : os }.
#[export] Instance eta_cam_mgmt : Eta cam_mgmt := fun s =>
  mk_cam (frame_fmt s) (frame_vbuf s) (frame_seq s) (c_os s).
Definition cam_boot (o : os) : cam_mgmt := mk_cam (mk_fmt 0 0 0 0) None 0 o.

(** The loop over the capabilities, which end with a zero pixel format. *)
Fixpoint pick_deeper (caps : list video_format_cap) (best_bpp : Z) (fmt : video_format) : Z * video_format :=
  match caps with
  | [] => (best_bpp, fmt)
  | cap :: caps =>
      if cap_pixelformat cap =? 0 then (best_bpp, fmt) else
      let bpp := video_bits_per_pixel (cap_pixelformat cap) in
      if bpp <=? best_bpp then pick_deeper caps best_bpp fmt else
      pick_deeper caps bpp (fmt <| pixelformat := cap_pixelformat cap |>
                         <| width := Z.min (width_max cap) CAPTURE_MAX_WIDTH |>
                         <| height := Z.min (height_max cap) CAPTURE_MAX_HEIGHT |>)
  end.
Definition cam_pick_format (fmt : video_format) (o : os) : (Z * video_format) * os :=
  let '((ret, caps), o) := video_get_caps o in
  if ret <? 0 then ((ret, fmt), o) else
  let '(best_bpp, fmt) := pick_deeper caps 0 fmt in
  if best_bpp =? 0 then ((- ENOTSUP, fmt), o) else ((0, fmt), o).

Definition ROUND_UP (x align : Z) : Z := u32 (u32 (x + (align - 1)) / align * align).

(** [CAPTURE_NBUFS] buffers to the driver. *)
Fixpoint queue_buffers (n : nat) (fmt : video_format) (o : os) : Z * os :=
  match n with
  | O => (0, o)
  | S n =>
      match video_buffer_aligned_alloc (ROUND_UP (u32 (pitch fmt * height fmt)) line_size) o with
      | (None, o) => (- ENOMEM, o)
      | (Some vbuf, o) =>
          let '(ret, o) := video_enqueue vbuf o in
          if ret <? 0 then (ret, video_buffer_release vbuf o) else queue_buffers n fmt o
      end
  end.

(** From the queueing to the label [drain]. *)
Definition take_frame (fmt : video_format) (s : cam_mgmt) : Z * cam_mgmt :=
  let '(ret, o) := queue_buffers CAPTURE_NBUFS fmt (c_os s) in
  if ret <? 0 then (ret, s <| c_os := o |>) else
  let '(ret, o) := video_stream_start o in
  if ret <? 0 then (ret, s <| c_os := o |>) else
  let '((ret, vbuf), o) := video_dequeue 2000 o in
  let s := s <| c_os := o |> in
  if ret <? 0 then (ret, s) else
  (ret, s <| frame_vbuf := Some vbuf |> <| frame_seq := u32 (frame_seq s + 1) |>).

(** The loop that empties the driver; [None] when the fuel does not see it end. *)
Fixpoint drain_driver (fuel : nat) (keep : option nat) (o : os) : option os :=
  match fuel with
  | O => None
  | S fuel =>
      let '((ret, drained), o) := video_dequeue 0 o in
      if negb (ret =? 0) then Some o else
      drain_driver fuel keep (if bool_decide (keep = Some drained) then o else video_buffer_release drained o)
  end.
Definition DRAIN_FUEL : nat := S CAPTURE_NBUFS.

(** The two ways out of [cam_mgmt_capture]. *)
Definition capture_out (wdt_channel : Z) (s : cam_mgmt) : cam_mgmt :=
  s <| c_os ::= app_watchdog_unregister wdt_ready wdt_channel |>.
Definition capture_drain (wdt_channel : Z) (s : cam_mgmt) : option cam_mgmt :=
  o ← drain_driver DRAIN_FUEL (frame_vbuf s) (video_stream_stop (c_os s));
  Some (capture_out wdt_channel (s <| c_os := o |>)).

(** [fmt0] is what the uninitialised local holds. *)
Definition cam_mgmt_capture (fmt0 : video_format) (s : cam_mgmt) : option (Z * cam_mgmt) :=
  let '(ch, o) := app_watchdog_register wdt_ready "capture" CAPTURE_WDT_TIMEOUT_MS (c_os s) in
  let s := s <| c_os := o |> in
  let s := match frame_vbuf s with
           | Some vbuf => s <| c_os ::= video_buffer_release vbuf |> <| frame_vbuf := None |>
           | None => s
           end in
  let '((ret, fmt), o) := cam_pick_format fmt0 (c_os s) in
  let s := s <| c_os := o |> in
  if ret <? 0 then Some (ret, capture_out ch s) else
  let '((ret, fmt), o) := video_set_format fmt (c_os s) in
  let s := s <| c_os := o |> in
  if ret <? 0 then Some (ret, capture_out ch s) else
  let '((ret, fmt), o) := video_get_format fmt (c_os s) in
  let s := s <| c_os := o |> in
  if ret <? 0 then Some (ret, capture_out ch s) else
  let '(ret, s) := take_frame fmt (s <| frame_fmt := fmt |>) in
  s ← capture_drain ch s; Some (ret, s).

(** ** The handlers *)
(** [ok = a && b && ...] over the puts: what is in the buffer, and whether all is. *)
Fixpoint put_all (items : list cbor) (zse : list cbor) : bool * list cbor :=
  match items with
  | [] => (true, zse)
  | c :: items => if room zse c then put_all items (zse ++ [c]) else (false, zse)
  end.
Definition smp_reply (items : list cbor) (zse : list cbor) : mgmt_err * list cbor :=
  let '(ok, zse) := put_all items zse in (if ok then MGMT_ERR_EOK else MGMT_ERR_EMSGSIZE, zse).

Definition cam_h_info (s : cam_mgmt) (zse : list cbor) : mgmt_err * list cbor :=
  smp_reply [Tstr "group"; Uint CAM_MGMT_GROUP_VERSION; Tstr "cam"; Tstr (String.substring 0 32 cam_name);
         Tstr "fmt"; Uint (pixelformat (frame_fmt s)); Tstr "w"; Uint (width (frame_fmt s));
         Tstr "h"; Uint (height (frame_fmt s)); Tstr "ready"; Bool (cam_ready (c_os s))] zse.

(** The reply is built under the lock again, after whatever [others] did. *)
Definition capture_reply (s : cam_mgmt) (zse : list cbor) : mgmt_err * list cbor :=
  match frame_vbuf s with
  | None => (MGMT_ERR_ENOENT, zse)
  | Some vbuf =>
      smp_reply [Tstr "seq"; Uint (frame_seq s); Tstr "size"; Uint (Z.of_nat (length (frame_bytes vbuf (c_os s))));
             Tstr "w"; Uint (width (frame_fmt s)); Tstr "h"; Uint (height (frame_fmt s));
             Tstr "fmt"; Uint (pixelformat (frame_fmt s))] zse
  end.
Definition cam_h_capture (others : cam_mgmt -> cam_mgmt) (fmt0 : video_format) (s : cam_mgmt) (zse : list cbor) : option (mgmt_err * list cbor * cam_mgmt) :=
  '(ret, s) ← cam_mgmt_capture fmt0 s;
  Some (if ret <? 0 then (MGMT_ERR_EUNKNOWN, zse, s)
        else let s := others s in (capture_reply s zse, s)).

(** The chunk a READ of the numbers gives: its offset, bytes and end mark. *)
Definition read_chunk (seq off want : Z) (s : cam_mgmt) : option (Z * list Z * bool) :=
  let want := if (want =? 0) || (CAM_MGMT_READ_MAX <? want) then CAM_MGMT_READ_MAX else want in
  match frame_vbuf s with
  | None => None
  | Some vbuf =>
      if negb (seq =? frame_seq s) then None else
      let frame := frame_bytes vbuf (c_os s) in
      let bytesused := Z.of_nat (length frame) in
      let off := Z.min off bytesused in
      let want := Z.min want (u32 (bytesused - off)) in
      let eof := bytesused <=? u32 (off + want) in
      Some (off, take (Z.to_nat want) (drop (Z.to_nat off) frame), eof)
  end.
Definition cam_h_read (req : payload) (s : cam_mgmt) (zse : list cbor) : mgmt_err * list cbor :=
  match zcbor_map_decode_bulk ["seq"; "off"; "len"]%string req with
  | Some [seq; off; want] =>
      match read_chunk (default 0 seq) (default 0 off) (default CAM_MGMT_READ_MAX want) s with
      | None => (MGMT_ERR_ENOENT, zse)
      | Some (off, data, eof) =>
          smp_reply [Tstr "seq"; Uint (default 0 seq); Tstr "off"; Uint off; Tstr "data"; Bstr data; Tstr "eof"; Bool eof] zse
      end
  | _ => (MGMT_ERR_EINVAL, zse)
  end.

(** The client of the README: [off += len(data)] until [eof]; [None] when it is
    refused or the fuel runs out. *)
Fixpoint pull (fuel : nat) (seq off want : Z) (got : list Z) (s : cam_mgmt) : option (list Z) :=
  match fuel with
  | O => None
  | S fuel =>
      match read_chunk seq off want s with
      | None => None
      | Some (_, data, eof) =>
          if eof then Some (got ++ data) else pull fuel seq (off + Z.of_nat (length data)) want (got ++ data) s
      end
  end.
End CamMgmt.

(** * No buffer is lost, and the drain ends *)

(** The buffers checked out of the pool and those the driver has, and whether the
    stream is stopped; stopping it cancels what is queued, so that a dequeue then fails
    only when nothing is.  [idle] is what the rest of the machine may do. *)
Class CameraLaws `{Camera} `{!TaskWdt} := {
  owned : os -> gset nat;
  queued : os -> gset nat;
  stopped : os -> bool;
  same_pool (o o' : os) : Prop := owned o' = owned o /\ queued o' = queued o;
  idle (o o' : os) : Prop := same_pool o o' /\
    forall b, b ∈ owned o -> b ∉ queued o -> frame_bytes b o' = frame_bytes b o;
  caps_pool : forall o, same_pool o (snd (video_get_caps o));
  set_format_pool : forall f o, same_pool o (snd (video_set_format f o));
  get_format_pool : forall f o, same_pool o (snd (video_get_format f o));
  start_pool : forall o, same_pool o (snd (video_stream_start o));
  stop_pool : forall o, same_pool o (video_stream_stop o) /\ stopped (video_stream_stop o) = true;
  alloc_pool : forall n o r o', video_buffer_aligned_alloc n o = (r, o') -> queued o' = queued o /\
    match r with Some b => b ∉ owned o /\ owned o' = {[b]} ∪ owned o | None => owned o' = owned o end;
  release_pool : forall b o, b ∈ owned o -> b ∉ queued o ->
    owned (video_buffer_release b o) = owned o ∖ {[b]} /\ queued (video_buffer_release b o) = queued o /\
    stopped (video_buffer_release b o) = stopped o;
  enqueue_pool : forall b o r o', video_enqueue b o = (r, o') -> b ∈ owned o -> owned o' = owned o /\
    queued o' = if r <? 0 then queued o else {[b]} ∪ queued o;
  dequeue_pool : forall t o r b o', video_dequeue t o = ((r, b), o') ->
    r <= 0 /\ owned o' = owned o /\ stopped o' = stopped o /\
    (r = 0 -> b ∈ queued o /\ queued o' = queued o ∖ {[b]}) /\
    (r < 0 -> queued o' = queued o /\ (stopped o = true -> queued o = ∅));
  add_pool : forall ms n o, same_pool o (snd (task_wdt_add ms n o));
  delete_pool : forall ch o, same_pool o (task_wdt_delete ch o);
  frame_small : forall b o, Z.of_nat (length (frame_bytes b o)) < 2 ^ 32;
}.

Section PoolProperties.
Context `{CameraLaws}.
Variable wdt_ready : bool.
Variable line_size : Z.

Definition retained (k : option nat) : gset nat := match k with Some b => {[b]} | None => ∅ end.
(** The pool between captures: the retained frame alone is out, and the driver has none. *)
Definition pool_ok (s : cam_mgmt) : Prop :=
  owned (c_os s) = retained (frame_vbuf s) /\ queued (c_os s) = ∅.

Lemma register_pool n ms o : same_pool o (snd (app_watchdog_register wdt_ready n ms o)).
Proof. unfold app_watchdog_register. destruct wdt_ready; cbn [negb]; [apply add_pool|done]. Qed.
Lemma unregister_pool ch o : same_pool o (app_watchdog_unregister wdt_ready ch o).
Proof. unfold app_watchdog_unregister. destruct (_ && _); [apply delete_pool|done]. Qed.

(** What is queued is all that is out, whatever fails. *)
Lemma queue_pool n fmt o r o' : queue_buffers line_size n fmt o = (r, o') -> owned o = queued o ->
  owned o' = queued o' /\ (size (queued o') <= size (queued o) + n)%nat /\ (r < 0 \/ r = 0).
Proof.
  revert o. induction n as [|n IH]; intros o; cbn; intros E Hq; [injection E as <- <-; split; [done|lia]|].
  destruct (video_buffer_aligned_alloc _ o) as [[b|] o1] eqn:Ea; apply alloc_pool in Ea.
  - destruct Ea as (Hq1 & Hb & Ho1). destruct (video_enqueue b o1) as [ret o2] eqn:Ee.
    apply enqueue_pool in Ee as [Ho2 Hq2]; [|rewrite Ho1; set_solver].
    destruct (Z.ltb_spec ret 0) as [Hr|Hr].
    + injection E as <- <-. destruct (release_pool b o2) as (Ho3 & Hq3 & _); [set_solver|set_solver|].
      rewrite Ho3, Hq3, Hq2, Hq1, Ho2, Ho1, Hq in *. split; [clear -Hb; set_solver|]. lia.
    + apply IH in E as (Ha & Hs & Hr'); [|by rewrite Ho2, Hq2, Ho1, Hq1, Hq]. split; [done|]. split; [|done].
      rewrite Hq2, size_union, size_singleton, Hq1 in Hs by set_solver. lia.
  - injection E as <- <-. destruct Ea as [Hq1 Ho1]. rewrite Ho1, Hq1. split; [done|]. split; [lia|]. left. by unfold ENOMEM.
Qed.

(** The drain ends with its fuel and leaves the retained frame alone out. *)
Lemma drain_pool fuel k o : stopped o = true -> owned o = retained k ∪ queued o -> retained k ## queued o ->
  (size (queued o) < fuel)%nat ->
  exists o', drain_driver fuel k o = Some o' /\ owned o' = retained k /\ queued o' = ∅.
Proof.
  revert o. induction fuel as [|fuel IH]; intros o Hs Ho Hd Hf; [lia|]. cbn.
  destruct (video_dequeue 0 o) as [[r b] o1] eqn:E. apply dequeue_pool in E as (Hr & Ho1 & Hs1 & Hok & Hn).
  destruct (Z.eqb_spec r 0) as [->|Hne]; cbn [negb].
  - destruct (Hok eq_refl) as [Hb Hq1]. rewrite bool_decide_eq_false_2 by (intros ->; unfold retained in Hd; set_solver).
    destruct (release_pool b o1) as (Ho2 & Hq2 & Hs2); [set_solver|set_solver|].
    apply IH; [congruence| |set_solver|].
    + rewrite Ho2, Hq2, Ho1, Ho, Hq1. set_solver.
    + rewrite Hq2, Hq1, size_difference, size_singleton by set_solver.
      assert (size (queued o) <> 0%nat) by (intros Hz%size_empty_inv; set_solver). lia.
  - destruct (Hn ltac:(lia)) as [Hq1 He]. specialize (He Hs). exists o1. split; [done|].
    rewrite Ho1, Ho, Hq1, He. clear. split; set_solver.
Qed.

Lemma capture_drain_pool ch s : owned (c_os s) = retained (frame_vbuf s) ∪ queued (c_os s) ->
  retained (frame_vbuf s) ## queued (c_os s) -> (size (queued (c_os s)) < DRAIN_FUEL)%nat ->
  exists s', capture_drain wdt_ready ch s = Some s' /\ pool_ok s' /\ frame_vbuf s' = frame_vbuf s /\
    frame_seq s' = frame_seq s /\ frame_fmt s' = frame_fmt s.
Proof.
  intros Ho Hd Hf. unfold capture_drain. destruct (stop_pool (c_os s)) as [[Ho1 Hq1] Hs1].
  destruct (drain_pool DRAIN_FUEL (frame_vbuf s) (video_stream_stop (c_os s))) as (o' & -> & Ho' & Hq'); [done|by rewrite ?Ho1, ?Hq1..|].
  cbn. eexists. split; [done|]. split; [|done]. destruct (unregister_pool ch o') as [Ho2 Hq2]. split; cbn; congruence.
Qed.

Lemma take_frame_pool fmt s r s' : take_frame line_size fmt s = (r, s') -> pool_ok s -> frame_vbuf s = None ->
  owned (c_os s') = retained (frame_vbuf s') ∪ queued (c_os s') /\ retained (frame_vbuf s') ## queued (c_os s') /\
  (size (queued (c_os s')) < DRAIN_FUEL)%nat /\
  (if r <? 0 then frame_vbuf s' = None /\ frame_seq s' = frame_seq s
   else frame_vbuf s' <> None /\ frame_seq s' = u32 (frame_seq s + 1)).
Proof.
  unfold take_frame. intros E [Ho Hq] Hv. rewrite Hv in Ho.
  destruct (queue_buffers _ _ _ _) as [ret o] eqn:Eq. apply queue_pool in Eq as (Ho1 & Hs1 & Hr1); [|by rewrite Ho, Hq].
  rewrite Hq, size_empty in Hs1.
  destruct (Z.ltb_spec ret 0) as [Hlt|_].
  { injection E as <- <-. destruct (Z.ltb_spec ret 0); [|lia]. cbn. rewrite Hv, Ho1. unfold DRAIN_FUEL. cbn. split; [set_solver|]. split; [set_solver|]. split; [lia|done]. }
  destruct (video_stream_start o) as [ret2 o2] eqn:Es. pose proof (start_pool o) as [Ho2 Hq2]. rewrite Es in Ho2, Hq2. cbn in Ho2, Hq2.
  destruct (Z.ltb_spec ret2 0) as [Hlt|_].
  { injection E as <- <-. destruct (Z.ltb_spec ret2 0); [|lia]. cbn. rewrite Hv, Ho2, Hq2, Ho1. unfold DRAIN_FUEL. cbn. split; [set_solver|]. split; [set_solver|]. split; [lia|done]. }
  destruct (video_dequeue 2000 o2) as [[ret3 b] o3] eqn:Ed. apply dequeue_pool in Ed as (Hr3 & Ho3 & _ & Hok & Hn).
  destruct (Z.ltb_spec ret3 0) as [Hlt|Hge].
  - injection E as <- <-. destruct (Z.ltb_spec ret3 0); [|lia]. destruct (Hn Hlt) as [Hq3 _]. cbn.
    rewrite Hv, Ho3, Hq3, Ho2, Hq2, Ho1. unfold DRAIN_FUEL. cbn. split; [set_solver|]. split; [set_solver|]. split; [lia|done].
  - injection E as <- <-. destruct (Z.ltb_spec ret3 0); [lia|]. destruct (Hok ltac:(lia)) as [Hb Hq3]. cbn.
    rewrite Ho3, Hq3, Ho2, Hq2, Ho1. rewrite Hq2 in Hb. unfold DRAIN_FUEL. split.
    { apply union_difference_L. set_solver. }
    split; [set_solver|]. split; [|done].
    pose proof (subseteq_size (queued o ∖ {[b]}) (queued o) ltac:(set_solver)). lia.
Qed.

Lemma pool_step s o : pool_ok s -> same_pool (c_os s) o -> pool_ok (s <| c_os := o |>).
Proof. intros [Ho Hq] [Ho' Hq']. split; cbn; congruence. Qed.

Lemma capture_pool fmt0 s : pool_ok s ->
  exists ret s', cam_mgmt_capture wdt_ready line_size fmt0 s = Some (ret, s') /\ pool_ok s' /\
    if ret <? 0 then frame_vbuf s' = None /\ frame_seq s' = frame_seq s
    else frame_vbuf s' <> None /\ frame_seq s' = u32 (frame_seq s + 1).
Proof.
  intros [Ho Hq]. unfold cam_mgmt_capture.
  destruct (app_watchdog_register _ _ _ _) as [ch o] eqn:Ew. pose proof (register_pool "capture" CAPTURE_WDT_TIMEOUT_MS (c_os s)) as [Ho1 Hq1].
  rewrite Ew in Ho1, Hq1. cbn [snd] in Ho1, Hq1.
  set (s1 := match frame_vbuf _ with Some _ => _ | None => _ end).
  assert (pool_ok s1 /\ frame_vbuf s1 = None /\ frame_seq s1 = frame_seq s) as (Hp & Hv & Hn).
  { unfold s1. change (frame_vbuf (s <| c_os := o |>)) with (frame_vbuf s). destruct (frame_vbuf s) as [b|] eqn:Ev; cbn in Ho.
    - destruct (release_pool b o) as (Ho2 & Hq2 & _); [set_solver|set_solver|]. split; [|done].
      split; cbn; [rewrite Ho2, Ho1, Ho; set_solver|congruence].
    - split; [|done]. split; cbn; [rewrite Ev|]; cbn in *; congruence. }
  clearbody s1. clear Ho Hq Ho1 Hq1 Ew.
  assert (forall (s2 : cam_mgmt) ret, ret < 0 -> pool_ok s2 -> frame_vbuf s2 = None -> frame_seq s2 = frame_seq s ->
    exists r s', Some (ret, capture_out wdt_ready ch s2) = Some (r, s') /\ pool_ok s' /\
      if r <? 0 then frame_vbuf s' = None /\ frame_seq s' = frame_seq s else frame_vbuf s' <> None /\ frame_seq s' = u32 (frame_seq s + 1)) as Hout.
  { intros s2 ret Hr [Ho Hq] Hv2 Hn2. do 2 eexists. split; [done|]. destruct (unregister_pool ch (c_os s2)) as [Ho2 Hq2].
    split; [split; cbn; congruence|]. by destruct (Z.ltb_spec ret 0); [|lia]. }
  destruct (cam_pick_format fmt0 (c_os s1)) as [[ret fmt1] o1] eqn:E1.
  assert (same_pool (c_os s1) o1) as Hp1.
  { pose proof (caps_pool (c_os s1)) as Hc. unfold cam_pick_format in E1. destruct (video_get_caps _) as [[r caps] o2].
    destruct (r <? 0); [by injection E1 as _ _ <-|]. destruct (pick_deeper _ _ _) as [bpp f]. destruct (bpp =? 0); by injection E1 as _ _ <-. }
  apply (pool_step _ _ Hp) in Hp1. destruct (Z.ltb_spec ret 0); [by apply Hout|].
  destruct (video_set_format fmt1 _) as [[ret2 fmt2] o2] eqn:E2. pose proof (set_format_pool fmt1 o1) as Hp2.
  cbn [c_os] in E2. change (c_os (s1 <| c_os := o1 |>)) with o1 in E2. rewrite E2 in Hp2.
  apply (pool_step _ _ Hp1) in Hp2. destruct (Z.ltb_spec ret2 0); [by apply Hout|].
  destruct (video_get_format fmt2 _) as [[ret3 fmt3] o3] eqn:E3. pose proof (get_format_pool fmt2 o2) as Hp3.
  change (c_os (s1 <| c_os := o1 |> <| c_os := o2 |>)) with o2 in E3. rewrite E3 in Hp3.
  apply (pool_step _ _ Hp2) in Hp3. destruct (Z.ltb_spec ret3 0); [by apply Hout|].
  destruct (take_frame line_size fmt3 _) as [ret4 s4] eqn:E4.
  destruct (take_frame_pool _ _ _ _ E4 Hp3 Hv) as (Ha & Hb & Hc & Hd).
  destruct (capture_drain_pool ch s4 Ha Hb Hc) as (s5 & -> & Hp5 & Hv5 & Hn5 & _). cbn.
  do 2 eexists. split; [done|]. split; [done|]. rewrite Hv5, Hn5, <- Hn. exact Hd.
Qed.

(** ** The frames, over any history *)

(** Captures by any thread, and whatever else goes on between them; with the frames
    captured since the boot. *)
Inductive cam_history : list (list Z) -> cam_mgmt -> Prop :=
| cam_boots o : owned o = ∅ -> queued o = ∅ -> cam_history [] (cam_boot o)
| captures photos s fmt0 ret s' b : cam_history photos s -> cam_mgmt_capture wdt_ready line_size fmt0 s = Some (ret, s') ->
    0 <= ret -> frame_vbuf s' = Some b -> cam_history (photos ++ [frame_bytes b (c_os s')]) s'
| capture_fails photos s fmt0 ret s' : cam_history photos s -> cam_mgmt_capture wdt_ready line_size fmt0 s = Some (ret, s') ->
    ret < 0 -> cam_history photos s'
| meanwhile photos s o : cam_history photos s -> idle (c_os s) o -> cam_history photos (s <| c_os := o |>).

(** The frame served is the last one captured, and its number how many there were. *)
Definition in_view (photos : list (list Z)) (s : cam_mgmt) : Prop :=
  pool_ok s /\ frame_seq s = u32 (Z.of_nat (length photos)) /\
  match frame_vbuf s with Some b => last photos = Some (frame_bytes b (c_os s)) | None => True end.

Lemma runs_in_view photos s : cam_history photos s -> in_view photos s.
Proof.
  induction 1 as [o Ho Hq|photos s fmt0 ret s' b _ (Hp & Hs & _) E Hr Hb|photos s fmt0 ret s' _ (Hp & Hs & _) E Hr|photos s o _ (Hp & Hs & Hv) [Hpool Hk]].
  - by split.
  - destruct (capture_pool fmt0 s Hp) as (r & s1 & E1 & Hp1 & Hout). rewrite E in E1. injection E1 as <- <-.
    destruct (Z.ltb_spec ret 0); [lia|]. destruct Hout as [_ Hn]. split; [done|]. rewrite Hn, Hs, Hb, last_snoc, length_app. split; [|done].
    cbn [length]. word_unfold. rewrite Zplus_mod_idemp_l. f_equal. lia.
  - destruct (capture_pool fmt0 s Hp) as (r & s1 & E1 & Hp1 & Hout). rewrite E in E1. injection E1 as <- <-.
    destruct (Z.ltb_spec ret 0); [|lia]. destruct Hout as [Hv Hn]. split; [done|]. by rewrite Hv, Hn.
  - destruct Hp as [Ho Hq]. split; [by apply pool_step|]. split; [done|]. cbn. destruct (frame_vbuf s) as [b|] eqn:Ev; [|done].
    cbn in Ho. rewrite Hk; [done|rewrite Ho; set_solver|rewrite Hq; set_solver].
Qed.

(** The arithmetic of a chunk, in unbounded numbers. *)
Definition chunk_len (want : Z) : Z := if (want =? 0) || (CAM_MGMT_READ_MAX <? want) then CAM_MGMT_READ_MAX else want.
Lemma chunk_len_range want : 0 <= want -> 1 <= chunk_len want <= CAM_MGMT_READ_MAX.
Proof. intros Hw. unfold chunk_len, CAM_MGMT_READ_MAX in *. destruct (Z.eqb_spec want 0); [cbn; lia|]. destruct (Z.ltb_spec 1024 want); cbn; lia. Qed.
Lemma read_chunk_frame seq off want s b : frame_vbuf s = Some b -> frame_seq s = seq -> 0 <= off -> 0 <= want ->
  let frame := frame_bytes b (c_os s) in
  exists off' n, read_chunk seq off want s = Some (Z.of_nat off', take n (drop off' frame), bool_decide (off' + n = length frame)%nat) /\
    off' = Nat.min (Z.to_nat off) (length frame) /\ n = Nat.min (Z.to_nat (chunk_len want)) (length frame - off').
Proof.
  intros Hv <- Ho Hw frame. unfold read_chunk. rewrite Hv, Z.eqb_refl. cbn [negb]. fold (chunk_len want) frame.
  pose proof (chunk_len_range want Hw) as Hc. unfold CAM_MGMT_READ_MAX in Hc.
  pose proof (frame_small b (c_os s)) as Hf. fold frame in Hf.
  set (n := Nat.min (Z.to_nat (chunk_len want)) (length frame - Nat.min (Z.to_nat off) (length frame))).
  exists (Nat.min (Z.to_nat off) (length frame)), n. split; [|done].
  rewrite !u32_small by lia. f_equal. f_equal; [f_equal; [lia|f_equal; [unfold n; lia|f_equal; lia]]|].
  case_bool_decide; unfold n in *; [apply Z.leb_le|apply Z.leb_gt]; lia.
Qed.

Lemma read_frame photos s seq off want : cam_history photos s -> Z.of_nat (length photos) < 2 ^ 32 ->
  0 <= seq -> 0 <= off -> 0 <= want ->
  match read_chunk seq off want s with
  | None => frame_vbuf s = None \/ seq <> Z.of_nat (length photos)
  | Some (off', data, eof) =>
      seq = Z.of_nat (length photos) /\ exists frame, photos !! pred (Z.to_nat seq) = Some frame /\
        off' = Z.min off (Z.of_nat (length frame)) /\ data = take (length data) (drop (Z.to_nat off) frame) /\
        (length data <= 1024)%nat /\ (data <> [] \/ Z.of_nat (length frame) <= off) /\
        (eof = true <-> off' + Z.of_nat (length data) = Z.of_nat (length frame))
  end.
Proof.
  intros Hr Hl Hs Ho Hw. destruct (runs_in_view _ _ Hr) as (_ & Hn & Hv). rewrite u32_small in Hn by lia.
  destruct (frame_vbuf s) as [b|] eqn:Eb; [|unfold read_chunk; rewrite Eb; by left].
  destruct (decide (seq = frame_seq s)) as [->|Hne].
  2: { unfold read_chunk. rewrite Eb. destruct (Z.eqb_spec seq (frame_seq s)); [done|]. right. congruence. }
  destruct (read_chunk_frame (frame_seq s) off want s b Eb eq_refl Ho Hw) as (o' & n & -> & Ho' & Hn'). split; [done|].
  exists (frame_bytes b (c_os s)). pose proof (chunk_len_range want Hw) as Hc. unfold CAM_MGMT_READ_MAX in Hc.
  set (frame := frame_bytes b (c_os s)) in *.
  assert (length (take n (drop o' frame)) = n) as Hlen by (rewrite length_take, length_drop; lia).
  rewrite Hlen. split; [rewrite Hn, Nat2Z.id, <- last_lookup; done|]. split; [lia|].
  split; [|split; [lia|]].
  - destruct (Nat.le_gt_cases (Z.to_nat off) (length frame)) as [Hle|Hgt]; [by replace o' with (Z.to_nat off) by lia|].
    rewrite !drop_ge by lia. done.
  - split.
    + destruct (Nat.le_gt_cases (length frame) (Z.to_nat off)); [right; lia|]. left. intros E. rewrite E in Hlen. cbn in Hlen. lia.
    + rewrite bool_decide_eq_true. lia.
Qed.
(** C25: Every capture, wherever it fails, returns - the drain's loop included - with no
    buffer lost to the pool and none left with the driver: the one checked out is the
    retained frame.  On success there is one, under the next sequence number; on
    failure the previous frame is gone and the number stands. *)
Theorem capture_keeps_pool fmt0 s : pool_ok s ->
  exists ret s', cam_mgmt_capture wdt_ready line_size fmt0 s = Some (ret, s') /\ pool_ok s' /\
    if ret <? 0 then frame_vbuf s' = None /\ frame_seq s' = frame_seq s
    else frame_vbuf s' <> None /\ frame_seq s' = u32 (frame_seq s + 1).
Proof. apply capture_pool. Qed.

(** READ under a sequence number, at any time of any history shorter than the
    counter: refused unless the number is that of the frame held - the latest capture,
    and a good one - and else that frame's bytes from the offset, clipped to its end, at
    most 1024 of them, at least one unless the end is reached, marked exactly when they
    reach it. *)
Theorem read_serves_capture photos s seq off want : cam_history photos s -> Z.of_nat (length photos) < 2 ^ 32 ->
  0 <= seq -> 0 <= off -> 0 <= want ->
  match read_chunk seq off want s with
  | None => frame_vbuf s = None \/ seq <> Z.of_nat (length photos)
  | Some (off', data, eof) =>
      seq = Z.of_nat (length photos) /\ exists frame, photos !! pred (Z.to_nat seq) = Some frame /\
        off' = Z.min off (Z.of_nat (length frame)) /\ data = take (length data) (drop (Z.to_nat off) frame) /\
        (length data <= 1024)%nat /\ (data <> [] \/ Z.of_nat (length frame) <= off) /\
        (eof = true <-> off' + Z.of_nat (length data) = Z.of_nat (length frame))
  end.
Proof. apply read_frame. Qed.

(** A client pulling a frame by the README's rule while anything goes on: between two
    chunks any later moment of the history, other captures included. *)
Inductive pulls (seq : Z) : list (list Z) -> cam_mgmt -> list Z -> bool -> Prop :=
| pull_starts photos s : cam_history photos s -> pulls seq photos s [] false
| pull_later photos s got fin photos' s' : pulls seq photos s got fin -> cam_history photos' s' ->
    photos `prefix_of` photos' -> pulls seq photos' s' got fin
| pull_chunk photos s got want off' data eof : pulls seq photos s got false -> 0 <= want ->
    read_chunk seq (Z.of_nat (length got)) want s = Some (off', data, eof) -> pulls seq photos s (got ++ data) eof.

Lemma pulls_runs seq photos s got fin : pulls seq photos s got fin -> cam_history photos s.
Proof. by induction 1. Qed.

Lemma pulls_prefix seq photos s got fin : pulls seq photos s got fin -> Z.of_nat (length photos) < 2 ^ 32 -> 0 <= seq ->
  (got = [] /\ fin = false) \/
  exists frame, photos !! pred (Z.to_nat seq) = Some frame /\ got = take (length got) frame /\ (fin = true -> got = frame).
Proof.
  intros Hp Hl Hs. induction Hp as [photos s _|photos s got fin photos' s' _ IH _ Hpre|photos s got want off' data eof Hp IH Hw E].
  - by left.
  - pose proof (prefix_length _ _ Hpre). destruct IH as [?|(frame & Hf & Hg)]; [lia|by left|]. right. exists frame. split; [|done].
    by eapply prefix_lookup_Some.
  - specialize (IH Hl). pose proof (read_frame photos s seq (Z.of_nat (length got)) want (pulls_runs _ _ _ _ _ Hp) Hl Hs ltac:(lia) Hw) as Hr.
    rewrite E in Hr. destruct Hr as (-> & frame & Hf & -> & Hd & _ & _ & He). right. exists frame. split; [done|].
    rewrite Nat2Z.id in Hd.
    assert (got = take (length got) frame) as Hg.
    { destruct IH as [[-> _]|(frame' & Hf' & Hg & _)]; [done|]. congruence. }
    assert (length got <= length frame)%nat as Hlen by (rewrite Hg, length_take; lia).
    assert (got ++ data = take (length (got ++ data)) frame) as Hgd.
    { rewrite length_app, <- take_take_drop, <- Hg, <- Hd. done. }
    split; [done|]. intros ->. destruct He as [He _]. specialize (He eq_refl). rewrite Hgd. apply take_ge. rewrite length_app. lia.
Qed.

(** C24: However a client's pull is interleaved with other clients, INFO, time and other
    captures: when a chunk says the frame is over, what it has put together is the
    captured frame of that number, byte for byte - never a splice of two frames, never
    a frame with a piece missing. *)
Theorem pulled_frame_whole seq photos s frame : pulls seq photos s frame true ->
  Z.of_nat (length photos) < 2 ^ 32 -> 0 <= seq -> photos !! pred (Z.to_nat seq) = Some frame.
Proof.
  intros Hp Hl Hs. destruct (pulls_prefix _ _ _ _ _ Hp Hl Hs) as [[_ Hf]|(fr & Hf & _ & Hg)]; [done|]. by rewrite Hg.
Qed.

Lemma pull_rest fuel want s b got : frame_vbuf s = Some b -> 0 <= want ->
  let frame := frame_bytes b (c_os s) in
  got = take (length got) frame -> (length frame - length got <= S fuel * Z.to_nat (chunk_len want))%nat ->
  pull (S fuel) (frame_seq s) (Z.of_nat (length got)) want got s = Some frame.
Proof.
  intros Hv Hw frame. revert got. induction fuel as [|fuel IH]; intros got Hg Hf;
    assert (length got <= length frame)%nat as Hlen by (rewrite Hg, length_take; lia);
    destruct (read_chunk_frame (frame_seq s) (Z.of_nat (length got)) want s b Hv eq_refl ltac:(lia) Hw) as (o' & n & Er & Ho' & Hn');
    fold frame in Er, Ho', Hn'; rewrite Nat2Z.id in Ho'; assert (o' = length got) as -> by lia; clear Ho';
    assert (got ++ take n (drop (length got) frame) = take (length got + n) frame) as Hgd by (by rewrite <- take_take_drop, <- Hg).
  - cbn [pull]. rewrite Er, bool_decide_eq_true_2 by lia. rewrite Hgd, take_ge by lia. done.
  - change (pull (S (S fuel)) (frame_seq s) (Z.of_nat (length got)) want got s) with
      (match read_chunk (frame_seq s) (Z.of_nat (length got)) want s with
       | None => None
       | Some (_, data, eof) => if eof then Some (got ++ data) else
           pull (S fuel) (frame_seq s) (Z.of_nat (length got) + Z.of_nat (length data)) want (got ++ data) s
       end).
    rewrite Er. case_bool_decide as Hd; [rewrite Hgd, take_ge by lia; done|].
    assert (length (take n (drop (length got) frame)) = n) as Hln by (rewrite length_take, length_drop; lia).
    rewrite <- Nat2Z.inj_add, <- length_app. apply IH.
    + rewrite Hgd at 1. by rewrite length_app, Hln.
    + rewrite length_app, Hln. lia.
Qed.

(** An undisturbed client ends: with any chunk length it asks for, it has the whole
    frame after at most one READ more than the frame's length over the chunk served. *)
Theorem pull_ends photos s want b : cam_history photos s -> Z.of_nat (length photos) < 2 ^ 32 -> frame_vbuf s = Some b -> 0 <= want ->
  let seq := Z.of_nat (length photos) in
  exists frame, last photos = Some frame /\
    pull (S (length frame / Z.to_nat (chunk_len want))) seq 0 want [] s = Some frame.
Proof.
  intros Hr Hl Hb Hw seq. destruct (runs_in_view _ _ Hr) as (_ & Hn & Hv). rewrite u32_small in Hn by lia. rewrite Hb in Hv.
  exists (frame_bytes b (c_os s)). split; [done|]. unfold seq. rewrite <- Hn.
  apply (pull_rest _ want s b []); [done|done|done|].
  pose proof (chunk_len_range want Hw) as Hc. cbn [length].
  pose proof (Nat.mul_succ_div_gt (length (frame_bytes b (c_os s))) (Z.to_nat (chunk_len want)) ltac:(lia)). lia.
Qed.
End PoolProperties.

(** * The format *)

Section FormatProperties.
Context `{Camera} `{!TaskWdt}.

Definition depth (cap : video_format_cap) : Z := video_bits_per_pixel (cap_pixelformat cap).
Definition advertised (caps : list video_format_cap) : list video_format_cap :=
  firstn (default (length caps) (fst <$> list_find (fun c => cap_pixelformat c = 0) caps)) caps.
Definition clamped_fmt (cap : video_format_cap) (fmt : video_format) : video_format :=
  mk_fmt (cap_pixelformat cap) (Z.min (width_max cap) CAPTURE_MAX_WIDTH) (Z.min (height_max cap) CAPTURE_MAX_HEIGHT) (pitch fmt).

Lemma advertised_nil cap caps : cap_pixelformat cap = 0 -> advertised (cap :: caps) = [].
Proof. intros E. unfold advertised. cbn. by rewrite decide_True. Qed.
Lemma advertised_cons cap caps : cap_pixelformat cap <> 0 -> advertised (cap :: caps) = cap :: advertised caps.
Proof.
  intros E. unfold advertised. cbn. rewrite decide_False by done.
  by destruct (list_find _ caps) as [[i x]|].
Qed.

Lemma pick_deepest caps best fmt :
  (Forall (fun c => depth c <= best) (advertised caps) /\ pick_deeper caps best fmt = (best, fmt)) \/
  exists pre cap post, advertised caps = pre ++ cap :: post /\ best < depth cap /\
    Forall (fun c => depth c < depth cap) pre /\ Forall (fun c => depth c <= depth cap) post /\
    pick_deeper caps best fmt = (depth cap, clamped_fmt cap fmt).
Proof.
  revert best fmt. induction caps as [|cap caps IH]; intros best fmt; [by left|].
  cbn [pick_deeper]. destruct (Z.eqb_spec (cap_pixelformat cap) 0) as [E|E].
  - left. by rewrite advertised_nil.
  - rewrite advertised_cons by done. fold (depth cap). destruct (Z.leb_spec (depth cap) best) as [Hle|Hlt].
    + destruct (IH best fmt) as [[Hf ->]|(pre & c & post & -> & Hb & Hpre & Hpost & ->)]; [left; split; [by constructor|done]|].
      right. exists (cap :: pre), c, post. split; [done|]. split; [done|]. split; [|done]. constructor; [lia|done].
    + right. set (fmt1 := fmt <| pixelformat := _ |> <| width := _ |> <| height := _ |>).
      destruct (IH (depth cap) fmt1) as [[Hf ->]|(pre & c & post & -> & Hb & Hpre & Hpost & ->)].
      * exists [], cap, (advertised caps). done.
      * exists (cap :: pre), c, post. split; [done|]. split; [lia|]. split; [by constructor|]. done.
Qed.

(** The format a capture asks for: of those the camera advertises the deepest, and of
    the deepest the first, its size cut to the ceiling; refused exactly when the
    capabilities cannot be read or no advertised format has a depth. *)
Theorem format_deepest fmt0 o ret caps o' : video_get_caps o = ((ret, caps), o') ->
  (forall f, 0 <= video_bits_per_pixel f) -> 0 <= ret ->
  match cam_pick_format fmt0 o with
  | ((r, fmt), _) =>
      (r = 0 /\ exists pre cap post, advertised caps = pre ++ cap :: post /\
         Forall (fun c => depth c < depth cap) pre /\ Forall (fun c => depth c <= depth cap) post /\
         pixelformat fmt = cap_pixelformat cap /\
         width fmt = Z.min (width_max cap) 1640 /\ height fmt = Z.min (height_max cap) 1232) \/
      (r = - ENOTSUP /\ Forall (fun c => depth c = 0) (advertised caps))
  end.
Proof.
  intros E Hd Hr. unfold cam_pick_format. rewrite E. destruct (Z.ltb_spec ret 0); [lia|].
  destruct (pick_deepest caps 0 fmt0) as [[Hf ->]|(pre & cap & post & Ha & Hb & Hpre & Hpost & ->)].
  - right. split; [done|]. eapply Forall_impl; [exact Hf|]. intros c Hc. pose proof (Hd (cap_pixelformat c)). unfold depth in *. lia.
  - destruct (Z.eqb_spec (depth cap) 0); [lia|]. left. split; [done|]. by exists pre, cap, post.
Qed.
End FormatProperties.

(** * main.c *)

(** The network and hawkBit, as [main] sees them. *)
Class Field `{Os} := {
  net_if_ipv4_get_global_addr : os -> bool;   (* whether there is a preferred one *)
  k_sem_take : os -> Z * os;                  (* [ipv4_up], for 30 s *)
  hawkbit_init : os -> Z * os;
  hawkbit_autohandler : os -> os;
}.

Section Main.
Context `{Camera} `{!TaskWdt} `{!Mcuboot} `{!Field}.
(** CONFIG_HAWKBIT, CONFIG_APP_CAM_MGMT, CONFIG_APP_IMG_CONFIRM_TIMEOUT_MS and the
    cache line. *)
Variables has_hawkbit has_cam_mgmt : bool.
Variable timeout_ms line_size : Z.

(** The semaphore after an event; an address is whether it is used and by DHCP. *)
Definition on_ipv4_addr_add (is_addr_add : bool) (unicast : list (bool * bool)) (ipv4_up : Z) : Z :=
  if negb is_addr_add then ipv4_up else
  foldl (fun sem '(is_used, dhcp) => if negb is_used || negb dhcp then sem else Z.min 1 (sem + 1)) ipv4_up unicast.
Definition ipv4_ready (o : os) : bool * os :=
  if net_if_ipv4_get_global_addr o then (true, o) else let '(ret, o) := k_sem_take o in (ret =? 0, o).
Definition start_hawkbit (o : os) : bool * os :=
  if negb has_hawkbit || negb (boot_is_img_confirmed o) then (false, o) else
  let '(ret, o) := hawkbit_init o in
  if ret <? 0 then (false, o) else (true, hawkbit_autohandler o).

(** The first frame: whether [main] goes on after it. *)
Definition first_capture (ready : bool) (fmt0 : video_format) (s : cam_mgmt) : option (bool * cam_mgmt) :=
  if negb (cam_ready (c_os s)) then Some (false, s) else
  if negb has_cam_mgmt then Some (true, s) else
  '(ret, s) ← cam_mgmt_capture ready line_size fmt0 s; Some (ret =? 0, s).
(** The health check's end. *)
Definition confirm_health (ready : bool) (ch : Z) (i : img) : img :=
  let '(up, o) := ipv4_ready (app_watchdog_feed ready ch (i_os i)) in
  let i := i <| i_os := o |> in
  if up then confirm_run [0; 0; 0]%nat i else i.

(** [main]: the image's state, the camera's, and whether hawkBit runs; [None] is a
    capture that does not return. *)
Definition main (fmt0 : video_format) (o : os) : option (img * cam_mgmt * bool) :=
  let '(_, ready, o) := app_watchdog_init false o in
  let '(ch, o) := app_watchdog_register ready "boot" BOOT_WDT_TIMEOUT_MS o in
  let i := app_img_confirm_arm timeout_ms (mk_img false (-1) ready [Outside] o) in
  match first_capture ready fmt0 (cam_boot (app_watchdog_feed ready ch (i_os i))) with
  | None => None
  | Some (ok, s) =>
      let i := i <| i_os := c_os s |> in
      let i := if ok then confirm_health ready ch i else i in
      let '(hb, o) := start_hawkbit (app_watchdog_unregister ready ch (i_os i)) in
      Some (i <| i_os := o |>, s <| c_os := o |>, hb)
  end.
End Main.

(** What is neither the camera's nor the pool's business leaves them alone, and the
    camera leaves the image's flag alone. *)
Class BootLaws `{CameraLaws} `{!Mcuboot} `{!Field} : Prop := {
  flag (o o' : os) : Prop := boot_is_img_confirmed o' = boot_is_img_confirmed o;
  caps_flag : forall o, flag o (snd (video_get_caps o));
  set_format_flag : forall f o, flag o (snd (video_set_format f o));
  get_format_flag : forall f o, flag o (snd (video_get_format f o));
  start_flag : forall o, flag o (snd (video_stream_start o));
  stop_flag : forall o, flag o (video_stream_stop o);
  alloc_flag : forall n o, flag o (snd (video_buffer_aligned_alloc n o));
  release_flag : forall b o, flag o (video_buffer_release b o);
  enqueue_flag : forall b o, flag o (snd (video_enqueue b o));
  dequeue_flag : forall t o, flag o (snd (video_dequeue t o));
  init_flag : forall hw o, flag o (snd (task_wdt_init hw o));
  feed_flag : forall ch o, flag o (task_wdt_feed ch o);
  sem_flag : forall o, flag o (snd (k_sem_take o));
  hawkbit_init_flag : forall o, flag o (snd (hawkbit_init o));
  autohandler_flag : forall o, flag o (hawkbit_autohandler o);
  init_pool : forall hw o, same_pool o (snd (task_wdt_init hw o));
  feed_pool : forall ch o, same_pool o (task_wdt_feed ch o);
  write_pool : forall o, same_pool o (snd (boot_write_img_confirmed o));
  sem_pool : forall o, same_pool o (snd (k_sem_take o));
  hawkbit_init_pool : forall o, same_pool o (snd (hawkbit_init o));
  autohandler_pool : forall o, same_pool o (hawkbit_autohandler o);
  hawkbit_init_armed : forall o k, armed (snd (hawkbit_init o)) k = armed o k;
  autohandler_armed : forall o k, armed (hawkbit_autohandler o) k = armed o k;
}.

Section BootProperties.
Context `{!Os} `{!Camera} `{!TaskWdt} `{!CameraLaws} `{!Mcuboot} `{!Field} `{!BootLaws} `{!McubootLaws} `{!TaskWdtLaws}.
Variables has_hawkbit has_cam_mgmt : bool.
Variable timeout_ms line_size : Z.

Lemma register_flag ready n ms o : flag o (snd (app_watchdog_register ready n ms o)).
Proof. unfold app_watchdog_register. destruct ready; cbn [negb]; [apply add_keeps_confirmed|done]. Qed.
Lemma unregister_flag ready ch o : flag o (app_watchdog_unregister ready ch o).
Proof. unfold app_watchdog_unregister. destruct (_ && _); [apply delete_keeps_confirmed|done]. Qed.
Lemma fed_flag ready ch o : flag o (app_watchdog_feed ready ch o).
Proof. unfold app_watchdog_feed. destruct (_ && _); [apply feed_flag|done]. Qed.
Lemma fed_pool ready ch o : same_pool o (app_watchdog_feed ready ch o).
Proof. unfold app_watchdog_feed. destruct (_ && _); [apply feed_pool|done]. Qed.

Lemma queue_flag n fmt o : flag o (snd (queue_buffers line_size n fmt o)).
Proof.
  revert o. induction n as [|n IH]; intros o; cbn; [done|].
  pose proof (alloc_flag (ROUND_UP (u32 (pitch fmt * height fmt)) line_size) o) as Ha.
  destruct (video_buffer_aligned_alloc _ o) as [[b|] o1]; [|done].
  pose proof (enqueue_flag b o1) as He. destruct (video_enqueue b o1) as [r o2]. unfold flag in *. cbn in *.
  destruct (r <? 0); cbn; [rewrite release_flag|rewrite IH]; congruence.
Qed.
Lemma drain_flag fuel k o o' : drain_driver fuel k o = Some o' -> flag o o'.
Proof.
  revert o. induction fuel as [|fuel IH]; intros o; cbn; [done|].
  pose proof (dequeue_flag 0 o) as Hd. destruct (video_dequeue 0 o) as [[r b] o1]. unfold flag in *. cbn in Hd.
  destruct (negb _); [intros [= <-]; congruence|]. intros E%IH. rewrite E.
  case_bool_decide; [done|]. by rewrite release_flag.
Qed.
Lemma take_frame_flag fmt s : flag (c_os s) (c_os (snd (take_frame line_size fmt s))).
Proof.
  unfold take_frame. pose proof (queue_flag CAPTURE_NBUFS fmt (c_os s)) as Hq. destruct (queue_buffers _ _ _ _) as [r o].
  destruct (r <? 0); [done|]. pose proof (start_flag o) as Hs. destruct (video_stream_start o) as [r2 o2].
  unfold flag in *. cbn in *. destruct (r2 <? 0); [cbn; congruence|].
  pose proof (dequeue_flag 2000 o2) as Hd. destruct (video_dequeue 2000 o2) as [[r3 b] o3]. unfold flag in *. cbn in *.
  destruct (r3 <? 0); cbn; congruence.
Qed.
Lemma capture_drain_flag ready ch s s' : capture_drain ready ch s = Some s' -> flag (c_os s) (c_os s').
Proof.
  unfold capture_drain. destruct (drain_driver _ _ _) as [o|] eqn:E; [|done]. intros [= <-]. apply drain_flag in E.
  unfold capture_out, flag in *. cbn. rewrite unregister_flag. rewrite E. apply stop_flag.
Qed.
Lemma pick_flag fmt0 o : flag o (snd (cam_pick_format fmt0 o)).
Proof.
  unfold cam_pick_format. pose proof (caps_flag o) as Hc. destruct (video_get_caps o) as [[r caps] o1].
  destruct (r <? 0); [done|]. destruct (pick_deeper _ _ _) as [b f]. by destruct (b =? 0).
Qed.
Lemma capture_flag ready fmt0 s ret s' : cam_mgmt_capture ready line_size fmt0 s = Some (ret, s') -> flag (c_os s) (c_os s').
Proof.
  unfold cam_mgmt_capture. pose proof (register_flag ready "capture" CAPTURE_WDT_TIMEOUT_MS (c_os s)) as Hw.
  destruct (app_watchdog_register _ _ _ _) as [ch o]. unfold flag in *. cbn [snd] in Hw.
  set (s1 := match frame_vbuf _ with Some _ => _ | None => _ end).
  assert (boot_is_img_confirmed (c_os s1) = boot_is_img_confirmed (c_os s)) as Hs1.
  { rewrite <- Hw. unfold s1. cbn. destruct (frame_vbuf s); cbn; [apply release_flag|done]. }
  clearbody s1.
  assert (forall (s2 : cam_mgmt) r, boot_is_img_confirmed (c_os s2) = boot_is_img_confirmed (c_os s) ->
            Some (r, capture_out ready ch s2) = Some (ret, s') -> boot_is_img_confirmed (c_os s') = boot_is_img_confirmed (c_os s)) as Hout.
  { intros s2 r Hs2 [= _ <-]. cbn. by rewrite unregister_flag. }
  pose proof (pick_flag fmt0 (c_os s1)) as Hp. destruct (cam_pick_format _ _) as [[r1 f1] o1]. unfold flag in Hp. cbn in Hp. cbn -[capture_drain].
  destruct (r1 <? 0); [apply Hout; cbn; congruence|].
  pose proof (set_format_flag f1 o1) as Hs. destruct (video_set_format _ _) as [[r2 f2] o2]. unfold flag in Hs. cbn in Hs. cbn -[capture_drain].
  destruct (r2 <? 0); [apply Hout; cbn; congruence|].
  pose proof (get_format_flag f2 o2) as Hg. destruct (video_get_format _ _) as [[r3 f3] o3]. unfold flag in Hg. cbn in Hg. cbn -[capture_drain].
  destruct (r3 <? 0); [apply Hout; cbn; congruence|].
  set (s3 := mk_cam _ _ _ _). pose proof (take_frame_flag f3 s3) as Ht. destruct (take_frame _ _ _) as [r4 s4]. unfold flag in Ht. cbn in Ht.
  destruct (capture_drain ready ch s4) as [s5|] eqn:Ed; [|done]. intros [= _ <-]. apply capture_drain_flag in Ed. unfold flag in Ed. congruence.
Qed.

Lemma same_pool_trans a b c : same_pool a b -> same_pool b c -> same_pool a c.
Proof. intros [O1 Q1] [O2 Q2]. split; congruence. Qed.

Lemma confirm_pool steps i : same_pool (i_os i) (i_os (confirm_run steps i)).
Proof.
  revert i. induction steps as [|n steps IH]; intros i; [done|]. eapply same_pool_trans; [|apply (IH (confirm_step n i))].
  unfold confirm_step. destruct (callers i !! n) as [[| |r]|]; [by destruct (confirmed i)| | |done].
  - pose proof (write_pool (i_os i)) as Hw. by destruct (boot_write_img_confirmed _).
  - cbn. destruct (negb _); [done|]. apply unregister_pool.
Qed.
Lemma ipv4_kept o : same_pool o (snd (ipv4_ready o)) /\ flag o (snd (ipv4_ready o)).
Proof.
  unfold ipv4_ready. destruct (net_if_ipv4_get_global_addr o); [done|].
  pose proof (sem_pool o) as Hp. pose proof (sem_flag o) as Hf. by destruct (k_sem_take o).
Qed.
Lemma health_kept ready ch i : same_pool (i_os i) (i_os (confirm_health ready ch i)) /\
  (boot_is_img_confirmed (i_os (confirm_health ready ch i)) = true ->
   boot_is_img_confirmed (i_os i) = true \/ fst (ipv4_ready (app_watchdog_feed ready ch (i_os i))) = true).
Proof.
  unfold confirm_health. pose proof (fed_pool ready ch (i_os i)) as Hp. pose proof (fed_flag ready ch (i_os i)) as Hf.
  destruct (ipv4_kept (app_watchdog_feed ready ch (i_os i))) as [Hp1 Hf1]. destruct (ipv4_ready _) as [up o1]. cbn in Hp1, Hf1.
  pose proof (same_pool_trans _ _ _ Hp Hp1) as Hp2. destruct up; cbn [fst].
  - split; [|by right]. eapply same_pool_trans; [exact Hp2|]. pose proof (confirm_pool [0; 0; 0]%nat (i <| i_os := o1 |>)) as [Ha Hb]. by split.
  - split; [done|]. cbn. unfold flag in *. left. congruence.
Qed.
Lemma start_hawkbit_kept o : let r := start_hawkbit has_hawkbit o in
  same_pool o (snd r) /\ flag o (snd r) /\ (forall k, armed (snd r) k = armed o k) /\
  (fst r = true -> has_hawkbit = true /\ boot_is_img_confirmed o = true).
Proof.
  unfold start_hawkbit. destruct has_hawkbit; [|done]. destruct (boot_is_img_confirmed o) eqn:Ec; [|done]. cbn.
  pose proof (hawkbit_init_pool o) as Hp. pose proof (hawkbit_init_flag o) as Hf. pose proof (hawkbit_init_armed o) as Ha.
  destruct (hawkbit_init o) as [r o1]. cbn in *. destruct (r <? 0); [done|]. cbn.
  split; [eapply same_pool_trans; [done|apply autohandler_pool]|]. split; [unfold flag in *; by rewrite autohandler_flag|].
  split; [|done]. intros k. by rewrite autohandler_armed.
Qed.
Lemma first_capture_kept ready fmt0 o : owned o = ∅ -> queued o = ∅ ->
  exists ok s, first_capture has_cam_mgmt line_size ready fmt0 (cam_boot o) = Some (ok, s) /\ pool_ok s /\ flag o (c_os s) /\
    (ok = true -> cam_ready o = true /\ (has_cam_mgmt = true -> frame_vbuf s <> None /\ frame_seq s = 1)).
Proof.
  intros Ho Hq. unfold first_capture. cbn [c_os cam_boot]. destruct (cam_ready o); cbn [negb]; [|by do 2 eexists].
  destruct has_cam_mgmt; cbn [negb]; [|by do 2 eexists].
  destruct (capture_pool ready line_size fmt0 (cam_boot o)) as (ret & s & E & Hp & Hr); [by split|].
  rewrite E. do 2 eexists. split; [done|]. split; [done|]. split; [exact (capture_flag _ _ _ _ _ E)|].
  intros ->%Z.eqb_eq. split; [done|]. intros _. cbn in Hr. exact Hr.
Qed.

Lemma init_kept o : same_pool o (snd (app_watchdog_init false o)) /\ flag o (snd (app_watchdog_init false o)).
Proof.
  unfold app_watchdog_init. set (hw := match hw_device o with Some true => true | _ => false end).
  pose proof (init_pool hw o) as Hp. pose proof (init_flag hw o) as Hf. destruct (task_wdt_init hw o) as [r o1]. cbn in Hp, Hf.
  pose proof (init_pool false o1) as Hp'. pose proof (init_flag false o1) as Hf'. unfold flag in *.
  destruct (negb (r =? 0) && hw); [destruct (task_wdt_init false o1) as [r2 o2]; cbn in Hp', Hf'; destruct (negb (r2 =? 0))|destruct (negb (r =? 0))];
    cbn; split; try done; try congruence; by eapply same_pool_trans.
Qed.
Lemma arm_kept i : same_pool (i_os i) (i_os (app_img_confirm_arm timeout_ms i)) /\ flag (i_os i) (i_os (app_img_confirm_arm timeout_ms i)).
Proof.
  unfold app_img_confirm_arm. destruct (boot_is_img_confirmed (i_os i)); [done|].
  pose proof (register_pool (wdt_ready i) "img_confirm" timeout_ms (i_os i)) as Hp. pose proof (register_flag (wdt_ready i) "img_confirm" timeout_ms (i_os i)) as Hf.
  by destruct (app_watchdog_register _ _ _ _).
Qed.
(** What follows the first capture. *)
Lemma boot_end_kept ready ch (ok : bool) i :
  let i2 := if ok then confirm_health ready ch i else i in
  let '(hb, o) := start_hawkbit has_hawkbit (app_watchdog_unregister ready ch (i_os i2)) in
  same_pool (i_os i) o /\ (ready = true -> 0 <= ch -> armed o ch = false) /\
  (boot_is_img_confirmed o = true -> boot_is_img_confirmed (i_os i) = true \/
     ok = true /\ fst (ipv4_ready (app_watchdog_feed ready ch (i_os i))) = true) /\
  (hb = true -> boot_is_img_confirmed o = true).
Proof.
  intros i2.
  assert (same_pool (i_os i) (i_os i2) /\ (boot_is_img_confirmed (i_os i2) = true -> boot_is_img_confirmed (i_os i) = true \/
           ok = true /\ fst (ipv4_ready (app_watchdog_feed ready ch (i_os i))) = true)) as [Hp5 Hc5].
  { unfold i2. destruct ok; [|split; [done|by left]]. destruct (health_kept ready ch i) as [Hp Hc]. split; [done|].
    intros Hx. destruct (Hc Hx); [by left|by right]. }
  clearbody i2. pose proof (unregister_pool ready ch (i_os i2)) as Hp6. pose proof (unregister_flag ready ch (i_os i2)) as Hf6.
  assert (ready = true -> 0 <= ch -> armed (app_watchdog_unregister ready ch (i_os i2)) ch = false) as Hdis.
  { intros -> Hch. unfold app_watchdog_unregister. destruct (Z.leb_spec 0 ch); [cbn|lia]. by rewrite delete_disarms, Z.eqb_refl. }
  destruct (start_hawkbit_kept (app_watchdog_unregister ready ch (i_os i2))) as (Hp7 & Hf7 & Ha7 & Hh7).
  destruct (start_hawkbit _ _) as [hb o]. cbn in Hp7, Hf7, Ha7, Hh7. unfold flag in *. split.
  { eapply same_pool_trans; [exact Hp5|]. by eapply same_pool_trans. }
  split; [intros; rewrite Ha7; auto|]. rewrite Hf7, Hf6. split; [done|]. intros E. rewrite <- Hf6. by apply Hh7.
Qed.

(** The boot of an image on trial.  [main] returns, with the buffer pool in order and
    its watchdog channel gone.  The image has been confirmed only if the camera was
    ready, gave a first frame that is still there to be read, and the interface had its
    IPv4 lease; hawkBit, which would reboot an image that is not, runs only on one that
    is. *)
Theorem boot_confirms_healthy fmt0 o : owned o = ∅ -> queued o = ∅ -> boot_is_img_confirmed o = false ->
  let '(_, ready, o1) := app_watchdog_init false o in
  let '(ch, o2) := app_watchdog_register ready "boot" BOOT_WDT_TIMEOUT_MS o1 in
  let o3 := app_watchdog_feed ready ch (i_os (app_img_confirm_arm timeout_ms (mk_img false (-1) ready [Outside] o2))) in
  exists i s hb ok s1, main has_hawkbit has_cam_mgmt timeout_ms line_size fmt0 o = Some (i, s, hb) /\
    first_capture has_cam_mgmt line_size ready fmt0 (cam_boot o3) = Some (ok, s1) /\
    frame_vbuf s = frame_vbuf s1 /\ frame_seq s = frame_seq s1 /\ pool_ok s /\
    (ready = true -> 0 <= ch -> armed (c_os s) ch = false) /\
    (boot_is_img_confirmed (c_os s) = true ->
       cam_ready o3 = true /\ (has_cam_mgmt = true -> frame_vbuf s <> None /\ frame_seq s = 1) /\
       fst (ipv4_ready (app_watchdog_feed ready ch (c_os s1))) = true) /\
    (hb = true -> boot_is_img_confirmed (c_os s) = true).
Proof.
  intros Ho Hq Ht. unfold main. destruct (init_kept o) as [Hp1 Hf1].
  destruct (app_watchdog_init false o) as [[r ready] o1]. cbn in Hp1, Hf1.
  pose proof (register_pool ready "boot" BOOT_WDT_TIMEOUT_MS o1) as Hp2. pose proof (register_flag ready "boot" BOOT_WDT_TIMEOUT_MS o1) as Hf2.
  destruct (app_watchdog_register _ _ _ _) as [ch o2]. cbn in Hp2, Hf2.
  destruct (arm_kept (mk_img false (-1) ready [Outside] o2)) as [Hp3 Hf3]. set (i0 := app_img_confirm_arm _ _) in *. clearbody i0.
  set (o3 := app_watchdog_feed ready ch (i_os i0)).
  assert (same_pool o o3) as [Ho3 Hq3].
  { do 3 (eapply same_pool_trans; [eassumption|]). apply fed_pool. }
  assert (boot_is_img_confirmed o3 = false) as Ht3.
  { unfold flag, o3 in *. rewrite fed_flag. cbn in Hf3. congruence. }
  destruct (first_capture_kept ready fmt0 o3) as (ok & s1 & E & [Hs1 Hs2] & Hf4 & Hok); [congruence..|]. rewrite E. unfold flag in Hf4.
  pose proof (boot_end_kept ready ch ok (i0 <| i_os := c_os s1 |>)) as Hend. cbv zeta in Hend.
  change (i_os (i0 <| i_os := c_os s1 |>)) with (c_os s1) in Hend.
  destruct (start_hawkbit _ _) as [hb o4]. destruct Hend as ([Ho4 Hq4] & Hd & Hc & Hh).
  do 5 eexists. split; [done|]. split; [done|]. split; [done|]. split; [done|]. split; [split; cbn; congruence|].
  split; [exact Hd|]. split; [|exact Hh]. intros Hx. destruct (Hc Hx) as [Hy|[-> Hu]]; [congruence|].
  destruct (Hok eq_refl) as [Hrd Hfr]. done.
Qed.
End BootProperties.

(** * A simulated camera *)
Module Studio.

(** The buffers out and those with the driver, the memory, what the sensor gives next
    ([None] is a timeout), the channels watched, the image's flag, and the lease. *)
Record studio := mk_studio {
  out : gset nat; driver : gset nat; is_stopped : bool; mem : gmap nat (list Z);
  scene : list (option (list Z)); dogs : gset Z; good : bool; lease : bool;
}.
#[local] Instance eta_studio : Eta studio := fun s =>
  mk_studio (out s) (driver s) (is_stopped s) (mem s) (scene s) (dogs s) (good s) (lease s).

Definition dequeue (w : studio) : (Z * nat) * studio :=
  match elements (driver w) with
  | [] => ((- EBUSY, O), w)
  | b :: _ =>
      if is_stopped w then ((0, b), w <| driver ::= fun d => d ∖ {[b]} |>) else
      match scene w with
      | Some f :: rest => ((0, b), w <| driver ::= fun d => d ∖ {[b]} |> <| mem ::= <[b := f]> |> <| scene := rest |>)
      | None :: rest => ((- EBUSY, O), w <| scene := rest |>)
      | [] => ((- EBUSY, O), w)
      end
  end.

#[local] Instance studio_os : Os := {| os := studio; k_uptime_get w := (0, w) |}.
#[local] Instance studio_camera : Camera := {|
  cam_ready := fun _ => true;
  video_get_caps := fun w => ((0, [mk_cap 8 3280 2464; mk_cap 10 3280 2464; mk_cap 110 640 480; mk_cap 0 0 0; mk_cap 16 1 1]), w);
  video_bits_per_pixel := fun f => f mod 100;
  video_set_format := fun f w => ((0, f <| pitch := 4 |>), w);
  video_get_format := fun f w => ((0, f), w);
  video_buffer_aligned_alloc := fun _ w =>
    if (size (out w) <? 3)%nat then (Some (fresh (out w)), w <| out ::= fun s => {[fresh (out w)]} ∪ s |>) else (None, w);
  video_buffer_release := fun b w => w <| out ::= fun s => s ∖ {[b]} |>;
  video_enqueue := fun b w => (0, w <| driver ::= fun s => {[b]} ∪ s |>);
  video_stream_start := fun w => (0, w <| is_stopped := false |>);
  video_stream_stop := fun w => w <| is_stopped := true |>;
  video_dequeue := fun _ w => dequeue w;
  frame_bytes := fun b w => take 4096 (default [] (mem w !! b));
|}.
#[local] Instance studio_wdt : TaskWdt := {|
  hw_device _ := Some true;
  task_wdt_init _ w := (0, w);
  task_wdt_add _ _ w := (7, w <| dogs ::= fun s => {[7]} ∪ s |>);
  task_wdt_delete ch w := w <| dogs ::= fun s => s ∖ {[ch]} |>;
  task_wdt_feed _ w := w;
  armed w k := bool_decide (k ∈ dogs w);
|}.
#[local] Instance studio_wdt_laws : TaskWdtLaws.
Proof.
  split.
  - intros ms n o ch o' [= <- <-] _. cbn. apply bool_decide_eq_true. set_solver.
  - intros ch o k. cbn. destruct (Z.eqb_spec k ch) as [->|]; [apply bool_decide_eq_false; set_solver|].
    apply bool_decide_ext. set_solver.
Qed.
#[local] Instance studio_laws : CameraLaws.
Proof.
  refine {| owned := out : os -> gset nat; queued := driver : os -> gset nat; stopped := is_stopped : os -> bool |}; try done.
  - intros n o r o1 E. cbn in E. destruct (size (out o) <=? 2)%nat; injection E as <- <-; [|done].
    split; [done|]. split; [apply is_fresh|done].
  - intros b o r o' [= <- <-] _. done.
  - intros t o r b o'. cbn. unfold dequeue. destruct (elements (driver o)) as [|x l] eqn:E.
    { apply elements_empty_inv in E. apply leibniz_equiv in E. intros [= <- _ <-]. split; [done|]. split; [done|]. split; [done|]. split; [done|]. done. }
    assert (x ∈ driver o) as Hx by (apply elem_of_elements; rewrite E; by left).
    destruct (is_stopped o) eqn:Es; [by intros [= <- <- <-]|].
    destruct (scene o) as [|[f|] rest]; intros [= <- <- <-]; cbn; rewrite ?Es; by repeat split.
  - intros b o. cbn. rewrite length_take. lia.
Defined.
#[local] Instance studio_mcuboot : Mcuboot := {|
  boot_is_img_confirmed := good;
  boot_write_img_confirmed w := (0, w <| good := true |>);
|}.
#[local] Instance studio_mcuboot_laws : McubootLaws.
Proof.
  split.
  - by intros o o' [= <-].
  - by intros o r o' k [= _ <-].
  - by intros o r o' [= _ <-] _.
  - done.
  - done.
Qed.
#[local] Instance studio_field : Field := {|
  net_if_ipv4_get_global_addr _ := false;
  k_sem_take w := (if lease w then 0 else - EBUSY, w);
  hawkbit_init w := (0, w);
  hawkbit_autohandler w := w;
|}.
#[local] Instance studio_boot : BootLaws.
Proof.
  split; try done.
  - intros n o. cbn. by destruct (size (out o) <=? 2)%nat.
  - intros t o. unfold flag. cbn. unfold dequeue. destruct (elements (driver o)); [done|]. destruct (is_stopped o); [done|].
    by destruct (scene o) as [|[f|] rest].
Qed.

Definition junk : video_format := mk_fmt 77 77 77 77.
Notation dark l := (mk_studio ∅ ∅ true ∅ l ∅ false true : @os studio_os).
Definition cam_after (r : option (Z * @cam_mgmt studio_os)) : @cam_mgmt studio_os := match r with Some (_, s) => s | None => cam_boot (dark []) end.

(** A frame, a timeout, and another frame. *)
Definition five : list Z := [1; 2; 3; 4; 5].
Definition three : list Z := [6; 7; 8].
Notation set_up := (cam_boot (dark [Some five; None; Some three])).
Notation shot s := (cam_after (cam_mgmt_capture true 32 junk s)).
Definition shot1 : @cam_mgmt studio_os := Eval vm_compute in shot set_up.
Definition shot2 : @cam_mgmt studio_os := Eval vm_compute in shot shot1.
Definition shot3 : @cam_mgmt studio_os := Eval vm_compute in shot shot2.
Lemma runs1 : cam_history true 32 [five] shot1.
Proof. refine (captures true 32 [] set_up junk 0 shot1 1 _ _ _ _); [by apply cam_boots|by vm_compute|done|by vm_compute]. Qed.
Lemma runs2 : cam_history true 32 [five] shot2.
Proof. refine (capture_fails true 32 [five] shot1 junk (- EBUSY) shot2 runs1 _ _); [by vm_compute|done]. Qed.
Lemma runs3 : cam_history true 32 [five; three] shot3.
Proof. refine (captures true 32 [five] shot2 junk 0 shot3 1 runs2 _ _ _); [by vm_compute|done|by vm_compute]. Qed.

Lemma capture_keeps_pool_witness : pool_ok set_up /\
  exists ret s', cam_mgmt_capture true 32 junk set_up = Some (ret, s') /\ pool_ok s'.
Proof.
  assert (pool_ok set_up) as Hp by done. split; [exact Hp|].
  destruct (capture_keeps_pool true 32 junk set_up Hp) as (ret & s' & E & Hs & _). by exists ret, s'.
Defined.

(** After the timeout and before the second frame the first is gone: its number is
    refused; and the second is served under the next. *)
Lemma read_serves_capture_witness :
  read_chunk 1 0 0 shot2 = None /\ read_chunk 1 0 0 shot3 = None /\ read_chunk 2 1 1 shot3 = Some (1, [7], false) /\
  exists frame, [five; three] !! 1%nat = Some frame /\ [7] = take 1 (drop 1 frame).
Proof.
  split; [by vm_compute|]. split; [by vm_compute|]. split; [by vm_compute|].
  pose proof (read_serves_capture true 32 [five; three] shot3 2 1 1 runs3 ltac:(by vm_compute) ltac:(lia) ltac:(lia) ltac:(lia)) as H.
  assert (read_chunk 2 1 1 shot3 = Some (1, [7], false)) as E by (by vm_compute). rewrite E in H.
  destruct H as (_ & frame & Hf & _ & Hd & _). exists frame. split; [exact Hf|exact Hd].
Defined.

(** Two bytes, a capture that waits for a frame, and the rest - refused; started again
    under the new number, it comes whole. *)
Lemma pulls3 : pulls true 32 2 [five; three] shot3 three true.
Proof.
  assert (read_chunk 2 0 2 shot3 = Some (0, [6; 7], false)) as E1 by (by vm_compute).
  assert (read_chunk 2 2 2 shot3 = Some (2, [8], true)) as E2 by (by vm_compute).
  change three with ([6; 7] ++ [8] : list Z). eapply (pull_chunk true 32 2 [five; three] shot3 [6; 7] 2); [|lia|exact E2].
  change [6; 7] with ([] ++ [6; 7] : list Z). eapply (pull_chunk true 32 2 [five; three] shot3 [] 2); [|lia|exact E1].
  apply (pull_later true 32 2 [five] shot1 [] false [five; three] shot3); [|exact runs3|by exists [three]].
  exact (pull_starts true 32 2 [five] shot1 runs1).
Qed.
Lemma pulled_frame_whole_witness : [five; three] !! 1%nat = Some three.
Proof. exact (pulled_frame_whole true 32 2 [five; three] shot3 three pulls3 ltac:(by vm_compute) ltac:(lia)). Defined.

Lemma pull_ends_witness : pull 2 2 0 2 [] shot3 = Some three.
Proof.
  destruct (pull_ends true 32 [five; three] shot3 2 1 runs3 ltac:(by vm_compute) ltac:(by vm_compute) ltac:(lia)) as (frame & Hl & Hp).
  injection Hl as <-. exact Hp.
Defined.

Lemma format_deepest_witness :
  let '((r, fmt), _) := cam_pick_format junk (dark []) in r = 0 /\ pixelformat fmt = 10 /\ width fmt = 1640 /\ height fmt = 1232.
Proof.
  pose proof (format_deepest junk (dark []) 0 _ (dark []) eq_refl (fun f => proj1 (Z.mod_pos_bound f 100 ltac:(lia))) ltac:(lia)) as H.
  vm_compute in H. by vm_compute.
Defined.

Lemma boot_confirms_healthy_witness :
  exists i s, main true true 60000 32 junk (dark [Some five]) = Some (i, s, true) /\ frame_seq s = 1 /\
    boot_is_img_confirmed (c_os s) = true /\ armed (c_os s) 7 = false.
Proof.
  pose proof (boot_confirms_healthy true true 60000 32 junk (dark [Some five]) eq_refl eq_refl eq_refl) as H.
  destruct H as (i & s & hb & ok & s1 & E & _ & _ & _ & _ & Hd & Hc & Hh).
  assert (exists i s, main true true 60000 32 junk (dark [Some five]) = Some (i, s, true)) as (i' & s' & E') by (do 2 eexists; by vm_compute).
  assert (hb = true) as -> by congruence. exists i, s. split; [exact E|]. pose proof (Hh eq_refl) as Hg. split; [|split; [exact Hg|]].
  - by destruct (Hc Hg) as (_ & Hf & _); apply Hf.
  - by apply Hd.
Defined.
End Studio.
