(* ===== verification/RoverMotors.v ===== *)
(** rasprover's wheels: [rasprover/src/app_motors.c].

    A twist sets two duties and arms a watchdog work item that stops the wheels.  The
    command runs on Pico-ROS's read task and the handler on the system work queue, so
    they are interleaved here call by call. *)

From Stdlib Require Import SpecFloat.
From S2P Require Import Prelude Floats.
#[local] Open Scope Z_scope.

(** [CLAMP(val, low, high)], a macro of two comparisons. *)
Definition CLAMP (val low high : float32) : float32 :=
  if SFleb val low then low else if SFltb val high then val else high.

(** * app_motors.c *)
Inductive wheel := LeftWheel | RightWheel.
#[export] Instance wheel_eq_dec : EqDecision wheel.
Proof. solve_decision. Defined.

Section Motors.
(** CONFIG_APP_MOTORS_WHEEL_SEPARATION_MM, _MAX_SPEED_MM_S and _CMD_TIMEOUT_MS *)
Variables WHEEL_SEPARATION_MM MAX_SPEED_MM_S CMD_TIMEOUT_MS : Z.

Definition half_track_m : float32 := fdiv (f32_of_int WHEEL_SEPARATION_MM) (f32_of_int 2000).
Definition max_speed_m_s : float32 := fdiv (f32_of_int MAX_SPEED_MM_S) (f32_of_int 1000).
(** The two duties of a twist. *)
Definition duties (linear_x angular_z : float32) : float32 * float32 :=
  let v_left := fsub linear_x (fmul angular_z half_track_m) in
  let v_right := fadd linear_x (fmul angular_z half_track_m) in
  (CLAMP (fdiv v_left max_speed_m_s) fm1 f1, CLAMP (fdiv v_right max_speed_m_s) fm1 f1).

(** Where the two threads are: before the named call. *)
Inductive command_pc := SetLeft (l r : float32) | SetRight (r : float32) | Arm.
Inductive handler_pc := StopLeft | StopRight | CoastLeft | CoastRight.

(** The statics, what each wheel was last told, the delayable work item - its timeout
    and whether it waits in the queue - the two threads, and the time. *)
Record motors := mk_motors {
  ready : bool;
  told_left : float32; told_right : float32; coasting : list wheel;
  delayed : option Z; queued : bool; handler : option handler_pc;
  command : option command_pc; clock : Z;
}.
#[export] Instance eta_motors : Eta motors := fun s =>
  mk_motors (ready s) (told_left s) (told_right s) (coasting s) (delayed s) (queued s) (handler s) (command s) (clock s).

Definition actuator_set_duty (w : wheel) (d : float32) (s : motors) : motors :=
  (match w with LeftWheel => s <| told_left := d |> | RightWheel => s <| told_right := d |> end)
    <| coasting ::= List.filter (fun v => negb (bool_decide (v = w))) |>.
Definition actuator_coast (w : wheel) (s : motors) : motors := s <| coasting ::= cons w |>.

(** Zephyr's rescheduling: a timeout that stands is replaced; a work item already in the
    queue stays there. *)
Definition k_work_reschedule (ms : Z) (s : motors) : motors := s <| delayed := Some (clock s + ms) |>.

Definition motors_init (left_ready right_ready left_enabled right_enabled : bool) (s : motors) : bool * motors :=
  if negb left_ready || negb right_ready then (false, s)
  else if negb left_enabled || negb right_enabled then (false, s)
  else (true, s <| delayed := None |> <| queued := false |> <| ready := true |>).

(** [app_motors_cmd_vel] up to its first call, and a call. *)
Definition app_motors_cmd_vel (linear_x angular_z : float32) (s : motors) : motors :=
  if negb (ready s) then s else
  let '(l, r) := duties linear_x angular_z in s <| command := Some (SetLeft l r) |>.
Definition command_step (s : motors) : motors :=
  match command s with
  | None => s
  | Some (SetLeft l r) => (actuator_set_duty LeftWheel l s) <| command := Some (SetRight r) |>
  | Some (SetRight r) => (actuator_set_duty RightWheel r s) <| command := Some Arm |>
  | Some Arm => (k_work_reschedule CMD_TIMEOUT_MS s) <| command := None |>
  end.

(** [cmd_watchdog_handler], a call at a time. *)
Definition cmd_watchdog_handler (s : motors) : motors :=
  match handler s with
  | None => s
  | Some StopLeft => (actuator_set_duty LeftWheel f0 s) <| handler := Some StopRight |>
  | Some StopRight => (actuator_set_duty RightWheel f0 s) <| handler := Some CoastLeft |>
  | Some CoastLeft => (actuator_coast LeftWheel s) <| handler := Some CoastRight |>
  | Some CoastRight => (actuator_coast RightWheel s) <| handler := None |>
  end.

(** What happens: a twist on the read task, which takes one at a time; a call of either
    thread; the work item's timeout; the queue taking it up; and time. *)
Inductive motor_event := Twist (linear_x angular_z : float32) | Command | Expire | TakeUp | Handler | Wait (ms : Z).
Definition motor_step (s : motors) (e : motor_event) : motors :=
  match e with
  | Twist x z => match command s with None => app_motors_cmd_vel x z s | Some _ => s end
  | Command => command_step s
  | Expire => match delayed s with
              | Some d => if d <=? clock s then s <| delayed := None |> <| queued := true |> else s
              | None => s
              end
  | TakeUp => match handler s with
              | None => if queued s then s <| queued := false |> <| handler := Some StopLeft |> else s
              | Some _ => s
              end
  | Handler => cmd_watchdog_handler s
  | Wait ms => s <| clock ::= Z.add (Z.max 0 ms) |>
  end.
Definition motor_run (es : list motor_event) (s : motors) : motors := foldl motor_step s es.
Definition motors_boot (t : Z) : motors := mk_motors false f0 f0 [] None false None None t.
End Motors.

(** * Duties *)

Definition in_range (d : float32) : Prop := SFleb fm1 d = true /\ SFleb d f1 = true.
Lemma clamp_range v : in_range (CLAMP v fm1 f1).
Proof.
  unfold CLAMP. destruct (SFleb v fm1) eqn:El; [split; reflexivity|]. destruct (SFltb v f1) eqn:Eh; [|split; reflexivity].
  unfold in_range, SFleb, SFltb in *. destruct (SFcompare v f1) as [[]|] eqn:E1; try discriminate. split; [|done].
  assert (v <> S754_nan) as Hn by (intros ->; discriminate E1).
  destruct (SFcompare v fm1) as [c|] eqn:E2.
  2: { exfalso. destruct v as [[|]|[|]| |[|] m e]; try discriminate; try (by apply Hn). all: cbn in E2; by destruct (e ?= _). }
  rewrite (SFcompare_opp _ _ _ E2). by destruct c.
Qed.

(** A NaN compares with nothing: [CLAMP] gives it the upper end. *)
Lemma clamp_nan : CLAMP S754_nan fm1 f1 = f1.
Proof. reflexivity. Qed.

Section MotorProperties.
Variables WHEEL_SEPARATION_MM MAX_SPEED_MM_S CMD_TIMEOUT_MS : Z.
#[local] Notation duties := (duties WHEEL_SEPARATION_MM MAX_SPEED_MM_S).
#[local] Notation motor_step := (motor_step WHEEL_SEPARATION_MM MAX_SPEED_MM_S CMD_TIMEOUT_MS).
#[local] Notation motor_run := (motor_run WHEEL_SEPARATION_MM MAX_SPEED_MM_S CMD_TIMEOUT_MS).

(** A twist whose speed is not a number drives both wheels at full speed ahead,
    whatever else it says. *)
Theorem nan_drives_full_speed z : duties S754_nan z = (f1, f1).
Proof. by destruct z. Qed.

(** ** The watchdog *)

(** A wheel that was not told to stop has the watchdog behind it: its timeout, its
    place in the queue, the handler before that wheel's stop, or a command about to arm
    it. *)
Definition watched (s : motors) : Prop :=
  (delayed s <> None \/ queued s = true \/ command s = Some Arm \/ (exists r, command s = Some (SetRight r)) \/
   handler s = Some StopLeft \/ (told_left s = f0 /\ (handler s = Some StopRight \/ told_right s = f0))) /\
  in_range (told_left s) /\ in_range (told_right s) /\
  (forall d, delayed s = Some d -> d <= clock s + CMD_TIMEOUT_MS) /\
  match command s with Some (SetLeft l r) => in_range l /\ in_range r | Some (SetRight r) => in_range r | _ => True end.

Lemma step_watched s e : watched s -> watched (motor_step s e).
Proof.
  destruct s as [rd tl tr co de qu ha cm ck]. intros (Hw & Hl & Hr & Hd & Hc). unfold watched in *. cbn in Hw, Hl, Hr, Hd, Hc.
  destruct e as [x z| | | | |ms]; cbn.
  - destruct cm; [done|]. unfold app_motors_cmd_vel. cbn. destruct rd; cbn; [|done].
    split; [destruct Hw as [?|[?|[?|[[? ?]|?]]]]; auto; done|]. split; [done|]. split; [done|]. split; [done|]. split; apply clamp_range.
  - destruct cm as [[l r|r|]|]; cbn.
    + destruct Hc. split; [|done]. right; right; right; left. by exists r.
    + split; [by auto|done].
    + split; [by left|]. split; [done|]. split; [done|]. split; [|done]. intros d [= <-]. lia.
    + done.
  - destruct de as [d|]; [|done]. cbn. destruct (d <=? ck); [|done]. cbn. split; [by auto|done].
  - destruct ha; [done|]. cbn. destruct qu; [|done]. cbn. split; [|done]. by auto 6.
  - destruct ha as [[| | |]|]; cbn; [| | | |done].
    + split; [|split; [by split|done]]. right; right; right; right; right. split; [done|]. by left.
    + split; [|split; [done|]; split; [by split|done]]. destruct Hw as [?|[?|[?|[?|[?|[Ht _]]]]]]; try done; auto 6. right; right; right; right; right. split; [done|]. by right.
    + split; [|done]. destruct Hw as [?|[?|[?|[?|[?|[Ht [?|?]]]]]]]; try done; auto 6; do 5 right; (split; [done|by right]).
    + split; [|done]. destruct Hw as [?|[?|[?|[?|[?|[Ht [?|?]]]]]]]; try done; auto 6; do 5 right; (split; [done|by right]).
  - split; [done|]. split; [done|]. split; [done|]. split; [|done]. intros d E. specialize (Hd d E). lia.
Qed.

Lemma run_watched es s : watched s -> watched (motor_run es s).
Proof. revert s. induction es as [|e es IH]; intros s Hs; [done|]. by apply IH, step_watched. Qed.
Lemma boot_watched t b : watched ((motors_boot t) <| ready := b |>).
Proof. split; [do 5 right; split; [done|by right]|]. by repeat split. Qed.

(** What the kernel does with no more twists: the handler if it runs, the timeout, the
    queue, the handler. *)
Definition quiet_down : list motor_event :=
  repeat Handler 4 ++ [Wait CMD_TIMEOUT_MS; Expire; TakeUp] ++ repeat Handler 4.

Lemma quiet_stops s : 0 <= CMD_TIMEOUT_MS -> watched s -> command s = None ->
  told_left (motor_run quiet_down s) = f0 /\ told_right (motor_run quiet_down s) = f0.
Proof.
  intros Ht Hw Hc. destruct s as [rd tl tr co de qu ha cm ck]. cbn in Hc. subst cm. unfold quiet_down, motor_run.
  rewrite foldl_app. set (s1 := foldl _ _ (repeat Handler 4)).
  assert (watched s1 /\ handler s1 = None /\ command s1 = None) as (Hw1 & Hh1 & Hc1).
  { split; [by apply (run_watched (repeat Handler 4))|]. unfold s1. by destruct ha as [[| | |]|]. }
  clearbody s1. clear Hw. destruct s1 as [rd1 tl1 tr1 co1 de1 qu1 ha1 cm1 ck1]. cbn in Hh1, Hc1. subst.
  destruct Hw1 as (Hw & _ & _ & Hd & _). cbn in Hw, Hd. cbn.
  destruct de1 as [d|]; cbn.
  - specialize (Hd d eq_refl). destruct (Z.leb_spec d (Z.max 0 CMD_TIMEOUT_MS + ck1)); [done|lia].
  - destruct qu1; cbn; [done|]. destruct Hw as [?|[?|[?|[[? ?]|[?|[? [?|?]]]]]]]; done.
Qed.

(** C23: Whatever twists come - NaN, infinities - and however the calls of the read task
    and of the work queue interleave: no duty leaves [-1, 1]; a wheel that was not told
    to stop has the watchdog behind it, due at most the timeout from now; and once
    twists stop, the watchdog's next run stops both wheels. *)
Theorem rover_never_runs_away t b es : 0 <= CMD_TIMEOUT_MS ->
  let s := motor_run es ((motors_boot t) <| ready := b |>) in
  in_range (told_left s) /\ in_range (told_right s) /\
  (command s = None -> delayed s = None -> queued s = false -> handler s = None -> told_left s = f0 /\ told_right s = f0) /\
  (forall d, delayed s = Some d -> d <= clock s + CMD_TIMEOUT_MS) /\
  (command s = None -> told_left (motor_run quiet_down s) = f0 /\ told_right (motor_run quiet_down s) = f0).
Proof.
  intros Ht s. assert (watched s) as Hw by (apply run_watched, boot_watched).
  pose proof (quiet_stops s Ht Hw) as Hq. destruct Hw as (Hw & Hl & Hr & Hd & _).
  split; [done|]. split; [done|]. split; [|by split].
  intros Hc He Hqu Hh. rewrite Hc, He, Hqu, Hh in Hw. by destruct Hw as [?|[?|[?|[[? ?]|[?|[? [?|?]]]]]]].
Qed.
End MotorProperties.

(** * At the default configuration *)

#[local] Notation default_run := (motor_run 125 500 500).
Definition ahead : float32 := fdiv (f32_of_int 1) (f32_of_int 4).
#[local] Notation started := ((motors_boot 0) <| ready := true |>).

Lemma rover_never_runs_away_witness :
  let s := default_run [Twist S754_nan ahead; Command; Command; Command] started in
  told_left s = f1 /\ told_right s = f1 /\ told_left (default_run (quiet_down 500) s) = f0 /\ told_right (default_run (quiet_down 500) s) = f0.
Proof.
  destruct (rover_never_runs_away 125 500 500 0 true [Twist S754_nan ahead; Command; Command; Command] ltac:(lia)) as (_ & _ & _ & _ & H).
  split; [by vm_compute|]. split; [by vm_compute|]. exact (H eq_refl).
Defined.

(** A twist straight ahead whose second call comes after the watchdog's handler - due
    from the twist before - has run: the handler stops the left wheel the twist had just
    set, and the right wheel then turns alone, at half speed, with nothing pending but
    the next timeout. *)
Theorem twist_cut_in_half :
  let s := default_run ([Twist ahead f0; Command; Command; Command; Wait 500; Expire; Twist ahead f0; Command; TakeUp] ++
                        repeat Handler 4 ++ [Command; Command]) started in
  told_left s = f0 /\ told_right s = fdiv (f32_of_int 1) (f32_of_int 2) /\ coasting s = [LeftWheel] /\
  command s = None /\ queued s = false /\ handler s = None /\ delayed s = Some (clock s + 500).
Proof. by vm_compute. Qed.
