(* ===== verification/Rover.v ===== *)
(** rasprover: the Pico-ROS node, the gimbal and the power reading
    ([rasprover/src/app_picoros.c], [app_gimbal.c], [app_sensors.c], [app_network.c]).

    Pico-ROS, its serializer and the actuators are the class [RoverHw]; next to the
    state run what Pico-ROS holds open, what was published and what the gimbal was
    told. *)

From Stdlib Require Import SpecFloat.
From S2P Require Import Prelude Printf Platform Floats Instances Services AppTime RoverMotors.
Import Watchdog ImgConfirm.
#[local] Open Scope Z_scope.

Definition BATTERY_STATE_BUF_SIZE : nat := 128.
Definition JOINT_STATE_BUF_SIZE : nat := 320.
Definition GIMBAL_CMD_MAX_JOINTS : nat := 8.

Inductive joint := LeftJoint | RightJoint | PanJoint | TiltJoint.
Definition joint_name (j : joint) : string :=
  match j with LeftJoint => "left_wheel_joint" | RightJoint => "right_wheel_joint" | PanJoint => "pan_joint" | TiltJoint => "tilt_joint" end.

(** Feedback of an actuator: a value that is not there is not valid. *)
Record feedback := mk_fb { fb_position : option float32; fb_velocity : option float32 }.
Record joint_state := mk_joint { js_name : string; position_rad : float64; velocity_rad_s : float64 }.

(** The messages; a BatteryState's constant fields are not. *)
Record ros_JointState := mk_js { js_stamp : Z * Z; js_names : list string; js_position : list float64; js_velocity : list float64 }.
Record ros_BatteryState := mk_bs { bs_stamp : Z * Z; bs_voltage : float32; bs_current : float32 }.
Inductive ros_publisher := PubBattery | PubJointState.
Inductive ros_subscriber := SubCmdVel | SubGimbalCmd.
#[export] Instance ros_publisher_eq_dec : EqDecision ros_publisher.
Proof. solve_decision. Defined.
#[export] Instance subscriber_eq_dec : EqDecision ros_subscriber.
Proof. solve_decision. Defined.

Class RoverHw `{Os} := {
  actuator_is_ready : joint -> os -> bool;
  actuator_enable : joint -> os -> Z * os;
  actuator_set_position : joint -> float32 -> os -> Z * os;
  actuator_read_feedback : joint -> os -> option feedback * os;
  servo_bus_start : os -> bool * os;         (* the bus's lookup and [bus_servo_init] *)
  picoros_interface_init : os -> bool * os;
  picoros_node_init : os -> bool * os;
  picoros_publisher_declare : ros_publisher -> os -> bool * os;
  picoros_subscriber_declare : ros_subscriber -> os -> bool * os;
  picoros_node_drop : os -> os;
  picoros_interface_close : os -> os;
  picoros_publish : ros_publisher -> list Z -> os -> bool * os;
  ps_serialize_JointState : ros_JointState -> nat -> list Z;
  ps_serialize_BatteryState : ros_BatteryState -> nat -> list Z;
  ps_deserialize_Twist : list Z -> option (float64 * float64);   (* linear.x and angular.z *)
  (* the names and positions there was room for *)
  ps_deserialize_JointState : nat -> list Z -> option (list (option string) * list float64);
  (* INA219's voltage, current and power, in its units' doubles *)
  power_read : os -> option (float64 * float64 * float64) * os;
}.

(** What Pico-ROS holds open. *)
Record ros_link := mk_link { iface_open : bool; node_open : bool; pubs : list ros_publisher; subs : list ros_subscriber }.
#[export] Instance eta_ros_link : Eta ros_link := fun l => mk_link (iface_open l) (node_open l) (pubs l) (subs l).
Definition ros_closed : ros_link := mk_link false false [] [].

Record app_power := mk_power { voltage_mv : Z; current_ma : Z; power_mw : Z; uptime_ms : Z }.

Section Rover.
Context `{RoverHw} `{!Sntp} `{!TaskWdt} `{!Mcuboot}.
(** CONFIG_APP_MOTORS, CONFIG_APP_GIMBAL and CONFIG_BUS_SERVO *)
Variables has_motors has_gimbal has_servo_bus : bool.

(** The statics of the files, app_time.c's and app_img_confirm.c's, the joint-state work
    item - whether it is scheduled - and the log. *)
Record rover := mk_rover {
  motors_ready : bool; gimbal_ready : bool;
  ros_ready : bool; joint_state_ready : bool; joint_state_work : bool;
  have_power : option app_power;
  l4_connected : bool;
  r_time : app_time; r_img : img; r_link : ros_link;
  published : list (ros_publisher * list Z); head_told : list (joint * float32); driven : list (float32 * float32);
}.
#[export] Instance eta_rover : Eta rover := fun r =>
  mk_rover (motors_ready r) (gimbal_ready r) (ros_ready r) (joint_state_ready r) (joint_state_work r) (have_power r)
           (l4_connected r) (r_time r) (r_img r) (r_link r) (published r) (head_told r) (driven r).
Definition r_os (r : rover) : os := i_os (r_img r).
Definition put_os (o : os) (r : rover) : rover := r <| r_img := (r_img r) <| i_os := o |> |>.

(** ** app_motors.c and app_gimbal.c: feedback *)
Definition read_joint (j : joint) (o : os) : option joint_state * os :=
  match actuator_read_feedback j o with
  | (Some fb, o) =>
      match fb_position fb with
      | None => (None, o)
      | Some p => (Some (mk_joint (joint_name j) (convert 53 1024 p) (convert 53 1024 (default f0 (fb_velocity fb)))), o)
      end
  | (None, o) => (None, o)
  end.
(** [a && b] over the two joints of a part. *)
Definition read_joints (part_ready : bool) (a b : joint) (o : os) : option (list joint_state) * os :=
  if negb part_ready then (None, o) else
  match read_joint a o with
  | (None, o) => (None, o)
  | (Some x, o) => match read_joint b o with
                   | (None, o) => (None, o)
                   | (Some y, o) => (Some [x; y], o)
                   end
  end.
Definition app_motors_read_joint_state (r : rover) (o : os) : option (list joint_state) * os :=
  read_joints (motors_ready r) LeftJoint RightJoint o.
Definition app_gimbal_read_joint_state (r : rover) (o : os) : option (list joint_state) * os :=
  read_joints (gimbal_ready r) PanJoint TiltJoint o.

Definition app_gimbal_init (r : rover) : bool * rover :=
  let '(bus, o) := if has_servo_bus then servo_bus_start (r_os r) else (true, r_os r) in
  let r := put_os o r in
  if negb bus then (false, r) else
  if negb (actuator_is_ready PanJoint o) || negb (actuator_is_ready TiltJoint o) then (false, r) else
  let '(e, o) := actuator_enable PanJoint o in
  if negb (e =? 0) then (false, put_os o r) else
  let '(e, o) := actuator_enable TiltJoint o in
  let r := put_os o r in
  if negb (e =? 0) then (false, r) else (true, r <| gimbal_ready := true |>).

Definition set_position (j : joint) (p : float32) (r : rover) : rover :=
  let '(_, o) := actuator_set_position j p (r_os r) in
  (put_os o r) <| head_told ::= fun l => l ++ [(j, p)] |>.
Definition app_gimbal_set_positions (pan tilt : float32) (r : rover) : rover :=
  if negb (gimbal_ready r) then r else set_position TiltJoint tilt (set_position PanJoint pan r).

(** ** app_picoros.c *)
(** The loop over the names, up to the shorter of the two sequences. *)
Fixpoint scan_names (names : list (option string)) (positions : list float64) (pan tilt : option float32) : option float32 * option float32 :=
  match names, positions with
  | n :: names, p :: positions =>
      match n with
      | None => scan_names names positions pan tilt
      | Some n => if String.eqb n "pan_joint" then scan_names names positions (Some (to_f32 p)) tilt
                  else if String.eqb n "tilt_joint" then scan_names names positions pan (Some (to_f32 p))
                  else scan_names names positions pan tilt
      end
  | _, _ => (pan, tilt)
  end.
Definition gimbal_cmd_handler (rx_data : list Z) (r : rover) : rover :=
  match ps_deserialize_JointState GIMBAL_CMD_MAX_JOINTS rx_data with
  | None => r
  | Some (names, positions) =>
      match scan_names names positions None None with
      | (Some pan, Some tilt) => app_gimbal_set_positions pan tilt r
      | _ => r
      end
  end.
(** The wheels' side of a twist is RoverMotors.v's. *)
Definition cmd_vel_handler (rx_data : list Z) (r : rover) : rover :=
  match ps_deserialize_Twist rx_data with
  | None => r
  | Some (x, z) => r <| driven ::= fun l => l ++ [(to_f32 x, to_f32 z)] |>
  end.

(** A publication and, when it went out, the image's confirmation by thread [i]. *)
Definition publish (i : nat) (p : ros_publisher) (buf : list Z) (r : rover) : rover :=
  match buf with
  | [] => r
  | _ =>
      let '(ok, o) := picoros_publish p buf (r_os r) in
      let r := put_os o r in
      if ok then r <| published ::= fun l => l ++ [(p, buf)] |> <| r_img ::= confirm_run [i; i; i] |> else r
  end.

Definition joint_states_msg (stamp : Z * Z) (js : list joint_state) : ros_JointState :=
  mk_js (s32 (fst stamp), snd stamp) (map js_name js) (map position_rad js) (map velocity_rad_s js).
(** The handler up to the label [reschedule]. *)
Definition joint_state_body (r : rover) : rover :=
  if negb (ros_ready r) || negb (joint_state_ready r) then r else
  let '(wheels, o) := app_motors_read_joint_state r (r_os r) in
  let r := put_os o r in
  match wheels with
  | None => r
  | Some wheels =>
      let '(head, o) := if has_gimbal then app_gimbal_read_joint_state r o else (Some [], o) in
      let r := put_os o r in
      match head with
      | None => r
      | Some head =>
          let '(stamp, o) := app_time_now (r_time r) o in
          publish 1 PubJointState (ps_serialize_JointState (joint_states_msg stamp (wheels ++ head)) JOINT_STATE_BUF_SIZE) (put_os o r)
      end
  end.
Definition joint_state_work_handler (r : rover) : rover := (joint_state_body r) <| joint_state_work := true |>.

Definition declare_pub (p : ros_publisher) (r : rover) : bool * rover :=
  let '(ok, o) := picoros_publisher_declare p (r_os r) in
  let r := put_os o r in
  (ok, if ok then r <| r_link := (r_link r) <| pubs ::= cons p |> |> else r).
Definition declare_sub (s : ros_subscriber) (r : rover) : rover :=
  let '(ok, o) := picoros_subscriber_declare s (r_os r) in
  let r := put_os o r in
  if ok then r <| r_link := (r_link r) <| subs ::= cons s |> |> else r.
Definition close_interface (r : rover) : rover := (put_os (picoros_interface_close (r_os r)) r) <| r_link := (r_link r) <| iface_open := false |> |>.
Definition drop_node (r : rover) : rover := (put_os (picoros_node_drop (r_os r)) r) <| r_link := (r_link r) <| node_open := false |> |>.

(** From the battery publisher's success on. *)
Definition picoros_finish (r : rover) : rover :=
  let r := if has_motors then
             let '(ok, r) := declare_pub PubJointState r in
             let r := if ok then r <| joint_state_ready := true |> else r in
             declare_sub SubCmdVel r
           else r in
  let r := if has_gimbal then declare_sub SubGimbalCmd r else r in
  let r := r <| ros_ready := true |> in
  if has_motors && joint_state_ready r then r <| joint_state_work := true |> else r.
Definition app_picoros_init (r : rover) : bool * rover :=
  let '(ok, o) := picoros_interface_init (r_os r) in
  let r := put_os o r in
  if negb ok then (false, r) else
  let r := r <| r_link := (r_link r) <| iface_open := true |> |> in
  let '(ok, o) := picoros_node_init (r_os r) in
  let r := put_os o r in
  if negb ok then (false, close_interface r) else
  let r := r <| r_link := (r_link r) <| node_open := true |> |> in
  let '(ok, r) := declare_pub PubBattery r in
  if negb ok then (false, close_interface (drop_node r)) else (true, picoros_finish r).

Definition app_picoros_publish_power (voltage current : float64) (r : rover) : rover :=
  if negb (ros_ready r) then r else
  let '(stamp, o) := app_time_now (r_time r) (r_os r) in
  publish 0 PubBattery
    (ps_serialize_BatteryState (mk_bs (s32 (fst stamp), snd stamp) (to_f32 voltage) (to_f32 current)) BATTERY_STATE_BUF_SIZE) (put_os o r).

(** ** app_sensors.c, app_network.c *)
Definition milli (x : float64) : Z := truncate (SFmul 53 1024 x (f64_of_int 1000)).
Definition sensors_publish (v i p : float64) (r : rover) : rover :=
  let '(now, o) := k_uptime_get (r_os r) in
  let r := (put_os o r) <| have_power := Some (mk_power (milli v) (milli i) (milli p) now) |> in
  app_picoros_publish_power v i r.
Definition app_sensors_read_and_stream (r : rover) : rover :=
  match power_read (r_os r) with
  | (None, o) => put_os o r
  | (Some (v, i, p), o) => sensors_publish v i p (put_os o r)
  end.
Definition app_sensors_last_power (r : rover) : option app_power := have_power r.
Definition l4_event_handler (connected : bool) (r : rover) : rover := r <| l4_connected := connected |>.
Definition app_net_ipv4_ready (r : rover) : bool := l4_connected r.

(** ** What runs when: callbacks and work items, with what else the machine does *)
Inductive rover_event :=
| JointWork | Sensors | CmdVel (rx : list Z) | GimbalCmd (rx : list Z) | L4 (connected : bool) | Clock (t : app_time) | Other (o : os).
Definition rover_step (r : rover) (e : rover_event) : rover :=
  match e with
  | JointWork => if joint_state_work r then joint_state_work_handler (r <| joint_state_work := false |>) else r
  | Sensors => app_sensors_read_and_stream r
  | CmdVel rx => if bool_decide (SubCmdVel ∈ subs (r_link r)) then cmd_vel_handler rx r else r
  | GimbalCmd rx => if bool_decide (SubGimbalCmd ∈ subs (r_link r)) then gimbal_cmd_handler rx r else r
  | L4 c => l4_event_handler c r
  | Clock t => r <| r_time := t |>
  | Other o => put_os o r
  end.
(** [main]'s order: the gimbal, and Pico-ROS if there is a network. *)
Definition rover_boot (r : rover) : rover :=
  let r := snd (if has_gimbal then app_gimbal_init r else (true, r)) in
  if app_net_ipv4_ready r then snd (app_picoros_init r) else r.
Definition rover_run (es : list rover_event) (r : rover) : rover := foldl rover_step r es.
End Rover.

(** * Properties *)
Section RoverProperties.
Context `{RoverHw} `{!Sntp} `{!TaskWdt} `{!Mcuboot}.
Variables has_motors has_gimbal has_servo_bus : bool.
#[local] Notation init := (app_picoros_init has_motors has_gimbal).
#[local] Notation step := (rover_step has_gimbal).

(** ** The gimbal's command *)

(** The last position under a name, of the pairs there are. *)
Definition last_named (n : string) (names : list (option string)) (positions : list float64) : option float64 :=
  last (omap (fun '(m, p) => if bool_decide (m = Some n) then Some p else None) (zip names positions)).

Lemma last_cons_or {A} (x : A) l : last (x :: l) = match last l with Some y => Some y | None => Some x end.
Proof. rewrite last_cons. by destruct (last l). Qed.

Lemma scan_last names positions pan tilt :
  scan_names names positions pan tilt =
  (match last_named "pan_joint" names positions with Some p => Some (to_f32 p) | None => pan end,
   match last_named "tilt_joint" names positions with Some p => Some (to_f32 p) | None => tilt end).
Proof.
  revert positions pan tilt. induction names as [|n names IH]; intros [|p positions] pan tilt; try done.
  unfold last_named in *. cbn [scan_names zip zip_with omap list_omap]. destruct n as [n|]; cbn; [|apply IH].
  destruct (String.eqb_spec n "pan_joint") as [->|Hp].
  - rewrite bool_decide_eq_true_2, bool_decide_eq_false_2 by done. rewrite IH, last_cons_or. by destruct (last _).
  - rewrite bool_decide_eq_false_2 by congruence. destruct (String.eqb_spec n "tilt_joint") as [->|Ht].
    + rewrite bool_decide_eq_true_2 by done. rewrite IH, last_cons_or. do 2 f_equal. by destruct (last _).
    + rewrite bool_decide_eq_false_2 by congruence. apply IH.
Qed.

Lemma set_position_told j p r : head_told (set_position j p r) = head_told r ++ [(j, p)] /\ gimbal_ready (set_position j p r) = gimbal_ready r.
Proof. unfold set_position. by destruct (actuator_set_position j p (r_os r)). Qed.

(** A gimbal command moves the head in both axes or in neither: in both when the
    payload decodes, the gimbal is up and each axis is named with a position - the last
    one if it is named more than once - in whatever order, with whatever other joints,
    and nothing else happens. *)
Theorem gimbal_both_axes rx r :
  head_told (gimbal_cmd_handler rx r) =
  head_told r ++
  match ps_deserialize_JointState GIMBAL_CMD_MAX_JOINTS rx with
  | Some (names, positions) =>
      match last_named "pan_joint" names positions, last_named "tilt_joint" names positions with
      | Some pan, Some tilt => if gimbal_ready r then [(PanJoint, to_f32 pan); (TiltJoint, to_f32 tilt)] else []
      | _, _ => []
      end
  | None => []
  end.
Proof.
  unfold gimbal_cmd_handler. destruct (ps_deserialize_JointState _ rx) as [[names positions]|]; [|by rewrite app_nil_r].
  rewrite scan_last. destruct (last_named "pan_joint" names positions) as [pan|]; [|by rewrite app_nil_r].
  destruct (last_named "tilt_joint" names positions) as [tilt|]; [|by rewrite app_nil_r].
  unfold app_gimbal_set_positions. destruct (gimbal_ready r); cbn [negb]; [|by rewrite app_nil_r].
  destruct (set_position_told PanJoint (to_f32 pan) r) as [Hp Hg].
  destruct (set_position_told TiltJoint (to_f32 tilt) (set_position PanJoint (to_f32 pan) r)) as [Ht _].
  by rewrite Ht, Hp, <- app_assoc.
Qed.

(** ** The node *)

(** What a step of [app_picoros_init] leaves alone. *)
Definition same_flags (r r' : rover) : Prop :=
  ros_ready r' = ros_ready r /\ joint_state_ready r' = joint_state_ready r /\ joint_state_work r' = joint_state_work r /\
  published r' = published r /\ confirmed (r_img r') = confirmed (r_img r) /\ callers (r_img r') = callers (r_img r).
Lemma declare_pub_spec p r : let '(ok, r') := declare_pub p r in
  same_flags r r' /\ r_link r' = (if ok then (r_link r) <| pubs ::= cons p |> else r_link r).
Proof. unfold declare_pub. destruct (picoros_publisher_declare p (r_os r)) as [[|] o]; by repeat split. Qed.
Lemma declare_sub_spec s r : same_flags r (declare_sub s r) /\ pubs (r_link (declare_sub s r)) = pubs (r_link r) /\
  iface_open (r_link (declare_sub s r)) = iface_open (r_link r) /\ node_open (r_link (declare_sub s r)) = node_open (r_link r).
Proof. unfold declare_sub. destruct (picoros_subscriber_declare s (r_os r)) as [[|] o]; by repeat split. Qed.

Definition ros_reset (r : rover) : Prop :=
  r_link r = ros_closed /\ ros_ready r = false /\ joint_state_ready r = false /\ joint_state_work r = false /\ published r = [].

Lemma finish_spec r : ros_ready r = false -> joint_state_ready r = false -> joint_state_work r = false ->
  pubs (r_link r) = [PubBattery] ->
  let r' := picoros_finish has_motors has_gimbal r in
  ros_ready r' = true /\ joint_state_ready r' = bool_decide (PubJointState ∈ pubs (r_link r')) /\
  joint_state_work r' = joint_state_ready r' /\ PubBattery ∈ pubs (r_link r') /\
  iface_open (r_link r') = iface_open (r_link r) /\ node_open (r_link r') = node_open (r_link r) /\
  published r' = published r /\ confirmed (r_img r') = confirmed (r_img r) /\ callers (r_img r') = callers (r_img r).
Proof.
  intros Hr Hj Hw Hp. unfold picoros_finish.
  set (r1 := if has_motors then _ else r).
  assert (joint_state_ready r1 = bool_decide (PubJointState ∈ pubs (r_link r1)) /\ (joint_state_ready r1 = true -> has_motors = true) /\
    joint_state_work r1 = false /\ PubBattery ∈ pubs (r_link r1) /\
    iface_open (r_link r1) = iface_open (r_link r) /\ node_open (r_link r1) = node_open (r_link r) /\
    published r1 = published r /\ confirmed (r_img r1) = confirmed (r_img r) /\ callers (r_img r1) = callers (r_img r))
    as (A & B & C & D & E & F & G & I & J).
  { unfold r1. destruct has_motors; [|by rewrite Hj, Hp; repeat split; auto; by left].
    pose proof (declare_pub_spec PubJointState r) as Hd. destruct (declare_pub PubJointState r) as [ok r2].
    destruct Hd as ((H2a & H2b & H2c & H2d & H2e & H2f) & Hl).
    destruct (declare_sub_spec SubCmdVel (if ok then r2 <| joint_state_ready := true |> else r2)) as ((H3a & H3b & H3c & H3d & H3e & H3f) & H3g & H3h & H3i).
    rewrite H3b, H3c, H3d, H3e, H3f, H3g, H3h, H3i. destruct ok; cbn; rewrite Hl; cbn; rewrite ?H2b, ?H2c, ?H2d, ?H2e, ?H2f, Hp, ?Hj, ?Hw;
      repeat split; auto; by repeat constructor. }
  clearbody r1. set (r2 := if has_gimbal then _ else r1).
  assert (same_flags r1 r2 /\ pubs (r_link r2) = pubs (r_link r1) /\ iface_open (r_link r2) = iface_open (r_link r1) /\ node_open (r_link r2) = node_open (r_link r1))
    as ((K1 & K2 & K3 & K4 & K5 & K6) & K7 & K8 & K9).
  { unfold r2. destruct has_gimbal; [apply declare_sub_spec|done]. }
  clearbody r2. cbn. rewrite K2. destruct (joint_state_ready r1) eqn:Ej.
  - rewrite (B eq_refl). cbn. rewrite ?K2, ?K4, ?K5, K6, K7, K8, K9. by repeat split.
  - rewrite andb_false_r. cbn. rewrite ?K2, ?K3, ?K4, ?K5, K6, K7, K8, K9. by repeat split.
Qed.

(** Bringing the node up is all or nothing: without the interface, the node or the
    battery's publisher it fails with nothing held open and nothing ready; with them it
    succeeds, and the joint-state publisher alone decides whether that work starts. *)
Theorem picoros_init_all_or_nothing r : ros_reset r ->
  let '(ok, r') := init r in
  (ok = false -> iface_open (r_link r') = false /\ node_open (r_link r') = false /\ pubs (r_link r') = [] /\
     ros_ready r' = false /\ joint_state_work r' = false) /\
  (ok = true -> iface_open (r_link r') = true /\ node_open (r_link r') = true /\ PubBattery ∈ pubs (r_link r') /\
     ros_ready r' = true /\ joint_state_ready r' = bool_decide (PubJointState ∈ pubs (r_link r')) /\
     joint_state_work r' = joint_state_ready r').
Proof.
  intros (Hl & Hr & Hj & Hw & _). unfold app_picoros_init. destruct (picoros_interface_init (r_os r)) as [[|] o]; cbn [negb].
  2: { cbn. rewrite Hl. by repeat split. }
  set (r1 := (put_os o r) <| r_link := _ |>). destruct (picoros_node_init (r_os r1)) as [[|] o2]; cbn [negb].
  2: { cbn. rewrite Hl. by repeat split. }
  set (r2 := (put_os o2 r1) <| r_link := _ |>). pose proof (declare_pub_spec PubBattery r2) as Hd.
  destruct (declare_pub PubBattery r2) as [[|] r3]; cbn [negb]; destruct Hd as ((A & B & C & _) & L).
  - split; [done|]. intros _.
    destruct (finish_spec r3) as (X1 & X2 & X3 & X4 & X5 & X6 & _); [by rewrite A|by rewrite B|by rewrite C|by rewrite L; cbn; rewrite Hl|].
    rewrite X5, X6, L. split; [done|]. split; [done|]. split; [done|]. by rewrite X1.
  - split; [|done]. intros _. cbn. rewrite L, A, C. cbn. rewrite Hl. by repeat split.
Qed.

(** ** The node at work *)

Definition both_outside (m : img) : Prop := callers m = [Outside; Outside].
Lemma confirm_outside i m : (i < 2)%nat -> both_outside m -> both_outside (confirm_run [i; i; i] m).
Proof.
  unfold both_outside, confirm_run. intros Hi Hc. destruct m as [cf ch rd cl o]. cbn in Hc. subst cl.
  destruct i as [|[|i]]; [| |lia]; cbn; destruct cf; try done; cbn;
    destruct (boot_write_img_confirmed o) as [r o']; cbn; by destruct (r =? 0).
Qed.

Definition joint_names : list string :=
  map joint_name ([LeftJoint; RightJoint] ++ if has_gimbal then [PanJoint; TiltJoint] else []).
(** A publication: of the joints, every one in order with a position and a velocity each;
    and never an empty buffer. *)
Definition published_ok (m : ros_publisher * list Z) : Prop :=
  snd m <> [] /\
  match fst m with
  | PubJointState => exists stamp js, map js_name js = joint_names /\
      snd m = ps_serialize_JointState (joint_states_msg stamp js) JOINT_STATE_BUF_SIZE
  | PubBattery => exists msg, snd m = ps_serialize_BatteryState msg BATTERY_STATE_BUF_SIZE
  end.

(** The node in order: the feedback work due whenever its publisher stands, the image
    confirmed only by a publication. *)
Definition rover_ok (r : rover) : Prop :=
  both_outside (r_img r) /\ (joint_state_ready r = true -> joint_state_work r = true) /\
  (confirmed (r_img r) = true -> published r <> []) /\ Forall published_ok (published r).

Lemma publication_spec i p buf r : (i < 2)%nat -> both_outside (r_img r) -> (confirmed (r_img r) = true -> published r <> []) ->
  Forall published_ok (published r) -> (buf <> [] -> published_ok (p, buf)) ->
  let r' := publish i p buf r in
  both_outside (r_img r') /\ (confirmed (r_img r') = true -> published r' <> []) /\ Forall published_ok (published r') /\
  joint_state_ready r' = joint_state_ready r /\ joint_state_work r' = joint_state_work r.
Proof.
  intros Hi Ho Hc Hf Hb. unfold publish. destruct buf as [|b buf]; [done|].
  destruct (picoros_publish p (b :: buf) (r_os r)) as [[|] o]; [|done]. cbn -[confirm_run].
  split; [by apply confirm_outside|]. split; [by destruct (published r)|]. split; [|done].
  apply Forall_app. split; [done|]. apply Forall_singleton, Hb. done.
Qed.

Lemma read_joint_name j o js o' : read_joint j o = (Some js, o') -> js_name js = joint_name j.
Proof.
  unfold read_joint. destruct (actuator_read_feedback j o) as [[fb|] o1]; [|done].
  destruct (fb_position fb); [|done]. by intros [= <- _].
Qed.
Lemma read_joints_names b j k o l o' : read_joints b j k o = (Some l, o') -> map js_name l = [joint_name j; joint_name k].
Proof.
  unfold read_joints. destruct b; cbn [negb]; [|done]. destruct (read_joint j o) as [[x|] o1] eqn:E1; [|done].
  destruct (read_joint k o1) as [[y|] o2] eqn:E2; [|done]. intros [= <- _]. cbn.
  by rewrite (read_joint_name _ _ _ _ E1), (read_joint_name _ _ _ _ E2).
Qed.

Lemma joint_body_ok r : both_outside (r_img r) -> (confirmed (r_img r) = true -> published r <> []) -> Forall published_ok (published r) ->
  let r' := joint_state_body has_gimbal r in
  both_outside (r_img r') /\ (confirmed (r_img r') = true -> published r' <> []) /\ Forall published_ok (published r').
Proof.
  intros Ho Hc Hf. unfold joint_state_body. destruct (negb (ros_ready r) || negb (joint_state_ready r)); [done|].
  destruct (app_motors_read_joint_state r (r_os r)) as [[wheels|] o] eqn:Ew; [|done].
  destruct (if has_gimbal then _ else _) as [[head|] o2] eqn:Eh; [|done].
  destruct (app_time_now _ _) as [stamp o3].
  assert (map js_name (wheels ++ head) = joint_names) as Hn.
  { apply read_joints_names in Ew. rewrite map_app, Ew. unfold joint_names. destruct has_gimbal.
    - apply read_joints_names in Eh. by rewrite Eh.
    - by injection Eh as <- _. }
  destruct (publication_spec 1 PubJointState (ps_serialize_JointState (joint_states_msg stamp (wheels ++ head)) JOINT_STATE_BUF_SIZE)
              (put_os o3 (put_os o2 (put_os o r)))) as (A & B & C & _); [lia|done..| |done].
  intros Hb. split; [done|]. by exists stamp, (wheels ++ head).
Qed.

Lemma power_ok v c r : rover_ok r -> rover_ok (app_picoros_publish_power v c r).
Proof.
  intros (Ho & Hw & Hc & Hf). unfold app_picoros_publish_power. destruct (ros_ready r); cbn [negb]; [|done].
  destruct (app_time_now _ _) as [stamp o].
  destruct (publication_spec 0 PubBattery (ps_serialize_BatteryState (mk_bs (s32 (fst stamp), snd stamp) (to_f32 v) (to_f32 c)) BATTERY_STATE_BUF_SIZE)
              (put_os o r)) as (A & B & C & D & E); [lia|done..| |].
  - intros Hb. split; [done|]. by eexists.
  - split; [done|]. split; [|done]. rewrite D, E. exact Hw.
Qed.

Lemma step_rover_ok r e : rover_ok r -> rover_ok (step r e).
Proof.
  intros Hr. pose proof Hr as (Ho & Hw & Hc & Hf). destruct e as [| |rx|rx|c|t|o]; cbn -[rover_ok]; try done.
  - destruct (joint_state_work r); [|done]. unfold joint_state_work_handler.
    destruct (joint_body_ok (r <| joint_state_work := false |>)) as (A & B & C); [done..|]. by repeat split.
  - unfold app_sensors_read_and_stream. destruct (power_read (r_os r)) as [[[[v i] p]|] o]; [|done].
    unfold sensors_publish. destruct (k_uptime_get _) as [now o2]. by apply power_ok.
  - case_bool_decide; [|done]. unfold cmd_vel_handler. by destruct (ps_deserialize_Twist rx) as [[x z]|].
  - case_bool_decide; [|done]. unfold gimbal_cmd_handler. destruct (ps_deserialize_JointState _ rx) as [[names positions]|]; [|done].
    destruct (scan_names _ _ _ _) as [[pan|] [tilt|]]; try done. unfold app_gimbal_set_positions. destruct (gimbal_ready r); cbn [negb]; [|done].
    unfold set_position. destruct (actuator_set_position PanJoint pan (r_os r)) as [e1 o1].
    by destruct (actuator_set_position TiltJoint tilt _).
Qed.

Lemma gimbal_init_flags r : let r' := snd (app_gimbal_init has_servo_bus r) in
  r_link r' = r_link r /\ same_flags r r' /\ l4_connected r' = l4_connected r.
Proof.
  unfold app_gimbal_init. destruct (if has_servo_bus then _ else _) as [[|] o]; [|done]. cbn [negb].
  destruct (_ || _); [done|]. destruct (actuator_enable PanJoint o) as [e o1]. destruct (negb (e =? 0)); [done|].
  destruct (actuator_enable TiltJoint o1) as [e2 o2]. by destruct (negb (e2 =? 0)).
Qed.

Lemma boot_rover_ok r : ros_reset r -> both_outside (r_img r) -> confirmed (r_img r) = false ->
  rover_ok (rover_boot has_motors has_gimbal has_servo_bus r).
Proof.
  intros (Hl & Hr & Hj & Hw & Hp) Ho Hc.
  unfold rover_boot. set (r1 := snd (if has_gimbal then _ else _)).
  assert (r_link r1 = r_link r /\ same_flags r r1 /\ l4_connected r1 = l4_connected r) as (L & (A & B & C & D & E & F) & _).
  { unfold r1. destruct has_gimbal; [apply gimbal_init_flags|done]. }
  clearbody r1. rewrite Hr in A. rewrite Hj in B. rewrite Hw in C. rewrite Hp in D. rewrite Hc in E. unfold both_outside in Ho. rewrite Ho in F.
  assert (rover_ok r1) as Hok1 by (split; [done|]; rewrite B, E, D; by repeat split).
  unfold app_net_ipv4_ready. destruct (l4_connected r1); [|done].
  unfold app_picoros_init. destruct (picoros_interface_init (r_os r1)) as [[|] o]; cbn [negb]; [|done].
  set (r2 := (put_os o r1) <| r_link := _ |>). destruct (picoros_node_init (r_os r2)) as [[|] o2]; cbn [negb]; [|done].
  set (r3 := (put_os o2 r2) <| r_link := _ |>). pose proof (declare_pub_spec PubBattery r3) as Hd.
  destruct (declare_pub PubBattery r3) as [[|] r4]; cbn [negb]; destruct Hd as ((G1 & G2 & G3 & G4 & G5 & G6) & Lk).
  - cbn in G1, G2, G3, G4, G5, G6. destruct (finish_spec r4) as (X1 & X2 & X3 & X4 & X5 & X6 & X7 & X8 & X9); try congruence.
    { rewrite Lk. cbn. by rewrite L, Hl. }
    cbn [snd]. unfold rover_ok, both_outside. rewrite X7, X8, X9, X3, G4, G5, G6, D, E, F. by repeat split.
  - cbn in G1, G2, G3, G4, G5, G6. cbn -[rover_ok]. unfold rover_ok, both_outside. cbn. rewrite G2, G3, G4, G5, G6, B, D, E, F. by repeat split.
Qed.

(** C26: The node from reset on, over any run of its work items, the sensors' loop, commands,
    the link and the clock: the image is confirmed only after something was published;
    every joint-state message that goes out names every joint in order, with a position
    and a velocity for each - feedback missing from one withholds the message; and the
    work that sends them is due again whatever came of it. *)
Theorem rover_reports r es : ros_reset r -> both_outside (r_img r) -> confirmed (r_img r) = false ->
  let r' := rover_run has_gimbal es (rover_boot has_motors has_gimbal has_servo_bus r) in
  (confirmed (r_img r') = true -> published r' <> []) /\
  Forall published_ok (published r') /\
  (joint_state_ready r' = true -> joint_state_work r' = true).
Proof.
  intros Hat Ho Hc r'.
  pose proof (boot_rover_ok r Hat Ho Hc) as Hb.
  assert (rover_ok r') as (_ & H1' & H2' & H3'); [|done].
  unfold r', rover_run. revert Hb. generalize (rover_boot has_motors has_gimbal has_servo_bus r). clear.
  induction es as [|e es IH]; intros r Hb; [done|]. by apply IH, step_rover_ok.
Qed.
End RoverProperties.

(** * A simulated rover *)
#[local] Instance bench_wdt : @TaskWdt sim_os := {|
  hw_device _ := None; task_wdt_init _ w := (0, w); task_wdt_add _ _ w := (0, w);
  task_wdt_delete _ w := w; task_wdt_feed _ w := w; armed _ _ := false;
|}.
#[local] Instance bench_boot : @Mcuboot sim_os := {| boot_is_img_confirmed _ := false; boot_write_img_confirmed w := (0, w) |}.
(** Every joint stands at 1.5 rad. *)
Definition quarter : float32 := fdiv (f32_of_int 3) (f32_of_int 2).
#[local] Instance bench_rover : @RoverHw sim_os := {|
  actuator_is_ready _ _ := true; actuator_enable _ w := (0, w); actuator_set_position _ _ w := (0, w);
  actuator_read_feedback _ w := (Some (mk_fb (Some quarter) None), w);
  servo_bus_start w := (true, w);
  picoros_interface_init w := (true, w); picoros_node_init w := (true, w);
  picoros_publisher_declare _ w := (true, w); picoros_subscriber_declare _ w := (true, w);
  picoros_node_drop w := w; picoros_interface_close w := w; picoros_publish _ _ w := (true, w);
  ps_serialize_JointState m n := repeat (Z.of_nat (length (js_names m))) (Nat.min n 8);
  ps_serialize_BatteryState _ n := repeat 1 (Nat.min n 8);
  ps_deserialize_Twist rx := if (length rx =? 1)%nat then Some (f64_of_int 1, f64_of_int 0) else None;
  ps_deserialize_JointState n rx := Some (take n [Some "tilt_joint"; None; Some "pan_joint"; Some "pan_joint"]%string, map f64_of_int (take n rx));
  power_read w := (Some (f64_of_int 12, f64_of_int 1, f64_of_int 12), w);
|}.
Definition parked : @rover sim_os := mk_rover true false false false false None true time_boot
  (@mk_img sim_os false (-1) true [Outside; Outside] sim_boot) ros_closed [] [] [].
Notation bench_run es := (rover_run true es (rover_boot true true true parked)).

Lemma rover_reports_witness :
  let r' := bench_run [CmdVel [1]; JointWork; Sensors; JointWork; GimbalCmd [7; 8; 9; 10]] in
  confirmed (r_img r') = true /\ published r' <> [] /\ length (published r') = 3%nat /\ joint_state_work r' = true /\
  head_told r' = [(PanJoint, f32_of_int 10); (TiltJoint, f32_of_int 7)].
Proof.
  intros r'.
  destruct (rover_reports true true true parked [CmdVel [1]; JointWork; Sensors; JointWork; GimbalCmd [7; 8; 9; 10]]
              ltac:(by repeat split) eq_refl eq_refl) as (Hc & _ & Hw).
  assert (confirmed (r_img r') = true) as E by (by vm_compute).
  split; [exact E|]. split; [exact (Hc E)|]. split; [by vm_compute|]. split; [apply Hw; by vm_compute|by vm_compute].
Defined.
Lemma picoros_init_all_or_nothing_witness : let '(ok, r') := app_picoros_init true true parked in ok = true /\ ros_ready r' = true.
Proof.
  pose proof (picoros_init_all_or_nothing true true parked ltac:(by repeat split)) as H.
  destruct (app_picoros_init true true parked) as [ok r'] eqn:E. assert (ok = true) as -> by (vm_compute in E; congruence).
  split; [done|]. destruct H as [_ H]. by destruct (H eq_refl) as (_ & _ & _ & ? & _).
Defined.
