(* ===== verification/RoverHttp.v ===== *)
(** rasprover's status page: [rasprover/src/app_http.c].

    The body is printed piece by piece into a buffer of 640 bytes from what Rover.v's
    state and the actuators' feedback say, and is sent only if it is whole. *)

From Stdlib Require Import SpecFloat.
From S2P Require Import Prelude Printf Platform Floats Instances Services AppTime RoverMotors Rover.
Import Watchdog ImgConfirm.
#[local] Open Scope Z_scope.

Definition BODY_SIZE : nat := 640.
(** [MILLI]. *)
Definition MILLI (x : float64) : Z := truncate (SFmul 53 1024 x (f64_of_int 1000)).

(** What is stored of the body, and its length so far. *)
Definition page : Type := string * nat.
Definition append (p : page) (f : string) (args : list arg) : page :=
  let '(body, len) := p in
  if (BODY_SIZE <=? len)%nat then p else
  let '(n, text) := snprintf (BODY_SIZE - len) f args in
  ((String.substring 0 len body ++ text)%string, (len + n)%nat).

Definition yes_no (b : bool) : string := if b then "true" else "false".
(** [APPEND_JOINTS], an object per joint. *)
Definition append_joint (p : page) (ij : nat * joint_state) : page :=
  let '(i, j) := ij in
  append p "%s{'name':'%s','position_mrad':%lld,'velocity_mrad_s':%lld}"
    [PStr (match i with O => "" | _ => "," end); PStr (js_name j); PInt (MILLI (position_rad j)); PInt (MILLI (velocity_rad_s j))].
Definition append_joints (key : string) (joints : option (list joint_state)) (p : page) : page :=
  match joints with
  | None => append p (",'" ++ key ++ "':null") []
  | Some js => append (foldl append_joint (append p (",'" ++ key ++ "':[") []) (imap pair js)) "]" []
  end.

Section Status.
Context `{RoverHw} `{!Sntp} `{!TaskWdt} `{!Mcuboot}.
Variables has_motors has_gimbal : bool.
Variable APP_VERSION_STRING : string.

(** The page, and the rover after the reads. *)
Definition build_status (r : rover) : page * rover :=
  let '(now, o) := k_uptime_get (r_os r) in
  let p := append (""%string, O) "{'version':'%s','uptime_ms':%lld,'net':%s,'time_synced':%s"
    [PStr APP_VERSION_STRING; PInt now; PStr (yes_no (app_net_ipv4_ready r)); PStr (yes_no (app_time_synced (r_time r)))] in
  let '(p, o) := match app_sensors_last_power r with
                 | Some pw =>
                     let '(now, o) := k_uptime_get o in
                     (append p ",'power':{'voltage_mv':%d,'current_ma':%d,'power_mw':%d,'age_ms':%lld}"
                        [PInt (voltage_mv pw); PInt (current_ma pw); PInt (power_mw pw); PInt (now - uptime_ms pw)], o)
                 | None => (append p ",'power':null" [], o)
                 end in
  let '(p, o) := if has_motors then let '(js, o) := app_motors_read_joint_state r o in (append_joints "wheels" js p, o) else (p, o) in
  let '(p, o) := if has_gimbal then let '(js, o) := app_gimbal_read_joint_state r o in (append_joints "gimbal" js p, o) else (p, o) in
  (append p "}" [], put_os o r).

(** The response, if the callback gives one. *)
Definition status_handler (final : bool) (r : rover) : (Z * option string) * rover :=
  if negb final then ((0, None), r) else
  let '((body, len), r) := build_status r in
  if (BODY_SIZE <=? len)%nat then ((- ENOMEM, None), r) else ((0, Some (String.substring 0 len body)), r).
Definition app_http_start (http_server_start : Z) : Z := if negb (http_server_start =? 0) then http_server_start else 0.
End Status.

(** * The page is whole *)

(** A page holds the text of its pieces, as long as that fits, and its length always. *)
Definition page_is (p : page) (text : string) : Prop :=
  snd p = String.length text /\ ((String.length text < BODY_SIZE)%nat -> fst p = text) \/
  (BODY_SIZE <= snd p)%nat /\ (BODY_SIZE <= String.length text)%nat.
Lemma append_is p text f args : page_is p text -> page_is (append p f args) (text ++ format f args).
Proof.
  destruct p as [body len]. unfold page_is, append. cbn [fst snd]. rewrite string_length_app. intros [[-> Ht]|[H1 H2]].
  - destruct (Nat.leb_spec BODY_SIZE (String.length text)) as [Hb|Hs]; cbn [snd].
    + right. lia.
    + cbn [snprintf fst snd]. left. split; [done|]. intros Hf. rewrite (Ht Hs). rewrite !substring_all by lia. done.
  - destruct (Nat.leb_spec BODY_SIZE len); [cbn [snd]; right; lia|lia].
Qed.
(** The text of a piece, and the most it can take. *)
Definition joint_text (ij : nat * joint_state) : string :=
  format "%s{'name':'%s','position_mrad':%lld,'velocity_mrad_s':%lld}"
    [PStr (match fst ij with O => "" | _ => "," end); PStr (js_name (snd ij)); PInt (MILLI (position_rad (snd ij))); PInt (MILLI (velocity_rad_s (snd ij)))].
Definition joints_text (key : string) (joints : option (list joint_state)) : string :=
  match joints with
  | None => format (",'" ++ key ++ "':null") []
  | Some js => format (",'" ++ key ++ "':[") [] ++ foldr (fun ij t => joint_text ij ++ t) "" (imap pair js) ++ format "]" []
  end%string.
Lemma joints_fold l p text : page_is p text -> page_is (foldl append_joint p l) (text ++ foldr (fun ij t => joint_text ij ++ t)%string "" l).
Proof.
  revert p text. induction l as [|[i j] l IH]; intros p text Hp; cbn [foldl foldr]; [by rewrite string_app_nil_r|].
  rewrite <- string_app_assoc. apply IH. by apply (append_is p text).
Qed.
Lemma joints_is key joints p text : page_is p text -> page_is (append_joints key joints p) (text ++ joints_text key joints).
Proof.
  intros Hp. unfold append_joints, joints_text. destruct joints as [js|]; [|by apply append_is].
  rewrite <- !string_app_assoc. apply append_is, joints_fold. by apply append_is.
Qed.

Section StatusProperties.
Context `{RoverHw} `{!Sntp} `{!TaskWdt} `{!Mcuboot}.
Variables has_motors has_gimbal : bool.
Variable APP_VERSION_STRING : string.

(** The body an unlimited buffer would get. *)
Definition status_text (r : rover) : string :=
  let '(now, o) := k_uptime_get (r_os r) in
  let head := format "{'version':'%s','uptime_ms':%lld,'net':%s,'time_synced':%s"
    [PStr APP_VERSION_STRING; PInt now; PStr (yes_no (app_net_ipv4_ready r)); PStr (yes_no (app_time_synced (r_time r)))] in
  let '(power, o) := match app_sensors_last_power r with
                     | Some pw =>
                         let '(now, o) := k_uptime_get o in
                         (format ",'power':{'voltage_mv':%d,'current_ma':%d,'power_mw':%d,'age_ms':%lld}"
                            [PInt (voltage_mv pw); PInt (current_ma pw); PInt (power_mw pw); PInt (now - uptime_ms pw)], o)
                     | None => (format ",'power':null" [], o)
                     end in
  let '(wheels, o) := if has_motors then let '(js, o) := app_motors_read_joint_state r o in (joints_text "wheels" js, o) else (""%string, o) in
  let '(gimbal, o) := if has_gimbal then let '(js, o) := app_gimbal_read_joint_state r o in (joints_text "gimbal" js, o) else (""%string, o) in
  (((((head ++ power) ++ wheels) ++ gimbal) ++ format "}" []))%string.

Lemma append_nil p text : page_is p text -> page_is p (text ++ "").
Proof. by rewrite string_app_nil_r. Qed.
Lemma append_first f args : page_is (append (""%string, O) f args) (format f args).
Proof. pose proof (append_is (""%string, O) "" f args) as Hp. apply Hp. by left. Qed.
Lemma build_status_is r : page_is (fst (build_status has_motors has_gimbal APP_VERSION_STRING r)) (status_text r).
Proof.
  unfold build_status, status_text. destruct (k_uptime_get (r_os r)) as [now o].
  pose proof (append_first "{'version':'%s','uptime_ms':%lld,'net':%s,'time_synced':%s"
    [PStr APP_VERSION_STRING; PInt now; PStr (yes_no (app_net_ipv4_ready r)); PStr (yes_no (app_time_synced (r_time r)))]) as Hp.
  revert Hp. generalize (append (""%string, O) "{'version':'%s','uptime_ms':%lld,'net':%s,'time_synced':%s"
    [PStr APP_VERSION_STRING; PInt now; PStr (yes_no (app_net_ipv4_ready r)); PStr (yes_no (app_time_synced (r_time r)))]).
  generalize (format "{'version':'%s','uptime_ms':%lld,'net':%s,'time_synced':%s"
    [PStr APP_VERSION_STRING; PInt now; PStr (yes_no (app_net_ipv4_ready r)); PStr (yes_no (app_time_synced (r_time r)))]). intros t p Hp.
  destruct (app_sensors_last_power r) as [pw|]; [destruct (k_uptime_get o) as [now' o']|];
    (destruct has_motors; [destruct (app_motors_read_joint_state _ _)|]);
    (destruct has_gimbal; [destruct (app_gimbal_read_joint_state _ _)|]);
    cbn [fst]; repeat first [simple apply append_is | simple apply joints_is | simple apply append_nil]; assumption.
Qed.

(** The most a format takes. *)
Ltac width f :=
  let l := eval vm_compute in (lits (tokens (q f))) in
  let c := eval vm_compute in (convs (tokens (q f))) in
  unfold fwidth; replace (lits (tokens (q f))) with l by (vm_compute; reflexivity);
  replace (convs (tokens (q f))) with c by (vm_compute; reflexivity); cbn [args_width arg_width].
Ltac wide := etransitivity; [apply format_width|]; match goal with |- fwidth ?f _ <= _ => width f end.

(** What a joint's object takes, but for its name. *)
Lemma joint_width ij : Z.of_nat (String.length (joint_text ij)) <= 87 + (match fst ij with O => 0 | _ => 1 end) + Z.of_nat (String.length (js_name (snd ij))).
Proof.
  unfold joint_text. wide. destruct ij as [[|i] j]; cbn [fst snd];
    change (Z.of_nat (String.length "")) with 0; change (Z.of_nat (String.length ",")) with 1; lia.
Qed.
Lemma joints_width key f f' joints a b : (",'" ++ key ++ "':[")%string = f -> (",'" ++ key ++ "':null")%string = f' ->
  (forall js, joints = Some js -> map js_name js = [joint_name a; joint_name b]) ->
  fwidth f [] = 11 -> fwidth f' [] = 14 ->
  Z.of_nat (String.length (joints_text key joints)) <= 187 + Z.of_nat (String.length (joint_name a)) + Z.of_nat (String.length (joint_name b)).
Proof.
  intros <- <- Hn Hf Hf'. unfold joints_text. destruct joints as [js|].
  - specialize (Hn js eq_refl). destruct js as [|x [|y [|z js]]]; try discriminate Hn. injection Hn as Hx Hy.
    rewrite !string_length_app, !Nat2Z.inj_add.
    pose proof (format_width (",'" ++ key ++ "':[")%string []) as Hw. rewrite Hf in Hw.
    change (imap pair [x; y]) with [(0%nat, x); (1%nat, y)]. cbn [foldr]. rewrite string_app_nil_r, string_length_app, Nat2Z.inj_add.
    pose proof (joint_width (0%nat, x)) as W0. pose proof (joint_width (1%nat, y)) as W1. cbn [fst snd] in W0, W1. rewrite Hx in W0. rewrite Hy in W1.
    change (Z.of_nat (String.length (format "]" []))) with 1. lia.
  - pose proof (format_width (",'" ++ key ++ "':null")%string []) as Hw. rewrite Hf' in Hw. lia.
Qed.

Lemma status_fits r : (String.length APP_VERSION_STRING <= 20)%nat -> (String.length (status_text r) < BODY_SIZE)%nat.
Proof.
  intros Hv. unfold status_text. destruct (k_uptime_get (r_os r)) as [now o].
  match goal with |- context [format "{'version':'%s','uptime_ms':%lld,'net':%s,'time_synced':%s" ?a] =>
    assert (Z.of_nat (String.length (format "{'version':'%s','uptime_ms':%lld,'net':%s,'time_synced':%s" a)) <= 98) as Hh end.
  { wide. assert (forall b, Z.of_nat (String.length (yes_no b)) <= 5) as Hb by (by intros []).
    pose proof (Hb (app_net_ipv4_ready r)). pose proof (Hb (app_time_synced (r_time r))). lia. }
  revert Hh. generalize (format "{'version':'%s','uptime_ms':%lld,'net':%s,'time_synced':%s"
    [PStr APP_VERSION_STRING; PInt now; PStr (yes_no (app_net_ipv4_ready r)); PStr (yes_no (app_time_synced (r_time r)))]). intros head Hh.
  set (P := match app_sensors_last_power r with Some _ => _ | None => _ end).
  assert (Z.of_nat (String.length (fst P)) <= 113) as HP.
  { unfold P. destruct (app_sensors_last_power r) as [pw|]; [destruct (k_uptime_get o)|]; cbn [fst]; wide; lia. }
  clearbody P. destruct P as [power o1]. cbn [fst] in HP.
  set (W := if has_motors then _ else _). assert (Z.of_nat (String.length (fst W)) <= 220) as HW.
  { unfold W. destruct has_motors; [|cbn; lia]. unfold app_motors_read_joint_state. destruct (read_joints _ _ _ o1) as [js o'] eqn:E. cbn [fst].
    etransitivity; [apply (joints_width "wheels" _ _ js LeftJoint RightJoint eq_refl eq_refl); [intros l ->; by eapply read_joints_names|vm_compute; reflexivity..]|].
    change (187 + 16 + 17 <= 220). lia. }
  clearbody W. destruct W as [wheels o2]. cbn [fst] in HW.
  set (G := if has_gimbal then _ else _). assert (Z.of_nat (String.length (fst G)) <= 206) as HG.
  { unfold G. destruct has_gimbal; [|cbn; lia]. unfold app_gimbal_read_joint_state. destruct (read_joints _ _ _ o2) as [js o'] eqn:E. cbn [fst].
    etransitivity; [apply (joints_width "gimbal" _ _ js PanJoint TiltJoint eq_refl eq_refl); [intros l ->; by eapply read_joints_names|vm_compute; reflexivity..]|].
    change (187 + 9 + 10 <= 206). lia. }
  clearbody G. destruct G as [gimbal o3]. cbn [fst] in HG. rewrite !string_length_app. change (String.length (format "}" [])) with 1%nat. unfold BODY_SIZE. lia.
Qed.

(** The page is whole or refused, and with a version of at most 20 characters it is
    whole whatever it has to say. *)
Theorem status_whole r : let '((ret, body), _) := status_handler has_motors has_gimbal APP_VERSION_STRING true r in
  ((String.length (status_text r) < BODY_SIZE)%nat -> ret = 0 /\ body = Some (status_text r)) /\
  ((BODY_SIZE <= String.length (status_text r))%nat -> ret = - ENOMEM /\ body = None) /\
  ((String.length APP_VERSION_STRING <= 20)%nat -> (String.length (status_text r) < BODY_SIZE)%nat).
Proof.
  pose proof (build_status_is r) as Hp. unfold status_handler. cbn [negb].
  destruct (build_status _ _ _ r) as [[body len] r']. cbn [fst] in Hp. destruct Hp as [[Hl Ht]|[Hl Ht]]; cbn [fst snd] in *.
  - rewrite Hl. destruct (Nat.leb_spec BODY_SIZE (String.length (status_text r))); cbn [fst snd].
    + split; [lia|]. split; [done|]. apply status_fits.
    + split; [intros Hs; rewrite (Ht Hs), substring_all by lia; done|]. split; [lia|done].
  - destruct (Nat.leb_spec BODY_SIZE len); [|lia]. split; [lia|]. split; [done|]. apply status_fits.
Qed.
End StatusProperties.
