(* ===== verification/PtMcp.v ===== *)
(** pt_mcp: a pan-tilt head that an MCP client moves ([pt_mcp/src/main.c]).

    The extractors that read the arguments of a tool call, the tool, the calls of the
    server's workers with their watchdog channels, and the start-up.  The MCP server,
    the servos and the printing of a float are the class [McpHw]. *)

From Stdlib Require Import Ascii SpecFloat.
From S2P Require Import Prelude Printf Platform Floats HttpUtil Instances Services.
Import Watchdog.
#[local] Open Scope Z_scope.

Definition BOOT_WDT_TIMEOUT_MS : Z := 30000.
Definition TOOL_WDT_TIMEOUT_MS : Z := 5000.

(** * The C library *)

(** [strtof], correctly rounded; [None] when it converts nothing. *)
Definition f32_decimal (neg : bool) (m e10 : Z) : float32 :=
  match m with
  | Zpos p =>
      if 0 <=? e10 then binary_normalize 24 128 ((if neg then -1 else 1) * m * 10 ^ e10) 0 neg
      else let '(q, e, l) := SFdiv_core_binary 24 128 m 0 (10 ^ (- e10)) 0 in binary_round_aux 24 128 neg q e l
  | _ => S754_zero neg
  end.
Fixpoint digit_run (base : Z) (s : cstr) : cstr * cstr :=
  match s with
  | [] => ([], [])
  | a :: s' => if (0 <=? hex_digit a) && (hex_digit a <? base)
               then let '(d, r) := digit_run base s' in (a :: d, r) else ([], s)
  end.
(** The digits before and after a point, if one follows. *)
Definition significand (base : Z) (s : cstr) : cstr * cstr * cstr :=
  let '(ip, s1) := digit_run base s in
  match s1 with
  | a :: s2 => if Ascii.eqb a (chr ".") then let '(fp, s3) := digit_run base s2 in (ip, fp, s3) else (ip, [], s1)
  | [] => (ip, [], [])
  end.
(** A sign, if there is one. *)
Definition signed (s : cstr) : bool * cstr :=
  match s with
  | a :: s' => if Ascii.eqb a (chr "-") then (true, s') else if Ascii.eqb a (chr "+") then (false, s') else (false, s)
  | [] => (false, [])
  end.
(** The exponent after the letter [c], 0 if there is none. *)
Definition exponent (c : string) (s : cstr) : Z :=
  match s with
  | a :: s' =>
      if Ascii.eqb (lower a) (chr c) then
        let '(neg, s1) := signed s' in
        let v := digits_value 10 (fst (digit_run 10 s1)) in if neg then - v else v
      else 0
  | [] => 0
  end.
(** Past the characters [p] takes. *)
Fixpoint skip (p : ascii -> bool) (s : cstr) : cstr :=
  match s with a :: s' => if p a then skip p s' else s | [] => [] end.
Definition starts_with (word : string) (s : cstr) : bool := has_prefix (to_chars word) (map lower s).
Definition strtof (s : cstr) : option float32 :=
  let '(neg, s) := signed (skip isspace s) in
  if starts_with "inf" s then Some (S754_infinity neg)
  else if starts_with "nan" s then Some S754_nan
  else
    let '(hip, hfp, hs) := significand 16 (drop 2 s) in
    if starts_with "0x" s && negb (bool_decide (hip ++ hfp = [])) then
      let m := digits_value 16 (hip ++ hfp) in
      Some (if m =? 0 then S754_zero neg
            else binary_normalize 24 128 (if neg then - m else m) (exponent "p" hs - 4 * Z.of_nat (length hfp)) neg)
    else
      let '(ip, fp, s1) := significand 10 s in
      if bool_decide (ip ++ fp = []) then None
      else Some (f32_decimal neg (digits_value 10 (ip ++ fp)) (exponent "e" s1 - Z.of_nat (length fp))).

(** * The extractors *)
Definition json_space (a : ascii) : bool :=
  let n := char_code a in (n =? 32) || (n =? 9) || (n =? 10) || (n =? 13).
Definition json_value_start (json : option cstr) (key : string) : option cstr :=
  match json with
  | None => None
  | Some json =>
      let pattern := to_chars (snd (snprintf 16 "'%s'" [PStr key])) in
      match strstr json pattern with
      | None => None
      | Some pos => match strchr (drop (length pattern) pos) (chr ":") with
                    | None => None
                    | Some pos => Some (skip json_space (tail pos))
                    end
      end
  end.
Definition json_get_number (json : option cstr) (key : string) : option float32 :=
  match json_value_start json key with None => None | Some start => strtof start end.
Definition json_string_equals (json : option cstr) (key expected : string) : bool :=
  let len := String.length expected in
  match json_value_start json key with
  | Some (a :: s) => Ascii.eqb a dquote && (has_prefix (to_chars expected) s && bool_decide (s !! len = Some dquote))
  | _ => false
  end.

(** * The tool *)
Inductive servo := Pan | Tilt.
Inductive servo_write := SetOne (v : servo) (position : float32) | SetBoth (pan tilt : float32).
Inductive mcp_tool_event_type := MCP_TOOL_CALL_REQUEST | MCP_TOOL_CANCEL_REQUEST.
Inductive mcp_tool_message := MCP_USR_TOOL_RESPONSE (text : string) | MCP_USR_TOOL_CANCEL_ACK.

Class McpHw `{Os} := {
  (* the feedback's position, if it is valid *)
  actuator_read_feedback : servo -> os -> Z * option float32 * os;
  actuator_set_position : servo -> float32 -> os -> Z * os;
  actuator_group_set_position : float32 -> float32 -> os -> Z * os;
  mcp_server_submit_tool_message : mcp_tool_message -> string -> os -> Z * os;
  fixed3 : float32 -> string;                    (* what percent .3f prints *)
  bus_servo_start : os -> bool * os;             (* the bus's lookup and its init *)
  servo_ready : servo -> os -> bool;
  servo_enable : servo -> os -> Z * os;
  mcp_server_init : os -> bool * os;
  mcp_server_http_init : os -> Z * os;
  mcp_server_add_tool : os -> Z * os;
  mcp_server_start : os -> Z * os;
  mcp_server_http_start : os -> Z * os;
}.

Section Tool.
Context `{McpHw}.

(** What a call did: the writes to the bus with their results, and the messages. *)
Record tool := mk_tool { writes : list (servo_write * Z); said : list (mcp_tool_message * string); t_os : os }.
#[export] Instance eta_tool : Eta tool := fun t => mk_tool (writes t) (said t) (t_os t).

Definition submit (m : mcp_tool_message) (token : string) (t : tool) : Z * tool :=
  let '(ret, o) := mcp_server_submit_tool_message m token (t_os t) in
  (ret, t <| t_os := o |> <| said ::= fun l => l ++ [(m, token)] |>).
Definition submit_text (text token : string) (t : tool) : Z * tool := submit (MCP_USR_TOOL_RESPONSE text) token t.
Definition move (w : servo_write) (t : tool) : Z * tool :=
  let '(ret, o) := match w with
                   | SetOne v x => actuator_set_position v x (t_os t)
                   | SetBoth p x => actuator_group_set_position p x (t_os t)
                   end in
  (ret, t <| t_os := o |> <| writes ::= fun l => l ++ [(w, ret)] |>).
Definition read_position (v : servo) (t : tool) : option float32 * tool :=
  let '(ret, pos, o) := actuator_read_feedback v (t_os t) in
  (if negb (ret =? 0) then None else pos, t <| t_os := o |>).

(** A print into [buf] from [ret] on, which is below its 128 bytes, and the new [ret]. *)
Definition print_more (buf : string * nat) (text : string) : string * nat :=
  let '(body, ret) := buf in
  (String.substring 0 ret body ++ String.substring 0 (128 - ret - 1) text, ret + String.length text)%nat%string.

Definition motor_control (motors_ready : bool) (event : mcp_tool_event_type) (arguments : option cstr)
    (token : string) (t : tool) : Z * tool :=
  match event with
  | MCP_TOOL_CANCEL_REQUEST => let '(_, t) := submit MCP_USR_TOOL_CANCEL_ACK token t in (0, t)
  | MCP_TOOL_CALL_REQUEST =>
      if negb motors_ready then let '(_, t) := submit_text "Motors not initialized" token t in (- ENODEV, t)
      else if json_string_equals arguments "action" "get" then
        let failed t := let '(_, t) := submit_text "Failed to read motor positions" token t in (- EIO, t) in
        match read_position Pan t with
        | (None, t) => failed t
        | (Some pan, t) =>
            match read_position Tilt t with
            | (None, t) => failed t
            | (Some tilt, t) =>
                submit_text (snd (snprintf 128 "{'pan':%s,'tilt':%s}" [PStr (fixed3 pan); PStr (fixed3 tilt)])) token t
            end
        end
      else if json_string_equals arguments "action" "set" then
        let pan := json_get_number arguments "pan" in
        let tilt := json_get_number arguments "tilt" in
        let go w :=
          let '(ret, t) := move w t in
          if negb (ret =? 0) then
            let '(_, t) := submit_text (snd (snprintf 128 "Motor setpoint failed: %d" [PInt ret])) token t in (ret, t)
          else
            let buf := let '(n, text) := snprintf 128 "Moving:" [] in (text, n) in
            let buf := match pan with Some x => print_more buf (format " pan=%s" [PStr (fixed3 x)]) | None => buf end in
            let buf := match tilt with Some x => print_more buf (format " tilt=%s" [PStr (fixed3 x)]) | None => buf end in
            submit_text (fst buf) token t in
        match pan, tilt with
        | None, None =>
            let '(_, t) := submit_text (format "Set requires 'pan' and/or 'tilt' (radians)" []) token t in (- EINVAL, t)
        | Some p, Some x => go (SetBoth p x)
        | Some p, None => go (SetOne Pan p)
        | None, Some x => go (SetOne Tilt x)
        end
      else let '(_, t) := submit_text "Invalid action. Use: get or set" token t in (- EINVAL, t)
  end.

(** [motors_init], [app_start] and [main]. *)
Definition enable_all (o : os) : bool * os :=
  let '(r1, o) := servo_enable Pan o in
  if negb (r1 =? 0) then (false, o) else
  let '(r2, o) := servo_enable Tilt o in (r2 =? 0, o).
Definition motors_init (o : os) : bool * os :=
  let '(up, o) := bus_servo_start o in
  if negb up then (false, o)
  else if negb (servo_ready Pan o) || negb (servo_ready Tilt o) then (false, o)
  else enable_all o.
Definition app_start (o : os) : Z * bool * os :=
  let '(motors_ready, o) := motors_init o in
  let '(server, o) := mcp_server_init o in
  if negb server then (- ENOMEM, motors_ready, o) else
  let '(ret, o) := mcp_server_http_init o in
  if negb (ret =? 0) then (ret, motors_ready, o) else
  let '(ret, o) := mcp_server_add_tool o in
  if negb (ret =? 0) then (ret, motors_ready, o) else
  let '(ret, o) := mcp_server_start o in
  if negb (ret =? 0) then (ret, motors_ready, o) else
  let '(ret, o) := mcp_server_http_start o in
  if negb (ret =? 0) then (ret, motors_ready, o) else (0, motors_ready, o).
Context `{!TaskWdt}.
(** The result, [wdt_ready] and [motors_ready]. *)
Definition main (o : os) : Z * bool * bool * os :=
  let '(_, wdt_ready, o) := app_watchdog_init false o in
  let '(wdt_channel, o) := app_watchdog_register wdt_ready "boot" BOOT_WDT_TIMEOUT_MS o in
  let '(ret, motors_ready, o) := app_start o in
  (ret, wdt_ready, motors_ready, app_watchdog_unregister wdt_ready wdt_channel o).
End Tool.

(** * Calls
    [motor_control_tool_callback] on the server's workers: each registers a channel,
    runs the tool, and gives the channel up. *)
Section Calls.
Context `{McpHw} `{!TaskWdt}.
Variables wdt_ready motors_ready : bool.

Inductive worker :=
  | Idle
  | Registered (wdt_channel : Z) (event : mcp_tool_event_type) (arguments : option cstr) (token : string)
  | Answered (wdt_channel : Z) (ret : Z).
Record server := mk_server { workers : list worker; the_tool : tool }.
#[export] Instance eta_server : Eta server := fun s => mk_server (workers s) (the_tool s).

(** A call comes to worker [i]; its next step. *)
Inductive call_event := Call (i : nat) (event : mcp_tool_event_type) (arguments : option cstr) (token : string) | Step (i : nat).
Definition call_step (s : server) (e : call_event) : server :=
  match e with
  | Call i event arguments token =>
      match workers s !! i with
      | Some Idle =>
          let '(ch, o) := app_watchdog_register wdt_ready "tool" TOOL_WDT_TIMEOUT_MS (t_os (the_tool s)) in
          mk_server (<[i := Registered ch event arguments token]> (workers s)) ((the_tool s) <| t_os := o |>)
      | _ => s
      end
  | Step i =>
      match workers s !! i with
      | Some (Registered ch event arguments token) =>
          let '(ret, t) := motor_control motors_ready event arguments token (the_tool s) in
          mk_server (<[i := Answered ch ret]> (workers s)) t
      | Some (Answered ch ret) =>
          mk_server (<[i := Idle]> (workers s)) ((the_tool s) <| t_os ::= app_watchdog_unregister wdt_ready ch |>)
      | _ => s
      end
  end.
Definition call_run (es : list call_event) (s : server) : server := foldl call_step s es.
Definition holds (w : worker) (ch : Z) : Prop :=
  match w with Idle => False | Registered c _ _ _ | Answered c _ => c = ch end /\ 0 <= ch.
End Calls.

(** * The scanner *)
Definition quoted (s : cstr) : cstr := dquote :: s ++ [dquote].
Definition no_quote (s : cstr) : Prop := Forall (fun c => c <> dquote) s.

Lemma strstr_nil pat : pat <> [] -> strstr [] pat = None.
Proof. destruct pat; done. Qed.
Lemma strstr_here pat r : strstr (pat ++ r) pat = Some (pat ++ r).
Proof. destruct (pat ++ r) eqn:E; cbn [strstr]; rewrite <- E, has_prefix_app; done. Qed.

(** Text without quotes hides no pattern that begins with one. *)
Lemma strstr_skip u r k : no_quote u -> strstr (u ++ r) (quoted k) = strstr r (quoted k).
Proof.
  induction u as [|c u IH]; intros Hu; [done|]. inversion Hu as [|? ? Hc Hu']; subst. cbn [app strstr].
  assert (has_prefix (quoted k) (c :: u ++ r) = false) as ->.
  { unfold quoted. cbn [has_prefix]. destruct (Ascii.eqb_spec dquote c) as [<-|]; [by contradiction Hc|done]. }
  by apply IH.
Qed.

Lemma prefix_quoted k s r : no_quote k -> no_quote s -> has_prefix (k ++ [dquote]) (s ++ dquote :: r) = true -> k = s.
Proof.
  revert s. induction k as [|c k IH]; intros s Hk Hs Hp.
  - destruct s as [|d s]; [done|]. inversion Hs as [|? ? Hd _]; subst. cbn [app has_prefix] in Hp. destruct (Ascii.eqb_spec dquote d) as [<-|]; [by contradiction Hd|done].
  - inversion Hk as [|? ? Hc Hk']; subst. destruct s as [|d s]; cbn in Hp; apply andb_true_iff in Hp as [He Hp]; apply Ascii.eqb_eq in He as ->; [done|].
    inversion Hs; subst. f_equal. by apply IH.
Qed.

(** Another string, and what follows it cannot be the key either. *)
Lemma strstr_string k s r : no_quote k -> no_quote s -> k <> s -> k <> [] -> (forall c, head r = Some c -> Some c <> head k) ->
  strstr (quoted s ++ r) (quoted k) = strstr r (quoted k).
Proof.
  intros Hk Hs Hne Hk0 Hr. unfold quoted at 1. cbn [app]. rewrite <- app_assoc. cbn [app strstr].
  assert (has_prefix (quoted k) (dquote :: s ++ dquote :: r) = false) as ->.
  { apply not_true_iff_false. intros Hp. apply Hne. unfold quoted in Hp. cbn [has_prefix] in Hp. apply andb_true_iff in Hp as [_ Hp]. by eapply prefix_quoted. }
  rewrite strstr_skip by done. cbn [strstr].
  assert (has_prefix (quoted k) (dquote :: r) = false) as ->; [|done].
  unfold quoted. cbn [has_prefix]. rewrite Ascii.eqb_refl. cbn [andb]. destruct k as [|c k]; [done|]. destruct r as [|d r]; [done|].
  cbn. destruct (Ascii.eqb_spec c d) as [->|]; [|done]. by contradiction (Hr d).
Qed.

(** ** Flat objects *)

(** A number's text: sign, digits, fraction, exponent. *)
Record jnum := mk_num { n_neg : bool; n_int : cstr; n_frac : option cstr; n_exp : option (ascii * option bool * cstr) }.
Definition sign_text (s : option bool) : cstr := match s with None => [] | Some true => [chr "-"] | Some false => [chr "+"] end.
Definition num_text (n : jnum) : cstr :=
  (if n_neg n then [chr "-"] else []) ++ n_int n ++
  match n_frac n with None => [] | Some f => chr "." :: f end ++
  match n_exp n with None => [] | Some (e, sg, d) => e :: sign_text sg ++ d end.
Definition digits (s : cstr) : Prop := s <> [] /\ digits_of 10 s = true.
Definition num_ok (n : jnum) : Prop :=
  digits (n_int n) /\ (forall f, n_frac n = Some f -> digits f) /\
  (forall e sg d, n_exp n = Some (e, sg, d) -> lower e = chr "e" /\ digits d).
(** Its value: the nearest float. *)
Definition num_value (n : jnum) : float32 :=
  let f := default [] (n_frac n) in
  f32_decimal (n_neg n) (digits_value 10 (n_int n ++ f))
    (match n_exp n with
     | None => 0
     | Some (_, sg, d) => if bool_decide (sg = Some true) then - digits_value 10 d else digits_value 10 d
     end - Z.of_nat (length f)).

Inductive jvalue := JStr (s : string) | JNum (n : jnum) | JTrue | JFalse | JNull.
#[export] Instance jnum_eq_dec : EqDecision jnum.
Proof. solve_decision. Defined.
#[export] Instance jvalue_eq_dec : EqDecision jvalue.
Proof. solve_decision. Defined.
Definition value_text (v : jvalue) : cstr :=
  match v with
  | JStr s => quoted (to_chars s)
  | JNum n => num_text n
  | JTrue => to_chars "true" | JFalse => to_chars "false" | JNull => to_chars "null"
  end.
(** A member with the space around its tokens. *)
Record jmember := mk_member { j_name : string; j_value : jvalue; gap0 : cstr; gap1 : cstr; gap2 : cstr; gap3 : cstr }.
Definition member_text (m : jmember) : cstr :=
  gap0 m ++ quoted (to_chars (j_name m)) ++ gap1 m ++ [chr ":"] ++ gap2 m ++ value_text (j_value m) ++ gap3 m.
Fixpoint members_text (ms : list jmember) : cstr :=
  match ms with
  | [] => [chr "}"]
  | [m] => member_text m ++ [chr "}"]
  | m :: ms => member_text m ++ [chr ","] ++ members_text ms
  end.
Definition object_text (ms : list jmember) : cstr := chr "{" :: members_text ms.

Definition plain (s : string) : Prop := no_quote (to_chars s).
Definition spaces (s : cstr) : Prop := Forall (fun c => json_space c = true) s.
Definition value_ok (v : jvalue) : Prop := match v with JStr s => plain s | JNum n => num_ok n | _ => True end.
Definition member_ok (m : jmember) : Prop :=
  plain (j_name m) /\ value_ok (j_value m) /\ spaces (gap0 m) /\ spaces (gap1 m) /\ spaces (gap2 m) /\ spaces (gap3 m).
(** No string in the object says [key]. *)
Definition unsaid (key : string) (ms : list jmember) : Prop := Forall (fun m => j_value m <> JStr key) ms.
Fixpoint find_member (key : string) (ms : list jmember) : option jvalue :=
  match ms with
  | [] => None
  | m :: ms => if bool_decide (j_name m = key) then Some (j_value m) else find_member key ms
  end.
(** The tool's keys. *)
Definition tool_key (key : string) : Prop := key = "action"%string \/ key = "pan"%string \/ key = "tilt"%string.

(** What can follow a token. *)
Definition stop (c : ascii) : Prop := json_space c = true \/ c = chr ":" \/ c = chr "," \/ c = chr "}".
Definition stopped (r : cstr) : Prop := exists c r', r = c :: r' /\ stop c.
Lemma stopped_app g r : spaces g -> stopped r -> stopped (g ++ r).
Proof. intros Hg Hr. destruct g as [|c g]; [done|]. inversion Hg; subst. exists c, (g ++ r). split; [done|]. by left. Qed.
Lemma stopped_cons c r : stop c -> stopped (c :: r).
Proof. intros Hc. by exists c, r. Qed.
Lemma key_stop key r : tool_key key -> stopped r -> forall c, head r = Some c -> Some c <> head (to_chars key).
Proof.
  intros Hk (c & r' & -> & Hc) c' [= <-]. destruct Hk as [->|[->| ->]]; cbn; intros [= ->];
    destruct Hc as [Hc|[Hc|[Hc|Hc]]]; vm_compute in Hc; done.
Qed.
Lemma key_plain key : tool_key key -> plain key /\ to_chars key <> [].
Proof. intros [->|[->| ->]]; (split; [|done]); repeat (constructor; [by vm_compute|]); constructor. Qed.
Lemma no_quote_app u v : no_quote u -> no_quote v -> no_quote (u ++ v).
Proof. apply Forall_app_2. Qed.
Lemma spaces_no_quote g : spaces g -> no_quote g.
Proof. intros Hg. eapply Forall_impl; [exact Hg|]. by intros c Hc ->. Qed.
Lemma digits_no_quote d : digits_of 10 d = true -> no_quote d.
Proof. intros Hd. apply Forall_forall. intros c Hc ->. apply list_elem_of_In in Hc. unfold digits_of in Hd. rewrite forallb_forall in Hd. by specialize (Hd _ Hc). Qed.
Lemma lower_no_quote c d : lower c = chr d -> chr d <> dquote -> c <> dquote.
Proof. intros Hl Hd ->. apply Hd. rewrite <- Hl. by vm_compute. Qed.
#[local] Hint Resolve no_quote_app spaces_no_quote digits_no_quote : pt_mcp.
Ltac one_char := repeat first [apply List.Forall_cons; [by vm_compute|] | apply List.Forall_nil].
Lemma num_no_quote n : num_ok n -> no_quote (num_text n).
Proof.
  intros ([_ Hi] & Hf & He). unfold num_text. apply no_quote_app; [destruct (n_neg n); one_char|].
  apply no_quote_app; [auto with pt_mcp|]. apply no_quote_app.
  - destruct (n_frac n) as [f|]; [|constructor]. destruct (Hf f eq_refl). constructor; [by vm_compute|by apply digits_no_quote].
  - destruct (n_exp n) as [[[e sg] d]|]; [|constructor]. destruct (He e sg d eq_refl) as [Hl [_ Hd]].
    constructor; [by eapply lower_no_quote|]. apply no_quote_app; [destruct sg as [[]|]; one_char|by apply digits_no_quote].
Qed.

Lemma strstr_value key v r : tool_key key -> value_ok v -> v <> JStr key -> stopped r ->
  strstr (value_text v ++ r) (quoted (to_chars key)) = strstr r (quoted (to_chars key)).
Proof.
  intros Hk Hv Hne Hr. destruct (key_plain key Hk) as [Hp H0].
  destruct v as [s|n| | |]; cbn [value_text];
    [|by apply strstr_skip, num_no_quote|apply strstr_skip; one_char..].
  apply strstr_string; [done|done| |done|by eapply key_stop].
  intros E. apply Hne. f_equal. rewrite <- (String.string_of_list_ascii_of_string s), <- (String.string_of_list_ascii_of_string key).
  unfold to_chars in E. by rewrite E.
Qed.

(** A member of another name, and its value, are passed over. *)
Lemma strstr_member key m r : tool_key key -> member_ok m -> j_value m <> JStr key -> j_name m <> key -> stopped r ->
  strstr (member_text m ++ r) (quoted (to_chars key)) = strstr r (quoted (to_chars key)).
Proof.
  intros Hk (Hn & Hv & H0 & H1 & H2 & H3) Hu Hne Hr. destruct (key_plain key Hk) as [Hp Hk0]. unfold member_text. rewrite <- !app_assoc.
  rewrite strstr_skip by auto with pt_mcp.
  rewrite (strstr_string _ (to_chars (j_name m))); [|done|done| |done|].
  - rewrite strstr_skip by auto with pt_mcp. rewrite strstr_skip by one_char. rewrite strstr_skip by auto with pt_mcp.
    rewrite strstr_value by (done || by apply stopped_app). by apply strstr_skip, spaces_no_quote.
  - intros E. apply Hne. rewrite <- (String.string_of_list_ascii_of_string (j_name m)), <- (String.string_of_list_ascii_of_string key).
    unfold to_chars in E. by rewrite E.
  - eapply key_stop; [done|]. apply stopped_app; [done|]. apply stopped_cons. by right; left.
Qed.

(** Where the scan stops: at the first member of the name. *)
Lemma scan_members key ms : tool_key key -> Forall member_ok ms -> unsaid key ms ->
  match find_member key ms with
  | None => strstr (members_text ms) (quoted (to_chars key)) = None
  | Some v => exists g1 g2 r, strstr (members_text ms) (quoted (to_chars key)) =
      Some (quoted (to_chars key) ++ g1 ++ chr ":" :: g2 ++ value_text v ++ r) /\
      spaces g1 /\ spaces g2 /\ stopped r /\ value_ok v
  end.
Proof.
  intros Hk. induction ms as [|m ms IH]; intros Hm Hu.
  - cbn [find_member members_text]. destruct Hk as [->|[->| ->]]; reflexivity.
  - inversion Hm as [|? ? Hmo Hms]; subst. inversion Hu as [|? ? Hmu Hus]; subst. specialize (IH Hms Hus).
    assert (exists r, members_text (m :: ms) = member_text m ++ r /\ stopped r /\
      (strstr r (quoted (to_chars key)) = strstr (members_text ms) (quoted (to_chars key)))) as (r & -> & Hr & Er).
    { destruct ms as [|m' ms].
      - exists [chr "}"]. split; [done|]. split; [|done]. apply stopped_cons. by do 3 right.
      - exists ([chr ","] ++ members_text (m' :: ms)). split; [done|]. split; [apply stopped_cons; by right; right; left|].
        by rewrite strstr_skip by one_char. }
    cbn [find_member]. case_bool_decide as Hn.
    + destruct Hmo as (Hp & Hv & H0 & H1 & H2 & H3). exists (gap1 m), (gap2 m), (gap3 m ++ r).
      split; [|by repeat split; try apply stopped_app]. unfold member_text. rewrite <- !app_assoc.
      rewrite strstr_skip by auto with pt_mcp. rewrite Hn. by rewrite strstr_here.
    + rewrite strstr_member by done. rewrite Er. exact IH.
Qed.

Lemma skip_gap g r : spaces g -> skip json_space (g ++ r) = skip json_space r.
Proof. induction 1 as [|c g Hc _ IH]; [done|]. cbn. by rewrite Hc. Qed.
Lemma strchr_gap g r : spaces g -> strchr (g ++ chr ":" :: r) (chr ":") = Some (chr ":" :: r).
Proof.
  induction 1 as [|c g Hc _ IH]; [reflexivity|]. cbn [app strchr]. destruct (Ascii.eqb_spec c (chr ":")) as [->|]; [by vm_compute in Hc|done].
Qed.
Lemma value_head v r : value_ok v -> exists c r', value_text v ++ r = c :: r' /\ json_space c = false.
Proof.
  destruct v as [s|n| | |]; cbn [value_text quoted app]; intros Hv; try by eexists _, _.
  destruct Hv as ([Hi Hd] & _). unfold num_text. destruct (n_neg n); cbn [app]; [by eexists _, _|].
  destruct (n_int n) as [|c d]; [done|]. cbn [app]. eexists _, _. split; [done|].
  cbn in Hd. apply andb_true_iff in Hd as [Hd _]. destruct (json_space c) eqn:E; [|done]. exfalso.
  unfold json_space in E. unfold hex_digit in Hd. cbv zeta in *. repeat bool_case; to_prop; lia.
Qed.

(** The scan finds the first member of the name, whatever stands around it. *)
Lemma value_start_spec key ms : tool_key key -> Forall member_ok ms -> unsaid key ms ->
  match find_member key ms with
  | None => json_value_start (Some (object_text ms)) key = None
  | Some v => exists r, json_value_start (Some (object_text ms)) key = Some (value_text v ++ r) /\ stopped r /\ value_ok v
  end.
Proof.
  intros Hk Hm Hu. pose proof (scan_members key ms Hk Hm Hu) as Hs.
  assert (to_chars (snd (snprintf 16 "'%s'" [PStr key])) = quoted (to_chars key)) as Hp by (destruct Hk as [->|[->| ->]]; reflexivity).
  unfold json_value_start. cbv zeta. rewrite Hp. change (object_text ms) with ([chr "{"] ++ members_text ms). rewrite strstr_skip by one_char.
  destruct (find_member key ms) as [v|]; [|by rewrite Hs]. destruct Hs as (g1 & g2 & r & -> & H1 & H2 & Hr & Hv).
  exists r. split; [|done]. rewrite drop_app_length, strchr_gap by done. cbn [tail].
  rewrite skip_gap by done. destruct (value_head v r Hv) as (c & r' & -> & Hc). cbn. by rewrite Hc.
Qed.

(** ** Numbers *)
Lemma digit_run_app base d c r : digits_of base d = true -> (0 <=? hex_digit c) && (hex_digit c <? base) = false ->
  digit_run base (d ++ c :: r) = (d, c :: r).
Proof.
  intros Hd Hc. induction d as [|a d IH]; cbn [app digit_run]; [by rewrite Hc|].
  cbn in Hd. apply andb_true_iff in Hd as [-> Hd]. by rewrite (IH Hd).
Qed.
Lemma stop_no_digit c base : stop c -> (0 <=? hex_digit c) && (hex_digit c <? base) = false.
Proof.
  intros Hc. assert (hex_digit c = -1) as ->; [|done].
  destruct Hc as [Hc|[->|[->| ->]]]; [|reflexivity..]. unfold json_space, hex_digit in *. cbv zeta in *. repeat bool_case; to_prop; lia.
Qed.
(** What follows the integer part: a point, an exponent, or a stop. *)
Definition after_int (c : ascii) : Prop := c = chr "." \/ lower c = chr "e" \/ stop c.
Lemma stop_letter c : stop c -> lower c = c /\ c <> chr "e" /\ c <> chr "x" /\ c <> chr ".".
Proof.
  intros [Hc|[->|[->| ->]]]; [|by vm_compute..].
  assert (lower c = c) as Hl by (revert Hc; by destruct c as [[] [] [] [] [] [] [] []]).
  split; [done|]. split_and!; intros ->; by vm_compute in Hc.
Qed.
Lemma lower_e c : lower c = chr "e" -> c = chr "e" \/ c = chr "E".
Proof. destruct c as [[] [] [] [] [] [] [] []]; vm_compute; intros [=]; auto. Qed.
Lemma after_int_spec c : after_int c -> (0 <=? hex_digit c) && (hex_digit c <? 10) = false /\ lower c <> chr "x".
Proof.
  intros [->|[Hc|Hc]]; [by vm_compute| |].
  - by destruct (lower_e c Hc) as [->| ->].
  - split; [by apply stop_no_digit|]. destruct (stop_letter c Hc) as (-> & _ & Hx & _). done.
Qed.
Lemma digit_char a : (0 <=? hex_digit a) && (hex_digit a <? 10) = true -> isspace a = false /\ a <> chr "-" /\ a <> chr "+" /\
  lower a = a /\ a <> chr "i" /\ a <> chr "n" /\ a <> chr "x" /\ a <> chr ".".
Proof.
  intros Hd. split; [|split; [by intros ->|split; [by intros ->|split; [|by split_and!; intros ->]]]].
  - unfold isspace, hex_digit in *. cbv zeta in *. repeat bool_case; to_prop; lia.
  - revert Hd. by destruct a as [[] [] [] [] [] [] [] []].
Qed.

(** The exponent is read up to what stops it. *)
Lemma exponent_spec e sg d c r : lower e = chr "e" -> digits d -> stop c ->
  exponent "e" (e :: sign_text sg ++ d ++ c :: r) = if bool_decide (sg = Some true) then - digits_value 10 d else digits_value 10 d.
Proof.
  intros He [Hd0 Hd] Hc. unfold exponent. rewrite He, Ascii.eqb_refl.
  assert (signed (sign_text sg ++ d ++ c :: r) = (bool_decide (sg = Some true), d ++ c :: r)) as ->.
  { destruct sg as [[]|]; try reflexivity. destruct d as [|a d]; [done|]. cbn in Hd. apply andb_true_iff in Hd as [Ha _].
    destruct (digit_char a Ha) as (_ & Hm & Hp & _). cbn [sign_text app signed].
    destruct (Ascii.eqb_spec a (chr "-")); [done|]. by destruct (Ascii.eqb_spec a (chr "+")). }
  rewrite digit_run_app by (done || by apply stop_no_digit). by destruct sg as [[]|].
Qed.

(** The number's text after its sign, in its parts. *)
Lemma significand_spec n r : num_ok n -> stopped r -> let s := num_text (mk_num false (n_int n) (n_frac n) (n_exp n)) ++ r in
  (exists t, significand 10 s = (n_int n, default [] (n_frac n), t) /\
     exponent "e" t = match n_exp n with None => 0 | Some (_, sg, d) => if bool_decide (sg = Some true) then - digits_value 10 d else digits_value 10 d end) /\
  exists c t, s = n_int n ++ c :: t /\ after_int c.
Proof.
  intros (Hi & Hf & He) (c & r' & -> & Hc) s. subst s. unfold num_text. cbn [n_neg n_int n_frac n_exp app]. rewrite <- !app_assoc.
  set (E := match n_exp n with None => [] | Some (e, sg, d) => e :: sign_text sg ++ d end).
  assert (exists x t, E ++ c :: r' = x :: t /\ (lower x = chr "e" \/ stop x) /\ exponent "e" (x :: t) =
    match n_exp n with None => 0 | Some (_, sg, d) => if bool_decide (sg = Some true) then - digits_value 10 d else digits_value 10 d end) as (x & t & HE & Hx & Hexp).
  { subst E. destruct (n_exp n) as [[[e sg] d]|].
    - destruct (He e sg d eq_refl). exists e, (sign_text sg ++ d ++ c :: r'). split; [by rewrite <- app_comm_cons, <- app_assoc|]. split; [by left|].
      by apply exponent_spec.
    - exists c, r'. split; [done|]. split; [by right|]. destruct (stop_letter c Hc) as (Hl & Hne & _). unfold exponent. rewrite Hl.
      by destruct (Ascii.eqb_spec c (chr "e")). }
  rewrite HE. clear HE E. destruct Hi as [_ Hi]. assert (after_int x) as Hxa by (unfold after_int; tauto).
  destruct (after_int_spec x Hxa) as [Hxd _].
  assert (x <> chr ".") as Hdot. { destruct Hx as [Hx|Hx]; [by intros ->|]. apply (stop_letter x Hx). }
  destruct (n_frac n) as [f|]; cbn [app default from_option id].
  - destruct (Hf f eq_refl) as [_ Hfd]. split; [|exists (chr "."), (f ++ x :: t); split; [done|by left]].
    exists (x :: t). split; [|done]. unfold significand. rewrite digit_run_app by done. cbn [Ascii.eqb]. rewrite Ascii.eqb_refl.
    by rewrite digit_run_app.
  - split; [|by exists x, t]. exists (x :: t). split; [|done]. unfold significand. rewrite digit_run_app by done.
    by destruct (Ascii.eqb_spec x (chr ".")).
Qed.

(** A JSON number is read as the nearest float, whatever follows it. *)
Lemma strtof_num n r : num_ok n -> stopped r -> strtof (num_text n ++ r) = Some (num_value n).
Proof.
  intros Hn Hr. destruct (significand_spec n r Hn Hr) as [(t & Hsig & Hexp) (c & t' & Hs & Hc)].
  pose (s := num_text (mk_num false (n_int n) (n_frac n) (n_exp n)) ++ r). fold s in Hsig, Hs.
  destruct Hn as ((Hi0 & Hi) & _). destruct (n_int n) as [|a d] eqn:Ei; [done|]. cbn in Hi. apply andb_true_iff in Hi as [Ha Hd].
  destruct (digit_char a Ha) as (Hsp & Hm & Hp & Hl & Hai & Han & Hax & _).
  assert (signed (skip isspace (num_text n ++ r)) = (n_neg n, s)) as Hsg.
  { assert (num_text n ++ r = (if n_neg n then [chr "-"] else []) ++ s) as ->.
    { unfold s, num_text. cbn [n_neg n_int n_frac n_exp]. by rewrite <- !app_assoc, Ei. }
    destruct (n_neg n); cbn [app]; [reflexivity|]. rewrite Hs. cbn [app skip]. rewrite Hsp. cbn [signed].
    destruct (Ascii.eqb_spec a (chr "-")); [done|]. by destruct (Ascii.eqb_spec a (chr "+")). }
  unfold strtof. rewrite Hsg.
  assert (forall w x y, to_chars w = x :: y -> x <> a -> starts_with w s = false) as Hw.
  { intros w x y Hw Hx. unfold starts_with. rewrite Hw, Hs. cbn [app map has_prefix]. rewrite Hl. by destruct (Ascii.eqb_spec x a). }
  rewrite (Hw "inf"%string _ _ eq_refl) by (intros <-; by apply Hai). rewrite (Hw "nan"%string _ _ eq_refl) by (intros <-; by apply Han).
  assert (starts_with "0x" s = false) as ->.
  { unfold starts_with. rewrite Hs. destruct d as [|b d]; cbn [app map].
    - destruct (after_int_spec c Hc) as [_ Hx]. change (to_chars "0x") with [chr "0"; chr "x"]. cbn [has_prefix].
      destruct (Ascii.eqb_spec (chr "x") (lower c)) as [E|]; [by rewrite <- E in Hx|]. apply andb_false_r.
    - cbn in Hd. apply andb_true_iff in Hd as [Hb _]. destruct (digit_char b Hb) as (_ & _ & _ & Hlb & _ & _ & Hbx & _).
      change (to_chars "0x") with [chr "0"; chr "x"]. cbn [has_prefix]. rewrite Hlb.
      destruct (Ascii.eqb_spec (chr "x") b) as [E|]; [by rewrite <- E in Hbx|]. apply andb_false_r. }
  destruct (significand 16 (drop 2 s)) as [[? ?] ?]. cbn [andb]. rewrite Hsig. cbn [app].
  rewrite bool_decide_false by done. rewrite Hexp. unfold num_value. by rewrite Ei.
Qed.

Lemma strtof_none s : signed (skip isspace s) = (false, s) -> starts_with "inf" s = false -> starts_with "nan" s = false ->
  starts_with "0x" s = false -> significand 10 s = ([], [], s) -> strtof s = None.
Proof.
  intros H1 H2 H3 H4 H5. unfold strtof. rewrite H1, H2, H3, H4. destruct (significand 16 (drop 2 s)) as [[? ?] ?]. cbn [andb].
  by rewrite H5.
Qed.

Definition number (v : option jvalue) : option float32 := match v with Some (JNum n) => Some (num_value n) | _ => None end.

(** What the extractors make of a flat object. *)
Lemma get_number_spec key ms : tool_key key -> Forall member_ok ms -> unsaid key ms ->
  json_get_number (Some (object_text ms)) key = number (find_member key ms).
Proof.
  intros Hk Hm Hu. pose proof (value_start_spec key ms Hk Hm Hu) as Hs. unfold json_get_number.
  destruct (find_member key ms) as [v|]; [|by rewrite Hs]. destruct Hs as (r & -> & Hr & Hv).
  destruct v as [s|n| | |]; cbn [number value_text]; [|by apply strtof_num|..];
    apply strtof_none; reflexivity.
Qed.
Lemma string_equals_spec key expected ms : tool_key key -> Forall member_ok ms -> unsaid key ms -> plain expected ->
  json_string_equals (Some (object_text ms)) key expected = bool_decide (find_member key ms = Some (JStr expected)).
Proof.
  intros Hk Hm Hu Hx. pose proof (value_start_spec key ms Hk Hm Hu) as Hs. unfold json_string_equals. cbv zeta.
  destruct (find_member key ms) as [v|]; [|by rewrite Hs]. destruct Hs as (r & -> & Hr & Hv).
  destruct v as [s|n| | |]; [|rewrite bool_decide_false by done..]; cbn [value_text]; try reflexivity.
  - unfold quoted. cbn [app]. rewrite Ascii.eqb_refl. cbn [andb]. rewrite <- app_assoc. cbn [app].
    apply eq_true_iff_eq. rewrite andb_true_iff, !bool_decide_eq_true. split.
    + intros [Hp Hq]. apply has_prefix_spec in Hp as [q Hq']. do 2 f_equal.
      rewrite <- (String.string_of_list_ascii_of_string s), <- (String.string_of_list_ascii_of_string expected). f_equal. symmetry.
      apply (prefix_quoted (to_chars expected) (to_chars s) r); [done|done|].
      rewrite Hq' in Hq |- *. rewrite lookup_app_r in Hq by (rewrite to_chars_length; lia). rewrite to_chars_length, Nat.sub_diag in Hq.
      destruct q as [|x q]; [done|]. injection Hq as ->. change (to_chars expected ++ dquote :: q) with (to_chars expected ++ [dquote] ++ q).
      rewrite app_assoc. apply has_prefix_app.
    + intros [= ->]. split; [apply has_prefix_app|]. rewrite lookup_app_r by (rewrite to_chars_length; lia). by rewrite to_chars_length, Nat.sub_diag.
  - destruct (value_head (JNum n) r Hv) as (x & r' & E & Hsp). cbn [value_text] in E. destruct (num_text n ++ r) as [|x' r''] eqn:E'; [done|].
    destruct (Ascii.eqb_spec x' dquote) as [->|]; [|done]. exfalso.
    pose proof (num_no_quote n Hv) as Hq. destruct Hv as ([Hi _] & _). unfold num_text in E', Hq.
    destruct (n_neg n), (n_int n); cbn in E'; try done. injection E' as -> _. by inversion Hq.
Qed.

(** * The tool, proved *)

(** The longest binary32 takes 39 digits, a point and three more, after a sign. *)
Class McpLaws `{McpHw} : Prop := { fixed3_width : forall x, (String.length (fixed3 x) <= 44)%nat }.

Section ToolProperties.
Context `{McpLaws}.

(** The write that two values ask for. *)
Definition setpoint (pan tilt : option float32) : option servo_write :=
  match pan, tilt with
  | Some p, Some x => Some (SetBoth p x)
  | Some p, None => Some (SetOne Pan p)
  | None, Some x => Some (SetOne Tilt x)
  | None, None => None
  end.
Definition intended (ready : bool) (event : mcp_tool_event_type) (arguments : option cstr) : option servo_write :=
  match event with
  | MCP_TOOL_CANCEL_REQUEST => None
  | MCP_TOOL_CALL_REQUEST =>
      if ready && negb (json_string_equals arguments "action" "get") && json_string_equals arguments "action" "set"
      then setpoint (json_get_number arguments "pan") (json_get_number arguments "tilt") else None
  end.
Definition moving_text (pan tilt : option float32) : string :=
  ("Moving:" ++ match pan with Some x => " pan=" ++ fixed3 x | None => "" end ++
   match tilt with Some x => " tilt=" ++ fixed3 x | None => "" end)%string.

Lemma submit_spec m token t : let t' := snd (submit m token t) in
  writes t' = writes t /\ said t' = said t ++ [(m, token)].
Proof. unfold submit. by destruct (mcp_server_submit_tool_message m token (t_os t)). Qed.
Lemma read_spec v t : writes (snd (read_position v t)) = writes t /\ said (snd (read_position v t)) = said t.
Proof. unfold read_position. by destruct (actuator_read_feedback v (t_os t)) as [[? ?] ?]. Qed.

Lemma substring_0 n s : (n <= 0)%nat -> String.substring 0 n s = ""%string.
Proof. intros Hn. assert (n = 0%nat) as -> by lia. by destruct s. Qed.
Lemma print_more_fits body n text : String.length body = n -> (n + String.length text < 128)%nat ->
  print_more (body, n) text = ((body ++ text)%string, (n + String.length text)%nat) /\
  String.length (body ++ text) = (n + String.length text)%nat.
Proof.
  intros Hb Hf. unfold print_more. rewrite !substring_all by lia. split; [done|]. rewrite string_length_app. lia.
Qed.
(** The text of a move is never cut. *)
Lemma moving_fits pan tilt :
  let buf := let '(n, text) := snprintf 128 "Moving:" [] in (text, n) in
  let buf := match pan with Some x => print_more buf (format " pan=%s" [PStr (fixed3 x)]) | None => buf end in
  let buf := match tilt with Some x => print_more buf (format " tilt=%s" [PStr (fixed3 x)]) | None => buf end in
  fst buf = moving_text pan tilt /\ (String.length (moving_text pan tilt) < 128)%nat.
Proof.
  assert (forall x, format " pan=%s" [PStr (fixed3 x)] = (" pan=" ++ fixed3 x)%string) as Hp by (intros x; cbn; by rewrite string_app_nil_r).
  assert (forall x, format " tilt=%s" [PStr (fixed3 x)] = (" tilt=" ++ fixed3 x)%string) as Ht by (intros x; cbn; by rewrite string_app_nil_r).
  change (let '(n, text) := snprintf 128 "Moving:" [] in (text, n)) with ("Moving:"%string, 7%nat). cbv zeta. unfold moving_text.
  destruct pan as [p|], tilt as [x|]; rewrite ?Hp, ?Ht;
    try pose proof (fixed3_width p) as Wp; try pose proof (fixed3_width x) as Wx.
  - destruct (print_more_fits "Moving:" 7 (" pan=" ++ fixed3 p)) as [-> L1]; [done|rewrite string_length_app; cbn [String.length]; lia|].
    rewrite string_length_app in L1. cbn [String.length] in L1.
    destruct (print_more_fits ("Moving:" ++ (" pan=" ++ fixed3 p)) (7 + String.length (" pan=" ++ fixed3 p)) (" tilt=" ++ fixed3 x)) as [-> L2];
      [by rewrite string_length_app|rewrite !string_length_app; cbn [String.length]; lia|].
    cbn [fst]. split; [by rewrite string_app_assoc|]. rewrite !string_length_app. cbn [String.length]. lia.
  - destruct (print_more_fits "Moving:" 7 (" pan=" ++ fixed3 p)) as [-> L1]; [done|rewrite string_length_app; cbn [String.length]; lia|].
    cbn [fst]. rewrite string_app_nil_r. split; [done|]. rewrite !string_length_app. cbn [String.length]. lia.
  - destruct (print_more_fits "Moving:" 7 (" tilt=" ++ fixed3 x)) as [-> L1]; [done|rewrite string_length_app; cbn [String.length]; lia|].
    split; [done|]. rewrite !string_length_app. cbn [String.length]. lia.
  - split; [done|]. change (7 < 128)%nat. lia.
Qed.

(** Does an answer say that the head moves?  And what one says after a write that the
    driver refused. *)
Definition says_moving (text : string) : bool := String.prefix "Moving" text.
Definition failed_text (ret : Z) : string := snd (snprintf 128 "Motor setpoint failed: %d" [PInt ret]).

(** What an answer says of the write it follows, or of there being none. *)
Definition answers (w : option servo_write) (pan tilt : option float32) (t : tool) (out : Z * tool) (text : string) : Prop :=
  (String.length text < 128)%nat /\
  match w with
  | None => writes (snd out) = writes t /\ says_moving text = false
  | Some w => exists r, writes (snd out) = writes t ++ [(w, r)] /\
      (r = 0 -> text = moving_text pan tilt) /\ (r <> 0 -> fst out = r /\ text = failed_text r)
  end.
(** What a call ends with: its one answer, and at most the one write. *)
Definition call_ends (event : mcp_tool_event_type) (w : option servo_write) (pan tilt : option float32) (token : string)
    (t : tool) (out : Z * tool) : Prop :=
  exists m, said (snd out) = said t ++ [(m, token)] /\
    match m with
    | MCP_USR_TOOL_RESPONSE text => answers w pan tilt t out text
    | MCP_USR_TOOL_CANCEL_ACK => event = MCP_TOOL_CANCEL_REQUEST /\ writes (snd out) = writes t
    end.
Lemma ends_text event pan tilt token t t1 text ret : (String.length text < 128)%nat -> says_moving text = false ->
  writes t1 = writes t -> said t1 = said t ->
  call_ends event None pan tilt token t (let '(_, t2) := submit_text text token t1 in (ret, t2)) /\
  call_ends event None pan tilt token t (submit_text text token t1).
Proof.
  intros Hl Hq Hw Hs. unfold submit_text. destruct (submit_spec (MCP_USR_TOOL_RESPONSE text) token t1) as [Ew Es].
  destruct (submit _ _ _) as [r t2]. cbn [snd] in Ew, Es.
  split; exists (MCP_USR_TOOL_RESPONSE text); cbn [snd]; rewrite Es, Hs; unfold answers; cbn [snd]; by rewrite Ew.
Qed.
Lemma substring_cap n s : (String.length (String.substring 0 n s) <= n)%nat.
Proof. revert n. induction s as [|c s IH]; intros [|n]; cbn; [lia..|]. specialize (IH n). lia. Qed.
Lemma snprintf_cap n f args : (1 <= n)%nat -> (String.length (snd (snprintf n f args)) < n)%nat.
Proof. intros Hn. cbn [snprintf snd]. pose proof (substring_cap (n - 1) (format f args)). lia. Qed.
Lemma positions_text p x : exists s, format "{'pan':%s,'tilt':%s}" [PStr p; PStr x] = String "{" s.
Proof.
  unfold format. assert (exists T, tokens (q "{'pan':%s,'tilt':%s}") = T /\ exists s, print_tokens T [PStr p; PStr x] = String "{" s)
    as (T & -> & HT); [|exact HT].
  eexists. split; [vm_compute; reflexivity|]. cbn [print_tokens]. by eexists.
Qed.
Lemma positions_still p x : says_moving (snd (snprintf 128 "{'pan':%s,'tilt':%s}" [PStr p; PStr x])) = false.
Proof. unfold says_moving. cbn [snprintf snd]. destruct (positions_text p x) as [s ->]. done. Qed.

Ltac short := first [done | apply Nat.ltb_lt; reflexivity].
Lemma go_ends event w pan tilt token t :
  call_ends event (Some w) pan tilt token t
    (let '(ret, t) := move w t in
     if negb (ret =? 0) then
       let '(_, t) := submit_text (snd (snprintf 128 "Motor setpoint failed: %d" [PInt ret])) token t in (ret, t)
     else submit_text (moving_text pan tilt) token t).
Proof.
  assert (exists r t1, move w t = (r, t1) /\ writes t1 = writes t ++ [(w, r)] /\ said t1 = said t) as (r & t1 & -> & Hw & Hs).
  { unfold move. destruct w as [v x|p x]; [destruct (actuator_set_position _ _ _)|destruct (actuator_group_set_position _ _ _)]; by eexists _, _. }
  unfold submit_text. destruct (Z.eqb_spec r 0) as [->|Hr]; cbn [negb].
  - destruct (submit_spec (MCP_USR_TOOL_RESPONSE (moving_text pan tilt)) token t1) as [Ew Es].
    eexists. rewrite Es, Hs. split; [done|]. split; [apply moving_fits|]. exists 0. by rewrite Ew, Hw.
  - pose proof (snprintf_cap 128 "Motor setpoint failed: %d" [PInt r] ltac:(lia)) as Hl.
    set (text := snd (snprintf 128 _ _)) in *. assert (text = failed_text r) as Ht by (unfold text, failed_text; reflexivity).
    clearbody text.
    set (m := MCP_USR_TOOL_RESPONSE text). destruct (submit_spec m token t1) as [Ew Es]. destruct (submit m token t1) as [r2 t2]. cbn [snd] in *.
    exists m. cbn [fst snd]. rewrite Es, Hs. split; [done|]. split; [exact Hl|].
    exists r. cbn [fst snd]. rewrite Ew, Hw. split; [done|]. split; [done|]. intros _. by split.
Qed.

(** Every call of the tool, whatever its arguments. *)
Lemma motor_control_ends ready event arguments token t :
  call_ends event (intended ready event arguments) (json_get_number arguments "pan") (json_get_number arguments "tilt") token t
    (motor_control ready event arguments token t).
Proof.
  unfold motor_control, intended. destruct event; cycle 1.
  { destruct (submit_spec MCP_USR_TOOL_CANCEL_ACK token t) as [Ew Es]. destruct (submit _ _ _) as [r t1]. cbn [snd] in *.
    by exists MCP_USR_TOOL_CANCEL_ACK. }
  destruct ready; cbn [negb andb]; [|apply ends_text; short].
  destruct (json_string_equals arguments "action" "get"); cbn [negb andb].
  - pose proof (read_spec Pan t) as [Rw Rs]. destruct (read_position Pan t) as [[pan|] t1]; cbn [snd] in *; [|apply ends_text; short].
    pose proof (read_spec Tilt t1) as [Rw' Rs']. destruct (read_position Tilt t1) as [[tilt|] t2]; cbn [snd] in *.
    + apply (ends_text _ _ _ token t t2 _ 0); [apply snprintf_cap; lia|apply positions_still|congruence|congruence].
    + apply ends_text; [short|done|congruence|congruence].
  - destruct (json_string_equals arguments "action" "set"); [|apply ends_text; short].
    pose proof (fun pan tilt => proj1 (moving_fits pan tilt)) as Hm. cbv zeta in Hm.
    destruct (json_get_number arguments "pan") as [p|] eqn:Ep, (json_get_number arguments "tilt") as [x|] eqn:Ex; cbn [setpoint];
      [rewrite (Hm (Some p) (Some x))|rewrite (Hm (Some p) None)|rewrite (Hm None (Some x))|]; try apply go_ends.
    apply ends_text; short.
Qed.

(** C27: A call moves the head exactly as its arguments say, and is answered once: on any
    flat JSON object, in any order and with any space between the tokens, whose strings do
    not say the tool's own keys, the servos get one write - both values in one when both
    are there, each the nearest float to the number's text - if action is set, the motors
    are up and a value is given, and otherwise none; one answer of less than 128 bytes goes
    out under the call's token.  After a write that the driver took the answer says the
    move, whole; after one that it refused, that it failed and with what error, which the
    call returns; and with no write it does not say that the head moves. *)
Theorem head_moves_as_told ready ms token t : Forall member_ok ms ->
  unsaid "action" ms -> unsaid "pan" ms -> unsaid "tilt" ms ->
  let pan := number (find_member "pan" ms) in
  let tilt := number (find_member "tilt" ms) in
  let out := motor_control ready MCP_TOOL_CALL_REQUEST (Some (object_text ms)) token t in
  exists text, said (snd out) = said t ++ [(MCP_USR_TOOL_RESPONSE text, token)] /\ (String.length text < 128)%nat /\
  match (if ready && bool_decide (find_member "action" ms = Some (JStr "set")) then setpoint pan tilt else None) with
  | None => writes (snd out) = writes t /\ says_moving text = false
  | Some w => exists r, writes (snd out) = writes t ++ [(w, r)] /\
      (r = 0 -> text = moving_text pan tilt) /\ (r <> 0 -> fst out = r /\ text = failed_text r)
  end.
Proof.
  intros Hm Ha Hp Ht pan tilt out.
  destruct (motor_control_ends ready MCP_TOOL_CALL_REQUEST (Some (object_text ms)) token t) as (m & Hs & Hf). fold out in Hs, Hf.
  rewrite (get_number_spec "pan" ms), (get_number_spec "tilt" ms) in Hf by (done || by (unfold tool_key; tauto)). fold pan tilt in Hf.
  assert (intended ready MCP_TOOL_CALL_REQUEST (Some (object_text ms)) =
    if ready && bool_decide (find_member "action" ms = Some (JStr "set")) then setpoint pan tilt else None) as Hi.
  { unfold intended. rewrite !(string_equals_spec "action" _ ms) by (done || (by left) || by repeat constructor).
    rewrite (get_number_spec "pan" ms), (get_number_spec "tilt" ms) by (done || by (unfold tool_key; tauto)). fold pan tilt.
    destruct ready; [|done]. cbn [andb]. repeat case_bool_decide; try done. congruence. }
  rewrite Hi in Hf. destruct m as [text|]; [|by destruct Hf]. exists text. by split.
Qed.
End ToolProperties.

(** * The watchdog *)

(** A channel given was free, and nothing else of the tool touches the watchdog. *)
Class WdtSlots `{McpHw} `{!TaskWdt} : Prop := {
  add_free : forall ms n o ch o', task_wdt_add ms n o = (ch, o') ->
    (0 <= ch -> armed o ch = false) /\ (forall k, k <> ch -> armed o' k = armed o k) /\ (ch < 0 -> armed o' ch = armed o ch);
  feedback_armed : forall v o k, armed (snd (actuator_read_feedback v o)) k = armed o k;
  position_armed : forall v x o k, armed (snd (actuator_set_position v x o)) k = armed o k;
  group_armed : forall p x o k, armed (snd (actuator_group_set_position p x o)) k = armed o k;
  submit_armed : forall m token o k, armed (snd (mcp_server_submit_tool_message m token o)) k = armed o k;
}.

Section CallProperties.
Context `{McpHw} `{!TaskWdt} `{!TaskWdtLaws} `{!WdtSlots}.
Variables wdt_ready motors_ready : bool.

Definition quiet (t t' : tool) : Prop := forall k, armed (t_os t') k = armed (t_os t) k.
Lemma submit_quiet m token t : quiet t (snd (submit m token t)).
Proof. intros k. unfold submit. pose proof (submit_armed m token (t_os t) k) as E. by destruct (mcp_server_submit_tool_message _ _ _). Qed.
Lemma read_quiet v t : quiet t (snd (read_position v t)).
Proof. intros k. unfold read_position. pose proof (feedback_armed v (t_os t) k) as E. by destruct (actuator_read_feedback _ _) as [[? ?] ?]. Qed.
Lemma move_quiet w t : quiet t (snd (move w t)).
Proof.
  intros k. unfold move. destruct w as [v x|p x].
  - pose proof (position_armed v x (t_os t) k) as E. by destruct (actuator_set_position _ _ _).
  - pose proof (group_armed p x (t_os t) k) as E. by destruct (actuator_group_set_position _ _ _).
Qed.
Lemma quiet_after t1 t2 t3 : quiet t1 t2 -> quiet t2 t3 -> quiet t1 t3.
Proof. intros Ha Hb k. by rewrite Hb, Ha. Qed.
Lemma said_quiet m token t t0 ret : quiet t0 t -> quiet t0 (snd (let '(_, t) := submit m token t in (ret : Z, t))) /\ quiet t0 (snd (submit m token t)).
Proof.
  intros Hq. assert (quiet t0 (snd (submit m token t))) as Hs by (eapply quiet_after; [done|apply submit_quiet]).
  by destruct (submit m token t).
Qed.
Lemma motor_control_quiet event arguments token t : quiet t (snd (motor_control motors_ready event arguments token t)).
Proof.
  assert (quiet t t) as Hr by done.
  assert (forall text ret t1, quiet t t1 -> quiet t (snd (let '(_, t2) := submit_text text token t1 in (ret : Z, t2)))) as Hsay
    by (intros; by apply said_quiet).
  assert (forall text t1, quiet t t1 -> quiet t (snd (submit_text text token t1))) as Hsub by (intros; by apply (said_quiet _ _ _ _ 0)).
  unfold motor_control. destruct event; cycle 1; [by apply said_quiet|].
  destruct (negb motors_ready); [by apply Hsay|].
  destruct (json_string_equals arguments "action" "get").
  - pose proof (read_quiet Pan t) as R1. destruct (read_position Pan t) as [[pan|] t1]; cbn [snd] in R1; [|by apply Hsay].
    pose proof (read_quiet Tilt t1) as R2. destruct (read_position Tilt t1) as [[tilt|] t2]; cbn [snd] in R2.
    + apply Hsub. by eapply quiet_after.
    + apply Hsay. by eapply quiet_after.
  - destruct (json_string_equals arguments "action" "set"); [|by apply Hsay].
    destruct (json_get_number arguments "pan") as [p|], (json_get_number arguments "tilt") as [x|]; [..|by apply Hsay];
      match goal with |- context [move ?w t] => pose proof (move_quiet w t) as R1; destruct (move w t) as [r t1] end; cbn [snd] in R1;
      (destruct (negb (r =? 0)); [by apply Hsay|by apply Hsub]).
Qed.

(** What stands while calls run: a channel is armed because it was, or for the call in
    progress that holds it, and two calls hold two channels. *)
Record calls_ok (o0 : os) (s : server) : Prop := {
  co_armed : forall k, armed (t_os (the_tool s)) k = true <-> armed o0 k = true \/ exists i w, workers s !! i = Some w /\ holds w k;
  co_fresh : forall i w k, workers s !! i = Some w -> holds w k -> armed o0 k = false;
  co_apart : forall i j w v k, workers s !! i = Some w -> workers s !! j = Some v -> holds w k -> holds v k -> i = j;
  co_ready : forall i w k, workers s !! i = Some w -> holds w k -> wdt_ready = true;
}.
Lemma lookup_step (l : list worker) i j (w v : worker) : <[i := w]> l !! j = Some v -> (j = i /\ v = w) \/ (j <> i /\ l !! j = Some v).
Proof.
  destruct (decide (j = i)) as [->|Hne].
  - intros E. left. split; [done|]. destruct (decide (i < length l)%nat) as [Hl|Hl].
    + rewrite list_lookup_insert_eq in E by done. congruence.
    + rewrite list_insert_ge in E by lia. apply lookup_lt_Some in E. lia.
  - rewrite list_lookup_insert_ne by done. by right.
Qed.

(** A worker moves on: the channel it gives up, if any, is disarmed, and the one it
    takes was free. *)
Lemma swap_ok o0 s i w w' t' : workers s !! i = Some w -> calls_ok o0 s ->
  (forall k, holds w' k -> wdt_ready = true /\ (holds w k \/ armed (t_os (the_tool s)) k = false)) ->
  (forall k, armed (t_os t') k = true <-> (armed (t_os (the_tool s)) k = true /\ ~ holds w k) \/ holds w' k) ->
  calls_ok o0 (mk_server (<[i := w']> (workers s)) t').
Proof.
  intros Hi [Ha Hf Hx Hr] Hnew Harm. assert (i < length (workers s))%nat as Hl by (by eapply lookup_lt_Some). split; cbn [workers the_tool].
  - intros k. rewrite Harm. split.
    + intros [[Hk Hw]|Hk]; [|right; exists i, w'; by rewrite list_lookup_insert_eq].
      apply Ha in Hk as [Hk|(j & v & Hj & Hv)]; [by left|]. right. exists j, v. split; [|done].
      rewrite list_lookup_insert_ne; [done|]. intros <-. by simplify_eq.
    + intros [Hk|(j & v & Hj & Hv)].
      * left. split; [apply Ha; by left|]. intros Hw. by rewrite (Hf _ _ _ Hi Hw) in Hk.
      * destruct (lookup_step _ _ _ _ _ Hj) as [[-> ->]|[Hne Hj']]; [by right|]. left.
        split; [apply Ha; right; by exists j, v|]. intros Hw. by apply Hne, (Hx j i v w k).
  - intros j v k Hj Hv. destruct (lookup_step _ _ _ _ _ Hj) as [[-> ->]|[_ Hj']]; [|by eapply Hf].
    destruct (Hnew k Hv) as [_ [Hw|Hk]]; [by eapply Hf|]. apply not_true_iff_false. intros H0k.
    assert (armed (t_os (the_tool s)) k = true) by (apply Ha; by left). congruence.
  - assert (forall j v k, j <> i -> workers s !! j = Some v -> holds v k -> holds w' k -> False) as Hout.
    { intros j v k Hne Hj Hv Hw. destruct (Hnew k Hw) as [_ [Hw'|Hk]]; [by apply Hne, (Hx j i v w k)|].
      assert (armed (t_os (the_tool s)) k = true) by (apply Ha; right; by exists j, v). congruence. }
    intros a b v1 v2 k E1 E2 Hv1 Hv2.
    destruct (lookup_step _ _ _ _ _ E1) as [[-> ->]|[Hn1 E1']], (lookup_step _ _ _ _ _ E2) as [[-> ->]|[Hn2 E2']];
      [done|by destruct (Hout b v2 k)|by destruct (Hout a v1 k)|by eapply Hx].
  - intros j v k Hj Hv. destruct (lookup_step _ _ _ _ _ Hj) as [[-> ->]|[_ Hj']]; [by destruct (Hnew k Hv)|by eapply Hr].
Qed.

Lemma register_spec name ms o ch o' : app_watchdog_register wdt_ready name ms o = (ch, o') ->
  (0 <= ch -> wdt_ready = true /\ armed o ch = false /\ armed o' ch = true) /\ (forall k, k <> ch \/ ch < 0 -> armed o' k = armed o k).
Proof.
  unfold app_watchdog_register. destruct wdt_ready; cbn [negb]; [|intros [= <- <-]; split; [unfold EBUSY; lia|done]].
  intros E. destruct (add_free _ _ _ _ _ E) as (F1 & F2 & F3). split; [intros Hc; split; [done|]; split; [by apply F1|by eapply add_arms]|].
  intros k [Hk|Hk]; [by apply F2|]. destruct (decide (k = ch)) as [->|]; [by apply F3|by apply F2].
Qed.

Lemma call_step_ok o0 s e : calls_ok o0 s -> calls_ok o0 (call_step wdt_ready motors_ready s e).
Proof.
  intros Hs. destruct e as [i event arguments token|i]; cbn [call_step]; destruct (workers s !! i) as [[|ch ev ar tk|ch ret]|] eqn:Hi; try done.
  - destruct (app_watchdog_register _ _ _ _) as [ch o'] eqn:E. destruct (register_spec _ _ _ _ _ E) as [Hc Hk].
    eapply swap_ok; [done|done| |]; intros k; cbn [holds t_os update eta_tool].
    + intros [-> Hp]. destruct (Hc Hp) as (? & ? & _). split; [done|]. by right.
    + destruct (decide (k = ch /\ 0 <= ch)) as [[-> Hp]|Hne]; [split; [by right|intros _; by apply Hc]|].
      rewrite Hk by lia. split; [intros Ht; left; split; [done|by intros [[] _]]|]. intros [[Ht _]|[-> Hp]]; [done|]. by destruct Hne.
  - pose proof (motor_control_quiet ev ar tk (the_tool s)) as Hq. destruct (motor_control _ _ _ _ _) as [ret t]. cbn [snd] in Hq.
    eapply swap_ok; [done|done| |].
    { intros k Hk. split; [exact (co_ready _ _ Hs _ _ _ Hi Hk)|by left]. }
    intros k. rewrite Hq. cbn [holds]. split; [|intros [[? _]|Hh]; [done|]].
    + intros Ht. destruct (decide (ch = k /\ 0 <= k)); [by right|left; by split].
    + apply (co_armed _ _ Hs). right. by exists i, (Registered ch ev ar tk).
  - eapply swap_ok; [done|done|by intros k [[] _]|]. intros k. cbn [t_os update eta_tool holds]. unfold app_watchdog_unregister.
    destruct (wdt_ready && (0 <=? ch)) eqn:Ew.
    + to_prop. rewrite delete_disarms. destruct (Z.eqb_spec k ch) as [->|Hne]; [split; [done|]; intros [[_ Hn]|[[] _]]; by destruct Hn|].
      split; [intros Ht; left; split; [done|by intros [-> _]]|]. by intros [[? _]|[[] _]].
    + split; [|by intros [[? _]|[[] _]]]. intros Ht. left. split; [done|]. intros [-> Hp].
      rewrite (co_ready _ _ Hs i (Answered k ret) k Hi) in Ew by done. cbn in Ew. lia.
Qed.

(** C28: Calls are guarded, and leave nothing behind: however the workers' calls interleave,
    a channel is armed exactly if it was before the server ran or a call in progress holds
    it; no two calls hold the same one, and none took one that was in use.  So a call stuck
    on the bus stays watched whatever else is answered, and once every worker is idle the
    watchdog is as it was. *)
Theorem calls_guarded n o0 es t0 : t_os t0 = o0 ->
  calls_ok o0 (call_run wdt_ready motors_ready es (mk_server (replicate n Idle) t0)).
Proof.
  intros Ho. unfold call_run. assert (calls_ok o0 (mk_server (replicate n Idle) t0)) as Hi.
  { split; cbn [workers the_tool].
    - intros k. rewrite Ho. split; [by left|]. intros [?|(i & w & Hw & Hh)]; [done|].
      apply lookup_replicate in Hw as [-> _]. by destruct Hh.
    - intros i w k Hw [Hh _]. by apply lookup_replicate in Hw as [-> _].
    - intros i j w v k Hw _ [Hh _]. by apply lookup_replicate in Hw as [-> _].
    - intros i w k Hw [Hh _]. by apply lookup_replicate in Hw as [-> _]. }
  revert Hi. generalize (mk_server (replicate n Idle) t0). clear Ho t0.
  induction es as [|e es IH]; intros s Hs; [done|]. apply IH. clear IH es. by apply call_step_ok.
Qed.
End CallProperties.

(** * The start *)

(** Nor does anything the start calls. *)
Class StartQuiet `{McpHw} `{!TaskWdt} : Prop := {
  bus_armed : forall o k, armed (snd (bus_servo_start o)) k = armed o k;
  enable_armed : forall v o k, armed (snd (servo_enable v o)) k = armed o k;
  init_armed : forall o k, armed (snd (mcp_server_init o)) k = armed o k;
  http_init_armed : forall o k, armed (snd (mcp_server_http_init o)) k = armed o k;
  add_tool_armed : forall o k, armed (snd (mcp_server_add_tool o)) k = armed o k;
  server_armed : forall o k, armed (snd (mcp_server_start o)) k = armed o k;
  http_armed : forall o k, armed (snd (mcp_server_http_start o)) k = armed o k;
}.

Section StartProperties.
Context `{McpHw} `{!TaskWdt} `{!TaskWdtLaws} `{!WdtSlots} `{!StartQuiet}.

Lemma motors_init_armed o k : armed (snd (motors_init o)) k = armed o k.
Proof.
  unfold motors_init, enable_all. pose proof (bus_armed o k) as B. destruct (bus_servo_start o) as [[] o1]; cbn [negb snd] in *; [|done].
  destruct (_ || _); [done|]. pose proof (enable_armed Pan o1 k) as E1. destruct (servo_enable Pan o1) as [r1 o2]. cbn [snd] in E1.
  destruct (negb _); cbn [snd]; [congruence|]. pose proof (enable_armed Tilt o2 k) as E2. destruct (servo_enable Tilt o2). cbn [snd] in *. congruence.
Qed.
(** One call of the start: its result, and the watchdog as it was. *)
Ltac start_call law f o k := let E := fresh "E" in pose proof (law o k) as E; destruct (f o) as [? ?]; cbn [snd] in E.
Lemma app_start_armed o k : armed (snd (app_start o)) k = armed o k.
Proof.
  unfold app_start. pose proof (motors_init_armed o k) as E. destruct (motors_init o) as [mr o1]. cbn [snd] in E.
  pose proof (init_armed o1 k) as E1. destruct (mcp_server_init o1) as [[] o2]; cbn [snd negb] in *; [|congruence].
  pose proof (http_init_armed o2 k) as E2. destruct (mcp_server_http_init o2) as [r2 o3]. cbn [snd] in E2. destruct (negb _); cbn [snd]; [congruence|].
  pose proof (add_tool_armed o3 k) as E3. destruct (mcp_server_add_tool o3) as [r3 o4]. cbn [snd] in E3. destruct (negb _); cbn [snd]; [congruence|].
  pose proof (server_armed o4 k) as E4. destruct (mcp_server_start o4) as [r4 o5]. cbn [snd] in E4. destruct (negb _); cbn [snd]; [congruence|].
  pose proof (http_armed o5 k) as E5. destruct (mcp_server_http_start o5) as [r5 o6]. cbn [snd] in E5. destruct (negb _); cbn [snd]; congruence.
Qed.

(** Whatever fails on the way, the boot's channel does not outlive main, so that nothing
    resets a board whose main has returned; and without its motors the tool still answers. *)
Theorem start_leaves_no_timer o :
  let '(_, wdt_ready, o1) := app_watchdog_init false o in
  let '(ret, _, ready, o') := main o in
  (forall k, armed o' k = armed o1 k) /\
  (ready = false -> forall event arguments token t, writes (snd (motor_control ready event arguments token t)) = writes t).
Proof.
  unfold main. destruct (app_watchdog_init false o) as [[r wdt_ready] o1].
  destruct (app_watchdog_register wdt_ready "boot" BOOT_WDT_TIMEOUT_MS o1) as [ch o2] eqn:Er.
  destruct (register_spec _ _ _ _ _ _ Er) as [Hc Hk]. pose proof (app_start_armed o2) as Ha.
  destruct (app_start o2) as [[ret ready] o3]. cbn [snd] in Ha. split.
  - intros k. unfold app_watchdog_unregister. destruct (wdt_ready && (0 <=? ch)) eqn:Ew.
    + to_prop. rewrite delete_disarms. destruct (Z.eqb_spec k ch) as [->|Hne]; [symmetry; by apply Hc|]. rewrite Ha. apply Hk. by left.
    + rewrite Ha. apply Hk. destruct (decide (ch < 0)) as [?|Hp]; [by right|]. destruct (Hc ltac:(lia)) as (-> & _). cbn in Ew. lia.
  - intros -> event arguments token t. destruct event; cbn [motor_control negb].
    + unfold submit_text. destruct (submit_spec (MCP_USR_TOOL_RESPONSE "Motors not initialized") token t) as [E _]. by destruct (submit _ _ _).
    + destruct (submit_spec MCP_USR_TOOL_CANCEL_ACK token t) as [E _]. by destruct (submit _ _ _).
Qed.
End StartProperties.

(** * A board *)
Module HeadBoard.
(** The channels watched. *)
#[local] Instance head_os : Os := {| os := list Z; k_uptime_get b := (0, b) |}.
(** Three digits after the point, cut off. *)
Definition digits3 (m e : Z) : string :=
  let v := Z.shiftl (1000 * m) e in
  let f := v mod 1000 in
  decimal (v / 1000) ++ "." ++ decimal (f / 100) ++ decimal (f / 10 mod 10) ++ decimal (f mod 10).
Definition show_float (x : float32) : string :=
  match x with
  | S754_finite s m e => String.substring 0 44 ((if s then "-" else "") ++ digits3 (Zpos m) e)
  | S754_zero s => "0.000" | S754_infinity s => "inf" | S754_nan => "nan"
  end.
#[local] Instance head_hw : McpHw := {|
  actuator_read_feedback _ b := (0, Some f1, b);
  actuator_set_position _ _ b := (0, b);
  actuator_group_set_position _ _ b := (0, b);
  mcp_server_submit_tool_message _ _ b := (0, b);
  fixed3 := show_float;
  bus_servo_start b := (true, b);
  servo_ready _ _ := true;
  servo_enable _ b := (0, b);
  mcp_server_init b := (true, b);
  mcp_server_http_init b := (0, b);
  mcp_server_add_tool b := (0, b);
  mcp_server_start b := (0, b);
  mcp_server_http_start b := (0, b);
|}.
#[local] Instance head_laws : McpLaws.
Proof. split. intros [[]|[]| |s m e]; cbn [fixed3 head_hw show_float]; try (cbn; lia). apply substring_cap. Qed.
(** The lowest free of four channels. *)
Definition free_slot (b : list Z) : option Z := List.find (fun k => negb (existsb (Z.eqb k) b)) [0; 1; 2; 3].
#[local] Instance head_wdt : TaskWdt := {|
  hw_device _ := Some true;
  task_wdt_init _ b := (0, b);
  task_wdt_add _ _ b := match free_slot b with Some k => (k, k :: b) | None => (- ENOMEM, b) end;
  task_wdt_delete ch b := List.filter (fun k => negb (k =? ch)) b;
  task_wdt_feed _ b := b;
  armed b k := existsb (Z.eqb k) b;
|}.
#[local] Instance head_wdt_laws : TaskWdtLaws.
Proof.
  split.
  - intros ms n o ch o'. cbn -[free_slot]. destruct (free_slot o) as [k|]; intros [= <- <-] Hc; [cbn; by rewrite Z.eqb_refl|unfold ENOMEM in Hc; lia].
  - intros ch b k. cbn. induction b as [|x b IH]; cbn; [by destruct (k =? ch)|].
    destruct (Z.eqb_spec x ch) as [->|Hx]; cbn; rewrite IH; destruct (Z.eqb_spec k ch); try done.
    destruct (Z.eqb_spec k x); [congruence|done].
Qed.
#[local] Instance head_slots : WdtSlots.
Proof.
  split; try done. intros ms n o ch o'. cbn -[free_slot]. destruct (free_slot o) as [k|] eqn:E; intros [= <- <-]; [|done].
  apply List.find_some in E as [Hin Hf]. split; [intros _; by apply negb_true_iff|]. split.
  - intros k' Hne. cbn. by destruct (Z.eqb_spec k' k).
  - intros Hk. exfalso. cbn in Hin. lia.
Qed.
#[local] Instance head_quiet : StartQuiet.
Proof. by split. Qed.
Definition fresh_tool : tool := mk_tool [] [] ([] : @os head_os).

Definition num (neg : bool) (i f : string) : jvalue := JNum (mk_num neg (to_chars i) (Some (to_chars f)) None).
Definition bare (k : string) (v : jvalue) : jmember := mk_member k v [] [] [] [].
(** A turn of both axes, with a space here and there. *)
Definition turn : list jmember :=
  [mk_member "tilt" (num false "0" "5") [chr " "] [] [chr " "] []; bare "note" (JStr "slowly"); bare "action" (JStr "set"); bare "pan" (num true "1" "25")].
Ltac members := repeat match goal with
  | |- Forall _ _ => constructor
  | |- _ /\ _ => split
  | |- forall _, _ => intro
  | H : Some _ = Some _ |- _ => injection H; intros; subst; clear H
  | H : None = Some _ |- _ => discriminate H
  | |- member_ok _ => red; cbn [j_name j_value gap0 gap1 gap2 gap3 bare num]
  | |- unsaid _ _ => red
  | |- value_ok _ => red; try unfold num | |- num_ok _ => red; cbn [n_int n_frac n_exp] | |- digits _ => red
  | |- plain _ => red | |- no_quote _ => red; cbn | |- spaces _ => red
  | |- True => exact I
  | |- _ = _ => by vm_compute
  | |- _ <> _ => discriminate
  end.
Lemma head_moves_as_told_witness :
  let out := motor_control true MCP_TOOL_CALL_REQUEST (Some (object_text turn)) "t1" fresh_tool in
  writes (snd out) = [(SetBoth (S754_finite true 10485760 (-23)) (S754_finite false 8388608 (-24)), 0)] /\
  said (snd out) = [(MCP_USR_TOOL_RESPONSE "Moving: pan=-1.250 tilt=0.500", "t1")].
Proof.
  destruct (head_moves_as_told true turn "t1" fresh_tool) as (text & Hs & _ & r & Hw & Hr & _);
    [unfold turn; members..|].
  cbv zeta. rewrite Hw, Hs. assert (r = 0) as Hr0 by (apply (f_equal (fun l => snd (List.last l (SetOne Pan f0, 1)))) in Hw; vm_compute in Hw; done).
  rewrite (Hr Hr0), Hr0. split; [vm_compute; reflexivity|vm_compute; reflexivity].
Defined.

Lemma calls_guarded_witness : let s := call_run true true
    [Call 0 MCP_TOOL_CALL_REQUEST (Some (object_text turn)) "a"; Call 1 MCP_TOOL_CALL_REQUEST None "b"; Step 0; Step 0; Call 0 MCP_TOOL_CANCEL_REQUEST None "c"]
    (mk_server (replicate 2 Idle) fresh_tool) in
  calls_ok true [] s /\ t_os (the_tool s) = [0; 1].
Proof. split; [by apply (calls_guarded true true)|vm_compute; reflexivity]. Defined.

(** The extractors look for a quoted key anywhere: a string that says one is taken for
    the member, and the number after the next colon for its value.  Asked to tilt by half
    a radian with a note about the pan, the head turns both ways. *)
Theorem note_moves_pan :
  writes (snd (motor_control true MCP_TOOL_CALL_REQUEST
    (Some (object_text [bare "action" (JStr "set"); bare "note" (JStr "pan"); bare "tilt" (num false "0" "5")])) "t" fresh_tool)) =
  [(SetBoth (S754_finite false 8388608 (-24)) (S754_finite false 8388608 (-24)), 0)].
Proof. by vm_compute. Qed.
End HeadBoard.
