(* ===== verification/Powerbread.v ===== *)
(** powerbread, a two-channel power monitor: [powerbread/src/sampler.c], [ui.c],
    [shell.c] and [input.c].

    The sampler thread's statistics and their snapshot, the pages that show it, and
    the shell and dial that steer them.  The INA3221 driver is the class [Ina]; LVGL's
    objects are the texts, the range and the visibility last set on them. *)

From Stdlib Require Import Ascii SpecFloat.
From S2P Require Import Prelude Printf Platform Floats HttpUtil Instances AppSettings.
#[local] Open Scope Z_scope.

Definition PB_NUM_CH : nat := 2.
Definition PB_CHART_POINTS : nat := 160.
Definition SAMPLE_PERIOD_MS : Z := 10.
Definition CHART_DECIMATION : Z := 5.

(** * sampler.c *)
Record channel_acc := mk_acc {
  a_v : float32; a_ma : float32; a_mw : float32;
  v_min : float32; v_max : float32; ma_min : float32; ma_max : float32;
  ma_sum : float64; a_n : Z; a_mah : float64; a_mwh : float64;
  chart : list Z; chart_head : nat;
}.
#[export] Instance eta_acc : Eta channel_acc := fun c => mk_acc (a_v c) (a_ma c) (a_mw c) (v_min c) (v_max c) (ma_min c) (ma_max c)
  (ma_sum c) (a_n c) (a_mah c) (a_mwh c) (chart c) (chart_head c).
Record reading := mk_reading { r_v : float32; r_ma : float32; r_mw : float32 }.
Record pb_channel_stats := mk_stats {
  st_v : float32; st_ma : float32; st_mw : float32; st_v_min : float32; st_v_max : float32;
  st_ma_min : float32; st_ma_max : float32; st_ma_avg : float32; st_mah : float32; st_mwh : float32; st_chart : list Z;
}.
Record pb_snapshot := mk_snapshot { snap_ok : bool; t_ms : Z; ch : list pb_channel_stats }.

Inductive quantity := Voltage | Current | Power.
Class Ina `{Os} := {
  ina_ready : os -> bool;
  sensor_sample_fetch : os -> Z * os;
  select_channel : Z -> os -> Z * os;            (* SENSOR_ATTR_INA3221_SELECTED_CHANNEL *)
  sensor_channel_get : quantity -> os -> Z * (Z * Z) * os;
  sensor_value_to_float : Z * Z -> float32;
}.

Definition billion : float32 := f32_of_int 1000000000.
Definition minus_billion : float32 := f32_of_int (-1000000000).
Definition reset_channel (c : channel_acc) : channel_acc :=
  mk_acc (a_v c) (a_ma c) (a_mw c) billion minus_billion billion minus_billion (f64_of_int 0) 0 (f64_of_int 0) (f64_of_int 0)
    (chart c) (chart_head c).
Definition zero_acc : channel_acc :=
  mk_acc f0 f0 f0 f0 f0 f0 f0 (f64_of_int 0) 0 (f64_of_int 0) (f64_of_int 0) (replicate PB_CHART_POINTS 0) 0.

Section Sampler.
Context `{Ina}.

(** The statics and the thread's locals. *)
Record sampler := mk_sampler {
  acc : list channel_acc; sensor_ok : bool; stream_on : bool;
  last_t : Z; decim : Z; errs : Z; console : list string; s_os : os;
}.
#[export] Instance eta_sampler : Eta sampler := fun s =>
  mk_sampler (acc s) (sensor_ok s) (stream_on s) (last_t s) (decim s) (errs s) (console s) (s_os s).

Definition sampler_reset_stats (s : sampler) : sampler := s <| acc ::= map reset_channel |>.
Definition sampler_stream_set (enable : bool) (s : sampler) : sampler := s <| stream_on := enable |>.

Definition stats_of (c : channel_acc) : pb_channel_stats :=
  let some x := if 0 <? a_n c then x else f0 in
  mk_stats (a_v c) (a_ma c) (a_mw c) (some (v_min c)) (some (v_max c)) (some (ma_min c)) (some (ma_max c))
    (some (to_f32 (SFdiv 53 1024 (ma_sum c) (f64_of_int (a_n c))))) (to_f32 (a_mah c)) (to_f32 (a_mwh c))
    (map (fun p => chart c !!! ((chart_head c + p) mod PB_CHART_POINTS)%nat) (seq 0 PB_CHART_POINTS)).
Definition sampler_get (s : sampler) : pb_snapshot * sampler :=
  let '(t, o) := k_uptime_get (s_os s) in
  (mk_snapshot (sensor_ok s) (u32 t) (map stats_of (acc s)), s <| s_os := o |>).

(** One quantity of the selected channel, and one channel. *)
Definition get_value (q : quantity) (o : os) : (Z + float32) * os :=
  let '(ret, val, o) := sensor_channel_get q o in
  (if negb (ret =? 0) then inl ret else inr (sensor_value_to_float val), o).
Definition read_channel (i : nat) (o : os) : (Z + reading) * os :=
  let '(ret, o) := select_channel (Z.of_nat i + 1) o in
  if negb (ret =? 0) then (inl ret, o) else
  match get_value Voltage o with
  | (inl ret, o) => (inl ret, o)
  | (inr v, o) =>
      match get_value Current o with
      | (inl ret, o) => (inl ret, o)
      | (inr ma, o) =>
          match get_value Power o with
          | (inl ret, o) => (inl ret, o)
          | (inr mw, o) => (inr (mk_reading v (fmul ma (f32_of_int 1000)) (fmul mw (f32_of_int 1000))), o)
          end
      end
  end.
Fixpoint read_each (l : list nat) (o : os) : (Z + list reading) * os :=
  match l with
  | [] => (inr [], o)
  | i :: l =>
      match read_channel i o with
      | (inl ret, o) => (inl ret, o)
      | (inr r, o) =>
          match read_each l o with
          | (inl ret, o) => (inl ret, o)
          | (inr rs, o) => (inr (r :: rs), o)
          end
      end
  end.
Definition read_channels (o : os) : (Z + list reading) * os :=
  let '(ret, o) := sensor_sample_fetch o in
  if negb (ret =? 0) then (inl ret, o) else read_each (seq 0 PB_NUM_CH) o.

(** A fixed-point value as C prints its parts; the sign of a quotient of zero. *)
Definition minus_zero (x scale : Z) : string := if (x <? 0) && (- scale <? x) then "-" else "".
Definition lf : string := String (ascii_of_nat 10) EmptyString.
Definition stream_row (t i : Z) (r : reading) : string :=
  let mv := truncate (fmul (r_v r) (f32_of_int 1000)) in
  let ma_x10 := truncate (fmul (r_ma r) (f32_of_int 10)) in
  let mw_x10 := truncate (fmul (r_mw r) (f32_of_int 10)) in
  (format "%u,%d,%d,%s%d.%d,%s%d.%d" [PInt t; PInt i; PInt mv;
     PStr (minus_zero ma_x10 10); PInt (Z.quot ma_x10 10); PInt (Z.abs (Z.rem ma_x10 10));
     PStr (minus_zero mw_x10 10); PInt (Z.quot mw_x10 10); PInt (Z.abs (Z.rem mw_x10 10))] ++ lf)%string.
Definition stream_csv (t : Z) (rs : list reading) : list string := imap (fun i r => stream_row t (Z.of_nat i + 1) r) rs.

(** A channel's turn under the lock. *)
Definition take_reading (push : bool) (dt_h : float64) (r : reading) (c : channel_acc) : channel_acc :=
  mk_acc (r_v r) (r_ma r) (r_mw r)
    (MIN (v_min c) (r_v r)) (MAX (v_max c) (r_v r)) (MIN (ma_min c) (r_ma r)) (MAX (ma_max c) (r_ma r))
    (SFadd 53 1024 (ma_sum c) (to_f64 (r_ma r))) (u32 (a_n c + 1))
    (SFadd 53 1024 (a_mah c) (SFmul 53 1024 (to_f64 (r_ma r)) dt_h)) (SFadd 53 1024 (a_mwh c) (SFmul 53 1024 (to_f64 (r_mw r)) dt_h))
    (if push then <[chart_head c := truncate (r_ma r)]> (chart c) else chart c)
    (if push then (chart_head c + 1) mod PB_CHART_POINTS else chart_head c)%nat.

(** A pass of the thread's loop, and how long it then sleeps. *)
Definition sampling_pass (s : sampler) : Z * sampler :=
  let '(t0, o) := k_uptime_get (s_os s) in
  let s := match read_channels o with
           | (inr rs, o) =>
               let '(now, o) := k_uptime_get o in
               let dt_h := SFdiv 53 1024 (f64_of_int (now - last_t s)) (f64_of_int 3600000) in
               let d := u32 (decim s + 1) in
               let push := CHART_DECIMATION <=? d in
               s <| s_os := o |> <| last_t := now |> <| decim := if push then 0 else d |> <| sensor_ok := true |>
                 <| acc ::= zip_with (take_reading push dt_h) rs |>
                 <| console ::= fun l => if stream_on s then l ++ stream_csv (u32 now) rs else l |> <| errs := 0 |>
           | (inl _, o) => s <| s_os := o |> <| sensor_ok := false |> <| errs ::= fun e => u32 (e + 1) |>
           end in
  let '(t1, o) := k_uptime_get (s_os s) in
  let elapsed := t1 - t0 in
  (if elapsed <? SAMPLE_PERIOD_MS then SAMPLE_PERIOD_MS - s32 elapsed else 0, s <| s_os := o |>).

(** [sampler_thread] up to its loop. *)
Definition sampler_boot (o : os) : sampler := mk_sampler (replicate PB_NUM_CH zero_acc) false false 0 0 0 [] o.
Definition sampler_start (s : sampler) : option sampler :=
  let s := sampler_reset_stats s in
  if negb (ina_ready (s_os s)) then None else
  let '(t, o) := k_uptime_get (s_os s) in Some (s <| last_t := t |> <| s_os := o |>).
End Sampler.

(** * ui.c *)
Definition PB_MODE_DASH : Z := 0.
Definition PB_MODE_CHART : Z := 1.
Definition PB_MODE_STATS : Z := 2.
Definition PB_MODE_COUNT : Z := 3.

(** What the percent, 02d conversion prints of a number that is not negative. *)
Definition two_digits (z : Z) : string := ((if z <? 10 then "0" else "")%Z ++ decimal z)%string.
Definition fmt_x100 (x100 : Z) : string :=
  snd (snprintf 16 "%s%d.%s" [PStr (minus_zero x100 100); PInt (Z.quot x100 100); PStr (two_digits (Z.abs (Z.rem x100 100)))]).
Definition fmt_x10 (x10 : Z) : string :=
  snd (snprintf 16 "%s%d.%d" [PStr (minus_zero x10 10); PInt (Z.quot x10 10); PInt (Z.abs (Z.rem x10 10))]).
(** A float scaled to an integer. *)
Definition x100 (x : float32) : Z := truncate (fmul x (f32_of_int 100)).
Definition x10 (x : float32) : Z := truncate (fmul x (f32_of_int 10)).

(** The statics and what each object was last given; a channel's row of the dashboard
    is its three values, and the unit of the last. *)
Record ui := mk_ui {
  req_mode : Z; req_channel : Z; shown_mode : Z; hidden : list bool;
  dash_val : list (list string); power_unit : list string;
  chart_buf : list Z; chart_colour : Z; chart_range : Z * Z; chart_label : string; stats_label : string;
}.
#[export] Instance eta_ui : Eta ui := fun u => mk_ui (req_mode u) (req_channel u) (shown_mode u) (hidden u) (dash_val u) (power_unit u)
  (chart_buf u) (chart_colour u) (chart_range u) (chart_label u) (stats_label u).

Definition pb_ui_set_mode (mode : Z) (u : ui) : ui := if mode <? PB_MODE_COUNT then u <| req_mode := mode |> else u.
Definition pb_ui_step_mode (dir : Z) (u : ui) : ui := u <| req_mode ::= fun m => Z.rem (m + dir + PB_MODE_COUNT) PB_MODE_COUNT |>.
Definition pb_ui_set_channel (c : Z) (u : ui) : ui := if c <? Z.of_nat PB_NUM_CH then u <| req_channel := c |> else u.
Definition pb_ui_get_channel (u : ui) : Z := u8 (req_channel u).
Definition ch_color (c : Z) : Z := if c =? 0 then 47316 else 15741068.

Definition create_pages (u : ui) : ui :=
  u <| hidden := replicate 3 true |> <| dash_val := replicate PB_NUM_CH (replicate 3 "--"%string) |>
    <| power_unit := replicate PB_NUM_CH "mW"%string |> <| chart_colour := ch_color 0 |> <| chart_label := "--"%string |> <| stats_label := "--"%string |>.
Definition pb_ui_init (display_ready : bool) (u : ui) : Z * ui := if negb display_ready then (- ENODEV, u) else (0, create_pages u).
Definition ui_boot : ui := mk_ui PB_MODE_DASH 0 PB_MODE_COUNT [] [] [] (replicate PB_CHART_POINTS 0) 0 (0, 0) "" "".

Definition zero_stats : pb_channel_stats := mk_stats f0 f0 f0 f0 f0 f0 f0 f0 f0 f0 (replicate PB_CHART_POINTS 0).
Definition dash_row (c : pb_channel_stats) : list string * string :=
  if SFleb (f32_of_int 1000) (st_mw c)
  then ([fmt_x100 (x100 (st_v c)); fmt_x10 (x10 (st_ma c)); fmt_x100 (truncate (fdiv (st_mw c) (f32_of_int 10)))], "W"%string)
  else ([fmt_x100 (x100 (st_v c)); fmt_x10 (x10 (st_ma c)); fmt_x10 (x10 (st_mw c))], "mW"%string).
Definition update_dash (snap : pb_snapshot) (u : ui) : ui :=
  u <| dash_val := map (fun c => fst (dash_row c)) (ch snap) |> <| power_unit := map (fun c => snd (dash_row c)) (ch snap) |>.
Definition shown_channel (snap : pb_snapshot) (u : ui) : pb_channel_stats := nth (Z.to_nat (pb_ui_get_channel u)) (ch snap) zero_stats.
Definition INT32_MAX : Z := 2 ^ 31 - 1.
Definition INT32_MIN : Z := - 2 ^ 31.
(** The axis: the points' range, at least ten wide. *)
Definition axis_range (points : list Z) : Z * Z :=
  let lo := foldl Z.min INT32_MAX points in
  let hi := foldl Z.max INT32_MIN points in
  (lo, if hi - lo <? 10 then lo + 10 else hi).
Definition update_chart (snap : pb_snapshot) (u : ui) : ui :=
  let c := shown_channel snap u in
  u <| chart_buf := st_chart c |> <| chart_colour := ch_color (pb_ui_get_channel u) |> <| chart_range := axis_range (st_chart c) |>
    <| chart_label := format "%s mA" [PStr (fmt_x100 (x100 (st_ma c)))] |>.
Definition update_stats (snap : pb_snapshot) (u : ui) : ui :=
  let c := shown_channel snap u in
  let line name x := (format "%s %s" [PStr name; PStr (fmt_x100 (x100 x))])%string in
  u <| stats_label := (line "V" (st_v c) ++ lf ++ line "min" (st_ma_min c) ++ lf ++ line "max" (st_ma_max c) ++ lf ++
                       line "avg" (st_ma_avg c) ++ lf ++ line "mAh" (st_mah c) ++ lf ++ line "mWh" (st_mwh c))%string |>.

(** * The monitor: the parts together, with shell.c and input.c *)
Section Monitor.
Context `{Ina}.

Record monitor := mk_monitor { smp : sampler; pages : ui }.
#[export] Instance eta_monitor : Eta monitor := fun m => mk_monitor (smp m) (pages m).

Definition refresh_cb (m : monitor) : monitor :=
  let mode := req_mode (pages m) in
  let '(snap, s) := sampler_get (smp m) in
  let u := pages m in
  let u := if negb (mode =? shown_mode u)
           then u <| hidden := map (fun i => negb (i =? mode)) [0; 1; 2] |> <| shown_mode := mode |> else u in
  let u := if mode =? PB_MODE_DASH then update_dash snap u
           else if mode =? PB_MODE_CHART then update_chart snap u
           else if mode =? PB_MODE_STATS then update_stats snap u else u in
  mk_monitor s u.

(** ** shell.c: the result, what is printed, and the monitor after it *)
Definition row_text (i : nat) (c : pb_channel_stats) : string :=
  format "CH%d: %s V  %s mA  %s mW" [PInt (Z.of_nat i + 1); PStr (fmt_x100 (x100 (st_v c))); PStr (fmt_x100 (x100 (st_ma c))); PStr (fmt_x100 (x100 (st_mw c)))].
Definition cmd_read (m : monitor) : Z * list string * monitor :=
  let '(snap, s) := sampler_get (smp m) in
  let m := m <| smp := s |> in
  if negb (snap_ok snap) then (- EIO, ["sensor not available"%string], m) else (0, imap row_text (ch snap), m).
Definition cmd_reset (m : monitor) : Z * list string * monitor :=
  (0, ["stats reset"%string], m <| smp ::= sampler_reset_stats |>).
Definition cmd_stream (argv1 : string) (m : monitor) : Z * list string * monitor :=
  if (argv1 =? "on")%string then (0, ["stream on"%string], m <| smp ::= sampler_stream_set true |>)
  else if (argv1 =? "off")%string then (0, ["stream off"%string], m <| smp ::= sampler_stream_set false |>)
  else (- EINVAL, ["usage: powerbread stream <on|off>"%string], m).
Definition cmd_mode (argv1 : string) (m : monitor) : Z * list string * monitor :=
  let set mode := (0, [("mode " ++ argv1)%string], m <| pages ::= pb_ui_set_mode mode |>) in
  if (argv1 =? "dash")%string then set PB_MODE_DASH
  else if (argv1 =? "chart")%string then set PB_MODE_CHART
  else if (argv1 =? "stats")%string then set PB_MODE_STATS
  else (- EINVAL, ["usage: powerbread mode <dash|chart|stats>"%string], m).
Definition cmd_channel (argv1 : string) (m : monitor) : Z * list string * monitor :=
  let c := atoi argv1 in
  if (c <? 1) || (Z.of_nat PB_NUM_CH <? c) then (- EINVAL, ["usage: powerbread channel <1|2>"%string], m)
  else (0, [format "channel %d" [PInt c]], m <| pages ::= pb_ui_set_channel (u8 (c - 1)) |>).
Class DialAdc := {
  adc_sequence_init_dt : os -> Z * os;
  adc_read_dt : os -> Z * Z * os;                 (* with the raw value *)
  adc_raw_to_millivolts_dt : Z -> Z * Z;
}.
Definition cmd_dial `{DialAdc} (has_dial : bool) (m : monitor) : Z * list string * monitor :=
  if negb has_dial then (- ENOTSUP, ["no dial on this board"%string], m) else
  let failed ret m := (ret, [format "adc read failed: %d" [PInt ret]], m) in
  let '(ret, o) := adc_sequence_init_dt (s_os (smp m)) in
  let m := m <| smp ::= fun s => s <| s_os := o |> |> in
  if negb (ret =? 0) then failed ret m else
  let '(ret, raw, o) := adc_read_dt (s_os (smp m)) in
  let m := m <| smp ::= fun s => s <| s_os := o |> |> in
  if negb (ret =? 0) then failed ret m else
  let '(ret, mv) := adc_raw_to_millivolts_dt raw in
  if negb (ret =? 0) then (ret, [format "mv conversion failed: %d" [PInt ret]], m)
  else (0, [format "dial: %d mV (raw %d)" [PInt mv; PInt raw]], m).

(** ** input.c *)
Inductive dial_key := INPUT_KEY_UP | INPUT_KEY_DOWN | INPUT_KEY_A | INPUT_KEY_B | OtherKey.
Definition dial_cb (is_key : bool) (value : Z) (code : dial_key) (m : monitor) : monitor :=
  if negb is_key || negb (value =? 1) then m else
  match code with
  | INPUT_KEY_UP => m <| pages ::= pb_ui_step_mode 1 |>
  | INPUT_KEY_DOWN => m <| pages ::= pb_ui_step_mode (-1) |>
  | INPUT_KEY_A => m <| pages ::= fun u => pb_ui_set_channel (Z.rem (pb_ui_get_channel u + 1) (Z.of_nat PB_NUM_CH)) u |>
  | INPUT_KEY_B => m <| smp ::= sampler_reset_stats |>
  | OtherKey => m
  end.

(** What happens: a pass of the sampler, a refresh of the page, a command, the dial. *)
Inductive monitor_event :=
  | Pass | Refresh | Reset | Stream (argv1 : string) | Mode (argv1 : string) | Channel (argv1 : string)
  | Read | Dial (is_key : bool) (value : Z) (code : dial_key).
Definition monitor_step (m : monitor) (e : monitor_event) : monitor :=
  match e with
  | Pass => m <| smp ::= fun s => snd (sampling_pass s) |>
  | Refresh => refresh_cb m
  | Reset => snd (cmd_reset m)
  | Stream a => snd (cmd_stream a m)
  | Mode a => snd (cmd_mode a m)
  | Channel a => snd (cmd_channel a m)
  | Read => snd (cmd_read m)
  | Dial k v c => dial_cb k v c m
  end.
Definition monitor_run (es : list monitor_event) (m : monitor) : monitor := foldl monitor_step m es.
End Monitor.

(** * What the snapshot tells *)

(** What happened to the sampler: a pass that read, a pass that did not, a reset. *)
Inductive entry := Good (rs : list reading) | Bad | Cleared.
Definition since_reset (tr : list entry) : list entry :=
  foldl (fun l e => match e with Cleared => [] | _ => l ++ [e] end) [] tr.
Definition readings (i : nat) (tr : list entry) : list reading :=
  omap (fun e => match e with Good rs => rs !! i | _ => None end) tr.
Definition last_pass (tr : list entry) : bool :=
  foldl (fun b e => match e with Good _ => true | Bad => false | Cleared => b end) false tr.
(** Every fifth of a list. *)
Definition fifths {A} (l : list A) : list A :=
  omap id (imap (fun j x => if (S j mod 5 =? 0)%nat then Some x else None) l).
(** The last [n] of a list that zeros precede. *)
Definition latest (n : nat) (l : list Z) : list Z := drop (length l) (replicate n 0 ++ l).

Lemma since_reset_snoc tr e : since_reset (tr ++ [e]) = match e with Cleared => [] | _ => since_reset tr ++ [e] end.
Proof. unfold since_reset. by rewrite foldl_app. Qed.
Lemma last_pass_snoc tr e : last_pass (tr ++ [e]) = match e with Good _ => true | Bad => false | Cleared => last_pass tr end.
Proof. unfold last_pass. by rewrite foldl_app. Qed.
Lemma readings_snoc i tr e : readings i (tr ++ [e]) = readings i tr ++ readings i [e].
Proof. unfold readings. apply omap_app. Qed.
Lemma fifths_snoc {A} (l : list A) x : fifths (l ++ [x]) = fifths l ++ if (S (length l) mod 5 =? 0)%nat then [x] else [].
Proof.
  unfold fifths. rewrite imap_app, omap_app. f_equal. cbn [imap]. unfold compose. rewrite Nat.add_0_r.
  by destruct (S (length l) mod 5 =? 0)%nat.
Qed.
Lemma latest_snoc n l x : (0 < n)%nat -> latest n (l ++ [x]) = drop 1 (latest n l) ++ [x].
Proof.
  intros Hn. unfold latest. rewrite length_app, drop_drop, app_assoc, drop_app_le; [done|].
  rewrite !length_app, length_replicate. cbn. lia.
Qed.
Lemma latest_nil n : latest n [] = replicate n 0.
Proof. unfold latest. cbn. by rewrite app_nil_r. Qed.

(** The chart, oldest first. *)
Definition chart_of (c : channel_acc) : list Z :=
  map (fun p => chart c !!! ((chart_head c + p) mod PB_CHART_POINTS)%nat) (seq 0 PB_CHART_POINTS).
Lemma chart_push c x : length (chart c) = PB_CHART_POINTS -> (chart_head c < PB_CHART_POINTS)%nat ->
  map (fun p => <[chart_head c := x]> (chart c) !!! (((chart_head c + 1) mod PB_CHART_POINTS + p) mod PB_CHART_POINTS)%nat) (seq 0 PB_CHART_POINTS)
  = drop 1 (chart_of c) ++ [x].
Proof.
  intros Hl Hh. unfold chart_of. change (seq 0 PB_CHART_POINTS) with (0%nat :: seq 1 159) at 2. cbn [map drop skipn].
  change PB_CHART_POINTS with (159 + 1)%nat at 3. rewrite seq_app, map_app. f_equal.
  - rewrite <- seq_shift, map_map. apply map_ext_in. intros p Hp. apply in_seq in Hp.
    unfold PB_CHART_POINTS in *.
    assert (((chart_head c + 1) mod 160 + p) mod 160 = (chart_head c + S p) mod 160)%nat as ->
      by (rewrite Nat.Div0.add_mod_idemp_l; f_equal; lia).
    apply list_lookup_total_insert_ne. intros E.
    assert (chart_head c + S p < 160 \/ 160 <= chart_head c + S p)%nat as [Hlt|Hge] by lia.
    + rewrite Nat.mod_small in E by done. lia.
    + replace (chart_head c + S p)%nat with (chart_head c + S p - 160 + 1 * 160)%nat in E by lia.
      rewrite Nat.Div0.mod_add, Nat.mod_small in E by lia. lia.
  - cbn [seq map]. f_equal. unfold PB_CHART_POINTS in *. rewrite Nat.Div0.add_mod_idemp_l.
    replace (chart_head c + 1 + (0 + 159))%nat with (chart_head c + 1 * 160)%nat by lia.
    rewrite Nat.Div0.mod_add, Nat.mod_small by done. apply list_lookup_total_insert_eq. lia.
Qed.

Section Told.
Context `{Ina}.

(** What an event leaves in the history. *)
Definition entry_of (m : monitor) (e : monitor_event) : list entry :=
  match e with
  | Pass => match fst (read_channels (snd (k_uptime_get (s_os (smp m))))) with inr rs => [Good rs] | inl _ => [Bad] end
  | Reset => [Cleared]
  | Dial true 1 INPUT_KEY_B => [Cleared]
  | _ => []
  end.
Fixpoint history (es : list monitor_event) (m : monitor) : list entry :=
  match es with [] => [] | e :: es => entry_of m e ++ history es (monitor_step m e) end.

(** A channel's statistics after a history. *)
Record channel_tells (i : nat) (tr : list entry) (c : channel_acc) : Prop := {
  ct_last : forall r, last (readings i tr) = Some r -> mk_reading (a_v c) (a_ma c) (a_mw c) = r;
  ct_n : a_n c = Z.of_nat (length (readings i (since_reset tr))) mod 2 ^ 32;
  ct_v_min : v_min c = foldl MIN billion (map r_v (readings i (since_reset tr)));
  ct_v_max : v_max c = foldl MAX minus_billion (map r_v (readings i (since_reset tr)));
  ct_ma_min : ma_min c = foldl MIN billion (map r_ma (readings i (since_reset tr)));
  ct_ma_max : ma_max c = foldl MAX minus_billion (map r_ma (readings i (since_reset tr)));
  ct_sum : ma_sum c = foldl (fun s r => SFadd 53 1024 s (to_f64 (r_ma r))) (f64_of_int 0) (readings i (since_reset tr));
  ct_length : length (chart c) = PB_CHART_POINTS;
  ct_head : (chart_head c < PB_CHART_POINTS)%nat;
  ct_chart : chart_of c = latest PB_CHART_POINTS (map (fun r => truncate (r_ma r)) (fifths (readings i tr)));
}.
Record tells (tr : list entry) (s : sampler) : Prop := {
  te_ok : sensor_ok s = last_pass tr;
  te_channels : length (acc s) = PB_NUM_CH /\ forall i c, acc s !! i = Some c -> channel_tells i tr c;
  te_decim : decim s = Z.of_nat (length (readings 0 tr) mod 5);
  te_even : forall i, (i < PB_NUM_CH)%nat -> length (readings i tr) = length (readings 0 tr);
}.

Lemma read_each_length l o rs o' : read_each l o = (inr rs, o') -> length rs = length l.
Proof.
  revert o rs o'. induction l as [|i l IH]; intros o rs o'; cbn [read_each]; [by intros [= <- _]|].
  destruct (read_channel i o) as [[ret|r] o1]; [done|]. destruct (read_each l o1) as [[ret|rs'] o2] eqn:E; [done|].
  intros [= <- _]. cbn. f_equal. by eapply IH.
Qed.
Lemma read_channels_two o rs o' : read_channels o = (inr rs, o') -> length rs = PB_NUM_CH.
Proof. unfold read_channels. destruct (sensor_sample_fetch o) as [ret o1]. destruct (negb _); [done|]. intros E. by rewrite (read_each_length _ _ _ _ E). Qed.

Lemma readings_good i tr rs r : rs !! i = Some r -> readings i (tr ++ [Good rs]) = readings i tr ++ [r].
Proof. intros E. rewrite readings_snoc. f_equal. cbn. by rewrite E. Qed.
Lemma readings_bad i tr : readings i (tr ++ [Bad]) = readings i tr.
Proof. rewrite readings_snoc. apply app_nil_r. Qed.
Lemma readings_cleared i tr : readings i (tr ++ [Cleared]) = readings i tr.
Proof. rewrite readings_snoc. apply app_nil_r. Qed.

Lemma good_tells i tr c rs r dt : rs !! i = Some r -> channel_tells i tr c ->
  channel_tells i (tr ++ [Good rs]) (take_reading (S (length (readings i tr)) mod 5 =? 0)%nat dt r c).
Proof.
  intros Hr [Hl Hn Hv Hv' Hm Hm' Hs Hlen Hh Hc]. unfold take_reading.
  split; cbn [a_v a_ma a_mw a_n v_min v_max ma_min ma_max ma_sum]; rewrite ?since_reset_snoc, ?(readings_good _ _ _ _ Hr), ?map_app, ?foldl_app; cbn [map foldl].
  - intros r'. rewrite last_snoc. intros [= <-]. by destruct r.
  - rewrite Hn, length_app, Nat2Z.inj_add. unfold u32. rewrite Zplus_mod_idemp_l. done.
  - by rewrite Hv.
  - by rewrite Hv'.
  - by rewrite Hm.
  - by rewrite Hm'.
  - by rewrite Hs.
  - cbn [chart]. destruct (_ =? 0)%nat; [by rewrite length_insert|done].
  - cbn [chart_head]. destruct (_ =? 0)%nat; [apply Nat.mod_upper_bound; unfold PB_CHART_POINTS; lia|done].
  - rewrite fifths_snoc, map_app. unfold chart_of. cbn [chart chart_head]. destruct (S (length (readings i tr)) mod 5 =? 0)%nat; cbn [map].
    + rewrite latest_snoc by (unfold PB_CHART_POINTS; lia). rewrite <- Hc. by apply chart_push.
    + rewrite app_nil_r, <- Hc. done.
Qed.
Lemma bad_tells i tr c : channel_tells i tr c -> channel_tells i (tr ++ [Bad]) c.
Proof.
  intros [Hl Hn Hv Hv' Hm Hm' Hs Hlen Hh Hc].
  split; rewrite ?since_reset_snoc, ?readings_bad; done.
Qed.
Lemma cleared_tells i tr c : channel_tells i tr c -> channel_tells i (tr ++ [Cleared]) (reset_channel c).
Proof.
  intros [Hl Hn Hv Hv' Hm Hm' Hs Hlen Hh Hc]. split; rewrite ?since_reset_snoc, ?readings_cleared; try done.
Qed.

Lemma pass_tells tr m : tells tr (smp m) -> tells (tr ++ entry_of m Pass) (smp (monitor_step m Pass)).
Proof.
  intros [Hok [Hlen Hch] Hd Hev]. cbn [monitor_step entry_of]. change (smp (m <| smp ::= fun s => snd (sampling_pass s) |>)) with (snd (sampling_pass (smp m))).
  unfold sampling_pass. destruct (k_uptime_get (s_os (smp m))) as [t0 o]. cbn [snd].
  destruct (read_channels o) as [[ret|rs] o1] eqn:Er; cbn [fst].
  - destruct (k_uptime_get _) as [t1 o2]. cbn [snd]. split; cbn [sensor_ok acc decim update eta_sampler].
    + by rewrite last_pass_snoc.
    + split; [done|]. intros i c Hc. by apply bad_tells, Hch.
    + by rewrite readings_bad.
    + intros i Hi. rewrite !readings_bad. by apply Hev.
  - pose proof (read_channels_two _ _ _ Er) as H2.
    destruct (k_uptime_get o1) as [now o2]. destruct (k_uptime_get _) as [t1 o3]. cbn [snd].
    set (n := length (readings 0 tr)) in *.
    assert (u32 (decim (smp m) + 1) = Z.of_nat (n mod 5) + 1) as Hu.
    { rewrite Hd. apply u32_small. pose proof (Nat.mod_upper_bound n 5). lia. }
    assert ((CHART_DECIMATION <=? u32 (decim (smp m) + 1)) = (S n mod 5 =? 0)%nat) as Hp.
    { rewrite Hu. unfold CHART_DECIMATION. pose proof (Nat.div_mod_eq n 5). pose proof (Nat.mod_upper_bound n 5 ltac:(lia)) as Hb.
      pose proof (Nat.div_mod_eq (S n) 5). pose proof (Nat.mod_upper_bound (S n) 5 ltac:(lia)). apply eq_true_iff_eq. rewrite Z.leb_le, Nat.eqb_eq. lia. }
    rewrite Hp. split; cbn [sensor_ok acc decim update eta_sampler].
    + by rewrite last_pass_snoc.
    + split; [rewrite length_zip_with, Hlen, H2; done|]. intros i c Hc. apply lookup_zip_with_Some in Hc as (r & c0 & -> & Hr & Hc0).
      assert (i < PB_NUM_CH)%nat as Hi by (rewrite <- H2; by eapply lookup_lt_Some).
      rewrite <- (Hev i Hi). by apply good_tells, Hch.
    + destruct (lookup_lt_is_Some_2 rs 0) as [r0 Hr0]; [rewrite H2; unfold PB_NUM_CH; lia|]. rewrite (readings_good _ _ _ _ Hr0), length_app. fold n. cbn [length].
      rewrite Hu, (Nat.add_1_r n). pose proof (Nat.div_mod_eq n 5). pose proof (Nat.mod_upper_bound n 5 ltac:(lia)).
      pose proof (Nat.div_mod_eq (S n) 5). pose proof (Nat.mod_upper_bound (S n) 5 ltac:(lia)). destruct (Nat.eqb_spec (S n mod 5) 0); lia.
    + intros i Hi. destruct (lookup_lt_is_Some_2 rs 0) as [r0 Hr0]; [rewrite H2; unfold PB_NUM_CH; lia|].
      destruct (lookup_lt_is_Some_2 rs i) as [r Hr]; [by rewrite H2|]. rewrite (readings_good _ _ _ _ Hr0), (readings_good _ _ _ _ Hr), !length_app. by rewrite Hev.
Qed.

Lemma tells_ext tr s s' : sensor_ok s' = sensor_ok s -> acc s' = acc s -> decim s' = decim s -> tells tr s -> tells tr s'.
Proof. intros E1 E2 E3 [Hok Hch Hd Hev]. split; [by rewrite E1|by rewrite E2|by rewrite E3|done]. Qed.
Lemma reset_tells tr s : tells tr s -> tells (tr ++ [Cleared]) (sampler_reset_stats s).
Proof.
  intros [Hok [Hlen Hch] Hd Hev]. split; cbn [sensor_ok acc decim update eta_sampler sampler_reset_stats].
  - by rewrite last_pass_snoc.
  - split; [by rewrite length_map|]. intros i c Hc. apply list_lookup_fmap_Some in Hc as (c0 & -> & Hc0). by apply cleared_tells, Hch.
  - by rewrite readings_cleared.
  - intros i Hi. rewrite !readings_cleared. by apply Hev.
Qed.
Lemma step_tells tr m e : tells tr (smp m) -> tells (tr ++ entry_of m e) (smp (monitor_step m e)).
Proof.
  intros Ht. destruct e; cbn [monitor_step]; [by apply pass_tells|..]; cbn [entry_of].
  - rewrite app_nil_r. eapply tells_ext; [..|exact Ht]; unfold refresh_cb, sampler_get; by destruct (k_uptime_get _).
  - by apply reset_tells.
  - rewrite app_nil_r. eapply tells_ext; [..|exact Ht]; unfold cmd_stream; by repeat case_match.
  - rewrite app_nil_r. eapply tells_ext; [..|exact Ht]; unfold cmd_mode; by repeat case_match.
  - rewrite app_nil_r. eapply tells_ext; [..|exact Ht]; unfold cmd_channel; by repeat case_match.
  - rewrite app_nil_r. eapply tells_ext; [..|exact Ht]; unfold cmd_read, sampler_get; destruct (k_uptime_get _); cbn; by case_match.
  - unfold dial_cb. destruct is_key; cbn [negb orb]; [|by rewrite app_nil_r].
    destruct (Z.eqb_spec value 1) as [->|Hv]; cbn [negb].
    + destruct code; cbn [app]; rewrite ?app_nil_r; try done. by apply reset_tells.
    + assert (match value with 1 => match code with INPUT_KEY_B => [Cleared] | _ => [] end | _ => [] end = []) as ->
        by (destruct value as [|[]|]; try done; lia). by rewrite app_nil_r.
Qed.
Lemma run_tells es tr m : tells tr (smp m) -> tells (tr ++ history es m) (smp (monitor_run es m)).
Proof.
  revert tr m. induction es as [|e es IH]; intros tr m Ht; cbn [history]; [by rewrite app_nil_r|].
  rewrite app_assoc. apply IH. by apply step_tells.
Qed.
Lemma start_tells o s0 : sampler_start (sampler_boot o) = Some s0 -> tells [] s0.
Proof.
  unfold sampler_start. destruct (negb _); [done|]. destruct (k_uptime_get _) as [t o']. intros [= <-].
  split; [done| |done|by intros [|[|i]] Hi; [done..|unfold PB_NUM_CH in Hi; lia]].
  split; [done|]. intros i c Hc. assert (c = reset_channel zero_acc) as ->.
  { cbn in Hc. destruct i as [|[|i]]; cbn in Hc; by simplify_eq. }
  split; try done. unfold PB_CHART_POINTS. cbn [chart_head reset_channel zero_acc]. lia.
Qed.

(** A reading below the sentinels. *)
Definition sane (x : float32) : Prop := is_nan x = false /\ SFltb x billion = true /\ SFltb minus_billion x = true.
Lemma least_of l : l <> [] -> Forall sane l -> foldl MIN billion l ∈ l /\ Forall (fun y => SFleb (foldl MIN billion l) y = true) l.
Proof.
  intros Hn Hl. assert (Forall (fun y => is_nan y = false) l) as Hnan by (eapply Forall_impl; [exact Hl|by intros x [? _]]).
  destruct (min_kept billion l eq_refl Hnan) as (Hr & Hin & _ & Hall). cbv zeta in *. split; [|done].
  destruct Hin as [Hin|]; [|done]. exfalso. destruct l as [|x l]; [done|]. rewrite Hin in Hall.
  inversion Hall as [|? ? Hb _]; subst. inversion Hl as [|? ? (Hx & Hlt & _) _]; subst. rewrite ltb_leb in Hlt by done. by rewrite Hb in Hlt.
Qed.
Lemma greatest_of l : l <> [] -> Forall sane l -> foldl MAX minus_billion l ∈ l /\ Forall (fun y => SFleb y (foldl MAX minus_billion l) = true) l.
Proof.
  intros Hn Hl. assert (Forall (fun y => is_nan y = false) l) as Hnan by (eapply Forall_impl; [exact Hl|by intros x [? _]]).
  destruct (max_kept minus_billion l eq_refl Hnan) as (Hr & Hin & _ & Hall). cbv zeta in *. split; [|done].
  destruct Hin as [Hin|]; [|done]. exfalso. destruct l as [|x l]; [done|]. rewrite Hin in Hall.
  inversion Hall as [|? ? Hb _]; subst. inversion Hl as [|? ? (Hx & _ & Hlt) _]; subst. rewrite ltb_leb in Hlt by done. by rewrite Hb in Hlt.
Qed.

(** What a channel of a snapshot says of the readings since the reset. *)
Record stats_tell (rs : list reading) (c : pb_channel_stats) : Prop := {
  sm_v_min : st_v_min c ∈ map r_v rs /\ Forall (fun x => SFleb (st_v_min c) x = true) (map r_v rs);
  sm_v_max : st_v_max c ∈ map r_v rs /\ Forall (fun x => SFleb x (st_v_max c) = true) (map r_v rs);
  sm_ma_min : st_ma_min c ∈ map r_ma rs /\ Forall (fun x => SFleb (st_ma_min c) x = true) (map r_ma rs);
  sm_ma_max : st_ma_max c ∈ map r_ma rs /\ Forall (fun x => SFleb x (st_ma_max c) = true) (map r_ma rs);
  sm_avg : st_ma_avg c = to_f32 (SFdiv 53 1024 (foldl (fun s r => SFadd 53 1024 s (to_f64 (r_ma r))) (f64_of_int 0) rs) (f64_of_int (Z.of_nat (length rs))));
}.

(** C29: The snapshot tells what was measured: after any passes, resets, commands and turns of
    the dial, whether the sensor answers is the last pass's result, the values are the last
    good reading's, the chart is the current at every fifth good reading since power-on,
    the newest 160 of them, oldest first, over zeros; and of the readings since the last
    reset, fewer than 2^32 and below the sentinels, the least and the greatest are ones
    that were measured and bound them all, the average is their mean, and with none since
    the reset everything of the kind is zero. *)
Theorem snapshot_tells o s0 u es : sampler_start (sampler_boot o) = Some s0 ->
  let m := mk_monitor s0 u in
  let tr := history es m in
  let snap := fst (sampler_get (smp (monitor_run es m))) in
  snap_ok snap = last_pass tr /\ length (ch snap) = PB_NUM_CH /\
  forall i c, ch snap !! i = Some c ->
    let rs := readings i (since_reset tr) in
    (forall r, last (readings i tr) = Some r -> mk_reading (st_v c) (st_ma c) (st_mw c) = r) /\
    st_chart c = latest PB_CHART_POINTS (map (fun r => truncate (r_ma r)) (fifths (readings i tr))) /\
    (rs = [] -> [st_v_min c; st_v_max c; st_ma_min c; st_ma_max c; st_ma_avg c] = replicate 5 f0) /\
    (rs <> [] -> Z.of_nat (length rs) < 2 ^ 32 -> Forall (fun r => sane (r_v r) /\ sane (r_ma r)) rs -> stats_tell rs c).
Proof.
  intros Hs m tr snap. pose proof (run_tells es [] m (start_tells _ _ Hs)) as [Hok [Hlen Hch] _ _]. cbn [app] in *. fold tr in Hok, Hch.
  unfold snap, sampler_get. destruct (k_uptime_get _) as [t o1]. cbn [fst snap_ok ch]. split; [done|]. split; [by rewrite length_map|].
  intros i c Hc. set (rs := readings i (since_reset tr)). apply list_lookup_fmap_Some in Hc as (a & -> & Ha).
  destruct (Hch i a Ha) as [Hl Hn Hv Hv' Hm Hm' Hsum _ _ Hchart]. fold rs in Hn, Hv, Hv', Hm, Hm', Hsum.
  split; [done|]. split; [done|]. split.
  - intros Hrs. rewrite Hrs in Hn. cbn in Hn. unfold stats_of. cbv zeta. cbn [st_v_min st_v_max st_ma_min st_ma_max st_ma_avg]. by rewrite Hn.
  - intros Hrs Hlt Hsane. rewrite Z.mod_small in Hn by lia. assert (0 < length rs)%nat as Hpos by (destruct rs; [done|cbn; lia]).
    assert (map r_v rs <> [] /\ map r_ma rs <> []) as [Hnv Hnm] by (by destruct rs).
    assert (Forall sane (map r_v rs) /\ Forall sane (map r_ma rs)) as [Hsv Hsm].
    { split; apply Forall_fmap; (eapply Forall_impl; [exact Hsane|]); by intros r [? ?]. }
    assert ((0 <? a_n a) = true) as Hgt by (rewrite Hn; lia).
    split; unfold stats_of; cbv zeta; cbn [st_v_min st_v_max st_ma_min st_ma_max st_ma_avg]; rewrite Hgt.
    + rewrite Hv. by apply least_of.
    + rewrite Hv'. by apply greatest_of.
    + rewrite Hm. by apply least_of.
    + rewrite Hm'. by apply greatest_of.
    + by rewrite Hsum, Hn.
Qed.
End Told.

(** * The texts *)

(** A decimal with [k] digits after its point, scaled to an integer. *)
Definition read_fixed (k : nat) (s : string) : option Z :=
  let '(neg, s) := match to_chars s with
                   | a :: t => if Ascii.eqb a (chr "-") then (true, t) else (false, a :: t)
                   | [] => (false, [])
                   end in
  match strchr s (chr ".") with
  | Some (_ :: fp) =>
      let ip := take (length s - length fp - 1) s in
      if digits_of 10 ip && digits_of 10 fp && negb (bool_decide (ip = [])) && (length fp =? k)%nat
      then Some (if neg then - digits_value 10 (ip ++ fp) else digits_value 10 (ip ++ fp)) else None
  | _ => None
  end.

Lemma decimal_go x s : foldl (fun v c => v * 10 + hex_digit c) 0 (to_chars (pretty_N_go x s)) =
    foldl (fun v c => v * 10 + hex_digit c) (Z.of_N x) (to_chars s) /\
  (digits_of 10 (to_chars s) = true -> digits_of 10 (to_chars (pretty_N_go x s)) = true).
Proof.
  revert s. induction (N.lt_wf_0 x) as [x _ IH]. intros s. destruct (N.eq_dec x 0) as [->|Hne]; [by rewrite pretty_N_go_0|].
  rewrite pretty_N_go_step by lia. assert (x / 10 < x)%N as Hlt by (apply N.div_lt; lia).
  destruct (IH _ Hlt (String (pretty_N_char (x mod 10)) s)) as [E D].
  assert (hex_digit (pretty_N_char (x mod 10)) = Z.of_N (x mod 10)) as Hd.
  { pose proof (N.mod_lt x 10 ltac:(lia)) as Hm. revert Hm. generalize (x mod 10)%N. intros d Hd.
    assert (d = 0 \/ d = 1 \/ d = 2 \/ d = 3 \/ d = 4 \/ d = 5 \/ d = 6 \/ d = 7 \/ d = 8 \/ d = 9)%N as Hc by lia.
    by repeat (destruct Hc as [->|Hc]; [done|]); subst. }
  split.
  - rewrite E. cbn [to_chars String.list_ascii_of_string foldl]. rewrite Hd. f_equal. pose proof (N.div_mod x 10 ltac:(lia)). lia.
  - intros Hs. apply D. change (digits_of 10 (pretty_N_char (x mod 10) :: to_chars s) = true). cbn [digits_of forallb]. rewrite Hd.
    pose proof (N.mod_lt x 10 ltac:(lia)) as Hm. apply andb_true_iff. split; [|exact Hs]. revert Hm. clear. generalize (x mod 10)%N. intros d Hm.
    apply andb_true_iff. split; lia.
Qed.
(** A number's decimal is its digits. *)
Lemma digits_decimal z : 0 <= z -> digits_of 10 (to_chars (decimal z)) = true /\ digits_value 10 (to_chars (decimal z)) = z /\
  to_chars (decimal z) <> [].
Proof.
  intros Hz. unfold decimal, pretty, pretty_N. case_decide as Hd; [assert (z = 0) as -> by lia; done|].
  destruct (decimal_go (Z.to_N z) "") as [E D]. split; [by apply D|]. split; [unfold digits_value; rewrite E; cbn; lia|].
  rewrite pretty_N_go_step by lia. intros E'. assert (length (to_chars (pretty_N_go (Z.to_N z / 10) (String (pretty_N_char (Z.to_N z mod 10)) ""))) = 0%nat) as L by (by rewrite E').
  rewrite to_chars_length in L. revert L. clear. generalize (Z.to_N z / 10)%N. intros x.
  enough (forall s, (String.length s <= String.length (pretty_N_go x s))%nat) as Hg by (specialize (Hg (String (pretty_N_char (Z.to_N z mod 10)) "")); cbn [String.length] in Hg; lia).
  induction (N.lt_wf_0 x) as [x _ IH]. intros s. destruct (N.eq_dec x 0) as [->|Hne]; [by rewrite pretty_N_go_0|].
  rewrite pretty_N_go_step by lia. etransitivity; [|apply IH, N.div_lt; lia]. cbn. lia.
Qed.
Lemma digits_no_point d : digits_of 10 d = true -> (chr "." ∉ d) /\ (chr "-" ∉ d).
Proof.
  intros Hd. unfold digits_of in Hd. rewrite forallb_forall in Hd.
  split; intros Hin; apply list_elem_of_In in Hin; by specialize (Hd _ Hin).
Qed.
Lemma strchr_point ip fp : chr "." ∉ ip -> strchr (ip ++ chr "." :: fp) (chr ".") = Some (chr "." :: fp).
Proof.
  induction ip as [|a ip IH]; intros Hn; [reflexivity|]. cbn [app strchr]. apply not_elem_of_cons in Hn as [Ha Hn].
  destruct (Ascii.eqb_spec a (chr ".")) as [->|]; [done|by apply IH].
Qed.
Lemma read_fixed_spec k (neg : bool) ip fp : digits_of 10 (to_chars ip) = true -> to_chars ip <> [] -> digits_of 10 (to_chars fp) = true ->
  String.length fp = k -> read_fixed k ((if neg then "-" else "") ++ ip ++ "." ++ fp)%string =
  Some (if neg then - digits_value 10 (to_chars ip ++ to_chars fp) else digits_value 10 (to_chars ip ++ to_chars fp)).
Proof.
  intros Hi Hi0 Hf Hk. unfold read_fixed.
  assert (match to_chars ((if neg then "-" else "") ++ ip ++ "." ++ fp)%string with
          | a :: t => if Ascii.eqb a (chr "-") then (true, t) else (false, a :: t) | [] => (false, []) end
          = (neg, to_chars ip ++ chr "." :: to_chars fp)) as ->.
  { rewrite !to_chars_app. destruct neg; [done|]. cbn [to_chars String.list_ascii_of_string app]. fold (to_chars ip).
    destruct (to_chars ip) as [|a t] eqn:E; [done|]. cbn [app]. destruct (Ascii.eqb_spec a (chr "-")) as [->|]; [|done].
    destruct (digits_no_point _ Hi) as [_ Hm]. destruct Hm. by left. }
  rewrite strchr_point by (by apply digits_no_point). rewrite length_app. cbn [length].
  replace (length (to_chars ip) + S (length (to_chars fp)) - length (to_chars fp) - 1)%nat with (length (to_chars ip)) by lia.
  rewrite take_app_length, Hi, Hf, to_chars_length, Hk, Nat.eqb_refl, bool_decide_false by done. done.
Qed.
Lemma digits_value_shift k u v : digits_of 10 v = true -> length v = k -> digits_value 10 (u ++ v) = digits_value 10 u * 10 ^ Z.of_nat k + digits_value 10 v.
Proof.
  intros _. unfold digits_value. rewrite foldl_app. generalize (foldl (fun v c => v * 10 + hex_digit c) 0 u). revert k. 
  assert (forall w a, foldl (fun v c => v * 10 + hex_digit c) a w = a * 10 ^ Z.of_nat (length w) + foldl (fun v c => v * 10 + hex_digit c) 0 w) as Hg.
  { induction w as [|c w IH]; intros a; [cbn; lia|]. cbn [foldl length]. rewrite IH, (IH (0 * 10 + _)), Nat2Z.inj_succ, Z.pow_succ_r by lia. lia. }
  intros k a <-. apply Hg.
Qed.

(** What a scaled integer is printed as: its sign, its whole part and its digits. *)
Lemma fixed_text x scale : 0 < scale -> - 2 ^ 31 <= x < 2 ^ 31 ->
  (minus_zero x scale ++ signed_decimal (s32 (Z.quot x scale)))%string = ((if (x <? 0)%Z then "-" else "") ++ decimal (Z.abs x / scale)%Z)%string /\
  Z.abs (Z.rem x scale) = Z.abs x mod scale.
Proof.
  intros Hs Hx. assert (Z.abs (Z.rem x scale) = Z.abs x mod scale) as Hr.
  { rewrite <- Z.rem_abs by lia. rewrite Z.rem_mod_nonneg by lia. by rewrite (Z.abs_eq scale) by lia. }
  split; [|done]. assert (Z.abs x / scale <= Z.abs x) as Hle by (apply Z.div_le_upper_bound; nia).
  assert (0 <= Z.abs x / scale) as H0 by (apply Z.div_pos; lia).
  assert (Z.quot x scale = if x <? 0 then - (Z.abs x / scale) else Z.abs x / scale) as Hq.
  { destruct (Z.ltb_spec x 0).
    - replace x with (- Z.abs x) at 1 by lia. rewrite Z.quot_opp_l by lia. by rewrite Z.quot_div_nonneg by lia.
    - rewrite Z.quot_div_nonneg by lia. by rewrite Z.abs_eq by lia. }
  assert (s32 (Z.quot x scale) = Z.quot x scale) as ->.
  { unfold s32, u32. rewrite Hq. destruct (Z.ltb_spec x 0).
    - destruct (decide (Z.abs x / scale = 0)) as [->|]; [done|].
      replace (- (Z.abs x / scale)) with (2 ^ 32 - Z.abs x / scale + (-1) * 2 ^ 32) by lia. rewrite Z.mod_add, Z.mod_small by lia.
      destruct (Z.ltb_spec (2 ^ 32 - Z.abs x / scale) (2 ^ 31)); lia.
    - rewrite Z.mod_small by lia. destruct (Z.ltb_spec (Z.abs x / scale) (2 ^ 31)); lia. }
  rewrite Hq. unfold minus_zero, signed_decimal. destruct (Z.ltb_spec x 0) as [Hneg|Hpos]; cbn [andb].
  - destruct (Z.ltb_spec (- scale) x) as [Hsm|Hbig].
    + assert (Z.abs x / scale = 0) as -> by (apply Z.div_small; lia). done.
    + assert (1 <= Z.abs x / scale) by (apply Z.div_le_lower_bound; lia).
      destruct (Z.ltb_spec (- (Z.abs x / scale)) 0); [|lia]. by rewrite Z.opp_involutive.
  - destruct (Z.ltb_spec (Z.abs x / scale) 0); [lia|done].
Qed.
Definition two_ok (z : Z) : bool :=
  digits_of 10 (to_chars (two_digits z)) && (digits_value 10 (to_chars (two_digits z)) =? z) && (String.length (two_digits z) =? 2)%nat.
Lemma two_digits_spec z : 0 <= z < 100 -> two_ok z = true.
Proof.
  intros Hz. assert (forallb (fun n => two_ok (Z.of_nat n)) (seq 0 100) = true) as Hall by (by vm_compute).
  rewrite forallb_forall in Hall. replace z with (Z.of_nat (Z.to_nat z)) by lia. apply Hall, in_seq. lia.
Qed.
Definition one_ok (z : Z) : bool :=
  digits_of 10 (to_chars (decimal z)) && (digits_value 10 (to_chars (decimal z)) =? z) && (String.length (decimal z) =? 1)%nat.
Lemma one_digit_spec z : 0 <= z < 10 -> one_ok z = true.
Proof.
  intros Hz. assert (forallb (fun n => one_ok (Z.of_nat n)) (seq 0 10) = true) as Hall by (by vm_compute).
  rewrite forallb_forall in Hall. replace z with (Z.of_nat (Z.to_nat z)) by lia. apply Hall, in_seq. lia.
Qed.
(** A whole part and [k] digits read back as the number they are of. *)
Lemma parts_read x scale k fp : 0 < scale -> scale = 10 ^ Z.of_nat k -> digits_of 10 (to_chars fp) = true ->
  digits_value 10 (to_chars fp) = Z.abs x mod scale -> String.length fp = k ->
  read_fixed k ((if (x <? 0)%Z then "-" else "") ++ decimal (Z.abs x / scale)%Z ++ "." ++ fp)%string = Some x.
Proof.
  intros Hs Hk Hd Hv Hl. assert (0 <= Z.abs x / scale) as H0 by (apply Z.div_pos; lia).
  destruct (digits_decimal _ H0) as (D1 & D2 & D3). rewrite read_fixed_spec by done.
  rewrite (digits_value_shift k) by (done || by rewrite to_chars_length). rewrite D2, Hv, <- Hk.
  pose proof (Z.div_mod (Z.abs x) scale ltac:(lia)). f_equal. destruct (Z.ltb_spec x 0); lia.
Qed.
Lemma fmt_x100_text x : - 2 ^ 31 <= x < 2 ^ 31 ->
  fmt_x100 x = ((if (x <? 0)%Z then "-" else "") ++ decimal (Z.abs x / 100)%Z ++ "." ++ two_digits (Z.abs x mod 100))%string.
Proof.
  intros Hx. unfold fmt_x100. destruct (fixed_text x 100 ltac:(lia) Hx) as [Ht ->]. cbn [snprintf snd].
  assert (format "%s%d.%s" [PStr (minus_zero x 100); PInt (Z.quot x 100); PStr (two_digits (Z.abs x mod 100))] =
    ((if (x <? 0)%Z then "-" else "") ++ decimal (Z.abs x / 100)%Z ++ "." ++ two_digits (Z.abs x mod 100))%string) as ->.
  { unfold format. change (tokens (q "%s%d.%s")) with [TConv ConvS; TConv ConvD; TChar (chr "."); TConv ConvS].
    cbn [print_tokens print_arg]. by rewrite <- string_app_assoc, Ht, !string_app_assoc, string_app_nil_r. }
  apply substring_all. rewrite !string_length_app.
  assert (two_ok (Z.abs x mod 100) = true) as Hk by (apply two_digits_spec, Z.mod_pos_bound; lia). unfold two_ok in Hk.
  apply andb_true_iff in Hk as [_ Hk]. apply Nat.eqb_eq in Hk. rewrite Hk.
  assert (String.length (decimal (Z.abs x / 100)) <= 8)%nat by (apply length_decimal; [lia|]; apply Z.div_lt_upper_bound; lia).
  change (String.length ".") with 1%nat. assert (String.length (if (x <? 0)%Z then "-" else "") <= 1)%nat by (destruct (x <? 0); cbn; lia). lia.
Qed.
Lemma fmt_x10_text x : - 2 ^ 31 <= x < 2 ^ 31 ->
  fmt_x10 x = ((if (x <? 0)%Z then "-" else "") ++ decimal (Z.abs x / 10)%Z ++ "." ++ decimal (Z.abs x mod 10))%string.
Proof.
  intros Hx. unfold fmt_x10. destruct (fixed_text x 10 ltac:(lia) Hx) as [Ht ->]. cbn [snprintf snd].
  pose proof (Z.mod_pos_bound (Z.abs x) 10 ltac:(lia)) as Hm.
  assert (signed_decimal (s32 (Z.abs x mod 10)) = decimal (Z.abs x mod 10)) as Hd.
  { assert (s32 (Z.abs x mod 10) = Z.abs x mod 10) as ->.
    { unfold s32. rewrite u32_small by lia. destruct (Z.ltb_spec (Z.abs x mod 10) (2 ^ 31)); lia. }
    unfold signed_decimal. destruct (Z.ltb_spec (Z.abs x mod 10) 0); [lia|done]. }
  assert (format "%s%d.%d" [PStr (minus_zero x 10); PInt (Z.quot x 10); PInt (Z.abs x mod 10)] =
    ((if (x <? 0)%Z then "-" else "") ++ decimal (Z.abs x / 10)%Z ++ "." ++ decimal (Z.abs x mod 10))%string) as ->.
  { rewrite <- Hd. unfold format. change (tokens (q "%s%d.%d")) with [TConv ConvS; TConv ConvD; TChar (chr "."); TConv ConvD].
    cbn [print_tokens print_arg]. by rewrite <- string_app_assoc, Ht, !string_app_assoc, string_app_nil_r. }
  apply substring_all. rewrite !string_length_app.
  assert (one_ok (Z.abs x mod 10) = true) as Hk by (by apply one_digit_spec). unfold one_ok in Hk.
  apply andb_true_iff in Hk as [_ Hk]. apply Nat.eqb_eq in Hk. rewrite Hk.
  assert (String.length (decimal (Z.abs x / 10)) <= 9)%nat by (apply length_decimal; [lia|]; apply Z.div_lt_upper_bound; lia).
  change (String.length ".") with 1%nat. assert (String.length (if (x <? 0)%Z then "-" else "") <= 1)%nat by (destruct (x <? 0); cbn; lia). lia.
Qed.
(** Every text of the monitor reads back as the number it was made of. *)
Lemma fmt_reads x : - 2 ^ 31 <= x < 2 ^ 31 -> read_fixed 2 (fmt_x100 x) = Some x /\ read_fixed 1 (fmt_x10 x) = Some x.
Proof.
  intros Hx. rewrite fmt_x100_text, fmt_x10_text by done. split.
  - assert (two_ok (Z.abs x mod 100) = true) as Hk by (apply two_digits_spec, Z.mod_pos_bound; lia). unfold two_ok in Hk. to_prop.
    apply (parts_read x 100 2); [lia|reflexivity|assumption|assumption|by apply Nat.eqb_eq].
  - assert (one_ok (Z.abs x mod 10) = true) as Hk by (apply one_digit_spec, Z.mod_pos_bound; lia). unfold one_ok in Hk. to_prop.
    apply (parts_read x 10 1); [lia|reflexivity|assumption|assumption|by apply Nat.eqb_eq].
Qed.

(** * The pages *)
Section Shown.
Context `{Ina}.

Definition page_of (mode : Z) : list bool := map (fun i => negb (i =? mode)) [0; 1; 2].
Definition ui_ok (u : ui) : Prop :=
  0 <= req_mode u < PB_MODE_COUNT /\ 0 <= req_channel u < Z.of_nat PB_NUM_CH /\
  (shown_mode u = PB_MODE_COUNT \/ hidden u = page_of (shown_mode u)).
Lemma ui_ok_mode mode u : ui_ok u -> 0 <= mode -> ui_ok (pb_ui_set_mode mode u).
Proof.
  intros (Hm & Hc & Hp) H0'. unfold pb_ui_set_mode. destruct (Z.ltb_spec mode PB_MODE_COUNT); [|done].
  split; [by split|]. split; [exact Hc|exact Hp].
Qed.
Lemma ui_ok_channel c u : ui_ok u -> 0 <= c -> ui_ok (pb_ui_set_channel c u).
Proof.
  intros (Hm & Hc & Hp) H0'. unfold pb_ui_set_channel. destruct (Z.ltb_spec c (Z.of_nat PB_NUM_CH)); [|done].
  split; [exact Hm|]. split; [by split|exact Hp].
Qed.
Lemma ui_ok_step dir u : ui_ok u -> -1 <= dir -> ui_ok (pb_ui_step_mode dir u).
Proof.
  intros (Hm & Hc & Hp) Hd. split; [|split; [exact Hc|exact Hp]]. split; cbn [req_mode pb_ui_step_mode update eta_ui].
  - apply Z.rem_nonneg; unfold PB_MODE_COUNT in *; lia.
  - apply Z.rem_bound_pos; unfold PB_MODE_COUNT in *; lia.
Qed.
(** A refresh shows the page asked for, and no other. *)
Lemma refresh_pages m : ui_ok (pages m) -> let u := pages (refresh_cb m) in
  hidden u = page_of (req_mode (pages m)) /\ shown_mode u = req_mode (pages m) /\ req_mode u = req_mode (pages m) /\ req_channel u = req_channel (pages m).
Proof.
  intros (Hm & Hc & Hp). unfold refresh_cb. destruct (sampler_get (smp m)) as [snap s]. cbn [pages].
  set (u := if negb (req_mode (pages m) =? shown_mode (pages m)) then _ else _).
  assert (hidden u = page_of (req_mode (pages m)) /\ shown_mode u = req_mode (pages m) /\ req_mode u = req_mode (pages m) /\ req_channel u = req_channel (pages m)) as Hu.
  { unfold u. destruct (Z.eqb_spec (req_mode (pages m)) (shown_mode (pages m))) as [E|E]; cbn [negb]; [|done].
    destruct Hp as [Hp|Hp]; [lia|]. by rewrite E. }
  by repeat case_match.
Qed.
Lemma monitor_ui_ok m e : ui_ok (pages m) -> ui_ok (pages (monitor_step m e)).
Proof.
  intros Hu. destruct e; cbn [monitor_step]; try done.
  - destruct (refresh_pages m Hu) as (E1 & E2 & E3 & E4). destruct Hu as (Hm & Hc & _). unfold ui_ok. rewrite E1, E2, E3, E4. split_and!; try lia. by right.
  - unfold cmd_stream. by repeat case_match.
  - unfold cmd_mode. repeat case_match; try done; by apply ui_ok_mode.
  - unfold cmd_channel. destruct (_ || _) eqn:E; [done|]. apply ui_ok_channel; [done|]. apply u8_range.
  - unfold cmd_read. destruct (sampler_get (smp m)). by case_match.
  - unfold dial_cb. destruct (_ || _); [done|]. destruct code; try done; [by apply ui_ok_step; [|lia]..|].
    apply ui_ok_channel; [done|]. apply Z.rem_nonneg; [done|]. unfold pb_ui_get_channel. pose proof (u8_range (req_channel (pages m))). lia.
Qed.
Lemma run_ui_ok es m : ui_ok (pages m) -> ui_ok (pages (monitor_run es m)).
Proof. revert m. induction es as [|e es IH]; intros m Hu; [done|]. by apply IH, monitor_ui_ok. Qed.

(** Values C can convert. *)
Definition int32 (z : Z) : Prop := - 2 ^ 31 <= z < 2 ^ 31.
Definition printable (c : pb_channel_stats) : Prop :=
  int32 (x100 (st_v c)) /\ int32 (x10 (st_ma c)) /\ int32 (x10 (st_mw c)) /\ int32 (truncate (fdiv (st_mw c) (f32_of_int 10))).
(** A row of the dashboard says a channel's values. *)
Definition row_tells (c : pb_channel_stats) (row : list string) (unit : string) : Prop :=
  exists v ma mw, row = [v; ma; mw] /\ read_fixed 2 v = Some (x100 (st_v c)) /\ read_fixed 1 ma = Some (x10 (st_ma c)) /\
  if SFleb (f32_of_int 1000) (st_mw c) then unit = "W"%string /\ read_fixed 2 mw = Some (truncate (fdiv (st_mw c) (f32_of_int 10)))
  else unit = "mW"%string /\ read_fixed 1 mw = Some (x10 (st_mw c)).
Lemma dash_row_tells c : printable c -> row_tells c (fst (dash_row c)) (snd (dash_row c)).
Proof.
  intros (Hv & Hm & Hw & Hw'). unfold row_tells, dash_row.
  destruct (SFleb (f32_of_int 1000) (st_mw c)); cbn [fst snd]; eexists _, _, _;
    (split; [reflexivity|]); split_and!; try done; by apply fmt_reads.
Qed.

Lemma foldl_min_spec l x : Forall (fun y => y <= x) l -> l <> [] -> foldl Z.min x l ∈ l /\ Forall (fun y => foldl Z.min x l <= y) l.
Proof.
  revert x. induction l as [|y l IH]; intros x Hl Hn; [done|]. inversion Hl as [|? ? Hy Hl']; subst. cbn [foldl]. rewrite Z.min_r by done.
  assert (forall l z, foldl Z.min z l <= z /\ (foldl Z.min z l = z \/ foldl Z.min z l ∈ l) /\ Forall (fun y => foldl Z.min z l <= y) l) as Hg.
  { clear. induction l as [|a l IH]; intros z; cbn [foldl]; [split_and!; [lia|by left|constructor]|].
    destruct (IH (Z.min z a)) as (Hle & Hin & Hall). split; [lia|]. split; [|constructor; [lia|done]].
    destruct Hin as [->|Hin]; [|right; by right]. destruct (Z.min_spec z a) as [[_ ->]|[_ ->]]; [by left|right; by left]. }
  destruct (Hg l y) as (Hle & [Hin|Hin] & Hall); (split; [|by constructor]); [rewrite Hin; by left|by right].
Qed.
Lemma foldl_max_min l x : foldl Z.max x l = - foldl Z.min (- x) (map Z.opp l).
Proof. revert x. induction l as [|y l IH]; intros x; cbn [foldl map]; [lia|]. rewrite IH. do 2 f_equal. lia. Qed.
Lemma foldl_max_spec l x : Forall (fun y => x <= y) l -> l <> [] -> foldl Z.max x l ∈ l /\ Forall (fun y => y <= foldl Z.max x l) l.
Proof.
  intros Hl Hn. rewrite foldl_max_min.
  destruct (foldl_min_spec (map Z.opp l) (- x)) as [Hin Hall]; [apply Forall_fmap; (eapply Forall_impl; [exact Hl|]); cbn; lia|by destruct l|].
  split.
  - apply list_elem_of_fmap in Hin as (y & -> & Hy). by rewrite Z.opp_involutive.
  - rewrite Forall_fmap in Hall. eapply Forall_impl; [exact Hall|]. cbn. lia.
Qed.
(** The axis shows every point, and is never flat. *)
Lemma axis_fits l : l <> [] -> Forall (fun p => - 2 ^ 30 < p < 2 ^ 30) l -> let '(lo, hi) := axis_range l in
  Forall (fun p => lo <= p <= hi) l /\ lo ∈ l /\ lo + 10 <= hi /\ (hi ∈ l \/ hi = lo + 10) /\ int32 (hi - lo).
Proof.
  intros Hn Hl. unfold axis_range.
  destruct (foldl_min_spec l INT32_MAX) as [Hin Hlo]; [(eapply Forall_impl; [exact Hl|]); unfold INT32_MAX; cbn; lia|done|].
  destruct (foldl_max_spec l INT32_MIN) as [Hin' Hhi]; [(eapply Forall_impl; [exact Hl|]); unfold INT32_MIN; cbn; lia|done|].
  set (lo := foldl Z.min INT32_MAX l) in *. set (hi := foldl Z.max INT32_MIN l) in *.
  assert (- 2 ^ 30 < lo < 2 ^ 30) as Blo by (rewrite Forall_forall in Hl; by apply Hl).
  assert (- 2 ^ 30 < hi < 2 ^ 30) as Bhi by (rewrite Forall_forall in Hl; by apply Hl).
  assert (lo <= hi) by (rewrite Forall_forall in Hlo; by apply Hlo).
  assert (Forall (fun p => lo <= p <= hi) l) as Hb by (rewrite Forall_forall in Hlo, Hhi |- *; intros p Hp; specialize (Hlo p Hp); specialize (Hhi p Hp); lia).
  unfold int32. destruct (Z.ltb_spec (hi - lo) 10); split_and!; try done; try lia; try (by left); try (by right).
  eapply Forall_impl; [exact Hb|]. cbn. lia.
Qed.

(** The screen tells what the snapshot does: after any commands and turns of the dial, a
    refresh shows the page asked for and no other; on the dashboard each channel's texts
    read back as its voltage to a hundredth, its current to a tenth and its power in the
    unit shown, watts from 1000 mW on; the chart is the chosen channel's, on an axis
    that holds every point, starts at one and is at least ten wide; nothing is printed
    that overran its buffer. *)
Theorem screen_tells s0 es m : m = monitor_run es (mk_monitor s0 (snd (pb_ui_init true ui_boot))) ->
  let snap := fst (sampler_get (smp m)) in
  let u := pages (refresh_cb m) in
  hidden u = page_of (req_mode u) /\ 0 <= req_mode u < PB_MODE_COUNT /\ 0 <= req_channel u < Z.of_nat PB_NUM_CH /\
  (req_mode u = PB_MODE_DASH -> Forall printable (ch snap) ->
     Forall2 (fun c p => row_tells c (fst p) (snd p)) (ch snap) (zip (dash_val u) (power_unit u))) /\
  (req_mode u = PB_MODE_CHART -> forall c, ch snap !! Z.to_nat (req_channel u) = Some c ->
     st_chart c <> [] -> Forall (fun p => - 2 ^ 30 < p < 2 ^ 30) (st_chart c) ->
     chart_buf u = st_chart c /\ let '(lo, hi) := chart_range u in
     Forall (fun p => lo <= p <= hi) (st_chart c) /\ lo ∈ st_chart c /\ lo + 10 <= hi /\ (hi ∈ st_chart c \/ hi = lo + 10) /\ int32 (hi - lo)).
Proof.
  intros Hm snap u. assert (ui_ok (pages m)) as Hok.
  { rewrite Hm. apply run_ui_ok. split; [done|]. split; [done|by left]. }
  destruct (refresh_pages m Hok) as (E1 & E2 & E3 & E4). fold u in E1, E2, E3, E4. destruct Hok as (Hmode & Hchan & _).
  rewrite E3, E4. split; [done|]. split; [done|]. split; [done|]. unfold u, snap, refresh_cb. clear -Hmode Hchan.
  destruct (sampler_get (smp m)) as [sn s]. cbn [fst pages].
  set (v := if negb (req_mode (pages m) =? shown_mode (pages m)) then _ else _).
  assert (req_channel v = req_channel (pages m)) as Hv by (unfold v; by case_match). clearbody v. split.
  - intros -> Hp. cbn [dash_val power_unit update_dash update eta_ui]. unfold PB_MODE_DASH. rewrite Z.eqb_refl. cbn [dash_val power_unit update_dash update eta_ui].
    induction Hp as [|c l Hc _ IH]; cbn [map zip zip_with]; constructor; [by apply dash_row_tells|done].
  - intros -> c Hc Hne Hb. change (PB_MODE_CHART =? PB_MODE_DASH) with false. rewrite Z.eqb_refl. cbn [chart_buf chart_range update_chart update eta_ui].
    assert (shown_channel sn v = c) as ->.
    { unfold shown_channel, pb_ui_get_channel. rewrite Hv, u8_small by (unfold PB_NUM_CH in Hchan; lia). by apply nth_lookup_Some. }
    split; [done|]. exact (axis_fits _ Hne Hb).
Qed.
End Shown.

(** * A board with a load that grows *)
Module BenchBoard.
(** The uptime, one millisecond a look, and the selected channel: 5.02 V, a milliampere
    per millisecond of uptime, and 1.62 W on the second channel. *)
#[local] Instance bench_os : Os := {| os := Z * Z; k_uptime_get o := (fst o, (fst o + 1, snd o)) |}.
#[local] Instance bench_ina : Ina := {|
  ina_ready _ := true;
  sensor_sample_fetch o := (0, o);
  select_channel k o := (0, (fst o, k));
  sensor_channel_get qn o := (0, match qn with
                                 | Voltage => (5, 20000)
                                 | Current => (fst o / 1000, fst o mod 1000 * 1000)
                                 | Power => (snd o - 1, 620000)
                                 end, o);
  sensor_value_to_float v := fadd (f32_of_int (fst v)) (fdiv (f32_of_int (snd v)) (f32_of_int 1000000));
|}.
Definition power_on : @os bench_os := (100, 0).
Definition started : sampler := match sampler_start (sampler_boot power_on) with Some s => s | None => sampler_boot power_on end.
Definition bench_run : list monitor_event := [Pass; Pass; Pass; Pass; Dial true 1 INPUT_KEY_B; Pass; Pass; Mode "chart"; Pass].
Definition bench (u : ui) : monitor := monitor_run bench_run (mk_monitor started u).

Lemma bench_started : sampler_start (sampler_boot power_on) = Some started.
Proof. vm_compute. reflexivity. Qed.
Lemma snapshot_tells_witness : exists c, ch (fst (sampler_get (smp (bench ui_boot)))) !! 1%nat = Some c /\
  st_chart c = replicate 159 0 ++ [114] /\ stats_tell (readings 1 (since_reset (history bench_run (mk_monitor started ui_boot)))) c.
Proof.
  destruct (snapshot_tells power_on started ui_boot bench_run bench_started) as (_ & _ & Hc).
  destruct (ch (fst (sampler_get (smp (bench ui_boot)))) !! 1%nat) as [c|] eqn:E; [|vm_compute in E; discriminate E].
  exists c. destruct (Hc 1%nat c E) as (_ & Hchart & _ & Hst). split; [reflexivity|]. split; [rewrite Hchart; vm_compute; reflexivity|].
  apply Hst; [vm_compute; discriminate|vm_compute; reflexivity|].
  match goal with |- Forall _ ?l => let v := eval vm_compute in l in change l with v end. repeat constructor.
Defined.
Lemma screen_tells_witness : let m := bench (snd (pb_ui_init true ui_boot)) in
  let u := pages (refresh_cb m) in
  hidden u = [true; false; true] /\ 0 <= req_channel u < 2 /\ chart_range u = (0, 114).
Proof.
  destruct (screen_tells started bench_run (bench (snd (pb_ui_init true ui_boot))) eq_refl) as (Hh & _ & Hc & _).
  split; [rewrite Hh; vm_compute; reflexivity|]. split; [exact Hc|vm_compute; reflexivity].
Defined.
(** A dashboard's row, as it is printed. *)
Example dash_shows : let u := pages (refresh_cb (monitor_run [Pass] (mk_monitor started (snd (pb_ui_init true ui_boot))))) in
  (dash_val u, power_unit u) = ([["5.02"; "102.0"; "620.0"]; ["5.02"; "102.0"; "1.62"]], ["mW"; "W"])%string.
Proof. vm_compute. reflexivity. Qed.
End BenchBoard.
